(* ===== verification/_CoqProject ===== *)
-Q . S2P
Prelude.v
Trace.v
ReplsetModels.v
ReplsetMembers.v
ReplsetVotes.v
MongoClient.v
MongoDial.v
Api.v
GoSort.v
Kube.v
Hosts.v
KubeTrace.v
WriteLog.v
ReplsetReconcile.v
SystemUsers.v
Shell.v
Cluster.v
ClusterSafety.v
GoHeap.v
Storage.v
BackupApi.v
BackupSchedule.v
Lease.v
BackupExec.v
PbmConfig.v
BackupController.v
BackupTrace.v
GoFloat.v
InPlace.v
SmartUpdate.v
Defaults.v
DefaultsFacts.v
DefaultsIdem.v
Volumes.v
SmartTrace.v
VolumeTrace.v
Autoscale.v
Status.v
StatusFacts.v
Controller.v
Finalizers.v
FinalizerFacts.v
Decommission.v
DecommissionFacts.v
Pause.v
PauseFacts.v
RestoreApi.v
RestoreLogical.v
PhysicalRestore.v
SnapshotRestore.v
Restore.v
RestoreTrace.v
SnapshotFacts.v
RestoreFacts.v
Apply.v
SyncApi.v
SyncClient.v
Uri.v
Sync.v
SyncTrace.v
SyncFacts.v
UriFacts.v
