(* ===== verification/Prelude.v ===== *)
(** * Percona Operator for MongoDB: a verification library

    The operator (src/, Go) watches four custom resources and drives the
    Kubernetes API, the MongoDB servers and Percona Backup for MongoDB (PBM)
    towards what they ask for:
      - PerconaServerMongoDB, a cluster: controller
        pkg/controller/perconaservermongodb (psmdb_controller.go and the files
        beside it), which lays out stateful sets, configures the replica sets
        (mgo.go), creates users, schedules backups (backup.go) and rolls pods to
        new revisions (smart.go);
      - PerconaServerMongoDBBackup, one backup:
        pkg/controller/perconaservermongodbbackup;
      - PerconaServerMongoDBRestore, one restore:
        pkg/controller/perconaservermongodbrestore;
      - PerconaServerMongoDBClusterSync, a synchronisation of a cluster from another
        MongoDB by PCSM: pkg/controller/perconaservermongodbclustersync.
    pkg/apis/psmdb/v1 holds the resources' types, pkg/psmdb/mongo the MongoDB
    client and the arithmetic of replica set members, pkg/psmdb/backup the
    client of PBM, pkg/k8s leases and small helpers, pkg/naming labels and names.

    ** How the program is modelled

    A Go function is a Gallina function of the same name.  A function that
    reaches the outside is a handler [GoM W A := W → result A * W] over an
    abstract world [W] (Prelude): what it wrote before it fails is kept, an
    error is a value with its wrapping messages, a panic is an error that the
    handlers let through ([catchM]), a deferred call is [deferM].  What is not
    under src/ is a class of operations over [W], with what the code relies on
    as a class of laws: the Kubernetes API ([K8sClient] in Kube, [BackupClient] in
    BackupApi, [PodClient] in InPlace, [LeaseClient] in Lease), the MongoDB
    driver ([MongoDriver] in MongoClient), PBM ([PBM] in BackupExec), the cron
    runner ([Cron] of BackupSchedule), YAML, version comparison, retries.
    Go's maps are [gmap]s; where the code ranges over one, the order is a
    parameter ([MapOrder]); [sort.Slice] is a class with the documented laws
    (GoSort), container/heap is translated (GoHeap).  int32 and int64 are [Z]
    with [wrap32] and [wrap64] where the code computes; float64 is the Standard
    Library's binary64 (GoFloat).  Log messages, events, metrics and deep copies
    are left out; a struct keeps the fields that the modelled code reads or
    writes.

    ** The files

    Prelude (this file): errors, results, the handler monad, Go's integers,
    strings and maps built by loops, retries, and the logics [hoare] and
    [ensures] over handlers.  Trace, KubeTrace: handlers over a world paired with
    the list of the calls they made, and the logic [emits]/[quiet] for it.

    Replica sets.  ReplsetModels: the documents of mongo/models.go.
    ReplsetMembers: RemoveOld, AddNew, RemoveArbiterIfNeeded,
    FixMemberHostnames... of mongo/mongo.go on the list of members.  ReplsetVotes:
    setVotes, limitVotingChanges, UpdateVotes.  MongoClient: every command of the
    client, as documents sent to the driver; MongoDial: Dial and its retries.
    Api: the cluster resource; Kube, Hosts: pods, services and the addresses of
    members (psmdb/service.go, getters.go).  ReplsetReconcile:
    updateConfigMembers and the reconfigurations it writes (mgo.go).
    SystemUsers: system roles and users; Shell: the commands run in a mongo shell;
    Cluster: initialisation, crash recovery, sharding and reconcileCluster;
    WriteLog, ClusterSafety: the same over a world that records the
    reconfigurations.

    Backups.  Storage, BackupApi: the resources.  GoHeap, BackupSchedule:
    scheduled backups (backup.go of the cluster controller).  Lease: pkg/k8s.
    BackupExec: the executors, status and cancellation of one backup (backup.go,
    snapshot.go, cancel.go of the backup controller).  PbmConfig: PBM's
    configuration (psmdb/backup/pbm.go).  BackupController: Reconcile of the
    backup controller; BackupTrace: its calls as a trace.

    Rolling updates.  GoFloat, InPlace: in-place resizes (inplace.go).
    SmartUpdate: smart.go and balancer.go.  SmartTrace: their calls as a trace.

    Volumes.  Volumes: volumes.go, volume_autoscaling.go and metrics_client.go, over
    the objects in memory and the world.  VolumeTrace: their calls as a trace, and
    the shrink machine.  Autoscale: what autoscaling does to the requests.

    The status of a cluster.  Status: status.go and searchStatus, over the cluster
    in memory and the world.  StatusFacts: what the status means.

    The life of a cluster.  Controller: the client and the state that the steps
    of the cluster controller's Reconcile share, and the getters of getters.go.
    Finalizers: deletion of a cluster (finalizers.go).  Decommission: stateful
    sets, shards, config servers and mongos that are no longer asked for, orphan
    volume claims, the feature compatibility version (fcv.go).  Pause: the CR
    version, sharding switched on or off, pausing, safe downscale.
    FinalizerFacts, DecommissionFacts, PauseFacts: what is proved of each.

    Restores.  RestoreApi: the resource, its checks, defaults and conditions.
    RestoreLogical: the restore's backup and storage, the leases and locks it waits
    for, validation (validate.go), resynchronisation, logical restores (logical.go).
    PhysicalRestore: the template of a pod that restores, the stateful sets made
    ready, PBM's configuration in a secret, the physical restore (physical.go) and
    util.Apply.  SnapshotRestore: restores from volume snapshots (snapshots.go).
    Restore: Reconcile of the restore controller, its variables a memory beside the
    world, which the deferred writing of the status reads.  RestoreTrace: its calls
    as a trace; RestoreFacts, SnapshotFacts: what is proved of it.

    Synchronisation.  Apply: how an object is written (pkg/util/apply.go,
    pkg/k8s/utils.go), over any kind of object, by a class.  SyncApi: the resource,
    and the objects built from it (psmdb/clustersync).  SyncClient: the commands to
    the pods of PCSM (clustersync/client).  Uri: the part of net/url that writes
    connection strings.  Sync: mode.go, uri.go, target_user.go and Reconcile of the
    controller.  SyncTrace: its calls as a trace; SyncFacts, UriFacts: what is proved
    of it.

    The specification.  Defaults: CheckNSetDefaults and the defaults of each part
    of a cluster (apis/psmdb/v1/psmdb_defaults.go), on the whole specification.
    DefaultsFacts: what an accepted cluster satisfies.  DefaultsIdem: applying the
    defaults twice.

    ** What is proved

    PROJECT.json numbers the main theorems; their comments carry the number.

    Replica sets.  Removal keeps wanted members, never empties a configuration and
    takes at most one voter; addition keeps ids and hosts distinct; both converge.
    At most seven voters, an odd number (but for votes the operator may not take
    away, and unsafe layouts), one vote changed per reconfiguration.  The chain of
    configurations one reconciliation writes.  Recovery, shard removal and when a
    forced reconfiguration can happen.  Roles and users converge.  No user name or
    password, of any bytes, breaks out of the shell command, and it is read back as
    given when it is UTF-8.  The client's commands; Dial ends.

    Backups.  Retention deletes exactly the oldest ready backups, the registry of
    jobs and the cron agree, the jobs are the enabled tasks, catching up creates at
    most one backup.  Mutual exclusion of leases under any interleaving of stale
    reads.  A cancelled backup never runs again.  Every run of the backup controller
    is a run of an abstract controller given as a relation on traces, with
    consequences on starting (after the deadline, the leases, the jobs and PBM's
    locks were looked at), erasing (snapshots of volumes included) and unlocking.
    Without PBM a backup is deleted where PBM wrote it.

    Pods and volumes.  A smart update takes one pod down at a time, a pod that says
    it is the primary last and after stepping down, and only after the looks that
    its theorem lists.  Every run of the volume handler is a step of an abstract
    shrink machine.  Autoscaling asks for more storage only, up to its maximum.

    The status.  A cluster is shown ready only when its pods were seen ready; an
    error is always shown; the status is written to the cluster it is about; the
    condition on images stays until the cluster is ready.

    The life of a cluster.  A finalizer is removed only when its work is done; pods
    go one at a time, the primary last, mongos before the shards and the config
    servers after every shard.  A replica set goes only once the shard was drained
    or holds no data of users.  The compatibility version moves by one release.
    Sharding toggles only with all pods gone; a safe downscale removes one member at
    a time.

    Restores.  A restore starts only in a run that found the leases and PBM's locks
    free, a logical one only with point-in-time recovery stopped.  Claims of volumes
    are deleted and made as a snapshot restore may.  An error of the checks before
    the start leaves the state of the restore as it is; a finished restore is left
    alone while its backup can be read.

    Synchronisation.  PCSM is started only in a run that first took or kept the
    synchronisation lease and then, right before the command, saw no backup and no
    restore; a command that changes PCSM reaches one active instance at most.
    Connection strings can be read back.

    The specification.  A cluster that CheckNSetDefaults accepts is complete, and
    consistent as far as its version and its unsafe flags ask for; the defaults
    leave such a cluster as it is (but for an affinity of its own).

    ** Bounds

    Loops of the source that are bounded there carry the same bound (retries,
    polls, [for range n]); loops over lists are structural.  The loop that
    removes a shard has no bound in the source: it is modelled with fuel and
    removeShard_loop_done shows which fuel is enough for which answers of mongos.
    The polls of a resize are at most one per second of its two minutes; that a
    call may take longer than a second is an early timeout, which the class of
    polls may return at any time.

    ** Not modelled

    Builders of the cluster's Kubernetes objects (stateful sets, containers, services,
    config maps, PMM, log collector, vector search) are long functions from a
    specification to a record that only Kubernetes interprets.  Generated code
    (deep copies, the version service's client), mocks, command line programs and
    log rotation are left aside.  Of the cluster controller, the top-level sequence
    of Reconcile is left out: between the modelled steps it calls the builders
    above.  VPA, custom users, TLS and the version service talk to services of their
    own (cert-manager, crypto/x509, Percona's version service) and change no state that the modelled parts
    decide on; where a modelled handler calls one of them, the call is an
    operation of a class.  PROJECT.json lists every component. *)
From stdpp Require Export base option list gmap sets strings fin_maps pretty sorting.
From Stdlib Require Export ZArith Lia.
From Stdlib Require Import Ascii.

#[global] Arguments Z.ltb : simpl never.
#[global] Arguments Z.leb : simpl never.
#[global] Arguments Z.eqb : simpl never.
#[global] Arguments Z.add : simpl never.
#[global] Arguments Z.sub : simpl never.
#[global] Arguments Z.mul : simpl never.

(** * Go errors

    [errors.New]/[errors.Errorf] make an [ENew]; [errors.Wrap] adds a message;
    an [EExt] is an error value that comes from code outside the repository
    (driver, Kubernetes client), of which the operator only inspects the
    class. *)

Inductive ext_kind :=
| KCommand (code : Z) (labels : list string)  (* mongo.CommandError *)
| KNotFound                                   (* k8serrors.IsNotFound *)
| KPBMNotFound                                (* errors.ErrNotFound of PBM *)
| KAlreadyExists
| KConflict
| KNoDocuments                                (* mongo.ErrNoDocuments *)
| KOther.

Inductive error :=
| ENew (msg : string)
| EExt (kind : ext_kind) (msg : string)
| EWrap (e : error) (msg : string).

#[export] Instance ext_kind_eq_dec : EqDecision ext_kind.
Proof. solve_decision. Defined.
#[export] Instance error_eq_dec : EqDecision error.
Proof. solve_decision. Defined.

(** A panic is an error that no handler of the source catches. *)
Definition nil_panic : error :=
  ENew "panic: runtime error: invalid memory address or nil pointer dereference".
Definition index_panic : error := ENew "panic: runtime error: index out of range".

(** [errors.Cause]/[errors.As]/[errors.Is] look through the wrapping. *)
Fixpoint err_cause (e : error) : error :=
  match e with EWrap e' _ => err_cause e' | _ => e end.

Definition err_kind (e : error) : option ext_kind :=
  match err_cause e with EExt k _ => Some k | _ => None end.

(** [error.Error()] *)
Fixpoint err_string (e : error) : string :=
  match e with
  | ENew m => m
  | EExt _ m => m
  | EWrap e' m => m +:+ ": " +:+ err_string e'
  end.

(** * Results and the state/error monad of a handler *)

Inductive result (A : Type) :=
| Ok (a : A)
| Err (e : error).
Arguments Ok {A} a.
Arguments Err {A} e.

#[export] Instance result_eq_dec {A} `{EqDecision A} : EqDecision (result A).
Proof. solve_decision. Defined.

#[export] Instance result_ret : MRet result := λ A a, Ok a.
#[export] Instance result_bind : MBind result := λ A B f m,
  match m with Ok a => f a | Err e => Err e end.
#[export] Instance result_fmap : FMap result := λ A B f m,
  match m with Ok a => Ok (f a) | Err e => Err e end.

Definition is_ok {A} (r : result A) : bool :=
  match r with Ok _ => true | Err _ => false end.

Definition wrap_err {A} (msg : string) (r : result A) : result A :=
  match r with Ok a => Ok a | Err e => Err (EWrap e msg) end.

(** A handler reads and writes a world [W]; what it wrote before it fails is
    kept, as in the Go code. *)
Definition GoM (W A : Type) : Type := W → result A * W.

#[export] Instance gom_ret W : MRet (GoM W) := λ A a w, (Ok a, w).
#[export] Instance gom_bind W : MBind (GoM W) := λ A B f m w,
  match m w with
  | (Ok a, w') => f a w'
  | (Err e, w') => (Err e, w')
  end.

Definition throw {W A} (e : error) : GoM W A := λ w, (Err e, w).
Definition liftR {W A} (r : result A) : GoM W A := λ w, (r, w).
Definition wrapM {W A} (msg : string) (m : GoM W A) : GoM W A :=
  λ w, let '(r, w') := m w in (wrap_err msg r, w').
(** Runs [m] and hands its error, if any, to the continuation. *)
Definition tryM {W A} (m : GoM W A) : GoM W (result A) :=
  λ w, let '(r, w') := m w in (Ok r, w').
(** A deferred call runs whatever [m] returned; its own error is only logged. *)
Definition deferM {W A B} (d : GoM W B) (m : GoM W A) : GoM W A :=
  λ w, let '(r, w') := m w in (r, (d w').2).
Definition getM {W} : GoM W W := λ w, (Ok w, w).
Definition modifyM {W} (f : W → W) : GoM W unit := λ w, (Ok tt, f w).
(** A handler over a memory [S] of its own beside the world *)
Definition on_world {S W A} (m : GoM W A) : GoM (S * W) A := λ s, let '(r, w') := m s.2 in (r, (s.1, w')).
Definition get_mem {S W} : GoM (S * W) S := λ s, (Ok s.1, s).
Definition mod_mem {S W} (f : S → S) : GoM (S * W) unit := λ s, (Ok tt, (f s.1, s.2)).

Lemma bind_ok {W A B} (m : GoM W A) (f : A → GoM W B) w a w' :
  m w = (Ok a, w') → (m ≫= f) w = f a w'.
Proof. unfold mbind, gom_bind. by intros ->. Qed.
Lemma bind_err {W A B} (m : GoM W A) (f : A → GoM W B) w e w' :
  m w = (Err e, w') → (m ≫= f) w = (Err e, w').
Proof. unfold mbind, gom_bind. by intros ->. Qed.

Fixpoint mapM_list {W A} (f : A → GoM W unit) (l : list A) : GoM W unit :=
  match l with
  | [] => mret tt
  | x :: l' => f x ≫= λ _, mapM_list f l'
  end.

Declare Scope go_scope.
Delimit Scope go_scope with go.
Notation "'when' b 'raise' e ; k" := (if b : bool then throw e else k)
  (at level 100, b at level 99, e at level 99, k at level 200, right associativity) : go_scope.
Open Scope go_scope.

(** * Machine integers: Go's [int] and [int64] *)

Definition wrap64 (z : Z) : Z := ((z + 2 ^ 63) mod 2 ^ 64 - 2 ^ 63)%Z.
Definition wrap32 (z : Z) : Z := ((z + 2 ^ 31) mod 2 ^ 32 - 2 ^ 31)%Z.
Definition int64_ok (z : Z) : Prop := (- 2 ^ 63 ≤ z < 2 ^ 63)%Z.
Definition int32_ok (z : Z) : Prop := (- 2 ^ 31 ≤ z < 2 ^ 31)%Z.

Lemma wrap64_id z : int64_ok z → wrap64 z = z.
Proof. unfold int64_ok, wrap64. intros. rewrite Z.mod_small; lia. Qed.
Lemma wrap64_range z : int64_ok (wrap64 z).
Proof. unfold int64_ok, wrap64. pose proof (Z.mod_pos_bound (z + 2 ^ 63) (2 ^ 64)). lia. Qed.
Lemma wrap32_id z : int32_ok z → wrap32 z = z.
Proof. unfold int32_ok, wrap32. intros. rewrite Z.mod_small; lia. Qed.

(** Go's [%] truncates; on a non-negative number it tests parity. *)
Lemma rem2_even n : (Z.rem (Z.of_nat n) 2 =? 0)%Z = Nat.even n.
Proof.
  rewrite Z.rem_mod_nonneg by lia.
  destruct (Nat.Even_or_Odd n) as [[q ->]|[q ->]].
  - replace (Z.of_nat (2 * q)) with (Z.of_nat q * 2)%Z by lia.
    rewrite Z.mod_mul, Nat.even_mul by lia. done.
  - replace (Z.of_nat (2 * q + 1)) with (1 + Z.of_nat q * 2)%Z by lia.
    rewrite Z.mod_add, Nat.even_add, Nat.even_mul by lia. done.
Qed.

(** [strconv.Itoa] and [strconv.Atoi] *)
Definition itoa (z : Z) : string := pretty z.

Definition digit_of (a : ascii) : option Z :=
  let n := Z.of_nat (nat_of_ascii a) in
  if ((48 <=? n) && (n <=? 57))%Z then Some (n - 48)%Z else None.

Fixpoint digits_val (acc : Z) (s : string) : option Z :=
  match s with
  | EmptyString => Some acc
  | String a s' =>
      match digit_of a with
      | Some d => digits_val (10 * acc + d)%Z s'
      | None => None
      end
  end.

Definition atoi (s : string) : option Z :=
  let signed :=
    match s with
    | String a s' =>
        if bool_decide (a = "-"%char) then
          match s' with EmptyString => None | _ => Z.opp <$> digits_val 0 s' end
        else if bool_decide (a = "+"%char) then
          match s' with EmptyString => None | _ => digits_val 0 s' end
        else digits_val 0 s
    | EmptyString => None
    end in
  match signed with
  | Some z => if ((- 2 ^ 63 <=? z) && (z <? 2 ^ 63))%Z then Some z else None
  | None => None
  end.

(** [Atoi] inverts [Itoa]. *)
Lemma digit_of_pretty n : (n < 10)%N → digit_of (pretty_N_char n) = Some (Z.of_N n).
Proof.
  intros. assert (n = 0 ∨ n = 1 ∨ n = 2 ∨ n = 3 ∨ n = 4 ∨ n = 5 ∨ n = 6 ∨ n = 7 ∨ n = 8 ∨ n = 9)%N
    as Hn by lia.
  by repeat destruct Hn as [->|Hn]; [..|subst].
Qed.

Lemma digits_val_pretty_go n s :
  digits_val 0 (pretty_N_go n s) = digits_val (Z.of_N n) s.
Proof.
  revert s; induction (N.lt_wf_0 n) as [n _ IH]; intros s.
  destruct (decide (n = 0)%N) as [->|Hn]; [by rewrite pretty_N_go_0|].
  rewrite pretty_N_go_step by lia. rewrite IH by (apply N.div_lt; lia). simpl.
  rewrite digit_of_pretty by (apply N.mod_lt; lia). f_equal.
  rewrite (N.div_mod n 10) at 3 by done. lia.
Qed.

Lemma digits_val_pretty (n : N) : digits_val 0 (pretty n) = Some (Z.of_N n).
Proof.
  unfold pretty, pretty_N. case_decide as H; [by subst|]. apply digits_val_pretty_go.
Qed.

Lemma pretty_N_head (n : N) : ∃ a s, pretty n = String a s ∧ a ≠ "-"%char ∧ a ≠ "+"%char.
Proof.
  pose proof (digits_val_pretty n) as Hd.
  destruct (pretty n) as [|a s] eqn:E.
  - unfold pretty, pretty_N in E. case_decide; [done|].
    rewrite pretty_N_go_step in E by lia.
    assert (∀ m t, t ≠ EmptyString → pretty_N_go m t ≠ EmptyString) as Hne.
    { intros m; induction (N.lt_wf_0 m) as [m _ IH]; intros t Ht.
      destruct (decide (m = 0)%N) as [->|]; [by rewrite pretty_N_go_0|].
      rewrite pretty_N_go_step by lia. apply IH; [apply N.div_lt; lia|done]. }
    by apply Hne in E.
  - exists a, s. split; [done|]. split; intros ->; discriminate Hd.
Qed.

Lemma int64_ok_test z : int64_ok z → ((- 2 ^ 63 <=? z) && (z <? 2 ^ 63))%Z = true.
Proof. intros [? ?]. apply andb_true_intro. split; [by apply Z.leb_le|by apply Z.ltb_lt]. Qed.

Lemma atoi_itoa z : int64_ok z → atoi (itoa z) = Some z.
Proof.
  intros Hz. apply int64_ok_test in Hz. unfold itoa.
  assert (∀ n : N, atoi (pretty n) = (let z := Z.of_N n in
    if ((- 2 ^ 63 <=? z) && (z <? 2 ^ 63))%Z then Some z else None)) as Hpos.
  { intros n. unfold atoi. pose proof (digits_val_pretty n) as Hd.
    destruct (pretty_N_head n) as (a & s & E & ? & ?). rewrite E in *.
    rewrite !bool_decide_eq_false_2 by done. by rewrite Hd. }
  destruct z as [|p|p].
  - done.
  - change (pretty (Z.pos p)) with (pretty (N.pos p)). rewrite Hpos.
    cbv zeta. change (Z.of_N (N.pos p)) with (Z.pos p). by rewrite Hz.
  - change (pretty (Z.neg p)) with ("-" +:+ pretty (N.pos p)). unfold atoi.
    pose proof (digits_val_pretty (N.pos p)) as Hd.
    destruct (pretty_N_head (N.pos p)) as (a & s & E & _ & _). rewrite E in *.
    change ("-" +:+ String a s) with (String "-" (String a s)). cbv iota.
    rewrite bool_decide_eq_true_2 by done. rewrite Hd.
    change (Z.opp <$> Some (Z.of_N (N.pos p))) with (Some (Z.neg p)). cbv iota. by rewrite Hz.
Qed.

(** * Strings *)

Fixpoint has_prefix (p s : string) : bool :=
  match p, s with
  | EmptyString, _ => true
  | String a p', String b s' => bool_decide (a = b) && has_prefix p' s'
  | String _ _, EmptyString => false
  end.

Fixpoint str_contains (sub s : string) : bool :=
  has_prefix sub s ||
  match s with EmptyString => false | String _ s' => str_contains sub s' end.

Lemma str_app_nil s : "" +:+ s = s.
Proof. done. Qed.
Lemma str_app_cons a s t : String a s +:+ t = String a (s +:+ t).
Proof. done. Qed.
Lemma str_app_nil_r s : s +:+ "" = s.
Proof. induction s as [|a s IH]; [done|]. by rewrite str_app_cons, IH. Qed.
Lemma str_app_assoc s t u : (s +:+ t) +:+ u = s +:+ (t +:+ u).
Proof. induction s as [|a s IH]; [done|]. by rewrite !str_app_cons, IH. Qed.

Lemma has_prefix_app p s : has_prefix p (p +:+ s) = true.
Proof. induction p as [|a p IH]; simpl; [done|]. by rewrite bool_decide_eq_true_2. Qed.

Lemma has_prefix_spec p s : has_prefix p s = true ↔ ∃ t, s = p +:+ t.
Proof.
  split; [|intros [t ->]; apply has_prefix_app].
  revert s; induction p as [|a p IH]; intros s; simpl; [by exists s|].
  destruct s as [|b s]; [done|]. intros [E H]%andb_prop.
  apply bool_decide_eq_true in E as ->. destruct (IH s H) as [t ->]. by exists t.
Qed.

(** * Panics and retries

    A panic is an error whose message starts with the runtime's word for it. *)
Definition is_panic (e : error) : bool :=
  match err_cause e with ENew m => has_prefix "panic: " m | _ => false end.

(** [err := m()]: the error is a value; a panic goes through. *)
Definition catchM {W A} (m : GoM W A) : GoM W (result A) := λ w,
  match m w with
  | (Ok a, w') => (Ok (Ok a), w')
  | (Err e, w') => (if is_panic e then Err e else Ok (Err e), w')
  end.

(** k8s.io/client-go/util/retry's [OnError]: the function is run until it
    succeeds, it fails with an error that is not to be retried, or the steps of
    the backoff are used up; the last error is returned. *)
Class GoRetryOn := retry_on : ∀ {W}, nat → (error → bool) → GoM W unit → GoM W unit.
Inductive attempts {W} (retriable : error → bool) (fn : GoM W unit) : W → result unit → W → Prop :=
| attempts_last w r w' : fn w = (r, w') → attempts retriable fn w r w'
| attempts_again w e w1 r w2 :
    fn w = (Err e, w1) → retriable e = true →
    attempts retriable fn w1 r w2 → attempts retriable fn w r w2.
Class GoRetryOnLaws (R : GoRetryOn) :=
  retry_on_attempts W steps retriable (fn : GoM W unit) w :
    attempts retriable fn w (retry_on steps retriable fn w).1 (retry_on steps retriable fn w).2.

Fixpoint retry_steps {W} (steps : nat) (retriable : error → bool) (fn : GoM W unit) : GoM W unit := λ w,
  match fn w, steps with
  | (Err e, w'), S (S _ as n) => if retriable e then retry_steps n retriable fn w' else (Err e, w')
  | (r, w'), _ => (r, w')
  end.
Definition steps_retry : GoRetryOn := λ W, retry_steps.
Lemma steps_retry_laws : GoRetryOnLaws steps_retry.
Proof.
  intros W steps p fn. unfold retry_on, steps_retry. induction steps as [|n IH]; intros w; cbn [retry_steps].
  - destruct (fn w) as [[a|e] w'] eqn:Ef; by apply attempts_last.
  - destruct (fn w) as [[a|e] w'] eqn:Ef; [by apply attempts_last|]. destruct n as [|n]; [by apply attempts_last|].
    destruct (p e) eqn:Ep; [|by apply attempts_last]. eapply attempts_again; [done|done|]. apply IH.
Qed.


(** * Maps built by a Go loop over a slice

    [cm[k] = v] for every element that has a key: a later element overwrites
    an earlier one with the same key. *)

Section go_map.
Context {A V : Type}.
Implicit Types (f : A → option (string * V)) (l : list A).

Definition go_map_add f (m : gmap string V) (x : A) : gmap string V :=
  match f x with Some (k, v) => <[k := v]> m | None => m end.

Definition go_map_of f l : gmap string V := foldl (go_map_add f) ∅ l.

Lemma go_map_of_snoc f l x : go_map_of f (l ++ [x]) = go_map_add f (go_map_of f l) x.
Proof. unfold go_map_of. by rewrite foldl_app. Qed.

Lemma go_map_of_Some f l k v :
  go_map_of f l !! k = Some v → ∃ x, x ∈ l ∧ f x = Some (k, v).
Proof.
  induction l as [|x l IH] using rev_ind; [done|].
  rewrite go_map_of_snoc. unfold go_map_add.
  destruct (f x) as [[k' v']|] eqn:E.
  - destruct (decide (k' = k)) as [->|Hne].
    + rewrite lookup_insert_eq. intros [= ->]. exists x. set_solver.
    + rewrite lookup_insert_ne by done. intros (y & ? & ?)%IH. exists y. set_solver.
  - intros (y & ? & ?)%IH. exists y. set_solver.
Qed.

Lemma go_map_of_is_Some f l k :
  is_Some (go_map_of f l !! k) ↔ ∃ x v, x ∈ l ∧ f x = Some (k, v).
Proof.
  split; [intros [v (x & ? & ?)%go_map_of_Some]; eauto|].
  induction l as [|x l IH] using rev_ind; [set_solver|].
  intros (y & v & Hy & E). rewrite go_map_of_snoc. unfold go_map_add.
  destruct (f x) as [[k' v']|] eqn:Ex.
  - destruct (decide (k' = k)) as [->|Hne]; [rewrite lookup_insert_eq; eauto|].
    rewrite lookup_insert_ne by done.
    apply elem_of_app in Hy as [Hy| ->%list_elem_of_singleton]; [eauto|congruence].
  - apply elem_of_app in Hy as [Hy| ->%list_elem_of_singleton]; [eauto|congruence].
Qed.

Lemma go_map_of_None f l k :
  go_map_of f l !! k = None ↔ ∀ x v, x ∈ l → f x ≠ Some (k, v).
Proof.
  rewrite eq_None_not_Some, go_map_of_is_Some. naive_solver.
Qed.

(** When the keys are distinct nothing is overwritten. *)
Lemma go_map_of_nodup f l x k v :
  (∀ y k' v', y ∈ l → f y = Some (k', v') → k' = k → y = x) →
  x ∈ l → f x = Some (k, v) → go_map_of f l !! k = Some v.
Proof.
  intros Hu Hx E.
  destruct (go_map_of f l !! k) as [v'|] eqn:El.
  - apply go_map_of_Some in El as (y & Hy & Ey).
    assert (y = x) as -> by eauto. congruence.
  - rewrite go_map_of_None in El. by destruct (El x v Hx).
Qed.
End go_map.

(** * Lists *)

(** How many elements satisfy a test. *)
Fixpoint count {A} (p : A → bool) (l : list A) : nat :=
  match l with [] => 0 | x :: l' => (if p x then 1 else 0) + count p l' end.

Section count.
Context {A : Type} (p : A → bool).
Lemma count_app l k : count p (l ++ k) = count p l + count p k.
Proof. induction l; simpl; lia. Qed.
Lemma count_le l : count p l ≤ length l.
Proof. induction l; simpl; [lia|]. case_match; lia. Qed.
Lemma count_zero l : count p l = 0 ↔ ∀ x, x ∈ l → p x = false.
Proof.
  induction l as [|x l IH]; simpl; [set_solver|]. split.
  - destruct (p x) eqn:E; [lia|]. intros H y [->|Hy]%elem_of_cons; [done|].
    by apply IH.
  - intros H. rewrite (H x) by set_solver. apply IH. set_solver.
Qed.
Lemma count_pos l : 0 < count p l ↔ ∃ x, x ∈ l ∧ p x = true.
Proof.
  induction l as [|x l IH]; simpl; [set_solver by lia|].
  destruct (p x) eqn:E; split.
  - intros _. exists x. set_solver.
  - lia.
  - intros (y & ? & ?)%IH. exists y. set_solver.
  - intros (y & [->|Hy]%elem_of_cons & ?); [congruence|]. apply IH. eauto.
Qed.
Lemma count_insert l i x y :
  l !! i = Some x →
  count p (<[i := y]> l) + (if p x then 1 else 0) = count p l + (if p y then 1 else 0).
Proof.
  revert i; induction l as [|z l IH]; intros [|i]; simpl; intros; simplify_eq; [lia|].
  specialize (IH _ H). lia.
Qed.
Lemma count_delete l i x :
  l !! i = Some x → count p (delete i l) + (if p x then 1 else 0) = count p l.
Proof.
  revert i; induction l as [|z l IH]; intros [|i]; simpl; intros; simplify_eq; [lia|].
  specialize (IH _ H). lia.
Qed.
End count.

Lemma count_ext {A} (p q : A → bool) l :
  (∀ x, x ∈ l → p x = q x) → count p l = count q l.
Proof.
  induction l as [|x l IH]; simpl; intros H; [done|].
  rewrite (H x) by set_solver. rewrite IH; [done|set_solver].
Qed.

Lemma sublist_filter_self {A} (P : A → Prop) `{∀ x, Decision (P x)} l : filter P l `sublist_of` l.
Proof.
  induction l as [|x l IH]; [done|]. rewrite filter_cons. case_decide; by constructor.
Qed.

(** An element of an append is in its first list, or behind it. *)
Lemma app_split {A} (l1 l2 d1 d2 : list A) e :
  l1 ++ l2 = d1 ++ e :: d2 → (e ∈ l1) ∨ ∃ d, d1 = l1 ++ d ∧ l2 = d ++ e :: d2.
Proof.
  revert d1. induction l1 as [|x l1 IH]; intros d1 Hd; [right; by exists d1|].
  destruct d1 as [|y d1]; cbn in Hd; simplify_eq; [left; left|].
  destruct (IH d1) as [Hin|(d & -> & ->)]; [done|left; by right|]. right. by exists d.
Qed.

(** * Iterating an operation that reports whether it changed its input

    The reconcile loop calls such an operation again until it reports no
    change; a decreasing measure bounds the number of rounds. *)
Section converge.
Context {A : Type} (f : A → A * bool) (μ : A → nat).
Context (f_dec : ∀ x, (f x).2 = true → μ (f x).1 < μ x).
Context (f_fix : ∀ x, (f x).2 = false → (f x).1 = x).

Lemma iter_fixed k x : (f x).2 = false → Nat.iter k (λ y, (f y).1) x = x.
Proof. intros H. induction k as [|k IH]; simpl; [done|]. by rewrite IH, f_fix. Qed.

Lemma iter_converges k x : μ x ≤ k → (f (Nat.iter k (λ y, (f y).1) x)).2 = false.
Proof.
  revert x; induction k as [|k IH]; intros x Hk.
  - simpl. destruct ((f x).2) eqn:E; [|done]. apply f_dec in E. lia.
  - destruct ((f x).2) eqn:E.
    + rewrite Nat.iter_succ_r. apply IH. apply f_dec in E. lia.
    + by rewrite iter_fixed.
Qed.
End converge.

(** * Handlers over a state of their own and a world

    [hoare P m Q]: from a state that satisfies [P], whatever the world, [m]
    ends with a result and a state that satisfy [Q]. *)
Section hoare.
Context {S W : Type}.
Implicit Types P : S → Prop.

Definition hoare {A} P (m : GoM (S * W) A) (Q : result A → S → Prop) : Prop :=
  ∀ s w, P s → Q (m (s, w)).1 (m (s, w)).2.1.

Lemma hoare_conseq {A} P P' (m : GoM (S * W) A) (Q Q' : result A → S → Prop) :
  hoare P' m Q' → (∀ s, P s → P' s) → (∀ r s, Q' r s → Q r s) → hoare P m Q.
Proof. intros Hm HP HQ s w Hs. apply HQ, Hm, HP, Hs. Qed.
Lemma hoare_ret {A} P (a : A) Q : (∀ s, P s → Q (Ok a) s) → hoare P (mret a) Q.
Proof. intros H s w Hs. by apply H. Qed.
Lemma hoare_throw {A} P e (Q : result A → S → Prop) : (∀ s, P s → Q (Err e) s) → hoare P (throw e) Q.
Proof. intros H s w Hs. by apply H. Qed.
Lemma hoare_bind {A B} P (m : GoM (S * W) A) (R : A → S → Prop) (f : A → GoM (S * W) B) Q :
  hoare P m (λ r s, match r with Ok a => R a s | Err e => Q (Err e) s end) →
  (∀ a, hoare (R a) (f a) Q) → hoare P (m ≫= f) Q.
Proof.
  intros Hm Hf s w Hs. specialize (Hm s w Hs). unfold mbind, gom_bind.
  destruct (m (s, w)) as [[a|e] [s' w']]; cbn in *; [|done]. by apply Hf.
Qed.
(** An invariant of every step is one of the sequence. *)
Lemma hoare_step {A B} P (m : GoM (S * W) A) (f : A → GoM (S * W) B) :
  hoare P m (λ _, P) → (∀ a, hoare P (f a) (λ _, P)) → hoare P (m ≫= f) (λ _, P).
Proof.
  intros Hm Hf. eapply hoare_bind; [|exact Hf].
  eapply hoare_conseq; [exact Hm|done|by intros []].
Qed.
Lemma hoare_try {A} P (m : GoM (S * W) A) (Q : result (result A) → S → Prop) :
  hoare P m (λ r, Q (Ok r)) → hoare P (tryM m) Q.
Proof.
  intros Hm s w Hs. specialize (Hm s w Hs). unfold tryM. by destruct (m (s, w)) as [r [s' w']].
Qed.
Lemma hoare_wrap {A} P msg (m : GoM (S * W) A) Q :
  hoare P m (λ r, Q (wrap_err msg r)) → hoare P (wrapM msg m) Q.
Proof.
  intros Hm s w Hs. specialize (Hm s w Hs). unfold wrapM. by destruct (m (s, w)) as [r [s' w']].
Qed.
Lemma hoare_lift {A} P (r : result A) Q : (∀ s, P s → Q r s) → hoare P (liftR r) Q.
Proof. intros H s w Hs. by apply H. Qed.
Lemma hoare_get {B} P (f : S → GoM (S * W) B) Q :
  (∀ s0, P s0 → hoare (λ s, s = s0) (f s0) Q) → hoare P (get_mem ≫= f) Q.
Proof. intros H s w Hs. by apply (H s Hs s w). Qed.
Lemma hoare_mod P (f : S → S) Q : (∀ s, P s → Q (Ok tt) (f s)) → hoare P (mod_mem f) Q.
Proof. intros H s w Hs. by apply H. Qed.
(** What a call of the world returns is known to be what it returned in some
    world. *)
Lemma hoare_world {A} P (m : GoM W A) (Q : result A → S → Prop) :
  (∀ r w w' s, P s → m w = (r, w') → Q r s) → hoare P (on_world m) Q.
Proof. intros H s w Hs. unfold on_world. cbn. destruct (m w) as [r w'] eqn:E. by eapply H. Qed.
Lemma hoare_catch {A} P (m : GoM (S * W) A) (Q : result (result A) → S → Prop) :
  hoare P m (λ r s, match r with
                    | Ok a => Q (Ok (Ok a)) s
                    | Err e => (is_panic e = true → Q (Err e) s) ∧ (is_panic e = false → Q (Ok (Err e)) s)
                    end) →
  hoare P (catchM m) Q.
Proof.
  intros Hm s w Hs. specialize (Hm s w Hs). unfold catchM.
  destruct (m (s, w)) as [[a|e] [s' w']]; cbn in *; [done|]. destruct (is_panic e); cbn; by apply Hm.
Qed.
End hoare.

(** [ensures m Q]: whatever the world, what [m] returns satisfies [Q]. *)
Section ensures.
Context {W : Type}.
Definition ensures {A} (m : GoM W A) (Q : A → Prop) : Prop :=
  ∀ w, match (m w).1 with Ok a => Q a | Err _ => True end.
Lemma ensures_ret {A} (a : A) (Q : A → Prop) : Q a → ensures (mret a) Q.
Proof. by intros HQ w. Qed.
Lemma ensures_throw {A} e (Q : A → Prop) : ensures (throw e) Q.
Proof. by intros w. Qed.
Lemma ensures_bind {A B} (m : GoM W A) (f : A → GoM W B) (R : A → Prop) (Q : B → Prop) :
  ensures m R → (∀ a, R a → ensures (f a) Q) → ensures (m ≫= f) Q.
Proof.
  intros Hm Hf w. specialize (Hm w). unfold mbind, gom_bind.
  destruct (m w) as [[a|e] w']; cbn in *; [|done]. by apply Hf.
Qed.
Lemma ensures_any {A} (m : GoM W A) : ensures m (λ _, True).
Proof. intros w. by destruct ((m w).1). Qed.
(** Nothing need be known of the first step. *)
Lemma ensures_then {A B} (m : GoM W A) (f : A → GoM W B) (Q : B → Prop) :
  (∀ a, ensures (f a) Q) → ensures (m ≫= f) Q.
Proof. intros Hf. eapply ensures_bind; [apply ensures_any|]. intros a _. apply Hf. Qed.
Lemma ensures_conseq {A} (m : GoM W A) (R Q : A → Prop) :
  ensures m R → (∀ a, R a → Q a) → ensures m Q.
Proof. intros Hm HQ w. specialize (Hm w). destruct ((m w).1); [by apply HQ|done]. Qed.
Lemma ensures_try {A} (m : GoM W A) (Q : result A → Prop) :
  ensures m (λ a, Q (Ok a)) → (∀ e, Q (Err e)) → ensures (tryM m) Q.
Proof.
  intros Hm He w. specialize (Hm w). unfold tryM. destruct (m w) as [[a|e] w']; cbn in *; [done|apply He].
Qed.
Lemma ensures_defer {A B} (d : GoM W B) (m : GoM W A) (Q : A → Prop) :
  ensures m Q → ensures (deferM d m) Q.
Proof. intros Hm w. specialize (Hm w). unfold deferM. by destruct (m w). Qed.
End ensures.

(** * Automation *)

(** Case analysis on every [match] and [if] of the goal and the hypotheses. *)
Ltac case_all := repeat (case_match; simplify_eq/=; try done).

Ltac gom := unfold mbind, mret, gom_bind, gom_ret, throw, liftR, wrapM, tryM, getM, modifyM in *.
