(* ===== verification/Trace.v ===== *)
(** Traces: handlers that run over a world paired with the list of the events
    they leave, and a logic for what a handler may append to that list.

    [emits m Q]: whatever the world and the trace, [m] only appends to the
    trace, and what it returns and appends satisfies [Q]; [quiet m]: it appends
    nothing; [only P m]: it appends events in [P] only.  The classes of outside calls are run over traces by recording
    some of their calls ([recorded]) and passing on the others ([quietly]).
    [leaves m Q] is the same for a handler with a memory of its own. *)
From S2P Require Import Prelude.

Section emits.
Context {Ev W : Type}.
Abbreviation T := (list Ev * W)%type.

Definition emits {A} (m : GoM T A) (Q : result A → list Ev → Prop) : Prop :=
  ∀ t w, ∃ d, (m (t, w)).2.1 = t ++ d ∧ Q (m (t, w)).1 d.
Definition quiet {A} (m : GoM T A) : Prop := emits m (λ _ d, d = []).

(** A call of the world, with the events it leaves. *)
Definition recorded {A} (ev : result A → list Ev) (m : GoM W A) : GoM T A := λ tw,
  let '(r, w') := m tw.2 in (r, (tw.1 ++ ev r, w')).
Definition quietly {A} (m : GoM W A) : GoM T A := recorded (λ _, []) m.

Lemma emits_recorded {A} ev (m : GoM W A) : emits (recorded ev m) (λ r d, d = ev r).
Proof. intros t w. unfold recorded. cbn. destruct (m w) as [r w']. by exists (ev r). Qed.
Lemma quiet_quietly {A} (m : GoM W A) : quiet (quietly m).
Proof. apply emits_recorded. Qed.

Lemma emits_conseq {A} (m : GoM T A) (Q Q' : result A → list Ev → Prop) :
  emits m Q → (∀ r d, Q r d → Q' r d) → emits m Q'.
Proof. intros Hm HQ t w. destruct (Hm t w) as (d & Hd & Hr). exists d. split; [done|]. by apply HQ. Qed.
Lemma emits_ret {A} (a : A) (Q : result A → list Ev → Prop) : Q (Ok a) [] → emits (mret a) Q.
Proof. intros HQ t w. exists []. by rewrite app_nil_r. Qed.
Lemma emits_throw {A} e (Q : result A → list Ev → Prop) : Q (Err e) [] → emits (throw e) Q.
Proof. intros HQ t w. exists []. by rewrite app_nil_r. Qed.
Lemma emits_bind {A B} (m : GoM T A) (f : A → GoM T B) Q1 (Q : result B → list Ev → Prop) :
  emits m Q1 →
  (∀ a d, Q1 (Ok a) d → emits (f a) (λ r d', Q r (d ++ d'))) →
  (∀ e d, Q1 (Err e) d → Q (Err e) d) →
  emits (m ≫= f) Q.
Proof.
  intros Hm Hf He t w. destruct (Hm t w) as (d & Hd & H1). unfold mbind, gom_bind.
  destruct (m (t, w)) as [[a|e] [t' w']]; cbn in *; subst t'.
  - destruct (Hf a d H1 (t ++ d) w') as (d' & Hd' & H2). exists (d ++ d'). by rewrite Hd', app_assoc.
  - exists d. split; [done|]. by apply He.
Qed.
(** A first step that leaves nothing in the trace *)
Lemma emits_quiet_bind {A B} (m : GoM T A) (f : A → GoM T B) (Q : result B → list Ev → Prop) :
  quiet m → (∀ a, emits (f a) Q) → (∀ e, Q (Err e) []) → emits (m ≫= f) Q.
Proof.
  intros Hm Hf He. eapply emits_bind; [exact Hm| |].
  - intros a d ->. apply Hf.
  - intros e d ->. apply He.
Qed.
Lemma emits_try {A} (m : GoM T A) (Q : result (result A) → list Ev → Prop) :
  emits m (λ r, Q (Ok r)) → emits (tryM m) Q.
Proof.
  intros Hm t w. destruct (Hm t w) as (d & Hd & Hr). unfold tryM.
  destruct (m (t, w)) as [r [t' w']]. by exists d.
Qed.
Lemma emits_catch {A} (m : GoM T A) (Q : result (result A) → list Ev → Prop) :
  emits m (λ r d, match r with Ok a => Q (Ok (Ok a)) d | Err e => Q (Ok (Err e)) d ∧ Q (Err e) d end) →
  emits (catchM m) Q.
Proof.
  intros Hm t w. destruct (Hm t w) as (d & Hd & Hr). unfold catchM.
  destruct (m (t, w)) as [[a|e] [t' w']]; cbn in *; exists d; [done|].
  split; [done|]. destruct (is_panic e); by destruct Hr.
Qed.
Lemma emits_wrap {A} msg (m : GoM T A) (Q : result A → list Ev → Prop) :
  emits m (λ r, Q (wrap_err msg r)) → emits (wrapM msg m) Q.
Proof.
  intros Hm t w. destruct (Hm t w) as (d & Hd & Hr). unfold wrapM.
  destruct (m (t, w)) as [r [t' w']]. by exists d.
Qed.
Lemma emits_wrap_bind {A B} msg (m : GoM T A) (f : A → GoM T B) Q1 (Q : result B → list Ev → Prop) :
  emits m Q1 →
  (∀ a d, Q1 (Ok a) d → emits (f a) (λ r d', Q r (d ++ d'))) →
  (∀ e d, Q1 (Err e) d → Q (Err (EWrap e msg)) d) →
  emits (wrapM msg m ≫= f) Q.
Proof.
  intros Hm Hf He. eapply emits_bind with (Q1 := λ r d, match r with Ok a => Q1 (Ok a) d | Err e => Q (Err e) d end).
  - apply emits_wrap. eapply emits_conseq; [exact Hm|]. intros [a|e] d; [done|apply He].
  - apply Hf.
  - done.
Qed.
Lemma emits_defer {A B} (c : GoM T B) (m : GoM T A) Q : quiet c → emits m Q → emits (deferM c m) Q.
Proof.
  intros Hc Hm t w. destruct (Hm t w) as (d & Hd & Hr). unfold deferM.
  destruct (m (t, w)) as [r [t' w']]; cbn in *; subst t'.
  destruct (Hc (t ++ d) w') as (d' & Hd' & ->). exists d. by rewrite Hd', app_nil_r.
Qed.
(** What a handler returns and what it does, together *)
Lemma emits_ensures {A} (m : GoM T A) Q (R : A → Prop) :
  emits m Q → ensures m R →
  emits m (λ r d, Q r d ∧ match r with Ok a => R a | Err _ => True end).
Proof.
  intros Hm HR t w. destruct (Hm t w) as (d & Hd & Hr). exists d. split; [done|]. split; [done|apply HR].
Qed.

Lemma quiet_emits {A} (m : GoM T A) (Q : result A → list Ev → Prop) :
  quiet m → (∀ r, Q r []) → emits m Q.
Proof. intros Hm HQ. eapply emits_conseq; [exact Hm|]. intros r d ->. apply HQ. Qed.
Lemma quiet_ret {A} (a : A) : quiet (mret a).
Proof. by apply emits_ret. Qed.
Lemma quiet_throw {A} e : quiet (throw (A := A) e).
Proof. by apply emits_throw. Qed.
Lemma quiet_lift {A} (r : result A) : quiet (liftR r).
Proof. intros t w. exists []. by rewrite app_nil_r. Qed.
Lemma quiet_bind {A B} (m : GoM T A) (f : A → GoM T B) : quiet m → (∀ a, quiet (f a)) → quiet (m ≫= f).
Proof. intros Hm Hf. by apply emits_quiet_bind. Qed.
Lemma quiet_try {A} (m : GoM T A) : quiet m → quiet (tryM m).
Proof.
  intros Hm t w. destruct (Hm t w) as (d & Hd & Hr). exists d. unfold tryM.
  by destruct (m (t, w)) as [r [t' w']].
Qed.
Lemma quiet_catch {A} (m : GoM T A) : quiet m → quiet (catchM m).
Proof. intros Hm. apply emits_catch. apply (quiet_emits _ _ Hm). by intros []. Qed.
Lemma quiet_wrap {A} msg (m : GoM T A) : quiet m → quiet (wrapM msg m).
Proof. intros Hm. by apply emits_wrap. Qed.
Lemma quiet_defer {A B} (c : GoM T B) (m : GoM T A) : quiet c → quiet m → quiet (deferM c m).
Proof. apply emits_defer. Qed.
(** What every attempt preserves holds when the last one starts. *)
Lemma attempts_inv {X} p (fn : GoM X unit) x r x' (I : X → Prop) :
  attempts p fn x r x' → I x → (∀ y, I y → I (fn y).2) → ∃ y, I y ∧ fn y = (r, x').
Proof.
  intros Ha Hx Hf. induction Ha as [x r x' E|x e x1 r x2 E _ _ IH]; [by exists x|].
  apply IH. specialize (Hf x Hx). by rewrite E in Hf.
Qed.
Lemma quiet_retry `{GoRetryOnLaws} steps p (fn : GoM T unit) : quiet fn → quiet (retry_on steps p fn).
Proof.
  intros Hf t w. pose proof (retry_on_attempts _ steps p fn (t, w)) as Ha.
  assert (∀ tw, tw.1 = t → (fn tw).2.1 = t) as Hq.
  { intros [t' w'] [= ->]. destruct (Hf t w') as (d & -> & ->). by rewrite app_nil_r. }
  exists []. rewrite app_nil_r. split; [|done].
  destruct (attempts_inv _ _ _ _ _ (λ tw, tw.1 = t) Ha eq_refl Hq) as (y & Hy & E).
  specialize (Hq y Hy). by rewrite E in Hq.
Qed.
Lemma emits_retry `{GoRetryOnLaws} (ev : Ev → Prop) (Q : result unit → list Ev → Prop) steps p
    (fn : GoM T unit) :
  emits fn (λ r d, Forall ev d ∧ Q r d) → (∀ d0 r d, Q r d → Q r (d0 ++ d)) →
  emits (retry_on steps p fn) (λ r d, Forall ev d ∧ Q r d).
Proof.
  intros Hf HQ t w. pose proof (retry_on_attempts _ steps p fn (t, w)) as Ha.
  destruct (attempts_inv _ _ _ _ _ (λ y, ∃ d, y.1 = t ++ d ∧ Forall ev d) Ha)
    as ([t1 w1] & (d & Ht & Hd) & Ey).
  - exists []. by rewrite app_nil_r.
  - intros [t1 w1] (d & Ht & Hd). cbn in Ht. subst t1. destruct (Hf (t ++ d) w1) as (d' & -> & Hw & _).
    exists (d ++ d'). rewrite app_assoc. split; [done|]. by apply Forall_app.
  - cbn in Ht. subst t1. destruct (Hf (t ++ d) w1) as (d' & Hd' & Hw & Hr). rewrite Ey in Hd', Hr.
    exists (d ++ d'). rewrite app_assoc. split; [done|]. split; [by apply Forall_app|]. by apply HQ.
Qed.
(** ** Handlers that leave events of some kinds only *)
Definition only (P : Ev → Prop) {A} (m : GoM T A) : Prop := emits m (λ _ d, Forall P d).
Lemma only_quiet P {A} (m : GoM T A) : quiet m → only P m.
Proof. intros Hm. by apply (quiet_emits _ _ Hm). Qed.
Lemma only_mono (P P' : Ev → Prop) {A} (m : GoM T A) : (∀ e, P e → P' e) → only P m → only P' m.
Proof. intros HP Hm. eapply emits_conseq; [exact Hm|]. intros r d Hd. eapply Forall_impl; [exact Hd|exact HP]. Qed.
Lemma only_recorded (P : Ev → Prop) {A} ev (m : GoM W A) : (∀ r, Forall P (ev r)) → only P (recorded ev m).
Proof. intros HP. eapply emits_conseq; [apply emits_recorded|]. by intros r d ->. Qed.
Lemma only_ret P {A} (a : A) : only P (mret a).
Proof. apply only_quiet, quiet_ret. Qed.
Lemma only_throw P {A} e : only P (throw (A := A) e).
Proof. apply only_quiet, quiet_throw. Qed.
Lemma only_lift P {A} (r : result A) : only P (liftR r).
Proof. apply only_quiet, quiet_lift. Qed.
Lemma only_bind (P : Ev → Prop) {A B} (m : GoM T A) (f : A → GoM T B) : only P m → (∀ a, only P (f a)) → only P (m ≫= f).
Proof.
  intros Hm Hf. eapply emits_bind; [exact Hm| |done]. intros a d Hd.
  eapply emits_conseq; [apply Hf|]. intros r d' Hd'. by apply Forall_app.
Qed.
Lemma only_try P {A} (m : GoM T A) : only P m → only P (tryM m).
Proof. intros Hm. by apply emits_try. Qed.
Lemma only_catch P {A} (m : GoM T A) : only P m → only P (catchM m).
Proof. intros Hm. apply emits_catch. eapply emits_conseq; [exact Hm|]. by intros []. Qed.
Lemma only_wrap P {A} msg (m : GoM T A) : only P m → only P (wrapM msg m).
Proof. intros Hm. by apply emits_wrap. Qed.
Lemma only_defer P {A B} (c : GoM T B) (m : GoM T A) : quiet c → only P m → only P (deferM c m).
Proof. apply emits_defer. Qed.
(** A function that is retried and keeps a memory between the attempts *)
Lemma retry_mem `{GoRetryOnLaws} {S} (J : S → list Ev → Prop) steps p (fn : GoM (S * T) unit) s :
  J s [] →
  (∀ s t w d0, J s d0 → ∃ d, (fn (s, (t, w))).2.2.1 = t ++ d ∧ J (fn (s, (t, w))).2.1 (d0 ++ d)) →
  ∀ t w, ∃ d, (retry_on steps p fn (s, (t, w))).2.2.1 = t ++ d ∧ J (retry_on steps p fn (s, (t, w))).2.1 d.
Proof.
  intros H0 Hf t w. pose proof (retry_on_attempts _ steps p fn (s, (t, w))) as Ha.
  destruct (attempts_inv _ _ _ _ _ (λ y, ∃ d, y.2.1 = t ++ d ∧ J y.1 d) Ha)
    as ([s1 [t1 w1]] & (d & Ht & Hd) & Ey).
  - exists []. by rewrite app_nil_r.
  - intros [s1 [t1 w1]] (d & Ht & Hd). cbn in Ht. subst t1. destruct (Hf s1 (t ++ d) w1 d Hd) as (d' & -> & Hj).
    exists (d ++ d'). by rewrite app_assoc.
  - cbn in Ht. subst t1. destruct (Hf s1 (t ++ d) w1 d Hd) as (d' & Hd' & Hj). rewrite Ey in Hd', Hj.
    exists (d ++ d'). by rewrite app_assoc.
Qed.
End emits.

(** * Handlers with a memory, over traces *)
Section memory.
Context {Ev W S : Type}.
Abbreviation T := (list Ev * W)%type.
Definition leaves {A} (m : GoM (S * T) A) (Q : result A → list Ev → Prop) : Prop :=
  ∀ s t w, ∃ d, (m (s, (t, w))).2.2.1 = t ++ d ∧ Q (m (s, (t, w))).1 d.

Lemma leaves_conseq {A} (m : GoM (S * T) A) Q Q' :
  leaves m Q → (∀ r d, Q r d → Q' r d) → leaves m Q'.
Proof. intros Hm HQ s t w. destruct (Hm s t w) as (d & Hd & Hr). exists d. split; [done|]. by apply HQ. Qed.
Lemma leaves_world {A} (m : GoM T A) Q : emits m Q → leaves (on_world m) Q.
Proof.
  intros Hm s t w. destruct (Hm t w) as (d & Hd & Hr). exists d. unfold on_world. cbn.
  by destruct (m (t, w)) as [r [t' w']].
Qed.
Lemma leaves_ret {A} (a : A) (Q : result A → list Ev → Prop) : Q (Ok a) [] → leaves (mret a) Q.
Proof. intros HQ s t w. exists []. by rewrite ?app_nil_r. Qed.
Lemma leaves_mod (f : S → S) (Q : result unit → list Ev → Prop) : Q (Ok tt) [] → leaves (mod_mem f) Q.
Proof. intros HQ s t w. exists []. by rewrite ?app_nil_r. Qed.
Lemma leaves_bind {A B} (m : GoM (S * T) A) (f : A → GoM (S * T) B) Q1 (Q : result B → list Ev → Prop) :
  leaves m Q1 →
  (∀ a d, Q1 (Ok a) d → leaves (f a) (λ r d', Q r (d ++ d'))) →
  (∀ e d, Q1 (Err e) d → Q (Err e) d) →
  leaves (m ≫= f) Q.
Proof.
  intros Hm Hf He s t w. destruct (Hm s t w) as (d & Hd & H1). unfold mbind, gom_bind.
  destruct (m (s, (t, w))) as [[a|e] [s' [t' w']]]; cbn in *; subst t'.
  - destruct (Hf a d H1 s' (t ++ d) w') as (d' & Hd' & H2). exists (d ++ d'). by rewrite Hd', app_assoc.
  - exists d. split; [done|]. by apply He.
Qed.
Lemma leaves_mod_bind {B} (f : S → S) (k : unit → GoM (S * T) B) Q :
  leaves (k tt) Q → leaves (mod_mem f ≫= k) Q.
Proof. intros Hk s t w. apply (Hk (f s) t w). Qed.
Lemma leaves_get_bind {B} (k : S → GoM (S * T) B) Q : (∀ s, leaves (k s) Q) → leaves (get_mem ≫= k) Q.
Proof. intros Hk s t w. apply (Hk s s t w). Qed.
Lemma leaves_defer {A B} (c : GoM (S * T) B) (m : GoM (S * T) A) Qc Q (Q' : result A → list Ev → Prop) :
  leaves c Qc → leaves m Q → (∀ r d rc d', Q r d → Qc rc d' → Q' r (d ++ d')) → leaves (deferM c m) Q'.
Proof.
  intros Hc Hm HQ s t w. destruct (Hm s t w) as (d & Hd & Hr). unfold deferM.
  destruct (m (s, (t, w))) as [r [s' [t' w']]]; cbn in *; subst t'.
  destruct (Hc s' (t ++ d) w') as (d' & Hd' & Hr'). exists (d ++ d'). rewrite Hd', app_assoc. split; [done|]. by eapply HQ.
Qed.
Lemma leaves_throw {A} e (Q : result A → list Ev → Prop) : Q (Err e) [] → leaves (throw e) Q.
Proof. intros HQ s t w. exists []. by rewrite ?app_nil_r. Qed.
Lemma leaves_catch {A} (m : GoM (S * T) A) (Q : result (result A) → list Ev → Prop) :
  leaves m (λ r d, match r with Ok a => Q (Ok (Ok a)) d | Err e => Q (Ok (Err e)) d ∧ Q (Err e) d end) →
  leaves (catchM m) Q.
Proof.
  intros Hm s t w. destruct (Hm s t w) as (d & Hd & Hr). unfold catchM.
  destruct (m (s, (t, w))) as [[a|e] [s' [t' w']]]; cbn in *; exists d; [done|].
  split; [done|]. destruct (is_panic e); by destruct Hr.
Qed.
(** A first step that leaves nothing *)
Lemma leaves_quiet {A B} (m : GoM T A) (f : A → GoM (S * T) B) Q :
  quiet m → (∀ a, leaves (f a) Q) → (∀ e, Q (Err e) []) → leaves (on_world m ≫= f) Q.
Proof.
  intros Hm Hf He. eapply leaves_bind; [by apply leaves_world| |].
  - intros a d ->. apply Hf.
  - intros e d ->. apply He.
Qed.
End memory.

Create HintDb quiet discriminated.
(** Goes through a handler whose calls are all quiet; a client may redefine
    [quiet_extra] to deal with combinators of its own. *)
Ltac quiet_extra := fail.
Ltac quiet_step := first
  [ done | assumption | solve [auto 1 with quiet nocore]
  | exact (quiet_quietly _) | apply quiet_ret | apply quiet_throw | apply quiet_lift
  | quiet_extra
  | apply quiet_bind; [|intros ?] | apply quiet_wrap | apply quiet_try | apply quiet_catch
  | apply quiet_defer | apply quiet_retry ].
Ltac solve_quiet := repeat first [quiet_step | progress (cbv beta zeta) | case_match].

(** The same for the kinds of events *)
Create HintDb only discriminated.
Ltac only_extra := fail.
Ltac only_step := first
  [ done | assumption | solve [auto 1 with only nocore] | solve [apply only_quiet; auto 1 with quiet nocore]
  | exact (only_quiet _ _ (quiet_quietly _)) | apply only_ret | apply only_throw | apply only_lift
  | apply only_recorded; intros []; repeat case_match; solve [repeat constructor]
  | only_extra
  | apply only_bind; [|intros ?] | apply only_wrap | apply only_try | apply only_catch
  | apply only_defer; [solve_quiet|] ].
Ltac solve_only := repeat first [only_step | progress (cbv beta zeta) | case_match].
