(* ===== verification/ReplsetModels.v ===== *)
(** Replica set documents: the types of pkg/psmdb/mongo/models.go and the
    queries on a replica set status. *)
From S2P Require Import Prelude.

(** * Constants *)
Definition MaxVotingMembers : Z := 7.
Definition MaxMembers : Z := 50.
Definition DefaultPriority : Z := 2.
Definition DefaultVotes : Z := 1.
Definition DefaultReadConcern : string := "majority".
Definition DefaultWriteConcern : string := "majority".
Definition ShardRemoveCompleted : string := "completed".

(** * Replica set configuration

    A Go map is [None] when nil; [reflect.DeepEqual] tells a nil map from an
    empty one, as equality on [option (gmap ..)] does. *)
Abbreviation ReplsetTags := (option (gmap string string)).
Abbreviation WriteConcernReplsetTags := (gmap string Z).

Record ConfigMember := {
  ID : Z;
  Host : string;
  ArbiterOnly : bool;
  BuildIndexes : bool;
  Hidden : bool;
  Priority : Z;
  Tags : ReplsetTags;
  SlaveDelay : option Z;
  SecondaryDelaySecs : option Z;
  Votes : Z;
  Horizons : option (gmap string string)
}.
#[export] Instance ConfigMember_eq_dec : EqDecision ConfigMember.
Proof. solve_decision. Defined.

Abbreviation ConfigMembers := (list ConfigMember).

(** The zero value, as [ConfigMember{}] makes it. *)
Definition zeroMember : ConfigMember :=
  {| ID := 0; Host := ""; ArbiterOnly := false; BuildIndexes := false; Hidden := false;
     Priority := 0; Tags := None; SlaveDelay := None; SecondaryDelaySecs := None;
     Votes := 0; Horizons := None |}.

Definition set_ID (m : ConfigMember) (v : Z) : ConfigMember :=
  {| ID := v; Host := Host m; ArbiterOnly := ArbiterOnly m; BuildIndexes := BuildIndexes m;
     Hidden := Hidden m; Priority := Priority m; Tags := Tags m; SlaveDelay := SlaveDelay m;
     SecondaryDelaySecs := SecondaryDelaySecs m; Votes := Votes m; Horizons := Horizons m |}.
Definition set_Host (m : ConfigMember) (v : string) : ConfigMember :=
  {| ID := ID m; Host := v; ArbiterOnly := ArbiterOnly m; BuildIndexes := BuildIndexes m;
     Hidden := Hidden m; Priority := Priority m; Tags := Tags m; SlaveDelay := SlaveDelay m;
     SecondaryDelaySecs := SecondaryDelaySecs m; Votes := Votes m; Horizons := Horizons m |}.
Definition set_Tags (m : ConfigMember) (v : ReplsetTags) : ConfigMember :=
  {| ID := ID m; Host := Host m; ArbiterOnly := ArbiterOnly m; BuildIndexes := BuildIndexes m;
     Hidden := Hidden m; Priority := Priority m; Tags := v; SlaveDelay := SlaveDelay m;
     SecondaryDelaySecs := SecondaryDelaySecs m; Votes := Votes m; Horizons := Horizons m |}.
Definition set_Horizons (m : ConfigMember) (v : option (gmap string string)) : ConfigMember :=
  {| ID := ID m; Host := Host m; ArbiterOnly := ArbiterOnly m; BuildIndexes := BuildIndexes m;
     Hidden := Hidden m; Priority := Priority m; Tags := Tags m; SlaveDelay := SlaveDelay m;
     SecondaryDelaySecs := SecondaryDelaySecs m; Votes := Votes m; Horizons := v |}.
Definition set_VP (m : ConfigMember) (v p : Z) : ConfigMember :=
  {| ID := ID m; Host := Host m; ArbiterOnly := ArbiterOnly m; BuildIndexes := BuildIndexes m;
     Hidden := Hidden m; Priority := p; Tags := Tags m; SlaveDelay := SlaveDelay m;
     SecondaryDelaySecs := SecondaryDelaySecs m; Votes := v; Horizons := Horizons m |}.

(** [_, ok := member.Tags[key]]: reading a nil map finds nothing. *)
Definition tag_get (key : string) (t : ReplsetTags) : option string :=
  match t with Some m => m !! key | None => None end.
Definition has_tag (key : string) (m : ConfigMember) : bool :=
  match tag_get key (Tags m) with Some _ => true | None => false end.

Record WriteConcern := { WC_w : string + Z; WC_WriteTimeout : Z; WC_Journal : bool }.

Record Settings := {
  ChainingAllowed : bool;
  HeartbeatIntervalMillis : Z;
  HeartbeatTimeoutSecs : Z;
  ElectionTimeoutMillis : Z;
  CatchUpTimeoutMillis : Z;
  GetLastErrorModes : option (gmap string WriteConcernReplsetTags);
  GetLastErrorDefaults : WriteConcern;
  ReplicaSetID : string
}.

Record RSConfig := {
  RS_ID : string;
  RS_Version : Z;
  Members : ConfigMembers;
  Configsvr : bool;
  ProtocolVersion : Z;
  RS_Settings : Settings;
  WriteConcernMajorityJournalDefault : bool
}.
#[export] Instance WriteConcern_eq_dec : EqDecision WriteConcern.
Proof. solve_decision. Defined.
#[export] Instance Settings_eq_dec : EqDecision Settings.
Proof. solve_decision. Defined.
#[export] Instance RSConfig_eq_dec : EqDecision RSConfig.
Proof. solve_decision. Defined.

Definition zeroSettings : Settings :=
  {| ChainingAllowed := false; HeartbeatIntervalMillis := 0; HeartbeatTimeoutSecs := 0;
     ElectionTimeoutMillis := 0; CatchUpTimeoutMillis := 0; GetLastErrorModes := None;
     GetLastErrorDefaults := {| WC_w := inl ""; WC_WriteTimeout := 0; WC_Journal := false |};
     ReplicaSetID := "" |}.

Definition with_members (c : RSConfig) (ms : ConfigMembers) : RSConfig :=
  {| RS_ID := RS_ID c; RS_Version := RS_Version c; Members := ms; Configsvr := Configsvr c;
     ProtocolVersion := ProtocolVersion c; RS_Settings := RS_Settings c;
     WriteConcernMajorityJournalDefault := WriteConcernMajorityJournalDefault c |}.
Definition with_version (c : RSConfig) (v : Z) : RSConfig :=
  {| RS_ID := RS_ID c; RS_Version := v; Members := Members c; Configsvr := Configsvr c;
     ProtocolVersion := ProtocolVersion c; RS_Settings := RS_Settings c;
     WriteConcernMajorityJournalDefault := WriteConcernMajorityJournalDefault c |}.

(** * Command responses *)
Record OKResponse := { Errmsg : string; OK : Z }.
Record ReplSetGetConfig := { RSGC_Config : option RSConfig; RSGC_OK : OKResponse }.
Record BuildInfo := { BI_Version : string; BI_OK : OKResponse }.
Record BalancerStatus := { Mode : string; BS_OK : OKResponse }.
Record DBList := { DBs : list string; DBL_OK : OKResponse }.
Record Shard := { Shard_ID : string; Shard_Host : string; Shard_State : Z }.
Record ShardList := { Shards : list Shard; SL_OK : OKResponse }.
Record FCV := { FCV_Version : string; FCV_OK : OKResponse }.
Record ShardRemoveResp := {
  SRR_Msg : string; SRR_State : string; SRR_Note : string; DBsToMove : list string;
  Rem_DBs : Z; Rem_Chunks : Z; Rem_JumboChunks : Z; SRR_OK : OKResponse }.
Record IsMasterResp := {
  IsMaster : bool; IsArbiter : bool; IM_Msg : string; IM_OK : OKResponse }.

(** * Replica set status *)
Abbreviation MemberState := Z.
Abbreviation MemberHealth := Z.

Definition MemberHealthDown : MemberHealth := 0.
Definition MemberHealthUp : MemberHealth := 1.
Definition MemberStateStartup : MemberState := 0.
Definition MemberStatePrimary : MemberState := 1.
Definition MemberStateSecondary : MemberState := 2.
Definition MemberStateRecovering : MemberState := 3.
Definition MemberStateStartup2 : MemberState := 5.
Definition MemberStateUnknown : MemberState := 6.
Definition MemberStateArbiter : MemberState := 7.
Definition MemberStateDown : MemberState := 8.
Definition MemberStateRollback : MemberState := 9.
Definition MemberStateRemoved : MemberState := 10.

Definition MemberStateStrings : list (MemberState * string) :=
  [(MemberStateStartup, "STARTUP"); (MemberStatePrimary, "PRIMARY");
   (MemberStateSecondary, "SECONDARY"); (MemberStateRecovering, "RECOVERING");
   (MemberStateStartup2, "STARTUP2"); (MemberStateUnknown, "UNKNOWN");
   (MemberStateArbiter, "ARBITER"); (MemberStateDown, "DOWN");
   (MemberStateRollback, "ROLLBACK"); (MemberStateRemoved, "REMOVED")].

(** [bson.Timestamp{T, I}]; instants are nanoseconds. *)
Record Timestamp := { ts_T : Z; ts_I : Z }.
Record Optime := { Ot_Timestamp : Timestamp; Ot_Term : Z }.
Record StatusOptimes := {
  LastCommittedOpTime : option Optime;
  AppliedOpTime : option Optime;
  DurableOptime : option Optime }.

Record Member := {
  Id : Z;
  Name : string;
  Health : MemberHealth;
  State : MemberState;
  StateStr : string;
  Uptime : Z;
  Mem_Optime : option Optime;
  OptimeDate : Z;
  ConfigVersion : Z;
  ElectionTime : Timestamp;
  ElectionDate : Z;
  InfoMessage : string;
  OptimeDurable : option Optime;
  OptimeDurableDate : Z;
  LastHeartbeat : Z;
  LastHeartbeatRecv : Z;
  PingMs : Z;
  Self : bool;
  SyncingTo : string
}.

(** [InitialSyncStatus any] is only ever compared with nil. *)
Record Status := {
  InitialSyncStatus : bool;
  Set_ : string;
  Date : Z;
  MyState : MemberState;
  St_Members : list Member;
  St_Term : Z;
  St_HeartbeatIntervalMillis : Z;
  Optimes : option StatusOptimes;
  St_OK : OKResponse
}.

(** * Roles and users *)
Record RoleAuthenticationRestriction := {
  ClientSource : list string; ServerAddress : list string }.
Record RolePrivilege := {
  Resource : gmap string (string + bool); Actions : list string }.
Record InheritenceRole := { IR_Role : string; IR_DB : string }.
Record Role := {
  R_Role : string;
  R_DB : string;
  R_Roles : list InheritenceRole;
  R_Privileges : list RolePrivilege;
  R_AuthRestrictions : list RoleAuthenticationRestriction }.
Record GetRoleResult := {
  GR_Role : string;
  GR_DB : string;
  GR_Roles : list InheritenceRole;
  GR_Privileges : list RolePrivilege;
  GR_AuthRestrictions : list (list RoleAuthenticationRestriction) }.
Record RoleInfo := { RI_Roles : list GetRoleResult; RI_OK : OKResponse }.
Record User := { U_DB : string; U_Roles : list Role }.
Record UsersInfo := { UI_Users : list User; UI_OK : OKResponse }.

#[export] Instance RAR_eq_dec : EqDecision RoleAuthenticationRestriction.
Proof. solve_decision. Defined.
#[export] Instance RolePrivilege_eq_dec : EqDecision RolePrivilege.
Proof. solve_decision. Defined.
#[export] Instance InheritenceRole_eq_dec : EqDecision InheritenceRole.
Proof. solve_decision. Defined.
#[export] Instance Role_eq_dec : EqDecision Role.
Proof. solve_decision. Defined.

(** * Queries *)
Fixpoint GetSelf_loop (ms : list Member) : option Member :=
  match ms with
  | [] => None
  | member :: ms' => if Self member then Some member else GetSelf_loop ms'
  end.
Definition GetSelf (s : Status) : option Member := GetSelf_loop (St_Members s).

(** The loop of [GetMembersByState]: [acc] is the slice built so far. *)
Fixpoint GetMembersByState_loop (state limit : Z) (acc ms : list Member) : list Member :=
  match ms with
  | [] => acc
  | member :: ms' =>
      if (State member =? state)%Z then
        let acc' := acc ++ [member] in
        if ((0 <? limit) && (Z.of_nat (length acc') =? limit))%Z then acc'
        else GetMembersByState_loop state limit acc' ms'
      else GetMembersByState_loop state limit acc ms'
  end.
Definition GetMembersByState (s : Status) (state : MemberState) (limit : Z) : list Member :=
  GetMembersByState_loop state limit [] (St_Members s).

Definition Primary (s : Status) : option Member :=
  let primary := GetMembersByState s MemberStatePrimary 1 in
  if (Z.of_nat (length primary) =? 1)%Z then head primary else None.

(** * Theorems *)

(** Abstractly the query is "the members in that state", cut at the limit. *)
Definition members_in_state (s : Status) (state : MemberState) : list Member :=
  filter (λ m, State m = state) (St_Members s).

Lemma GetMembersByState_loop_spec state limit acc ms :
  (0 < limit → Z.of_nat (length acc) < limit)%Z →
  GetMembersByState_loop state limit acc ms =
    acc ++ (if (0 <? limit)%Z
            then take (Z.to_nat limit - length acc) (filter (λ m, State m = state) ms)
            else filter (λ m, State m = state) ms).
Proof.
  revert acc; induction ms as [|x ms IH]; intros acc Hlt; simpl.
  { rewrite filter_nil, take_nil. case_match; by rewrite app_nil_r. }
  rewrite filter_cons. destruct (Z.eqb_spec (State x) state) as [E|E].
  2: { rewrite decide_False by done. by apply IH. }
  rewrite decide_True by done. rewrite length_app. cbn [length].
  destruct (Z.ltb_spec 0 limit) as [Hp|Hp]; cbn [andb].
  - destruct (Z.eqb_spec (Z.of_nat (length acc + 1)) limit) as [El|El].
    + replace (Z.to_nat limit - length acc) with 1 by lia. done.
    + rewrite IH by (rewrite length_app; simpl; lia).
      rewrite <- app_assoc, length_app. cbn [length app].
      replace (Z.to_nat limit - length acc)
        with (S (Z.to_nat limit - (length acc + 1))) by lia. done.
  - rewrite IH by lia. by rewrite <- app_assoc.
Qed.

Lemma GetMembersByState_spec s state limit :
  GetMembersByState s state limit =
    if (0 <? limit)%Z then take (Z.to_nat limit) (members_in_state s state)
    else members_in_state s state.
Proof.
  unfold GetMembersByState. rewrite GetMembersByState_loop_spec by (simpl; lia).
  simpl. by rewrite Nat.sub_0_r.
Qed.

Lemma Primary_spec s : Primary s = head (members_in_state s MemberStatePrimary).
Proof.
  unfold Primary. rewrite GetMembersByState_spec. simpl.
  destruct (members_in_state s MemberStatePrimary) as [|x l]; [done|].
  change (Pos.to_nat 1) with 1. by destruct l.
Qed.

Lemma Primary_Some s p :
  Primary s = Some p → p ∈ St_Members s ∧ State p = MemberStatePrimary.
Proof.
  rewrite Primary_spec. intros H.
  assert (p ∈ members_in_state s MemberStatePrimary) as Hp.
  { destruct (members_in_state s MemberStatePrimary); simplify_eq/=. set_solver. }
  unfold members_in_state in Hp. by apply list_elem_of_filter in Hp as [? ?].
Qed.
