(* ===== verification/ReplsetMembers.v ===== *)
(** The replica set member list: the operations of [ConfigMembers] in
    pkg/psmdb/mongo/mongo.go that remove, add and rename members.

    A slice updated in place is a list threaded through the loops; an index
    list is a list of [nat]. *)
From S2P Require Import Prelude ReplsetModels.

(** * Removing members *)

(** One round of the loop of [RemoveOld]: [n] is [i + 1], so the loop runs
    over i = n-1, ..., 0 while more than one member is left. *)
Fixpoint RemoveOld_loop (cm : gmap string unit) (n : nat) (m : ConfigMembers)
    (removed votingRemoved : bool) : ConfigMembers * bool :=
  match n with
  | 0 => (m, removed)
  | S i =>
      if (1 <? Z.of_nat (length m))%Z then
        match m !! i with
        | None => (m, removed)
        | Some member =>
            match cm !! Host member with
            | Some _ => RemoveOld_loop cm i m removed votingRemoved
            | None =>
                if (0 <? Votes member)%Z then
                  if votingRemoved then RemoveOld_loop cm i m removed votingRemoved
                  else RemoveOld_loop cm i (delete i m) true true
                else RemoveOld_loop cm i (delete i m) true votingRemoved
            end
        end
      else (m, removed)
  end.

Definition host_set (ms : ConfigMembers) : gmap string unit :=
  go_map_of (λ member, Some (Host member, tt)) ms.

Definition RemoveOld (m compareWith : ConfigMembers) : ConfigMembers * bool :=
  RemoveOld_loop (host_set compareWith) (length m) m false false.

Fixpoint RemoveArbiter_loop (n : nat) (m : ConfigMembers) : ConfigMembers :=
  match n with
  | 0 => m
  | S i =>
      if (1 <? Z.of_nat (length m))%Z then
        match m !! i with
        | None => m
        | Some member =>
            RemoveArbiter_loop i (if ArbiterOnly member then delete i m else m)
        end
      else m
  end.

(** [votingMembers] counts the members with a vote that are not arbiters. *)
Definition RemoveArbiterIfNeeded (m : ConfigMembers) (unsafePSA : bool) : ConfigMembers * bool :=
  if negb unsafePSA then (m, false) else
  let votingMembers :=
    count (λ member, negb (ArbiterOnly member) && (0 <? Votes member)%Z) m in
  let hasArbiter := existsb ArbiterOnly m in
  if negb hasArbiter || (1 <? Z.of_nat votingMembers)%Z then (m, false)
  else (RemoveArbiter_loop (length m) m, true).

(** * Adding members *)

(** First loop of [AddNew]: the hosts and the greatest id (from 0). *)
Definition lastID (m : ConfigMembers) : Z :=
  foldl (λ last member, if (last <? ID member)%Z then ID member else last) 0%Z m.

Fixpoint AddNew_loop (cm : gmap string unit) (last : Z) (m from : ConfigMembers)
    : ConfigMembers * bool :=
  match from with
  | [] => (m, false)
  | member :: from' =>
      match cm !! Host member with
      | Some _ => AddNew_loop cm last m from'
      | None => (m ++ [set_ID member (wrap64 (last + 1))], true)
      end
  end.

Definition AddNew (m from : ConfigMembers) : ConfigMembers * bool :=
  AddNew_loop (host_set m) (lastID m) m from.

(** * Fixing hosts, tags and horizons *)

(** The inner loop of [FixMemberHostnames] for the status member [sMem]. *)
Fixpoint FixHost_find (cm : gmap string string) (sid : Z) (i : nat) (m : ConfigMembers)
    : option (nat * string) :=
  match m with
  | [] => None
  | mem :: m' =>
      if negb (sid =? ID mem)%Z then FixHost_find cm sid (S i) m'
      else match tag_get "podName" (Tags mem) with
           | None => FixHost_find cm sid (S i) m'
           | Some podName =>
               match cm !! podName with
               | Some host =>
                   if negb (bool_decide (host = Host mem)) then Some (i, host)
                   else FixHost_find cm sid (S i) m'
               | None => FixHost_find cm sid (S i) m'
               end
           end
  end.

(** One pass over the status members, skipping those in state [skip]. *)
Fixpoint FixHost_pass (cm : gmap string string) (skip : MemberState) (m : ConfigMembers)
    (sms : list Member) : option (Member * ConfigMembers) :=
  match sms with
  | [] => None
  | sMem :: sms' =>
      if (State sMem =? skip)%Z then FixHost_pass cm skip m sms'
      else match FixHost_find cm (Id sMem) 0 m with
           | Some (i, host) => Some (sMem, alter (λ mem, set_Host mem host) i m)
           | None => FixHost_pass cm skip m sms'
           end
  end.

Definition pod_hosts (compareWith : ConfigMembers) : gmap string string :=
  go_map_of (λ mem, (λ name, (name, Host mem)) <$> tag_get "podName" (Tags mem)) compareWith.

(** Returns the members, the changed status member (nil is [None]) and the flag. *)
Definition FixMemberHostnames (m compareWith : ConfigMembers) (rsStatus : Status)
    : ConfigMembers * option Member * bool :=
  if (Z.of_nat (length m) <? 1)%Z then (m, None, false) else
  let cm := pod_hosts compareWith in
  (* secondaries first *)
  match FixHost_pass cm MemberStatePrimary m (St_Members rsStatus) with
  | Some (sMem, m') => (m', Some sMem, true)
  | None =>
      (* primary last *)
      match FixHost_pass cm MemberStateSecondary m (St_Members rsStatus) with
      | Some (sMem, m') => (m', Some sMem, true)
      | None => (m, None, false)
      end
  end.

Definition FixConfig_one (cm : gmap string (ReplsetTags * option (gmap string string)))
    (member : ConfigMember) : ConfigMember * bool :=
  match cm !! Host member with
  | None => (member, false)
  | Some (ctags, chorizons) =>
      let '(m1, ch1) :=
        if negb (ArbiterOnly member) && bool_decide (ctags ≠ None)
             && negb (bool_decide (ctags = Tags member))
        then (set_Tags member ctags, true) else (member, false) in
      if negb (bool_decide (chorizons = Horizons member))
      then (set_Horizons m1 chorizons, true) else (m1, ch1)
  end.

Definition FixMemberConfigs (m compareWith : ConfigMembers) : ConfigMembers * bool :=
  if (Z.of_nat (length m) <? 1)%Z then (m, false) else
  let cm := go_map_of (λ member, Some (Host member, (Tags member, Horizons member))) compareWith in
  (map (λ member, (FixConfig_one cm member).1) m,
   existsb (λ member, (FixConfig_one cm member).2) m).

Fixpoint ExternalNodes_loop (cm : gmap string (Z * Z * ReplsetTags)) (m : ConfigMembers)
    : ConfigMembers * bool :=
  match m with
  | [] => ([], false)
  | member :: m' =>
      let skip := let '(r, b) := ExternalNodes_loop cm m' in (member :: r, b) in
      match cm !! Host member with
      | Some (votes, priority, tags) =>
          if negb (votes =? Votes member)%Z || negb (priority =? Priority member)%Z
             || negb (bool_decide (tags = Tags member))
          then (set_Tags (set_VP member votes priority) tags :: m', true)
          else skip
      | None => skip
      end
  end.

Definition ExternalNodesChanged (m compareWith : ConfigMembers) : ConfigMembers * bool :=
  let cm := go_map_of
    (λ member, if has_tag "external" member
               then Some (Host member, (Votes member, Priority member, Tags member))
               else None) compareWith in
  ExternalNodes_loop cm m.

(** * Vocabulary of the statements *)

Definition voting (member : ConfigMember) : bool := (0 <? Votes member)%Z.
Definition voters (m : ConfigMembers) : nat := count voting m.
Definition hosts (m : ConfigMembers) : list string := Host <$> m.

(** * Theorems: removing and adding members *)

Lemma host_set_is_Some ms h : is_Some (host_set ms !! h) ↔ h ∈ hosts ms.
Proof.
  unfold host_set, hosts. rewrite go_map_of_is_Some, list_elem_of_fmap.
  split; [intros (x & [] & ? & ?); simplify_eq; eauto | intros (x & -> & ?); eauto].
Qed.
Lemma host_set_None ms h : host_set ms !! h = None ↔ h ∉ hosts ms.
Proof. by rewrite <- host_set_is_Some, eq_None_not_Some. Qed.

Lemma delete_length {A} (l : list A) i x : l !! i = Some x → S (length (delete i l)) = length l.
Proof. intros H. rewrite length_delete by eauto. apply lookup_lt_Some in H. lia. Qed.

Lemma filter_delete_not {A} (P : A → Prop) `{∀ x, Decision (P x)} (l : list A) i x :
  l !! i = Some x → ¬ P x → filter P (delete i l) = filter P l.
Proof.
  intros Hi Hx. rewrite <- (take_drop_middle l i x) at 2 by done.
  rewrite delete_take_drop, !filter_app, filter_cons, decide_False by done. done.
Qed.

(** What one run of the loop keeps: the wanted members in their order, at
    least one member, all voting members but one. *)
Lemma RemoveOld_loop_spec cm n m r vr m' b :
  n ≤ length m →
  RemoveOld_loop cm n m r vr = (m', b) →
  m' `sublist_of` m ∧
  (m ≠ [] → m' ≠ []) ∧
  filter (λ x, is_Some (cm !! Host x)) m' = filter (λ x, is_Some (cm !! Host x)) m ∧
  voters m ≤ voters m' + (if vr then 0 else 1) ∧
  (b = r ∨ (b = true ∧ length m' < length m)) ∧ (r = true → b = true) ∧
  (length m' = length m → b = r).
Proof.
  revert m r vr; induction n as [|i IH]; intros m r vr Hn; simpl.
  { intros [= -> ->]. repeat split; auto; lia. }
  destruct (Z.ltb_spec 1 (Z.of_nat (length m))) as [Hl|Hl].
  2: { intros [= -> ->]. repeat split; auto; lia. }
  destruct (m !! i) as [x|] eqn:Hi; [|intros [= -> ->]; repeat split; auto; lia].
  pose proof (delete_length m i x Hi) as Hdl.
  pose proof (count_delete voting m i x Hi) as Hc. unfold voters in *.
  destruct (cm !! Host x) eqn:Hx; [apply IH; lia|].
  assert (Hdel : ∀ vr', RemoveOld_loop cm i (delete i m) true vr' = (m', b) →
    (if voting x then 1 else 0) + (if vr' then 0 else 1) ≤ (if vr then 0 else 1) →
    m' `sublist_of` m ∧ (m ≠ [] → m' ≠ []) ∧
    filter (λ x, is_Some (cm !! Host x)) m' = filter (λ x, is_Some (cm !! Host x)) m ∧
    count voting m ≤ count voting m' + (if vr then 0 else 1) ∧
    (b = r ∨ b = true ∧ length m' < length m) ∧ (r = true → b = true) ∧
    (length m' = length m → b = r)).
  { intros vr' E Hv.
    apply IH in E as (S1 & S2 & S3 & S4 & S5 & S6 & S7); [|lia].
    pose proof (sublist_length _ _ S1).
    assert (b = true) as -> by tauto.
    repeat split.
    - etrans; [exact S1|]. apply sublist_delete.
    - intros _. apply S2. intros E0. rewrite E0 in Hdl. simpl in Hdl. lia.
    - rewrite S3. apply filter_delete_not with x; [done|]. rewrite Hx.
      intros [? ?]; done.
    - lia.
    - right. split; [done|lia].
    - lia. }
  unfold voting in Hdel. destruct (0 <? Votes x)%Z.
  - destruct vr; [apply IH; lia|]. intros E. apply (Hdel true E). lia.
  - intros E. apply (Hdel vr E). lia.
Qed.

Lemma RemoveOld_loop_false cm n m m' :
  n ≤ length m →
  RemoveOld_loop cm n m false false = (m', false) →
  m' = m ∧ (length m ≤ 1 ∨ ∀ j x, j < n → m !! j = Some x → is_Some (cm !! Host x)).
Proof.
  induction n as [|i IH]; intros Hn; simpl.
  { intros [= ->]. split; [done|]. right; lia. }
  destruct (Z.ltb_spec 1 (Z.of_nat (length m))) as [Hl|Hl].
  2: { intros [= ->]. split; [done|]. left; lia. }
  destruct (m !! i) as [x|] eqn:Hi; [|apply lookup_ge_None in Hi; lia].
  pose proof (delete_length m i x Hi) as Hdl.
  destruct (cm !! Host x) eqn:Hx.
  - intros E. destruct (IH ltac:(lia) E) as [-> Hj]. split; [done|].
    destruct Hj as [|Hj]; [by left|right]. intros j y Hji Hy.
    destruct (decide (j = i)) as [->|]; [simplify_eq; eauto|]. apply (Hj j); [lia|done].
  - destruct (0 <? Votes x)%Z; intros E;
      apply RemoveOld_loop_spec in E as (_ & _ & _ & _ & _ & S6 & _); try lia;
      by discriminate S6.
Qed.

Lemma RemoveOld_voters m cw m' b :
  RemoveOld m cw = (m', b) → voters m ≤ voters m' + 1.
Proof. intros E. by apply RemoveOld_loop_spec in E as (_ & _ & _ & ? & _); [|lia]. Qed.

(** C9: [RemoveOld] keeps every member of the given list, in order, never
    empties a non-empty configuration, takes the vote of at most one member
    away, and reports a change exactly when it removed a member. *)
Theorem RemoveOld_safe m compareWith m' b :
  RemoveOld m compareWith = (m', b) →
  m' `sublist_of` m ∧
  (m ≠ [] → m' ≠ []) ∧
  filter (λ x, Host x ∈ hosts compareWith) m' = filter (λ x, Host x ∈ hosts compareWith) m ∧
  voters m ≤ voters m' + 1 ∧
  (b = true ↔ m' ≠ m).
Proof.
  intros E. pose proof E as E0. pose proof (RemoveOld_voters _ _ _ _ E) as Hv.
  apply RemoveOld_loop_spec in E as (S1 & S2 & S3 & S4 & S5 & S6 & S7); [|lia].
  repeat split; auto.
  - rewrite !(list_filter_iff (λ x, Host x ∈ hosts compareWith)
      (λ x, is_Some (host_set compareWith !! Host x))); [done|..];
      intros; by rewrite host_set_is_Some.
  - intros -> ->. destruct S5 as [|[? ?]]; [done|lia].
  - intros Hne. destruct b; [done|].
    destruct Hne. by apply RemoveOld_loop_false in E0 as [-> _]; [|lia].
Qed.

Lemma RemoveOld_done m cw m' :
  RemoveOld m cw = (m', false) →
  m' = m ∧ (length m ≤ 1 ∨ ∀ x, x ∈ m → Host x ∈ hosts cw).
Proof.
  intros E. apply RemoveOld_loop_false in E as [-> H]; [|lia]. split; [done|].
  destruct H as [|H]; [by left|right]. intros x [j Hj]%list_elem_of_lookup.
  apply host_set_is_Some. apply (H j); [|done]. by apply lookup_lt_Some in Hj.
Qed.

(** Calling [RemoveOld] once per reconcile empties the configuration of
    unwanted members: after at most as many rounds as there are members, only
    wanted members or a single member are left, and no wanted one was lost. *)
Theorem RemoveOld_converges m compareWith k :
  length m ≤ k →
  let r := Nat.iter k (λ y, (RemoveOld y compareWith).1) m in
  (length r ≤ 1 ∨ ∀ x, x ∈ r → Host x ∈ hosts compareWith) ∧
  filter (λ x, Host x ∈ hosts compareWith) r = filter (λ x, Host x ∈ hosts compareWith) m.
Proof.
  intros Hk r. split.
  - assert ((RemoveOld r compareWith).2 = false) as Hr.
    { apply (iter_converges (λ y, RemoveOld y compareWith) length); [| |done].
      - intros x. destruct (RemoveOld x compareWith) as [x' b] eqn:E; simpl.
        intros ->. apply RemoveOld_loop_spec in E as (_ & _ & _ & _ & [?|[_ ?]] & _); [done|lia..].
      - intros x. destruct (RemoveOld x compareWith) as [x' b] eqn:E; simpl.
        intros ->. by apply RemoveOld_done in E as [-> _]. }
    destruct (RemoveOld r compareWith) as [r' b] eqn:E; simpl in Hr; subst b.
    by apply RemoveOld_done in E as [_ ?].
  - unfold r; clear r Hk. induction k as [|k IH]; [done|]. simpl. rewrite <- IH.
    set (y := Nat.iter k _ m). destruct (RemoveOld y compareWith) as [y' b] eqn:E; simpl.
    by apply RemoveOld_safe in E as (_ & _ & ? & _).
Qed.

(** ** AddNew *)

Lemma lastID_app m k : lastID (m ++ k) =
  foldl (λ last member, if (last <? ID member)%Z then ID member else last) (lastID m) k.
Proof. unfold lastID. by rewrite foldl_app. Qed.

Lemma lastID_ge m : (0 ≤ lastID m)%Z ∧ ∀ x, x ∈ m → (ID x ≤ lastID m)%Z.
Proof.
  induction m as [|y m [IH0 IH]] using rev_ind; [split; [done|set_solver]|].
  rewrite lastID_app. simpl. destruct (Z.ltb_spec (lastID m) (ID y)); split; try lia;
    intros x [Hx| ->%list_elem_of_singleton]%elem_of_app; try lia;
    apply IH in Hx; lia.
Qed.

Lemma lastID_bound m b : (0 ≤ b)%Z → (∀ x, x ∈ m → (ID x ≤ b)%Z) → (lastID m ≤ b)%Z.
Proof.
  intros Hb. induction m as [|y m IH] using rev_ind; [done|]. intros H.
  rewrite lastID_app. simpl. pose proof (H y ltac:(set_solver)).
  assert (lastID m ≤ b)%Z by (apply IH; set_solver). case_match; lia.
Qed.

Lemma AddNew_loop_spec cm last m from m' b :
  AddNew_loop cm last m from = (m', b) →
  (b = false ∧ m' = m ∧ ∀ x, x ∈ from → is_Some (cm !! Host x)) ∨
  (b = true ∧ ∃ l1 x l2, from = l1 ++ (x :: l2) ∧ cm !! Host x = None ∧
     (∀ y, y ∈ l1 → is_Some (cm !! Host y)) ∧ m' = m ++ [set_ID x (wrap64 (last + 1))]).
Proof.
  induction from as [|x from IH]; simpl.
  - intros [= -> <-]. left. set_solver.
  - destruct (cm !! Host x) eqn:Hx.
    + intros [(-> & -> & H)|(-> & l1 & y & l2 & -> & Hy & H & ->)]%IH.
      * left. repeat split. intros z [->|?]%elem_of_cons; eauto.
      * right. split; [done|]. exists (x :: l1), y, l2. repeat split; auto.
        intros z [->|?]%elem_of_cons; eauto.
    + intros [= <- <-]. right. split; [done|]. exists [], x, from. repeat split; auto. set_solver.
Qed.

(** The functional behaviour on both branches. *)
Lemma AddNew_cases m from m' b :
  AddNew m from = (m', b) →
  (b = false ∧ m' = m ∧ ∀ x, x ∈ from → Host x ∈ hosts m) ∨
  (b = true ∧ ∃ l1 x l2, from = l1 ++ (x :: l2) ∧ (Host x ∉ hosts m) ∧
     (∀ y, y ∈ l1 → Host y ∈ hosts m) ∧ m' = m ++ [set_ID x (wrap64 (lastID m + 1))]).
Proof.
  intros [(-> & -> & H)|(-> & l1 & x & l2 & -> & Hx & H & ->)]%AddNew_loop_spec.
  - left. repeat split. intros x Hx. apply host_set_is_Some. auto.
  - right. split; [done|]. exists l1, x, l2. repeat split; auto.
    + by apply host_set_None.
    + intros y Hy. apply host_set_is_Some. auto.
Qed.

Lemma hosts_snoc m x i : hosts (m ++ [set_ID x i]) = hosts m ++ [Host x].
Proof. unfold hosts. by rewrite fmap_app. Qed.

(** The well-formedness a configuration needs: no two members share an id or
    a host, and every id is a non-negative [int]. *)
Definition members_wf (m : ConfigMembers) : Prop :=
  NoDup (ID <$> m) ∧ NoDup (hosts m) ∧ ∀ x, x ∈ m → (0 ≤ ID x < 2 ^ 63 - 1)%Z.

(** C10: [AddNew] keeps the configuration well formed: the new member gets the
    id one above the greatest id in use, so ids and hosts stay distinct, and a
    bound on the ids grows by at most one per call. *)
Theorem AddNew_wf m from m' b bound :
  members_wf m → (0 ≤ bound < 2 ^ 63 - 1)%Z → (∀ x, x ∈ m → (ID x ≤ bound)%Z) →
  AddNew m from = (m', b) →
  NoDup (ID <$> m') ∧ NoDup (hosts m') ∧ (∀ x, x ∈ m' → (0 ≤ ID x ≤ bound + 1)%Z) ∧
  m `prefix_of` m'.
Proof.
  intros (Hid & Hh & Hr) Hb Hle E. destruct (lastID_ge m) as [H0 Hlast].
  pose proof (lastID_bound m bound ltac:(lia) Hle) as Hlb.
  apply AddNew_cases in E as [(-> & -> & _)|(-> & l1 & x & l2 & -> & Hx & _ & ->)].
  { split_and!; auto; intros x Hx; specialize (Hle x Hx); specialize (Hr x Hx); lia. }
  rewrite wrap64_id by (unfold int64_ok; lia).
  split_and!.
  - rewrite fmap_app. apply NoDup_app. split_and!; [done| |apply NoDup_singleton].
    intros i (y & -> & Hy)%list_elem_of_fmap Hi. simpl in Hi.
    apply list_elem_of_singleton in Hi. apply Hlast in Hy. lia.
  - rewrite hosts_snoc. apply NoDup_app. split_and!; [done| |apply NoDup_singleton].
    intros h Hh' E%list_elem_of_singleton. by subst.
  - intros y [Hy|Hy%list_elem_of_singleton]%elem_of_app.
    + specialize (Hr y Hy). specialize (Hle y Hy). lia.
    + subst y. simpl. lia.
  - by exists [set_ID x (lastID m + 1)].
Qed.

Lemma AddNew_wf_witness :
  let a := set_Host (set_ID zeroMember 3) "a" in
  let b := set_Host zeroMember "b" in
  NoDup (ID <$> (AddNew [a] [a; b]).1) ∧ NoDup (hosts (AddNew [a] [a; b]).1).
Proof.
  destruct (AddNew_wf [set_Host (set_ID zeroMember 3) "a"]
    [set_Host (set_ID zeroMember 3) "a"; set_Host zeroMember "b"]
    _ _ 3 ltac:(split; [|split]; [apply NoDup_singleton|apply NoDup_singleton|
      intros x ->%list_elem_of_singleton; simpl; lia]) ltac:(lia)
    ltac:(intros x ->%list_elem_of_singleton; simpl; lia)
    ltac:(apply surjective_pairing)) as (H1 & H2 & _).
  split; [exact H1|exact H2].
Defined.

Definition missing (from m : ConfigMembers) : nat :=
  length (filter (λ x, Host x ∉ hosts m) from).

Lemma filter_weaken_length {A} (P Q : A → Prop) `{∀ x, Decision (P x)} `{∀ x, Decision (Q x)} l :
  (∀ x, x ∈ l → P x → Q x) → length (filter P l) ≤ length (filter Q l).
Proof.
  induction l as [|x l IH]; intros HPQ; [done|]. rewrite !filter_cons.
  assert (length (filter P l) ≤ length (filter Q l)) by (apply IH; set_solver).
  pose proof (HPQ x ltac:(set_solver)). repeat case_decide; simpl; try lia; tauto.
Qed.

(** C39: calling [AddNew] once per reconcile adds every wanted member: after
    at most one round per wanted member all their hosts are present, and the
    members that were there keep their place. *)
Theorem AddNew_converges m from k :
  length from ≤ k →
  let r := Nat.iter k (λ y, (AddNew y from).1) m in
  (∀ x, x ∈ from → Host x ∈ hosts r) ∧ m `prefix_of` r.
Proof.
  intros Hk r. split.
  - assert ((AddNew r from).2 = false) as Hr.
    { apply (iter_converges (λ y, AddNew y from) (missing from)).
      - intros y. destruct (AddNew y from) as [y' b] eqn:E; simpl. intros ->.
        apply AddNew_cases in E as [[? _]|(_ & l1 & x & l2 & -> & Hx & _ & ->)]; [done|].
        unfold missing. rewrite hosts_snoc, !filter_app, !length_app, !filter_cons.
        rewrite (decide_True (P := Host x ∉ hosts y)) by done.
        rewrite decide_False by set_solver. simpl.
        assert (∀ l, length (filter (λ z, Host z ∉ hosts y ++ [Host x]) l) ≤
                     length (filter (λ z, Host z ∉ hosts y) l)) as Hw.
        { intros l. apply filter_weaken_length. set_solver. }
        pose proof (Hw l1). pose proof (Hw l2). lia.
      - intros y. destruct (AddNew y from) as [y' b] eqn:E; simpl. intros ->.
        by apply AddNew_cases in E as [(_ & -> & _)|[? _]].
      - etrans; [apply length_filter|done]. }
    destruct (AddNew r from) as [r' b] eqn:E; simpl in Hr; subst b.
    by apply AddNew_cases in E as [(_ & _ & ?)|[? _]].
  - unfold r; clear r Hk. induction k as [|k IH]; [done|]. simpl. etrans; [exact IH|].
    set (y := Nat.iter k _ m). destruct (AddNew y from) as [y' b] eqn:E; simpl.
    apply AddNew_cases in E as [(_ & -> & _)|(_ & l1 & x & l2 & _ & _ & _ & ->)]; [done|].
    by eexists.
Qed.

(** ** RemoveArbiterIfNeeded *)

Lemma RemoveArbiter_loop_spec n m :
  n ≤ length m →
  let r := RemoveArbiter_loop n m in
  r `sublist_of` m ∧
  filter (λ x, ArbiterOnly x = false) r = filter (λ x, ArbiterOnly x = false) m ∧
  (length r ≤ 1 ∨ ∃ t, r = t ++ drop n m ∧ ∀ x, x ∈ t → ArbiterOnly x = false) ∧
  (m ≠ [] → r ≠ []).
Proof.
  revert m; induction n as [|i IH]; intros m Hn; simpl.
  { split_and!; auto. right. exists []. set_solver. }
  destruct (Z.ltb_spec 1 (Z.of_nat (length m))) as [Hl|Hl].
  2: { split_and!; auto. left. lia. }
  destruct (m !! i) as [x|] eqn:Hi; [|apply lookup_ge_None in Hi; lia].
  pose proof (delete_length m i x Hi) as Hdl.
  destruct (ArbiterOnly x) eqn:Ha.
  - destruct (IH (delete i m) ltac:(lia)) as (S1 & S2 & S3 & S4). split_and!.
    + etrans; [exact S1|apply sublist_delete].
    + rewrite S2. apply filter_delete_not with x; [done|congruence].
    + destruct S3 as [?|(t & -> & Ht)]; [by left|right]. exists t. split; [|done].
      f_equal. rewrite delete_take_drop, drop_app_ge by (rewrite length_take; lia).
      rewrite length_take, drop_drop. f_equal. lia.
    + intros _. apply S4. intros E. rewrite E in Hdl. simpl in Hdl. lia.
  - destruct (IH m ltac:(lia)) as (S1 & S2 & S3 & S4). split_and!; auto.
    destruct S3 as [?|(t & -> & Ht)]; [by left|right]. exists (t ++ [x]). split.
    + rewrite <- app_assoc. f_equal. by rewrite (drop_S m x i).
    + set_solver.
Qed.

(** In the unsafe PSA layout with one data voter the arbiters go and
    nothing else does; otherwise the configuration is left alone. *)
Theorem RemoveArbiterIfNeeded_spec m unsafePSA m' b :
  RemoveArbiterIfNeeded m unsafePSA = (m', b) →
  (b = false → m' = m) ∧
  (b = true →
     unsafePSA = true ∧
     (∃ x, x ∈ m ∧ ArbiterOnly x = true) ∧
     count (λ x, negb (ArbiterOnly x) && voting x) m ≤ 1 ∧
     filter (λ x, ArbiterOnly x = false) m' = filter (λ x, ArbiterOnly x = false) m ∧
     ((∃ x, x ∈ m ∧ ArbiterOnly x = false) → ∀ x, x ∈ m' → ArbiterOnly x = false) ∧
     m' ≠ []).
Proof.
  unfold RemoveArbiterIfNeeded. destruct unsafePSA; simpl; [|by intros [= <- <-]; split].
  destruct (existsb ArbiterOnly m) eqn:Ha; simpl; [|by intros [= <- <-]; split].
  destruct (Z.ltb_spec 1 (Z.of_nat (count (λ x, negb (ArbiterOnly x) && (0 <? Votes x)%Z) m)))
    as [Hc|Hc]; [by intros [= <- <-]; split|].
  intros [= <- <-]. split; [done|]. intros _.
  apply existsb_exists in Ha as (a & Ha1 & Ha2). apply list_elem_of_In in Ha1.
  destruct (RemoveArbiter_loop_spec (length m) m ltac:(lia)) as (S1 & S2 & S3 & S4).
  split_and!; auto.
  - eauto.
  - unfold voting. lia.
  - intros (d & Hd & Hd') x Hx.
    assert (d ∈ filter (λ x, ArbiterOnly x = false) (RemoveArbiter_loop (length m) m)) as Hin.
    { rewrite S2. by apply list_elem_of_filter. }
    apply list_elem_of_filter in Hin as [_ Hin].
    destruct S3 as [Hlen|(t & E & Ht)].
    + destruct (RemoveArbiter_loop (length m) m) as [|y [|z r]]; simpl in Hlen; [by apply elem_of_nil in Hx| |lia].
      apply list_elem_of_singleton in Hin, Hx. by subst.
    + rewrite drop_ge, app_nil_r in E by lia. rewrite E in Hx. auto.
  - apply S4. intros ->. by apply elem_of_nil in Ha1.
Qed.

(** ** Fixing hosts *)

(** The member [i] of the status id [sid] is known under another host. *)
Definition stale (cm : gmap string string) (sid : Z) (m : ConfigMembers) (i : nat) (host : string)
    : Prop :=
  ∃ mem pod, m !! i = Some mem ∧ ID mem = sid ∧ tag_get "podName" (Tags mem) = Some pod ∧
    cm !! pod = Some host ∧ host ≠ Host mem.

Lemma stale_cons cm sid mem m i host :
  stale cm sid (mem :: m) (S i) host ↔ stale cm sid m i host.
Proof. done. Qed.

Lemma FixHost_find_spec cm sid k m :
  match FixHost_find cm sid k m with
  | Some (i, host) => ∃ j, i = k + j ∧ stale cm sid m j host
  | None => ∀ j host, ¬ stale cm sid m j host
  end.
Proof.
  revert k; induction m as [|mem m IH]; intros k; simpl.
  { by intros j host (? & ? & ? & _). }
  assert ((∀ host, ¬ stale cm sid (mem :: m) 0 host) →
    match FixHost_find cm sid (S k) m with
    | Some (i, host) => ∃ j, i = k + j ∧ stale cm sid (mem :: m) j host
    | None => ∀ j host, ¬ stale cm sid (mem :: m) j host
    end) as Hskip.
  { intros H0. specialize (IH (S k)). destruct (FixHost_find cm sid (S k) m) as [[i host]|].
    - destruct IH as (j & -> & Hj). exists (S j). split; [lia|done].
    - intros [|j] host; [apply H0|by rewrite stale_cons]. }
  destruct (Z.eqb_spec sid (ID mem)) as [->|Hne]; simpl.
  2: { apply Hskip. intros host (? & ? & [= <-] & ? & _). congruence. }
  destruct (tag_get "podName" (Tags mem)) as [pod|] eqn:Hp.
  2: { apply Hskip. intros host (? & ? & [= <-] & _ & ? & _). congruence. }
  destruct (cm !! pod) as [host|] eqn:Hc.
  2: { apply Hskip. intros host (? & ? & [= <-] & _ & ? & ? & _). congruence. }
  case_bool_decide as Hh; simpl.
  - apply Hskip. intros h (? & ? & [= <-] & _ & ? & ? & ?). congruence.
  - exists 0. split; [lia|]. exists mem, pod. done.
Qed.

Lemma FixHost_pass_spec cm skip m sms :
  match FixHost_pass cm skip m sms with
  | Some (sMem, m') => sMem ∈ sms ∧ State sMem ≠ skip ∧
      ∃ i host, stale cm (Id sMem) m i host ∧ m' = alter (λ mem, set_Host mem host) i m
  | None => ∀ sMem, sMem ∈ sms → State sMem ≠ skip → ∀ i host, ¬ stale cm (Id sMem) m i host
  end.
Proof.
  induction sms as [|sMem sms IH]; simpl; [set_solver|].
  pose proof (FixHost_find_spec cm (Id sMem) 0 m) as Hf.
  destruct (Z.eqb_spec (State sMem) skip) as [Hs|Hs].
  - destruct (FixHost_pass cm skip m sms) as [[s' m']|]; [set_solver|].
    intros s [->|Hin]%elem_of_cons; [done|]. by apply IH.
  - destruct (FixHost_find cm (Id sMem) 0 m) as [[i host]|].
    + destruct Hf as (j & -> & Hj). split_and!; [set_solver|done|]. by exists j, host.
    + destruct (FixHost_pass cm skip m sms) as [[s' m']|]; [set_solver|].
      intros s [->|Hin]%elem_of_cons; [done|]. by apply IH.
Qed.

(** [FixMemberHostnames] renames exactly one member per call, to the
    host its pod has now, and takes the primary only when no other member
    that the status lists is to be renamed; it reports no change exactly when
    no member is. *)
Theorem FixMemberHostnames_spec m compareWith rsStatus m' sm changed :
  FixMemberHostnames m compareWith rsStatus = (m', sm, changed) →
  let cm := pod_hosts compareWith in
  (changed = false → m' = m ∧ sm = None ∧
     ∀ sMem, sMem ∈ St_Members rsStatus → ∀ i host, ¬ stale cm (Id sMem) m i host) ∧
  (changed = true → ∃ sMem i host, sm = Some sMem ∧ sMem ∈ St_Members rsStatus ∧
     stale cm (Id sMem) m i host ∧ m' = alter (λ mem, set_Host mem host) i m ∧
     (State sMem = MemberStatePrimary →
        ∀ other, other ∈ St_Members rsStatus → State other ≠ MemberStatePrimary →
        ∀ i host, ¬ stale cm (Id other) m i host)).
Proof.
  unfold FixMemberHostnames. destruct (Z.ltb_spec (Z.of_nat (length m)) 1) as [Hl|Hl].
  { intros [= <- <- <-]. split; [|done]. intros _. split_and!; [done..|].
    intros sMem _ i host (mem & ? & Hm & _). apply lookup_lt_Some in Hm. lia. }
  pose proof (FixHost_pass_spec (pod_hosts compareWith) MemberStatePrimary m (St_Members rsStatus)) as H1.
  pose proof (FixHost_pass_spec (pod_hosts compareWith) MemberStateSecondary m (St_Members rsStatus)) as H2.
  destruct (FixHost_pass _ MemberStatePrimary _ _) as [[s1 m1]|].
  { intros [= <- <- <-]. split; [done|]. intros _.
    destruct H1 as (Hin & Hs & i & host & Hst & ->). exists s1, i, host. by split_and!. }
  destruct (FixHost_pass _ MemberStateSecondary _ _) as [[s2 m2]|]; intros [= <- <- <-].
  - split; [done|]. intros _. destruct H2 as (Hin & Hs & i & host & Hst & ->).
    exists s2, i, host. by split_and!.
  - split; [|done]. intros _. split_and!; [done..|]. intros sMem Hin.
    destruct (decide (State sMem = MemberStatePrimary)) as [E|E]; [|by apply H1].
    apply H2; [done|]. by rewrite E.
Qed.

(** * Witnesses *)

Definition demo_member (h : string) (i v : Z) : ConfigMember :=
  set_VP (set_Host (set_ID zeroMember i) h) v 2.
Definition demo_config : ConfigMembers :=
  [demo_member "a" 0 1; demo_member "b" 1 1; demo_member "c" 2 1].

Lemma RemoveOld_safe_witness :
  RemoveOld demo_config [demo_member "a" 0 1] =
    ([demo_member "a" 0 1; demo_member "b" 1 1], true) ∧
  voters demo_config ≤ voters [demo_member "a" 0 1; demo_member "b" 1 1] + 1.
Proof.
  split; [reflexivity|].
  destruct (RemoveOld_safe demo_config [demo_member "a" 0 1] _ _ eq_refl) as (_ & _ & _ & H & _).
  exact H.
Defined.

Lemma RemoveOld_converges_witness :
  length demo_config ≤ 3 ∧
  let r := Nat.iter 3 (λ y, (RemoveOld y [demo_member "a" 0 1]).1) demo_config in
  (length r ≤ 1 ∨ ∀ x, x ∈ r → Host x ∈ hosts [demo_member "a" 0 1]).
Proof.
  split; [simpl; lia|].
  destruct (RemoveOld_converges demo_config [demo_member "a" 0 1] 3) as [H _];
    [simpl; lia|exact H].
Defined.

Lemma AddNew_converges_witness :
  length demo_config ≤ 3 ∧
  let r := Nat.iter 3 (λ y, (AddNew y demo_config).1) [] in
  ∀ x, x ∈ demo_config → Host x ∈ hosts r.
Proof.
  split; [simpl; lia|].
  destruct (AddNew_converges [] demo_config 3) as [H _]; [simpl; lia|exact H].
Defined.

Definition demo_arbiter : ConfigMember :=
  {| ID := 1; Host := "arb"; ArbiterOnly := true; BuildIndexes := false; Hidden := false;
     Priority := 0; Tags := None; SlaveDelay := None; SecondaryDelaySecs := None; Votes := 1;
     Horizons := None |}.

Lemma RemoveArbiterIfNeeded_spec_witness :
  RemoveArbiterIfNeeded [demo_member "a" 0 1; demo_arbiter] true = ([demo_member "a" 0 1], true) ∧
  [demo_member "a" 0 1] ≠ [].
Proof.
  split; [reflexivity|].
  destruct (RemoveArbiterIfNeeded_spec [demo_member "a" 0 1; demo_arbiter] true
    [demo_member "a" 0 1] true) as [_ H]; [reflexivity|].
  destruct (H eq_refl) as (_ & _ & _ & _ & _ & H'). exact H'.
Defined.

Definition demo_pod (pod h : string) (i : Z) : ConfigMember :=
  set_Tags (demo_member h i 1) (Some {[ "podName" := pod ]}).
Definition demo_status_member (i st : Z) : Member :=
  {| Id := i; Name := ""; Health := 1; State := st; StateStr := ""; Uptime := 0;
     Mem_Optime := None; OptimeDate := 0; ConfigVersion := 1;
     ElectionTime := {| ts_T := 0; ts_I := 0 |}; ElectionDate := 0; InfoMessage := "";
     OptimeDurable := None; OptimeDurableDate := 0; LastHeartbeat := 0; LastHeartbeatRecv := 0;
     PingMs := 0; Self := false; SyncingTo := "" |}.
Definition demo_status (ms : list Member) : Status :=
  {| InitialSyncStatus := false; Set_ := "rs0"; Date := 0; MyState := 1; St_Members := ms;
     St_Term := 1; St_HeartbeatIntervalMillis := 2000; Optimes := None;
     St_OK := {| Errmsg := ""; OK := 1 |} |}.

(** The primary is listed first, and still the secondary is renamed first. *)
Lemma FixMemberHostnames_spec_witness :
  let st := demo_status [demo_status_member 0 1; demo_status_member 1 2] in
  let old := [demo_pod "p0" "old0" 0; demo_pod "p1" "old1" 1] in
  let new := [demo_pod "p0" "new0" 0; demo_pod "p1" "new1" 1] in
  (FixMemberHostnames old new st).1.1 = [demo_pod "p0" "old0" 0; demo_pod "p1" "new1" 1] ∧
  ∃ sMem, (FixMemberHostnames old new st).1.2 = Some sMem.
Proof.
  split; [reflexivity|].
  destruct (FixMemberHostnames_spec
    [demo_pod "p0" "old0" 0; demo_pod "p1" "old1" 1]
    [demo_pod "p0" "new0" 0; demo_pod "p1" "new1" 1]
    (demo_status [demo_status_member 0 1; demo_status_member 1 2])
    [demo_pod "p0" "old0" 0; demo_pod "p1" "new1" 1] (Some (demo_status_member 1 2)) true
    ltac:(reflexivity)) as [_ H].
  destruct (H eq_refl) as (s & i & h & Hs & _). exists s. exact Hs.
Defined.
