(* ===== verification/ReplsetVotes.v ===== *)
(** Replica set elections: the voting part of [ConfigMembers] in
    pkg/psmdb/mongo/mongo.go ([setVotes], [limitVotingChanges],
    [UpdateVotes]). *)
From S2P Require Import Prelude ReplsetModels ReplsetMembers.

(** * Votes *)

Definition setMemberVoteAndPriority (m : ConfigMembers) (i : nat) (votes priority : Z)
    : ConfigMembers := alter (λ member, set_VP member votes priority) i m.

(** The state of the loop of [setVotes]. *)
Record votes_acc := {
  va_m : ConfigMembers;
  va_votes : Z;
  withVote : list nat;
  withoutVote : list nat;
  hiddenWithVote : list nat;
  hiddenWithoutVote : list nat
}.

Definition va_set (a : votes_acc) (m : ConfigMembers) (v : Z) : votes_acc :=
  {| va_m := m; va_votes := v; withVote := withVote a; withoutVote := withoutVote a;
     hiddenWithVote := hiddenWithVote a; hiddenWithoutVote := hiddenWithoutVote a |}.

Definition addRemovable (primary : string) (i : nat) (member : ConfigMember) (a : votes_acc)
    : votes_acc :=
  if bool_decide (Host member = primary) then a else
  if Hidden member && (Votes member =? 0)%Z then
    {| va_m := va_m a; va_votes := va_votes a; withVote := withVote a;
       withoutVote := withoutVote a; hiddenWithVote := hiddenWithVote a;
       hiddenWithoutVote := hiddenWithoutVote a ++ [i] |}
  else if Hidden member then
    {| va_m := va_m a; va_votes := va_votes a; withVote := withVote a;
       withoutVote := withoutVote a; hiddenWithVote := hiddenWithVote a ++ [i];
       hiddenWithoutVote := hiddenWithoutVote a |}
  else if (Votes member =? 0)%Z then
    {| va_m := va_m a; va_votes := va_votes a; withVote := withVote a;
       withoutVote := withoutVote a ++ [i]; hiddenWithVote := hiddenWithVote a;
       hiddenWithoutVote := hiddenWithoutVote a |}
  else
    {| va_m := va_m a; va_votes := va_votes a; withVote := withVote a ++ [i];
       withoutVote := withoutVote a; hiddenWithVote := hiddenWithVote a;
       hiddenWithoutVote := hiddenWithoutVote a |}.

Definition priorities (compareWith : ConfigMembers) : gmap string Z :=
  go_map_of (λ member, if ArbiterOnly member then None
                       else Some (Host member, Priority member)) compareWith.

Definition setVotes_step (cm : gmap string Z) (unsafePSA : bool) (primary : string)
    (a : votes_acc) (im : nat * ConfigMember) : votes_acc :=
  let '(i, member) := im in
  if has_tag "nonVoting" member then
    va_set a (setMemberVoteAndPriority (va_m a) i 0 0) (va_votes a)
  else if has_tag "external" member then
    va_set a (setMemberVoteAndPriority (va_m a) i (Votes member) (Priority member))
      (if (Votes member =? 1)%Z then va_votes a + 1 else va_votes a)%Z
  else if Hidden member then
    let a' := addRemovable primary i member
                (va_set a (setMemberVoteAndPriority (va_m a) i DefaultVotes 0) (va_votes a)) in
    va_set a' (va_m a') (va_votes a' + 1)%Z
  else if ArbiterOnly member then
    va_set a (setMemberVoteAndPriority (va_m a) i DefaultVotes 0) (va_votes a + 1)%Z
  else
    let priority :=
      if negb unsafePSA || (Votes member =? DefaultVotes)%Z then
        match cm !! Host member with Some c => c | None => DefaultPriority end
      else DefaultPriority in
    let a' := addRemovable primary i member
                (va_set a (setMemberVoteAndPriority (va_m a) i DefaultVotes priority)
                   (va_votes a)) in
    va_set a' (va_m a') (va_votes a' + 1)%Z.

(** [for votes > MaxVotingMembers && len(removable) > 0 { removeVote() }];
    [stack] is [removable] from its end. *)
Fixpoint removeVotes (m : ConfigMembers) (stack : list nat) (votes : Z)
    : ConfigMembers * list nat * Z :=
  match stack with
  | [] => (m, [], votes)
  | i :: stack' =>
      if (MaxVotingMembers <? votes)%Z
      then removeVotes (setMemberVoteAndPriority m i 0 0) stack' (votes - 1)%Z
      else (m, stack, votes)
  end.

Definition setVotes_scan (m compareWith : ConfigMembers) (unsafePSA : bool) (primary : string)
    : votes_acc :=
  foldl (setVotes_step (priorities compareWith) unsafePSA primary)
    {| va_m := m; va_votes := 0; withVote := []; withoutVote := [];
       hiddenWithVote := []; hiddenWithoutVote := [] |}
    (zip (seq 0 (length m)) m).

Definition removable (a : votes_acc) : list nat :=
  withVote a ++ withoutVote a ++ hiddenWithVote a ++ hiddenWithoutVote a.

Definition setVotes (m compareWith : ConfigMembers) (unsafePSA : bool) (primary : string)
    : ConfigMembers :=
  let a := setVotes_scan m compareWith unsafePSA primary in
  let '(m1, stack, votes) := removeVotes (va_m a) (reverse (removable a)) (va_votes a) in
  if ((0 <? votes) && (Z.rem votes 2 =? 0))%Z && negb unsafePSA then
    match stack with
    | i :: _ => setMemberVoteAndPriority m1 i 0 0
    | [] => m1
    end
  else m1.

Definition host_map (ms : ConfigMembers) : gmap string ConfigMember :=
  go_map_of (λ member, Some (Host member, member)) ms.

(** The index lists [added] and [removed] of [limitVotingChanges]. *)
Definition vote_removed (prevMembers : gmap string ConfigMember) (member : ConfigMember) : bool :=
  match prevMembers !! Host member with
  | Some p => (0 <? Votes p)%Z && (Votes member =? 0)%Z
  | None => false
  end.
Definition vote_added (prevMembers : gmap string ConfigMember) (member : ConfigMember) : bool :=
  match prevMembers !! Host member with
  | Some p => (Votes p =? 0)%Z && (0 <? Votes member)%Z
  | None => false
  end.
Definition indices_of (p : ConfigMember → bool) (m : ConfigMembers) : list nat :=
  (filter (λ im, p im.2 = true) (zip (seq 0 (length m)) m)).*1.

(** The first candidate that is not the primary, else the first one. *)
Fixpoint pick_apply (m : ConfigMembers) (primary : string) (dflt : nat) (candidates : list nat)
    : nat :=
  match candidates with
  | [] => dflt
  | i :: rest =>
      match m !! i with
      | Some member => if negb (bool_decide (Host member = primary)) then i
                       else pick_apply m primary dflt rest
      | None => pick_apply m primary dflt rest
      end
  end.

Definition revert_vote (prevMembers : gmap string ConfigMember) (apply : nat)
    (m : ConfigMembers) (i : nat) : ConfigMembers :=
  if bool_decide (i = apply) then m else
  match m !! i with
  | Some member =>
      (* p is the zero member when the host is unknown *)
      let p := default zeroMember (prevMembers !! Host member) in
      setMemberVoteAndPriority m i (Votes p) (Priority p)
  | None => m
  end.

Definition limitVotingChanges (m prev : ConfigMembers) (primary : string)
    : ConfigMembers * bool :=
  let prevMembers := host_map prev in
  let prevVoters := Z.of_nat (count (λ member, 0 <? Votes member)%Z prev) in
  let added := indices_of (vote_added prevMembers) m in
  let removed := indices_of (vote_removed prevMembers) m in
  if (Z.of_nat (length added + length removed) <=? 1)%Z then (m, false) else
  let changed := added ++ removed in
  let candidates :=
    if (MaxVotingMembers <=? prevVoters)%Z && (0 <? Z.of_nat (length removed))%Z
    then removed else changed in
  let apply := pick_apply m primary (default 0 (head candidates)) candidates in
  (foldl (revert_vote prevMembers apply) m changed, true).

Definition UpdateVotes (m compareWith : ConfigMembers) (unsafePSA : bool) (primary : string)
    : ConfigMembers * bool * bool :=
  let prev := m in
  let m1 := setVotes m compareWith unsafePSA primary in
  let '(m2, pending) := limitVotingChanges m1 prev primary in
  (m2, negb (bool_decide (prev = m2)), pending).

(** * A declarative description of [setVotes]

    The vote and priority a member gets from the scan depend on that member
    only; the members whose vote may be taken away again are in four classes. *)

Definition desired (cm : gmap string Z) (unsafePSA : bool) (member : ConfigMember) : ConfigMember :=
  if has_tag "nonVoting" member then set_VP member 0 0
  else if has_tag "external" member then set_VP member (Votes member) (Priority member)
  else if Hidden member then set_VP member DefaultVotes 0
  else if ArbiterOnly member then set_VP member DefaultVotes 0
  else set_VP member DefaultVotes
         (if negb unsafePSA || (Votes member =? DefaultVotes)%Z then
            match cm !! Host member with Some c => c | None => DefaultPriority end
          else DefaultPriority).

Definition counted (member : ConfigMember) : bool :=
  if has_tag "nonVoting" member then false
  else if has_tag "external" member then (Votes member =? 1)%Z
  else true.

(** Not tagged, not the primary, and hidden or a data member. *)
Definition may_lose_vote (primary : string) (member : ConfigMember) : bool :=
  negb (has_tag "nonVoting" member) && negb (has_tag "external" member) &&
  negb (bool_decide (Host member = primary)) && (Hidden member || negb (ArbiterOnly member)).

Definition vote_class (hidden had : bool) (primary : string) (member : ConfigMember) : bool :=
  may_lose_vote primary member && Bool.eqb (Hidden member) hidden &&
  Bool.eqb (negb (Votes member =? 0)%Z) had.

Fixpoint idx_from (k : nat) (p : ConfigMember → bool) (ms : ConfigMembers) : list nat :=
  match ms with
  | [] => []
  | x :: ms' => (if p x then [k] else []) ++ idx_from (S k) p ms'
  end.

Lemma indices_of_idx p m : indices_of p m = idx_from 0 p m.
Proof.
  unfold indices_of. generalize 0 as k.
  induction m as [|x m IH]; intros k; [done|]. simpl. rewrite filter_cons. simpl.
  rewrite <- IH. destruct (p x); case_decide; done.
Qed.

Lemma elem_of_idx_from k p ms i :
  i ∈ idx_from k p ms ↔ ∃ j x, i = k + j ∧ ms !! j = Some x ∧ p x = true.
Proof.
  revert k; induction ms as [|y ms IH]; intros k; simpl.
  { split; [set_solver|]. intros (j & x & _ & ? & _). by rewrite lookup_nil in H. }
  rewrite elem_of_app, IH. split.
  - intros [H|(j & x & -> & ? & ?)].
    + destruct (p y) eqn:E; [|set_solver]. apply list_elem_of_singleton in H as ->.
      exists 0, y. split_and!; [lia|done|done].
    + exists (S j), x. split_and!; [lia|done|done].
  - intros ([|j] & x & -> & Hx & Hp); simpl in Hx.
    + simplify_eq. rewrite Hp. left. rewrite Nat.add_0_r. set_solver.
    + right. exists j, x. split_and!; [lia|done|done].
Qed.

Lemma NoDup_idx_from k p ms : NoDup (idx_from k p ms).
Proof.
  revert k; induction ms as [|y ms IH]; intros k; simpl; [constructor|].
  destruct (p y); simpl; [|apply IH]. constructor; [|apply IH].
  intros (j & x & ? & _)%elem_of_idx_from. lia.
Qed.

Lemma length_idx_from k p ms : length (idx_from k p ms) = count p ms.
Proof. revert k; induction ms as [|y ms IH]; intros k; simpl; [done|]. destruct (p y); simpl; by rewrite IH. Qed.

(** The scan computes the description, whatever prefix was already done. *)
Lemma setVotes_scan_from cm uns prim pre ms a :
  va_m a = pre ++ ms →
  let k := length pre in
  foldl (setVotes_step cm uns prim) a (zip (seq k (length ms)) ms) =
    {| va_m := pre ++ (desired cm uns <$> ms);
       va_votes := (va_votes a + Z.of_nat (count counted ms))%Z;
       withVote := withVote a ++ idx_from k (vote_class false true prim) ms;
       withoutVote := withoutVote a ++ idx_from k (vote_class false false prim) ms;
       hiddenWithVote := hiddenWithVote a ++ idx_from k (vote_class true true prim) ms;
       hiddenWithoutVote := hiddenWithoutVote a ++ idx_from k (vote_class true false prim) ms |}.
Proof.
  revert pre a; induction ms as [|x ms IH]; intros pre a Ha k.
  { simpl. destruct a; simpl in *. rewrite !app_nil_r in *. f_equal; [done|lia]. }
  assert (∀ v p, setMemberVoteAndPriority (pre ++ x :: ms) k v p = (pre ++ [set_VP x v p]) ++ ms) as Hset.
  { intros v p. unfold setMemberVoteAndPriority, k.
    rewrite alter_app_r_alt by lia. rewrite Nat.sub_diag. simpl. by rewrite <- app_assoc. }
  set (b := setVotes_step cm uns prim a (k, x)).
  assert (va_m b = (pre ++ [desired cm uns x]) ++ ms ∧
    va_votes b = (va_votes a + (if counted x then 1 else 0))%Z ∧
    withVote b = withVote a ++ (if vote_class false true prim x then [k] else []) ∧
    withoutVote b = withoutVote a ++ (if vote_class false false prim x then [k] else []) ∧
    hiddenWithVote b = hiddenWithVote a ++ (if vote_class true true prim x then [k] else []) ∧
    hiddenWithoutVote b = hiddenWithoutVote a ++ (if vote_class true false prim x then [k] else []))
    as (B1 & B2 & B3 & B4 & B5 & B6).
  { unfold b, setVotes_step, desired, counted, vote_class, may_lose_vote, addRemovable.
    rewrite Ha.
    destruct (has_tag "nonVoting" x), (has_tag "external" x), (Hidden x), (ArbiterOnly x),
      (bool_decide (Host x = prim)), (Z.eqb_spec (Votes x) 0); simpl;
      rewrite ?Hset, ?app_nil_r; split_and!; try done; try lia; case_match; lia. }
  change (foldl (setVotes_step cm uns prim) a (zip (seq k (length (x :: ms))) (x :: ms)))
    with (foldl (setVotes_step cm uns prim) b (zip (seq (S k) (length ms)) ms)).
  specialize (IH (pre ++ [desired cm uns x]) b B1). rewrite length_app in IH. simpl in IH.
  rewrite Nat.add_1_r in IH. fold k in IH. rewrite IH. simpl.
  rewrite B2, B3, B4, B5, B6, <- !app_assoc. f_equal. destruct (counted x); lia.
Qed.

Lemma setVotes_scan_spec m cw uns prim :
  setVotes_scan m cw uns prim =
    {| va_m := (desired (priorities cw) uns <$> m);
       va_votes := Z.of_nat (count counted m);
       withVote := idx_from 0 (vote_class false true prim) m;
       withoutVote := idx_from 0 (vote_class false false prim) m;
       hiddenWithVote := idx_from 0 (vote_class true true prim) m;
       hiddenWithoutVote := idx_from 0 (vote_class true false prim) m |}.
Proof. unfold setVotes_scan. by rewrite (setVotes_scan_from _ _ _ []). Qed.

Lemma removable_perm m cw uns prim :
  removable (setVotes_scan m cw uns prim) ≡ₚ idx_from 0 (may_lose_vote prim) m.
Proof.
  rewrite setVotes_scan_spec. unfold removable. simpl. generalize 0 as k.
  induction m as [|x m IH]; intros k; simpl; [done|]. rewrite <- IH. unfold vote_class.
  destruct (may_lose_vote prim x), (Hidden x), (Votes x =? 0)%Z; simpl; solve_Permutation.
Qed.

(** * Taking votes away *)

Definition resets (S : list nat) (m : ConfigMembers) : ConfigMembers :=
  foldl (λ m i, setMemberVoteAndPriority m i 0 0) m S.

Lemma lookup_resets S m i :
  resets S m !! i = (if decide (i ∈ S) then (λ x, set_VP x 0 0) <$> m !! i else m !! i).
Proof.
  revert m; induction S as [|j S IH]; intros m; simpl; [done|].
  rewrite IH. unfold setMemberVoteAndPriority. rewrite list_lookup_alter.
  destruct (decide (j = i)) as [->|Hne].
  - rewrite (decide_True (P := i ∈ i :: S)) by set_solver.
    destruct (m !! i); simpl; by case_decide.
  - destruct (decide (i ∈ S)); [rewrite decide_True by set_solver|rewrite decide_False by set_solver];
      done.
Qed.

Lemma length_resets S m : length (resets S m) = length m.
Proof.
  revert m; induction S as [|j S IH]; intros m; [done|]. simpl. rewrite IH.
  apply length_alter.
Qed.

Definition all_voting (S : list nat) (m : ConfigMembers) : Prop :=
  ∀ i, i ∈ S → ∃ x, m !! i = Some x ∧ voting x = true.

Lemma voters_set_zero m i x :
  m !! i = Some x → voting x = true →
  S (voters (setMemberVoteAndPriority m i 0 0)) = voters m.
Proof.
  intros Hi Hv. unfold voters, setMemberVoteAndPriority.
  pose proof (count_insert voting m i x (set_VP x 0 0) Hi) as H. rewrite Hv in H.
  change (voting (set_VP x 0 0)) with false in H. cbv iota in H.
  assert (alter (λ member, set_VP member 0 0) i m = <[i := set_VP x 0 0]> m) as ->.
  { apply list_eq. intros j. destruct (decide (i = j)) as [->|].
    - rewrite list_lookup_alter_eq, list_lookup_insert_eq by (by eapply lookup_lt_Some).
      by rewrite Hi.
    - by rewrite list_lookup_alter_ne, list_lookup_insert_ne. }
  lia.
Qed.

Lemma removeVotes_spec m stack votes :
  NoDup stack → all_voting stack m → votes = Z.of_nat (voters m) →
  ∃ gone left, stack = gone ++ left ∧
    removeVotes m stack votes = (resets gone m, left, Z.of_nat (voters (resets gone m))) ∧
    (Z.of_nat (voters (resets gone m)) ≤ 7 ∨ left = [])%Z.
Proof.
  revert m votes; induction stack as [|i stack IH]; intros m votes Hnd Hv ->; simpl.
  { exists [], []. eauto. }
  unfold MaxVotingMembers. destruct (Z.ltb_spec 7 (Z.of_nat (voters m))) as [Hlt|Hle].
  2: { exists [], (i :: stack). simpl. auto. }
  apply NoDup_cons in Hnd as [Hi Hnd].
  destruct (Hv i ltac:(set_solver)) as (x & Hx & Hxv).
  pose proof (voters_set_zero m i x Hx Hxv) as Hz.
  destruct (IH (setMemberVoteAndPriority m i 0 0) (Z.of_nat (voters m) - 1)%Z)
    as (gone & left & -> & E & H); [done| |lia|].
  - intros j Hj. destruct (Hv j ltac:(set_solver)) as (y & Hy & Hyv). exists y. split; [|done].
    unfold setMemberVoteAndPriority. rewrite list_lookup_alter_ne; [done|]. by intros ->.
  - exists (i :: gone), left. done.
Qed.

(** The members an administrator or the layout pins: external nodes (their
    votes are the user's), plain arbiters and the primary. *)
Definition pinned (primary : string) (x : ConfigMember) : bool :=
  has_tag "external" x || bool_decide (Host x = primary) || (ArbiterOnly x && negb (Hidden x)).

Definition external_votes_ok (m : ConfigMembers) : Prop :=
  ∀ x, x ∈ m → has_tag "external" x = true → has_tag "nonVoting" x = false →
    Votes x = 0%Z ∨ Votes x = 1%Z.

Lemma desired_voting cm uns x :
  (has_tag "external" x = true → has_tag "nonVoting" x = false → Votes x = 0 ∨ Votes x = 1)%Z →
  voting (desired cm uns x) = counted x.
Proof.
  unfold voting, desired, counted. intros H.
  destruct (has_tag "nonVoting" x); [done|].
  destruct (has_tag "external" x).
  - simpl. destruct (H eq_refl eq_refl) as [->| ->]; done.
  - destruct (Hidden x), (ArbiterOnly x); done.
Qed.

Lemma voters_desired cm uns m :
  external_votes_ok m → voters ((desired cm uns <$> m)) = count counted m.
Proof.
  unfold voters. induction m as [|x m IH]; intros H; [done|]. csimpl.
  rewrite IH by (intros y Hy; apply H; set_solver).
  rewrite desired_voting; [done|]. intros. apply H; auto. set_solver.
Qed.

Section stack.
Context (m cw : ConfigMembers) (uns : bool) (prim : string).
Abbreviation stack := (reverse (removable (setVotes_scan m cw uns prim))).
Abbreviation d := (desired (priorities cw) uns <$> m).

Lemma stack_elem i : i ∈ stack ↔ ∃ x, m !! i = Some x ∧ may_lose_vote prim x = true.
Proof.
  rewrite elem_of_reverse, removable_perm, elem_of_idx_from.
  split; [intros (j & x & -> & ?); eauto|intros (x & ?); by exists i, x].
Qed.

Lemma stack_NoDup : NoDup stack.
Proof. rewrite reverse_Permutation, removable_perm. apply NoDup_idx_from. Qed.

Lemma stack_voting : all_voting stack d.
Proof.
  intros i (x & Hx & Hm)%stack_elem. exists (desired (priorities cw) uns x). split.
  - by rewrite list_lookup_fmap, Hx.
  - unfold may_lose_vote in Hm. rewrite desired_voting; unfold counted;
      destruct (has_tag "nonVoting" x), (has_tag "external" x); done.
Qed.

Lemma stack_gone gone left :
  stack = gone ++ left →
  NoDup gone ∧ (∀ i, i ∈ gone → ∃ x, m !! i = Some x ∧ may_lose_vote prim x = true) ∧
  gone `prefix_of` stack ∧
  (left = [] → ∀ i x, m !! i = Some x → may_lose_vote prim x = true → i ∈ gone).
Proof.
  intros E. pose proof stack_NoDup as Hnd. rewrite E in Hnd.
  apply NoDup_app in Hnd as (Hnd & _). split_and!; [done| |by exists left|].
  - intros i Hi. apply stack_elem. rewrite E. set_solver.
  - intros -> i x Hi Hx. rewrite app_nil_r in E. rewrite <- E. apply stack_elem. eauto.
Qed.

(** [setVotes] takes back the votes of some removable members, from the end
    of the removable list, and stops as soon as it may. *)
Lemma setVotes_resets :
  external_votes_ok m →
  ∃ gone left, setVotes m cw uns prim = resets gone d ∧ stack = gone ++ left ∧
    ((Z.of_nat (voters (resets gone d)) ≤ 7)%Z ∨ left = []) ∧
    (uns = false → Nat.even (voters (resets gone d)) = true →
       voters (resets gone d) = 0 ∨ left = []).
Proof.
  intros Hext. pose proof (voters_desired (priorities cw) uns m Hext) as Hvd.
  destruct (removeVotes_spec d stack (Z.of_nat (count counted m)) stack_NoDup stack_voting
    ltac:(by rewrite Hvd)) as (gone & left & Hsplit & E & Hle).
  assert (va_m (setVotes_scan m cw uns prim) = d) as Em by by rewrite setVotes_scan_spec.
  assert (va_votes (setVotes_scan m cw uns prim) = Z.of_nat (count counted m)) as Ev
    by by rewrite setVotes_scan_spec.
  unfold setVotes. cbv zeta. rewrite Em, Ev, E, rem2_even.
  set (v := voters (resets gone d)) in *.
  destruct ((0 <? Z.of_nat v)%Z && Nat.even v && negb uns) eqn:Hpar.
  2: { exists gone, left. split_and!; try done. intros Hu Hev. fold v in Hev |- *.
       rewrite Hu, Hev in Hpar. left. destruct (Z.ltb_spec 0 (Z.of_nat v)); [done|lia]. }
  apply andb_prop in Hpar as [[Hp0 Hp]%andb_prop Hu].
  destruct left as [|i left]; [exists gone, []; by auto|].
  destruct (stack_voting i ltac:(rewrite Hsplit; set_solver)) as (x & Hx & Hxv).
  assert (i ∉ gone) as Hig.
  { pose proof stack_NoDup as Hnd. rewrite Hsplit in Hnd.
    apply NoDup_app in Hnd as (_ & Hdis & _). intros Hi. apply (Hdis i Hi). set_solver. }
  assert (resets gone d !! i = Some x) as Hri by (by rewrite lookup_resets, decide_False).
  pose proof (voters_set_zero _ _ _ Hri Hxv) as Hz. fold v in Hz.
  assert (setMemberVoteAndPriority (resets gone d) i 0 0 = resets (gone ++ [i]) d) as Hres.
  { unfold resets. by rewrite foldl_app. }
  rewrite Hres in Hz |- *. exists (gone ++ [i]), left. split_and!; [done| | |].
  - by rewrite <- app_assoc.
  - left. destruct Hle as [Hle|Hle]; [lia|done].
  - intros _ Hev. rewrite <- Hz, Nat.even_succ, <- Nat.negb_even, Hev in Hp. done.
Qed.
End stack.

(** A member that gets a vote which cannot be taken away is pinned. *)
Lemma desired_pinned cm uns prim y :
  may_lose_vote prim y = false → voting (desired cm uns y) = true →
  pinned prim (desired cm uns y) = true.
Proof.
  intros Hm Hv.
  assert (pinned prim (desired cm uns y) = pinned prim y) as ->.
  { unfold desired. by destruct (has_tag "nonVoting" y), (has_tag "external" y), (Hidden y),
      (ArbiterOnly y). }
  unfold may_lose_vote in Hm. unfold pinned. unfold desired in Hv.
  destruct (has_tag "nonVoting" y), (has_tag "external" y), (bool_decide (Host y = prim)),
    (Hidden y), (ArbiterOnly y); done.
Qed.

(** C8: Where external nodes have 0 or 1 vote (the only ones the defaulting
    accepts), after setVotes at most seven members vote, or every voter is
    pinned; and outside the unsafe layout of a primary, a secondary and an
    arbiter the number of voters is odd, or zero, or every voter is pinned.
    Pinned are the external nodes, the primary, and arbiters that are not
    hidden. *)
Theorem setVotes_bound m compareWith unsafePSA primary :
  external_votes_ok m →
  let r := setVotes m compareWith unsafePSA primary in
  ((Z.of_nat (voters r) ≤ MaxVotingMembers)%Z ∨
     ∀ x, x ∈ r → voting x = true → pinned primary x = true) ∧
  (unsafePSA = false →
     Nat.odd (voters r) = true ∨ voters r = 0 ∨
     ∀ x, x ∈ r → voting x = true → pinned primary x = true).
Proof.
  intros Hext r.
  destruct (setVotes_resets m compareWith unsafePSA primary Hext)
    as (gone & left & E & Hst & H7 & Hodd).
  destruct (stack_gone _ _ _ _ _ _ Hst) as (_ & _ & _ & Hall).
  assert (left = [] → ∀ x, x ∈ r → voting x = true → pinned primary x = true) as Hpin.
  { intros Hl x [i Hi]%list_elem_of_lookup Hv. unfold r in Hi.
    rewrite E, lookup_resets, list_lookup_fmap in Hi.
    destruct (m !! i) as [y|] eqn:Hy; [|by case_decide].
    specialize (Hall Hl i y Hy). case_decide as Hg; injection Hi as <-; [done|].
    assert (may_lose_vote primary y = false) as Hm
      by (destruct (may_lose_vote primary y); [by destruct Hg; auto|done]).
    by apply desired_pinned. }
  fold r in E. rewrite <- E in H7, Hodd. split.
  - unfold MaxVotingMembers. destruct H7 as [?|?]; [by left|right; auto].
  - intros Hu. rewrite <- Nat.negb_even. destruct (Nat.even (voters r)) eqn:Hev; [|by left].
    right. destruct (Hodd Hu eq_refl) as [?|?]; [by left|right; auto].
Qed.

Lemma removeVotes_shape m stack votes :
  ∃ gone left v, stack = gone ++ left ∧ removeVotes m stack votes = (resets gone m, left, v).
Proof.
  revert m votes; induction stack as [|i stack IH]; intros m votes; simpl.
  { by exists [], [], votes. }
  case_match.
  - destruct (IH (setMemberVoteAndPriority m i 0 0) (votes - 1)%Z) as (g & l & v & -> & ->).
    by exists (i :: g), l, v.
  - by exists [], (i :: stack), votes.
Qed.

Lemma setVotes_lookup m cw uns prim i x :
  m !! i = Some x →
  setVotes m cw uns prim !! i = Some (desired (priorities cw) uns x) ∨
  (may_lose_vote prim x = true ∧
   setVotes m cw uns prim !! i = Some (set_VP x 0 0)).
Proof.
  intros Hi.
  assert (∃ S, setVotes m cw uns prim = resets S (desired (priorities cw) uns <$> m) ∧
    ∀ j, j ∈ S → j ∈ reverse (removable (setVotes_scan m cw uns prim))) as (S & E & HS).
  { assert (va_m (setVotes_scan m cw uns prim) = desired (priorities cw) uns <$> m) as Em
      by by rewrite setVotes_scan_spec.
    unfold setVotes. cbv zeta. rewrite Em.
    edestruct removeVotes_shape as (g & l & v & Hs & ->). rewrite Hs.
    case_match; [destruct l as [|j l]|].
    - exists g. set_solver.
    - exists (g ++ [j]). split; [|set_solver]. unfold resets. by rewrite foldl_app.
    - exists g. set_solver. }
  rewrite E, lookup_resets, list_lookup_fmap, Hi. case_decide as Hd; [right|by left].
  apply HS, stack_elem in Hd as (y & Hy & Hl). rewrite Hi in Hy. injection Hy as <-.
  split; [done|]. simpl. f_equal. unfold desired. by repeat case_match.
Qed.

Lemma length_setVotes m cw uns prim : length (setVotes m cw uns prim) = length m.
Proof.
  unfold setVotes. cbv zeta. rewrite setVotes_scan_spec. cbn [va_m va_votes].
  edestruct removeVotes_shape as (g & l & v & _ & ->).
  repeat case_match; unfold setMemberVoteAndPriority;
    rewrite ?length_alter, length_resets, length_fmap; done.
Qed.

(** Two members that differ in votes and priority only. *)
Definition same_but_votes (x y : ConfigMember) : Prop := y = set_VP x (Votes y) (Priority y).

Lemma desired_same cm uns x : same_but_votes x (desired cm uns x).
Proof. unfold same_but_votes, desired. repeat case_match; by destruct x. Qed.

Lemma setVotes_same m cw uns prim : Forall2 same_but_votes m (setVotes m cw uns prim).
Proof.
  apply Forall2_same_length_lookup. split; [by rewrite length_setVotes|].
  intros i x y Hx Hy.
  destruct (setVotes_lookup m cw uns prim i x Hx) as [E|[_ E]]; rewrite E in Hy; injection Hy as <-.
  - apply desired_same.
  - done.
Qed.

Lemma hosts_same m m' : Forall2 same_but_votes m m' → hosts m' = hosts m.
Proof. unfold hosts. induction 1 as [|x y m m' -> _ IH]; csimpl; [done|]. by rewrite IH. Qed.

(** The vote and priority of every member: only these two fields change;
    a non-voting member gets neither; outside the external nodes a vote is 0
    or 1 and a member without a vote has priority 0 (which mongod demands);
    arbiters and hidden members cannot become primary; the primary keeps its
    vote. *)
Theorem setVotes_member m compareWith unsafePSA primary i x :
  m !! i = Some x →
  ∃ y, setVotes m compareWith unsafePSA primary !! i = Some y ∧
    same_but_votes x y ∧
    (has_tag "nonVoting" x = true → Votes y = 0%Z ∧ Priority y = 0%Z) ∧
    (has_tag "nonVoting" x = false → has_tag "external" x = true →
       Votes y = Votes x ∧ Priority y = Priority x) ∧
    (has_tag "external" x = false →
       (Votes y = 0%Z ∨ Votes y = 1%Z) ∧ (Votes y = 0%Z → Priority y = 0%Z) ∧
       (Hidden x = true ∨ ArbiterOnly x = true → Priority y = 0%Z)) ∧
    (Host x = primary → has_tag "nonVoting" x = false → has_tag "external" x = false →
       Votes y = 1%Z).
Proof.
  intros Hi. destruct (setVotes_lookup m compareWith unsafePSA primary i x Hi) as [E|[Hl E]];
    rewrite E; eexists; (split; [done|]).
  - split; [apply desired_same|]. unfold desired.
    destruct (has_tag "nonVoting" x), (has_tag "external" x), (Hidden x), (ArbiterOnly x);
      simpl; split_and!; intros; split_and?; try done; auto; intros; naive_solver.
  - unfold may_lose_vote in Hl. rewrite !andb_true_iff, !negb_true_iff in Hl.
    destruct Hl as [[[Hn He] Hp] _]. rewrite Hn, He. simpl. split_and!; intros; split_and?; auto; try done.
    by rewrite bool_decide_eq_false in Hp.
Qed.

(** * Limiting the changes of one reconfiguration *)

(** The member's vote appears or disappears between two configurations. *)
Definition flipped (p x : ConfigMember) : bool := xorb (voting p) (voting x).
Definition flips (m m' : ConfigMembers) : nat := count (λ px, flipped px.1 px.2) (zip m m').

Definition votes_nonneg (m : ConfigMembers) : Prop := ∀ x, x ∈ m → (0 ≤ Votes x)%Z.

Lemma host_map_lookup prev i p :
  NoDup (hosts prev) → prev !! i = Some p → host_map prev !! Host p = Some p.
Proof.
  intros Hnd Hi. apply go_map_of_nodup with p; [|by eapply list_elem_of_lookup_2|done].
  intros y k' v' Hy [= <- <-] Hh. apply list_elem_of_lookup in Hy as [j Hj].
  assert (j = i) as ->; [|congruence].
  apply (NoDup_lookup (hosts prev) j i (Host p)); [done|..];
    unfold hosts; rewrite list_lookup_fmap; [by rewrite Hj, <- Hh|by rewrite Hi].
Qed.

Section limit.
Context (prev m : ConfigMembers) (primary : string).
Context (Hnd : NoDup (hosts prev)) (Hsame : Forall2 same_but_votes prev m).
Context (Hnn : votes_nonneg prev) (Hnn' : votes_nonneg m).
Abbreviation pm := (host_map prev).

Lemma limit_lookup i x :
  m !! i = Some x → ∃ p, prev !! i = Some p ∧ same_but_votes p x ∧ pm !! Host x = Some p.
Proof.
  intros Hx. destruct (Forall2_lookup_r _ _ _ _ _ Hsame Hx) as (p & Hp & Hs).
  exists p. split_and!; try done.
  assert (Host x = Host p) as -> by by rewrite Hs. by apply host_map_lookup with i.
Qed.

Lemma vote_changed_flipped i x p :
  m !! i = Some x → prev !! i = Some p →
  vote_added pm x || vote_removed pm x = flipped p x ∧
  (vote_added pm x = true → voting p = false ∧ voting x = true) ∧
  (vote_removed pm x = true → voting p = true ∧ voting x = false).
Proof.
  intros Hx Hp. destruct (limit_lookup i x Hx) as (p' & Hp' & _ & E).
  rewrite Hp in Hp'. injection Hp' as <-.
  unfold vote_added, vote_removed, flipped, voting. rewrite E.
  pose proof (Hnn p ltac:(by eapply list_elem_of_lookup_2)).
  pose proof (Hnn' x ltac:(by eapply list_elem_of_lookup_2)).
  destruct (Z.ltb_spec 0 (Votes p)), (Z.ltb_spec 0 (Votes x)), (Z.eqb_spec (Votes p) 0),
    (Z.eqb_spec (Votes x) 0); simpl; split_and!; done || lia.
Qed.

Abbreviation added := (idx_from 0 (vote_added pm) m).
Abbreviation removed := (idx_from 0 (vote_removed pm) m).

Lemma elem_of_changed i :
  i ∈ added ++ removed ↔ ∃ p x, prev !! i = Some p ∧ m !! i = Some x ∧ flipped p x = true.
Proof.
  rewrite elem_of_app, !elem_of_idx_from. split.
  - intros [(j & x & -> & Hx & Ha)|(j & x & -> & Hx & Ha)];
      destruct (limit_lookup _ _ Hx) as (p & Hp & _);
      destruct (vote_changed_flipped j x p Hx Hp) as (E & _ & _);
      exists p, x; rewrite <- E, Ha, ?orb_true_r; done.
  - intros (p & x & Hp & Hx & Hf).
    destruct (vote_changed_flipped i x p Hx Hp) as (E & _ & _). rewrite Hf in E.
    apply orb_prop in E as [E|E]; [left|right]; by exists i, x.
Qed.

Lemma changed_NoDup : NoDup (added ++ removed).
Proof.
  apply NoDup_app. split_and!; [apply NoDup_idx_from| |apply NoDup_idx_from].
  intros i (j & x & -> & Hx & Ha)%elem_of_idx_from (j' & x' & E & Hx' & Hr)%elem_of_idx_from.
  simpl in E. subst j'. rewrite Hx in Hx'. injection Hx' as <-.
  destruct (limit_lookup _ _ Hx) as (p & Hp & _).
  destruct (vote_changed_flipped j x p Hx Hp) as (_ & Ea & Er).
  destruct (Ea Ha), (Er Hr). congruence.
Qed.

(** What the final loop leaves at each index. *)
Lemma revert_lookup apply S m0 i :
  NoDup S → (∀ j, m0 !! j = None ↔ m !! j = None) →
  (∀ j x, m0 !! j = Some x → ∃ y, m !! j = Some y ∧ Host x = Host y) →
  foldl (revert_vote pm apply) m0 S !! i =
    if decide (i ∈ S ∧ i ≠ apply)
    then (λ x, let p := default zeroMember (pm !! Host x) in set_VP x (Votes p) (Priority p)) <$> m0 !! i
    else m0 !! i.
Proof.
  revert m0; induction S as [|j S IH]; intros m0 HndS Hn Hh.
  { cbn [foldl]. case_decide; [set_solver|done]. }
  apply NoDup_cons in HndS as [Hj HndS]. cbn [foldl].
  assert (∀ k, revert_vote pm apply m0 j !! k =
    if decide (k = j ∧ j ≠ apply)
    then (λ x, let p := default zeroMember (pm !! Host x) in set_VP x (Votes p) (Priority p)) <$> m0 !! k
    else m0 !! k) as Hrv.
  { intros k. unfold revert_vote, setMemberVoteAndPriority.
    destruct (decide (j = apply)) as [Hja|Hja];
      [rewrite bool_decide_eq_true_2 by done|rewrite bool_decide_eq_false_2 by done];
      destruct (decide (k = j ∧ j ≠ apply)) as [Hk|Hk]; [tauto|done|..].
    - destruct Hk as [-> _]. destruct (m0 !! j) as [y|] eqn:Ey; [|by rewrite Ey].
      by rewrite list_lookup_alter_eq, Ey.
    - destruct (m0 !! j); [|done]. apply list_lookup_alter_ne. naive_solver. }
  rewrite IH; [|done|..].
  - rewrite Hrv.
    destruct (decide (i ∈ S ∧ i ≠ apply)) as [H1|H1], (decide (i = j ∧ j ≠ apply)) as [H2|H2],
      (decide (i ∈ j :: S ∧ i ≠ apply)) as [H3|H3]; try done; set_solver.
  - intros k. rewrite Hrv, <- Hn. destruct (decide (k = j ∧ j ≠ apply)); [|done].
    by rewrite fmap_None.
  - intros k x. rewrite Hrv. destruct (decide (k = j ∧ j ≠ apply)); [|apply Hh].
    intros (y & Hy & ->)%fmap_Some. by apply Hh in Hy.
Qed.

Lemma length_revert apply S m0 : length (foldl (revert_vote pm apply) m0 S) = length m0.
Proof.
  revert m0; induction S as [|j S IH]; intros m0; cbn [foldl]; [done|]. rewrite IH.
  unfold revert_vote, setMemberVoteAndPriority. repeat case_match; by rewrite ?length_alter.
Qed.

Lemma pick_apply_in (dflt : nat) (cs l : list nat) :
  (∀ i, i ∈ l → i ∈ cs) → dflt ∈ cs → pick_apply m primary dflt l ∈ cs.
Proof.
  induction l as [|i l IH]; intros Hl Hd; simpl; [done|].
  repeat case_match; try (apply Hl; set_solver); apply IH; set_solver.
Qed.

Abbreviation candidates :=
  (if (MaxVotingMembers <=? Z.of_nat (voters prev))%Z && (0 <? Z.of_nat (length removed))%Z
   then removed else added ++ removed).

(** When a change is deferred, the result agrees with [m] at one changed
    index, which is a candidate, and with [prev] on the votes of the others. *)
Lemma limit_pending m' :
  limitVotingChanges m prev primary = (m', true) →
  length m' = length m ∧
  ∃ a, a ∈ candidates ∧ 1 < length (added ++ removed) ∧
    (∀ i x, m !! i = Some x → ∃ p y, prev !! i = Some p ∧ m' !! i = Some y ∧
       same_but_votes p y ∧
       y = (if decide (i ≠ a ∧ flipped p x = true)
            then set_VP x (Votes p) (Priority p) else x)).
Proof.
  unfold limitVotingChanges. rewrite !indices_of_idx. fold (voters prev).
  change (count (λ member, (0 <? Votes member)%Z) prev) with (voters prev).
  destruct (Z.leb_spec (Z.of_nat (length added + length removed)) 1) as [|Hlen]; [done|].
  intros [= <-]. split; [apply length_revert|].
  assert (candidates ≠ []) as Hc.
  { case_match eqn:E.
    - apply andb_prop in E as [_ E]. destruct removed; [done|done].
    - intros E'. apply (f_equal length) in E'. rewrite length_app in E'. simpl in E'. lia. }
  set (cs := candidates) in *.
  exists (pick_apply m primary (default 0 (head cs)) cs). split_and!.
  - apply pick_apply_in; [done|]. destruct cs; [done|]. simpl. set_solver.
  - rewrite length_app. lia.
  - intros i x Hx. destruct (limit_lookup i x Hx) as (p & Hp & Hs & Hm).
    rewrite revert_lookup; [|apply changed_NoDup|done|eauto].
    set (a := pick_apply _ _ _ _). rewrite Hx.
    assert (i ∈ added ++ removed ↔ flipped p x = true) as Hch.
    { rewrite elem_of_changed. split; [|eauto 6].
      intros (p' & x' & Hp' & Hx' & ?). congruence. }
    exists p. destruct (decide (i ∈ added ++ removed ∧ i ≠ a)) as [Hd|Hd],
      (decide (i ≠ a ∧ flipped p x = true)) as [He|He]; try tauto.
    + simpl. rewrite Hm. simpl. eexists. split_and!; try done. by rewrite Hs.
    + eauto.
Qed.
End limit.

Lemma count_at_most_one {A} (p : A → bool) (l : list A) a :
  (∀ i x, l !! i = Some x → p x = true → i = a) → count p l ≤ 1.
Proof.
  revert a; induction l as [|x l IH]; intros a H; simpl; [lia|].
  destruct (p x) eqn:E.
  - assert (count p l = 0) as ->; [|lia]. apply count_zero. intros y [j Hj]%list_elem_of_lookup.
    destruct (p y) eqn:Ey; [|done].
    pose proof (H 0 x eq_refl E). pose proof (H (S j) y Hj Ey). lia.
  - apply (IH (pred a)). intros i y Hi Hy. specialize (H (S i) y Hi Hy). lia.
Qed.

Lemma flips_added_removed prev m pm :
  Forall2 (λ p x, vote_added pm x || vote_removed pm x = flipped p x ∧
    (vote_added pm x = true → voting p = false ∧ voting x = true) ∧
    (vote_removed pm x = true → voting p = true ∧ voting x = false)) prev m →
  count (vote_added pm) m + count (vote_removed pm) m = flips prev m ∧
  voters m + count (vote_removed pm) m = voters prev + count (vote_added pm) m.
Proof.
  unfold flips, voters. induction 1 as [|p x prev m (Hf & Ha & Hr) _ [IH1 IH2]]; [done|].
  cbn [zip zip_with count fst snd]. rewrite <- Hf. unfold flipped in Hf.
  destruct (vote_added pm x), (vote_removed pm x); simpl in *;
    try (destruct (Ha eq_refl) as [-> ->]); try (destruct (Hr eq_refl) as [E1 E2]; rewrite E1, E2 in *);
    try done; try lia.
  destruct (voting p), (voting x); simpl in Hf; try done; lia.
Qed.

Lemma voters_flip_at m m' a :
  length m' = length m →
  (∀ i x y, i ≠ a → m !! i = Some x → m' !! i = Some y → voting y = voting x) →
  ∀ x y, m !! a = Some x → m' !! a = Some y →
  voters m' + Nat.b2n (voting x) = voters m + Nat.b2n (voting y).
Proof.
  revert m m'; induction a as [|a IH]; intros [|x0 m] [|y0 m'] Hl H x y Hx Hy; simplify_eq/=.
  - assert (count voting m' = count voting m) as E.
    { assert (∀ i x z, m !! i = Some x → m' !! i = Some z → voting z = voting x) as H'.
      { intros i u z Hu Hz. by apply (H (S i) u z). }
      clear H. revert m' Hl H'. induction m as [|u m IHm]; intros [|z m'] Hl H'; simplify_eq/=; [done|].
      rewrite (H' 0 u z eq_refl eq_refl), (IHm m'); [done|done|].
      intros i. apply (H' (S i)). }
    unfold voters. simpl. rewrite E. destruct (voting x), (voting y); simpl; lia.
  - unfold voters in *. simpl. rewrite (H 0 x0 y0 ltac:(lia) eq_refl eq_refl).
    specialize (IH m m' Hl).
    assert (∀ i x y, i ≠ a → m !! i = Some x → m' !! i = Some y → voting y = voting x) as H'.
    { intros i u z Hi. apply (H (S i)). lia. }
    specialize (IH H' _ _ Hx Hy). lia.
Qed.

Lemma same_but_votes_trans_eq x y z : same_but_votes x y → same_but_votes x z → Host y = Host z.
Proof. by intros -> ->. Qed.

Lemma setVotes_nonneg m cw uns prim : votes_nonneg m → votes_nonneg (setVotes m cw uns prim).
Proof.
  intros Hnn y [i Hi]%list_elem_of_lookup.
  destruct (m !! i) as [x|] eqn:Hx.
  - specialize (Hnn x ltac:(by eapply list_elem_of_lookup_2)).
    destruct (setVotes_lookup m cw uns prim i x Hx) as [E|[_ E]]; rewrite E in Hi;
      injection Hi as <-; [|done].
    unfold desired. repeat case_match; simpl; unfold DefaultVotes; lia.
  - apply lookup_ge_None in Hx. apply lookup_lt_Some in Hi. rewrite length_setVotes in Hi. lia.
Qed.

Section update.
Context (m cw : ConfigMembers) (uns : bool) (prim : string).
Context (Hnd : NoDup (hosts m)) (Hnn : votes_nonneg m).
Abbreviation m1 := (setVotes m cw uns prim).
Abbreviation pm := (host_map m).

Lemma update_pairs :
  Forall2 (λ p x, vote_added pm x || vote_removed pm x = flipped p x ∧
    (vote_added pm x = true → voting p = false ∧ voting x = true) ∧
    (vote_removed pm x = true → voting p = true ∧ voting x = false)) m m1.
Proof.
  apply Forall2_same_length_lookup. split; [by rewrite length_setVotes|].
  intros i p x Hp Hx.
  apply (vote_changed_flipped m m1 Hnd (setVotes_same _ _ _ _) Hnn
           (setVotes_nonneg _ _ _ _ Hnn) i x p Hx Hp).
Qed.

(** The two branches of [limitVotingChanges]. *)
Lemma update_cases m2 pending :
  limitVotingChanges m1 m prim = (m2, pending) →
  (pending = false ∧ m2 = m1 ∧ flips m m1 ≤ 1) ∨
  (pending = true ∧ 1 < flips m m1 ∧ ∃ a pa xa, m !! a = Some pa ∧ m1 !! a = Some xa ∧
     flipped pa xa = true ∧ m2 !! a = Some xa ∧
     Forall2 same_but_votes m m2 ∧
     (∀ i p y, i ≠ a → m !! i = Some p → m2 !! i = Some y → voting y = voting p) ∧
     ((MaxVotingMembers ≤ Z.of_nat (voters m))%Z → voting pa = true ∨
        voters m1 = voters m + flips m m1)).
Proof.
  intros E. destruct (flips_added_removed m m1 pm update_pairs) as [Hfl Hvo].
  destruct pending; [right|left].
  2: { revert E. unfold limitVotingChanges. rewrite !indices_of_idx, !length_idx_from.
       case_match eqn:Hle; intros [= <-]. apply Z.leb_le in Hle. split_and!; [done..|lia]. }
  destruct (limit_pending m m1 prim Hnd (setVotes_same _ _ _ _) Hnn
              (setVotes_nonneg _ _ _ _ Hnn) m2 E) as (Hl2 & a & Ha & Hlen & Hi).
  rewrite length_app, !length_idx_from in Hlen. split_and!; [done|lia|].
  assert (a ∈ idx_from 0 (vote_added pm) m1 ++ idx_from 0 (vote_removed pm) m1) as Hac.
  { case_match; set_solver. }
  apply (elem_of_changed m m1 Hnd (setVotes_same _ _ _ _) Hnn (setVotes_nonneg _ _ _ _ Hnn))
    in Hac as (pa & xa & Hpa & Hxa & Hf).
  exists a, pa, xa. split_and!; try done.
  - destruct (Hi a xa Hxa) as (p & y & _ & Hy & _ & ->). rewrite decide_False in Hy by tauto. done.
  - apply Forall2_same_length_lookup. split.
    + by rewrite Hl2, length_setVotes.
    + intros i p y Hp Hy.
      destruct (m1 !! i) as [x|] eqn:Hx.
      * destruct (Hi i x Hx) as (p' & y' & ? & ? & ? & _). congruence.
      * apply lookup_ge_None in Hx. rewrite length_setVotes in Hx.
        apply lookup_lt_Some in Hp. lia.
  - intros i p y Hia Hp Hy.
    destruct (m1 !! i) as [x|] eqn:Hx.
    + destruct (Hi i x Hx) as (p' & y' & Hp' & Hy' & _ & Ey). simplify_eq.
      destruct (flipped p x) eqn:Hpx.
      * by rewrite decide_True.
      * rewrite decide_False by (intros [_ ?]; congruence).
        unfold flipped in Hpx. by destruct (voting p), (voting x).
    + apply lookup_ge_None in Hx. rewrite length_setVotes in Hx.
      apply lookup_lt_Some in Hp. lia.
  - intros Hmax. apply Z.leb_le in Hmax. rewrite Hmax in Ha. rewrite length_idx_from in Ha.
    destruct (Z.ltb_spec 0 (Z.of_nat (count (vote_removed pm) m1))) as [Hr|Hr]; simpl in Ha.
    + left. apply elem_of_idx_from in Ha as (j & x & Ej & Hx & Hv). simpl in Ej; subst j.
      destruct (vote_changed_flipped m m1 Hnd (setVotes_same _ _ _ _) Hnn
        (setVotes_nonneg _ _ _ _ Hnn) a x pa Hx Hpa) as (_ & _ & Hvr).
      by destruct (Hvr Hv).
    + right. lia.
Qed.
End update.

Lemma flips_le_one m m' a :
  (∀ i p y, i ≠ a → m !! i = Some p → m' !! i = Some y → voting y = voting p) → flips m m' ≤ 1.
Proof.
  intros H. apply count_at_most_one with a. intros i [p y] Hi Hf.
  apply lookup_zip_with_Some in Hi as (p' & y' & [= <- <-] & Hp & Hy).
  destruct (decide (i = a)) as [|Hne]; [done|].
  unfold flipped in Hf. simpl in Hf. rewrite (H i p y Hne Hp Hy), xorb_nilpotent in Hf. done.
Qed.

Lemma flips_pos m m' a p y :
  m !! a = Some p → m' !! a = Some y → flipped p y = true → 1 ≤ flips m m'.
Proof.
  intros Hp Hy Hf. apply count_pos. exists (p, y). split; [|done].
  apply list_elem_of_lookup. exists a. apply lookup_zip_with_Some. by exists p, y.
Qed.

(** C7: one call of [UpdateVotes] changes the vote of at most one member
    (mongod accepts no more per reconfiguration) and nothing but votes and
    priorities; the flags are exact: "changed" tells whether the members
    changed, "pending" whether the wanted assignment flips more than one vote,
    in which case exactly one of them was applied, and otherwise all of it. *)
Theorem UpdateVotes_one_change m compareWith unsafePSA primary m' changed pending :
  NoDup (hosts m) → votes_nonneg m →
  UpdateVotes m compareWith unsafePSA primary = (m', changed, pending) →
  let wanted := setVotes m compareWith unsafePSA primary in
  Forall2 same_but_votes m m' ∧
  flips m m' ≤ 1 ∧
  (changed = false ↔ m' = m) ∧
  (pending = true ↔ 1 < flips m wanted) ∧
  (pending = true → flips m m' = 1) ∧
  (pending = false → m' = wanted).
Proof.
  intros Hnd Hnn E wanted. unfold UpdateVotes in E. fold wanted in E.
  destruct (limitVotingChanges wanted m primary) as [m2 pend] eqn:El.
  injection E as <- <- <-.
  assert (negb (bool_decide (m = m2)) = false ↔ m2 = m) as Hch.
  { rewrite negb_false_iff, bool_decide_eq_true. naive_solver. }
  destruct (update_cases m compareWith unsafePSA primary Hnd Hnn m2 pend El)
    as [(-> & -> & Hf)|(-> & Hf & a & pa & xa & Hpa & Hxa & Hfl & Hya & Hs & Hoth & _)].
  - split_and!; try done. apply setVotes_same. split; [done|fold wanted in Hf; lia].
  - pose proof (flips_le_one m m2 a Hoth). pose proof (flips_pos _ _ _ _ _ Hpa Hya Hfl).
    split_and!; try done. intros _. lia.
Qed.

(** [UpdateVotes] never takes a configuration with at most seven voters
    above seven when the wanted assignment respects that limit, although the
    assignment is applied one vote at a time. *)
Theorem UpdateVotes_bound m compareWith unsafePSA primary m' changed pending :
  NoDup (hosts m) → votes_nonneg m →
  (Z.of_nat (voters m) ≤ MaxVotingMembers)%Z →
  (Z.of_nat (voters (setVotes m compareWith unsafePSA primary)) ≤ MaxVotingMembers)%Z →
  UpdateVotes m compareWith unsafePSA primary = (m', changed, pending) →
  (Z.of_nat (voters m') ≤ MaxVotingMembers)%Z.
Proof.
  intros Hnd Hnn Hm Hw E. unfold UpdateVotes in E.
  destruct (limitVotingChanges _ m primary) as [m2 pend] eqn:El. injection E as <- <- <-.
  destruct (update_cases m compareWith unsafePSA primary Hnd Hnn m2 pend El)
    as [(-> & -> & Hf)|(-> & Hf & a & pa & xa & Hpa & Hxa & Hfl & Hya & Hs & Hoth & Hmax)]; [done|].
  pose proof (voters_flip_at m m2 a (eq_sym (Forall2_length _ _ _ Hs)) ltac:(intros; eauto) _ _ Hpa Hya)
    as Hv.
  unfold MaxVotingMembers in *.
  destruct (decide (7 ≤ Z.of_nat (voters m))%Z) as [H7|H7].
  - destruct (Hmax H7) as [Hpv|Hadd]; [rewrite Hpv in Hv|lia].
    unfold flipped in Hfl. rewrite Hpv in Hfl. destruct (voting xa); simpl in *; [done|lia].
  - destruct (voting pa), (voting xa); simpl in Hv; lia.
Qed.

(** * Witnesses *)

(** Nine data members with a vote each, and the primary [n0]. *)
Definition demo_members (n : nat) : ConfigMembers :=
  (λ i, set_VP (set_Host (set_ID zeroMember (Z.of_nat i)) ("n" +:+ pretty i)) 1 2) <$> seq 0 n.

Lemma demo_nodup : NoDup (hosts (demo_members 9)).
Proof. apply (bool_decide_eq_true_1 _). vm_compute. reflexivity. Defined.
Lemma demo_nonneg n : votes_nonneg (demo_members n).
Proof. intros x (i & -> & _)%list_elem_of_fmap. simpl. lia. Defined.
Lemma demo_external n : external_votes_ok (demo_members n).
Proof. intros x (i & -> & _)%list_elem_of_fmap H. discriminate H. Defined.

Lemma setVotes_bound_witness :
  let r := setVotes (demo_members 9) [] false "n0" in
  external_votes_ok (demo_members 9) ∧ voters r = 7 ∧
  ((Z.of_nat (voters r) ≤ MaxVotingMembers)%Z ∨
     ∀ x, x ∈ r → voting x = true → pinned "n0" x = true).
Proof.
  split; [apply demo_external|]. split; [reflexivity|].
  destruct (setVotes_bound (demo_members 9) [] false "n0" (demo_external 9)) as [H _]. exact H.
Defined.

Lemma setVotes_member_witness :
  demo_members 9 !! 8 = Some (set_VP (set_Host (set_ID zeroMember 8) "n8") 1 2) ∧
  ∃ y, setVotes (demo_members 9) [] false "n0" !! 8 = Some y.
Proof.
  split; [reflexivity|].
  destruct (setVotes_member (demo_members 9) [] false "n0" 8 _ eq_refl) as (y & Hy & _).
  exists y. exact Hy.
Defined.

Lemma UpdateVotes_one_change_witness :
  NoDup (hosts (demo_members 9)) ∧ votes_nonneg (demo_members 9) ∧
  flips (demo_members 9) (UpdateVotes (demo_members 9) [] false "n0").1.1 ≤ 1.
Proof.
  split; [exact demo_nodup|]. split; [apply demo_nonneg|].
  destruct (UpdateVotes_one_change (demo_members 9) [] false "n0"
    (UpdateVotes (demo_members 9) [] false "n0").1.1
    (UpdateVotes (demo_members 9) [] false "n0").1.2
    (UpdateVotes (demo_members 9) [] false "n0").2 demo_nodup (demo_nonneg 9))
    as (_ & H & _); [vm_compute; reflexivity|exact H].
Defined.

Lemma UpdateVotes_bound_witness :
  let m := take 7 (demo_members 9) in
  (Z.of_nat (voters m) ≤ MaxVotingMembers)%Z ∧
  (Z.of_nat (voters (UpdateVotes m [] false "n0").1.1) ≤ MaxVotingMembers)%Z.
Proof.
  split; [vm_compute; discriminate|].
  apply (UpdateVotes_bound (take 7 (demo_members 9)) [] false "n0"
    (UpdateVotes (take 7 (demo_members 9)) [] false "n0").1.1
    (UpdateVotes (take 7 (demo_members 9)) [] false "n0").1.2
    (UpdateVotes (take 7 (demo_members 9)) [] false "n0").2).
  - apply (bool_decide_eq_true_1 _). vm_compute. reflexivity.
  - apply (demo_nonneg 7).
  - vm_compute; discriminate.
  - vm_compute; discriminate.
  - vm_compute; reflexivity.
Defined.
