(* ===== verification/MongoClient.v ===== *)
(** The MongoDB client of the operator: the commands of
    pkg/psmdb/mongo/mongo.go.

    The driver is code outside the repository and is the class [MongoDriver]:
    it runs a command document against a database and hands back a result
    whose error and whose decoding are asked for separately. *)
From S2P Require Import Prelude ReplsetModels.

(** * Command documents: [bson.D], [bson.A], [bson.M] and the Go values in them *)
Inductive bval :=
| VInt (z : Z)
| VStr (s : string)
| VBool (b : bool)
| VStrs (l : list string)                 (* []string *)
| VDoc (d : list (string * bval))         (* bson.D *)
| VArr (l : list bval)                    (* bson.A *)
| VMap (m : list (string * bval))         (* bson.M, in key order *)
| VRole (r : Role)
| VInheritedRole (r : InheritenceRole)
| VPrivilege (p : RolePrivilege)
| VConfig (c : RSConfig)
| VRaw (raw : string).                    (* a value decoded into [any] *)

Abbreviation command := (list (string * bval)).

(** The response types the operator decodes into. *)
Inductive resp_kind :=
| RK_OK | RK_Config | RK_RoleInfo | RK_Status | RK_Balancer | RK_FCV | RK_DBList
| RK_ShardList | RK_ShardRemove | RK_BuildInfo | RK_IsMaster | RK_Users | RK_UserRoles.

Definition resp_ty (k : resp_kind) : Type :=
  match k with
  | RK_OK => OKResponse
  | RK_Config => ReplSetGetConfig
  | RK_RoleInfo => RoleInfo
  | RK_Status => Status
  | RK_Balancer => BalancerStatus
  | RK_FCV => FCV
  | RK_DBList => DBList
  | RK_ShardList => ShardList
  | RK_ShardRemove => ShardRemoveResp
  | RK_BuildInfo => BuildInfo
  | RK_IsMaster => IsMasterResp
  | RK_Users => UsersInfo
  | RK_UserRoles => list bval
  end.

Class MongoDriver := {
  World : Type;
  SingleResult : Type;
  runCommand : string → command → World → SingleResult * World;
  sr_Err : SingleResult → option error;
  sr_Decode : ∀ k, SingleResult → result (resp_ty k)
}.

(** Documented behaviour of the driver: decoding a failed result returns its
    error. *)
Class MongoDriverLaws (D : MongoDriver) :=
  decode_of_failed : ∀ k r e, sr_Err r = Some e → sr_Decode k r = Err e.

Section commands.
Context {D : MongoDriver}.
Abbreviation M := (GoM World).

(** [client.Database(db).RunCommand(ctx, cmd)] *)
Definition RunCommand (db : string) (cmd : command) : M SingleResult :=
  λ w, let '(r, w') := runCommand db cmd w in (Ok r, w').

(** [if res.Err() != nil { return errors.Wrap(res.Err(), msg) }] *)
Definition check_err (res : SingleResult) (msg : string) : M unit :=
  match sr_Err res with Some e => throw (EWrap e msg) | None => mret tt end.

(** [if err := res.Decode(&resp); err != nil { return errors.Wrap(err, msg) }] *)
Definition decode (k : resp_kind) (res : SingleResult) (msg : string) : M (resp_ty k) :=
  wrapM msg (liftR (sr_Decode k res)).

(** [if resp.OK != 1 { return errors.Errorf("mongo says: %s", resp.Errmsg) }] *)
Definition check_ok (resp : OKResponse) : M unit :=
  if negb (OK resp =? 1)%Z then throw (ENew ("mongo says: " +:+ Errmsg resp)) else mret tt.

Definition parseWriteConcernW (w : string) : string + Z :=
  match atoi w with
  | Some n => if (0 <=? n)%Z then inr n else inl w
  | None => inl w
  end.

Definition SetDefaultRWConcern (readConcern writeConcernW : string) (writeConcernWTimeout : Z)
    : M unit :=
  let cmd := [("setDefaultRWConcern", VInt 1);
              ("defaultReadConcern", VDoc [("level", VStr readConcern)]);
              ("defaultWriteConcern", VDoc
                 [("w", match parseWriteConcernW writeConcernW with
                        | inl s => VStr s | inr n => VInt n end);
                  ("wtimeout", VInt writeConcernWTimeout)])] in
  res ← RunCommand "admin" cmd;
  check_err res "setDefaultRWConcern".

Definition ReadConfig : M RSConfig :=
  res ← RunCommand "admin" [("replSetGetConfig", VInt 1)];
  check_err res "replSetGetConfig";;
  resp ← decode RK_Config res "failed to decode to replSetGetConfig";
  match RSGC_Config resp with
  | None => throw (ENew ("mongo says: " +:+ Errmsg (RSGC_OK resp)))
  | Some c => mret c
  end.

(** The body shared by [CreateRole] and [UpdateRole]. *)
Definition authRestriction (r : RoleAuthenticationRestriction) : bval :=
  VMap ((if (0 <? Z.of_nat (length (ClientSource r)))%Z
         then [("clientSource", VStrs (ClientSource r))] else []) ++
        (if (0 <? Z.of_nat (length (ServerAddress r)))%Z
         then [("serverAddress", VStrs (ServerAddress r))] else [])).

Definition roleCommand (verb : string) (role : Role) : command :=
  [(verb, VStr (R_Role role));
   ("privileges", VArr (VPrivilege <$> R_Privileges role));
   ("roles", VArr (VInheritedRole <$> R_Roles role));
   ("authenticationRestrictions", VArr (authRestriction <$> R_AuthRestrictions role))].

Definition CreateRole (db : string) (role : Role) : M unit :=
  res ← RunCommand db (roleCommand "createRole" role);
  check_err res "failed to create role";;
  resp ← decode RK_OK res "failed to decode response";
  check_ok resp.

Definition UpdateRole (db : string) (role : Role) : M unit :=
  res ← RunCommand db (roleCommand "updateRole" role);
  check_err res "failed to create role";;
  resp ← decode RK_OK res "failed to decode response";
  check_ok resp.

Definition GetRole (db role : string) : M (option Role) :=
  res ← RunCommand db [("rolesInfo", VStr role); ("showPrivileges", VBool true);
                       ("showAuthenticationRestrictions", VBool true)];
  check_err res "run command";;
  resp ← decode RK_RoleInfo res "failed to decode response";
  check_ok (RI_OK resp);;
  match RI_Roles resp with
  | [] => mret None
  | r0 :: _ =>
      mret (Some {| R_Role := role; R_DB := GR_DB r0; R_Roles := GR_Roles r0;
                    R_Privileges := GR_Privileges r0;
                    R_AuthRestrictions :=
                      match GR_AuthRestrictions r0 with [] => [] | a :: _ => a end |})
  end.

Definition CreateUser (db user pwd : string) (roles : list Role) : M unit :=
  let d := [("createUser", VStr user); ("roles", VArr (VRole <$> roles))] in
  let d := if negb (bool_decide (db = "$external")) then d ++ [("pwd", VStr pwd)] else d in
  res ← RunCommand db d;
  check_err res "failed to create user";;
  resp ← decode RK_OK res "failed to decode response";
  check_ok resp.

Definition AddShard (rsName host : string) : M unit :=
  res ← RunCommand "admin" [("addShard", VStr (rsName +:+ "/" +:+ host))];
  check_err res "add shard";;
  resp ← decode RK_OK res "failed to decode addShard response";
  if negb (OK resp =? 1)%Z then throw (ENew ("add shard: " +:+ Errmsg resp)) else mret tt.

Definition WriteConfig (cfg : RSConfig) (force : bool) : M unit :=
  res ← RunCommand "admin" [("replSetReconfig", VConfig cfg); ("force", VBool force)];
  check_err res "replSetReconfig";;
  resp ← decode RK_OK res "failed to decode to replSetReconfigResponse";
  check_ok resp.

Definition ErrInvalidReplsetConfig : error := ENew "invalid replicaset config".

Definition RSStatus : M Status :=
  resp ← RunCommand "admin" [("replSetGetStatus", VInt 1)];
  match sr_Err resp with
  | Some e =>
      match e with
      | EExt (KCommand code _) _ =>
          if (code =? 93)%Z then throw ErrInvalidReplsetConfig
          else throw (EWrap e "replSetGetStatus")
      | _ => throw (EWrap e "replSetGetStatus")
      end
  | None =>
      status ← decode RK_Status resp "failed to decode rs status";
      check_ok (St_OK status);;
      mret status
  end.

Definition switchBalancer (cmd : string) : M unit :=
  resp ← RunCommand "admin" [(cmd, VInt 1)];
  check_err resp cmd;;
  res ← decode RK_OK resp ("failed to decode " +:+ cmd +:+ " response");
  check_ok res.

Definition StartBalancer : M unit := switchBalancer "balancerStart".
Definition StopBalancer : M unit := switchBalancer "balancerStop".

Definition IsBalancerRunning : M bool :=
  resp ← RunCommand "admin" [("balancerStatus", VInt 1)];
  check_err resp "balancer status";;
  res ← decode RK_Balancer resp "failed to decode balancer status response";
  check_ok (BS_OK res);;
  mret (bool_decide (Mode res = "full")).

(** [GetFCV] does not look at the result's error before decoding it. *)
Definition GetFCV : M string :=
  resp ← RunCommand "admin" [("getParameter", VInt 1); ("featureCompatibilityVersion", VInt 1)];
  res ← decode RK_FCV resp "failed to decode balancer status response";
  check_ok (FCV_OK res);;
  mret (FCV_Version res).

Definition SetFCV (version : string) : M unit :=
  let cmd := "setFeatureCompatibilityVersion" in
  resp ← (if bool_decide (version = "4.4") || bool_decide (version = "5.0")
             || bool_decide (version = "6.0")
          then RunCommand "admin" [(cmd, VStr version)]
          else RunCommand "admin" [(cmd, VStr version); ("confirm", VBool true)]);
  check_err resp cmd;;
  res ← decode RK_OK resp "failed to decode response";
  check_ok res.

Definition ListDBs : M DBList :=
  resp ← RunCommand "admin" [("listDatabases", VInt 1)];
  check_err resp "listDatabases";;
  dbList ← decode RK_DBList resp "failed to decode db list";
  check_ok (DBL_OK dbList);;
  mret dbList.

Definition ListShard : M ShardList :=
  resp ← RunCommand "admin" [("listShards", VInt 1)];
  check_err resp "listShards";;
  shardList ← decode RK_ShardList resp "failed to decode shard list";
  check_ok (SL_OK shardList);;
  mret shardList.

Definition RemoveShard (shard : string) : M ShardRemoveResp :=
  resp ← RunCommand "admin" [("removeShard", VStr shard)];
  check_err resp "remove shard";;
  removeResp ← decode RK_ShardRemove resp "failed to decode shard list";
  check_ok (SRR_OK removeResp);;
  mret removeResp.

Definition RSBuildInfo : M BuildInfo :=
  resp ← RunCommand "admin" [("buildinfo", VInt 1)];
  check_err resp "buildinfo";;
  bi ← decode RK_BuildInfo resp "failed to decode build info";
  check_ok (BI_OK bi);;
  mret bi.

(** [cErr.HasErrorLabel("NetworkError")] *)
Definition has_network_label (e : error) : bool :=
  match e with
  | EExt (KCommand _ labels) _ => bool_decide ("NetworkError" ∈ labels)
  | _ => false
  end.

Definition StepDown (seconds : Z) (force : bool) : M unit :=
  res ← RunCommand "admin" [("replSetStepDown", VInt seconds); ("force", VBool force)];
  match sr_Err res with
  | Some e => if has_network_label e then mret tt else throw (EWrap e "replSetStepDown")
  | None =>
      resp ← decode RK_OK res "failed to decode response of replSetStepDown";
      check_ok resp
  end.

Definition Freeze (seconds : Z) : M unit :=
  res ← RunCommand "admin" [("replSetFreeze", VInt seconds)];
  check_err res "replSetStepDown";;
  resp ← decode RK_OK res "failed to decode response of replSetStepDown";
  check_ok resp.

Definition IsMasterCmd : M IsMasterResp :=
  cur ← RunCommand "admin" [("isMaster", VInt 1)];
  check_err cur "run isMaster";;
  resp ← decode RK_IsMaster cur "decode isMaster response";
  check_ok (IM_OK resp);;
  mret resp.

Definition GetUserInfo (username db : string) : M (option User) :=
  res ← RunCommand db [("usersInfo", VStr username)];
  check_err res "run command";;
  resp ← decode RK_Users res "failed to decode response";
  check_ok (UI_OK resp);;
  mret (head (UI_Users resp)).

(** [RunCommand(..).Err()] returned as it is *)
Definition run_err (db : string) (cmd : command) : M unit :=
  res ← RunCommand db cmd;
  match sr_Err res with Some e => throw e | None => mret tt end.

Definition UpdateUserRoles (db username : string) (roles : list Role) : M unit :=
  run_err db [("updateUser", VStr username); ("roles", VArr (VRole <$> roles))].

Definition UpdateUserPass (db name pass : string) : M unit :=
  run_err db [("updateUser", VStr name); ("pwd", VStr pass)].

Definition UpdateUser (currName newName pass : string) : M unit :=
  res ← RunCommand "admin" [("usersInfo", VStr currName)];
  check_err res "get user";;
  mu ← decode RK_UserRoles res "decode user";
  match mu with
  | [] => throw (ENew "empty user data")
  | roles :: _ =>
      wrapM "create user"
        (run_err "admin" [("createUser", VStr newName); ("pwd", VStr pass); ("roles", roles)]);;
      wrapM "drop user" (run_err "admin" [("dropUser", VStr currName)])
  end.
End commands.

(** * The client interface

    The methods of the interface [Client] that the controllers call; their
    theorems are about any implementation, the driver's commands are one. *)
(** A command's result: its error, and what decoding it into an [OKResponse]
    gives. *)
Record CommandResult := { cres_Err : option error; cres_OK : result OKResponse }.

Class Client (W : Type) := {
  cSetDefaultRWConcern : string → string → Z → GoM W unit;
  cReadConfig : GoM W RSConfig;
  cCreateRole : string → Role → GoM W unit;
  cUpdateRole : string → Role → GoM W unit;
  cGetRole : string → string → GoM W (option Role);
  cCreateUser : string → string → string → list Role → GoM W unit;
  cAddShard : string → string → GoM W unit;
  cWriteConfig : RSConfig → bool → GoM W unit;
  cRSStatus : GoM W Status;
  cStartBalancer : GoM W unit;
  cStopBalancer : GoM W unit;
  cIsBalancerRunning : GoM W bool;
  cGetFCV : GoM W string;
  cSetFCV : string → GoM W unit;
  cListDBs : GoM W DBList;
  cListShard : GoM W ShardList;
  cRemoveShard : string → GoM W ShardRemoveResp;
  cRSBuildInfo : GoM W BuildInfo;
  cStepDown : Z → bool → GoM W unit;
  cFreeze : Z → GoM W unit;
  cIsMaster : GoM W IsMasterResp;
  cGetUserInfo : string → string → GoM W (option User);
  cUpdateUserRoles : string → string → list Role → GoM W unit;
  cUpdateUserPass : string → string → string → GoM W unit;
  cUpdateUser : string → string → string → GoM W unit;
  cRunCommand : string → command → GoM W CommandResult    (* Database(db).RunCommand *)
}.

#[export] Instance driver_client (D : MongoDriver) : Client World := {
  cSetDefaultRWConcern := SetDefaultRWConcern;
  cReadConfig := ReadConfig;
  cCreateRole := CreateRole;
  cUpdateRole := UpdateRole;
  cGetRole := GetRole;
  cCreateUser := CreateUser;
  cAddShard := AddShard;
  cWriteConfig := WriteConfig;
  cRSStatus := RSStatus;
  cStartBalancer := StartBalancer;
  cStopBalancer := StopBalancer;
  cIsBalancerRunning := IsBalancerRunning;
  cGetFCV := GetFCV;
  cSetFCV := SetFCV;
  cListDBs := ListDBs;
  cListShard := ListShard;
  cRemoveShard := RemoveShard;
  cRSBuildInfo := RSBuildInfo;
  cStepDown := StepDown;
  cFreeze := Freeze;
  cIsMaster := IsMasterCmd;
  cGetUserInfo := GetUserInfo;
  cUpdateUserRoles := UpdateUserRoles;
  cUpdateUserPass := UpdateUserPass;
  cUpdateUser := UpdateUser;
  cRunCommand := λ db cmd, res ← RunCommand db cmd;
                   mret {| cres_Err := sr_Err res; cres_OK := sr_Decode RK_OK res |}
}.

(** * A driver that records the commands it runs *)
#[export] Instance logged (D : MongoDriver) : MongoDriver := {
  World := World * list (string * command);
  SingleResult := SingleResult;
  runCommand := λ db cmd w,
    let '(r, w') := runCommand db cmd w.1 in (r, (w', w.2 ++ [(db, cmd)]));
  sr_Err := sr_Err;
  sr_Decode := sr_Decode
}.

(** * Theorems *)

(** The server acknowledged a write: no error, a response that decodes, and
    ok = 1 in it. *)
Definition acknowledged {D : MongoDriver} (r : SingleResult) : Prop :=
  sr_Err r = None ∧ ∃ resp, sr_Decode RK_OK r = Ok resp ∧ OK resp = 1%Z.

(** The common shape of the write commands. *)
Lemma ack_shape {D : MongoDriver} db cmd e1 e2 (fail : OKResponse → error) w :
  let op := (res ← RunCommand db cmd; check_err res e1;; resp ← decode RK_OK res e2;
             if negb (OK resp =? 1)%Z then throw (fail resp) else mret tt) in
  (op w).2 = (runCommand db cmd w).2 ∧
  ((op w).1 = Ok tt ↔ acknowledged (runCommand db cmd w).1).
Proof.
  unfold acknowledged, RunCommand, check_err, decode. gom.
  destruct (runCommand db cmd w) as [r w']; simpl.
  destruct (sr_Err r); simpl; [split; [done|]; naive_solver|].
  destruct (sr_Decode RK_OK r) as [resp|e]; simpl; [|split; [done|]; naive_solver].
  destruct (Z.eqb_spec (OK resp) 1); simpl; split; naive_solver.
Qed.

(** Every write command of the client sends exactly one command
    document, to the given database, and reports success exactly when the
    server acknowledged it with ok = 1: no failure is swallowed. *)
Theorem write_commands_ack {D : MongoDriver} (db user pwd rsName host name : string)
    (role : Role) (roles : list Role) (cfg : RSConfig) (force : bool) (seconds : Z) :
  Forall (λ '(op, db', cmd), ∀ w : World,
      (op w).2 = (runCommand db' cmd w).2 ∧
      ((op w).1 = Ok tt ↔ acknowledged (runCommand db' cmd w).1))
    [ (CreateRole db role, db, roleCommand "createRole" role);
      (UpdateRole db role, db, roleCommand "updateRole" role);
      (CreateUser db user pwd roles, db,
         [("createUser", VStr user); ("roles", VArr (VRole <$> roles))] ++
         (if decide (db = "$external") then [] else [("pwd", VStr pwd)]));
      (AddShard rsName host, "admin", [("addShard", VStr (rsName +:+ "/" +:+ host))]);
      (WriteConfig cfg force, "admin", [("replSetReconfig", VConfig cfg); ("force", VBool force)]);
      (StartBalancer, "admin", [("balancerStart", VInt 1)]);
      (StopBalancer, "admin", [("balancerStop", VInt 1)]);
      (Freeze seconds, "admin", [("replSetFreeze", VInt seconds)]);
      (SetFCV name, "admin",
         ("setFeatureCompatibilityVersion", VStr name) ::
         (if decide (name ∈ ["4.4"; "5.0"; "6.0"]) then [] else [("confirm", VBool true)])) ].
Proof.
  rewrite !Forall_cons, Forall_nil. split_and!; try (intros w; apply ack_shape); try done; intros w.
  - unfold CreateUser. case_bool_decide; case_decide; try done; apply ack_shape.
  - unfold SetFCV. do 3 (case_bool_decide; [rewrite decide_True by set_solver; apply ack_shape|]).
    rewrite decide_False by set_solver. apply ack_shape.
Qed.

(** [UpdateUser] drops the old user only after the server accepted the
    new one: the commands it sends are a prefix of usersInfo, createUser,
    dropUser, and dropUser is among them only when createUser had no error. *)
Theorem UpdateUser_order {D : MongoDriver} (currName newName pass : string) (w : World) :
  let '(_, (_, sent)) := UpdateUser (D := logged D) currName newName pass (w, []) in
  let get := ("admin", [("usersInfo", VStr currName)]) in
  let drop := ("admin", [("dropUser", VStr currName)]) in
  let w1 := (runCommand "admin" [("usersInfo", VStr currName)] w).2 in
  sent = [get] ∨
  ∃ roles, let create := ("admin", [("createUser", VStr newName); ("pwd", VStr pass); ("roles", roles)]) in
    let r := (runCommand create.1 create.2 w1).1 in
    (sent = [get; create] ∧ sr_Err r ≠ None) ∨ (sent = [get; create; drop] ∧ sr_Err r = None).
Proof.
  unfold UpdateUser, run_err, check_err, decode, RunCommand. gom. simpl.
  destruct (runCommand "admin" [("usersInfo", VStr currName)] w) as [r w1] eqn:E1; simpl.
  destruct (sr_Err r); [by left|]. simpl.
  destruct (sr_Decode RK_UserRoles r) as [[|roles us]|]; simpl; [by left| |by left].
  destruct (runCommand "admin" [("createUser", VStr newName); ("pwd", VStr pass); ("roles", roles)] w1)
    as [r2 w2] eqn:E2; simpl.
  destruct (sr_Err r2) eqn:Er; simpl.
  { right. exists roles. rewrite E2. simpl. left. by rewrite Er. }
  destruct (runCommand "admin" [("dropUser", VStr currName)] w2) as [r3 w3]; simpl.
  destruct (sr_Err r3); simpl; right; exists roles; rewrite E2; simpl; right; by rewrite Er.
Qed.

(** * A server with a fixed configuration and status, for concrete runs: it
    accepts every command and stores nothing. *)
Definition fixed_client (W : Type) (cfg : RSConfig) (st : Status) : Client W := {|
  cSetDefaultRWConcern := λ _ _ _, mret tt;
  cReadConfig := mret cfg;
  cCreateRole := λ _ _, mret tt;
  cUpdateRole := λ _ _, mret tt;
  cGetRole := λ _ _, mret None;
  cCreateUser := λ _ _ _ _, mret tt;
  cAddShard := λ _ _, mret tt;
  cWriteConfig := λ _ _, mret tt;
  cRSStatus := mret st;
  cStartBalancer := mret tt;
  cStopBalancer := mret tt;
  cIsBalancerRunning := mret false;
  cGetFCV := mret "7.0";
  cSetFCV := λ _, mret tt;
  cListDBs := mret {| DBs := []; DBL_OK := {| Errmsg := ""; OK := 1 |} |};
  cListShard := mret {| Shards := []; SL_OK := {| Errmsg := ""; OK := 1 |} |};
  cRemoveShard := λ _, mret {| SRR_Msg := ""; SRR_State := ShardRemoveCompleted; SRR_Note := "";
    DBsToMove := []; Rem_DBs := 0; Rem_Chunks := 0; Rem_JumboChunks := 0;
    SRR_OK := {| Errmsg := ""; OK := 1 |} |};
  cRSBuildInfo := mret {| BI_Version := ""; BI_OK := {| Errmsg := ""; OK := 1 |} |};
  cStepDown := λ _ _, mret tt;
  cFreeze := λ _, mret tt;
  cIsMaster := mret {| IsMaster := true; IsArbiter := false; IM_Msg := "";
                       IM_OK := {| Errmsg := ""; OK := 1 |} |};
  cGetUserInfo := λ _ _, mret None;
  cUpdateUserRoles := λ _ _ _, mret tt;
  cUpdateUserPass := λ _ _ _, mret tt;
  cUpdateUser := λ _ _ _, mret tt;
  cRunCommand := λ _ _, mret {| cres_Err := None; cres_OK := Ok {| Errmsg := ""; OK := 1 |} |}
|}.
