(* ===== verification/MongoDial.v ===== *)
(** Connecting to MongoDB: [Config.Options], [Dial], its retries and the
    classification of errors, in pkg/psmdb/mongo/mongo.go. *)
From S2P Require Import Prelude.

(** Durations are nanoseconds. *)
Definition Second : Z := 1000000000.

(** A TLS configuration is only passed on. *)
Record Config := {
  Hosts : list string;
  ReplSetName : string;
  Username : string;
  Password : string;
  AuthSource : string;
  TLSConf : option string;
  Direct : bool;
  Timeout : Z;
  AppName : string
}.

(** The Kubernetes retry policy [wait.Backoff] is outside the repository. *)
Class WaitBackoff := {
  Backoff : Type;
  mkBackoff : Z → Z → (Z * Z) → (Z * Z) → Backoff;   (* Steps, Duration, Factor, Jitter *)
  zeroBackoff : Backoff;
  bo_Steps : Backoff → Z;
  bo_Step : Backoff → Z * Backoff                     (* how long to sleep, what remains *)
}.
(** Its documented behaviour: a step uses up one of the remaining steps. *)
Class WaitBackoffLaws (B : WaitBackoff) := {
  steps_zero : bo_Steps zeroBackoff = 0%Z;
  steps_mk s d f j : bo_Steps (mkBackoff s d f j) = s;
  steps_step b : (1 ≤ bo_Steps b)%Z → bo_Steps (bo_Step b).2 = (bo_Steps b - 1)%Z
}.

(** The tests of the driver and of [errors.As]/[errors.Is] on an error. *)
Class ErrorTests := {
  as_auth_Error : error → bool;
  is_EOF : error → bool;
  is_UnexpectedEOF : error → bool;
  mongo_IsTimeout : error → bool;
  mongo_IsNetworkError : error → bool;
  as_ServerSelectionError : error → bool;
  as_ConnectionError : error → bool
}.

Section dial.
Context {B : WaitBackoff} {T : ErrorTests}.

Record DialConfig := { DC_Config : Config; DC_Backoff : option Backoff }.
Definition ConfigOption := DialConfig → DialConfig.

Definition WithAppName (name : string) : ConfigOption := λ conf,
  let c := DC_Config conf in
  {| DC_Config := {| Hosts := Hosts c; ReplSetName := ReplSetName c; Username := Username c;
       Password := Password c; AuthSource := AuthSource c; TLSConf := TLSConf c;
       Direct := Direct c; Timeout := Timeout c; AppName := name |};
     DC_Backoff := DC_Backoff conf |}.
Definition WithBackoff (backoff : option Backoff) : ConfigOption := λ conf,
  {| DC_Config := DC_Config conf; DC_Backoff := backoff |}.
Definition WithoutRetry : ConfigOption := λ conf,
  {| DC_Config := DC_Config conf; DC_Backoff := None |}.

Definition DefaultBackoff : Backoff := mkBackoff 5 (2 * Second) (2, 1)%Z (1, 10)%Z.

(** The options handed to the driver. *)
Record ClientOptions := {
  opt_Hosts : list string;
  opt_WriteConcern : string * bool;            (* w, journal *)
  opt_ReadPreference : string;
  opt_TLS : option string;
  opt_Direct : bool;
  opt_ConnectTimeout : Z;
  opt_ServerSelectionTimeout : Z;
  opt_ReplicaSet : option string;
  opt_AppName : option string;
  opt_Auth : option (string * string * string) (* password, username, source *)
}.

Definition Options (conf : Config) : ClientOptions :=
  let timeout := if negb (Timeout conf =? 0)%Z then Timeout conf else (10 * Second)%Z in
  {| opt_Hosts := Hosts conf;
     opt_WriteConcern := ("majority", true);
     opt_ReadPreference := "primary";
     opt_TLS := TLSConf conf;
     opt_Direct := Direct conf;
     opt_ConnectTimeout := timeout;
     opt_ServerSelectionTimeout := timeout;
     opt_ReplicaSet := if negb (bool_decide (ReplSetName conf = ""))
                       then Some (ReplSetName conf) else None;
     opt_AppName := if negb (bool_decide (AppName conf = "")) then Some (AppName conf) else None;
     opt_Auth := if negb (bool_decide (Username conf = "")) || negb (bool_decide (Password conf = ""))
                 then Some (Password conf, Username conf, AuthSource conf) else None |}.

Definition isTransientError (err : option error) : bool :=
  match err with
  | None => false
  | Some e =>
      if as_auth_Error e then false
      else if is_EOF e || is_UnexpectedEOF e then true
      else if mongo_IsTimeout e || mongo_IsNetworkError e then true
      else as_ServerSelectionError e || as_ConnectionError e
  end.

(** What [Dial] does to the outside: connecting, pinging (with the connect
    timeout), sleeping (which the context may cut short) and disconnecting
    are the driver's and the runtime's; [Dial] is written over them and
    records the order in which it asks for them. *)
Inductive dial_event :=
| EvConnect (o : ClientOptions)
| EvPing (timeout : Z)
| EvSleep (d : Z)
| EvDisconnect.

Class Net := {
  NetState : Type;
  Conn : Type;
  net_connect : ClientOptions → NetState → result Conn * NetState;
  net_ping : Conn → Z → NetState → option error * NetState;
  net_sleep : Z → NetState → bool * NetState;
  net_disconnect : Conn → NetState → option error * NetState
}.
Context {N : Net}.

Record dial_state := { ds_net : NetState; ds_log : list dial_event }.
Abbreviation M := (GoM dial_state).

Definition ask {A} (ev : dial_event) (f : NetState → A * NetState) : M A := λ s,
  let '(a, n) := f (ds_net s) in (Ok a, {| ds_net := n; ds_log := ds_log s ++ [ev] |}).

Definition ping (o : ClientOptions) (c : Conn) : M (option error) :=
  ask (EvPing (opt_ConnectTimeout o)) (net_ping c (opt_ConnectTimeout o)).
Definition sleep (d : Z) : M bool := ask (EvSleep d) (net_sleep d).

(** [for isTransientError(err) && backoff.Steps > 1]; [fuel] bounds the number
    of rounds (theorem [dial_loop_fuel] shows that [backoff.Steps] rounds are
    enough). *)
Fixpoint dial_loop (fuel : nat) (o : ClientOptions) (c : Conn) (backoff : Backoff)
    (err : option error) : M (option error) :=
  match fuel with
  | 0 => mret err
  | S fuel' =>
      if isTransientError err && (1 <? bo_Steps backoff)%Z then
        let '(d, backoff') := bo_Step backoff in
        slept ← sleep d;
        if negb slept then mret err
        else err' ← ping o c; dial_loop fuel' o c backoff' err'
      else mret err
  end.

(** [conf := DialConfig{Config: *c}] and every option applied to it in turn. *)
Definition dial_config (c : Config) (opts : list ConfigOption) : DialConfig :=
  foldl (λ conf opt, opt conf) {| DC_Config := c; DC_Backoff := None |} opts.

Definition Dial (c : Config) (opts : list ConfigOption) : M Conn :=
  let conf := dial_config c opts in
  let clientOpts := Options (DC_Config conf) in
  connected ← ask (EvConnect clientOpts) (net_connect clientOpts);
  match connected with
  | Err e => throw (EWrap e "connect to mongo rs")
  | Ok client =>
      let backoff := default zeroBackoff (DC_Backoff conf) in
      err0 ← ping clientOpts client;
      err ← dial_loop (Z.to_nat (bo_Steps backoff)) clientOpts client backoff err0;
      match err with
      | None => mret client
      | Some e =>
          (* the deferred disconnect *)
          _ ← ask EvDisconnect (net_disconnect client);
          throw (EWrap e "ping mongo")
      end
  end.

(** * Theorems *)

Context {BL : WaitBackoffLaws B}.

Definition is_ping (ev : dial_event) : bool :=
  match ev with EvPing _ => true | _ => false end.
Definition is_disconnect (ev : dial_event) : bool :=
  match ev with EvDisconnect => true | _ => false end.
Definition pings (l : list dial_event) : nat := count is_ping l.
Definition disconnects (l : list dial_event) : nat := count is_disconnect l.

Lemma dial_loop_fuel n k o c b err :
  (bo_Steps b ≤ Z.of_nat n)%Z → n ≤ k → ∀ s, dial_loop k o c b err s = dial_loop n o c b err s.
Proof.
  revert k b err; induction n as [|n IH]; intros k b err Hb Hk s.
  - destruct k as [|k]; [done|]. simpl.
    destruct (Z.ltb_spec 1 (bo_Steps b)); [lia|]. by rewrite andb_false_r.
  - destruct k as [|k]; [lia|]. simpl.
    destruct (isTransientError err && (1 <? bo_Steps b)%Z) eqn:E; [|done].
    apply andb_prop in E as [_ E]. apply Z.ltb_lt in E.
    pose proof (steps_step b ltac:(lia)) as Hs.
    destruct (bo_Step b) as [d b'] eqn:Eb. simpl in Hs.
    gom. destruct (sleep d s) as [[[|]|] s']; simpl; try done.
    destruct (ping o c s') as [[err'|] s'']; [|done]. apply IH; lia.
Qed.

(** The loop pings at most [Steps - 1] more times, never disconnects, and
    gives up early only with an error that is not transient or when the
    context ended its sleep. *)
Lemma dial_loop_spec n o c b err s :
  ∃ err' net ext,
    dial_loop n o c b err s = (Ok err', {| ds_net := net; ds_log := ds_log s ++ ext |}) ∧
    (Z.of_nat (pings ext) ≤ Z.max 0 (bo_Steps b - 1))%Z ∧ disconnects ext = 0 ∧
    (isTransientError err = false → err' = err ∧ ext = []) ∧
    (err' = None → err ≠ None → 0 < pings ext).
Proof.
  revert b err s; induction n as [|n IH]; intros b err s; simpl.
  { destruct s as [net log]. exists err, net, []. simpl. rewrite app_nil_r.
    split_and!; [done|unfold pings; simpl; lia|done|done|congruence]. }
  destruct (isTransientError err && (1 <? bo_Steps b)%Z) eqn:E.
  2: { destruct s as [net log]. exists err, net, []. simpl. rewrite app_nil_r.
       split_and!; [done|unfold pings; simpl; lia|done|done|congruence]. }
  apply andb_prop in E as [Et E]. apply Z.ltb_lt in E.
  pose proof (steps_step b ltac:(lia)) as Hs.
  destruct (bo_Step b) as [d b'] eqn:Eb. simpl in Hs.
  unfold sleep, ping, ask. gom. simpl.
  destruct (net_sleep d (ds_net s)) as [[|] net1]; simpl.
  2: { exists err, net1, [EvSleep d]. split_and!; [done|unfold pings; simpl; lia|done|congruence|congruence]. }
  destruct (net_ping c (opt_ConnectTimeout o) net1) as [err1 net2]; simpl.
  destruct (IH b' err1 {| ds_net := net2;
    ds_log := (ds_log s ++ [EvSleep d]) ++ [EvPing (opt_ConnectTimeout o)] |})
    as (err' & net & ext & -> & Hp & Hd & _ & _).
  exists err', net, ([EvSleep d; EvPing (opt_ConnectTimeout o)] ++ ext). simpl.
  rewrite <- !app_assoc. simpl. unfold pings, disconnects in *. simpl.
  split_and!; [done|lia|done|congruence|lia].
Qed.

Lemma bind_ask {A X} ev (f : NetState → A * NetState) (k : A → M X) s :
  (ask ev f ≫= k) s = k (f (ds_net s)).1
    {| ds_net := (f (ds_net s)).2; ds_log := ds_log s ++ [ev] |}.
Proof. unfold ask, mbind, gom_bind. by destruct (f (ds_net s)). Qed.

(** [Dial] connects once, pings at least once and at most [Steps] times,
    once when retries are off; it returns a client only when the last ping
    succeeded, and after a failed ping it disconnects exactly once and reports
    the error.  Its trace never grows beyond that, so it always terminates. *)
Theorem Dial_bounded c opts s r s' :
  Dial c opts s = (r, s') →
  let conf := dial_config c opts in
  let steps := bo_Steps (default zeroBackoff (DC_Backoff conf)) in
  ∃ ext, ds_log s' = ds_log s ++ EvConnect (Options (DC_Config conf)) :: ext ∧
    (Z.of_nat (pings ext) ≤ Z.max 1 steps)%Z ∧
    match r with
    | Ok _ => 0 < pings ext ∧ disconnects ext = 0
    | Err (EWrap _ "connect to mongo rs") => ext = []
    | Err _ => 0 < pings ext ∧ disconnects ext = 1
    end.
Proof.
  unfold Dial. cbv zeta. set (conf := dial_config c opts).
  set (b := default zeroBackoff (DC_Backoff conf)).
  rewrite bind_ask.
  destruct (net_connect (Options (DC_Config conf)) (ds_net s)) as [[client|e] net0];
    cbn [fst snd ds_net ds_log].
  2: { unfold throw. intros [= <- <-]. exists []. unfold pings. simpl. split_and!; [done|lia|done]. }
  unfold ping at 1. rewrite bind_ask. cbn [ds_net ds_log].
  destruct (net_ping client (opt_ConnectTimeout (Options (DC_Config conf))) net0) as [err0 net1];
    cbn [fst snd ds_net ds_log].
  set (pe := EvPing (opt_ConnectTimeout (Options (DC_Config conf)))). 
  set (s1 := {| ds_net := net1;
    ds_log := (ds_log s ++ [EvConnect (Options (DC_Config conf))]) ++ [pe] |}).
  destruct (dial_loop_spec (Z.to_nat (bo_Steps b)) (Options (DC_Config conf)) client b err0 s1)
    as (err & net & ext & Hl & Hp & Hd & _ & _).
  erewrite bind_ok by exact Hl. unfold pings, disconnects in *.
  destruct err as [e|].
  - rewrite bind_ask. unfold throw. cbn [ds_net ds_log]. intros [= <- <-]. simpl.
    exists (pe :: ext ++ [EvDisconnect]). rewrite <- !app_assoc. simpl.
    rewrite !count_app. simpl. split_and!; [done|lia|lia|]. by rewrite Hd.
  - unfold mret, gom_ret. intros [= <- <-]. exists (pe :: ext). simpl. rewrite <- !app_assoc.
    split_and!; [done|lia|lia|done].
Qed.
End dial.

(** * Witness: a server that answers at the third ping *)
Definition demo_backoff : WaitBackoff :=
  {| Backoff := Z; mkBackoff := λ s _ _ _, s; zeroBackoff := 0%Z; bo_Steps := λ b, b;
     bo_Step := λ b, (Second, b - 1)%Z |}.
Lemma demo_backoff_laws : WaitBackoffLaws demo_backoff.
Proof. split; done. Defined.
Definition demo_tests : ErrorTests :=
  {| as_auth_Error := λ _, false; is_EOF := λ _, true; is_UnexpectedEOF := λ _, false;
     mongo_IsTimeout := λ _, false; mongo_IsNetworkError := λ _, false;
     as_ServerSelectionError := λ _, false; as_ConnectionError := λ _, false |}.
Definition demo_net : Net :=
  {| NetState := nat; Conn := unit;
     net_connect := λ _ n, (Ok tt, n);
     net_ping := λ _ _ n, (if n <? 2 then Some (ENew "EOF") else None, S n)%nat;
     net_sleep := λ _ n, (true, n);
     net_disconnect := λ _ n, (None, n) |}.
Definition demo_dial_config : Config :=
  {| Hosts := ["h"]; ReplSetName := "rs0"; Username := ""; Password := ""; AuthSource := "";
     TLSConf := None; Direct := false; Timeout := 0; AppName := "" |}.

Lemma Dial_bounded_witness :
  let B := demo_backoff in let T := demo_tests in let N := demo_net in
  let s0 := {| ds_net := (0%nat : @NetState demo_net); ds_log := [] |} in
  let run := Dial demo_dial_config [WithBackoff (Some (DefaultBackoff (B := demo_backoff)))] s0 in
  is_ok run.1 = true ∧ pings (ds_log run.2) = 3 ∧
  ∃ ext, ds_log run.2 = EvConnect (Options demo_dial_config) :: ext.
Proof.
  intros B T N s0 run. split; [reflexivity|]. split; [reflexivity|].
  destruct (Dial_bounded (BL := demo_backoff_laws) demo_dial_config
    [WithBackoff (Some (DefaultBackoff (B := demo_backoff)))] s0 run.1 run.2
    (surjective_pairing _)) as (ext & H & _).
  exists ext. exact H.
Defined.
