(* ===== verification/Api.v ===== *)
(** The custom resource PerconaServerMongoDB: the parts of its specification
    and status that the modelled handlers read and write, with their methods
    (pkg/apis/psmdb/v1/psmdb_types.go).  An empty map and a nil map are not
    told apart where the code only ranges over the map, looks keys up or takes
    its length. *)
From S2P Require Import Prelude ReplsetModels.
From Stdlib Require Import Ascii.

Definition DefaultMongoPort : Z := 27017.
Definition ConfigReplSetName : string := "cfg".

(** * Mongod configuration: a YAML text *)

(** What a text decodes to.  The text of [YOther] stands for a value the operator
    never looks into, a float, a list, a null or a timestamp, and tells such values
    apart; a key that is no string is written as the text of one, too. *)
Inductive yval :=
| YStr (s : string)
| YBool (b : bool)
| YInt (z : Z)
| YMap (m : gmap string yval)
| YOther (v : string).

(** gopkg.in/yaml.v2 is outside the repository: decoding into a map, into the
    two structs the operator uses, and encoding a map. *)
Class Yaml := {
  yaml_map : string → option (gmap string yval);
  yaml_net_port : string → option Z;
  yaml_replSetName : string → option string;
  yaml_marshal : gmap string yval → option string
}.

Section mongo_configuration.
Context {Y : Yaml}.

(** [options, _ := val.(map[any]any)] is nil when the value is no map. *)
Definition GetOptions (conf name : string) : result (option (gmap string yval)) :=
  match yaml_map conf with
  | None => Err (EExt KOther "yaml")
  | Some m =>
      match m !! name with
      | Some (YMap options) => Ok (Some options)
      | _ => Ok None
      end
  end.

Definition GetTLSMode (conf : string) : result string :=
  match GetOptions conf "net" with
  | Err e => Err e
  | Ok None => Ok ""
  | Ok (Some m) =>
      match m !! "tls" with
      | None => Ok ""
      | Some (YMap tlsMap) =>
          match tlsMap !! "mode" with
          | None => Ok ""
          | Some (YStr mode) => Ok mode
          | Some _ => Err (ENew "can't cast to string")
          end
      | Some _ => Err (ENew "tls configuration is invalid")
      end
  end.

Definition IsEncryptionEnabled (conf : string) : result (option bool) :=
  match GetOptions conf "security" with
  | Err e => Err e
  | Ok None => Ok None
  | Ok (Some m) =>
      match m !! "enableEncryption" with
      | None => Ok None
      | Some (YBool b) => Ok (Some b)
      | Some _ => Err (ENew "enableEncryption value is not bool")
      end
  end.

Definition VaultEnabled (conf : string) : bool :=
  match GetOptions conf "security" with
  | Ok (Some m) => match m !! "vault" with Some _ => true | None => false end
  | _ => false
  end.

Definition QuietEnabled (conf : string) : bool :=
  match GetOptions conf "systemLog" with
  | Ok (Some m) => match m !! "quiet" with Some (YBool b) => b | _ => true end
  | _ => true
  end.

Definition IsAuthorizationEnabled (conf : string) : bool :=
  match GetOptions conf "security" with
  | Ok (Some m) =>
      match m !! "authorization" with
      | Some (YStr str) => negb (bool_decide (str = "disabled"))
      | _ => true
      end
  | _ => true
  end.

Definition conf_GetPort (conf : string) : result Z :=
  match yaml_net_port conf with
  | Some p => Ok p
  | None => Err (ENew "error unmarshalling configuration")
  end.

Definition MongodRESTencryptDir : string := "/etc/mongodb-encryption".
Definition EncryptionKeyName : string := "encryption-key".

(** The new value of [*conf]; on an error it is left as it was. *)
Definition setEncryptionDefaults (conf : string) : result string :=
  match yaml_map conf with
  | None => Err (EExt KOther "yaml")
  | Some m =>
      match m !! "security" with
      | None => Ok conf
      | Some (YMap security) =>
          match security !! "vault" with
          | Some _ => Ok conf
          | None =>
              let security' :=
                match security !! "enableEncryption" with
                | Some _ => <["encryptionKeyFile" :=
                                YStr (MongodRESTencryptDir +:+ "/" +:+ EncryptionKeyName)]> security
                | None => security
                end in
              match yaml_marshal (<["security" := YMap security']> m) with
              | None => Err (EExt KOther "yaml")
              | Some res => Ok res
              end
          end
      | Some _ => Err (ENew "security configuration section is invalid")
      end
  end.

Definition conf_SetDefaults (conf : string) : result string :=
  wrap_err "failed to set encryption defaults" (setEncryptionDefaults conf).
End mongo_configuration.

(** * Replica set specification *)

Record ReplsetOverride := {
  ov_Host : string;
  ov_Horizons : gmap string string;
  ov_Tags : gmap string string;
  ov_Priority : option Z
}.
(** What indexing the overrides map yields for an absent pod. *)
Definition zeroOverride : ReplsetOverride :=
  {| ov_Host := ""; ov_Horizons := ∅; ov_Tags := ∅; ov_Priority := None |}.

Record ExternalNode := {
  en_Host : string;
  en_Port : Z;
  en_Priority : Z;
  en_Votes : Z;
  en_ArbiterOnly : bool;
  en_Override : ReplsetOverride
}.

Definition HostPort (e : ExternalNode) : string :=
  if str_contains ":" (en_Host e) then en_Host e
  else en_Host e +:+ ":" +:+ itoa (en_Port e).

(** A group of pods that can be switched off: arbiters, non-voting and hidden
    members. *)
Record SizedSpec := { sz_Enabled : bool; sz_Size : Z }.
Definition sz_GetSize (a : SizedSpec) : Z := if negb (sz_Enabled a) then 0 else sz_Size a.

Record ReplsetSpec := {
  rs_Name : string;
  rs_Size : Z;
  rs_ClusterRole : string;
  rs_Arbiter : SizedSpec;
  rs_NonVoting : SizedSpec;
  rs_Hidden : SizedSpec;
  rs_ExposeEnabled : bool;
  rs_ExposeType : string;
  rs_Configuration : string;
  rs_ExternalNodes : list ExternalNode;
  rs_Horizons : gmap string (gmap string string);
  rs_Overrides : gmap string ReplsetOverride;
  rs_PrimaryPreferTagSelector : gmap string string;
  rs_TerminationGrace : option Z;        (* TerminationGracePeriodSeconds *)
  rs_SearchSize : option (option Z)      (* Search, its Size *)
}.

Definition ClusterRoleShardSvr : string := "shardsvr".

(** [strings.IndexRune(domain, ':')] and [domain[:idx]] *)
Fixpoint before_colon (s : string) : string :=
  match s with
  | EmptyString => EmptyString
  | String a s' => if bool_decide (a = ":"%char) then EmptyString else String a (before_colon s')
  end.

Section replset_spec.
Context {Y : Yaml}.

Definition rs_GetPort (ms : ReplsetSpec) : Z :=
  match conf_GetPort (rs_Configuration ms) with
  | Ok p => if (0 <? p)%Z then p else DefaultMongoPort
  | Err _ => DefaultMongoPort
  end.

Definition rs_GetSize (r : ReplsetSpec) : Z :=
  wrap32 (rs_Size r + sz_GetSize (rs_Arbiter r) + sz_GetSize (rs_NonVoting r)
          + sz_GetSize (rs_Hidden r)).

Definition CustomReplsetName (r : ReplsetSpec) : result string :=
  match yaml_replSetName (rs_Configuration r) with
  | None => Err (EWrap (EExt KOther "yaml") "unmarshal configuration")
  | Some name =>
      if bool_decide (name = "") then Err (ENew "replSetName is not configured") else Ok name
  end.

Definition MongoReplsetName (r : ReplsetSpec) : string :=
  match CustomReplsetName r with Ok name => name | Err _ => rs_Name r end.

Definition fixDomain (r : ReplsetSpec) (withPorts : bool) (domain : string) : string :=
  if withPorts && negb (str_contains ":" domain) then domain +:+ ":" +:+ itoa (rs_GetPort r)
  else if negb withPorts && str_contains ":" domain then before_colon domain
  else domain.

Abbreviation horizon_map := (gmap string (gmap string string)).

(** [horizons[podName][h] = v], creating the inner map when there is none. *)
Definition set_horizon (pod h v : string) (hz : horizon_map) : horizon_map :=
  <[pod := <[h := v]> (default ∅ (hz !! pod))]> hz.

(** The two loops of [GetHorizons]; a Go map is ranged over in the order of
    its list of entries. *)
Definition spec_horizon (r : ReplsetSpec) (withPorts : bool) (podName : string)
    (hz : horizon_map) (e : string * string) : horizon_map :=
  let '(h, domain) := e in
  let overrides := default zeroOverride (rs_Overrides r !! podName) in
  let domain := default domain (ov_Horizons overrides !! h) in
  set_horizon podName h (fixDomain r withPorts domain) hz.

Definition spec_pod (r : ReplsetSpec) (withPorts : bool)
    (hz : horizon_map) (e : string * gmap string string) : horizon_map :=
  foldl (spec_horizon r withPorts e.1) hz (map_to_list e.2).

Definition override_horizon (r : ReplsetSpec) (withPorts : bool) (podName : string)
    (hz : horizon_map) (e : string * string) : horizon_map :=
  let '(h, domain) := e in
  match hz !! podName with
  | Some m =>
      match m !! h with
      | Some _ => hz
      | None => set_horizon podName h (fixDomain r withPorts domain) hz
      end
  | None => set_horizon podName h (fixDomain r withPorts domain) hz
  end.

Definition override_pod (r : ReplsetSpec) (withPorts : bool)
    (hz : horizon_map) (e : string * ReplsetOverride) : horizon_map :=
  foldl (override_horizon r withPorts e.1) hz (map_to_list (ov_Horizons e.2)).

Definition GetHorizons (r : ReplsetSpec) (withPorts : bool) : horizon_map :=
  let horizons := foldl (spec_pod r withPorts) ∅ (map_to_list (rs_Horizons r)) in
  foldl (override_pod r withPorts) horizons (map_to_list (rs_Overrides r)).
End replset_spec.

(** * Status *)
Definition AppStateInit : string := "initializing".
Definition AppStateStopping : string := "stopping".
Definition AppStatePaused : string := "paused".
Definition AppStateReady : string := "ready".
Definition AppStateError : string := "error".

Record ReplsetMemberStatus := { rms_Name : string; rms_State : Z; rms_StateStr : string }.
Record ReplsetStatus := {
  rst_Members : gmap string ReplsetMemberStatus;
  rst_Initialized : bool;
  rst_AddedAsShard : option bool;
  rst_Size : Z;
  rst_Ready : Z;
  rst_Status : string;
  rst_Message : string
}.
Definition zeroReplsetStatus : ReplsetStatus :=
  {| rst_Members := ∅; rst_Initialized := false; rst_AddedAsShard := None; rst_Size := 0; rst_Ready := 0;
     rst_Status := ""; rst_Message := "" |}.
Definition set_Initialized (b : bool) (s : ReplsetStatus) : ReplsetStatus :=
  {| rst_Members := rst_Members s; rst_Initialized := b; rst_AddedAsShard := rst_AddedAsShard s;
     rst_Size := rst_Size s; rst_Ready := rst_Ready s; rst_Status := rst_Status s;
     rst_Message := rst_Message s |}.
Definition set_RsMembers (m : gmap string ReplsetMemberStatus) (s : ReplsetStatus) : ReplsetStatus :=
  {| rst_Members := m; rst_Initialized := rst_Initialized s; rst_AddedAsShard := rst_AddedAsShard s;
     rst_Size := rst_Size s; rst_Ready := rst_Ready s; rst_Status := rst_Status s;
     rst_Message := rst_Message s |}.
Definition set_AddedAsShard (b : option bool) (s : ReplsetStatus) : ReplsetStatus :=
  {| rst_Members := rst_Members s; rst_Initialized := rst_Initialized s; rst_AddedAsShard := b;
     rst_Size := rst_Size s; rst_Ready := rst_Ready s; rst_Status := rst_Status s;
     rst_Message := rst_Message s |}.

Record MongosStatus := { mgs_Size : Z; mgs_Ready : Z; mgs_Status : string; mgs_Message : string }.
Record SearchStatus := { srs_Size : Z; srs_Ready : Z; srs_Status : string; srs_Message : string }.

Record ClusterCondition := {
  cc_Type : string;
  cc_Status : string;
  cc_Reason : string;
  cc_Message : string;
  cc_LastTransitionTime : option Z    (* None: the zero time *)
}.

(** How far shrinking the volumes of a stateful set has come
    (Status.PVCShrink[..]). *)
Record PVCShrinkState := {
  shr_TargetSize : string;
  shr_StartedAt : string;
  shr_Phase : string;
  shr_ProcessedPods : list string;
  shr_PrimaryPod : string
}.

(** PerconaServerMongoDBStatus *)
Record ClusterStatus := {
  st_State : string;
  st_MongoVersion : string;
  st_MongoImage : string;
  st_Message : string;
  st_Conditions : list ClusterCondition;
  st_Replsets : gmap string ReplsetStatus;
  st_Mongos : option MongosStatus;
  st_ObservedGeneration : Z;
  st_BackupVersion : string;
  st_BackupImage : string;
  st_BackupConfigHash : string;
  st_Host : string;
  st_Size : Z;
  st_Ready : Z;
  st_PVCShrink : gmap string PVCShrinkState;
  st_Search : gmap string SearchStatus
}.
Definition emptyStatus : ClusterStatus :=
  {| st_State := ""; st_MongoVersion := ""; st_MongoImage := ""; st_Message := ""; st_Conditions := [];
     st_Replsets := ∅; st_Mongos := None; st_ObservedGeneration := 0; st_BackupVersion := "";
     st_BackupImage := ""; st_BackupConfigHash := ""; st_Host := ""; st_Size := 0; st_Ready := 0;
     st_PVCShrink := ∅; st_Search := ∅ |}.
Definition with_Replsets (f : gmap string ReplsetStatus → gmap string ReplsetStatus) (s : ClusterStatus) : ClusterStatus :=
  {| st_State := st_State s; st_MongoVersion := st_MongoVersion s; st_MongoImage := st_MongoImage s;
     st_Message := st_Message s; st_Conditions := st_Conditions s; st_Replsets := f (st_Replsets s);
     st_Mongos := st_Mongos s; st_ObservedGeneration := st_ObservedGeneration s;
     st_BackupVersion := st_BackupVersion s; st_BackupImage := st_BackupImage s;
     st_BackupConfigHash := st_BackupConfigHash s; st_Host := st_Host s; st_Size := st_Size s;
     st_Ready := st_Ready s; st_PVCShrink := st_PVCShrink s; st_Search := st_Search s |}.
Definition set_Conditions (cs : list ClusterCondition) (s : ClusterStatus) : ClusterStatus :=
  {| st_State := st_State s; st_MongoVersion := st_MongoVersion s; st_MongoImage := st_MongoImage s;
     st_Message := st_Message s; st_Conditions := cs; st_Replsets := st_Replsets s;
     st_Mongos := st_Mongos s; st_ObservedGeneration := st_ObservedGeneration s;
     st_BackupVersion := st_BackupVersion s; st_BackupImage := st_BackupImage s;
     st_BackupConfigHash := st_BackupConfigHash s; st_Host := st_Host s; st_Size := st_Size s;
     st_Ready := st_Ready s; st_PVCShrink := st_PVCShrink s; st_Search := st_Search s |}.
Definition set_Mongos (m : option MongosStatus) (s : ClusterStatus) : ClusterStatus :=
  {| st_State := st_State s; st_MongoVersion := st_MongoVersion s; st_MongoImage := st_MongoImage s;
     st_Message := st_Message s; st_Conditions := st_Conditions s; st_Replsets := st_Replsets s;
     st_Mongos := m; st_ObservedGeneration := st_ObservedGeneration s;
     st_BackupVersion := st_BackupVersion s; st_BackupImage := st_BackupImage s;
     st_BackupConfigHash := st_BackupConfigHash s; st_Host := st_Host s; st_Size := st_Size s;
     st_Ready := st_Ready s; st_PVCShrink := st_PVCShrink s; st_Search := st_Search s |}.
Definition set_StatusState (x : string) (s : ClusterStatus) : ClusterStatus :=
  {| st_State := x; st_MongoVersion := st_MongoVersion s; st_MongoImage := st_MongoImage s;
     st_Message := st_Message s; st_Conditions := st_Conditions s; st_Replsets := st_Replsets s;
     st_Mongos := st_Mongos s; st_ObservedGeneration := st_ObservedGeneration s;
     st_BackupVersion := st_BackupVersion s; st_BackupImage := st_BackupImage s;
     st_BackupConfigHash := st_BackupConfigHash s; st_Host := st_Host s; st_Size := st_Size s;
     st_Ready := st_Ready s; st_PVCShrink := st_PVCShrink s; st_Search := st_Search s |}.
Definition set_StatusMessage (x : string) (s : ClusterStatus) : ClusterStatus :=
  {| st_State := st_State s; st_MongoVersion := st_MongoVersion s; st_MongoImage := st_MongoImage s;
     st_Message := x; st_Conditions := st_Conditions s; st_Replsets := st_Replsets s;
     st_Mongos := st_Mongos s; st_ObservedGeneration := st_ObservedGeneration s;
     st_BackupVersion := st_BackupVersion s; st_BackupImage := st_BackupImage s;
     st_BackupConfigHash := st_BackupConfigHash s; st_Host := st_Host s; st_Size := st_Size s;
     st_Ready := st_Ready s; st_PVCShrink := st_PVCShrink s; st_Search := st_Search s |}.
Definition set_StatusHost (x : string) (s : ClusterStatus) : ClusterStatus :=
  {| st_State := st_State s; st_MongoVersion := st_MongoVersion s; st_MongoImage := st_MongoImage s;
     st_Message := st_Message s; st_Conditions := st_Conditions s; st_Replsets := st_Replsets s;
     st_Mongos := st_Mongos s; st_ObservedGeneration := st_ObservedGeneration s;
     st_BackupVersion := st_BackupVersion s; st_BackupImage := st_BackupImage s;
     st_BackupConfigHash := st_BackupConfigHash s; st_Host := x; st_Size := st_Size s;
     st_Ready := st_Ready s; st_PVCShrink := st_PVCShrink s; st_Search := st_Search s |}.
Definition set_Counts (size ready : Z) (s : ClusterStatus) : ClusterStatus :=
  {| st_State := st_State s; st_MongoVersion := st_MongoVersion s; st_MongoImage := st_MongoImage s;
     st_Message := st_Message s; st_Conditions := st_Conditions s; st_Replsets := st_Replsets s;
     st_Mongos := st_Mongos s; st_ObservedGeneration := st_ObservedGeneration s;
     st_BackupVersion := st_BackupVersion s; st_BackupImage := st_BackupImage s;
     st_BackupConfigHash := st_BackupConfigHash s; st_Host := st_Host s; st_Size := size;
     st_Ready := ready; st_PVCShrink := st_PVCShrink s; st_Search := st_Search s |}.
Definition set_ObservedGeneration (g : Z) (s : ClusterStatus) : ClusterStatus :=
  {| st_State := st_State s; st_MongoVersion := st_MongoVersion s; st_MongoImage := st_MongoImage s;
     st_Message := st_Message s; st_Conditions := st_Conditions s; st_Replsets := st_Replsets s;
     st_Mongos := st_Mongos s; st_ObservedGeneration := g; st_BackupVersion := st_BackupVersion s;
     st_BackupImage := st_BackupImage s; st_BackupConfigHash := st_BackupConfigHash s;
     st_Host := st_Host s; st_Size := st_Size s; st_Ready := st_Ready s; st_PVCShrink := st_PVCShrink s;
     st_Search := st_Search s |}.
Definition with_PVCShrink (f : gmap string PVCShrinkState → gmap string PVCShrinkState) (s : ClusterStatus) : ClusterStatus :=
  {| st_State := st_State s; st_MongoVersion := st_MongoVersion s; st_MongoImage := st_MongoImage s;
     st_Message := st_Message s; st_Conditions := st_Conditions s; st_Replsets := st_Replsets s;
     st_Mongos := st_Mongos s; st_ObservedGeneration := st_ObservedGeneration s;
     st_BackupVersion := st_BackupVersion s; st_BackupImage := st_BackupImage s;
     st_BackupConfigHash := st_BackupConfigHash s; st_Host := st_Host s; st_Size := st_Size s;
     st_Ready := st_Ready s; st_PVCShrink := f (st_PVCShrink s); st_Search := st_Search s |}.
Definition with_Search (f : gmap string SearchStatus → gmap string SearchStatus) (s : ClusterStatus) : ClusterStatus :=
  {| st_State := st_State s; st_MongoVersion := st_MongoVersion s; st_MongoImage := st_MongoImage s;
     st_Message := st_Message s; st_Conditions := st_Conditions s; st_Replsets := st_Replsets s;
     st_Mongos := st_Mongos s; st_ObservedGeneration := st_ObservedGeneration s;
     st_BackupVersion := st_BackupVersion s; st_BackupImage := st_BackupImage s;
     st_BackupConfigHash := st_BackupConfigHash s; st_Host := st_Host s; st_Size := st_Size s;
     st_Ready := st_Ready s; st_PVCShrink := st_PVCShrink s; st_Search := f (st_Search s) |}.

(** [FindCondition] hands out a pointer into the slice; [AddCondition] updates
    the condition it points to, the first of its type. *)
Fixpoint FindCondition (cs : list ClusterCondition) (ty : string) : option nat :=
  match cs with
  | [] => None
  | c :: cs' => if bool_decide (cc_Type c = ty) then Some 0 else S <$> FindCondition cs' ty
  end.

Definition AddCondition (now : Z) (c : ClusterCondition) (s : ClusterStatus) : ClusterStatus :=
  let upd cs := set_Conditions cs s in
  match FindCondition (st_Conditions s) (cc_Type c) with
  | None =>
      upd (st_Conditions s ++
        [{| cc_Type := cc_Type c; cc_Status := cc_Status c; cc_Reason := cc_Reason c;
            cc_Message := cc_Message c;
            cc_LastTransitionTime := Some (default now (cc_LastTransitionTime c)) |}])
  | Some i =>
      upd (alter (λ old,
        {| cc_Type := cc_Type old;
           cc_Status := cc_Status c;
           cc_Reason := cc_Reason c;
           cc_Message := cc_Message c;
           cc_LastTransitionTime :=
             if negb (bool_decide (cc_Status old = cc_Status c))
             then Some (default now (cc_LastTransitionTime c))
             else cc_LastTransitionTime old |}) i (st_Conditions s))
  end.

(** [RemoveCondition]: the first condition of the type. *)
Definition RemoveCondition (ty : string) (s : ClusterStatus) : ClusterStatus :=
  match FindCondition (st_Conditions s) ty with
  | None => s
  | Some i => set_Conditions (delete i (st_Conditions s)) s
  end.

(** [IsStatusConditionTrue]: the first condition of the type has status True. *)
Definition ConditionTrue : string := "True".
Definition IsStatusConditionTrue (s : ClusterStatus) (ty : string) : bool :=
  match FindCondition (st_Conditions s) ty with
  | None => false
  | Some i => match st_Conditions s !! i with
              | Some c => bool_decide (cc_Status c = ConditionTrue)
              | None => false
              end
  end.

(** * The cluster resource *)

Record WriteConcernSpec := { wcs_W : string; wcs_WTimeout : Z }.
Record DefaultRWConcernSpec := { rw_ReadConcern : string; rw_WriteConcern : option WriteConcernSpec }.

Record PerconaServerMongoDB := {
  cr_Name : string;
  cr_Namespace : string;
  cr_UID : string;
  cr_Generation : Z;
  cr_Annotations : gmap string string;
  cr_CRVersion : string;
  cr_Unmanaged : bool;
  cr_UnsafeReplsetSize : bool;
  cr_ShardingEnabled : bool;
  cr_MongosSize : Z;
  cr_MongosServicePerPod : bool;
  cr_MongosExposeType : string;
  cr_ConfigsvrReplSet : option ReplsetSpec;
  cr_Replsets : list ReplsetSpec;
  cr_DNSMode : string;
  cr_DNSSuffix : string;
  cr_MCSEnabled : bool;                  (* cr.MCSEnabled() *)
  cr_MCSDNSSuffix : string;
  cr_TLSMode : option string;
  cr_DefaultRWConcern : option DefaultRWConcernSpec;
  cr_SecretsUsers : string;
  cr_SearchEnabled : bool                (* cr.IsSearchEnabled() *)
}.

Definition DNSModeServiceMesh : string := "ServiceMesh".
Definition DNSModeInternal : string := "Internal".
Definition DNSModeExternal : string := "External".

(** github.com/hashicorp/go-version compares version strings. *)
Class Versions := version_compare : string → string → Z.

Definition CompareVersion `{Versions} (cr : PerconaServerMongoDB) (version : string) : Z :=
  version_compare (cr_CRVersion cr) version.

Definition TLSModeDisabled : string := "disabled".
Definition TLSEnabled (cr : PerconaServerMongoDB) : bool :=
  match cr_TLSMode cr with
  | Some mode => negb (bool_decide (mode = TLSModeDisabled))
  | None => true
  end.

Fixpoint find_replset (name : string) (l : list ReplsetSpec) : option ReplsetSpec :=
  match l with
  | [] => None
  | rs :: l' => if bool_decide (rs_Name rs = name) then Some rs else find_replset name l'
  end.

Definition Replset (cr : PerconaServerMongoDB) (name : string) : option ReplsetSpec :=
  if bool_decide (name = "") then None
  else if bool_decide (name = ConfigReplSetName) then cr_ConfigsvrReplSet cr
  else find_replset name (cr_Replsets cr).

(** * [util.MapMerge]: later maps win *)
Definition MapMerge (ms : list (gmap string string)) : gmap string string :=
  match ms with
  | [] => ∅
  | m :: ms' => foldl (λ rv m, m ∪ rv) m ms'
  end.

(** * Theorems *)

(** What a horizon map says for a pod and a horizon name. *)
Definition hz_get (hz : gmap string (gmap string string)) (pod h : string) : option string :=
  hz !! pod ≫= (λ m, m !! h).

Lemma hz_get_set pod h v hz pod' h' :
  hz_get (set_horizon pod h v hz) pod' h' =
    if decide (pod' = pod ∧ h' = h) then Some v else hz_get hz pod' h'.
Proof.
  unfold hz_get, set_horizon. destruct (decide (pod' = pod)) as [->|Hp].
  - rewrite lookup_insert_eq. cbn [mbind option_bind].
    destruct (decide (h' = h)) as [->|Hh].
    + rewrite decide_True by done. by rewrite lookup_insert_eq.
    + rewrite decide_False by tauto. rewrite lookup_insert_ne by done.
      by destruct (hz !! pod).
  - rewrite decide_False by tauto. by rewrite lookup_insert_ne.
Qed.

(** Folding over the entries of a map a step that touches only the entry's
    own key gives, at that key, what its step gives there. *)
Lemma foldl_entries {K V S T} `{Countable K} (step : S → K * V → S) (get : S → K → T)
    (upd : K → V → T → T) (m : gmap K V) (s : S) (k : K) :
  (∀ s e k, get (step s e) k = if decide (k = e.1) then upd k e.2 (get s k) else get s k) →
  get (foldl step s (map_to_list m)) k =
    match m !! k with Some v => upd k v (get s k) | None => get s k end.
Proof.
  intros Hstep.
  assert (∀ l : list (K * V), NoDup l.*1 → get (foldl step s l) k =
    match (list_to_map l : gmap K V) !! k with
    | Some v => upd k v (get s k) | None => get s k end) as Hl.
  { intros l. revert s. induction l as [|[k' v] l IH]; intros s Hnd; csimpl.
    { by rewrite lookup_empty. }
    apply NoDup_cons in Hnd as [Hk' Hnd]. rewrite IH by done. rewrite !Hstep. cbn [fst snd].
    destruct (decide (k = k')) as [->|Hne].
    - rewrite lookup_insert_eq. by rewrite not_elem_of_list_to_map_1.
    - by rewrite lookup_insert_ne. }
  rewrite Hl by apply NoDup_fst_map_to_list. by rewrite list_to_map_to_list.
Qed.

Section horizons.
Context {Y : Yaml} (r : ReplsetSpec) (withPorts : bool).

Lemma spec_pod_get hz e pod h :
  hz_get (spec_pod r withPorts hz e) pod h =
    if decide (pod = e.1) then
      match e.2 !! h with
      | Some d => Some (fixDomain r withPorts (default d
          (ov_Horizons (default zeroOverride (rs_Overrides r !! pod)) !! h)))
      | None => hz_get hz pod h
      end
    else hz_get hz pod h.
Proof.
  unfold spec_pod. rewrite (foldl_entries _ (λ hz h, hz_get hz pod h)
    (λ h d t, if decide (pod = e.1) then Some (fixDomain r withPorts (default d
       (ov_Horizons (default zeroOverride (rs_Overrides r !! pod)) !! h))) else t)).
  - by destruct (e.2 !! h); destruct (decide (pod = e.1)).
  - intros s [h1 d1] h2. unfold spec_horizon. cbn [fst snd]. rewrite hz_get_set.
    repeat case_decide; destruct_and?; simplify_eq; done || tauto.
Qed.

Lemma override_pod_get hz e pod h :
  hz_get (override_pod r withPorts hz e) pod h =
    if decide (pod = e.1) then hz_get hz pod h ∪ (fixDomain r withPorts <$> ov_Horizons e.2 !! h)
    else hz_get hz pod h.
Proof.
  unfold override_pod. rewrite (foldl_entries _ (λ hz h, hz_get hz pod h)
    (λ h d t, if decide (pod = e.1) then t ∪ Some (fixDomain r withPorts d) else t)).
  - destruct (ov_Horizons e.2 !! h); destruct (decide (pod = e.1)); try done.
    by destruct (hz_get hz pod h).
  - intros s [h1 d1] h2. unfold override_horizon. cbn [fst snd].
    destruct (s !! e.1) as [m|] eqn:Es; [destruct (m !! h1) as [d|] eqn:Em|]; rewrite ?hz_get_set;
      repeat case_decide; destruct_and?; simplify_eq; try (done || tauto).
    all: unfold hz_get; rewrite Es; cbn; by rewrite ?Em.
Qed.

(** A pod's split horizon is the overridden domain when there is one and
    the specified domain otherwise, with the port made explicit or cut off;
    there are no other horizons, in whatever order the maps are ranged over. *)
Theorem GetHorizons_spec pod h :
  hz_get (GetHorizons r withPorts) pod h =
    fixDomain r withPorts <$>
      (hz_get (ov_Horizons <$> rs_Overrides r) pod h ∪ hz_get (rs_Horizons r) pod h).
Proof.
  unfold GetHorizons. cbv zeta.
  rewrite (foldl_entries _ (λ hz p, hz_get hz p h)
    (λ p ov t, t ∪ (fixDomain r withPorts <$> ov_Horizons ov !! h))).
  2: { intros s e k. cbv beta. by rewrite override_pod_get. }
  rewrite (foldl_entries _ (λ hz p, hz_get hz p h)
    (λ p m t, match m !! h with
              | Some d => Some (fixDomain r withPorts (default d
                  (ov_Horizons (default zeroOverride (rs_Overrides r !! p)) !! h)))
              | None => t end)).
  2: { intros s e k. cbv beta. by rewrite spec_pod_get. }
  unfold hz_get. rewrite lookup_fmap, lookup_empty.
  destruct (rs_Overrides r !! pod) as [ov|]; destruct (rs_Horizons r !! pod) as [m|]; cbn;
    try destruct (m !! h); try destruct (ov_Horizons ov !! h); done.
Qed.
End horizons.

(** Adding a condition leaves exactly one more condition of its type when
    there was none, and otherwise rewrites the first one of that type in
    place; the transition time moves only when the status changes. *)
Theorem AddCondition_spec now c s :
  let s' := AddCondition now c s in
  set_Conditions (st_Conditions s) s' = s ∧
  ∃ i c', FindCondition (st_Conditions s') (cc_Type c) = Some i ∧
    st_Conditions s' !! i = Some c' ∧
    (∀ j, j ≠ i → st_Conditions s' !! j = st_Conditions s !! j) ∧
    cc_Type c' = cc_Type c ∧ cc_Status c' = cc_Status c ∧
    cc_Reason c' = cc_Reason c ∧ cc_Message c' = cc_Message c ∧
    match FindCondition (st_Conditions s) (cc_Type c) with
    | None => i = length (st_Conditions s) ∧
        cc_LastTransitionTime c' = Some (default now (cc_LastTransitionTime c))
    | Some k => i = k ∧ ∃ old, st_Conditions s !! k = Some old ∧
        cc_LastTransitionTime c' =
          if decide (cc_Status old = cc_Status c) then cc_LastTransitionTime old
          else Some (default now (cc_LastTransitionTime c))
    end.
Proof.
  assert (∀ cs i, FindCondition cs (cc_Type c) = Some i →
    ∃ old, cs !! i = Some old ∧ cc_Type old = cc_Type c ∧
      ∀ f, cc_Type (f old) = cc_Type old → FindCondition (alter f i cs) (cc_Type c) = Some i) as Hf.
  { induction cs as [|x cs IH]; intros i; cbn [FindCondition]; [done|].
    case_bool_decide as Hx.
    - intros [= <-]. exists x. split_and!; [done|done|]. intros f Hf0. cbn.
      by rewrite bool_decide_eq_true_2 by congruence.
    - destruct (FindCondition cs (cc_Type c)) as [k|] eqn:E; [|done].
      intros [= <-]. destruct (IH _ eq_refl) as (old & ? & ? & Hr).
      exists old. split_and!; [done|done|]. intros f Hf0. cbn.
      rewrite bool_decide_eq_false_2 by done. by rewrite Hr. }
  assert (∀ cs x, FindCondition cs (cc_Type c) = None → cc_Type x = cc_Type c →
    FindCondition (cs ++ [x]) (cc_Type c) = Some (length cs)) as Ha.
  { induction cs as [|y cs IH]; intros x; cbn [FindCondition app length].
    - intros _ ->. by rewrite bool_decide_eq_true_2.
    - case_bool_decide; [done|]. destruct (FindCondition cs (cc_Type c)) eqn:E; [done|].
      intros _ Hx. by rewrite (IH x). }
  unfold AddCondition. destruct (FindCondition (st_Conditions s) (cc_Type c)) as [k|] eqn:E; cbn.
  - destruct (Hf _ _ E) as (old & Hold & Hty & Hr). split; [by destruct s|].
    eexists k, _. split_and!.
    { by apply Hr. } { rewrite list_lookup_alter_eq, Hold. done. }
    { intros j Hj. by rewrite list_lookup_alter_ne. }
    all: try done. exists old. split; [done|]. cbn.
    by case_bool_decide; case_decide.
  - split; [by destruct s|]. eexists (length (st_Conditions s)), _. split_and!.
    { by apply Ha. } { by rewrite lookup_app_r, Nat.sub_diag by lia. }
    { intros j Hj. rewrite lookup_app. destruct (st_Conditions s !! j) eqn:Ej; [done|].
      apply lookup_ge_None in Ej. rewrite lookup_ge_None_2; [done|cbn; lia]. }
    all: done.
Qed.

(** * Concrete resources *)

(** A YAML library that sees every configuration as empty. *)
Definition emptyYaml : Yaml := {|
  yaml_map := λ _, Some ∅; yaml_net_port := λ _, Some 0%Z;
  yaml_replSetName := λ _, Some ""; yaml_marshal := λ _, Some "" |}.

Definition a_replset (name : string) (size : Z) : ReplsetSpec :=
  {| rs_Name := name; rs_Size := size; rs_ClusterRole := "";
     rs_Arbiter := {| sz_Enabled := false; sz_Size := 0 |};
     rs_NonVoting := {| sz_Enabled := false; sz_Size := 0 |};
     rs_Hidden := {| sz_Enabled := false; sz_Size := 0 |};
     rs_ExposeEnabled := false; rs_ExposeType := ""; rs_Configuration := ""; rs_ExternalNodes := [];
     rs_Horizons := ∅; rs_Overrides := ∅; rs_PrimaryPreferTagSelector := ∅;
     rs_TerminationGrace := None; rs_SearchSize := None |}.

Definition a_cluster (rss : list ReplsetSpec) : PerconaServerMongoDB :=
  {| cr_Name := "c"; cr_Namespace := "ns"; cr_UID := "uid-c"; cr_Generation := 1; cr_Annotations := ∅;
     cr_CRVersion := "1.21.0";
     cr_Unmanaged := false; cr_UnsafeReplsetSize := false; cr_ShardingEnabled := false;
     cr_MongosSize := 0; cr_MongosServicePerPod := false; cr_MongosExposeType := "ClusterIP";
     cr_ConfigsvrReplSet := None; cr_Replsets := rss; cr_DNSMode := DNSModeInternal;
     cr_DNSSuffix := "svc.cluster.local"; cr_MCSEnabled := false; cr_MCSDNSSuffix := "";
     cr_TLSMode := None; cr_DefaultRWConcern := None; cr_SecretsUsers := ""; cr_SearchEnabled := false |}.
