(* ===== verification/GoSort.v ===== *)
(** Sorting in Go: [sort.Slice] and [slices.SortFunc].

    The documentation promises a sorted rearrangement when the comparison is a
    strict weak order, and says nothing about elements that compare equal, so
    the sort is a class with these laws.  The instance below is the insertion
    sort that the Go library runs on slices of at most twelve elements. *)
From S2P Require Import Prelude.
From Stdlib Require Import OrderedTypeEx.

Class GoSort := sort_slice : ∀ {A : Type}, (A → A → bool) → list A → list A.

(** The comparison behaves as "less than" on a total preorder. *)
Record strict_weak {A} (less : A → A → bool) : Prop := {
  less_asym x y : less x y = true → less y x = false;
  less_neg_trans x y z : less x y = false → less y z = false → less x z = false
}.

(** Nothing is less than what stands before it. *)
Definition go_sorted {A} (less : A → A → bool) : list A → Prop :=
  Sorted (λ x y, less y x = false).

Class GoSortLaws (G : GoSort) := {
  sort_perm {A} (less : A → A → bool) l : sort_slice less l ≡ₚ l;
  sort_sorted {A} (less : A → A → bool) l : strict_weak less → go_sorted less (sort_slice less l)
}.

(** [insertionSortLessFunc]: the element [x] moves left past every element it
    is less than.  The sorted prefix is kept with its last element first. *)
Section insertion.
Context {A : Type} (less : A → A → bool).

Fixpoint sift (x : A) (rprefix : list A) : list A :=
  match rprefix with
  | [] => [x]
  | y :: l => if less x y then y :: sift x l else x :: y :: l
  end.
Definition insertion (l : list A) : list A :=
  reverse (foldl (λ acc x, sift x acc) [] l).

Lemma sift_perm x l : sift x l ≡ₚ x :: l.
Proof.
  induction l as [|y l IH]; simpl; [done|]. case_match; [|done].
  rewrite IH. apply Permutation_swap.
Qed.

Lemma insertion_perm l : insertion l ≡ₚ l.
Proof.
  unfold insertion. rewrite reverse_Permutation.
  assert (∀ acc, foldl (λ acc x, sift x acc) acc l ≡ₚ l ++ acc) as H.
  { induction l as [|x l IH]; intros acc; simpl; [done|].
    rewrite IH, sift_perm. by rewrite Permutation_middle. }
  by rewrite H, app_nil_r.
Qed.

Context (Hless : strict_weak less).
(** The reversed prefix: no element is less than the one behind it. *)
Abbreviation rsorted := (StronglySorted (λ y x, less y x = false)).

Lemma sift_sorted x l : rsorted l → rsorted (sift x l).
Proof using Hless.
  induction l as [|y l IH]; simpl; [by repeat constructor|].
  intros Hs. inversion_clear Hs as [|?? Hl Hy]. destruct (less x y) eqn:E.
  - constructor; [by apply IH|]. rewrite sift_perm. constructor; [|done].
    by apply Hless.
  - constructor; [by constructor|]. constructor; [done|].
    apply Forall_forall. intros z Hz. rewrite Forall_forall in Hy.
    eapply (less_neg_trans _ Hless); eauto.
Qed.

Lemma insertion_sorted l : go_sorted less (insertion l).
Proof using Hless.
  unfold insertion, go_sorted.
  assert (∀ l acc, rsorted acc → rsorted (foldl (λ acc x, sift x acc) acc l)) as H.
  { clear l. induction l as [|x l IH]; intros acc Hacc; simpl; [done|].
    by apply IH, sift_sorted. }
  specialize (H l [] (SSorted_nil _)).
  induction H as [|y l' Hs IH Hy]; [constructor|].
  rewrite reverse_cons. clear Hs.
  assert (Forall (λ z, less y z = false) (reverse l')) as Hr
    by (by rewrite reverse_Permutation).
  revert IH Hr. generalize (reverse l'). clear l' Hy.
  induction l0 as [|z k IHk]; intros Hs Hr; simpl; [by repeat constructor|].
  inversion_clear Hs as [|?? Hk Hz]. inversion_clear Hr as [|?? Hyz Hyk].
  constructor; [by apply IHk|].
  destruct k; simpl; constructor; [done|]. by inversion Hz.
Qed.
End insertion.

#[export] Instance insertion_GoSort : GoSort := @insertion.
#[export] Instance insertion_GoSortLaws : GoSortLaws insertion_GoSort.
Proof. split; intros; [apply insertion_perm|by apply insertion_sorted]. Qed.

(** * Strings compared with [<] *)

Lemma ltb_true a b : String.ltb a b = true ↔ String_as_OT.lt a b.
Proof.
  rewrite <- String_as_OT.cmp_lt. unfold String.ltb, String_as_OT.cmp. by case_match.
Qed.

Lemma ltb_total a b : String.ltb a b = false → String.ltb b a = false → a = b.
Proof.
  unfold String.ltb. rewrite (String.compare_antisym b a).
  destruct (String.compare a b) eqn:E; cbn; try done. intros. by apply String.compare_eq_iff.
Qed.

Lemma ltb_asym a b : String.ltb a b = true → String.ltb b a = false.
Proof.
  unfold String.ltb. rewrite (String.compare_antisym b a). by destruct (String.compare a b).
Qed.

Lemma ltb_trans a b c : String.ltb a b = true → String.ltb b c = true → String.ltb a c = true.
Proof. rewrite !ltb_true. apply String_as_OT.lt_trans. Qed.

Lemma by_name_strict {A} (name : A → string) : strict_weak (λ a b, String.ltb (name a) (name b)).
Proof.
  split; [intros x y; apply ltb_asym|]. intros x y z Hxy Hyz.
  destruct (String.ltb (name x) (name z)) eqn:E; [|done].
  destruct (String.ltb (name y) (name x)) eqn:Eyx.
  - by rewrite (ltb_trans _ _ _ Eyx E) in Hyz.
  - by rewrite <- (ltb_total _ _ Hxy Eyx), E in Hyz.
Qed.

Lemma by_number_strict {A} (f : A → Z) : strict_weak (λ a b, (f b <? f a)%Z).
Proof.
  split; intros *; rewrite ?Z.ltb_lt, ?Z.ltb_ge; intros; first [apply Z.ltb_ge|idtac]; lia.
Qed.

(** In a sorted slice nothing of a suffix is less than anything before it. *)
Lemma go_sorted_split {A} (less : A → A → bool) l k x y :
  strict_weak less → go_sorted less (l ++ k) → x ∈ l → y ∈ k → less y x = false.
Proof.
  intros Hw Hs Hx Hy.
  assert (Transitive (λ x y, less y x = false)) as Ht.
  { intros a b c ??. by apply (less_neg_trans _ Hw _ b). }
  apply Sorted_StronglySorted in Hs; [|done].
  exact (StronglySorted_app_1_elem_of _ l k x y Hs Hx Hy).
Qed.
