(* ===== verification/Kube.v ===== *)
(** The Kubernetes objects and API calls the handlers use.

    The Kubernetes API server is outside the repository: its calls are the
    operations of the class [K8sClient] over a world [W].  A failing call
    returns an [EExt] error that carries its kind (NotFound, Conflict, ...). *)
From S2P Require Import Prelude.

(** A quantity is a number of billionths, the finest scale of the API. *)
Record ResourceRequirements := {
  res_Requests : gmap string Z;
  res_Limits : gmap string Z
}.
#[export] Instance ResourceRequirements_eq_dec : EqDecision ResourceRequirements.
Proof. solve_decision. Defined.
Definition noResources : ResourceRequirements := {| res_Requests := ∅; res_Limits := ∅ |}.

(** [q.Value()] and [q.MilliValue()] round away from zero. *)
Definition round_up (scale q : Z) : Z :=
  if (0 <=? q)%Z then ((q + scale - 1) / scale)%Z else (- ((- q + scale - 1) / scale))%Z.
Definition Value (q : Z) : Z := round_up 1000000000 q.
Definition MilliValue (q : Z) : Z := round_up 1000000 q.

Record Container := { ctr_Name : string; ctr_Image : string; ctr_Ports : list Z; ctr_Resources : ResourceRequirements }.
#[export] Instance Container_eq_dec : EqDecision Container.
Proof. solve_decision. Defined.
Record ContainerStatus := {
  cs_Name : string;
  cs_Running : bool;                 (* State.Running != nil *)
  cs_Waiting : option (string * string);   (* State.Waiting, its Reason and Message *)
  cs_Ready : bool;
  cs_Resources : option ResourceRequirements
}.
Record PodCondition := {
  pc_Type : string;
  pc_Status : string;
  pc_Reason : string;
  pc_Message : string;
  pc_LastTransitionTime : Z
}.

Record Pod := {
  pod_Name : string;
  pod_Namespace : string;
  pod_Labels : gmap string string;
  pod_Annotations : gmap string string;
  pod_Deleting : bool;               (* DeletionTimestamp != nil *)
  pod_NodeName : string;
  pod_InitContainers : list Container;
  pod_Containers : list Container;
  pod_Phase : string;
  pod_HostIP : string;
  pod_ContainerStatuses : list ContainerStatus;
  pod_Conditions : list PodCondition
}.

Record ServicePort := { sp_Name : string; sp_Port : Z; sp_NodePort : Z }.
Record Service := {
  svc_Name : string;
  svc_Type : string;
  svc_ClusterIP : string;
  svc_Ports : list ServicePort;
  svc_Ingress : list (string * string);  (* IP and Hostname *)
  svc_Deleting : bool                    (* DeletionTimestamp != nil *)
}.
Definition zeroService : Service :=
  {| svc_Name := ""; svc_Type := ""; svc_ClusterIP := ""; svc_Ports := []; svc_Ingress := []; svc_Deleting := false |}.
Definition ServiceTypeClusterIP : string := "ClusterIP".
Definition ServiceTypeLoadBalancer : string := "LoadBalancer".
Definition ServiceTypeNodePort : string := "NodePort".

(** A label selector as it stands in an object; an expression is a key, an
    operator and values. *)
Record LabelSelector := {
  MatchLabels : gmap string string;
  MatchExpressions : list (string * string * list string)
}.

Record StatefulSet := {
  sts_Name : string;
  sts_Labels : gmap string string;
  sts_Annotations : gmap string string;
  sts_Generation : Z;
  sts_Controller : option string;                 (* the UID of the controller that owns it *)
  sts_Deleting : bool;                            (* DeletionTimestamp != nil *)
  sts_SpecReplicas : option Z;
  sts_Selector : option LabelSelector;            (* Spec.Selector *)
  sts_TemplateLabels : gmap string string;        (* Spec.Template *)
  sts_TemplateAnnotations : gmap string string;
  sts_TemplateInitContainers : list Container;
  sts_TemplateContainers : list Container;
  sts_UpdateRevision : string;                    (* Status.UpdateRevision, ... *)
  sts_ObservedGeneration : Z;
  sts_Replicas : Z;
  sts_ReadyReplicas : Z;
  sts_UpdatedReplicas : Z
}.

(** A label selector: the labels an object must have, and the label values it
    must not have. *)
Record Selector := { sel_In : gmap string string; sel_NotIn : list (string * string) }.

Class K8sClient (W : Type) := {
  k8s_get_service : string → string → GoM W Service;
  k8s_get_node_labels : string → GoM W (gmap string string);
  k8s_get_service_import : string → string → GoM W unit;
  k8s_list_service_exports : string → Selector → GoM W (list string);
  k8s_get_sts : string → string → GoM W StatefulSet;
  k8s_get_secret : string → string → GoM W (gmap string string);
  k8s_list_sts : string → Selector → GoM W (list StatefulSet);
  k8s_list_pods : string → Selector → GoM W (list Pod);
  go_sleep : Z → GoM W unit;                 (* time.Sleep *)
  go_tick : GoM W (option error)             (* ctx.Err() when the context ends before the tick *)
}.

Definition IsNotFound (e : error) : bool := bool_decide (err_kind e = Some KNotFound).

(** * Pods *)
Definition PodRunning : string := "Running".
Definition PodReady : string := "Ready".

Definition getPodContainer (pod : Pod) (containerName : string) : option Container :=
  list_find (λ c, ctr_Name c = containerName) (pod_Containers pod) ≫= (λ p, Some p.2).

Definition isMongodPod (pod : Pod) : bool :=
  match getPodContainer pod "mongod" with Some _ => true | None => false end.

Fixpoint container_running (l : list ContainerStatus) (containerName : string) : bool :=
  match l with
  | [] => false
  | container :: l' =>
      if bool_decide (cs_Name container = containerName) && cs_Running container then true
      else container_running l' containerName
  end.

Definition isContainerAndPodRunning (pod : Pod) (containerName : string) : bool :=
  if negb (bool_decide (pod_Phase pod = PodRunning)) then false
  else container_running (pod_ContainerStatuses pod) containerName.

Fixpoint ready_condition (l : list PodCondition) : bool :=
  match l with
  | [] => false
  | condition :: l' =>
      if negb (bool_decide (pc_Status condition = "True")) then ready_condition l'
      else if bool_decide (pc_Type condition = PodReady) then true
      else ready_condition l'
  end.
Definition isPodReady (pod : Pod) : bool := ready_condition (pod_Conditions pod).

(** A pod that can run commands in its mongod: the guard shared by the
    initialisation and the crash recovery of a replica set. *)
Definition usable_mongod (pod : Pod) : bool :=
  isMongodPod pod && isContainerAndPodRunning pod "mongod" && isPodReady pod.

Lemma container_running_spec l n :
  container_running l n = true ↔ ∃ c, c ∈ l ∧ cs_Name c = n ∧ cs_Running c = true.
Proof.
  induction l as [|c l IH]; cbn; [set_solver|].
  destruct (bool_decide (cs_Name c = n) && cs_Running c) eqn:E.
  - split; [|done]. intros _. apply andb_prop in E as [?%bool_decide_eq_true ?]. exists c. set_solver.
  - rewrite IH. split; [intros (d & ? & ?); exists d; set_solver|].
    intros (d & [->|?]%elem_of_cons & Hn & Hr); [|eauto].
    rewrite bool_decide_eq_true_2, Hr in E by done. done.
Qed.

Lemma ready_condition_spec l :
  ready_condition l = true ↔ ∃ c, c ∈ l ∧ pc_Type c = PodReady ∧ pc_Status c = "True".
Proof.
  induction l as [|c l IH]; cbn; [set_solver|].
  repeat case_bool_decide; cbn.
  - split; [|done]. intros _. exists c. set_solver.
  - rewrite IH. split; [intros (d & ? & ?); exists d; set_solver|].
    intros (d & [->|?]%elem_of_cons & ? & ?); [done|]. eauto.
  - rewrite IH. split; [intros (d & ? & ?); exists d; set_solver|].
    intros (d & [->|?]%elem_of_cons & ? & ?); [done|]. eauto.
  - rewrite IH. split; [intros (d & ? & ?); exists d; set_solver|].
    intros (d & [->|?]%elem_of_cons & ? & ?); [done|]. eauto.
Qed.

(** * An API server without objects, for concrete runs *)
Definition notFound {W A} : GoM W A := throw (EExt KNotFound "not found").
Definition emptyK8s (W : Type) : K8sClient W := {|
  k8s_get_service := λ _ _, notFound;
  k8s_get_node_labels := λ _, notFound;
  k8s_get_service_import := λ _ _, notFound;
  k8s_list_service_exports := λ _ _, mret [];
  k8s_get_sts := λ _ _, notFound;
  k8s_get_secret := λ _ _, notFound;
  k8s_list_sts := λ _ _, mret [];
  k8s_list_pods := λ _ _, mret [];
  go_sleep := λ _, mret tt;
  go_tick := mret None
|}.

(** A running pod of the given component. *)
Definition a_pod (name component : string) : Pod :=
  {| pod_Name := name; pod_Namespace := "ns";
     pod_Labels := {[ "app.kubernetes.io/component" := component ]}; pod_Annotations := ∅;
     pod_Deleting := false; pod_NodeName := "node";
     pod_InitContainers := [];
     pod_Containers := [{| ctr_Name := "mongod"; ctr_Image := "mongod"; ctr_Ports := []; ctr_Resources := noResources |}];
     pod_Phase := PodRunning; pod_HostIP := "";
     pod_ContainerStatuses := [{| cs_Name := "mongod"; cs_Running := true; cs_Waiting := None;
                                  cs_Ready := true; cs_Resources := None |}];
     pod_Conditions := [{| pc_Type := PodReady; pc_Status := "True"; pc_Reason := ""; pc_Message := "";
                          pc_LastTransitionTime := 0 |}] |}.

(** A settled stateful set of the given name. *)
Definition a_sts (name : string) : StatefulSet :=
  {| sts_Name := name; sts_Labels := ∅; sts_Annotations := ∅; sts_Generation := 1;
     sts_Controller := None; sts_Deleting := false; sts_SpecReplicas := Some 1%Z;
     sts_Selector := None; sts_TemplateLabels := ∅; sts_TemplateAnnotations := ∅;
     sts_TemplateInitContainers := []; sts_TemplateContainers := []; sts_UpdateRevision := "";
     sts_ObservedGeneration := 1; sts_Replicas := 1; sts_ReadyReplicas := 1; sts_UpdatedReplicas := 1 |}.
