(* ===== verification/Hosts.v ===== *)
(** Addresses and pods of a cluster: pkg/psmdb/service.go (hosts),
    pkg/psmdb/getters.go and pkg/naming/labels.go. *)
From S2P Require Import Prelude ReplsetModels Api GoSort Kube.


(** * Labels *)
Definition LabelName : string := "app.kubernetes.io/name".
Definition LabelInstance : string := "app.kubernetes.io/instance".
Definition LabelManagedBy : string := "app.kubernetes.io/managed-by".
Definition LabelPartOf : string := "app.kubernetes.io/part-of".
Definition LabelComponent : string := "app.kubernetes.io/component".
Definition LabelReplset : string := "app.kubernetes.io/replset".

Definition ComponentMongod : string := "mongod".
Definition ComponentMongos : string := "mongos".
Definition ComponentNonVoting : string := "nonVoting".
Definition ComponentHidden : string := "hidden".
Definition ComponentArbiter : string := "arbiter".
Definition ComponentSearch : string := "search".

Definition Labels : gmap string string :=
  {[ LabelName := "percona-server-mongodb";
     LabelManagedBy := "percona-server-mongodb-operator";
     LabelPartOf := "percona-server-mongodb" ]}.
Definition ClusterLabels (cr : PerconaServerMongoDB) : gmap string string :=
  <[LabelInstance := cr_Name cr]> Labels.
Definition RSLabels (cr : PerconaServerMongoDB) (replset : option ReplsetSpec) : gmap string string :=
  match replset with
  | Some rs => <[LabelReplset := rs_Name rs]> (ClusterLabels cr)
  | None => ClusterLabels cr
  end.
Definition MongosLabels (cr : PerconaServerMongoDB) : gmap string string :=
  <[LabelComponent := ComponentMongos]> (ClusterLabels cr).
Definition SelectorFromSet (ls : gmap string string) : Selector :=
  {| sel_In := ls; sel_NotIn := [] |}.

(** * Addresses *)
Definition GetAddr (cr : PerconaServerMongoDB) (pod replset : string) (port : Z) : string :=
  pod +:+ "." +:+ (cr_Name cr +:+ "-" +:+ replset) +:+ "." +:+ cr_Namespace cr +:+ "."
    +:+ cr_DNSSuffix cr +:+ ":" +:+ itoa port.
Definition GetServiceMeshAddr (cr : PerconaServerMongoDB) (pod : string) (port : Z) : string :=
  pod +:+ "." +:+ cr_Namespace cr +:+ "." +:+ cr_DNSSuffix cr +:+ ":" +:+ itoa port.
Definition GetMCSAddr (cr : PerconaServerMongoDB) (pod : string) (port : Z) : string :=
  pod +:+ "." +:+ cr_Namespace cr +:+ "." +:+ cr_MCSDNSSuffix cr +:+ ":" +:+ itoa port.

Record ServiceAddr := { sa_Host : string; sa_Port : Z }.
Definition ServiceAddr_String (s : ServiceAddr) : string := sa_Host s +:+ ":" +:+ itoa (sa_Port s).

Definition MongodPortName : string := "mongodb".
Definition MongosPortName : string := "mongos".

(** [addr.Port] after the loop: the last port with the name wins. *)
Definition last_port (f : ServicePort → Z) (ports : list ServicePort) : Z :=
  foldl (λ acc p, if negb (bool_decide (sp_Name p = MongodPortName)) then acc else f p) 0%Z ports.

Section hosts.
Context {W : Type} {K : K8sClient W} {Y : Yaml} {G : GoSort}.
Abbreviation M := (GoM W).

Definition ErrNoIngressPoints : error := ENew "ingress points not found".
Definition ErrServiceNotExists : error := ENew "service doesn't exist".

(** [for range n]: [n] polls. *)
Fixpoint poll_ingress (n : nat) (ns name : string) : M string :=
  match n with
  | 0 => throw ErrNoIngressPoints
  | S n' =>
      svc ← wrapM "failed to fetch service" (k8s_get_service ns name);
      let found :=
        match svc_Ingress svc with
        | [] => None
        | (ip, hostname) :: _ =>
            if negb (bool_decide (ip = "")) then Some ip
            else if negb (bool_decide (hostname = "")) then Some hostname else None
        end in
      match found with
      | Some host => mret host
      | None =>
          tick ← go_tick;
          match tick with
          | Some e => throw e
          | None => poll_ingress n' ns name
          end
      end
  end.
Definition getServiceIngressAddr (ns name : string) : M string := poll_ingress 1000 ns name.

Definition GetServiceAddr (svc : Service) (pod : Pod) : M ServiceAddr :=
  if bool_decide (svc_Type svc = ServiceTypeClusterIP) then
    mret {| sa_Host := svc_ClusterIP svc; sa_Port := last_port sp_Port (svc_Ports svc) |}
  else if bool_decide (svc_Type svc = ServiceTypeLoadBalancer) then
    host ← wrapM "get ingress endpoint" (getServiceIngressAddr (pod_Namespace pod) (pod_Name pod));
    mret {| sa_Host := host; sa_Port := last_port sp_Port (svc_Ports svc) |}
  else if bool_decide (svc_Type svc = ServiceTypeNodePort) then
    mret {| sa_Host := pod_HostIP pod; sa_Port := last_port sp_NodePort (svc_Ports svc) |}
  else mret {| sa_Host := ""; sa_Port := 0 |}.

Fixpoint fetch_service (n : nat) (namespace podName : string) : M Service :=
  match n with
  | 0 => throw ErrServiceNotExists
  | S n' =>
      r ← tryM (k8s_get_service namespace podName);
      match r with
      | Ok svc => mret svc
      | Err e =>
          if IsNotFound e then go_sleep 500000000;; fetch_service n' namespace podName
          else throw (EWrap e "failed to fetch service")
      end
  end.
Definition getExtServices (namespace podName : string) : M Service := fetch_service 6 namespace podName.

Definition getExtAddr (namespace : string) (pod : Pod) : M string :=
  svc ← wrapM "fetch service address" (getExtServices namespace (pod_Name pod));
  hostname ← wrapM "get service hostname" (GetServiceAddr svc pod);
  mret (ServiceAddr_String hostname).

(** [client.IgnoreNotFound(err)] *)
Definition IsServiceImported (cr : PerconaServerMongoDB) (svcName : string) : M bool :=
  r ← tryM (k8s_get_service_import (cr_Namespace cr) svcName);
  match r with
  | Ok _ => mret true
  | Err e => if IsNotFound e then mret false else throw e
  end.

Definition overrides_of (replset : ReplsetSpec) (pod : string) : ReplsetOverride :=
  default zeroOverride (rs_Overrides replset !! pod).

Definition MongoHost (cr : PerconaServerMongoDB) (dnsMode : string) (replset : ReplsetSpec)
    (rsExposed : bool) (pod : Pod) : M string :=
  let overrides := overrides_of replset (pod_Name pod) in
  let port := rs_GetPort replset in
  let addr := GetAddr cr (pod_Name pod) (rs_Name replset) port in
  let is_imported :=
    wrapM ("check if service imported for " +:+ pod_Name pod) (IsServiceImported cr (pod_Name pod)) in
  if negb (bool_decide (ov_Host overrides = "")) then
    if str_contains ":" (ov_Host overrides) then mret (ov_Host overrides)
    else mret (ov_Host overrides +:+ ":" +:+ itoa port)
  else if bool_decide (dnsMode = DNSModeServiceMesh) then
    mret (GetServiceMeshAddr cr (pod_Name pod) port)
  else if bool_decide (dnsMode = DNSModeInternal) then
    if rsExposed && cr_MCSEnabled cr then
      imported ← is_imported;
      if negb imported then mret addr else mret (GetMCSAddr cr (pod_Name pod) port)
    else mret addr
  else if bool_decide (dnsMode = DNSModeExternal) then
    if rsExposed then
      if cr_MCSEnabled cr then
        imported ← is_imported;
        if negb imported then getExtAddr (cr_Namespace cr) pod
        else mret (GetMCSAddr cr (pod_Name pod) port)
      else getExtAddr (cr_Namespace cr) pod
    else mret addr
  else mret addr.

Fixpoint GetReplsetAddrs (cr : PerconaServerMongoDB) (dnsMode : string) (rs : ReplsetSpec)
    (rsExposed : bool) (pods : list Pod) : M (list string) :=
  match pods with
  | [] => mret []
  | pod :: pods' =>
      if pod_Deleting pod then GetReplsetAddrs cr dnsMode rs rsExposed pods'
      else
        host ← wrapM ("failed to get external hostname for pod " +:+ pod_Name pod)
                 (MongoHost cr dnsMode rs rsExposed pod);
        addrs ← GetReplsetAddrs cr dnsMode rs rsExposed pods';
        mret (host :: addrs)
  end.

(** The port of the first service port with that name, 0 when there is none. *)
Fixpoint first_port (name : string) (ports : list ServicePort) : Z :=
  match ports with
  | [] => 0
  | p :: ps => if bool_decide (sp_Name p = name) then sp_Port p else first_port name ps
  end.

Definition MongosServiceName (cr : PerconaServerMongoDB) : string := cr_Name cr +:+ "-" +:+ "mongos".

Definition MongosHost (cr : PerconaServerMongoDB) (pod : option Pod) (useInternalAddr : bool) : M string :=
  svcName ← (if cr_MongosServicePerPod cr then
               match pod with
               | None => throw (ENew "mongos pod is required for service-per-pod exposure")
               | Some p => mret (pod_Name p)
               end
             else mret (MongosServiceName cr));
  got ← tryM (k8s_get_service (cr_Namespace cr) svcName);
  match got with
  | Err e => if IsNotFound e then mret "" else throw (EWrap e "failed to get mongos service")
  | Ok svc =>
      let mongosPort := first_port MongosPortName (svc_Ports svc) in
      if (mongosPort =? 0)%Z then throw (ENew "mongos port not found in service")
      else if negb useInternalAddr && bool_decide (cr_MongosExposeType cr = ServiceTypeLoadBalancer)
              && bool_decide (svc_Type svc = ServiceTypeLoadBalancer) then
        host ← wrapM "get ingress endpoint" (getServiceIngressAddr (cr_Namespace cr) svcName);
        mret (host +:+ ":" +:+ itoa mongosPort)
      else mret (svc_Name svc +:+ "." +:+ cr_Namespace cr +:+ "." +:+ cr_DNSSuffix cr
                 +:+ ":" +:+ itoa mongosPort)
  end.

Definition GetMongosPods (cr : PerconaServerMongoDB) : M (list Pod) :=
  k8s_list_pods (cr_Namespace cr) (SelectorFromSet (MongosLabels cr)).

Fixpoint mongos_pod_addrs (cr : PerconaServerMongoDB) (useInternalAddr : bool) (pods : list Pod)
    : M (list string) :=
  match pods with
  | [] => mret []
  | pod :: pods' =>
      if pod_Deleting pod then mongos_pod_addrs cr useInternalAddr pods'
      else
        host ← wrapM "failed to get mongos host" (MongosHost cr (Some pod) useInternalAddr);
        addrs ← mongos_pod_addrs cr useInternalAddr pods';
        mret (host :: addrs)
  end.

Definition GetMongosAddrs (cr : PerconaServerMongoDB) (useInternalAddr servicePerPod : bool)
    : M (list string) :=
  if negb servicePerPod then
    host ← wrapM "failed to get mongos host" (MongosHost cr None useInternalAddr);
    mret [host]
  else
    list ← wrapM "failed to list mongos pods" (GetMongosPods cr);
    mongos_pod_addrs cr useInternalAddr list.

(** * Pods of a replica set *)

Definition pod_less (a b : Pod) : bool := String.ltb (pod_Name a) (pod_Name b).
Definition sts_less (a b : StatefulSet) : bool := String.ltb (sts_Name a) (sts_Name b).

(** [pods.Items[:rsSize]] panics when the size is negative; the CRD validation
    refuses that, and [take] of a negative size is empty here. *)
Definition trim_pods (rs : ReplsetSpec) (component : string) (items : list Pod) : list Pod :=
  let items := sort_slice pod_less items in
  let rsSize :=
    if bool_decide (component = ComponentArbiter) then sz_Size (rs_Arbiter rs)
    else if bool_decide (component = ComponentNonVoting) then sz_Size (rs_NonVoting rs)
    else if bool_decide (component = ComponentHidden) then sz_Size (rs_Hidden rs)
    else rs_Size rs in
  if (rsSize <=? Z.of_nat (length items))%Z then take (Z.to_nat rsSize) items else items.

Definition sts_component (sts : StatefulSet) : string :=
  default "" (sts_Labels sts !! LabelComponent).

Definition sts_pods (cr : PerconaServerMongoDB) (rsName : string) (trimOutdated : bool)
    (sts : StatefulSet) : M (list Pod) :=
  let rs := Replset cr rsName in
  let lbls := <[LabelComponent := sts_component sts]> (RSLabels cr rs) in
  pods ← wrapM "failed to list pods" (k8s_list_pods (cr_Namespace cr) (SelectorFromSet lbls));
  match rs with
  | Some r => if trimOutdated then mret (trim_pods r (sts_component sts) pods) else mret pods
  | None => mret pods
  end.

Fixpoint collect_pods (cr : PerconaServerMongoDB) (rsName : string) (trimOutdated : bool)
    (acc : list Pod) (l : list StatefulSet) : M (list Pod) :=
  match l with
  | [] => mret acc
  | sts :: l' =>
      pods ← sts_pods cr rsName trimOutdated sts;
      collect_pods cr rsName trimOutdated (acc ++ pods) l'
  end.

Definition getRSPods (cr : PerconaServerMongoDB) (rsName : string) (trimOutdated : bool) : M (list Pod) :=
  let selectors := {| sel_In := {[ LabelInstance := cr_Name cr; LabelReplset := rsName ]};
                      sel_NotIn := [(LabelComponent, ComponentSearch)] |} in
  stsList ← wrapM ("failed to get statefulset list related to replset " +:+ rsName)
              (k8s_list_sts (cr_Namespace cr) selectors);
  collect_pods cr rsName trimOutdated [] (sort_slice sts_less stsList).

Definition GetRSPods (cr : PerconaServerMongoDB) (rsName : string) : M (list Pod) :=
  getRSPods cr rsName true.
Definition GetOutdatedRSPods (cr : PerconaServerMongoDB) (rsName : string) : M (list Pod) :=
  getRSPods cr rsName false.

Definition GetExportedServices (cr : PerconaServerMongoDB) : M (list string) :=
  wrapM "get service export list"
    (k8s_list_service_exports (cr_Namespace cr) (SelectorFromSet (ClusterLabels cr))).

Definition GetNodeLabels (pod : Pod) : M (gmap string string) :=
  wrapM ("failed to get node " +:+ pod_NodeName pod) (k8s_get_node_labels (pod_NodeName pod)).
End hosts.

(** * Theorems *)

Lemma str_app_inj_r (a b s : string) : a +:+ s = b +:+ s → a = b.
Proof.
  assert (∀ u v, String.list_ascii_of_string (u +:+ v) = String.list_ascii_of_string u ++ String.list_ascii_of_string v)
    as Happ by (induction u as [|a0 u IHu]; intros; cbn; [done|]; by rewrite <- IHu).
  intros E. apply (f_equal String.list_ascii_of_string) in E. rewrite !Happ in E.
  apply app_inv_tail in E. apply (f_equal String.string_of_list_ascii) in E.
  by rewrite !String.string_of_list_ascii_of_string in E.
Qed.

(** The modes in which [MongoHost] needs nothing from the cluster. *)
Definition static_hosts (cr : PerconaServerMongoDB) (dnsMode : string) (rsExposed : bool) : bool :=
  negb rsExposed ||
  (negb (cr_MCSEnabled cr) && negb (bool_decide (dnsMode = DNSModeExternal))) ||
  bool_decide (dnsMode = DNSModeServiceMesh).

Section theorems.
Context {W : Type} {K : K8sClient W} {Y : Yaml} {G : GoSort}.

(** The address [MongoHost] computes without asking the cluster. *)
Definition static_addr (cr : PerconaServerMongoDB) (dnsMode : string) (rs : ReplsetSpec)
    (pod : string) : string :=
  if decide (dnsMode = DNSModeServiceMesh) then GetServiceMeshAddr cr pod (rs_GetPort rs)
  else GetAddr cr pod (rs_Name rs) (rs_GetPort rs).

Lemma static_addr_inj cr dnsMode rs p q :
  static_addr cr dnsMode rs p = static_addr cr dnsMode rs q → p = q.
Proof. unfold static_addr. case_decide; apply str_app_inj_r. Qed.

Lemma MongoHost_static cr dnsMode rs rsExposed pod (w : W) :
  static_hosts cr dnsMode rsExposed = true →
  ov_Host (overrides_of rs (pod_Name pod)) = "" →
  MongoHost cr dnsMode rs rsExposed pod w = (Ok (static_addr cr dnsMode rs (pod_Name pod)), w).
Proof.
  unfold static_hosts, MongoHost, static_addr. intros Hs ->. rewrite bool_decide_eq_true_2 by done.
  cbn [negb]. repeat case_bool_decide; try done; repeat case_decide; try done.
  all: destruct rsExposed, (cr_MCSEnabled cr); try done.
Qed.

(** Without a host override, and when no service is exposed outside, the
    host of a pod is computed from names alone (no request is made, no error
    is possible), and two pods never get the same host: the hosts that the
    replica set configuration is keyed by are distinct. *)
Theorem MongoHost_injective cr dnsMode rs rsExposed p q (w1 w2 : W) :
  static_hosts cr dnsMode rsExposed = true →
  ov_Host (overrides_of rs (pod_Name p)) = "" →
  ov_Host (overrides_of rs (pod_Name q)) = "" →
  pod_Name p ≠ pod_Name q →
  ∃ h k, MongoHost cr dnsMode rs rsExposed p w1 = (Ok h, w1) ∧
         MongoHost cr dnsMode rs rsExposed q w2 = (Ok k, w2) ∧ h ≠ k.
Proof.
  intros Hs Hp Hq Hne. do 2 eexists. split_and!; [by apply MongoHost_static..|].
  intros E. by apply Hne, (static_addr_inj cr dnsMode rs).
Qed.

Context {GL : GoSortLaws G}.

(** The number of pods a component of the replica set is specified to have. *)
Definition component_size (rs : ReplsetSpec) (component : string) : Z :=
  if decide (component = ComponentArbiter) then sz_Size (rs_Arbiter rs)
  else if decide (component = ComponentNonVoting) then sz_Size (rs_NonVoting rs)
  else if decide (component = ComponentHidden) then sz_Size (rs_Hidden rs)
  else rs_Size rs.

(** Trimming the pods of a component keeps its size's worth of them (all
    of them when there are fewer), invents none, and keeps the first ones in
    the order of the names. *)
Theorem trim_pods_spec rs component (items : list Pod) :
  (0 ≤ component_size rs component)%Z →
  ∃ dropped,
    trim_pods rs component items ++ dropped ≡ₚ items ∧
    Z.of_nat (length (trim_pods rs component items)) =
      Z.min (component_size rs component) (Z.of_nat (length items)) ∧
    (dropped ≠ [] → ∀ kept d, kept ∈ trim_pods rs component items → d ∈ dropped →
       String.ltb (pod_Name d) (pod_Name kept) = false).
Proof.
  intros Hn. unfold trim_pods.
  pose proof (sort_perm pod_less items) as Hp.
  pose proof (sort_sorted pod_less items (by_name_strict pod_Name)) as Hs.
  assert (component_size rs component =
    if bool_decide (component = ComponentArbiter) then sz_Size (rs_Arbiter rs)
    else if bool_decide (component = ComponentNonVoting) then sz_Size (rs_NonVoting rs)
    else if bool_decide (component = ComponentHidden) then sz_Size (rs_Hidden rs)
    else rs_Size rs) as Esz.
  { unfold component_size. repeat case_decide; repeat case_bool_decide; done. }
  rewrite <- Esz. cbv zeta. revert Hn. generalize (component_size rs component). intros n Hn.
  rewrite <- (Permutation_length Hp). revert Hp Hs. generalize (sort_slice pod_less items).
  intros l Hp Hs. destruct (Z.leb_spec n (Z.of_nat (length l))).
  - exists (drop (Z.to_nat n) l). rewrite take_drop. split_and!; [done|rewrite length_take; lia|].
    intros _ kept d Hk Hd. eapply (go_sorted_split pod_less); [apply by_name_strict| |done..].
    by rewrite take_drop.
  - exists []. rewrite app_nil_r. split_and!; [done|lia|done].
Qed.
End theorems.

Lemma MongoHost_injective_witness :
  ∃ h k, MongoHost (K := emptyK8s unit) (Y := emptyYaml) (a_cluster []) DNSModeInternal
           (a_replset "rs0" 3) false (a_pod "c-rs0-0" "mongod") tt = (Ok h, tt) ∧
         MongoHost (K := emptyK8s unit) (Y := emptyYaml) (a_cluster []) DNSModeInternal
           (a_replset "rs0" 3) false (a_pod "c-rs0-1" "mongod") tt = (Ok k, tt) ∧ h ≠ k.
Proof.
  apply (MongoHost_injective (K := emptyK8s unit) (Y := emptyYaml)); [reflexivity..|discriminate].
Defined.

Lemma trim_pods_spec_witness :
  let pods := [a_pod "c-rs0-2" "mongod"; a_pod "c-rs0-0" "mongod"; a_pod "c-rs0-1" "mongod"] in
  let rs := a_replset "rs0" 2 in
  (0 ≤ component_size rs "mongod")%Z ∧
  pod_Name <$> trim_pods rs "mongod" pods = ["c-rs0-0"; "c-rs0-1"] ∧
  ∃ dropped, trim_pods rs "mongod" pods ++ dropped ≡ₚ pods ∧
    Z.of_nat (length (trim_pods rs "mongod" pods)) =
      Z.min (component_size rs "mongod") (Z.of_nat (length pods)) ∧
    (dropped ≠ [] → ∀ kept d, kept ∈ trim_pods rs "mongod" pods → d ∈ dropped →
       String.ltb (pod_Name d) (pod_Name kept) = false).
Proof.
  cbv zeta. split; [vm_compute; discriminate|]. split; [reflexivity|].
  apply (trim_pods_spec (a_replset "rs0" 2) "mongod"). vm_compute. discriminate.
Defined.

(** Pods are compared by name, not by ordinal: when a replica set of eleven
    members is resized to ten, the StatefulSet deletes the pod with the highest
    ordinal, c-rs0-10, but trimming keeps it and drops c-rs0-9, which stays. *)
Lemma trim_pods_by_name :
  let pods := (λ n, a_pod ("c-rs0-" +:+ itoa n) "mongod") <$> seqZ 0 11 in
  pod_Name <$> trim_pods (a_replset "rs0" 10) "mongod" pods =
    ["c-rs0-0"; "c-rs0-1"; "c-rs0-10"; "c-rs0-2"; "c-rs0-3"; "c-rs0-4"; "c-rs0-5"; "c-rs0-6";
     "c-rs0-7"; "c-rs0-8"].
Proof. vm_compute. reflexivity. Qed.
