(* ===== verification/KubeTrace.v ===== *)
(** Calls to the Kubernetes API over traces: the reads of [K8sClient] leave no
    event, so neither do the handlers that find hosts and pods; and a MongoDB
    client whose commands leave none. *)
From S2P Require Import Prelude Trace ReplsetModels MongoClient Api Kube Hosts GoSort.

Definition quiet_client {Ev W} (C : Client W) : Client (list Ev * W) := {|
  cSetDefaultRWConcern := λ a b c, quietly (cSetDefaultRWConcern a b c);
  cReadConfig := quietly cReadConfig;
  cCreateRole := λ a b, quietly (cCreateRole a b);
  cUpdateRole := λ a b, quietly (cUpdateRole a b);
  cGetRole := λ a b, quietly (cGetRole a b);
  cCreateUser := λ a b c d, quietly (cCreateUser a b c d);
  cAddShard := λ a b, quietly (cAddShard a b);
  cWriteConfig := λ c f, quietly (cWriteConfig c f);
  cRSStatus := quietly cRSStatus;
  cStartBalancer := quietly cStartBalancer;
  cStopBalancer := quietly cStopBalancer;
  cIsBalancerRunning := quietly cIsBalancerRunning;
  cGetFCV := quietly cGetFCV;
  cSetFCV := λ a, quietly (cSetFCV a);
  cListDBs := quietly cListDBs;
  cListShard := quietly cListShard;
  cRemoveShard := λ a, quietly (cRemoveShard a);
  cRSBuildInfo := quietly cRSBuildInfo;
  cStepDown := λ a f, quietly (cStepDown a f);
  cFreeze := λ a, quietly (cFreeze a);
  cIsMaster := quietly cIsMaster;
  cGetUserInfo := λ a b, quietly (cGetUserInfo a b);
  cUpdateUserRoles := λ a b c, quietly (cUpdateUserRoles a b c);
  cUpdateUserPass := λ a b c, quietly (cUpdateUserPass a b c);
  cUpdateUser := λ a b c, quietly (cUpdateUser a b c);
  cRunCommand := λ a b, quietly (cRunCommand a b)
|}.

Section quiet_k8s.
Context {Ev W : Type} {K : K8sClient W}.
Abbreviation T := (list Ev * W)%type.

Definition quiet_k8s : K8sClient T := {|
  k8s_get_service := λ a b, quietly (k8s_get_service a b);
  k8s_get_node_labels := λ a, quietly (k8s_get_node_labels a);
  k8s_get_service_import := λ a b, quietly (k8s_get_service_import a b);
  k8s_list_service_exports := λ a b, quietly (k8s_list_service_exports a b);
  k8s_get_sts := λ a b, quietly (k8s_get_sts a b);
  k8s_get_secret := λ a b, quietly (k8s_get_secret a b);
  k8s_list_sts := λ a b, quietly (k8s_list_sts a b);
  k8s_list_pods := λ a b, quietly (k8s_list_pods a b);
  go_sleep := λ z, quietly (go_sleep z);
  go_tick := quietly go_tick
|}.
End quiet_k8s.
#[export] Existing Instance quiet_k8s.

Section hosts.
Context {Ev W : Type} {K : K8sClient W} {Y : Yaml} {G : GoSort}.
Abbreviation M := (GoM (list Ev * W)).

Lemma quiet_poll_ingress n ns name : quiet (poll_ingress n ns name : M _).
Proof. induction n as [|n IH]; cbn [poll_ingress]; solve_quiet. Qed.
Hint Resolve quiet_poll_ingress : quiet.
Lemma quiet_getServiceIngressAddr ns name : quiet (getServiceIngressAddr ns name : M _).
Proof. apply quiet_poll_ingress. Qed.
Hint Resolve quiet_getServiceIngressAddr : quiet.
Lemma quiet_fetch_service n ns name : quiet (fetch_service n ns name : M _).
Proof. induction n as [|n IH]; cbn [fetch_service]; solve_quiet. Qed.
Hint Resolve quiet_fetch_service : quiet.
Lemma quiet_getExtAddr ns pod : quiet (getExtAddr ns pod : M _).
Proof. unfold getExtAddr, getExtServices, GetServiceAddr. solve_quiet. Qed.
Hint Resolve quiet_getExtAddr : quiet.
Lemma quiet_MongoHost cr mode rs ex pod : quiet (MongoHost cr mode rs ex pod : M _).
Proof. unfold MongoHost, IsServiceImported. solve_quiet. Qed.
Lemma quiet_GetRSPods (c : PerconaServerMongoDB) rs : quiet (GetRSPods c rs : M _).
Proof.
  unfold GetRSPods, getRSPods. apply quiet_bind; [solve_quiet|]. intros l. generalize (@nil Pod).
  induction (sort_slice sts_less l) as [|s l' IH]; intros acc; cbn [collect_pods]; unfold sts_pods;
    solve_quiet; apply IH.
Qed.
End hosts.
#[export] Hint Resolve quiet_MongoHost quiet_GetRSPods : quiet.
