(* ===== verification/WriteLog.v ===== *)
(** Recording the reconfigurations a handler asks for.

    The handlers run over any world; over [W * wlog] they run with every
    [WriteConfig] recorded, whether the server accepts it or not, and all other
    calls passed on.  [silent] handlers record nothing. *)
From S2P Require Import Prelude ReplsetModels MongoClient Api GoSort Kube Hosts.

Abbreviation wlog := (list (RSConfig * bool)).

Section log.
Context {W : Type}.

Definition pass {A} (m : GoM W A) : GoM (W * wlog) A := λ w,
  let '(r, w') := m w.1 in (r, (w', w.2)).

Definition record_write (c : RSConfig) (force : bool) (m : GoM W unit) : GoM (W * wlog) unit := λ w,
  let '(r, w') := m w.1 in (r, (w', w.2 ++ [(c, force)])).

Definition logged_client (C : Client W) : Client (W * wlog) := {|
  cSetDefaultRWConcern := λ a b c, pass (cSetDefaultRWConcern a b c);
  cReadConfig := pass cReadConfig;
  cCreateRole := λ a b, pass (cCreateRole a b);
  cUpdateRole := λ a b, pass (cUpdateRole a b);
  cGetRole := λ a b, pass (cGetRole a b);
  cCreateUser := λ a b c d, pass (cCreateUser a b c d);
  cAddShard := λ a b, pass (cAddShard a b);
  cWriteConfig := λ c f, record_write c f (cWriteConfig c f);
  cRSStatus := pass cRSStatus;
  cStartBalancer := pass cStartBalancer;
  cStopBalancer := pass cStopBalancer;
  cIsBalancerRunning := pass cIsBalancerRunning;
  cGetFCV := pass cGetFCV;
  cSetFCV := λ a, pass (cSetFCV a);
  cListDBs := pass cListDBs;
  cListShard := pass cListShard;
  cRemoveShard := λ a, pass (cRemoveShard a);
  cRSBuildInfo := pass cRSBuildInfo;
  cStepDown := λ a b, pass (cStepDown a b);
  cFreeze := λ a, pass (cFreeze a);
  cIsMaster := pass cIsMaster;
  cGetUserInfo := λ a b, pass (cGetUserInfo a b);
  cUpdateUserRoles := λ a b c, pass (cUpdateUserRoles a b c);
  cUpdateUserPass := λ a b c, pass (cUpdateUserPass a b c);
  cUpdateUser := λ a b c, pass (cUpdateUser a b c);
  cRunCommand := λ a b, pass (cRunCommand a b)
|}.

Definition logged_k8s (K : K8sClient W) : K8sClient (W * wlog) := {|
  k8s_get_service := λ a b, pass (k8s_get_service a b);
  k8s_get_node_labels := λ a, pass (k8s_get_node_labels a);
  k8s_get_service_import := λ a b, pass (k8s_get_service_import a b);
  k8s_list_service_exports := λ a b, pass (k8s_list_service_exports a b);
  k8s_get_sts := λ a b, pass (k8s_get_sts a b);
  k8s_get_secret := λ a b, pass (k8s_get_secret a b);
  k8s_list_sts := λ a b, pass (k8s_list_sts a b);
  k8s_list_pods := λ a b, pass (k8s_list_pods a b);
  go_sleep := λ a, pass (go_sleep a);
  go_tick := pass go_tick
|}.

(** * Handlers that write no configuration *)
Definition silent {A} (m : GoM (W * wlog) A) : Prop := ∀ w, (m w).2.2 = w.2.

Lemma silent_pass {A} (m : GoM W A) : silent (pass m).
Proof. intros [w l]. unfold pass. cbn. by destruct (m w). Qed.
Lemma silent_ret {A} (a : A) : silent (mret a).
Proof. done. Qed.
Lemma silent_throw {A} e : silent (throw (A := A) e).
Proof. done. Qed.
Lemma silent_bind {A B} (m : GoM (W * wlog) A) (f : A → GoM (W * wlog) B) :
  silent m → (∀ a, silent (f a)) → silent (m ≫= f).
Proof.
  intros Hm Hf w. specialize (Hm w). unfold mbind, gom_bind.
  destruct (m w) as [[a|e] w1]; cbn in *; [|done]. by rewrite Hf.
Qed.
Lemma silent_wrap {A} msg (m : GoM (W * wlog) A) : silent m → silent (wrapM msg m).
Proof. intros Hm w. specialize (Hm w). unfold wrapM. by destruct (m w). Qed.
Lemma silent_try {A} (m : GoM (W * wlog) A) : silent m → silent (tryM m).
Proof. intros Hm w. specialize (Hm w). unfold tryM. by destruct (m w). Qed.
Lemma silent_if {A} (b : bool) (m n : GoM (W * wlog) A) :
  silent m → silent n → silent (if b then m else n).
Proof. by destruct b. Qed.
End log.

Create HintDb silent.
#[export] Hint Resolve silent_pass silent_ret silent_throw : silent.

(** Decides silence along the structure of a handler. *)
Ltac silence :=
  repeat first
    [ progress eauto with silent
    | apply silent_pass
    | apply silent_bind; [|intros ?]
    | apply silent_wrap
    | apply silent_try
    | case_match ].

Section silent_hosts.
Context {W : Type} (K : K8sClient W) {Y : Yaml} {G : GoSort}.
Local Existing Instance logged_k8s.

Lemma silent_poll n ns name : silent (poll_ingress n ns name).
Proof. induction n; cbn; silence. Qed.
Hint Resolve silent_poll : silent.
Lemma silent_GetServiceAddr svc pod : silent (GetServiceAddr svc pod).
Proof. unfold GetServiceAddr, getServiceIngressAddr. silence. Qed.
Hint Resolve silent_GetServiceAddr : silent.
Lemma silent_fetch n ns name : silent (fetch_service n ns name).
Proof. induction n; cbn; silence. Qed.
Hint Resolve silent_fetch : silent.
Lemma silent_getExtAddr ns pod : silent (getExtAddr ns pod).
Proof. unfold getExtAddr, getExtServices. silence. Qed.
Hint Resolve silent_getExtAddr : silent.
Lemma silent_IsServiceImported cr s : silent (IsServiceImported cr s).
Proof. unfold IsServiceImported. silence. Qed.
Hint Resolve silent_IsServiceImported : silent.
Lemma silent_MongoHost cr mode rs ex pod : silent (MongoHost cr mode rs ex pod).
Proof. unfold MongoHost. silence. Qed.
Lemma silent_sts_pods cr rs trim sts : silent (sts_pods cr rs trim sts).
Proof. unfold sts_pods. silence. Qed.
Hint Resolve silent_sts_pods : silent.
Lemma silent_collect cr rs trim acc l : silent (collect_pods cr rs trim acc l).
Proof. revert acc. induction l; intros; cbn; silence. Qed.
Hint Resolve silent_collect : silent.
Lemma silent_getRSPods cr rs trim : silent (getRSPods cr rs trim).
Proof. unfold getRSPods. silence. Qed.
Lemma silent_GetNodeLabels pod : silent (GetNodeLabels pod).
Proof. unfold GetNodeLabels. silence. Qed.
End silent_hosts.
#[export] Hint Resolve silent_MongoHost silent_getRSPods silent_GetNodeLabels : silent.
