(* ===== verification/ReplsetReconcile.v ===== *)
(** Reconfiguring a replica set: the members the specification asks for and
    the reconfigurations that lead to them, in
    pkg/controller/perconaservermongodb/mgo.go. *)
From S2P Require Import Prelude ReplsetModels ReplsetMembers ReplsetVotes MongoClient.
From S2P Require Import Api GoSort Kube Hosts WriteLog.

(** * Read and write concern *)

Definition defaultRWConcern (cr : PerconaServerMongoDB) : string * string * Z :=
  let readConcern := DefaultReadConcern in
  let writeConcernW := DefaultWriteConcern in
  match cr_DefaultRWConcern cr with
  | None => (readConcern, writeConcernW, 0%Z)
  | Some c =>
      let readConcern :=
        if negb (bool_decide (rw_ReadConcern c = "")) then rw_ReadConcern c else readConcern in
      match rw_WriteConcern c with
      | None => (readConcern, writeConcernW, 0%Z)
      | Some wc =>
          (readConcern,
           if negb (bool_decide (wcs_W wc = "")) then wcs_W wc else writeConcernW,
           wcs_WTimeout wc)
      end
  end.

Definition shouldSetDefaultRWConcern (cr : PerconaServerMongoDB) (replset : ReplsetSpec) : bool :=
  if cr_ShardingEnabled cr then false
  else
    let externalArbiterFound := existsb en_ArbiterOnly (rs_ExternalNodes replset) in
    sz_Enabled (rs_Arbiter replset) || externalArbiterFound
      || bool_decide (cr_DefaultRWConcern cr ≠ None).

(** * Wanted members *)

Definition compareTags (tags selector : gmap string string) : bool :=
  if (Z.of_nat (size selector) =? 0)%Z then false
  else forallb (λ '(tag, v), bool_decide (tags !! tag = Some v)) (map_to_list selector).

Definition LabelTopologyRegion : string := "topology.kubernetes.io/region".
Definition LabelTopologyZone : string := "topology.kubernetes.io/zone".

Section reconcile.
Context {W : Type} {K : K8sClient W} {C : Client W} {Y : Yaml} {G : GoSort}.
Abbreviation M := (GoM W).

(** The pod's role in the replica set decides what its member looks like. *)
Definition member_for_component (component : string) (tags : gmap string string)
    (member : ConfigMember) : ConfigMember :=
  if bool_decide (component = ComponentArbiter) then
    {| ID := ID member; Host := Host member; ArbiterOnly := true;
       BuildIndexes := BuildIndexes member; Hidden := Hidden member; Priority := 0;
       Tags := Tags member; SlaveDelay := SlaveDelay member;
       SecondaryDelaySecs := SecondaryDelaySecs member; Votes := Votes member;
       Horizons := Horizons member |}
  else if bool_decide (component = ComponentMongod) || bool_decide (component = "cfg") then
    set_Tags member (Some tags)
  else if bool_decide (component = ComponentNonVoting) then
    set_VP (set_Tags member (Some (MapMerge [{[ ComponentNonVoting := "true" ]}; tags]))) 0 0
  else if bool_decide (component = ComponentHidden) then
    {| ID := ID member; Host := Host member; ArbiterOnly := ArbiterOnly member;
       BuildIndexes := BuildIndexes member; Hidden := true; Priority := 0;
       Tags := Some (MapMerge [{[ ComponentHidden := "true" ]}; tags]);
       SlaveDelay := SlaveDelay member;
       SecondaryDelaySecs := SecondaryDelaySecs member; Votes := 1;
       Horizons := Horizons member |}
  else member.

Definition getConfigMemberForPod (cr : PerconaServerMongoDB) (rs : ReplsetSpec) (id : Z) (pod : Pod)
    : M ConfigMember :=
  host ← wrapM ("get host for pod " +:+ pod_Name pod)
           (MongoHost cr (cr_DNSMode cr) rs (rs_ExposeEnabled rs) pod);
  let overrides := overrides_of rs (pod_Name pod) in
  let horizons := default ∅ (GetHorizons rs true !! pod_Name pod) in
  let tags := MapMerge [{[ "nodeName" := pod_NodeName pod; "podName" := pod_Name pod;
                           "serviceName" := cr_Name cr ]}; ov_Tags overrides] in
  labels ← tryM (GetNodeLabels pod);
  let tags :=
    match labels with
    | Ok ls => MapMerge [tags; {[ "region" := default "" (ls !! LabelTopologyRegion);
                                  "zone" := default "" (ls !! LabelTopologyZone) ]}]
    | Err _ => tags
    end in
  let priority :=
    if compareTags tags (rs_PrimaryPreferTagSelector rs) then (DefaultPriority + 1)%Z
    else default DefaultPriority (ov_Priority overrides) in
  let member :=
    {| ID := id; Host := host; ArbiterOnly := false; BuildIndexes := true; Hidden := false;
       Priority := priority; Tags := None; SlaveDelay := None; SecondaryDelaySecs := None;
       Votes := DefaultVotes;
       Horizons := if (0 <? Z.of_nat (size horizons))%Z then Some horizons else None |} in
  mret (member_for_component (default "" (pod_Labels pod !! LabelComponent)) tags member).

Definition getConfigMemberForExternalNode (id : Z) (extNode : ExternalNode) : ConfigMember :=
  let base := if negb (en_ArbiterOnly extNode) then Some {[ "external" := "true" ]} else None in
  let extra := ov_Tags (en_Override extNode) in
  let tags :=
    if (Z.of_nat (size extra) =? 0)%Z then base else Some (extra ∪ default ∅ base) in
  let horizons :=
    (λ d, if negb (str_contains ":" d) then d +:+ ":" +:+ itoa DefaultMongoPort else d)
      <$> ov_Horizons (en_Override extNode) in
  {| ID := id; Host := HostPort extNode; ArbiterOnly := en_ArbiterOnly extNode;
     BuildIndexes := true; Hidden := false; Priority := en_Priority extNode; Tags := tags;
     SlaveDelay := None; SecondaryDelaySecs := None; Votes := en_Votes extNode;
     Horizons := if (0 <? Z.of_nat (size horizons))%Z then Some horizons else None |}.

(** The loop over the pods: [key] counts them. *)
Fixpoint pod_members (cr : PerconaServerMongoDB) (rs : ReplsetSpec) (key : Z)
    (members : ConfigMembers) (pods : list Pod) : M ConfigMembers :=
  match pods with
  | [] => mret members
  | pod :: pods' =>
      if (MaxMembers <=? key)%Z then mret members
      else
        member ← wrapM ("get config member for pod " +:+ pod_Name pod)
                   (getConfigMemberForPod cr rs key pod);
        pod_members cr rs (key + 1) (members ++ [member]) pods'
  end.

Definition by_priority (a b : ConfigMember) : bool := (Priority b <? Priority a)%Z.

(** The loop over the external nodes: [i] counts them. *)
Fixpoint external_members (memberC i : Z) (members : ConfigMembers) (exts : list ExternalNode)
    : ConfigMembers :=
  match exts with
  | [] => members
  | extNode :: exts' =>
      if (MaxMembers <=? memberC + i + 1)%Z then members
      else external_members memberC (i + 1)
             (members ++ [getConfigMemberForExternalNode (memberC + i) extNode]) exts'
  end.

Definition wanted_members (cr : PerconaServerMongoDB) (rs : ReplsetSpec) (pods : list Pod)
    : M ConfigMembers :=
  members ← pod_members cr rs 0 [] pods;
  let members := sort_slice by_priority members in
  mret (external_members (Z.of_nat (length members)) 0 members (rs_ExternalNodes rs)).

(** * The reconfigurations *)

(** [cnf.Version++] and [cli.WriteConfig(ctx, cnf, false)] with the new
    members; hands back the configuration and the call's result. *)
Definition bump_and_write (cnf : RSConfig) (members : ConfigMembers) : M (RSConfig * result unit) :=
  let cnf := with_version (with_members cnf members) (wrap64 (RS_Version cnf + 1)) in
  r ← tryM (cWriteConfig cnf false);
  mret (cnf, r).

(** Writes when the operation reported a change. *)
Definition write_if (changed : bool) (msg : string) (cnf : RSConfig) (members : ConfigMembers)
    : M RSConfig :=
  if changed then
    '(cnf, r) ← bump_and_write cnf members;
    match r with
    | Ok _ => mret cnf
    | Err e => throw (EWrap e msg)
    end
  else mret (with_members cnf members).

Definition isExternalArbiter (cm : ConfigMember) (rs : ReplsetSpec) : bool :=
  existsb (λ extNode, en_ArbiterOnly extNode && bool_decide (Host cm = HostPort extNode))
    (rs_ExternalNodes rs).

Definition find_member (cnf : RSConfig) (id : Z) : ConfigMember :=
  default zeroMember (head (filter (λ m, ID m = id) (Members cnf))).

Definition live_state (s : MemberState) : bool :=
  (s =? MemberStatePrimary)%Z || (s =? MemberStateSecondary)%Z || (s =? MemberStateArbiter)%Z.

Fixpoint countLive_loop (ms : list Member) (cnf : RSConfig) (rs : ReplsetSpec)
    (rsMembers : gmap string ReplsetMemberStatus) (n : Z) : gmap string ReplsetMemberStatus * Z :=
  match ms with
  | [] => (rsMembers, n)
  | member :: ms' =>
      let cm := find_member cnf (Id member) in
      if has_tag "external" cm then countLive_loop ms' cnf rs rsMembers n
      else if ArbiterOnly cm && isExternalArbiter cm rs then countLive_loop ms' cnf rs rsMembers n
      else
        let rsMembers :=
          match tag_get "podName" (Tags cm) with
          | Some podName =>
              <[podName := {| rms_Name := Name member; rms_State := State member;
                              rms_StateStr := StateStr member |}]> rsMembers
          | None => rsMembers
          end in
        countLive_loop ms' cnf rs rsMembers (if live_state (State member) then n + 1 else n)%Z
  end.
Definition countLiveMembers (rsStatus : Status) (cnf : RSConfig) (rs : ReplsetSpec)
    (rsMembers : gmap string ReplsetMemberStatus) : gmap string ReplsetMemberStatus * Z :=
  countLive_loop (St_Members rsStatus) cnf rs rsMembers 0.

(** What [updateConfigMembers] returns besides an error. *)
Abbreviation update_result := (gmap string ReplsetMemberStatus * Z * bool)%type.

(** Up to the hostname fix, which ends the call when it changed something. *)
Definition fix_hostnames (cnf : RSConfig) (members : ConfigMembers) (rsStatus : Status)
    : M (option unit) :=
  let '(ms, sm, changed) := FixMemberHostnames (Members cnf) members rsStatus in
  if changed then
    (match sm with
     | Some member =>
         if (State member =? MemberStatePrimary)%Z
         then wrapM "step down primary" (cStepDown 60 false) else mret tt
     | None => mret tt
     end);;
    write_if true "fix member hostname: write mongo config" cnf ms;;
    mret (Some tt)
  else mret None.

(** [RemoveOld] and its write; a NodeNotFound error ends the call quietly. *)
Definition remove_old (cnf : RSConfig) (members : ConfigMembers) : M (RSConfig * bool) :=
  let '(ms, changed) := RemoveOld (Members cnf) members in
  if changed then
    '(cnf, r) ← bump_and_write cnf ms;
    match r with
    | Ok _ => mret (cnf, true)
    | Err e =>
        if str_contains "NodeNotFound" (err_string e) then mret (cnf, false)
        else throw (EWrap e "delete: write mongo config")
    end
  else mret (with_members cnf ms, true).

Definition remove_arbiter_or_add (cnf : RSConfig) (members : ConfigMembers) (unsafePSA : bool)
    : M RSConfig :=
  let '(ms, removed) := RemoveArbiterIfNeeded (Members cnf) unsafePSA in
  if removed then write_if true "remove arbiter if needed: write mongo config" cnf ms
  else
    let '(ms, added) := AddNew ms members in
    write_if added "add new: write mongo config" cnf ms.

Definition update_votes (cnf : RSConfig) (members : ConfigMembers) (unsafePSA : bool)
    (primary : string) : M (RSConfig * bool) :=
  let '(ms, votesChanged, votesPending) := UpdateVotes (Members cnf) members unsafePSA primary in
  cnf ← write_if votesChanged "set votes: write mongo config" cnf ms;
  mret (cnf, votesPending).

(** Primary with a secondary and an arbiter. *)
Definition unsafe_psa (cr : PerconaServerMongoDB) (rs : ReplsetSpec) : bool :=
  cr_UnsafeReplsetSize cr && sz_Enabled (rs_Arbiter rs) && (sz_Size (rs_Arbiter rs) =? 1)%Z
    && negb (sz_Enabled (rs_NonVoting rs)) && (rs_Size rs =? 2)%Z.

(** From the wanted members on. *)
Definition reconfigure (cr : PerconaServerMongoDB) (rs : ReplsetSpec) (cnf : RSConfig)
    (rsStatus : Status) (members : ConfigMembers) : M update_result :=
  let unsafePSA := unsafe_psa cr rs in
  let quiet := mret (∅, 0%Z, false) in
  fixed ← fix_hostnames cnf members rsStatus;
  match fixed with
  | Some _ => quiet
  | None =>
      let '(ms, changed) := FixMemberConfigs (Members cnf) members in
      cnf ← write_if changed "fix member configurations: write mongo config" cnf ms;
      '(cnf, go_on) ← remove_old cnf members;
      if negb go_on then quiet
      else
        cnf ← remove_arbiter_or_add cnf members unsafePSA;
        let '(ms, changed) := ExternalNodesChanged (Members cnf) members in
        cnf ← write_if changed "update external nodes: write mongo config" cnf ms;
        let primary := match Primary rsStatus with Some p => Name p | None => "" end in
        '(cnf, votesPending) ← update_votes cnf members unsafePSA primary;
        rsStatus ← wrapM "unable to get replset members" cRSStatus;
        let '(rsMembers, liveMembers) := countLiveMembers rsStatus cnf rs ∅ in
        mret (rsMembers, liveMembers, votesPending)
  end.

Definition updateConfigMembers (cr : PerconaServerMongoDB) (rs : ReplsetSpec) : M update_result :=
  pods ← wrapM "get rs pods" (GetRSPods cr (rs_Name rs));
  cnf ← wrapM "get replset config" cReadConfig;
  rsStatus ← wrapM "get replset status" cRSStatus;
  members ← wanted_members cr rs pods;
  reconfigure cr rs cnf rsStatus members.
End reconcile.

(** * Which reconfigurations are asked for *)

(** The votes of at most one member change, member by member: the members stay
    where they are and one of them at most gains or loses its vote, or members
    are taken out and one of these at most had a vote, or one member is added
    at the end. *)
Inductive one_vote (a b : ConfigMembers) : Prop :=
| one_flip : length a = length b → flips a b ≤ 1 → one_vote a b
| one_removed : b `sublist_of` a → voters a ≤ voters b + 1 → one_vote a b
| one_added x : b = a ++ [x] → one_vote a b.

(** One reconfiguration: never to an empty member list, and changing the vote
    of at most one member (mongod refuses more), except where the arbiters of
    an unsafe PSA layout are dropped. *)
Definition reconf_step (psa : bool) (a b : ConfigMembers) : Prop :=
  b ≠ [] ∧ (one_vote a b ∨ (psa = true ∧ (RemoveArbiterIfNeeded a psa).1 = b)).

(** [chain psa c ws d]: the recorded writes [ws] lead from [c] to [d], each a
    reconfiguration of the one before it with the next version number, none
    of them forced. *)
Inductive chain (psa : bool) : RSConfig → wlog → RSConfig → Prop :=
| chain_nil c : chain psa c [] c
| chain_cons c ms ws d :
    reconf_step psa (Members c) ms →
    chain psa (with_version (with_members c ms) (wrap64 (RS_Version c + 1))) ws d →
    chain psa c ((with_version (with_members c ms) (wrap64 (RS_Version c + 1)), false) :: ws) d.

Lemma chain_app psa c ws d ws' e : chain psa c ws d → chain psa d ws' e → chain psa c (ws ++ ws') e.
Proof. induction 1; intros; cbn; [done|]. constructor; auto. Qed.

Lemma with_same_members c : with_members c (Members c) = c.
Proof. by destruct c. Qed.

(** A configuration the flow can go on with. *)
Definition sane (c : RSConfig) : Prop :=
  Members c ≠ [] ∧ NoDup (hosts (Members c)) ∧ votes_nonneg (Members c).

(** A run of [m] from the configuration [c] makes at most [n] writes, which
    form a chain, and when it succeeds the result and the configuration
    reached satisfy [Q]. *)
Definition logs {W A} (psa : bool) (n : nat) (c : RSConfig) (m : GoM (W * wlog) A)
    (Q : A → RSConfig → Prop) : Prop :=
  ∀ w, ∃ new d, (m w).2.2 = w.2 ++ new ∧ chain psa c new d ∧ length new ≤ n ∧
    ∀ a, (m w).1 = Ok a → Q a d.

Section logs.
Context {W : Type} (psa : bool).
Implicit Types (c d : RSConfig).

Lemma logs_ret {A} c (a : A) (Q : A → RSConfig → Prop) : Q a c → logs (W := W) psa 0 c (mret a) Q.
Proof.
  intros HQ w. exists [], c. rewrite app_nil_r. split_and!; [done|constructor|done|].
  intros b [= <-]. done.
Qed.
Lemma logs_throw {A} c e (Q : A → RSConfig → Prop) : logs (W := W) psa 0 c (throw e) Q.
Proof. intros w. exists [], c. rewrite app_nil_r. split_and!; [done|constructor|done|done]. Qed.
Lemma logs_silent {A} c (m : GoM (W * wlog) A) :
  silent m → logs psa 0 c m (λ _ d, d = c).
Proof.
  intros Hm w. exists [], c. rewrite app_nil_r. split_and!; [apply Hm|constructor|done|done].
Qed.
Lemma logs_bind {A B} n k c (m : GoM (W * wlog) A) (f : A → GoM (W * wlog) B) Q R :
  logs psa n c m Q → (∀ a d, Q a d → logs psa k d (f a) R) → logs psa (n + k) c (m ≫= f) R.
Proof.
  intros Hm Hf w. destruct (Hm w) as (new & d & E & Hc & Hn & HQ). unfold mbind, gom_bind.
  destruct (m w) as [[a|e] w1]; cbn in *.
  - destruct (Hf a d (HQ _ eq_refl) w1) as (new' & d' & E' & Hc' & Hn' & HR).
    exists (new ++ new'), d'. rewrite E', E, app_assoc, length_app.
    split_and!; [done|by eapply chain_app|lia|done].
  - exists new, d. split_and!; [done|done|lia|done].
Qed.
Lemma logs_weaken {A} n k c (m : GoM (W * wlog) A) (Q R : A → RSConfig → Prop) :
  logs psa n c m Q → n ≤ k → (∀ a d, Q a d → R a d) → logs psa k c m R.
Proof.
  intros Hm Hle HQ w. destruct (Hm w) as (new & d & ? & ? & ? & ?). exists new, d.
  split_and!; [done|done|lia|eauto].
Qed.
Lemma logs_wrap {A} n c msg (m : GoM (W * wlog) A) Q : logs psa n c m Q → logs psa n c (wrapM msg m) Q.
Proof.
  intros Hm w. destruct (Hm w) as (new & d & E & ? & ? & HQ). exists new, d. unfold wrapM.
  destruct (m w) as [[a|e] w1]; cbn in *; split_and!; done.
Qed.
Lemma logs_if {A} n c (b : bool) (m1 m2 : GoM (W * wlog) A) Q :
  (b = true → logs psa n c m1 Q) → (b = false → logs psa n c m2 Q) →
  logs psa n c (if b then m1 else m2) Q.
Proof. destruct b; auto. Qed.
End logs.

Section writes.
Context {W : Type} (C : Client W) (psa : bool).
Local Existing Instance logged_client.

Lemma logs_bump c ms :
  reconf_step psa (Members c) ms →
  logs psa 1 c (bump_and_write (W := W * wlog) c ms)
    (λ r d, d = r.1 ∧ r.1 = with_version (with_members c ms) (wrap64 (RS_Version c + 1))).
Proof.
  intros Hs [w l].
  exists [(with_version (with_members c ms) (wrap64 (RS_Version c + 1)), false)],
    (with_version (with_members c ms) (wrap64 (RS_Version c + 1))).
  unfold bump_and_write, tryM, mbind, gom_bind, mret, gom_ret. cbn. unfold record_write. cbn.
  destruct (cWriteConfig _ _ w) as [r w1]. cbn.
  split_and!; [done|by constructor; [|constructor]|done|]. intros a [= <-]. done.
Qed.

Lemma logs_write_if (b : bool) msg c ms :
  (b = true → reconf_step psa (Members c) ms) → (b = false → ms = Members c) →
  logs psa 1 c (write_if (W := W * wlog) b msg c ms) (λ c' d, d = c' ∧ Members c' = ms).
Proof.
  intros Ht Hf. unfold write_if. destruct b.
  - apply (logs_bind _ 1 0 _ _ _ _ _ (logs_bump _ _ (Ht eq_refl))).
    intros [c' [[]|e]] d [-> E]; cbn in *; [|apply logs_throw].
    apply logs_ret. by rewrite E.
  - rewrite (Hf eq_refl), with_same_members.
    apply (logs_weaken _ 0 1 _ _ (λ c' d, d = c' ∧ Members c' = Members c));
      [by apply logs_ret|lia|done].
Qed.
End writes.

(** * The steps of the reconciliation keep the configuration sane *)

(** No vote flips where each member votes as the one in its place. *)
Lemma flips_pointwise m m' :
  Forall2 (λ x y, voting y = voting x) m m' → flips m m' = 0.
Proof.
  unfold flips. induction 1 as [|x y m m' E _ IH]; [done|]. cbn. unfold flipped at 1. cbn.
  by rewrite E, xorb_nilpotent.
Qed.
Lemma Forall2_alter_self {A} (R : A → A → Prop) (f : A → A) i l :
  (∀ x, R x x) → (∀ x, R x (f x)) → Forall2 R l (alter f i l).
Proof.
  intros Hr Hf. revert i. induction l as [|x l IH]; intros [|i]; constructor; auto.
  by apply Forall_Forall2_diag, Forall_forall.
Qed.
Lemma Forall2_map_self {A} (R : A → A → Prop) (f : A → A) l :
  (∀ x, R x (f x)) → Forall2 R l (map f l).
Proof. intros Hf. induction l; by constructor. Qed.
Lemma one_vote_pointwise m m' : Forall2 (λ x y, voting y = voting x) m m' → one_vote m m'.
Proof. intros H. apply one_flip; [by eapply Forall2_length|]. rewrite flips_pointwise by done. lia. Qed.

Lemma FixMemberHostnames_step psa m members st m' sm :
  m ≠ [] → FixMemberHostnames m members st = (m', sm, true) → reconf_step psa m m'.
Proof.
  intros Hm E. assert (∃ i host, m' = alter (λ mem, set_Host mem host) i m) as (i & host & ->).
  { unfold FixMemberHostnames in E. case_match; [done|].
    pose proof (FixHost_pass_spec (pod_hosts members) MemberStatePrimary m (St_Members st)).
    pose proof (FixHost_pass_spec (pod_hosts members) MemberStateSecondary m (St_Members st)).
    repeat case_match; simplify_eq; naive_solver. }
  split.
  - intros E'. apply (f_equal length) in E'. rewrite length_alter in E'. by destruct m.
  - left. by apply one_vote_pointwise, Forall2_alter_self.
Qed.

Lemma FixConfig_one_same cm x :
  let y := (FixConfig_one cm x).1 in
  Host y = Host x ∧ Votes y = Votes x ∧ ((FixConfig_one cm x).2 = false → y = x).
Proof. unfold FixConfig_one. repeat case_match; simplify_eq; split_and!; done. Qed.

Lemma FixMemberConfigs_step psa c members ms b :
  sane c → FixMemberConfigs (Members c) members = (ms, b) →
  reconf_step psa (Members c) ms ∧ (b = false → ms = Members c) ∧
  NoDup (hosts ms) ∧ votes_nonneg ms.
Proof.
  intros (Hne & Hnd & Hv). unfold FixMemberConfigs.
  destruct (Z.ltb_spec (Z.of_nat (length (Members c))) 1) as [Hl|Hl].
  { destruct (Members c); [done|cbn in Hl; lia]. }
  set (cm := go_map_of _ members). intros [= <- <-].
  pose proof (FixConfig_one_same cm) as Hf. split_and!.
  - split.
    + destruct (Members c); done.
    + left. apply one_vote_pointwise, Forall2_map_self. intros x. unfold voting.
      by destruct (Hf x) as (_ & -> & _).
  - intros Hb. induction (Members c) as [|x l IH]; [done|]. cbn in Hb |- *.
    apply orb_false_elim in Hb as [Hx Hb]. destruct (Hf x) as (_ & _ & ->); [|done].
    f_equal. destruct l; [done|]. apply IH; [done|..|cbn; lia|done].
    + by inversion Hnd.
    + intros y Hy. apply Hv. by right.
  - unfold hosts. assert (Host <$> map (λ x, (FixConfig_one cm x).1) (Members c) = hosts (Members c)) as ->; [|done].
    unfold hosts. clear. induction (Members c) as [|x l IH]; [done|]. cbn.
    destruct (FixConfig_one_same cm x) as (-> & _ & _). by f_equal.
  - intros y (x & -> & Hx)%list_elem_of_fmap. destruct (Hf x) as (_ & -> & _). by apply Hv.
Qed.

Lemma count_sublist {A} (p : A → bool) l k : l `sublist_of` k → count p l ≤ count p k.
Proof. induction 1; cbn; lia. Qed.
Lemma hosts_sublist l k : l `sublist_of` k → NoDup (hosts k) → NoDup (hosts l).
Proof. intros Hs Hk. eapply sublist_NoDup; [exact Hk|]. by apply fmap_sublist. Qed.
Lemma nonneg_sublist l k : l `sublist_of` k → votes_nonneg k → votes_nonneg l.
Proof. intros Hs Hk x Hx. apply Hk. by eapply elem_of_sublist. Qed.

Lemma RemoveOld_step psa c members ms b :
  sane c → RemoveOld (Members c) members = (ms, b) →
  reconf_step psa (Members c) ms ∧ (b = false → ms = Members c) ∧
  NoDup (hosts ms) ∧ votes_nonneg ms.
Proof.
  intros (Hne & Hnd & Hv) E. pose proof (RemoveOld_voters _ _ _ _ E) as Hvo.
  assert (b = false → ms = Members c) as Hb by (intros ->; by apply RemoveOld_done in E as [-> _]).
  apply RemoveOld_loop_spec in E as (Hs & Hn & _); [|lia].
  split_and!; [|done|..].
  - split; [auto|]. left. by apply one_removed.
  - by eapply hosts_sublist.
  - by eapply nonneg_sublist.
Qed.

Lemma RemoveArbiter_step psa c ms :
  sane c → RemoveArbiterIfNeeded (Members c) psa = (ms, true) →
  reconf_step psa (Members c) ms ∧ NoDup (hosts ms) ∧ votes_nonneg ms.
Proof.
  intros (Hne & Hnd & Hv) E.
  assert (psa = true) as -> by (unfold RemoveArbiterIfNeeded in E; by destruct psa).
  assert (ms = RemoveArbiter_loop (length (Members c)) (Members c)) as ->.
  { unfold RemoveArbiterIfNeeded in E. by repeat case_match; simplify_eq. }
  destruct (RemoveArbiter_loop_spec (length (Members c)) (Members c) ltac:(lia))
    as (Hs & _ & _ & Hn). split_and!.
  - split; [auto|]. right. split; [done|]. by rewrite E.
  - by eapply hosts_sublist.
  - by eapply nonneg_sublist.
Qed.

Lemma RemoveArbiter_false psa m ms : RemoveArbiterIfNeeded m psa = (ms, false) → ms = m.
Proof. unfold RemoveArbiterIfNeeded. repeat case_match; intros; by simplify_eq. Qed.

Lemma AddNew_step psa c members ms b :
  sane c → votes_nonneg members → AddNew (Members c) members = (ms, b) →
  (b = true → reconf_step psa (Members c) ms) ∧ (b = false → ms = Members c) ∧
  NoDup (hosts ms) ∧ votes_nonneg ms.
Proof.
  intros (Hne & Hnd & Hv) Hm [(-> & -> & _)|(-> & l1 & x & l2 & Em & Hx & _ & ->)]%AddNew_cases.
  { by split_and!. }
  split_and!; [|done|..].
  - intros _. split; [by destruct (Members c)|]. left. by eapply one_added.
  - rewrite hosts_snoc. apply NoDup_app. split_and!; [done|set_solver|apply NoDup_singleton].
  - intros y [Hy| ->%list_elem_of_singleton]%elem_of_app; [by apply Hv|].
    apply (Hm x). rewrite Em. set_solver.
Qed.

Lemma ExternalNodes_loop_spec cm m :
  (ExternalNodes_loop cm m = (m, false)) ∨
  ∃ i x v p t, m !! i = Some x ∧ cm !! Host x = Some (v, p, t) ∧
    ExternalNodes_loop cm m = (<[i := set_Tags (set_VP x v p) t]> m, true).
Proof.
  induction m as [|x m IH]; cbn; [by left|].
  destruct IH as [E|(i & y & v & p & t & Hi & Hc & E)]; rewrite E;
    destruct (cm !! Host x) as [[[v' p'] t']|] eqn:Ex; [case_match|..];
    try (by left); try (by right; exists 0, x, v', p', t');
    try (by right; exists (S i), y, v, p, t).
  case_match; [by right; exists 0, x, v', p', t'|by right; exists (S i), y, v, p, t].
Qed.

Lemma ExternalNodes_step psa c members ms b :
  sane c → votes_nonneg members → ExternalNodesChanged (Members c) members = (ms, b) →
  (b = true → reconf_step psa (Members c) ms) ∧ (b = false → ms = Members c) ∧
  NoDup (hosts ms) ∧ votes_nonneg ms.
Proof.
  intros (Hne & Hnd & Hv) Hm. unfold ExternalNodesChanged. set (cm := go_map_of _ members).
  destruct (ExternalNodes_loop_spec cm (Members c)) as [->|(i & x & v & p & t & Hi & Hc & ->)];
    intros [= <- <-]; [by split_and!|].
  assert (0 ≤ v)%Z as Hv0.
  { unfold cm in Hc. apply go_map_of_Some in Hc as (y & Hy & E). case_match; simplify_eq.
    by apply Hm. }
  split_and!; [|done|..].
  - intros _. split.
    + intros E. apply (f_equal length) in E. rewrite length_insert in E. by destruct (Members c).
    + left. apply one_flip; [by rewrite length_insert|]. apply (flips_le_one _ _ i).
      intros j y z Hj Hy Hz. rewrite list_lookup_insert_ne in Hz by done. by simplify_eq.
  - unfold hosts. rewrite list_fmap_insert. rewrite list_insert_id; [done|].
    rewrite list_lookup_fmap, Hi. done.
  - intros y [j Hj]%list_elem_of_lookup. apply list_lookup_insert_Some in Hj as [(<- & <- & _)|[_ Hj]].
    + done.
    + apply Hv. by eapply list_elem_of_lookup_2.
Qed.

(** * The chain of reconfigurations of one reconciliation *)

Section update.
Context {W : Type} (K : K8sClient W) (C : Client W) {Y : Yaml} {G : GoSort} {GL : GoSortLaws G}.
Context (cr : PerconaServerMongoDB) (rs : ReplsetSpec).
Abbreviation psa := (unsafe_psa cr rs).
Local Existing Instance logged_k8s.
Local Existing Instance logged_client.

Definition external_votes_nonneg : Prop := ∀ e, e ∈ rs_ExternalNodes rs → (0 ≤ en_Votes e)%Z.

Lemma member_for_component_votes comp tags m :
  (0 ≤ Votes m)%Z → (0 ≤ Votes (member_for_component comp tags m))%Z.
Proof. unfold member_for_component. intros. repeat case_match; cbn; lia. Qed.

Lemma logs_member id pod c :
  logs psa 0 c (getConfigMemberForPod cr rs id pod) (λ m d, d = c ∧ (0 ≤ Votes m)%Z).
Proof.
  unfold getConfigMemberForPod.
  apply (logs_bind _ 0 0 _ _ _ (λ _ d, d = c)); [by apply logs_silent; silence|]. intros host ? ->.
  apply (logs_bind _ 0 0 _ _ _ (λ _ d, d = c)); [by apply logs_silent; silence|]. intros labels ? ->.
  apply logs_ret. split; [done|]. by apply member_for_component_votes.
Qed.

Lemma votes_nonneg_snoc l x : votes_nonneg l → (0 ≤ Votes x)%Z → votes_nonneg (l ++ [x]).
Proof. intros Hl Hx y [?| ->%list_elem_of_singleton]%elem_of_app; auto. Qed.

Lemma logs_pod_members pods key l c :
  votes_nonneg l →
  logs psa 0 c (pod_members cr rs key l pods) (λ ms d, d = c ∧ votes_nonneg ms).
Proof.
  revert key l; induction pods as [|pod pods IH]; intros key l Hl; cbn; [by apply logs_ret|].
  case_match; [by apply logs_ret|].
  eapply (logs_bind _ 0 0); [apply logs_wrap, logs_member|].
  intros m ? [-> Hm]. by apply IH, votes_nonneg_snoc.
Qed.

Lemma external_members_nonneg n i l exts :
  (∀ e, e ∈ exts → (0 ≤ en_Votes e)%Z) → votes_nonneg l → votes_nonneg (external_members n i l exts).
Proof.
  revert i l; induction exts as [|e exts IH]; intros i l He Hl; cbn; [done|].
  case_match; [done|]. apply IH; [set_solver|]. apply votes_nonneg_snoc; [done|].
  apply (He e). set_solver.
Qed.

Lemma logs_wanted pods c :
  external_votes_nonneg →
  logs psa 0 c (wanted_members cr rs pods) (λ ms d, d = c ∧ votes_nonneg ms).
Proof.
  intros He. unfold wanted_members. eapply (logs_bind _ 0 0); [apply logs_pod_members; by intros ? ?%elem_of_nil|].
  intros ms ? [-> Hms]. apply logs_ret. split; [done|]. apply external_members_nonneg; [done|].
  intros x Hx. apply Hms. by rewrite sort_perm in Hx.
Qed.

Lemma logs_fix_hostnames c members st ms sm :
  sane c → FixMemberHostnames (Members c) members st = (ms, sm, true) →
  logs psa 1 c (fix_hostnames c members st) (λ r _, r = Some tt).
Proof.
  intros (Hne & _ & _) E. unfold fix_hostnames. rewrite E.
  apply (logs_bind _ 0 1 _ _ _ (λ _ d, d = c)); [by apply logs_silent; silence|]. intros _ ? ->.
  apply (logs_bind _ 1 0 _ _ _ (λ _ _, True)); [|intros _ d _; by apply logs_ret].
  eapply logs_weaken; [apply (logs_write_if C); [|done]|lia|done].
  intros _. by eapply FixMemberHostnames_step.
Qed.

(** A write after which the flow goes on with a sane configuration. *)
Lemma logs_write_sane (b : bool) msg c ms :
  (b = true → reconf_step psa (Members c) ms) → (b = false → ms = Members c) →
  ms ≠ [] → NoDup (hosts ms) → votes_nonneg ms →
  logs psa 1 c (write_if b msg c ms) (λ c' d, d = c' ∧ sane d).
Proof.
  intros Ht Hf Hne Hnd Hv. eapply logs_weaken; [apply (logs_write_if C); done|lia|].
  intros c' d [-> E]. split; [done|]. unfold sane. by rewrite E.
Qed.

Lemma step_ne a b (ch : bool) :
  (ch = true → reconf_step psa a b) → (ch = false → b = a) → a ≠ [] → b ≠ [].
Proof. intros Ht Hf Ha. destruct ch; [by apply Ht|by rewrite Hf]. Qed.

Lemma logs_remove_old c members :
  sane c → logs psa 1 c (remove_old c members) (λ r d, r.2 = true → d = r.1 ∧ sane d).
Proof.
  intros Hs. unfold remove_old. destruct (RemoveOld (Members c) members) as [ms ch] eqn:E.
  destruct (RemoveOld_step psa _ _ _ _ Hs E) as (Hst & Hf & Hnd & Hv). destruct ch.
  - eapply (logs_bind _ 1 0); [by apply (logs_bump C)|].
    intros [c' [u|e]] d [-> Ed]; cbn in *.
    + apply logs_ret. intros _. split; [done|]. rewrite Ed. split_and!; [apply Hst|done..].
    + apply logs_if; intros _; [by apply logs_ret|apply logs_throw].
  - apply (logs_weaken _ 0 1 _ _ (λ r d, d = r.1 ∧ r.1 = c)); [|lia|by intros a d [-> ->]].
    apply logs_ret. by rewrite (Hf eq_refl), with_same_members.
Qed.

Lemma logs_arbiter_or_add c members :
  sane c → votes_nonneg members →
  logs psa 1 c (remove_arbiter_or_add c members psa) (λ c' d, d = c' ∧ sane d).
Proof.
  intros Hs Hm. unfold remove_arbiter_or_add.
  destruct (RemoveArbiterIfNeeded (Members c) psa) as [ms removed] eqn:E. destruct removed.
  - destruct (RemoveArbiter_step _ _ _ Hs E) as (Hst & Hnd & Hv).
    apply logs_write_sane; try done. apply Hst.
  - apply RemoveArbiter_false in E as ->.
    destruct (AddNew (Members c) members) as [ms added] eqn:E.
    destruct (AddNew_step psa _ _ _ _ Hs Hm E) as (Ht & Hf & Hnd & Hv).
    apply logs_write_sane; try done. apply (step_ne _ _ _ Ht Hf), Hs.
Qed.

Lemma UpdateVotes_step c members primary ms ch pending :
  sane c → UpdateVotes (Members c) members psa primary = (ms, ch, pending) →
  (ch = true → reconf_step psa (Members c) ms) ∧ (ch = false → ms = Members c).
Proof.
  intros (Hne & Hnd & Hv) E. unfold UpdateVotes in E.
  destruct (limitVotingChanges _ (Members c) primary) as [m2 pend] eqn:El. injection E as <- <- <-.
  split; [intros _|intros H; apply negb_false_iff, bool_decide_eq_true in H; done].
  assert (Forall2 same_but_votes (Members c) m2 ∧ flips (Members c) m2 ≤ 1) as [Hs Hf].
  { destruct (update_cases (Members c) members psa primary Hnd Hv m2 pend El)
      as [(-> & -> & Hf)|(-> & Hf & a & pa & xa & Hpa & Hxa & Hfl & Hya & Hs & Hoth & _)].
    - split; [apply setVotes_same|done].
    - split; [done|]. by eapply flips_le_one. }
  split; [|left; apply one_flip; [by eapply Forall2_length|done]]. intros ->. by inversion Hs.
Qed.

Lemma logs_update_votes c members primary :
  sane c → logs psa 1 c (update_votes c members psa primary) (λ _ _, True).
Proof.
  intros Hs. unfold update_votes.
  destruct (UpdateVotes (Members c) members psa primary) as [[ms ch] pending] eqn:E.
  destruct (UpdateVotes_step c members primary ms ch pending Hs E) as [Ht Hf].
  eapply (logs_bind _ 1 0); [by apply (logs_write_if C)|]. intros c' d _. by apply logs_ret.
Qed.

Lemma logs_reconfigure c members st :
  sane c → votes_nonneg members →
  logs psa 5 c (reconfigure cr rs c st members) (λ _ _, True).
Proof.
  intros Hs Hm. unfold reconfigure.
  destruct (FixMemberHostnames (Members c) members st) as [[ms0 sm] changed] eqn:E0.
  destruct changed.
  { apply (logs_weaken _ (1 + 0) 5 _ _ (λ _ _, True)); [|lia|done].
    eapply logs_bind; [by eapply logs_fix_hostnames|]. intros r d ->. by apply logs_ret. }
  apply (logs_bind _ 0 5 _ _ _ (λ r d, r = None ∧ d = c)).
  { unfold fix_hostnames. rewrite E0. by apply logs_ret. }
  intros ? ? [-> ->].
  destruct (FixMemberConfigs (Members c) members) as [ms changed] eqn:E1.
  destruct (FixMemberConfigs_step psa _ _ _ _ Hs E1) as (Hst & Hf & Hnd & Hv).
  eapply (logs_bind _ 1 4); [apply logs_write_sane; try done; apply Hst|].
  clear dependent c ms changed. intros c ? [-> Hs]. cbv beta.
  eapply (logs_bind _ 1 3); [by apply logs_remove_old|]. intros [c1 go] d Hgo.
  apply logs_if; intros Hg; [by apply (logs_weaken _ 0 3 _ _ (λ _ _, True)); [apply logs_ret|lia|]|].
  destruct (Hgo (proj1 (negb_false_iff _) Hg)) as [-> Hs1]. cbn [fst] in *.
  eapply (logs_bind _ 1 2); [by apply logs_arbiter_or_add|]. intros c2 ? [-> Hs2]. cbv beta.
  destruct (ExternalNodesChanged (Members c2) members) as [ms2 ch2] eqn:E2.
  destruct (ExternalNodes_step psa _ _ _ _ Hs2 Hm E2) as (Ht2 & Hf2 & Hnd2 & Hv2).
  eapply (logs_bind _ 1 1).
  { apply logs_write_sane; try done. apply (step_ne _ _ _ Ht2 Hf2), Hs2. }
  intros c3 ? [-> Hs3]. cbv beta.
  eapply (logs_bind _ 1 0); [by apply logs_update_votes|]. intros [c4 pend] d _. cbv beta.
  eapply (logs_bind _ 0 0); [apply logs_wrap, logs_silent; silence|]. intros st2 ? ->.
  destruct (countLiveMembers st2 c4 rs ∅). by apply logs_ret.
Qed.

End update.

(** A replica set whose specification has lost its pods: one member goes, and
    of the two that stay one loses its vote. *)
Definition demo_rsconfig : RSConfig :=
  {| RS_ID := "rs0"; RS_Version := 7; Members := demo_config; Configsvr := false;
     ProtocolVersion := 1; RS_Settings := zeroSettings;
     WriteConcernMajorityJournalDefault := true |}.
Definition demo_run (cr : PerconaServerMongoDB) (rs : ReplsetSpec) : wlog :=
  (updateConfigMembers (K := logged_k8s (emptyK8s unit))
     (C := logged_client (fixed_client unit demo_rsconfig (demo_status [])))
     (Y := emptyYaml) (G := insertion_GoSort) cr rs (tt, [])).2.2.

