(* ===== verification/SystemUsers.v ===== *)
(** System roles and users: [createOrUpdateSystemUsers] and what it uses, in
    pkg/controller/perconaservermongodb/{mgo,secrets,connections}.go. *)
From S2P Require Import Prelude ReplsetModels MongoClient Api GoSort Kube Hosts.

(** * Credentials *)
Definition RoleDatabaseAdmin : string := "databaseAdmin".
Definition RoleClusterAdmin : string := "clusterAdmin".
Definition RoleUserAdmin : string := "userAdmin".
Definition RoleClusterMonitor : string := "clusterMonitor".
Definition RoleBackup : string := "backup".
Definition RoleSearch : string := "searchCoordinator".

(** [EnvKeyUsername] and [EnvKeyPassword] share a prefix per role. *)
Definition env_prefix (role : string) : option string :=
  if bool_decide (role = RoleDatabaseAdmin) then Some "MONGODB_DATABASE_ADMIN"
  else if bool_decide (role = RoleClusterAdmin) then Some "MONGODB_CLUSTER_ADMIN"
  else if bool_decide (role = RoleUserAdmin) then Some "MONGODB_USER_ADMIN"
  else if bool_decide (role = RoleClusterMonitor) then Some "MONGODB_CLUSTER_MONITOR"
  else if bool_decide (role = RoleBackup) then Some "MONGODB_BACKUP"
  else if bool_decide (role = RoleSearch) then Some "MONGODB_SEARCH"
  else None.
Definition EnvKeyUsername (role : string) : string :=
  match env_prefix role with Some p => p +:+ "_USER" | None => "" end.
Definition EnvKeyPassword (role : string) : string :=
  match env_prefix role with Some p => p +:+ "_PASSWORD" | None => "" end.

Record Credentials := { cred_Username : string; cred_Password : string; cred_AuthSource : string }.

Definition getCredentials (secret : gmap string string) (role : string) : result Credentials :=
  let envKeyUser := EnvKeyUsername role in
  let envKeyPass := EnvKeyPassword role in
  if bool_decide (envKeyUser = "") || bool_decide (envKeyPass = "") then
    Err (ENew ("invalid role " +:+ role))
  else
    let username := default "" (secret !! envKeyUser) in
    let password := default "" (secret !! envKeyPass) in
    if bool_decide (username = "") || bool_decide (password = "") then
      Err (ENew ("can't find credentials for role " +:+ role))
    else Ok {| cred_Username := username; cred_Password := password; cred_AuthSource := "admin" |}.

(** * Roles *)
Definition admin_role (role : string) : Role :=
  {| R_Role := role; R_DB := "admin"; R_Roles := []; R_Privileges := []; R_AuthRestrictions := [] |}.
Definition db_role (db role : string) : Role :=
  {| R_Role := role; R_DB := db; R_Roles := []; R_Privileges := []; R_AuthRestrictions := [] |}.

Section roles.
Context {V : Versions}.

Definition getRoles (cr : PerconaServerMongoDB) (role : string) : list Role :=
  if bool_decide (role = RoleDatabaseAdmin) then
    [admin_role "readWriteAnyDatabase"; admin_role "readAnyDatabase"; admin_role "restore";
     admin_role "backup"; admin_role "dbAdminAnyDatabase"; admin_role RoleClusterMonitor]
  else
    let roles :=
      if bool_decide (role = RoleClusterMonitor) then
        [admin_role "explainRole"; db_role "local" "read"] ++
        (if (0 <=? CompareVersion cr "1.20.0")%Z then [admin_role "directShardOperations"] else [])
      else if bool_decide (role = RoleBackup) then
        [admin_role "readWrite"; admin_role RoleClusterMonitor; admin_role "restore";
         admin_role "pbmAnyAction"]
      else if bool_decide (role = RoleClusterAdmin) then
        (if (0 <=? CompareVersion cr "1.20.0")%Z then [admin_role "directShardOperations"] else [])
      else [] in
    roles ++ [admin_role role].

Definition db_collection (db collection : string) : gmap string (string + bool) :=
  {[ "db" := inl db; "collection" := inl collection ]}.

(** The privileges of explainRole, by operator version. *)
Definition explain_privileges (cr : PerconaServerMongoDB) : list RolePrivilege :=
  let privileges :=
    if (0 <=? CompareVersion cr "1.15.0")%Z then
      [ {| Resource := db_collection "" "";
           Actions := ["listIndexes"; "listCollections"; "dbStats"; "dbHash"; "collStats"; "find"] |};
        {| Resource := db_collection "" "system.profile";
           Actions := ["indexStats"; "dbStats"; "collStats"] |} ]
    else
      [ {| Resource := db_collection "" "system.profile";
           Actions := ["listIndexes"; "listCollections"; "dbStats"; "dbHash"; "collStats"; "find"] |} ] in
  if (0 <=? CompareVersion cr "1.16.0")%Z then
    privileges ++ [ {| Resource := db_collection "admin" "system.version"; Actions := ["find"] |} ]
  else privileges.
End roles.

(** * Comparing what is wanted with what there is *)
Definition compareResources (x y : gmap string (string + bool)) : bool :=
  if negb (Z.of_nat (size x) =? Z.of_nat (size y))%Z then false
  else forallb (λ '(k, v), bool_decide (y !! k = Some v)) (map_to_list x).

Definition compareSlices (x y : list string) : bool :=
  if negb (Z.of_nat (length x) =? Z.of_nat (length y))%Z then false
  else
    let xMap := go_map_of (λ v, Some (v, tt)) x in
    forallb (λ v, match xMap !! v with Some _ => true | None => false end) y.

Fixpoint privileges_differ (x y : list RolePrivilege) : bool :=
  match x, y with
  | p :: x', q :: y' =>
      if negb (compareResources (Resource p) (Resource q)) || negb (compareSlices (Actions p) (Actions q))
      then true else privileges_differ x' y'
  | _, _ => false
  end.
Definition privilegesChanged (x y : list RolePrivilege) : bool :=
  if negb (Z.of_nat (length x) =? Z.of_nat (length y))%Z then true else privileges_differ x y.

Definition role_less (a b : Role) : bool :=
  String.ltb (R_DB a) (R_DB b) || String.ltb (R_Role a) (R_Role b).

Definition compareRoles {G : GoSort} (x y : list Role) : bool :=
  if negb (Z.of_nat (length x) =? Z.of_nat (length y))%Z then false
  else bool_decide (sort_slice role_less x = sort_slice role_less y).

(** * Connections: the interface [MongoClientProvider] *)
Class MongoClientProvider (W : Type) := {
  mp_Mongo : PerconaServerMongoDB → ReplsetSpec → string → bool → GoM W (Client W); (* without retry? *)
  mp_Mongos : PerconaServerMongoDB → string → GoM W (Client W);
  mp_Standalone : PerconaServerMongoDB → string → string → bool → GoM W (Client W);
  mp_Disconnect : GoM W unit
}.

(** * Creating and updating *)
Section system_users.
Context {W : Type} {K : K8sClient W} {V : Versions} {G : GoSort}.
Abbreviation M := (GoM W).

Definition UserSecretName (cr : PerconaServerMongoDB) : string :=
  if (0 <=? CompareVersion cr "1.5.0")%Z then "internal-" +:+ cr_Name cr +:+ "-users"
  else cr_SecretsUsers cr.

Definition getInternalCredentials (cr : PerconaServerMongoDB) (role : string) : M Credentials :=
  secret ← wrapM "failed to get user secret" (wrapM "get user secrets"
             (k8s_get_secret (cr_Namespace cr) (UserSecretName cr)));
  liftR (getCredentials secret role).

Section with_client.
Context {C : Client W}.

Definition createOrUpdateSystemRoles (role : string) (privileges : list RolePrivilege) : M unit :=
  roleInfo ← wrapM "mongo get role" (cGetRole "admin" role);
  let mo := {| R_Role := role; R_DB := ""; R_Roles := []; R_Privileges := privileges;
               R_AuthRestrictions := [] |} in
  match roleInfo with
  | None => wrapM ("create role " +:+ role) (cCreateRole "admin" mo)
  | Some info =>
      if privilegesChanged privileges (R_Privileges info)
      then wrapM "update role" (cUpdateRole "admin" mo)
      else mret tt
  end.

(** The body of the loop over the system users. *)
Definition ensure_system_user (cr : PerconaServerMongoDB) (role : string) : M unit :=
  got ← tryM (getInternalCredentials cr role);
  match got with
  | Err _ => mret tt   (* logged *)
  | Ok creds =>
      user ← wrapM "get user info" (cGetUserInfo (cred_Username creds) "admin");
      match user with
      | None =>
          wrapM ("failed to create user " +:+ role)
            (cCreateUser "admin" (cred_Username creds) (cred_Password creds) (getRoles cr role))
      | Some u =>
          if negb (compareRoles (U_Roles u) (getRoles cr role)) then
            wrapM ("failed to create user " +:+ role)
              (cUpdateUserRoles "admin" (cred_Username creds) (getRoles cr role))
          else mret tt
      end
  end.

Definition system_users (cr : PerconaServerMongoDB) : list string :=
  [RoleClusterAdmin; RoleClusterMonitor; RoleBackup; RoleDatabaseAdmin] ++
  (if cr_SearchEnabled cr then [RoleSearch] else []).

Definition pbm_privileges : list RolePrivilege :=
  [ {| Resource := {[ "anyResource" := inr true ]}; Actions := ["anyAction"] |} ].

Definition ensure_system_roles (cr : PerconaServerMongoDB) : M unit :=
  (if (0 <=? CompareVersion cr "1.12.0")%Z
   then wrapM "create or update system role"
          (createOrUpdateSystemRoles "explainRole" (explain_privileges cr))
   else mret tt);;
  wrapM "create or update system role" (createOrUpdateSystemRoles "pbmAnyAction" pbm_privileges).

(** What [createOrUpdateSystemUsers] does once it has a connection. *)
Definition ensure_system_users (cr : PerconaServerMongoDB) : M unit :=
  ensure_system_roles cr;;
  mapM_list (ensure_system_user cr) (system_users cr).
End with_client.

Definition createOrUpdateSystemUsers {P : MongoClientProvider W}
    (cr : PerconaServerMongoDB) (replset : ReplsetSpec) : M unit :=
  cli ← wrapM "failed to get mongo client" (mp_Mongo cr replset RoleUserAdmin false);
  deferM mp_Disconnect (ensure_system_users (C := cli) cr).
End system_users.

(** * Theorems: the comparisons *)

Lemma size_dom_eq (x y : gmap string (string + bool)) :
  size x = size y → (∀ k v, x !! k = Some v → y !! k = Some v) → x = y.
Proof.
  intros Hs Hsub. apply map_subseteq_size_eq; [|lia]. apply map_subseteq_spec. done.
Qed.

Lemma compareResources_spec x y : compareResources x y = true ↔ x = y.
Proof.
  unfold compareResources. destruct (Z.eqb_spec (Z.of_nat (size x)) (Z.of_nat (size y))) as [E|E]; cbn.
  - rewrite forallb_forall. split.
    + intros H. apply size_dom_eq; [lia|]. intros k v Hk.
      specialize (H (k, v)). rewrite <- list_elem_of_In, elem_of_map_to_list in H.
      by apply H, bool_decide_eq_true in Hk.
    + intros -> [k v] Hk. rewrite <- list_elem_of_In, elem_of_map_to_list in Hk.
      by apply bool_decide_eq_true.
  - split; [done|]. intros ->. lia.
Qed.

Lemma compareSlices_spec x y :
  compareSlices x y = true ↔ length x = length y ∧ ∀ v, v ∈ y → v ∈ x.
Proof.
  unfold compareSlices.
  destruct (Z.eqb_spec (Z.of_nat (length x)) (Z.of_nat (length y))) as [E|E]; cbn.
  2: { split; [done|]. intros [? _]. lia. }
  rewrite forallb_forall. split.
  - intros H. split; [lia|]. intros v Hv. apply list_elem_of_In, H in Hv.
    destruct (go_map_of _ x !! v) as [[]|] eqn:Ev; [|done].
    apply go_map_of_Some in Ev as (u & Hu & [= ->]). done.
  - intros [_ H] v Hv%list_elem_of_In. apply H in Hv.
    destruct (go_map_of _ x !! v) as [[]|] eqn:Ev; [done|].
    rewrite go_map_of_None in Ev. by destruct (Ev v tt Hv).
Qed.

(** [compareSlices] looks in one direction only, so with repeated values it
    takes different slices for equal, and is not symmetric. *)
Lemma compareSlices_one_direction :
  compareSlices ["find"; "dbStats"] ["find"; "find"] = true ∧
  compareSlices ["find"; "find"] ["find"; "dbStats"] = false.
Proof. split; reflexivity. Qed.

(** A role is left alone exactly when it has the wanted privileges in
    their order, each with the same resource and the same actions in any
    order, provided the server lists no action twice. *)
Theorem privilegesChanged_spec (x y : list RolePrivilege) :
  (∀ q, q ∈ y → NoDup (Actions q)) →
  privilegesChanged x y = false ↔
  Forall2 (λ p q, Resource p = Resource q ∧ Actions p ≡ₚ Actions q) x y.
Proof.
  intros Hnd. unfold privilegesChanged.
  destruct (Z.eqb_spec (Z.of_nat (length x)) (Z.of_nat (length y))) as [E|E]; cbn.
  2: { split; [done|]. intros H. apply Forall2_length in H. lia. }
  revert y Hnd E; induction x as [|p x IH]; intros [|q y] Hnd E; try (cbn in E; lia).
  { cbn. split; [constructor|done]. }
  cbn [privileges_differ]. rewrite Forall2_cons, <- IH by (set_solver || (cbn in E; lia)).
  rewrite <- compareResources_spec.
  assert (compareSlices (Actions p) (Actions q) = true ↔ Actions p ≡ₚ Actions q) as Ha.
  { rewrite compareSlices_spec. split.
    - intros [Hl Hsub]. symmetry. apply submseteq_length_Permutation; [|lia].
      apply NoDup_submseteq; [apply Hnd; set_solver|done].
    - intros Hp. split; [by rewrite Hp|]. intros v. by rewrite Hp. }
  rewrite <- Ha. destruct (compareResources (Resource p) (Resource q)),
    (compareSlices (Actions p) (Actions q)); cbn; naive_solver.
Qed.

(** Roles that compare equal are the same roles up to their order,
    whatever the sort does with elements it cannot tell apart. *)
Theorem compareRoles_sound {G : GoSort} {GL : GoSortLaws G} (x y : list Role) :
  compareRoles x y = true → x ≡ₚ y.
Proof.
  unfold compareRoles. case_match; [done|]. intros E%bool_decide_eq_true.
  rewrite <- (sort_perm role_less x), E. apply sort_perm.
Qed.

(** The comparison of the sort is no order: a role can be less than another
    by its database and greater by its name, and the same two roles in
    another order compare unequal. *)
Lemma compareRoles_incomplete :
  let x := [db_role "admin" "z"; db_role "local" "a"] in
  let y := [db_role "local" "a"; db_role "admin" "z"] in
  x ≡ₚ y ∧ role_less (db_role "admin" "z") (db_role "local" "a") = true ∧
  role_less (db_role "local" "a") (db_role "admin" "z") = true ∧
  compareRoles (G := insertion_GoSort) x y = false.
Proof. cbv zeta. split; [apply Permutation_swap|]. split_and!; vm_compute; reflexivity. Qed.

(** * Theorem: the system users after a run *)

(** What the operator relies on of the server's user commands: [view] is the
    roles each user of the admin database has. *)
Record user_store {W} (C : Client W) (view : W → gmap string (list Role)) : Prop := {
  us_info u w r w' : cGetUserInfo u "admin" w = (r, w') →
    view w' = view w ∧ ∀ info, r = Ok info → U_Roles <$> info = view w !! u;
  us_create u p rs w w' : cCreateUser "admin" u p rs w = (Ok tt, w') →
    view w' = <[u := rs]> (view w);
  us_update u rs w w' : cUpdateUserRoles "admin" u rs w = (Ok tt, w') →
    view w' = <[u := rs]> (view w);
  us_get_role db r w : view (cGetRole db r w).2 = view w;
  us_create_role db r w : view (cCreateRole db r w).2 = view w;
  us_update_role db r w : view (cUpdateRole db r w).2 = view w
}.

Section users.
Context {W : Type} {K : K8sClient W} {V : Versions} {G : GoSort} {GL : GoSortLaws G}.
Context (C : Client W) (view : W → gmap string (list Role)) (HC : user_store C view).
Context (cr : PerconaServerMongoDB) (secret : gmap string string).
(** The users secret does not change during the run. *)
Context (Hsecret : ∀ w, ∃ w', view w' = view w ∧
  k8s_get_secret (cr_Namespace cr) (UserSecretName cr) w = (Ok secret, w')).

(** The system user of [role] has the roles wanted for it. *)
Definition user_ok (m : gmap string (list Role)) (role : string) : Prop :=
  ∀ creds, getCredentials secret role = Ok creds →
    ∃ rs, m !! cred_Username creds = Some rs ∧ rs ≡ₚ getRoles cr role.

Lemma credentials_run role w :
  ∃ w', view w' = view w ∧ getInternalCredentials cr role w = (getCredentials secret role, w').
Proof using Hsecret.
  destruct (Hsecret w) as (w' & Hv & E). exists w'. split; [done|].
  unfold getInternalCredentials, wrapM, mbind, gom_bind, liftR. by rewrite E.
Qed.

Lemma roles_keep_view role ps w : view (createOrUpdateSystemRoles (C := C) role ps w).2 = view w.
Proof using HC.
  unfold createOrUpdateSystemRoles, wrapM, mbind, gom_bind, mret, gom_ret.
  pose proof (us_get_role _ _ HC "admin" role w) as Hg.
  destruct (cGetRole "admin" role w) as [[[info|]|e] w1]; cbn in *; [case_match|..]; try done.
  - match goal with |- context [cUpdateRole ?db ?r w1] =>
      pose proof (us_update_role _ _ HC db r w1); destruct (cUpdateRole db r w1) end.
    cbn in *. congruence.
  - match goal with |- context [cCreateRole ?db ?r w1] =>
      pose proof (us_create_role _ _ HC db r w1); destruct (cCreateRole db r w1) end.
    cbn in *. congruence.
Qed.

Lemma ensure_roles_view w : view (ensure_system_roles (C := C) cr w).2 = view w.
Proof using HC.
  unfold ensure_system_roles, mbind, gom_bind.
  assert (∀ msg role ps w, view (wrapM msg (createOrUpdateSystemRoles (C := C) role ps) w).2 = view w) as Hw.
  { intros msg role ps w1. rewrite <- (roles_keep_view role ps w1). unfold wrapM.
    by destruct (createOrUpdateSystemRoles role ps w1). }
  assert (view ((if (0 <=? CompareVersion cr "1.12.0")%Z
    then wrapM "create or update system role"
           (createOrUpdateSystemRoles (C := C) "explainRole" (explain_privileges cr))
    else mret tt) w).2 = view w) as H0 by (destruct (0 <=? _)%Z; [apply Hw|done]).
  match type of H0 with view (snd ?x) = _ => destruct x as [[[]|] w1] end;
    cbn [snd] in H0 |- *; [|done].
  rewrite <- H0. apply Hw.
Qed.

(** One user: its roles are right afterwards and no other user changes. *)
Lemma ensure_system_user_spec role w w' :
  ensure_system_user (C := C) cr role w = (Ok tt, w') →
  user_ok (view w') role ∧
  (∀ u, (∀ creds, getCredentials secret role = Ok creds → cred_Username creds ≠ u) →
     view w' !! u = view w !! u).
Proof using HC GL Hsecret.
  unfold ensure_system_user. destruct (credentials_run role w) as (w1 & Hv1 & E1).
  unfold tryM, wrapM, mbind, gom_bind, mret, gom_ret. rewrite E1. unfold user_ok.
  destruct (getCredentials secret role) as [creds|e] eqn:Ec.
  2: { intros [= <-]. rewrite Hv1. split; [done|]. by intros u _. }
  destruct (cGetUserInfo (cred_Username creds) "admin" w1) as [[info|e] w2] eqn:E2; [|done].
  destruct (us_info _ _ HC _ _ _ _ E2) as [Hv2 Hinfo]. specialize (Hinfo _ eq_refl). cbn [wrap_err].
  assert (∀ rs w3, rs ≡ₚ getRoles cr role → view w3 = <[cred_Username creds := rs]> (view w2) →
    (∀ c, Ok creds = Ok c → ∃ rs, view w3 !! cred_Username c = Some rs ∧ rs ≡ₚ getRoles cr role) ∧
    (∀ u, (∀ c, Ok creds = Ok c → cred_Username c ≠ u) → view w3 !! u = view w !! u)) as Hset.
  { intros rs w3 Hrs E. split.
    - intros c [= <-]. exists rs. by rewrite E, lookup_insert_eq.
    - intros u Hu. rewrite E, lookup_insert_ne by (by apply Hu). congruence. }
  destruct info as [u|].
  - destruct (compareRoles (U_Roles u) (getRoles cr role)) eqn:Er; cbn [negb].
    + intros [= <-]. apply (Hset (U_Roles u)); [unfold compareRoles in Er|].
      * case_match; [done|]. apply bool_decide_eq_true in Er.
        rewrite <- (sort_perm role_less (U_Roles u)), Er. apply sort_perm.
      * symmetry. apply insert_id. rewrite Hv2. by rewrite <- Hinfo.
    + destruct (cUpdateUserRoles _ _ _ w2) as [[[]|e] w3] eqn:E3; cbn; intros [= <-].
      apply (Hset (getRoles cr role)); [done|by eapply us_update].
  - destruct (cCreateUser _ _ _ _ w2) as [[[]|e] w3] eqn:E3; cbn; intros [= <-].
    apply (Hset (getRoles cr role)); [done|by eapply us_create].
Qed.

(** After a successful run every system user whose credentials are in
    the users secret exists with exactly the roles wanted for it, and no other
    user of the admin database was touched. *)
Theorem ensure_system_users_spec w w' :
  (∀ r1 r2 c1 c2, r1 ∈ system_users cr → r2 ∈ system_users cr →
     getCredentials secret r1 = Ok c1 → getCredentials secret r2 = Ok c2 →
     cred_Username c1 = cred_Username c2 → r1 = r2) →
  ensure_system_users (C := C) cr w = (Ok tt, w') →
  (∀ role, role ∈ system_users cr → user_ok (view w') role) ∧
  (∀ u, (∀ role creds, role ∈ system_users cr → getCredentials secret role = Ok creds →
           cred_Username creds ≠ u) → view w' !! u = view w !! u).
Proof using HC GL Hsecret.
  intros Hinj. unfold ensure_system_users, mbind at 1, gom_bind at 1.
  pose proof (ensure_roles_view w) as Hv.
  destruct (ensure_system_roles (C := C) cr w) as [[[]|] w1]; [|done]. cbn [snd] in Hv.
  intros E. rewrite <- Hv. clear Hv w. revert w1 E Hinj.
  generalize (system_users cr). intros l. induction l as [|role l IH]; intros w1 E Hinj.
  { injection E as <-. split; [by intros ? ?%elem_of_nil|]. by intros. }
  cbn in E. unfold mbind, gom_bind in E.
  destruct (ensure_system_user cr role w1) as [[[]|] w2] eqn:E2; [|done].
  destruct (ensure_system_user_spec _ _ _ E2) as [Hok Hfr].
  destruct (IH w2 E) as [IHok IHfr].
  { intros r1 r2 c1 c2 H1 H2. apply Hinj; by right. }
  split.
  - intros r [->|Hr]%elem_of_cons; [|auto].
    destruct (decide (role ∈ l)) as [Hin|Hin]; [auto|].
    intros creds Hc. destruct (Hok creds Hc) as (rs & Hl & Hp). exists rs. split; [|done].
    rewrite IHfr; [done|]. intros r c Hr Hrc Hu. apply Hin.
    by rewrite (Hinj role r creds c) by (set_solver || done).
  - intros u Hu. rewrite IHfr by (intros; eapply Hu; [by right|done]).
    apply Hfr. intros creds Hc. eapply Hu; [by left|done].
Qed.
End users.

(** * Witnesses *)

Lemma privilegesChanged_spec_witness :
  let x := [ {| Resource := db_collection "" ""; Actions := ["find"; "dbStats"] |} ] in
  let y := [ {| Resource := db_collection "" ""; Actions := ["dbStats"; "find"] |} ] in
  (∀ q, q ∈ y → NoDup (Actions q)) ∧ privilegesChanged x y = false.
Proof.
  cbv zeta. assert (∀ q, q ∈ [ {| Resource := db_collection "" ""; Actions := ["dbStats"; "find"] |} ] →
    NoDup (Actions q)) as H.
  { intros q ->%list_elem_of_singleton. apply (bool_decide_eq_true_1 _). vm_compute. reflexivity. }
  split; [exact H|]. apply (proj2 (privilegesChanged_spec _ _ H)).
  constructor; [|constructor]. split; [reflexivity|apply Permutation_swap].
Defined.

Lemma compareRoles_sound_witness :
  compareRoles (G := insertion_GoSort) [admin_role "b"; admin_role "a"] [admin_role "a"; admin_role "b"]
    = true ∧
  [admin_role "b"; admin_role "a"] ≡ₚ [admin_role "a"; admin_role "b"].
Proof. split; [vm_compute; reflexivity|]. apply (compareRoles_sound (G := insertion_GoSort)). vm_compute. reflexivity. Defined.

(** A server that stores the users of the admin database. *)
Definition store_client : Client (gmap string (list Role)) :=
  let base := fixed_client (gmap string (list Role))
    {| RS_ID := ""; RS_Version := 1; Members := []; Configsvr := false; ProtocolVersion := 1;
       RS_Settings := zeroSettings; WriteConcernMajorityJournalDefault := true |}
    {| InitialSyncStatus := false; Set_ := ""; Date := 0; MyState := 1; St_Members := []; St_Term := 1;
       St_HeartbeatIntervalMillis := 0; Optimes := None; St_OK := {| Errmsg := ""; OK := 1 |} |} in
  {| cSetDefaultRWConcern := cSetDefaultRWConcern (Client := base);
     cReadConfig := cReadConfig (Client := base);
     cCreateRole := cCreateRole (Client := base);
     cUpdateRole := cUpdateRole (Client := base);
     cGetRole := cGetRole (Client := base);
     cCreateUser := λ _ u _ rs m, (Ok tt, <[u := rs]> m);
     cAddShard := cAddShard (Client := base);
     cWriteConfig := cWriteConfig (Client := base);
     cRSStatus := cRSStatus (Client := base);
     cStartBalancer := cStartBalancer (Client := base);
     cStopBalancer := cStopBalancer (Client := base);
     cIsBalancerRunning := cIsBalancerRunning (Client := base);
     cGetFCV := cGetFCV (Client := base);
     cSetFCV := cSetFCV (Client := base);
     cListDBs := cListDBs (Client := base);
     cListShard := cListShard (Client := base);
     cRemoveShard := cRemoveShard (Client := base);
     cRSBuildInfo := cRSBuildInfo (Client := base);
     cStepDown := cStepDown (Client := base);
     cFreeze := cFreeze (Client := base);
     cIsMaster := cIsMaster (Client := base);
     cGetUserInfo := λ u _ m, (Ok ((λ rs, {| U_DB := "admin"; U_Roles := rs |}) <$> m !! u), m);
     cUpdateUserRoles := λ _ u rs m, (Ok tt, <[u := rs]> m);
     cUpdateUserPass := cUpdateUserPass (Client := base);
     cUpdateUser := cUpdateUser (Client := base);
     cRunCommand := cRunCommand (Client := base) |}.

Lemma store_client_store : user_store store_client (λ m, m).
Proof.
  split; cbn; try done.
  - intros u w r w' [= <- <-]. split; [done|]. intros info [= <-]. by destruct (w !! u).
  - by intros u p rs w w' [= <-].
  - by intros u rs w w' [= <-].
Qed.

Definition demo_secret : gmap string string :=
  {[ "MONGODB_CLUSTER_ADMIN_USER" := "clusterAdmin"; "MONGODB_CLUSTER_ADMIN_PASSWORD" := "p1";
     "MONGODB_CLUSTER_MONITOR_USER" := "clusterMonitor"; "MONGODB_CLUSTER_MONITOR_PASSWORD" := "p2";
     "MONGODB_BACKUP_USER" := "backup"; "MONGODB_BACKUP_PASSWORD" := "p3" ]}.

(** An API server with only that secret. *)
Definition secret_k8s (W : Type) (secret : gmap string string) : K8sClient W :=
  let base := emptyK8s W in
  {| k8s_get_service := k8s_get_service (K8sClient := base);
     k8s_get_node_labels := k8s_get_node_labels (K8sClient := base);
     k8s_get_service_import := k8s_get_service_import (K8sClient := base);
     k8s_list_service_exports := k8s_list_service_exports (K8sClient := base);
     k8s_get_sts := k8s_get_sts (K8sClient := base);
     k8s_get_secret := λ _ _, mret secret;
     k8s_list_sts := k8s_list_sts (K8sClient := base);
     k8s_list_pods := k8s_list_pods (K8sClient := base);
     go_sleep := go_sleep (K8sClient := base);
     go_tick := go_tick (K8sClient := base) |}.

Definition always_newer : Versions := λ _ _, 1%Z.

(** The user name the secret has for a role, empty when it has none. *)
Definition demo_user (role : string) : string :=
  match getCredentials demo_secret role with Ok c => cred_Username c | Err _ => "" end.
Lemma demo_username role c : getCredentials demo_secret role = Ok c → demo_user role = cred_Username c.
Proof. unfold demo_user. by intros ->. Qed.
Lemma demo_users_distinct r1 r2 :
  r1 ∈ system_users (a_cluster []) → r2 ∈ system_users (a_cluster []) →
  demo_user r1 = demo_user r2 → demo_user r1 ≠ "" → r1 = r2.
Proof.
  assert (forallb (λ '(a, b), negb (bool_decide (demo_user a = demo_user b)) ||
    bool_decide (demo_user a = "") || bool_decide (a = b))
    (list_prod (system_users (a_cluster [])) (system_users (a_cluster []))) = true) as H
    by (vm_compute; reflexivity).
  rewrite forallb_forall in H. intros H1 H2 Hu Hne.
  specialize (H (r1, r2)). rewrite in_prod_iff, <- !list_elem_of_In in H. specialize (H (conj H1 H2)).
  cbv beta iota in H. rewrite (bool_decide_eq_true_2 _ Hu), (bool_decide_eq_false_2 _ Hne) in H.
  by apply bool_decide_eq_true in H.
Qed.
Lemma demo_user_nonempty role c : getCredentials demo_secret role = Ok c → cred_Username c ≠ "".
Proof.
  unfold getCredentials. case_match; [done|]. cbv zeta. case_match eqn:E; [done|].
  intros [= <-]. cbn. apply orb_false_elim in E as [E _]. by apply bool_decide_eq_false in E.
Qed.

Lemma ensure_system_users_spec_witness :
  let start : gmap string (list Role) := {[ "backup" := [admin_role "read"]; "app" := [] ]} in
  let run := ensure_system_users (K := secret_k8s _ demo_secret) (V := always_newer)
    (G := insertion_GoSort) (C := store_client) (a_cluster []) in
  let m := (run start).2 in
  run start = (Ok tt, m) ∧ m !! "app" = Some [] ∧
  user_ok (V := always_newer) (a_cluster []) demo_secret m RoleBackup.
Proof.
  cbv zeta. split; [vm_compute; reflexivity|]. split; [vm_compute; reflexivity|].
  destruct (ensure_system_users_spec (K := secret_k8s _ demo_secret) (V := always_newer)
    (G := insertion_GoSort) store_client (λ m, m) store_client_store (a_cluster []) demo_secret)
    with (w := {[ "backup" := [admin_role "read"]; "app" := [] ]} : gmap string (list Role))
         (w' := (ensure_system_users (K := secret_k8s _ demo_secret) (V := always_newer)
           (G := insertion_GoSort) (C := store_client) (a_cluster [])
           {[ "backup" := [admin_role "read"]; "app" := [] ]}).2) as [H _].
  - intros w. exists w. split; reflexivity.
  - intros r1 r2 c1 c2 H1 H2 E1 E2 Hu. apply demo_users_distinct; try done.
    + by rewrite (demo_username _ _ E1), (demo_username _ _ E2).
    + rewrite (demo_username _ _ E1). by eapply demo_user_nonempty.
  - vm_compute. reflexivity.
  - apply H. apply list_elem_of_In. cbn. tauto.
Defined.
