(* ===== verification/Shell.v ===== *)
(** Shell commands and JSON arguments for the mongo shell:
    [mongoExpression] and [mongoInitAdminUser] in mgo.go, with what they use of
    Go's strings and encoding/json packages. *)
From S2P Require Import Prelude ReplsetModels.
From Stdlib Require Import Ascii.

(** * Strings *)

(** [strings.ReplaceAll(s, c, r)] for a one-character pattern. *)
Fixpoint replace_char (c : ascii) (r s : string) : string :=
  match s with
  | EmptyString => EmptyString
  | String a s' => (if bool_decide (a = c) then r else String a EmptyString) +:+ replace_char c r s'
  end.

(** [strings.ToLower] on ASCII. *)
Definition lower_char (a : ascii) : ascii :=
  let n := nat_of_ascii a in
  if (65 <=? n)%nat && (n <=? 90)%nat then ascii_of_nat (n + 32) else a.
Fixpoint to_lower (s : string) : string :=
  match s with EmptyString => EmptyString | String a s' => String (lower_char a) (to_lower s') end.

(** [strings.TrimSpace] on ASCII. *)
Definition is_space (a : ascii) : bool :=
  let n := nat_of_ascii a in ((9 <=? n) && (n <=? 13))%nat || (n =? 32)%nat.
Fixpoint trim_left (s : string) : string :=
  match s with
  | EmptyString => EmptyString
  | String a s' => if is_space a then trim_left s' else s
  end.
Fixpoint trim_right (s : string) : string :=
  match s with
  | EmptyString => EmptyString
  | String a s' =>
      match trim_right s' with
      | EmptyString => if is_space a then EmptyString else String a EmptyString
      | t => String a t
      end
  end.
Definition trim_space (s : string) : string := trim_right (trim_left s).

(** [strings.Join] *)
Fixpoint join (sep : string) (l : list string) : string :=
  match l with
  | [] => ""
  | [x] => x
  | x :: l' => x +:+ sep +:+ join sep l'
  end.

(** * JSON *)
Inductive json :=
| JStr (s : string)
| JInt (z : Z)
| JBool (b : bool)
| JArr (l : list json)
| JObj (fields : list (string * json)).

Definition dquote : ascii := ascii_of_nat 34.
Definition backslash : ascii := ascii_of_nat 92.

Definition hex_digit (n : nat) : ascii :=
  if (n <? 10)%nat then ascii_of_nat (48 + n) else ascii_of_nat (87 + n).

(** How [encoding/json] writes an ASCII character (with HTML escaping). *)
Definition json_char (a : ascii) : string :=
  let n := nat_of_ascii a in
  let esc c := String backslash (String c EmptyString) in
  if bool_decide (a = dquote) || bool_decide (a = backslash) then esc a
  else if (n =? 8)%nat then esc "b"%char
  else if (n =? 12)%nat then esc "f"%char
  else if (n =? 10)%nat then esc "n"%char
  else if (n =? 13)%nat then esc "r"%char
  else if (n =? 9)%nat then esc "t"%char
  else if (n <? 32)%nat || (n =? 60)%nat || (n =? 62)%nat || (n =? 38)%nat then
    String backslash (String "u"%char (String "0"%char (String "0"%char
      (String (hex_digit (n / 16)) (String (hex_digit (n mod 16)) EmptyString)))))
  else String a EmptyString.

(** [utf8.DecodeRune] on a text that starts with the byte [a], not ASCII: how
    many more bytes the rune has, 0 when it is not a valid one. *)
Definition between (lo hi : nat) (a : ascii) : bool := (lo <=? nat_of_ascii a)%nat && (nat_of_ascii a <=? hi)%nat.
Definition continues : ascii → bool := between 128 191.
Definition rune_rest (a : ascii) (s : string) : nat :=
  match s with
  | String b s2 =>
      if between 194 223 a && continues b then 1
      else match s2 with
      | String c s3 =>
          if (between 224 224 a && between 160 191 b || between 237 237 a && between 128 159 b
              || (between 225 236 a || between 238 239 a) && continues b) && continues c then 2
          else match s3 with
          | String d _ =>
              if (between 240 240 a && between 144 191 b || between 244 244 a && between 128 143 b
                  || between 241 243 a && continues b) && continues c && continues d then 3
              else 0
          | EmptyString => 0
          end
      | EmptyString => 0
      end
  | EmptyString => 0
  end.
Definition is_ascii (a : ascii) : bool := (nat_of_ascii a <? 128)%nat.

Definition replacement_escape : string := String backslash "ufffd".
(** The last digit of the escape of U+2028 or U+2029, after the first byte *)
Definition line_separator (a : ascii) (s : string) : option ascii :=
  match s with
  | String b (String c _) =>
      if (nat_of_ascii a =? 226)%nat && (nat_of_ascii b =? 128)%nat then
        if (nat_of_ascii c =? 168)%nat then Some "8"%char
        else if (nat_of_ascii c =? 169)%nat then Some "9"%char else None
      else None
  | _ => None
  end.
(** The characters of a string; [k] bytes of a rune are left to be copied.  A byte
    that belongs to no rune is replaced by U+FFFD. *)
Fixpoint json_runes (k : nat) (s : string) : string :=
  match s with
  | EmptyString => EmptyString
  | String a s1 =>
      match k with
      | S k => String a (json_runes k s1)
      | 0 =>
          if is_ascii a then json_char a +:+ json_runes 0 s1
          else match rune_rest a s1 with
          | 0 => replacement_escape +:+ json_runes 0 s1
          | k =>
              match line_separator a s1, s1 with
              | Some digit, String _ (String _ s3) =>
                  String backslash (String "u" (String "2" (String "0" (String "2"
                    (String digit (json_runes 0 s3))))))
              | _, _ => String a (json_runes k s1)
              end
          end
      end
  end.
Definition json_chars : string → string := json_runes 0.
Definition json_string (s : string) : string :=
  String dquote (json_chars s +:+ String dquote EmptyString).

Fixpoint json_marshal (j : json) : string :=
  match j with
  | JStr s => json_string s
  | JInt z => itoa z
  | JBool true => "true"
  | JBool false => "false"
  | JArr l => "[" +:+ join "," (map json_marshal l) +:+ "]"
  | JObj fields =>
      "{" +:+ join "," (map (λ '(k, v), json_string k +:+ ":" +:+ json_marshal v) fields) +:+ "}"
  end.

(** A Go map is encoded in the order of its keys. *)
Definition json_of_map (m : gmap string string) : json :=
  let less a b := String.ltb a.1 b.1 in
  let sorted := reverse (foldl (λ acc x,
    (fix sift l := match l with
                   | [] => [x]
                   | y :: l' => if less x y then y :: sift l' else x :: y :: l'
                   end) acc) [] (map_to_list m)) in
  JObj (map (λ '(k, v), (k, JStr v)) sorted).

(** The fields of [ConfigMember] by their json tags. *)
Definition omitempty_map (name : string) (m : option (gmap string string)) : list (string * json) :=
  match m with
  | Some m => if bool_decide (m = ∅) then [] else [(name, json_of_map m)]
  | None => []
  end.
Definition omitempty_int (name : string) (v : option Z) : list (string * json) :=
  match v with Some z => [(name, JInt z)] | None => [] end.
Definition json_of_member (m : ConfigMember) : json :=
  JObj ([("_id", JInt (ID m)); ("host", JStr (Host m)); ("arbiterOnly", JBool (ArbiterOnly m));
         ("buildIndexes", JBool (BuildIndexes m)); ("hidden", JBool (Hidden m));
         ("priority", JInt (Priority m))] ++
        omitempty_map "tags" (Tags m) ++
        omitempty_int "slaveDelay" (SlaveDelay m) ++
        omitempty_int "secondaryDelaySecs" (SecondaryDelaySecs m) ++
        [("votes", JInt (Votes m))] ++
        omitempty_map "horizons" (Horizons m)).

(** * The source's functions *)
Definition mongoExpression (function : string) (argument : json) : string :=
  function +:+ "(" +:+ json_marshal argument +:+ ")".

Definition squote : ascii := ascii_of_nat 39.
(** ['"'"']: close the quotes, a quoted quote, open them again. *)
Definition quoted_quote : string :=
  String squote (String dquote (String squote (String dquote (String squote EmptyString)))).
Definition sh_quote (s : string) : string :=
  String squote (replace_char squote quoted_quote s +:+ String squote EmptyString).

Definition get_sibling_admin : string :=
  "db.getSiblingDB(" +:+ json_string "admin" +:+ ").createUser".

Definition mongoInitAdminUser (user pwd : string) : string :=
  sh_quote (mongoExpression get_sibling_admin
    (JObj [("pwd", JStr pwd); ("roles", JArr [JStr "userAdminAnyDatabase"]); ("user", JStr user)])).

(** * What the shell and the JSON reader make of it *)

(** The first word of a POSIX shell command line: quoting only. *)
Inductive sh_mode := Plain | Single | Double.
Fixpoint sh_word (m : sh_mode) (s : string) : string * string :=
  match s with
  | EmptyString => (EmptyString, EmptyString)
  | String a s' =>
      let lit m := let '(w, r) := sh_word m s' in (String a w, r) in
      match m with
      | Plain => if bool_decide (a = squote) then sh_word Single s'
                 else if bool_decide (a = dquote) then sh_word Double s'
                 else if is_space a then (EmptyString, s)
                 else lit Plain
      | Single => if bool_decide (a = squote) then sh_word Plain s' else lit Single
      | Double => if bool_decide (a = dquote) then sh_word Plain s' else lit Double
      end
  end.

Definition hex_val (a : ascii) : N :=
  let n := N_of_ascii a in if (n <? 58)%N then (n - 48)%N else (n - 87)%N.
(** The bytes of a code point below 2^16 *)
Definition utf8_bytes (n : N) : string :=
  let byte (m : N) (s : string) := String (ascii_of_N m) s in
  (if n <? 128 then byte n ""
   else if n <? 2048 then byte (192 + n / 64) (byte (128 + n mod 64) "")
   else byte (224 + n / 4096) (byte (128 + (n / 64) mod 64) (byte (128 + n mod 64) "")))%N.

(** The rest of a JSON string after its opening quote (without pairs of
    surrogates, which the encoder does not write). *)
Fixpoint json_read (s : string) : option (string * string) :=
  let add t r := match r with Some (w, rest) => Some (t +:+ w, rest) | None => None end in
  let add1 a r := match r with Some (w, rest) => Some (String a w, rest) | None => None end in
  match s with
  | EmptyString => None
  | String a s1 =>
      if bool_decide (a = dquote) then Some (EmptyString, s1)
      else if bool_decide (a = backslash) then
        match s1 with
        | String e s2 =>
            if bool_decide (e = "b"%char) then add1 (ascii_of_nat 8) (json_read s2)
            else if bool_decide (e = "f"%char) then add1 (ascii_of_nat 12) (json_read s2)
            else if bool_decide (e = "n"%char) then add1 (ascii_of_nat 10) (json_read s2)
            else if bool_decide (e = "r"%char) then add1 (ascii_of_nat 13) (json_read s2)
            else if bool_decide (e = "t"%char) then add1 (ascii_of_nat 9) (json_read s2)
            else if bool_decide (e = "u"%char) then
              match s2 with
              | String d1 (String d2 (String d3 (String d4 s3))) =>
                  add (utf8_bytes (4096 * hex_val d1 + 256 * hex_val d2 + 16 * hex_val d3 + hex_val d4)%N)
                    (json_read s3)
              | _ => None
              end
            else add1 e (json_read s2)
        | EmptyString => None
        end
      else add1 a (json_read s1)
  end.

(** A text with each byte that belongs to no rune replaced by U+FFFD, as
    [strings.ToValidUTF8] does byte by byte; such a text, and one without such bytes *)
Fixpoint valid_runes (k : nat) (s : string) : string :=
  match s with
  | EmptyString => EmptyString
  | String a s1 =>
      match k with
      | S k => String a (valid_runes k s1)
      | 0 =>
          if is_ascii a then String a (valid_runes 0 s1)
          else match rune_rest a s1 with
               | 0 => utf8_bytes 65533%N +:+ valid_runes 0 s1
               | k => String a (valid_runes k s1)
               end
      end
  end.
Definition to_valid : string → string := valid_runes 0.
Fixpoint utf8_runes (k : nat) (s : string) : bool :=
  match s with
  | EmptyString => true
  | String a s1 =>
      match k with
      | S k => utf8_runes k s1
      | 0 =>
          if is_ascii a then utf8_runes 0 s1
          else match rune_rest a s1 with 0 => false | k => utf8_runes k s1 end
      end
  end.
Definition utf8_valid : string → bool := utf8_runes 0.

(** * Theorems *)

Lemma quoted_quote_app t : quoted_quote +:+ t =
  String squote (String dquote (String squote (String dquote (String squote t)))).
Proof. done. Qed.

Lemma sh_single s rest :
  sh_word Single (replace_char squote quoted_quote s +:+ (String squote rest)) =
    (let '(w, r) := sh_word Plain rest in (s +:+ w, r)).
Proof.
  induction s as [|a s IH]; cbn [replace_char].
  - rewrite str_app_nil. cbn [sh_word]. rewrite bool_decide_eq_true_2 by done.
    by destruct (sh_word Plain rest).
  - case_bool_decide as Ha.
    + subst a. rewrite str_app_assoc, quoted_quote_app. cbn [sh_word].
      repeat first [rewrite bool_decide_eq_true_2 by done|rewrite bool_decide_eq_false_2 by done].
      rewrite IH. by destruct (sh_word Plain rest).
    + rewrite !str_app_cons, str_app_nil. cbn [sh_word]. rewrite bool_decide_eq_false_2 by done.
      rewrite IH. by destruct (sh_word Plain rest).
Qed.

(** A quoted text is one word of the shell and stands for exactly itself. *)
Lemma sh_quote_word s rest :
  rest = "" ∨ (∃ a r, rest = String a r ∧ is_space a = true) →
  sh_word Plain (sh_quote s +:+ rest) = (s, rest).
Proof.
  intros Hr. unfold sh_quote. rewrite !str_app_cons. cbn [sh_word]. rewrite bool_decide_eq_true_2 by done.
  rewrite str_app_assoc, str_app_cons, sh_single, str_app_nil.
  assert (sh_word Plain rest = ("", rest)) as ->.
  { destruct Hr as [->|(a & r & -> & Ha)]; [done|]. cbn [sh_word].
    rewrite !bool_decide_eq_false_2 by (intros ->; discriminate Ha). by rewrite Ha. }
  by rewrite str_app_nil_r.
Qed.

(** ** JSON *)
Lemma to_valid_id s k : utf8_runes k s = true → valid_runes k s = s.
Proof.
  revert k. induction s as [|a s IH]; intros k H; [done|]. cbn [utf8_runes valid_runes] in *. destruct k as [|k]; [|by rewrite IH].
  destruct (is_ascii a); [by rewrite IH|]. destruct (rune_rest a s); [done|]. by rewrite IH.
Qed.

Lemma json_read_char a s : is_ascii a = true → json_read (json_char a +:+ s) =
  match json_read s with Some (w, rest) => Some (String a w, rest) | None => None end.
Proof.
  intros Ha. destruct a as [[] [] [] [] [] [] [] []]; try discriminate Ha; vm_compute json_char;
    cbn -[json_read]; cbn [json_read]; reflexivity.
Qed.
(** A byte that is not ASCII is read as it is. *)
Lemma json_read_byte a s : is_ascii a = false → json_read (String a s) =
  match json_read s with Some (w, rest) => Some (String a w, rest) | None => None end.
Proof.
  intros Ha. cbn [json_read]. rewrite !bool_decide_eq_false_2; [done|intros ->; discriminate Ha|intros ->; discriminate Ha].
Qed.
Lemma json_read_replacement s : json_read (replacement_escape +:+ s) =
  match json_read s with Some (w, rest) => Some (utf8_bytes 65533%N +:+ w, rest) | None => None end.
Proof. unfold replacement_escape. rewrite !str_app_cons, str_app_nil. cbn -[utf8_bytes]. by destruct (json_read s) as [[]|]. Qed.

(** The bytes that are copied belong to a rune. *)
Fixpoint continued (k : nat) (s : string) : Prop :=
  match k, s with
  | S k, String a s => is_ascii a = false ∧ continued k s
  | _, _ => True
  end.
Lemma between_not_ascii lo hi a : 128 ≤ lo → between lo hi a = true → is_ascii a = false.
Proof.
  unfold between, is_ascii. intros Hlo [H _]%andb_true_iff. apply Nat.leb_le in H. apply Nat.ltb_ge. lia.
Qed.
Lemma rune_rest_continued a s : continued (rune_rest a s) s.
Proof.
  assert (∀ lo hi b, 128 ≤ lo → between lo hi b = true → is_ascii b = false) as Hb by exact between_not_ascii.
  unfold rune_rest. destruct s as [|b s2]; [done|]. case_match eqn:E1.
  { apply andb_true_iff in E1 as [_ E1]. split; [by apply (Hb 128 191)|by destruct s2]. }
  destruct s2 as [|c s3]; [done|]. case_match eqn:E2.
  { apply andb_true_iff in E2 as [E2 Ec]. split; [|split; [by apply (Hb 128 191)|by destruct s3]].
    repeat match type of E2 with
      | _ || _ = true => apply orb_true_iff in E2 as [E2|E2]
      | _ && _ = true => apply andb_true_iff in E2 as [_ E2]
      end;
      (eapply Hb; [|exact E2]); lia. }
  destruct s3 as [|d s4]; [done|]. case_match eqn:E3; [|done].
  apply andb_true_iff in E3 as [[E3 Ec]%andb_true_iff Ed].
  split; [|split; [by apply (Hb 128 191)|split; [by apply (Hb 128 191)|by destruct s4]]].
  repeat match type of E3 with
      | _ || _ = true => apply orb_true_iff in E3 as [E3|E3]
      | _ && _ = true => apply andb_true_iff in E3 as [_ E3]
      end;
    (eapply Hb; [|exact E3]); lia.
Qed.
(** U+2028 and U+2029, and their escapes *)
Lemma line_separator_runes a s digit :
  line_separator a s = Some digit → ∃ b c s3, s = String b (String c s3) ∧ rune_rest a s = 2 ∧
    ∀ t, json_read (String backslash (String "u" (String "2" (String "0" (String "2" (String digit t)))))) =
      match json_read t with Some (w, rest) => Some (String a (String b (String c w)), rest) | None => None end.
Proof.
  unfold line_separator. destruct s as [|b [|c s3]]; try done. intros H. exists b, c, s3. split; [done|].
  assert (∀ n (x : ascii), (nat_of_ascii x =? n)%nat = true → x = ascii_of_nat n) as Hx.
  { intros n x Hn%Nat.eqb_eq. subst n. by rewrite ascii_nat_embedding. }
  case_match eqn:E1; [|done]. apply andb_true_iff in E1 as [->%Hx ->%Hx].
  destruct (nat_of_ascii c =? 168)%nat eqn:E2; [apply Hx in E2 as ->|destruct (nat_of_ascii c =? 169)%nat eqn:E3;
    [apply Hx in E3 as ->|done]]; injection H as <-; (split; [by destruct s3|]); intros t; cbn -[utf8_bytes];
    by destruct (json_read t) as [[]|].
Qed.

(** A JSON string reads back as the text it was made from, with what is not UTF-8
    replaced. *)
Lemma json_read_runes s rest : ∀ k, continued k s →
  json_read (json_runes k s +:+ String dquote rest) = Some (valid_runes k s, rest).
Proof.
  remember (String.length s) as n eqn:En. revert s En.
  induction n as [n IH] using lt_wf_ind. intros s -> k Hk. destruct s as [|a s]; [reflexivity|]. cbn [json_runes valid_runes].
  assert (∀ s' k, String.length s' < S (String.length s) → continued k s' →
    json_read (json_runes k s' +:+ String dquote rest) = Some (valid_runes k s', rest)) as IH'.
  { intros s' k' Hl Hc. by apply (IH (String.length s')). }
  destruct k as [|k].
  2:{ destruct Hk as [Ha Hk]. rewrite str_app_cons, json_read_byte, IH' by (done || lia). done. }
  destruct (is_ascii a) eqn:Ea; [by rewrite str_app_assoc, json_read_char, IH' by (done || lia)|].
  pose proof (rune_rest_continued a s) as Hc. destruct (rune_rest a s) as [|k] eqn:Er.
  { by rewrite str_app_assoc, json_read_replacement, IH' by (done || lia). }
  destruct (line_separator a s) as [digit|] eqn:El.
  - destruct (line_separator_runes _ _ _ El) as (b & c & s3 & -> & Er' & Hread). rewrite Er in Er'.
    injection Er' as ->. rewrite !str_app_cons, Hread, IH' by (done || cbn; lia). reflexivity.
  - rewrite str_app_cons, json_read_byte, IH' by (done || lia). done.
Qed.
Lemma json_read_string s rest :
  json_read (json_chars s +:+ String dquote rest) = Some (to_valid s, rest).
Proof. by apply json_read_runes. Qed.
(** The escapes of the line separator and of a byte that is no UTF-8 *)
Example json_string_escapes :
  let byte n := String (ascii_of_nat n) "" in
  json_chars (byte 226 +:+ byte 128 +:+ byte 168) = String backslash "u2028" ∧
  json_chars (byte 255 +:+ "<") = String backslash "ufffd" +:+ String backslash "u003c" ∧
  json_chars (byte 195 +:+ byte 164) = byte 195 +:+ byte 164.
Proof. vm_compute. done. Qed.

(** C37: for every user name and password, whatever bytes they hold, the shell
    takes the quoted createUser expression as one word. In that word the
    expression is an object whose pwd and user are JSON strings: reading the
    first one gives the password, and the text after its closing quote is the
    rest of the object as it was written; reading the second gives the user
    name, and only the closing brackets follow. Neither breaks out of its
    quotes. What is read back is the text with each byte that is no valid UTF-8
    replaced by U+FFFD, so a text of valid UTF-8 is read back as given. *)
Theorem mongoInitAdminUser_safe (user pwd : string) :
  ∃ expr mid suffix,
    sh_word Plain (mongoInitAdminUser user pwd) = (expr, "") ∧
    expr = get_sibling_admin +:+ "({" +:+ json_string "pwd" +:+ ":" +:+ String dquote mid ∧
    ∃ tail, json_read mid = Some (to_valid pwd, tail) ∧
      tail = "," +:+ json_string "roles" +:+ ":[" +:+ json_string "userAdminAnyDatabase" +:+ "],"
               +:+ json_string "user" +:+ ":" +:+ String dquote suffix ∧
      json_read suffix = Some (to_valid user, "})") ∧
      (utf8_valid pwd = true → to_valid pwd = pwd) ∧ (utf8_valid user = true → to_valid user = user).
Proof.
  unfold mongoInitAdminUser, mongoExpression. cbn [json_marshal map join].
  set (expr := get_sibling_admin +:+ _). exists expr.
  exists (json_chars pwd +:+ (String dquote ("," +:+ json_string "roles" +:+ ":[" +:+
    json_string "userAdminAnyDatabase" +:+ "]," +:+ json_string "user" +:+ ":" +:+
    String dquote (json_chars user +:+ String dquote "})")))).
  exists (json_chars user +:+ String dquote "})").
  split_and!.
  - pose proof (sh_quote_word expr "" (or_introl eq_refl)) as H.
    by rewrite str_app_nil_r in H.
  - unfold expr, json_string. by repeat rewrite ?str_app_assoc, ?str_app_cons, ?str_app_nil.
  - eexists. split_and!; [apply json_read_string|reflexivity|apply json_read_string|apply to_valid_id|apply to_valid_id].
Qed.
