(* ===== verification/Cluster.v ===== *)
(** Reconciling a replica set of a cluster: initialisation, crash recovery,
    sharding and [reconcileCluster], in
    pkg/controller/perconaservermongodb/mgo.go. *)
From S2P Require Import Prelude ReplsetModels ReplsetMembers MongoClient MongoDial.
From S2P Require Import Api GoSort Kube Hosts WriteLog ReplsetReconcile SystemUsers Shell.

Definition AnnotationRestoreInProgress : string := "percona.com/restore-in-progress".
Definition AnnotationUpdateMongosFirst : string := "percona.com/update-mongos-first".
Definition RestoreStateReady : string := "ready".
Definition RestoreStateError : string := "error".

Record RestoreSummary := { rsum_Cluster : string; rsum_State : string }.

(** What else the handlers use: running a command in a container (pkg's
    clientcmd is a wrapper of the Kubernetes API), client-go's retry, the
    clock, and listing the restore objects. *)
Class ClusterEnv (W : Type) := {
  ce_exec : Pod → string → list string → option string → GoM W (string * string * option error);
  ce_now : GoM W Z;
  ce_list_restores : string → GoM W (list RestoreSummary)
}.

(** client-go's [retry.OnError] with the given number of steps: it runs the
    function again and again, and does nothing else. *)
Class GoRetry := retry_OnError : ∀ {W}, nat → GoM W unit → GoM W unit.
Class GoRetryLaws (R : GoRetry) :=
  retry_runs : ∀ {W} (rel : W → W → Prop) n (m : GoM W unit),
    PreOrder rel → (∀ w, rel w (m w).2) → ∀ w, rel w (retry_OnError n m w).2.

(** Trying up to [n] times. *)
Fixpoint retry_n {W} (n : nat) (m : GoM W unit) : GoM W unit :=
  match n with
  | 0 => mret tt
  | S n' => λ w, match m w with
                 | (Err e, w') => match n' with 0 => (Err e, w') | _ => retry_n n' m w' end
                 | r => r
                 end
  end.
#[export] Instance retry_n_GoRetry : GoRetry := @retry_n.
#[export] Instance retry_n_laws : GoRetryLaws retry_n_GoRetry.
Proof.
  intros W rel n m [Hr Ht] Hm. unfold retry_OnError, retry_n_GoRetry.
  induction n as [|n IH]; intros w; cbn; [apply Hr|].
  specialize (Hm w). destruct (m w) as [[a|e] w1]; cbn in *; [done|].
  destruct n; [done|]. eapply Ht; [done|apply IH].
Qed.

Definition errNoRunningMongodContainers : error := ENew "no mongod containers in running state".

Section cluster.
Context {W : Type} {K : K8sClient W} {Y : Yaml} {V : Versions} {G : GoSort}.
Context {P : MongoClientProvider W} {E : ClusterEnv W} {R : GoRetry}
  {T : ErrorTests}.
Abbreviation M := (GoM W).

(** * Shards *)

Definition inShard (C : Client W) (rsName : string) : M bool :=
  shardList ← wrapM "unable to get shard list" cListShard;
  mret (existsb (λ shard, bool_decide (Shard_ID shard = rsName)) (Shards shardList)).

(** [for { ... }]: [fuel] bounds the number of removeShard calls (theorem
    [removeShard_loop_done]: as many as mongos needs are enough). *)
Fixpoint removeShard_loop (fuel : nat) (C : Client W) (rsName : string) : M (option unit) :=
  match fuel with
  | 0 => mret None
  | S fuel' =>
      resp ← wrapM "remove shard" (cRemoveShard rsName);
      if bool_decide (SRR_State resp = ShardRemoveCompleted) then mret (Some tt)
      else go_sleep (10 * Second)%Z;; removeShard_loop fuel' C rsName
  end.

Definition removeRSFromShard (fuel : nat) (cr : PerconaServerMongoDB) (rsName : string) : M (option unit) :=
  if negb (cr_ShardingEnabled cr) then mret (Some tt)
  else
    got ← tryM (mp_Mongos cr RoleClusterAdmin);
    match got with
    | Err e => throw (ENew ("failed to get mongos connection: " +:+ err_string e))
    | Ok cli => deferM mp_Disconnect (removeShard_loop fuel cli rsName)
    end.

Definition handleRsAddToShard (cr : PerconaServerMongoDB) (replset : ReplsetSpec)
    (rspod mongosPod : Pod) : M unit :=
  when negb (isContainerAndPodRunning rspod "mongod") || negb (isPodReady rspod)
  raise ENew ("rsPod " +:+ pod_Name rspod +:+ " is not ready");
  when negb (isContainerAndPodRunning mongosPod "mongos") || negb (isPodReady mongosPod)
  raise ENew "mongos pod is not ready";
  host ← wrapM ("get rsPod " +:+ pod_Name rspod +:+ " host")
           (MongoHost cr (cr_DNSMode cr) replset (rs_ExposeEnabled replset) rspod);
  cli ← wrapM "failed to get mongos client" (mp_Mongos cr RoleClusterAdmin);
  deferM mp_Disconnect
    (wrapM "failed to add shard" (cAddShard (MongoReplsetName replset) host)).

(** * Initialisation *)

Definition isMongoAuthFailure (err stdout stderr : string) : bool :=
  let msg := to_lower (join " " [err; stdout; stderr]) in
  str_contains "authentication failed" msg || str_contains "auth failed" msg
    || str_contains "requires authentication" msg || str_contains "unauthorized" msg.

Definition userAdminCanAuthenticate (pod : Pod) (mongoCmd user pwd : string) : M bool :=
  let cmd := mongoCmd +:+ " --quiet -u " +:+ sh_quote user +:+ " -p " +:+ sh_quote pwd +:+
    " --authenticationDatabase admin --eval 'quit(db.adminCommand({connectionStatus: 1}).authInfo.authenticatedUsers.length > 0 ? 0 : 1)'" in
  '(out, stderr, err) ← ce_exec pod "mongod" ["sh"; "-c"; cmd] None;
  match err with
  | Some e =>
      if isMongoAuthFailure (err_string e) out stderr then mret false
      else throw (ENew "exec userAdmin authentication check")
  | None => mret true
  end.

Definition createUserAdminIfNeeded (cr : PerconaServerMongoDB) (pod : Pod) (mongoCmd : string) : M unit :=
  userAdmin ← wrapM "failed to get userAdmin credentials" (getInternalCredentials cr RoleUserAdmin);
  let user := cred_Username userAdmin in
  let pwd := cred_Password userAdmin in
  canAuth ← userAdminCanAuthenticate pod mongoCmd user pwd;
  if canAuth : bool then mret tt
  else
    let cmd := mongoCmd +:+ " --eval " +:+ mongoInitAdminUser user pwd in
    '(_, _, err) ← ce_exec pod "mongod" ["sh"; "-c"; cmd] None;
    match err with
    | None => mret tt
    | Some e =>
        again ← tryM (userAdminCanAuthenticate pod mongoCmd user pwd);
        match again with
        | Err _ => throw (ENew "exec add admin user; check userAdmin authentication")
        | Ok false => throw (ENew "exec add admin user")
        | Ok true => mret tt
        end
    end.

Definition mongo_args (cr : PerconaServerMongoDB) (replset : ReplsetSpec) (version : string) : list string :=
  [if str_contains "v4.4" version || str_contains "v5.0" version then "mongo" else "mongosh"] ++
  (if TLSEnabled cr then ["--tls"; "--tlsCertificateKeyFile"; "/tmp/tls.pem";
     "--tlsAllowInvalidCertificates"; "--tlsCAFile"; "/etc/mongodb-ssl/ca.crt"] else []) ++
  ["--port"; itoa (rs_GetPort replset)].

(** One attempt of the wait for the new primary. *)
Definition hello_attempt (pod : Pod) (mongoCmd : string) : M unit :=
  '(out, _, err) ← ce_exec pod "mongod"
     ["sh"; "-c"; mongoCmd +:+ " --quiet --eval 'db.hello().isWritablePrimary'"] None;
  match err with
  | Some e => throw (EWrap e "run hello")
  | None =>
      if negb (bool_decide (trim_space out = "true"))
      then throw (ENew (pod_Name pod +:+ " is not the writable primary")) else mret tt
  end.

(** The body of the loop for a usable pod. *)
Definition init_from_pod (cr : PerconaServerMongoDB) (replset : ReplsetSpec) (pod : Pod)
    : M (Pod * ReplsetMemberStatus) :=
  let replsetName := MongoReplsetName replset in
  member ← wrapM ("get config member for pod " +:+ pod_Name pod)
             (getConfigMemberForPod cr replset 0 pod);
  '(version, _, err) ← ce_exec pod "mongod" ["mongod"; "--version"] None;
  when bool_decide (err ≠ None) raise ENew "exec --version";
  let mongoArgs := mongo_args cr replset version in
  let mongoCmd := join " " mongoArgs in
  let expr := mongoExpression "rs.initiate"
    (JObj [("_id", JStr replsetName); ("members", JArr [json_of_member member]); ("version", JInt 1)]) in
  '(_, _, err) ← ce_exec pod "mongod" mongoArgs (Some (expr +:+ String (Ascii.ascii_of_nat 10) ""));
  when bool_decide (err ≠ None) raise ENew "exec rs.initiate";
  wrapM "wait for replset initialization" (retry_OnError 5 (hello_attempt pod mongoCmd));;
  createUserAdminIfNeeded cr pod mongoCmd;;
  mret (pod, {| rms_Name := Host member; rms_State := MemberStatePrimary; rms_StateStr := "PRIMARY" |}).

Definition handleReplsetInit (cr : PerconaServerMongoDB) (replset : ReplsetSpec) (pods : list Pod)
    : M (Pod * ReplsetMemberStatus) :=
  match filter (λ pod, usable_mongod pod = true) pods with
  | pod :: _ => init_from_pod cr replset pod
  | [] => throw errNoRunningMongodContainers
  end.

(** * Recovery when no primary can be elected *)

Definition memberHasPod (member : ConfigMember) (podNames hosts : gset string) : bool :=
  match tag_get "podName" (Tags member) with
  | Some podName => bool_decide (podName ∈ podNames) || bool_decide (Host member ∈ hosts)
  | None => bool_decide (Host member ∈ hosts)
  end.

(** The hosts of the pods, or nothing when one of them can't be resolved. *)
Fixpoint resolve_hosts (cr : PerconaServerMongoDB) (replset : ReplsetSpec) (pods : list Pod)
    (hosts : gset string) : M (option (gset string)) :=
  match pods with
  | [] => mret (Some hosts)
  | pod :: pods' =>
      host ← tryM (MongoHost cr (cr_DNSMode cr) replset (rs_ExposeEnabled replset) pod);
      match host with
      | Err _ => mret None
      | Ok h => resolve_hosts cr replset pods' ({[ h ]} ∪ hosts)
      end
  end.

Definition removeUndesiredMembers (cr : PerconaServerMongoDB) (replset : ReplsetSpec)
    (pods : list Pod) (cfg : RSConfig) : M RSConfig :=
  resolved ← resolve_hosts cr replset pods ∅;
  match resolved with
  | None => mret cfg
  | Some hosts =>
      let podNames : gset string := list_to_set (pod_Name <$> pods) in
      let hosts := list_to_set (HostPort <$> rs_ExternalNodes replset) ∪ hosts in
      let keep := filter (λ m, memberHasPod m podNames hosts = true) (Members cfg) in
      let drop := filter (λ m, memberHasPod m podNames hosts = false) (Members cfg) in
      if (Z.of_nat (length drop) =? 0)%Z || (Z.of_nat (length keep) =? 0)%Z then mret cfg
      else mret (with_members cfg keep)
  end.

Definition forceReconfigFromPod (cr : PerconaServerMongoDB) (replset : ReplsetSpec)
    (pods : list Pod) (targetPod : Pod) : M unit :=
  cli ← wrapM "get standalone mongo client"
    (host ← wrapM "failed to get mongo host"
              (MongoHost cr (cr_DNSMode cr) replset (rs_ExposeEnabled replset) targetPod);
     mp_Standalone cr RoleClusterAdmin host (TLSEnabled cr));
  deferM mp_Disconnect
    (cfg ← wrapM "read replset config" (cReadConfig (Client := cli));
     cfg ← removeUndesiredMembers cr replset pods cfg;
     wrapM "reconfigure replset" (cWriteConfig (Client := cli) cfg true)).

Definition handleReplicaSetNoPrimary (cr : PerconaServerMongoDB) (replset : ReplsetSpec)
    (pods : list Pod) : M unit :=
  match filter (λ pod, usable_mongod pod = true) pods with
  | pod :: _ => wrapM "force reconfig member pod" (forceReconfigFromPod cr replset pods pod)
  | [] => throw errNoRunningMongodContainers
  end.

(** * Restores *)

Definition physicalRestoreInProgress (cr : PerconaServerMongoDB) (replset : ReplsetSpec) : M bool :=
  let stsName := cr_Name cr +:+ "-" +:+ rs_Name replset in
  got ← tryM (k8s_get_sts (cr_Namespace cr) stsName);
  match got with
  | Err e => if IsNotFound e then mret false else throw (EWrap e ("get statefulset " +:+ stsName))
  | Ok sts => mret (bool_decide (is_Some (sts_Annotations sts !! AnnotationRestoreInProgress)))
  end.

Definition restore_active (cluster : string) (rst : RestoreSummary) : bool :=
  bool_decide (rsum_Cluster rst = cluster)
    && negb (bool_decide (rsum_State rst = RestoreStateReady) || bool_decide (rsum_State rst = RestoreStateError)).

Definition isRestoreRunning (cr : PerconaServerMongoDB) : M bool :=
  got ← tryM (ce_list_restores (cr_Namespace cr));
  match got with
  | Err e => if IsNotFound e then mret false else throw (EWrap e "get restore list")
  | Ok restores => mret (existsb (restore_active (cr_Name cr)) restores)
  end.

Definition shouldUpdateMongosFirst (cr : PerconaServerMongoDB) : bool :=
  if negb (cr_ShardingEnabled cr) then false
  else bool_decide (is_Some (cr_Annotations cr !! AnnotationUpdateMongosFirst)).

(** * reconcileCluster

    The handler also changes the status of the cluster resource in memory, so
    it runs over the world and that status.  It returns an application state
    next to the error, so errors are values here. *)
Abbreviation S := (GoM (W * ClusterStatus)).
Abbreviation outcome := (string * gmap string ReplsetMemberStatus * option error)%type.

Definition onW {A} (m : M A) : S A := λ w, let '(r, w') := m w.1 in (r, (w', w.2)).
Definition getStatus : S ClusterStatus := λ w, (Ok w.2, w).
Definition setStatus (f : ClusterStatus → ClusterStatus) : S unit := λ w, (Ok tt, (w.1, f w.2)).

(** [if err != nil { return st, nil, errors.Wrap(err, msg) }] *)
Definition attempt {A} (st msg : string) (m : M A) (k : A → S outcome) : S outcome :=
  r ← tryM (onW m);
  match r with
  | Ok a => k a
  | Err e => mret (st, ∅, Some (EWrap e msg))
  end.

Definition done_with (st : string) : S outcome := mret (st, ∅, None).

Definition rs_status (name : string) (s : ClusterStatus) : ReplsetStatus :=
  default zeroReplsetStatus (st_Replsets s !! name).
Definition set_rs_status (name : string) (rst : ReplsetStatus) : S unit :=
  setStatus (with_Replsets (λ m, <[name := rst]> m)).

Definition add_init_condition (name : string) : S unit :=
  now ← onW ce_now;
  setStatus (AddCondition now {| cc_Type := AppStateInit; cc_Status := ConditionTrue; cc_Reason := "";
    cc_Message := name; cc_LastTransitionTime := Some now |}).

(** The pod that keeps the replica set from having all its pods. *)
Definition crash_looping (pods : list Pod) : option Pod :=
  head (filter (λ pod, existsb (λ cs, bool_decide (fst <$> cs_Waiting cs = Some "CrashLoopBackOff"))
                         (pod_ContainerStatuses pod) = true) pods).

Fixpoint all_imported (cr : PerconaServerMongoDB) (names : list string) : M bool :=
  match names with
  | [] => mret true
  | name :: names' =>
      imported ← wrapM ("check if service is imported for " +:+ name) (IsServiceImported cr name);
      if imported : bool then all_imported cr names' else mret false
  end.

(** With multi-cluster services every export must have been imported. *)
Definition services_ready (cr : PerconaServerMongoDB) : M bool :=
  if cr_MCSEnabled cr then
    seList ← wrapM "get exported services" (GetExportedServices cr);
    match seList with
    | [] => mret false
    | _ => all_imported cr seList
    end
  else mret true.

(** The connection failed. *)
Definition no_connection (cr : PerconaServerMongoDB) (replset : ReplsetSpec) (pods : list Pod)
    (err : error) : S outcome :=
  if cr_Unmanaged cr then done_with AppStateInit
  else
    status ← getStatus;
    if rst_Initialized (rs_status (rs_Name replset) status) then
      if as_ServerSelectionError err && str_contains "ReplicaSetNoPrimary" (err_string err) then
        attempt AppStateError "handle ReplicaSetNoPrimary"
          (handleReplicaSetNoPrimary cr replset pods) (λ _, done_with AppStateError)
      else mret (AppStateError, ∅, Some (EWrap err "dial"))
    else
      inited ← tryM (onW (handleReplsetInit cr replset pods));
      match inited with
      | Err e =>
          if bool_decide (err_cause e = errNoRunningMongodContainers) then done_with AppStateInit
          else mret (AppStateInit, ∅, Some (EWrap e "handleReplsetInit"))
      | Ok (pod, primary) =>
          attempt AppStateInit "create system users" (createOrUpdateSystemUsers cr replset) (λ _,
            status ← getStatus;
            let rs := set_RsMembers {[ pod_Name pod := primary ]}
                        (set_Initialized true (rs_status (rs_Name replset) status)) in
            set_rs_status (rs_Name replset) rs;;
            add_init_condition (rs_Name replset);;
            mret (AppStateInit, rst_Members rs, None))
      end.

(** [SetDefaultRWConcern]'s error, except that MongoDB before 4.4 lacks the command. *)
Definition push_rw_concern (C : Client W) (cr : PerconaServerMongoDB) : M unit :=
  let '(readConcern, writeConcernW, writeConcernWTimeout) := defaultRWConcern cr in
  r ← tryM (cSetDefaultRWConcern readConcern writeConcernW writeConcernWTimeout);
  match r with
  | Ok _ => mret tt
  | Err e => if str_contains "CommandNotFound" (err_string e) then mret tt else throw e
  end.

(** Through mongos: the concerns, then the shard, then the rest [k]; the
    connection stays open until the handler returns. *)
Definition with_mongos (cr : PerconaServerMongoDB) (replset : ReplsetSpec) (pod mongosPod : Pod)
    (rsStatus : ReplsetStatus) (k : S outcome) : S outcome :=
  attempt AppStateError "failed to get mongos connection" (mp_Mongos cr RoleClusterAdmin)
    (λ mongosSession, deferM (onW mp_Disconnect)
      (attempt AppStateError "set default RW concern" (push_rw_concern mongosSession cr) (λ _,
       attempt AppStateError "get shard" (inShard mongosSession (MongoReplsetName replset)) (λ isin,
       attempt AppStateError "add shard"
         (if isin : bool then mret tt else handleRsAddToShard cr replset pod mongosPod) (λ _,
       set_rs_status (rs_Name replset) (set_AddedAsShard (Some true) rsStatus);;
       k))))).

(** The sharding block; [k] is what follows it. *)
Definition sharding_part (cr : PerconaServerMongoDB) (replset : ReplsetSpec)
    (pods mongosPods : list Pod) (rstRunning : bool) (k : S outcome) : S outcome :=
  if cr_ShardingEnabled cr && (0 <? cr_MongosSize cr)%Z && negb rstRunning
     && negb (shouldUpdateMongosFirst cr)
     && bool_decide (rs_ClusterRole replset = ClusterRoleShardSvr) then
    status ← getStatus;
    let rsStatus := rs_status (rs_Name replset) status in
    match pods, mongosPods with
    | pod :: _, mongosPod :: _ =>
        if rst_Initialized rsStatus && bool_decide (rst_Status rsStatus = AppStateReady)
           && bool_decide (mgs_Status <$> st_Mongos status = Some AppStateReady) then
          with_mongos cr replset pod mongosPod rsStatus k
        else mret (AppStateInit, rst_Members rsStatus, None)
    | _, _ => mret (AppStateInit, rst_Members rsStatus, None)
    end
  else k.

(** The members, and the state they are in. *)
Definition members_part (C : Client W) (cr : PerconaServerMongoDB) (replset : ReplsetSpec)
    (pods : list Pod) : S outcome :=
  attempt AppStateError "failed to update config members" (updateConfigMembers (C := C) cr replset)
    (λ '(rsMembers, liveMembers, votesPending),
      if votesPending : bool then mret (AppStateInit, rsMembers, None)
      else if (liveMembers =? Z.of_nat (length pods))%Z then mret (AppStateReady, rsMembers, None)
      else mret (AppStateInit, rsMembers, None)).

(** Connected to the replica set. *)
Definition with_connection (C : Client W) (cr : PerconaServerMongoDB) (replset : ReplsetSpec)
    (pods mongosPods : list Pod) : S outcome :=
  if cr_Unmanaged cr then
    attempt AppStateError "failed to get rs status" cRSStatus (λ status,
      match Primary status with
      | None => done_with AppStateInit
      | Some _ => done_with AppStateReady
      end)
  else
    attempt AppStateInit "failed to check running restore" (isRestoreRunning cr) (λ rstRunning,
    attempt AppStateInit "create system users"
      (if negb rstRunning then createOrUpdateSystemUsers cr replset else mret tt) (λ _,
    status ← getStatus;
    let rs := rs_status (rs_Name replset) status in
    if negb (rst_Initialized rs) then
      set_rs_status (rs_Name replset) (set_Initialized true rs);;
      add_init_condition (rs_Name replset);;
      done_with AppStateInit
    else
      sharding_part cr replset pods mongosPods rstRunning
        (attempt AppStateError "set default RW concern"
           (if shouldSetDefaultRWConcern cr replset then push_rw_concern C cr else mret tt)
           (λ _, members_part C cr replset pods)))).

Definition reconcileCluster (cr : PerconaServerMongoDB) (replset : ReplsetSpec)
    (mongosPods : list Pod) : S outcome :=
  let replsetSize := rs_GetSize replset in
  attempt AppStateError "check if restore in progress" (physicalRestoreInProgress cr replset)
    (λ physicalRestore,
  if physicalRestore : bool then done_with AppStateInit
  else if (replsetSize =? 0)%Z then done_with AppStateReady
  else
  attempt AppStateInit "failed to get replset pods" (GetRSPods cr (rs_Name replset)) (λ pods,
  if (Z.of_nat (length pods) <? replsetSize)%Z then
    match crash_looping pods with
    | Some pod => mret (AppStateError, ∅,
        Some (ENew ("pod " +:+ pod_Name pod +:+ " is in CrashLoopBackOff state")))
    | None => done_with AppStateInit
    end
  else
    ready ← tryM (onW (services_ready cr));
    match ready with
    | Err e => mret (AppStateError, ∅, Some e)
    | Ok false => done_with AppStateInit
    | Ok true =>
        status ← getStatus;
        cli ← tryM (onW (mp_Mongo cr replset RoleClusterAdmin
                           (negb (rst_Initialized (rs_status (rs_Name replset) status)))));
        match cli with
        | Err e => no_connection cr replset pods e
        | Ok C => deferM (onW mp_Disconnect) (with_connection C cr replset pods mongosPods)
        end
    end)).
End cluster.

(** * Theorems: recovery *)

Section recovery.
Context {W : Type} {K : K8sClient W} {Y : Yaml} (cr : PerconaServerMongoDB) (replset : ReplsetSpec).

Definition pod_host (pod : Pod) : GoM W string :=
  MongoHost cr (cr_DNSMode cr) replset (rs_ExposeEnabled replset) pod.

Lemma memberHasPod_spec m podNames hosts :
  memberHasPod m podNames hosts = true ↔
  (∃ p, tag_get "podName" (Tags m) = Some p ∧ p ∈ podNames) ∨ Host m ∈ hosts.
Proof.
  unfold memberHasPod. destruct (tag_get "podName" (Tags m)) as [p|].
  - rewrite orb_true_iff, !bool_decide_eq_true. naive_solver.
  - rewrite bool_decide_eq_true. naive_solver.
Qed.

(** The hosts of the pods, one after the other from the world [w] to [w'] *)
Fixpoint resolves (pods : list Pod) (w : W) (hosts : list string) (w' : W) : Prop :=
  match pods, hosts with
  | [], [] => w' = w
  | p :: pods', h :: hosts' => ∃ w1, pod_host p w = (Ok h, w1) ∧ resolves pods' w1 hosts' w'
  | _, _ => False
  end.

(** The loop collects the hosts when each pod has one, and nothing otherwise. *)
Lemma resolve_hosts_spec pods hosts w :
  (∃ hs w', resolves pods w hs w' ∧
     resolve_hosts cr replset pods hosts w = (Ok (Some (list_to_set hs ∪ hosts)), w')) ∨
  (∃ w', (∀ hs w1, ¬ resolves pods w hs w1) ∧ resolve_hosts cr replset pods hosts w = (Ok None, w')).
Proof.
  revert hosts w. induction pods as [|p pods IH]; intros hosts w; cbn.
  { left. exists [], w. split; [done|].
    assert (list_to_set [] ∪ hosts = hosts) as -> by set_solver. done. }
  unfold tryM, mbind, gom_bind. fold (pod_host p). destruct (pod_host p w) as [[h|e] w1] eqn:Eh.
  - destruct (IH ({[h]} ∪ hosts) w1) as [(hs & w' & Hr & E)|(w' & Hn & E)].
    + left. exists (h :: hs), w'. split; [by exists w1|]. rewrite E.
      assert (list_to_set hs ∪ ({[h]} ∪ hosts) = list_to_set (h :: hs) ∪ hosts) as -> by set_solver. done.
    + right. exists w'. split; [|done]. intros [|h' hs] w2 Hr; [destruct Hr|].
      destruct Hr as (u & Eu & Hu). simplify_eq. by eapply Hn.
  - right. exists w1. split; [|done]. intros [|h' hs] w2 Hr; [destruct Hr|].
    by destruct Hr as (? & ? & _).
Qed.

(** A member that stands for a pod, by the pod's name in its tags or by the
    pod's host, or for an external node *)
Definition backed (pods : list Pod) (hosts : list string) (m : ConfigMember) : Prop :=
  (∃ p, tag_get "podName" (Tags m) = Some p ∧ p ∈ pod_Name <$> pods) ∨
  Host m ∈ HostPort <$> rs_ExternalNodes replset ∨ Host m ∈ hosts.

Lemma memberHasPod_backed pods hosts m :
  memberHasPod m (list_to_set (pod_Name <$> pods))
    (list_to_set (HostPort <$> rs_ExternalNodes replset) ∪ (list_to_set hosts ∪ ∅)) = true ↔
  backed pods hosts m.
Proof. rewrite memberHasPod_spec. unfold backed. set_solver. Qed.

(** C12: Recovery without a primary drops members of the configuration it read
    and changes nothing else of it, and never drops all. When the host of some
    pod can not be found, all members stay. Otherwise exactly the backed
    members stay, or all when none is backed: a member is backed when its
    podName tag names a pod of the list, or its host is that of an external
    node, or its host is the one found in this run for a pod of the list. *)
Theorem removeUndesiredMembers_spec pods cfg w r w' :
  removeUndesiredMembers cr replset pods cfg w = (r, w') →
  ∃ cfg', r = Ok cfg' ∧ cfg' = with_members cfg (Members cfg') ∧
    Members cfg' `sublist_of` Members cfg ∧
    (Members cfg ≠ [] → Members cfg' ≠ []) ∧
    ((∀ hosts w1, ¬ resolves pods w hosts w1) ∧ cfg' = cfg ∨
     ∃ hosts, resolves pods w hosts w' ∧
       ((∀ m, m ∈ Members cfg → (m ∈ Members cfg' ↔ backed pods hosts m)) ∨
        (∀ m, m ∈ Members cfg → ¬ backed pods hosts m) ∧ cfg' = cfg)).
Proof.
  unfold removeUndesiredMembers, mbind, gom_bind.
  assert (cfg = with_members cfg (Members cfg)) as Hcfg by by rewrite with_same_members.
  destruct (resolve_hosts_spec pods ∅ w) as [(hosts & w1 & Hr & ->)|(w1 & Hn & ->)].
  2:{ intros [= <- <-]. exists cfg. split_and!; try done. by left. }
  cbv zeta. pose proof (memberHasPod_backed pods hosts) as Hb.
  set (has := λ m, memberHasPod m (list_to_set (pod_Name <$> pods))
    (list_to_set (HostPort <$> rs_ExternalNodes replset) ∪ (list_to_set hosts ∪ ∅))) in *. case_match eqn:Eb; intros [= <- <-].
  - exists cfg. split_and!; try done. right. exists hosts. split; [done|].
    apply orb_true_iff in Eb as [Ek%Z.eqb_eq|Ek%Z.eqb_eq];
      rewrite <- (Nat2Z.inj_0) in Ek; apply Nat2Z.inj, length_zero_iff_nil in Ek.
    + left. intros m Hm. split; [intros _|done]. apply Hb. fold (has m).
      destruct (has m) eqn:E; [done|]. exfalso. eapply not_elem_of_nil. rewrite <- Ek.
      by apply list_elem_of_filter.
    + right. split; [|done]. intros m Hm Hbm%Hb. eapply not_elem_of_nil. rewrite <- Ek.
      by apply list_elem_of_filter.
  - apply orb_false_elim in Eb as [_ Hk%Z.eqb_neq].
    eexists. split_and!; [done|by destruct cfg|apply sublist_filter_self|intros _ Hn; cbn in Hn; by rewrite Hn in Hk|].
    right. exists hosts. split; [done|]. left. intros m Hm. cbn. rewrite list_elem_of_filter.
    split; [intros [? _]; by apply Hb|]. intros ?%Hb. by split.
Qed.
End recovery.

(** * Theorem: removing a shard ends *)

Section shard.
Context {W : Type} {K : K8sClient W} (C : Client W) (rsName : string).

(** mongos was asked [k] times, ten seconds apart, each time without an error;
    [last] is whether the last answer, and none before it, was "completed". *)
Inductive asked : nat → bool → W → W → Prop :=
| asked_none w : asked 0 false w w
| asked_completed w resp w' :
    cRemoveShard rsName w = (Ok resp, w') → SRR_State resp = ShardRemoveCompleted → asked 1 true w w'
| asked_again k last w resp w1 w2 w' :
    cRemoveShard rsName w = (Ok resp, w1) → SRR_State resp ≠ ShardRemoveCompleted →
    go_sleep (10 * Second)%Z w1 = (Ok tt, w2) → asked k last w2 w' → asked (S k) last w w'.

(** C40: The loop that removes a shard returns with success within n rounds
    exactly when mongos, asked again every ten seconds, answered "completed"
    within n answers, every answer before it came without an error and was
    another, and every wait in between ended; it is still waiting after n
    rounds exactly when n such answers were not "completed". Any error of an
    answer or a wait ends it with an error. *)
Theorem removeShard_loop_done n w w' :
  (removeShard_loop n C rsName w = (Ok (Some tt), w') ↔ ∃ k, k ≤ n ∧ asked k true w w') ∧
  (removeShard_loop n C rsName w = (Ok None, w') ↔ asked n false w w').
Proof.
  revert w. induction n as [|n IH]; intros w.
  { cbn. split; split; [done|..].
    - intros (k & Hk & Ha). assert (k = 0) as -> by lia. inversion Ha.
    - intros [= <-]. constructor.
    - by inversion 1. }
  cbn [removeShard_loop]. unfold wrapM, mbind, gom_bind.
  destruct (cRemoveShard rsName w) as [[resp|e] w1] eqn:E1; cbn [wrap_err].
  2:{ split; split; [done| |done|].
      - intros (k & _ & Ha). inversion Ha; congruence.
      - inversion 1; congruence. }
  unfold mret, gom_ret. case_bool_decide as Hc.
  { split; split; [|..|done|].
    - intros [= <-]. exists 1. split; [lia|]. by eapply asked_completed.
    - intros (k & _ & Ha). inversion Ha; congruence.
    - inversion 1; congruence. }
  destruct (go_sleep (10 * Second)%Z w1) as [[[]|e] w2] eqn:E2.
  2:{ split; split; [done| |done|].
      - intros (k & _ & Ha). inversion Ha; congruence.
      - inversion 1; congruence. }
  destruct (IH w2) as [IH1 IH2]. rewrite IH1, IH2. split; split.
  - intros (k & Hk & Ha). exists (S k). split; [lia|]. by eapply asked_again.
  - intros (k & Hk & Ha). inversion Ha as [| |k' ? ? ? ? u ? R1 R2 R3 R4]; [congruence|].
    assert (u = w2) as -> by congruence. exists k'. split; [lia|done].
  - intros Ha. by eapply asked_again.
  - inversion 1 as [| |k' ? ? ? ? u ? R1 R2 R3 R4]; subst. by assert (u = w2) as -> by congruence.
Qed.
End shard.

(** * Witnesses *)

(** Two members, of which only the first has a pod. *)
Lemma removeUndesiredMembers_spec_witness :
  let cr := a_cluster [] in let rs := a_replset "rs0" 1 in
  let cfg := with_members demo_rsconfig
    [demo_pod "c-rs0-0" "h0" 0; demo_pod "c-rs0-1" "h1" 1] in
  let run := removeUndesiredMembers (K := emptyK8s unit) (Y := emptyYaml) cr rs
    [a_pod "c-rs0-0" "mongod"] cfg tt in
  Members <$> run.1 = Ok [demo_pod "c-rs0-0" "h0" 0] ∧
  ∃ cfg', run.1 = Ok cfg' ∧ Members cfg' ≠ [].
Proof.
  cbv zeta. split; [vm_compute; reflexivity|].
  destruct (removeUndesiredMembers_spec (K := emptyK8s unit) (Y := emptyYaml) (a_cluster [])
    (a_replset "rs0" 1) [a_pod "c-rs0-0" "mongod"]
    (with_members demo_rsconfig [demo_pod "c-rs0-0" "h0" 0; demo_pod "c-rs0-1" "h1" 1]) tt _ _
    (surjective_pairing _)) as (cfg' & E & _ & _ & Hne & _).
  exists cfg'. split; [exact E|]. apply Hne. discriminate.
Defined.

(** A mongos that needs three calls: the world counts the chunks to move. *)
Definition draining_client : Client nat :=
  let base := fixed_client nat demo_rsconfig (demo_status []) in
  {| cSetDefaultRWConcern := cSetDefaultRWConcern (Client := base);
     cReadConfig := cReadConfig (Client := base);
     cCreateRole := cCreateRole (Client := base);
     cUpdateRole := cUpdateRole (Client := base);
     cGetRole := cGetRole (Client := base);
     cCreateUser := cCreateUser (Client := base);
     cAddShard := cAddShard (Client := base);
     cWriteConfig := cWriteConfig (Client := base);
     cRSStatus := cRSStatus (Client := base);
     cStartBalancer := cStartBalancer (Client := base);
     cStopBalancer := cStopBalancer (Client := base);
     cIsBalancerRunning := cIsBalancerRunning (Client := base);
     cGetFCV := cGetFCV (Client := base);
     cSetFCV := cSetFCV (Client := base);
     cListDBs := cListDBs (Client := base);
     cListShard := cListShard (Client := base);
     cRemoveShard := λ _ n,
       (Ok {| SRR_Msg := ""; SRR_State := match n with 0 => ShardRemoveCompleted | _ => "ongoing" end;
              SRR_Note := ""; DBsToMove := []; Rem_DBs := 0; Rem_Chunks := Z.of_nat n;
              Rem_JumboChunks := 0; SRR_OK := {| Errmsg := ""; OK := 1 |} |}, pred n);
     cRSBuildInfo := cRSBuildInfo (Client := base);
     cStepDown := cStepDown (Client := base);
     cFreeze := cFreeze (Client := base);
     cIsMaster := cIsMaster (Client := base);
     cGetUserInfo := cGetUserInfo (Client := base);
     cUpdateUserRoles := cUpdateUserRoles (Client := base);
     cUpdateUserPass := cUpdateUserPass (Client := base);
     cUpdateUser := cUpdateUser (Client := base);
     cRunCommand := cRunCommand (Client := base) |}.

Lemma removeShard_loop_done_witness :
  removeShard_loop (K := emptyK8s nat) 3 draining_client "rs1" 2 = (Ok (Some tt), 0) ∧
  ∃ k, k ≤ 3 ∧ asked (K := emptyK8s nat) draining_client "rs1" k true 2 0.
Proof.
  split; [reflexivity|].
  apply (removeShard_loop_done (K := emptyK8s nat) draining_client "rs1" 3 2 0). reflexivity.
Defined.
