(* ===== verification/ClusterSafety.v ===== *)
(** When a forced reconfiguration can happen.

    The handler [reconcileCluster] is run over a world that records every
    reconfiguration it asks for (WriteLog); all of them are unforced but the
    one of the crash recovery. *)
From S2P Require Import Prelude ReplsetModels ReplsetMembers ReplsetVotes MongoClient MongoDial.
From S2P Require Import Api GoSort Kube Hosts WriteLog ReplsetReconcile SystemUsers Shell Cluster.

(** * The environment of a recorded run *)
Section env.
Context {W : Type}.

Definition pass_client (m : GoM W (Client W)) : GoM (W * wlog) (Client (W * wlog)) := λ w,
  let '(r, w') := m w.1 in (logged_client <$> r, (w', w.2)).

Definition logged_provider (P : MongoClientProvider W) : MongoClientProvider (W * wlog) := {|
  mp_Mongo := λ a b c d, pass_client (mp_Mongo a b c d);
  mp_Mongos := λ a b, pass_client (mp_Mongos a b);
  mp_Standalone := λ a b c d, pass_client (mp_Standalone a b c d);
  mp_Disconnect := pass mp_Disconnect
|}.

Definition logged_env (E : ClusterEnv W) : ClusterEnv (W * wlog) := {|
  ce_exec := λ a b c d, pass (ce_exec a b c d);
  ce_now := pass ce_now;
  ce_list_restores := λ a, pass (ce_list_restores a)
|}.
End env.

(** * Runs that force nothing *)

(** [calm log m Q]: [m] only adds unforced writes to the log, and when it
    succeeds its result satisfies [Q]. *)
Definition calm {X A} (log : X → wlog) (m : GoM X A) (Q : A → Prop) : Prop :=
  ∀ w, ∃ new, log (m w).2 = log w ++ new ∧ Forall (λ x, x.2 = false) new ∧
    ∀ a, (m w).1 = Ok a → Q a.

Section calm.
Context {X : Type} (log : X → wlog).

Lemma calm_ret {A} (a : A) (Q : A → Prop) : Q a → calm log (mret a) Q.
Proof.
  intros HQ w. exists []. rewrite app_nil_r. split_and!; [done|constructor|]. by intros b [= <-].
Qed.
Lemma calm_throw {A} e (Q : A → Prop) : calm log (throw e) Q.
Proof. intros w. exists []. rewrite app_nil_r. split_and!; [done|constructor|done]. Qed.
Lemma calm_bind {A B} (m : GoM X A) (f : A → GoM X B) Q R :
  calm log m Q → (∀ a, Q a → calm log (f a) R) → calm log (m ≫= f) R.
Proof.
  intros Hm Hf w. destruct (Hm w) as (new & E & Hn & HQ). unfold mbind, gom_bind.
  destruct (m w) as [[a|e] w1]; cbn in *.
  - destruct (Hf a (HQ _ eq_refl) w1) as (new' & E' & Hn' & HR). exists (new ++ new').
    rewrite E', E, app_assoc. split_and!; [done|by apply Forall_app|done].
  - by exists new.
Qed.
Lemma calm_weaken {A} (m : GoM X A) (Q R : A → Prop) :
  calm log m Q → (∀ a, Q a → R a) → calm log m R.
Proof. intros Hm HQ w. destruct (Hm w) as (new & ? & ? & ?). exists new. split_and!; eauto. Qed.
Lemma calm_wrap {A} msg (m : GoM X A) Q : calm log m Q → calm log (wrapM msg m) Q.
Proof.
  intros Hm w. destruct (Hm w) as (new & E & ? & HQ). exists new. unfold wrapM.
  destruct (m w) as [[a|e] w1]; cbn in *; split_and!; done.
Qed.
Lemma calm_try {A} (m : GoM X A) (Q : A → Prop) :
  calm log m Q → calm log (tryM m) (λ r, ∀ a, r = Ok a → Q a).
Proof.
  intros Hm w. destruct (Hm w) as (new & E & ? & HQ). exists new. unfold tryM.
  destruct (m w) as [r w1]; cbn in *. split_and!; [done..|]. intros ? [= <-]. done.
Qed.
Lemma calm_defer {A B} (d : GoM X B) (m : GoM X A) Q Q' :
  calm log d Q' → calm log m Q → calm log (deferM d m) Q.
Proof.
  intros Hd Hm w. destruct (Hm w) as (new & E & ? & HQ). unfold deferM.
  destruct (m w) as [r w1]; cbn in *. destruct (Hd w1) as (new' & E' & ? & _).
  exists (new ++ new'). rewrite E', E, app_assoc. split_and!; [done|by apply Forall_app|done].
Qed.
Lemma calm_if {A} (b : bool) (m1 m2 : GoM X A) Q :
  (b = true → calm log m1 Q) → (b = false → calm log m2 Q) → calm log (if b then m1 else m2) Q.
Proof. destruct b; auto. Qed.
End calm.

Section calm_handlers.
Context {W : Type} (K : K8sClient W) {Y : Yaml} {V : Versions} {G : GoSort}.
Context (P : MongoClientProvider W) (E : ClusterEnv W) {R : GoRetry} {RL : GoRetryLaws R}.
Context {T : ErrorTests}.
Local Existing Instance logged_k8s.
Local Existing Instance logged_provider.
Local Existing Instance logged_env.
Abbreviation calmM := (calm (X := W * wlog) snd).
Abbreviation logS := (λ w : (W * wlog) * ClusterStatus, w.1.2).
Abbreviation any := (λ _, True).

Lemma calm_silent {A} (m : GoM (W * wlog) A) : silent m → calmM m any.
Proof. intros Hm w. exists []. rewrite app_nil_r. split_and!; [apply Hm|constructor|done]. Qed.

Lemma calm_logs {A} psa n c (m : GoM (W * wlog) A) Q : logs psa n c m Q → calmM m any.
Proof.
  intros Hm w. destruct (Hm w) as (new & d & ? & Hc & _). exists new. split_and!; [done| |done].
  clear -Hc. induction Hc; by constructor.
Qed.

(** Every connection records what is written through it. *)
Definition recorded (C : Client (W * wlog)) : Prop := ∃ C0, C = logged_client C0.
Lemma calm_client (m : GoM W (Client W)) : calmM (pass_client m) recorded.
Proof.
  intros w. exists []. rewrite app_nil_r. unfold pass_client. destruct (m w.1) as [r w1]; cbn.
  split_and!; [done|constructor|]. intros C. destruct r; intros [= <-]. by eexists.
Qed.

Lemma silent_defer {A B} (d : GoM (W * wlog) B) (m : GoM (W * wlog) A) :
  silent d → silent m → silent (deferM d m).
Proof.
  intros Hd Hm w. specialize (Hm w). unfold deferM. destruct (m w) as [r w1]; cbn in *.
  by rewrite Hd.
Qed.
Lemma silent_retry n (m : GoM (W * wlog) unit) : silent m → silent (retry_OnError n m).
Proof.
  intros Hm w. symmetry.
  refine (retry_runs (λ w w', w.2 = w'.2) n m _ _ w).
  - split; [by intros ?|intros ? ? ? H1 H2; congruence].
  - intros w1. symmetry. apply Hm.
Qed.
Lemma silent_liftR {A} (r : result A) : silent (liftR r : GoM (W * wlog) A).
Proof. done. Qed.
Hint Resolve silent_liftR silent_defer silent_retry : silent.

Lemma silent_mapM {A} (f : A → GoM (W * wlog) unit) l : (∀ x, silent (f x)) → silent (mapM_list f l).
Proof. intros Hf. induction l; cbn; silence. Qed.

Lemma silent_credentials cr role : silent (getInternalCredentials cr role).
Proof. unfold getInternalCredentials. silence. Qed.
Hint Resolve silent_credentials : silent.

Lemma silent_roles (C : Client W) role ps : silent (createOrUpdateSystemRoles (C := logged_client C) role ps).
Proof. unfold createOrUpdateSystemRoles. silence. Qed.
Hint Resolve silent_roles : silent.
Lemma silent_user (C : Client W) cr role : silent (ensure_system_user (C := logged_client C) cr role).
Proof. unfold ensure_system_user. silence. Qed.
Lemma silent_users (C : Client W) cr : silent (ensure_system_users (C := logged_client C) cr).
Proof.
  unfold ensure_system_users, ensure_system_roles.
  apply silent_bind; [silence|]. intros _. apply silent_mapM. intros. apply silent_user.
Qed.

Lemma calm_system_users cr rs : calmM (createOrUpdateSystemUsers cr rs) any.
Proof.
  unfold createOrUpdateSystemUsers. eapply calm_bind; [apply calm_wrap, calm_client|].
  intros ? [C0 ->]. eapply calm_defer; [by apply calm_silent, silent_pass|].
  apply calm_silent, silent_users.
Qed.

Lemma silent_member cr rs id pod : silent (getConfigMemberForPod cr rs id pod).
Proof. unfold getConfigMemberForPod. silence. Qed.
Lemma silent_canauth pod c u p : silent (userAdminCanAuthenticate pod c u p).
Proof. unfold userAdminCanAuthenticate. silence. Qed.
Hint Resolve silent_member silent_canauth : silent.
Lemma silent_createUserAdmin cr pod c : silent (createUserAdminIfNeeded cr pod c).
Proof. unfold createUserAdminIfNeeded. silence. Qed.
Lemma silent_hello pod c : silent (hello_attempt pod c).
Proof. unfold hello_attempt. silence. Qed.
Hint Resolve silent_createUserAdmin silent_hello : silent.
Lemma silent_init cr rs pods : silent (handleReplsetInit cr rs pods).
Proof. unfold handleReplsetInit, init_from_pod. silence. Qed.
Hint Resolve silent_init : silent.

(** ** The members *)
Lemma calm_bump (C : Client W) (cnf : RSConfig) ms : calmM (bump_and_write (C := logged_client C) cnf ms) any.
Proof.
  intros [w l]. unfold bump_and_write, tryM, mbind, gom_bind, mret, gom_ret. cbn. unfold record_write. cbn.
  set (c := with_version _ _). exists [(c, false)]. destruct (cWriteConfig c false w) as [r w1]. cbn.
  split_and!; [done|by repeat constructor|done].
Qed.
Lemma calm_write_if (C : Client W) b msg cnf ms : calmM (write_if (C := logged_client C) b msg cnf ms) any.
Proof.
  unfold write_if. destruct b; [|by apply calm_ret].
  eapply calm_bind; [apply calm_bump|]. intros [c [u|e]] _; [by apply calm_ret|apply calm_throw].
Qed.

Lemma calm_fix_hostnames (C : Client W) cnf ms st : calmM (fix_hostnames (C := logged_client C) cnf ms st) any.
Proof.
  unfold fix_hostnames. destruct (FixMemberHostnames _ _ _) as [[ms' sm] ch]. destruct ch; [|by apply calm_ret].
  eapply calm_bind; [apply calm_silent; silence|]. intros _ _.
  eapply calm_bind; [apply calm_write_if|]. intros _ _. by apply calm_ret.
Qed.
Lemma calm_remove_old (C : Client W) cnf ms : calmM (remove_old (C := logged_client C) cnf ms) any.
Proof.
  unfold remove_old. destruct (RemoveOld _ _) as [ms' ch]. destruct ch; [|by apply calm_ret].
  eapply calm_bind; [apply calm_bump|]. intros [c [u|e]] _; [by apply calm_ret|].
  apply calm_if; intros _; [by apply calm_ret|apply calm_throw].
Qed.
Lemma calm_arbiter_or_add (C : Client W) cnf ms psa :
  calmM (remove_arbiter_or_add (C := logged_client C) cnf ms psa) any.
Proof.
  unfold remove_arbiter_or_add. destruct (RemoveArbiterIfNeeded _ _) as [ms' ch].
  destruct ch; [apply calm_write_if|]. destruct (AddNew _ _). apply calm_write_if.
Qed.
Lemma calm_update_votes (C : Client W) cnf ms psa p : calmM (update_votes (C := logged_client C) cnf ms psa p) any.
Proof.
  unfold update_votes. destruct (UpdateVotes _ _ _ _) as [[ms' ch] pend].
  eapply calm_bind; [apply calm_write_if|]. intros c _. by apply calm_ret.
Qed.

Lemma silent_pod_members cr rs key ms pods : silent (pod_members cr rs key ms pods).
Proof. revert key ms. induction pods; intros; cbn; silence. Qed.
Hint Resolve silent_pod_members : silent.

Lemma calm_reconfigure (C : Client W) cr rs cnf st ms : calmM (reconfigure (C := logged_client C) cr rs cnf st ms) any.
Proof.
  unfold reconfigure. eapply calm_bind; [apply calm_fix_hostnames|]. intros [u|] _; [by apply calm_ret|].
  destruct (FixMemberConfigs _ _) as [ms1 ch1].
  eapply calm_bind; [apply calm_write_if|]. intros c1 _.
  eapply calm_bind; [apply calm_remove_old|]. intros [c2 go] _.
  apply calm_if; intros _; [by apply calm_ret|].
  eapply calm_bind; [apply calm_arbiter_or_add|]. intros c3 _.
  destruct (ExternalNodesChanged _ _) as [ms2 ch2].
  eapply calm_bind; [apply calm_write_if|]. intros c4 _.
  eapply calm_bind; [apply calm_update_votes|]. intros [c5 pend] _.
  eapply calm_bind; [apply calm_silent; silence|]. intros st2 _.
  destruct (countLiveMembers _ _ _ _). by apply calm_ret.
Qed.

Lemma calm_updateConfigMembers (C : Client W) cr rs : calmM (updateConfigMembers (C := logged_client C) cr rs) any.
Proof.
  unfold updateConfigMembers, GetRSPods. eapply calm_bind; [apply calm_silent; silence|]. intros pods _.
  eapply calm_bind; [apply calm_silent; silence|]. intros cnf _.
  eapply calm_bind; [apply calm_silent; silence|]. intros st _.
  eapply calm_bind; [apply calm_silent; unfold wanted_members; silence|]. intros ms _.
  apply calm_reconfigure.
Qed.

(** ** reconcileCluster *)
Lemma calm_onW {A} (m : GoM (W * wlog) A) Q : calmM m Q → calm logS (onW m) Q.
Proof.
  intros Hm [w s]. destruct (Hm w) as (new & ? & ? & HQ). exists new. unfold onW. cbn.
  destruct (m w) as [r w1]. by split_and!.
Qed.
Lemma calm_attempt {A} st msg (m : GoM (W * wlog) A) k Q :
  calmM m Q → (∀ a, Q a → calm logS (k a) any) → calm logS (attempt st msg m k) any.
Proof.
  intros Hm Hk. unfold attempt. eapply calm_bind; [by apply calm_try, calm_onW|].
  intros [a|e] Ha; [by apply Hk, Ha|by apply calm_ret].
Qed.
Lemma calm_status {A} (k : ClusterStatus → GoM ((W * wlog) * ClusterStatus) A) Q :
  (∀ s, calm logS (k s) Q) → calm logS (getStatus ≫= k) Q.
Proof.
  intros Hk. eapply (calm_bind _ _ _ any); [|intros; apply Hk].
  intros w. exists []. rewrite app_nil_r. by split_and!; [done|constructor|done].
Qed.
Lemma calm_set f : calm logS (setStatus (W := W * wlog) f) any.
Proof. intros w. exists []. rewrite app_nil_r. by split_and!; [done|constructor|done]. Qed.
Lemma calm_add_condition name : calm logS (add_init_condition (W := W * wlog) name) any.
Proof.
  unfold add_init_condition. eapply calm_bind; [apply calm_onW, calm_silent; silence|].
  intros; apply calm_set.
Qed.
Lemma calm_done st : calm logS (done_with (W := W * wlog) st) any.
Proof. by apply calm_ret. Qed.

Lemma calm_push (C : Client W) cr : calmM (push_rw_concern (logged_client C) cr) any.
Proof. unfold push_rw_concern. apply calm_silent. silence. Qed.

Lemma calm_add_shard cr rs pod mpod : calmM (handleRsAddToShard cr rs pod mpod) any.
Proof.
  unfold handleRsAddToShard. do 2 (apply calm_if; intros _; [apply calm_throw|]).
  eapply calm_bind; [apply calm_silent; silence|]. intros host _.
  eapply calm_bind; [apply calm_wrap, calm_client|]. intros ? [C0 ->].
  eapply calm_defer; [by apply calm_silent, silent_pass|]. apply calm_silent. silence.
Qed.

Lemma calm_with_mongos cr rs pod mpod st k :
  calm logS k any → calm logS (with_mongos cr rs pod mpod st k) any.
Proof.
  intros Hk. unfold with_mongos. eapply calm_attempt; [apply calm_client|]. intros ? [C0 ->].
  eapply calm_defer; [by apply calm_onW, calm_silent, silent_pass|].
  eapply calm_attempt; [apply calm_push|]. intros _ _.
  eapply calm_attempt; [apply calm_silent; unfold inShard; silence|]. intros isin _.
  apply (calm_attempt _ _ _ _ any); [apply calm_if; intros _; [by apply calm_ret|apply calm_add_shard]|]. intros _ _.
  eapply calm_bind; [apply calm_set|]. by intros.
Qed.

Lemma calm_sharding cr rs pods mpods rr k :
  calm logS k any → calm logS (sharding_part cr rs pods mpods rr k) any.
Proof.
  intros Hk. unfold sharding_part. apply calm_if; intros _; [|done]. apply calm_status. intros s.
  destruct pods, mpods; try by apply calm_ret.
  apply calm_if; intros _; [by apply calm_with_mongos|by apply calm_ret].
Qed.

Lemma calm_restore cr : calmM (isRestoreRunning cr) any.
Proof. apply calm_silent. unfold isRestoreRunning. silence. Qed.

Lemma calm_connected (C : Client W) cr rs pods mpods :
  calm logS (with_connection (logged_client C) cr rs pods mpods) any.
Proof.
  unfold with_connection. apply calm_if; intros _.
  { eapply calm_attempt; [apply calm_silent; silence|]. intros st _.
    destruct (Primary st); apply calm_done. }
  eapply calm_attempt; [apply calm_restore|]. intros rr _.
  apply (calm_attempt _ _ _ _ any); [apply calm_if; intros _; [apply calm_system_users|by apply calm_ret]|]. intros _ _.
  apply calm_status. intros s. apply calm_if; intros _.
  { eapply calm_bind; [apply calm_set|]. intros _ _.
    eapply calm_bind; [apply calm_add_condition|]. intros _ _. apply calm_done. }
  apply calm_sharding.
  apply (calm_attempt _ _ _ _ any); [apply calm_if; intros _; [apply calm_push|by apply calm_ret]|]. intros _ _.
  unfold members_part. eapply calm_attempt; [apply calm_updateConfigMembers|].
  intros [[ms live] pend] _. repeat (apply calm_if; intros _); by apply calm_ret.
Qed.

(** ** The whole handler *)

Lemma attempt_silent {A} st msg (m : GoM (W * wlog) A) k w l s :
  silent m →
  ∃ w1, (∃ e, attempt st msg m k ((w, l), s) = (Ok (st, ∅, Some (EWrap e msg)), ((w1, l), s))) ∨
    ∃ a, m (w, l) = (Ok a, (w1, l)) ∧ attempt st msg m k ((w, l), s) = k a ((w1, l), s).
Proof.
  intros Hm. specialize (Hm (w, l)). unfold attempt, tryM, onW, mbind, gom_bind. cbn [fst snd].
  destruct (m (w, l)) as [[a|e] [w1 l1]]; cbn in *; subst l1; exists w1; [right|left]; eauto.
Qed.

(** The crash recovery writes at most once, with force. *)
Definition forced_once {A} (m : GoM (W * wlog) A) : Prop :=
  ∀ w, (m w).2.2 = w.2 ∨ ∃ cfg, (m w).2.2 = w.2 ++ [(cfg, true)].

Lemma forced_wrap {A} msg (m : GoM (W * wlog) A) : forced_once m → forced_once (wrapM msg m).
Proof. intros Hm w. specialize (Hm w). unfold wrapM. destruct (m w). exact Hm. Qed.
Lemma forced_bind {A B} (m : GoM (W * wlog) A) (f : A → GoM (W * wlog) B) (Q : A → Prop) :
  silent m → (∀ w a, (m w).1 = Ok a → Q a) → (∀ a, Q a → forced_once (f a)) → forced_once (m ≫= f).
Proof.
  intros Hm HQ Hf w. specialize (Hm w). specialize (HQ w). unfold mbind, gom_bind.
  destruct (m w) as [[a|e] w1]; cbn in *; [|by left]. rewrite <- Hm. by apply Hf, HQ.
Qed.
Lemma forced_defer {A B} (d : GoM (W * wlog) B) (m : GoM (W * wlog) A) :
  silent d → forced_once m → forced_once (deferM d m).
Proof.
  intros Hd Hm w. specialize (Hm w). unfold deferM. destruct (m w) as [r w1].
  cbn in *. rewrite (Hd w1). exact Hm.
Qed.
Lemma forced_write (C : Client W) cfg : forced_once (cWriteConfig (Client := logged_client C) cfg true).
Proof.
  intros [w l]. right. exists cfg. cbn. unfold record_write. cbn. destruct (cWriteConfig cfg true w); done.
Qed.

Lemma silent_removeUndesired cr rs pods cfg : silent (removeUndesiredMembers cr rs pods cfg).
Proof.
  unfold removeUndesiredMembers. apply silent_bind; [|intros; silence].
  generalize (∅ : gset string). induction pods as [|p pods' IH]; intros; cbn; [silence|].
  apply silent_bind; [silence|]. intros [h|e]; [apply IH|silence].
Qed.

Lemma silent_client (m : GoM W (Client W)) : silent (pass_client m).
Proof. intros [w l]. unfold pass_client. cbn. destruct (m w); done. Qed.

Lemma forced_recovery cr rs pods : forced_once (handleReplicaSetNoPrimary cr rs pods).
Proof.
  unfold handleReplicaSetNoPrimary. destruct (filter _ pods) as [|pod l0]; [by left|].
  apply forced_wrap. unfold forceReconfigFromPod. apply (forced_bind _ _ recorded).
  - apply silent_wrap, silent_bind; [silence|]. intros. apply silent_client.
  - intros w C. unfold wrapM, mbind, gom_bind.
    destruct (MongoHost _ _ _ _ _ w) as [[h|e] w1]; cbn; [|done].
    unfold pass_client. destruct (mp_Standalone _ _ _ _ w1.1) as [[C0|e] w2]; cbn; [|done].
    intros [= <-]. by exists C0.
  - intros ? [C0 ->]. apply forced_defer; [apply silent_pass|].
    apply (forced_bind _ _ (λ _, True)); [silence|done|]. intros cfg _.
    apply (forced_bind _ _ (λ _, True)); [apply silent_removeUndesired|done|]. intros cfg' _.
    apply forced_wrap, forced_write.
Qed.

Lemma services_silent cr : silent (services_ready cr).
Proof.
  unfold services_ready, GetExportedServices. apply silent_if; [|silence]. apply silent_bind; [silence|].
  intros [|n ns]; [silence|]. generalize (n :: ns). clear n ns. intros ns.
  induction ns as [|n ns IH]; cbn; [silence|]. apply silent_bind; [silence|].
  intros [|]; [done|silence].
Qed.
End calm_handlers.

Lemma try_onW {X A B} (m : GoM X A) (k : result A → GoM (X * ClusterStatus) B) x s :
  (tryM (onW m) ≫= k) (x, s) = k (m x).1 ((m x).2, s).
Proof. unfold tryM, onW, mbind, gom_bind. cbn. by destruct (m x). Qed.
Lemma get_status {X B} (k : ClusterStatus → GoM (X * ClusterStatus) B) (x : X) s :
  (getStatus ≫= k) (x, s) = k s (x, s).
Proof. done. Qed.

Lemma calm_unforced {X A} (log : X → wlog) (m : GoM X A) Q w :
  calm log m Q → log w = [] → Forall (λ x, x.2 = false) (log (m w).2).
Proof. intros Hm Hw. destruct (Hm w) as (new & -> & HF & _). by rewrite Hw. Qed.

(** Case analysis on an attempt that records nothing. *)
Ltac split_attempt tac w1 a :=
  match goal with |- context [attempt ?st ?msg ?m ?k (?w, ?l, ?s)] =>
    let H := fresh in assert (silent m) as H by tac;
    destruct (attempt_silent st msg m k w l s H) as [w1 [[? ->]|(a & _ & ->)]]; clear H
  end.

(** C11: [reconcileCluster] asks for a forced reconfiguration only in one
    case: the cluster is managed, the replica set was recorded as initialised,
    and connecting to it failed because it has no primary; then it asks for at
    most that one.  Every other reconfiguration, in every other case, is
    unforced. *)
Theorem reconcileCluster_force {W} (K : K8sClient W) {Y : Yaml} {V : Versions} {G : GoSort}
    (P : MongoClientProvider W) (E : ClusterEnv W) {R : GoRetry} {RL : GoRetryLaws R} {T : ErrorTests}
    (cr : PerconaServerMongoDB) (rs : ReplsetSpec) (mongosPods : list Pod) (w : W) (s : ClusterStatus) :
  let ws := (reconcileCluster (K := logged_k8s K) (P := logged_provider P) (E := logged_env E)
               cr rs mongosPods ((w, []), s)).2.1.2 in
  Forall (λ x, x.2 = false) ws ∨
  (cr_Unmanaged cr = false ∧ rst_Initialized (rs_status (rs_Name rs) s) = true ∧
   (∃ e w1 w2, mp_Mongo cr rs RoleClusterAdmin false w1 = (Err e, w2) ∧
      as_ServerSelectionError e = true ∧ str_contains "ReplicaSetNoPrimary" (err_string e) = true) ∧
   ∃ cfg, ws = [(cfg, true)]).
Proof.
  cbv zeta. unfold reconcileCluster.
  split_attempt ltac:(unfold physicalRestoreInProgress; silence) w1 physical; [by left|].
  destruct physical; [by left|].
  destruct (rs_GetSize rs =? 0)%Z; [by left|].
  split_attempt ltac:(unfold GetRSPods; silence) w2 pods; [by left|].
  destruct (_ <? _)%Z; [by left; destruct (crash_looping pods)|].
  pose proof (services_silent K cr (w2, [])) as Hsv.
  rewrite try_onW.
  destruct (services_ready (K := logged_k8s K) cr (w2, [])) as [[[|]|e] [w3 l3]]; cbn in Hsv; subst l3;
    cbn [fst snd]; [|by left|by left].
  rewrite get_status, try_onW. cbn [mp_Mongo logged_provider]. unfold pass_client. cbn [fst snd].
  destruct (mp_Mongo cr rs RoleClusterAdmin _ w3) as [[C|e] w4] eqn:Em; cbn [fst snd fmap result_fmap].
  - left. apply (calm_unforced (λ w : (W * wlog) * ClusterStatus, w.1.2) _ (λ _, True)); [|done].
    eapply calm_defer; [by apply calm_onW, calm_silent, silent_pass|]. apply calm_connected.
  - unfold no_connection. destruct (cr_Unmanaged cr) eqn:Eu; [by left|].
    rewrite get_status. destruct (rst_Initialized (rs_status (rs_Name rs) s)) eqn:Ei.
    + destruct (as_ServerSelectionError e && str_contains "ReplicaSetNoPrimary" (err_string e)) eqn:Ee;
        [|by left].
      apply andb_prop in Ee as [Ee1 Ee2].
      pose proof (forced_recovery K P cr rs pods (w4, [])) as Hl.
      unfold attempt. rewrite try_onW.
      destruct (handleReplicaSetNoPrimary cr rs pods (w4, [])) as [r [w5 l5]]. cbn in Hl. cbn [fst snd].
      destruct Hl as [->|[cfg ->]]; [left|right].
      * destruct r; by cbn.
      * split_and!; [done|done|by exists e, w3, w4|]. exists cfg. by destruct r.
    + left. pose proof (silent_init K E cr rs pods (w4, [])) as Hi.
      rewrite try_onW.
      destruct (handleReplsetInit cr rs pods (w4, [])) as [[[pod prim]|e'] [w5 l5]]; cbn in Hi; subst l5;
        cbn [fst snd].
      2: { by destruct (bool_decide _). }
      apply (calm_unforced (λ w : (W * wlog) * ClusterStatus, w.1.2) _ (λ _, True)); [|done].
      eapply calm_attempt; [apply calm_system_users|]. intros _ _. apply calm_status. intros s'.
      eapply calm_bind; [apply calm_set|]. intros _ _.
      eapply calm_bind; [apply calm_add_condition|]. intros _ _. by apply calm_ret.
Qed.

(** * Witness: a replica set of one pod that has lost its primary *)
Definition one_pod_k8s : K8sClient unit :=
  let base := emptyK8s unit in
  {| k8s_get_service := k8s_get_service (K8sClient := base);
     k8s_get_node_labels := k8s_get_node_labels (K8sClient := base);
     k8s_get_service_import := k8s_get_service_import (K8sClient := base);
     k8s_list_service_exports := k8s_list_service_exports (K8sClient := base);
     k8s_get_sts := k8s_get_sts (K8sClient := base);
     k8s_get_secret := k8s_get_secret (K8sClient := base);
     k8s_list_sts := λ _ _, mret [a_sts "c-rs0"];
     k8s_list_pods := λ _ _, mret [a_pod "c-rs0-0" "mongod"];
     go_sleep := go_sleep (K8sClient := base);
     go_tick := go_tick (K8sClient := base) |}.

Definition no_primary_error : error := EExt KOther "server selection error: ReplicaSetNoPrimary".
Definition no_primary_provider : MongoClientProvider unit := {|
  mp_Mongo := λ _ _ _ _, throw no_primary_error;
  mp_Mongos := λ _ _, throw no_primary_error;
  mp_Standalone := λ _ _ _ _, mret (fixed_client unit demo_rsconfig (demo_status []));
  mp_Disconnect := mret tt
|}.
Definition quiet_env : ClusterEnv unit := {|
  ce_exec := λ _ _ _ _, mret ("", "", None);
  ce_now := mret 0%Z;
  ce_list_restores := λ _, mret []
|}.
Definition selection_errors : ErrorTests := {|
  as_auth_Error := λ _, false; is_EOF := λ _, false; is_UnexpectedEOF := λ _, false;
  mongo_IsTimeout := λ _, false; mongo_IsNetworkError := λ _, false;
  as_ServerSelectionError := λ _, true; as_ConnectionError := λ _, false |}.

Definition lost_primary_status (initialized : bool) : ClusterStatus :=
  with_Replsets (λ _, {[ "rs0" := set_Initialized initialized zeroReplsetStatus ]}) emptyStatus.

Definition lost_primary_writes (initialized : bool) : wlog :=
  (reconcileCluster (K := logged_k8s one_pod_k8s) (Y := emptyYaml) (V := always_newer)
     (G := insertion_GoSort) (P := logged_provider no_primary_provider) (E := logged_env quiet_env)
     (T := selection_errors)
     (a_cluster [a_replset "rs0" 1]) (a_replset "rs0" 1) [] ((tt, []), lost_primary_status initialized)).2.1.2.

Lemma reconcileCluster_force_witness :
  (λ '(c, force), (hosts (Members c), force)) <$> lost_primary_writes true = [(["a"; "b"; "c"], true)] ∧
  lost_primary_writes false = [] ∧
  cr_Unmanaged (a_cluster [a_replset "rs0" 1]) = false.
Proof.
  split; [vm_compute; reflexivity|]. split; [vm_compute; reflexivity|].
  destruct (reconcileCluster_force one_pod_k8s (Y := emptyYaml) (V := always_newer)
    (G := insertion_GoSort) no_primary_provider quiet_env (T := selection_errors)
    (a_cluster [a_replset "rs0" 1]) (a_replset "rs0" 1) [] tt (lost_primary_status true)) as [H|[H _]].
  - exfalso. vm_compute in H. inversion H as [|x l Hx _]. discriminate Hx.
  - exact H.
Defined.
