(* ===== verification/GoHeap.v ===== *)
(** Go's container/heap: [Push] and [Pop] on a slice, as the library does
    them ([up] and [down] move one element along its path). *)
From Stdlib Require Import ZifyNat.
From S2P Require Import Prelude GoSort.

#[local] Ltac Zify.zify_post_hook ::= Z.to_euclidean_division_equations.

Section heap.
Context {A : Type} (less : A → A → bool).
Implicit Types (h : list A) (i j n : nat).

Definition swap h i j : list A :=
  match h !! i, h !! j with
  | Some x, Some y => <[j := x]> (<[i := y]> h)
  | _, _ => h
  end.

(** [h.Less(i, j)] *)
Definition less_at h i j : bool :=
  match h !! i, h !! j with
  | Some x, Some y => less x y
  | _, _ => false
  end.

Definition parent (j : nat) : nat := (j - 1) / 2.

Fixpoint up (fuel : nat) h j : list A :=
  match fuel with
  | 0 => h
  | S f =>
      let i := parent j in
      if bool_decide (i = j) || negb (less_at h j i) then h else up f (swap h i j) i
  end.

Fixpoint down (fuel : nat) h i n : list A :=
  match fuel with
  | 0 => h
  | S f =>
      let j1 := 2 * i + 1 in
      if (n <=? j1)%nat then h
      else
        let j2 := j1 + 1 in
        let j := if (j2 <? n)%nat && less_at h j2 j1 then j2 else j1 in
        if negb (less_at h j i) then h else down f (swap h i j) j n
  end.

Definition heap_Push h x : list A :=
  let h := h ++ [x] in up (length h) h (length h - 1).

(** The popped element and what remains; [None] on an empty heap, where Go
    panics. *)
Definition heap_Pop h : option (A * list A) :=
  let n := length h - 1 in
  let h := down (length h) (swap h 0 n) 0 n in
  match h !! n with
  | Some x => Some (x, take n h)
  | None => None
  end.

(** * The elements stay the same *)
Lemma swap_perm h i j : swap h i j ≡ₚ h.
Proof.
  unfold swap. destruct (h !! i) as [x|] eqn:Hi; [|done]. destruct (h !! j) as [y|] eqn:Hj; [|done].
  destruct (decide (i = j)) as [->|Hne].
  { simplify_eq. by rewrite list_insert_insert_eq, list_insert_id. }
  apply Permutation_inj. split; [by rewrite !length_insert|].
  exists (λ k, if decide (k = i) then j else if decide (k = j) then i else k). split.
  - intros k k' Hk. cbv beta in Hk. repeat case_decide; congruence.
  - intros k. cbv beta. destruct (decide (k = j)) as [->|Hkj].
    + rewrite list_lookup_insert_eq by (rewrite length_insert; by eapply lookup_lt_Some).
      by rewrite decide_False.
    + rewrite list_lookup_insert_ne by done. destruct (decide (k = i)) as [->|Hki].
      * by rewrite list_lookup_insert_eq by (by eapply lookup_lt_Some).
      * by rewrite list_lookup_insert_ne.
Qed.

Lemma swap_length h i j : length (swap h i j) = length h.
Proof. apply Permutation_length, swap_perm. Qed.

Lemma up_perm f h j : up f h j ≡ₚ h.
Proof.
  revert h j; induction f as [|f IH]; intros h j; cbn; [done|]. case_match; [done|].
  by rewrite IH, swap_perm.
Qed.
Lemma down_perm f h i n : down f h i n ≡ₚ h.
Proof.
  revert h i; induction f as [|f IH]; intros h i; cbn [down]; [done|]. case_match; [done|].
  cbv zeta. case_match; [done|]. by rewrite IH, swap_perm.
Qed.

(** * The heap order *)

Lemma swap_lookup h i j x y k :
  h !! i = Some x → h !! j = Some y →
  swap h i j !! k = if decide (k = j) then Some x else if decide (k = i) then Some y else h !! k.
Proof.
  intros Hi Hj. unfold swap. rewrite Hi, Hj. destruct (decide (k = j)) as [->|Hkj].
  - apply list_lookup_insert_eq. rewrite length_insert. by eapply lookup_lt_Some.
  - rewrite list_lookup_insert_ne by done. destruct (decide (k = i)) as [->|Hki].
    + apply list_lookup_insert_eq. by eapply lookup_lt_Some.
    + by rewrite list_lookup_insert_ne.
Qed.

Context (Hless : strict_weak less).

(** The element at [i] is not less than the one at [j]. *)
Definition ge_at h i j : Prop := less_at h i j = false.

Lemma ge_at_Some h i j x y : h !! i = Some x → h !! j = Some y → ge_at h i j ↔ less x y = false.
Proof. intros Hi Hj. unfold ge_at, less_at. by rewrite Hi, Hj. Qed.

(** A heap on the first [n] places. *)
Definition heap_ok h n : Prop := ∀ k, 0 < k < n → ge_at h k (parent k).

(** A heap but for the element at [j], which may be too small. *)
Definition up_inv h n j : Prop :=
  (∀ k, 0 < k < n → k ≠ j → ge_at h k (parent k)) ∧
  (∀ c, 0 < c < n → parent c = j → 0 < j → ge_at h c (parent j)).

Lemma up_inv_swap h n j :
  n ≤ length h → j < n → 0 < j → up_inv h n j → less_at h j (parent j) = true →
  up_inv (swap h (parent j) j) n (parent j).
Proof using Hless.
  intros Hn Hj Hj0 [H1 H2] Hl. set (i := parent j) in *.
  assert (i < j) as Hij by (unfold i, parent; lia).
  destruct (lookup_lt_is_Some_2 h j) as [y Hy]; [lia|].
  destruct (lookup_lt_is_Some_2 h i) as [x Hx]; [lia|].
  assert (less y x = true) as Hyx by (unfold less_at in Hl; by rewrite Hx, Hy in Hl).
  pose proof (less_asym _ Hless _ _ Hyx) as Hxy.
  split.
  - intros k Hk Hki. destruct (lookup_lt_is_Some_2 h k) as [z Hz]; [lia|].
    destruct (lookup_lt_is_Some_2 h (parent k)) as [p Hp]; [unfold parent; lia|].
    assert (parent k ≠ k) by (unfold parent; lia).
    unfold ge_at, less_at. rewrite !(swap_lookup h i j x y _ Hx Hy).
    destruct (decide (k = j)) as [->|Hkj].
    + rewrite decide_False by done. rewrite decide_True by done. done.
    + rewrite (decide_False (P := k = i)) by done. rewrite Hz.
      destruct (decide (parent k = j)) as [Ep|Ep].
      * apply (ge_at_Some h k i z x Hz Hx). apply H2; [lia|done|lia].
      * pose proof (proj1 (ge_at_Some h k (parent k) z p Hz Hp) (H1 k Hk Hkj)) as Hzp.
        destruct (decide (parent k = i)) as [Ei|Ei].
        -- assert (p = x) as -> by congruence. by apply (less_neg_trans _ Hless z x y).
        -- by rewrite Hp.
  - intros c Hc Hpc Hi0. destruct (lookup_lt_is_Some_2 h c) as [z Hz]; [lia|].
    assert (parent i < i) by (unfold parent; lia).
    destruct (lookup_lt_is_Some_2 h (parent i)) as [p Hp]; [lia|].
    assert (less x p = false) as Hxp.
    { apply (ge_at_Some h i (parent i) x p Hx Hp), H1; lia. }
    unfold ge_at, less_at. rewrite !(swap_lookup h i j x y _ Hx Hy).
    rewrite (decide_False (P := parent i = j)), (decide_False (P := parent i = i)) by lia. rewrite Hp.
    destruct (decide (c = j)) as [->|Hcj]; [done|].
    rewrite decide_False by (intros ->; unfold parent in Hpc; lia). rewrite Hz.
    apply (less_neg_trans _ Hless z x p); [|done].
    apply (ge_at_Some h c i z x Hz Hx). rewrite <- Hpc. by apply H1.
Qed.

Lemma up_ok f h n j : n ≤ length h → j < n → j < f → up_inv h n j → heap_ok (up f h j) n.
Proof using Hless.
  revert h j; induction f as [|f IH]; intros h j Hn Hj Hf Hinv; [lia|]. cbn [up].
  destruct (decide (j = 0)) as [->|Hj0].
  { rewrite bool_decide_eq_true_2 by done. intros k Hk. apply Hinv; lia. }
  rewrite bool_decide_eq_false_2 by (unfold parent; lia).
  destruct (less_at h j (parent j)) eqn:Hl; cbn [orb negb].
  - apply IH; [by rewrite swap_length|unfold parent; lia|unfold parent; lia|].
    apply up_inv_swap; [done|done|lia|done|done].
  - intros k Hk. destruct (decide (k = j)) as [->|]; [done|]. by apply Hinv.
Qed.

Lemma heap_Push_ok h x : heap_ok h (length h) → heap_ok (heap_Push h x) (length (heap_Push h x)).
Proof using Hless.
  intros Hh. unfold heap_Push. cbv zeta.
  rewrite (Permutation_length (up_perm _ _ _)), !length_app. cbn [length].
  apply up_ok; [rewrite length_app; cbn; lia|lia|lia|]. split.
  - intros k Hk Hkl. specialize (Hh k ltac:(lia)).
    unfold ge_at, less_at in *. rewrite !lookup_app_l by (unfold parent; lia). done.
  - intros c Hc Hpc _. unfold parent in Hpc. lia.
Qed.

(** A heap but for the element at [i], which may be too large. *)
Definition down_inv h n i : Prop :=
  (∀ k, 0 < k < n → parent k ≠ i → ge_at h k (parent k)) ∧
  (∀ c, 0 < c < n → parent c = i → 0 < i → ge_at h c (parent i)).

Lemma down_inv_swap h n i j :
  n ≤ length h → 0 < j < n → parent j = i → down_inv h n i → less_at h j i = true →
  (∀ k, 0 < k < n → parent k = i → ge_at h k j) →
  down_inv (swap h i j) n j.
Proof using Hless.
  intros Hn Hj Hpj [H1 H2] Hl Hmin.
  assert (i < j) as Hij by (unfold parent in Hpj; lia).
  destruct (lookup_lt_is_Some_2 h j) as [y Hy]; [lia|].
  destruct (lookup_lt_is_Some_2 h i) as [x Hx]; [lia|].
  assert (less y x = true) as Hyx by (unfold less_at in Hl; by rewrite Hx, Hy in Hl).
  pose proof (less_asym _ Hless _ _ Hyx) as Hxy.
  split.
  - intros k Hk Hpk. destruct (lookup_lt_is_Some_2 h k) as [z Hz]; [lia|].
    destruct (lookup_lt_is_Some_2 h (parent k)) as [p Hp]; [unfold parent; lia|].
    assert (parent k < k) by (unfold parent; lia).
    unfold ge_at, less_at. rewrite !(swap_lookup h i j x y _ Hx Hy).
    rewrite (decide_False (P := parent k = j)) by done.
    destruct (decide (k = j)) as [->|Hkj]; [by rewrite decide_True|].
    destruct (decide (k = i)) as [->|Hki].
    + rewrite decide_False by lia. rewrite Hp.
      apply (ge_at_Some h j (parent i) y p Hy Hp). apply H2; [lia|done|lia].
    + rewrite Hz. destruct (decide (parent k = i)) as [Ei|Ei].
      * apply (ge_at_Some h k j z y Hz Hy). by apply Hmin.
      * rewrite Hp. apply (ge_at_Some h k (parent k) z p Hz Hp). by apply H1.
  - intros c Hc Hpc _. rewrite Hpj. destruct (lookup_lt_is_Some_2 h c) as [z Hz]; [lia|].
    assert (j < c) by (unfold parent in Hpc; lia).
    unfold ge_at, less_at. rewrite !(swap_lookup h i j x y _ Hx Hy).
    rewrite (decide_False (P := i = j)), (decide_True (P := i = i)) by lia.
    rewrite (decide_False (P := c = j)), (decide_False (P := c = i)) by lia. rewrite Hz.
    apply (ge_at_Some h c j z y Hz Hy). rewrite <- Hpc. apply H1; [lia|lia].
Qed.

Lemma down_ok f h n i : n ≤ length h → n ≤ i + f → down_inv h n i → heap_ok (down f h i n) n.
Proof using Hless.
  revert h i; induction f as [|f IH]; intros h i Hn Hf Hinv; cbn [down].
  { intros k Hk. apply Hinv; [done|]. unfold parent. lia. }
  destruct (Nat.leb_spec n (2 * i + 1)) as [Hle|Hgt].
  { intros k Hk. apply Hinv; [done|]. unfold parent. lia. }
  cbv zeta. set (j := if (2 * i + 1 + 1 <? n)%nat && less_at h (2 * i + 1 + 1) (2 * i + 1)
                      then 2 * i + 1 + 1 else 2 * i + 1).
  assert (0 < j < n ∧ parent j = i) as [Hj Hpj].
  { unfold j. destruct (Nat.ltb_spec (2 * i + 1 + 1) n); cbn [andb]; [case_match|];
      unfold parent; lia. }
  assert (∀ k, 0 < k < n → parent k = i → ge_at h k j) as Hmin.
  { intros k Hk Hpk. assert (k = 2 * i + 1 ∨ k = 2 * i + 1 + 1) as Hkk by (unfold parent in Hpk; lia).
    assert (∀ a, ge_at h a a) as Hrefl.
    { intros a. unfold ge_at, less_at. destruct (h !! a) as [z|]; [|done].
      destruct (less z z) eqn:E; [|done]. by rewrite (less_asym _ Hless _ _ E) in E. }
    unfold j. destruct (Nat.ltb_spec (2 * i + 1 + 1) n); cbn [andb].
    - destruct (less_at h (2 * i + 1 + 1) (2 * i + 1)) eqn:E; destruct Hkk as [->| ->]; try done.
      destruct (lookup_lt_is_Some_2 h (2 * i + 1)) as [a Ha]; [lia|].
      destruct (lookup_lt_is_Some_2 h (2 * i + 1 + 1)) as [b Hb]; [lia|].
      apply (ge_at_Some h _ _ a b Ha Hb). apply Hless. unfold less_at in E. by rewrite Ha, Hb in E.
    - destruct Hkk as [->| ->]; [done|lia]. }
  destruct (less_at h j i) eqn:Hl; cbn [negb].
  - apply IH; [by rewrite swap_length|unfold parent in Hpj; lia|]. by apply down_inv_swap.
  - intros k Hk. destruct (decide (parent k = i)) as [Hpk|Hpk]; [|by apply Hinv].
    rewrite Hpk. pose proof (Hmin k Hk Hpk) as Hkj.
    destruct (lookup_lt_is_Some_2 h k) as [z Hz]; [lia|].
    destruct (lookup_lt_is_Some_2 h j) as [y Hy]; [lia|].
    destruct (lookup_lt_is_Some_2 h i) as [x Hx]; [unfold parent in Hpk; lia|].
    apply (ge_at_Some h k i z x Hz Hx). apply (less_neg_trans _ Hless z y x).
    + by apply (ge_at_Some h k j z y Hz Hy).
    + unfold less_at in Hl. by rewrite Hy, Hx in Hl.
Qed.

(** Nothing in a heap is less than its root. *)
Lemma heap_root h x : heap_ok h (length h) → h !! 0 = Some x → ∀ y, y ∈ h → less y x = false.
Proof using Hless.
  intros Hh Hx y Hy. apply list_elem_of_lookup in Hy as [k Hk]. revert y Hk.
  induction k as [k IH] using lt_wf_ind; intros y Hk. destruct (decide (k = 0)) as [->|Hk0].
  - assert (y = x) as -> by congruence. destruct (less x x) eqn:E; [|done]. by rewrite (less_asym _ Hless _ _ E) in E.
  - pose proof (lookup_lt_Some _ _ _ Hk). assert (parent k < k) by (unfold parent; lia).
    destruct (lookup_lt_is_Some_2 h (parent k)) as [p Hp]; [lia|].
    apply (less_neg_trans _ Hless y p x); [|by apply (IH (parent k))].
    apply (ge_at_Some h k (parent k) y p Hk Hp). apply Hh. lia.
Qed.

Lemma down_stop f h i n : n ≤ 2 * i + 1 → down f h i n = h.
Proof using Type. intros Hn. destruct f; cbn [down]; [done|]. by rewrite (proj2 (Nat.leb_le _ _)). Qed.

(** [down] below [n] does not touch the places from [n] on. *)
Lemma down_lookup f h i n k : n ≤ k → i < n → n ≤ length h → down f h i n !! k = h !! k.
Proof using Type.
  revert h i; induction f as [|f IH]; intros h i Hk Hi Hn; cbn [down]; [done|].
  destruct (Nat.leb_spec n (2 * i + 1)) as [Hle|Hgt]; [done|]. cbv zeta.
  set (j := if _ && _ then _ else _).
  assert (i < j < n) as Hj.
  { unfold j. destruct (Nat.ltb_spec (2 * i + 1 + 1) n); cbn [andb]; [case_match|]; lia. }
  case_match; [done|].
  rewrite IH by (rewrite ?swap_length; lia).
  destruct (lookup_lt_is_Some_2 h i) as [x Hx]; [lia|].
  destruct (lookup_lt_is_Some_2 h j) as [y Hy]; [lia|].
  rewrite (swap_lookup h i j x y k Hx Hy). by rewrite !decide_False by lia.
Qed.

(** [Pop] takes the root: a least element; a heap of the others remains. *)
Lemma heap_Pop_spec h :
  h ≠ [] → heap_ok h (length h) →
  ∃ x h', heap_Pop h = Some (x, h') ∧ x :: h' ≡ₚ h ∧ heap_ok h' (length h') ∧
    ∀ y, y ∈ h → less y x = false.
Proof using Hless.
  intros Hne Hh. set (n := length h - 1). assert (length h = S n) as Hlen by (destruct h; [done|cbn in n |- *; lia]).
  destruct (lookup_lt_is_Some_2 h 0) as [x Hx]; [lia|].
  destruct (lookup_lt_is_Some_2 h n) as [z Hz]; [lia|].
  set (h1 := swap h 0 n). set (h2 := down (length h) h1 0 n).
  assert (length h1 = S n) as Hl1 by (unfold h1; rewrite swap_length; done).
  assert (length h2 = S n) as Hl2 by (unfold h2; by rewrite (Permutation_length (down_perm _ _ _ _))).
  assert (h2 !! n = Some x) as H2n.
  { unfold h2. destruct (decide (n = 0)) as [E|E].
    - rewrite down_stop by lia. unfold h1. by rewrite (swap_lookup h 0 n x z n Hx Hz), decide_True.
    - rewrite down_lookup by lia. unfold h1. by rewrite (swap_lookup h 0 n x z n Hx Hz), decide_True. }
  assert (h2 = take n h2 ++ [x]) as E2.
  { rewrite <- (take_drop n h2) at 1. f_equal. rewrite (drop_S _ x) by done. by rewrite drop_ge by lia. }
  exists x, (take n h2). split_and!.
  - unfold heap_Pop. cbv zeta. fold n h1 h2. by rewrite H2n.
  - rewrite Permutation_cons_append, <- E2. unfold h2, h1. by rewrite down_perm, swap_perm.
  - rewrite length_take, Nat.min_l by lia.
    assert (heap_ok h2 n) as Hh2.
    { apply down_ok; [lia|lia|]. split; [|lia]. intros k Hk Hpk. specialize (Hh k ltac:(lia)).
      assert (parent k < k) by (unfold parent; lia).
      unfold ge_at, less_at in *. unfold h1. rewrite !(swap_lookup h 0 n x z _ Hx Hz).
      by rewrite !decide_False by lia. }
    intros k Hk. specialize (Hh2 k Hk). unfold ge_at, less_at in *.
    by rewrite !lookup_take_lt by (unfold parent; lia).
  - by apply heap_root.
Qed.
End heap.
