(* ===== verification/Storage.v ===== *)
(** Backup storages: the specifications in the cluster resource
    (psmdb_types.go), and the storage configuration PBM takes.

    PBM's configuration types are records of the fields the operator fills in.
    A duration is a number of nanoseconds; a floating-point setting, which is
    only copied, is its text. *)
From S2P Require Import Prelude.

Inductive BackupStorageType :=
| BackupStorageFilesystem | BackupStorageS3 | BackupStorageGCS | BackupStorageAzure
| BackupStorageMinio | BackupStorageOSS | BackupStorageOCI.
#[export] Instance BackupStorageType_eq_dec : EqDecision BackupStorageType.
Proof. solve_decision. Defined.

(** * Specifications *)

(** What every bucket storage has: where its files are, and the secret with its
    credentials. *)
Record BucketSpec := {
  bu_Bucket : string;                (* Azure: Container *)
  bu_Prefix : string;
  bu_EndpointURL : string;
  bu_CredentialsSecret : string
}.

Record S3ServiceSideEncryption := {
  SSEAlgorithm : string;
  SSE_KMSKeyID : string;
  SSECustomerAlgorithm : string;
  SSE_CustomerKey : string
}.
Record S3Retryer := { s3r_NumMaxRetries : Z; s3r_MinRetryDelay : Z; s3r_MaxRetryDelay : Z }.
Record BackupStorageS3Spec := {
  s3_bucket :> BucketSpec;
  s3_Region : string;
  s3_UploadPartSize : Z;
  s3_MaxUploadParts : Z;
  s3_StorageClass : string;
  s3_InsecureSkipTLSVerify : bool;
  s3_ForcePathStyle : option bool;
  s3_Retryer : option S3Retryer;
  s3_SSE : S3ServiceSideEncryption
}.
Record BackupStorageMinioSpec := {
  mio_bucket :> BucketSpec;
  mio_Region : string;
  mio_PartSize : Z;
  mio_InsecureSkipTLSVerify : bool;
  mio_CABundle : bool;               (* CABundle != nil *)
  mio_ForcePathStyle : option bool;
  mio_DebugTrace : bool;
  mio_Retryer : option Z;            (* NumMaxRetries *)
  mio_Secure : bool
}.
Record GCSRetryer := { gcr_BackoffInitial : Z; gcr_BackoffMax : Z; gcr_BackoffMultiplier : string }.
Record BackupStorageGCSSpec := {
  gcs_bucket :> BucketSpec;
  gcs_ChunkSize : Z;
  gcs_Retryer : option GCSRetryer
}.
Record OSSRetryer := { ossr_MaxAttempts : Z; ossr_MaxBackoff : Z; ossr_BaseDelay : Z }.
Record OSSServerSideEncryption := {
  osse_SecretName : string;
  osse_EncryptionMethod : string;
  osse_EncryptionAlgorithm : string;
  osse_EncryptionKeyID : string
}.
Record BackupStorageOSSSpec := {
  oss_bucket :> BucketSpec;
  oss_Region : string;
  oss_ConnectTimeout : Z;
  oss_UploadPartSize : Z;
  oss_MaxUploadParts : Z;
  oss_Retryer : option OSSRetryer;
  oss_SSE : OSSServerSideEncryption
}.
Inductive OCIAuthType := AuthTypeUserPrincipal | AuthTypeInstancePrincipal | AuthTypeOkeWorkloadIdentity.
#[export] Instance OCIAuthType_eq_dec : EqDecision OCIAuthType.
Proof. solve_decision. Defined.
Record BackupStorageOCISpec := {
  oci_bucket :> BucketSpec;           (* without an endpoint; the secret of the credentials *)
  oci_Region : string;
  oci_Namespace : string;
  oci_AuthType : OCIAuthType;
  oci_Retryer : option (Z * Z);       (* MaxAttempts, MaxBackoff *)
  oci_SSE_KmsKeyID : string;
  oci_SSE_SecretName : string;
  oci_UploadPartSize : Z;
  oci_MaxObjSizeGB : option string;
  oci_UploadConcurrency : Z
}.
Record BackupStorageFilesystemSpec := { fs_Path : string }.

Record BackupStorageSpec := {
  stg_Type : BackupStorageType;
  stg_Main : bool;
  stg_S3 : BackupStorageS3Spec;
  stg_Minio : BackupStorageMinioSpec;
  stg_GCS : BackupStorageGCSSpec;
  stg_Azure : BucketSpec;
  stg_OSS : BackupStorageOSSSpec;
  stg_Filesystem : BackupStorageFilesystemSpec;
  stg_OCI : BackupStorageOCISpec
}.

(** [BackupStorageMinioSpec.Validate] *)
Definition minio_Validate (spec : BackupStorageMinioSpec) : result unit :=
  if bool_decide (bu_EndpointURL spec = "") then Err (ENew "endpointURL is required")
  else if bool_decide (bu_Bucket spec = "") then Err (ENew "bucket is required")
  else if bool_decide (bu_CredentialsSecret spec = "") then Err (ENew "credentialsSecret is required")
  else Ok tt.

(** A pointer to one of the storage specifications, kept in a backup's status. *)
Inductive StorageRef :=
| RefS3 (s : BackupStorageS3Spec)
| RefMinio (s : BackupStorageMinioSpec)
| RefGCS (s : BackupStorageGCSSpec)
| RefAzure (s : BucketSpec)
| RefOSS (s : BackupStorageOSSSpec)
| RefFilesystem (s : BackupStorageFilesystemSpec)
| RefOCI (s : BackupStorageOCISpec).

(** * PBM's configuration *)

(** Keys of an access key pair, with the session token if there is one *)
Record AwsCredentials := {
  ak_AccessKeyID : string;
  ak_SecretAccessKey : string;
  ak_SessionToken : string
}.
Definition noAwsCredentials : AwsCredentials :=
  {| ak_AccessKeyID := ""; ak_SecretAccessKey := ""; ak_SessionToken := "" |}.
Record AWSsse := {
  awssse_SseAlgorithm : string;
  awssse_KmsKeyID : string;
  awssse_SseCustomerAlgorithm : string;
  awssse_SseCustomerKey : string
}.
Record S3Config := {
  s3c_Region : string;
  s3c_EndpointURL : string;
  s3c_Bucket : string;
  s3c_Prefix : string;
  s3c_UploadPartSize : Z;
  s3c_MaxUploadParts : Z;
  s3c_StorageClass : string;
  s3c_InsecureSkipTLSVerify : bool;
  s3c_ForcePathStyle : option bool;
  s3c_Credentials : AwsCredentials;
  s3c_SSE : option AWSsse;
  s3c_Retryer : option S3Retryer
}.
Record MinioConfig := {
  mioc_Region : string;
  mioc_Endpoint : string;
  mioc_Bucket : string;
  mioc_Prefix : string;
  mioc_InsecureSkipTLSVerify : bool;
  mioc_DebugTrace : bool;
  mioc_PartSize : Z;
  mioc_Secure : bool;
  mioc_ForcePathStyle : option bool;
  mioc_Credentials : AwsCredentials;
  mioc_Retryer : option Z
}.
Record GCSConfig := {
  gcsc_Bucket : string;
  gcsc_Prefix : string;
  gcsc_ChunkSize : Z;
  gcsc_ClientEmail : string;
  gcsc_PrivateKey : string;
  gcsc_WorkloadIdentity : bool;
  gcsc_Retryer : option GCSRetryer
}.
Record AzureConfig := {
  azc_Account : string;
  azc_Container : string;
  azc_EndpointURL : string;
  azc_Prefix : string;
  azc_Key : string
}.
Record OSSsse := { osss_Method : string; osss_Algorithm : string; osss_KeyID : string }.
Record OSSConfig := {
  ossc_Region : string;
  ossc_EndpointURL : string;
  ossc_Bucket : string;
  ossc_Prefix : string;
  ossc_AccessKeyID : string;
  ossc_AccessKeySecret : string;
  ossc_ConnectTimeout : Z;
  ossc_UploadPartSize : Z;
  ossc_MaxUploadParts : Z;
  ossc_SSE : option OSSsse;
  ossc_Retryer : option OSSRetryer
}.
Record UserPrincipalCredentials := {
  up_Tenancy : string;
  up_User : string;
  up_Fingerprint : string;
  up_PrivateKey : string;
  up_PrivateKeyPassphrase : string
}.
Record OCIConfig := {
  ocic_Region : string;
  ocic_Namespace : string;
  ocic_Bucket : string;
  ocic_Prefix : string;
  ocic_AuthType : OCIAuthType;
  ocic_UserPrincipal : option UserPrincipalCredentials;
  ocic_SSE_KmsKeyID : string;
  ocic_SSE_CustomerKey : string;
  ocic_UploadPartSize : Z;
  ocic_MaxObjSizeGB : option string;
  ocic_UploadConcurrency : Z;
  ocic_Retryer : option (Z * Z)
}.

(** [config.StorageConf]: its type says which of the pointers is set. *)
Inductive StorageConf :=
| ConfS3 (c : S3Config)
| ConfMinio (c : MinioConfig)
| ConfGCS (c : GCSConfig)
| ConfAzure (c : AzureConfig)
| ConfOSS (c : OSSConfig)
| ConfFilesystem (path : string)
| ConfOCI (c : OCIConfig).

(** Where a configuration keeps its files: the endpoint, the bucket, the prefix *)
Definition conf_location (c : StorageConf) : string * string * string :=
  match c with
  | ConfS3 c => (s3c_EndpointURL c, s3c_Bucket c, s3c_Prefix c)
  | ConfMinio c => (mioc_Endpoint c, mioc_Bucket c, mioc_Prefix c)
  | ConfGCS c => ("", gcsc_Bucket c, gcsc_Prefix c)
  | ConfAzure c => (azc_EndpointURL c, azc_Container c, azc_Prefix c)
  | ConfOSS c => (ossc_EndpointURL c, ossc_Bucket c, ossc_Prefix c)
  | ConfFilesystem path => ("", path, "")
  | ConfOCI c => (ocic_Namespace c, ocic_Bucket c, ocic_Prefix c)
  end.
