(* ===== verification/BackupApi.v ===== *)
(** The backup resources: PerconaServerMongoDBBackup with its specification,
    status and methods (perconaservermongodbbackup_types.go), the backup
    section of the cluster resource with its scheduled tasks
    (psmdb_types.go), and the names and labels derived from them (pkg/naming).

    A time is a number of nanoseconds since 1970. *)
From S2P Require Import Prelude ReplsetModels Api Hosts.
From S2P Require Export Storage.

Abbreviation time := Z (only parsing).
Definition second : Z := 1000000000%Z.
(** Go's zero [time.Time], the first of January of the year 1. *)
Definition zeroTime : time := (-62135596800 * 1000000000)%Z.
(** [t.Before(u)] *)
Definition Before (t u : time) : bool := (t <? u)%Z.
(** [time.Unix(s, 0)] *)
Definition unix (s : Z) : time := (s * 1000000000)%Z.

(** Go visits the entries of a map in an unspecified order. *)
Class MapOrder := map_order : ∀ {V : Type}, gmap string V → list (string * V).
Class MapOrderLaws (O : MapOrder) := {
  map_order_perm {V} (m : gmap string V) : map_order m ≡ₚ map_to_list m
}.
(** One such order, for concrete runs. *)
Definition list_order : MapOrder := λ V, map_to_list.
Lemma list_order_laws : MapOrderLaws list_order.
Proof. done. Qed.

(** * Scheduled tasks *)
Definition LogicalBackup : string := "logical".
Definition ExternalBackup : string := "external".
Definition IncrementalBackup : string := "incremental".
Definition BackupTypeIncrementalBase : string := "incremental-base".
Definition CompressionTypeGZIP : string := "gzip".
Definition BackupTaskSpecRetentionTypeCount : string := "count".

Record BackupTaskSpecRetention := {
  ret_Count : Z;
  ret_Type : string;
  ret_DeleteFromStorage : bool
}.
Record BackupTaskSpec := {
  task_Name : string;
  task_Enabled : bool;
  task_Keep : Z;
  task_Retention : option BackupTaskSpecRetention;
  task_Schedule : string;
  task_StorageName : string;
  task_CompressionType : string;
  task_CompressionLevel : option Z;
  task_VolumeSnapshotClass : option string;
  task_Type : string
}.
Definition zeroTask : BackupTaskSpec := {|
  task_Name := ""; task_Enabled := false; task_Keep := 0; task_Retention := None;
  task_Schedule := ""; task_StorageName := ""; task_CompressionType := "";
  task_CompressionLevel := None; task_VolumeSnapshotClass := None; task_Type := "" |}.

Record PITRSpec := {
  pitr_Enabled : bool;
  pitr_OplogSpanMin : string;            (* the text of the number *)
  pitr_OplogOnly : bool;
  pitr_CompressionType : string;
  pitr_CompressionLevel : option Z
}.
Record BackupOptions := {
  bo_OplogSpanMin : string;
  bo_NumParallelCollections : Z;
  bo_Priority : option (gmap string string);
  bo_Timeouts : option (option Z)        (* Timeouts.Starting *)
}.
Record RestoreOptions := {
  ro_BatchSize : Z;
  ro_NumInsertionWorkers : Z;
  ro_NumDownloadWorkers : Z;
  ro_NumParallelCollections : Z;
  ro_MaxDownloadBufferMb : Z;
  ro_DownloadChunkMb : Z;
  ro_MongodLocation : string;
  ro_MongodLocationMap : gmap string string
}.

(** The backup section of the cluster's specification. *)
Record BackupSpec := {
  b_Enabled : bool;
  b_Image : string;
  b_Storages : gmap string BackupStorageSpec;
  b_Tasks : list BackupTaskSpec;
  b_PITR : PITRSpec;
  b_BackupOptions : option BackupOptions;
  b_RestoreOptions : option RestoreOptions;
  b_StartingDeadlineSeconds : option Z
}.

(** The cluster resource with the parts the backup handlers read. *)
Record BackupCluster := {
  bc_cr :> PerconaServerMongoDB;
  bc_Backup : BackupSpec;
  bc_Status : ClusterStatus;
  bc_Pause : bool;
  bc_SecretsSSE : string;
  bc_UnsafeConf : bool;
  bc_BackupIfUnhealthy : bool
}.
Definition bc_State (cr : BackupCluster) : string := st_State (bc_Status cr).
Definition bc_Ready (cr : BackupCluster) : gmap string Z := rst_Ready <$> st_Replsets (bc_Status cr).
Definition bc_PVCShrink (cr : BackupCluster) : gmap string PVCShrinkState := st_PVCShrink (bc_Status cr).
Definition bc_BackupVersion (cr : BackupCluster) : string := st_BackupVersion (bc_Status cr).
Definition bc_BackupImage (cr : BackupCluster) : string := st_BackupImage (bc_Status cr).
Definition bc_BackupConfigHash (cr : BackupCluster) : string := st_BackupConfigHash (bc_Status cr).
Definition bc_StatusReady (cr : BackupCluster) : Z := st_Ready (bc_Status cr).

Definition IsPVCShrinkInProgress (cr : BackupCluster) : bool := (0 <? size (bc_PVCShrink cr))%nat.

(** [cr.NamespacedName().String()] *)
Definition NamespacedName (cr : PerconaServerMongoDB) : string :=
  cr_Namespace cr +:+ "/" +:+ cr_Name cr.

Definition JobName (task : BackupTaskSpec) (cr : PerconaServerMongoDB) : string :=
  cr_Name cr +:+ "-backup-" +:+ task_Name task +:+ "-" +:+ cr_Namespace cr.

Definition GetRetention `{Versions} (task : BackupTaskSpec) (cr : PerconaServerMongoDB)
    : BackupTaskSpecRetention :=
  match task_Retention task with
  | Some r =>
      if (0 <=? CompareVersion cr "1.21.0")%Z then r
      else {| ret_Count := task_Keep task; ret_Type := BackupTaskSpecRetentionTypeCount;
              ret_DeleteFromStorage := true |}
  | None => {| ret_Count := task_Keep task; ret_Type := BackupTaskSpecRetentionTypeCount;
               ret_DeleteFromStorage := true |}
  end.

Definition ErrNoMainStorage : error := ENew "main storage not found".

(** The storage named in [cmd.Backup.Profile] is left out when it is the main
    one: the only one, or the first marked so that the loop meets. *)
Definition MainStorage `{MapOrder} (b : BackupSpec) : result (string * BackupStorageSpec) :=
  match map_order (b_Storages b) with
  | [(name, stg)] => Ok (name, stg)
  | l => match list_find (λ p, stg_Main p.2 = true) l with
         | Some (_, p) => Ok p
         | None => Err ErrNoMainStorage
         end
  end.

Definition AppStatePendingSmartUpdate : string := "pendingSmartUpdate".

(** The first replica set, in the map's order, without a ready node. *)
Definition CanBackup `{Versions, MapOrder} (cr : BackupCluster) : result unit :=
  if bool_decide (bc_State cr = AppStateReady) then Ok tt
  else if bool_decide (bc_State cr = AppStateInit)
          && IsStatusConditionTrue (bc_Status cr) AppStatePendingSmartUpdate then Ok tt
  else if (CompareVersion cr "1.15.0" <=? 0)%Z && negb (bc_UnsafeConf cr) then
    Err (ENew ("allowUnsafeConfigurations must be true to run backup on cluster with status " +:+
               bc_State cr))
  else if (0 <=? CompareVersion cr "1.16.0")%Z && negb (bc_BackupIfUnhealthy cr) then
    Err (ENew ("spec.unsafeFlags.backupIfUnhealthy must be true to run backup on cluster with status "
               +:+ bc_State cr))
  else match list_find (λ p, (p.2 < 1)%Z) (map_order (bc_Ready cr)) with
       | Some (_, (rsName, _)) => Err (ENew (rsName +:+ " has no ready nodes"))
       | None => Ok tt
       end.

(** * The backup resource *)
Inductive BackupState :=
| BackupStateNew | BackupStateWaiting | BackupStateRequested | BackupStateRunning
| BackupStateError | BackupStateReady | BackupStateCanceling | BackupStateCanceled.
#[export] Instance BackupState_eq_dec : EqDecision BackupState.
Proof. solve_decision. Defined.

Inductive BackupWaitingReason :=
| NotWaiting                                     (* "" *)
| BackupWaitingReasonConcurrentJob
| BackupWaitingReasonClusterSync
| BackupWaitingReasonBackupLease.
#[export] Instance BackupWaitingReason_eq_dec : EqDecision BackupWaitingReason.
Proof. solve_decision. Defined.

Record PerconaServerMongoDBBackupSpec := {
  bsp_ClusterName : string;
  bsp_StorageName : string;
  bsp_Compression : string;
  bsp_CompressionLevel : option Z;
  bsp_Type : string;
  bsp_VolumeSnapshotClass : option string;
  bsp_StartingDeadlineSeconds : option Z
}.

Record SnapshotInfo := { sn_ReplsetName : string; sn_SnapshotName : string }.
#[export] Instance SnapshotInfo_eq_dec : EqDecision SnapshotInfo.
Proof. solve_decision. Defined.

Record PerconaServerMongoDBBackupStatus := {
  bs_Type : string;
  bs_State : BackupState;
  bs_WaitingReason : BackupWaitingReason;
  bs_Destination : string;
  bs_StorageName : string;
  bs_Storage : option StorageRef;
  bs_ReplsetNames : list string;
  bs_PBMname : string;
  bs_Size : string;
  bs_Snapshots : list SnapshotInfo;
  bs_PBMPod : string;
  bs_PBMPods : gmap string string;
  bs_Error : string;
  bs_StartAt : option time;
  bs_CompletedAt : option time;
  bs_LastWriteAt : option time;
  bs_LastTransition : option time;
  bs_LatestRestorableTime : option time
}.
Definition zeroStatus : PerconaServerMongoDBBackupStatus :=
  {| bs_Type := ""; bs_State := BackupStateNew; bs_WaitingReason := NotWaiting;
     bs_Destination := ""; bs_StorageName := ""; bs_Storage := None; bs_ReplsetNames := [];
     bs_PBMname := ""; bs_Size := ""; bs_Snapshots := []; bs_PBMPod := ""; bs_PBMPods := ∅;
     bs_Error := ""; bs_StartAt := None; bs_CompletedAt := None; bs_LastWriteAt := None;
     bs_LastTransition := None; bs_LatestRestorableTime := None |}.

(** Assignments to single fields of a status *)
Definition set_State (v : BackupState) (s : PerconaServerMongoDBBackupStatus)
    : PerconaServerMongoDBBackupStatus :=
  {| bs_Type := bs_Type s; bs_State := v; bs_WaitingReason := bs_WaitingReason s;
     bs_Destination := bs_Destination s; bs_StorageName := bs_StorageName s;
     bs_Storage := bs_Storage s; bs_ReplsetNames := bs_ReplsetNames s;
     bs_PBMname := bs_PBMname s; bs_Size := bs_Size s; bs_Snapshots := bs_Snapshots s;
     bs_PBMPod := bs_PBMPod s; bs_PBMPods := bs_PBMPods s; bs_Error := bs_Error s;
     bs_StartAt := bs_StartAt s; bs_CompletedAt := bs_CompletedAt s;
     bs_LastWriteAt := bs_LastWriteAt s; bs_LastTransition := bs_LastTransition s;
     bs_LatestRestorableTime := bs_LatestRestorableTime s |}.
Definition set_WaitingReason (v : BackupWaitingReason) (s : PerconaServerMongoDBBackupStatus)
    : PerconaServerMongoDBBackupStatus :=
  {| bs_Type := bs_Type s; bs_State := bs_State s; bs_WaitingReason := v;
     bs_Destination := bs_Destination s; bs_StorageName := bs_StorageName s;
     bs_Storage := bs_Storage s; bs_ReplsetNames := bs_ReplsetNames s;
     bs_PBMname := bs_PBMname s; bs_Size := bs_Size s; bs_Snapshots := bs_Snapshots s;
     bs_PBMPod := bs_PBMPod s; bs_PBMPods := bs_PBMPods s; bs_Error := bs_Error s;
     bs_StartAt := bs_StartAt s; bs_CompletedAt := bs_CompletedAt s;
     bs_LastWriteAt := bs_LastWriteAt s; bs_LastTransition := bs_LastTransition s;
     bs_LatestRestorableTime := bs_LatestRestorableTime s |}.
Definition set_Error (v : string) (s : PerconaServerMongoDBBackupStatus)
    : PerconaServerMongoDBBackupStatus :=
  {| bs_Type := bs_Type s; bs_State := bs_State s; bs_WaitingReason := bs_WaitingReason s;
     bs_Destination := bs_Destination s; bs_StorageName := bs_StorageName s;
     bs_Storage := bs_Storage s; bs_ReplsetNames := bs_ReplsetNames s;
     bs_PBMname := bs_PBMname s; bs_Size := bs_Size s; bs_Snapshots := bs_Snapshots s;
     bs_PBMPod := bs_PBMPod s; bs_PBMPods := bs_PBMPods s; bs_Error := v;
     bs_StartAt := bs_StartAt s; bs_CompletedAt := bs_CompletedAt s;
     bs_LastWriteAt := bs_LastWriteAt s; bs_LastTransition := bs_LastTransition s;
     bs_LatestRestorableTime := bs_LatestRestorableTime s |}.
Definition set_Snapshots (v : list SnapshotInfo) (s : PerconaServerMongoDBBackupStatus)
    : PerconaServerMongoDBBackupStatus :=
  {| bs_Type := bs_Type s; bs_State := bs_State s; bs_WaitingReason := bs_WaitingReason s;
     bs_Destination := bs_Destination s; bs_StorageName := bs_StorageName s;
     bs_Storage := bs_Storage s; bs_ReplsetNames := bs_ReplsetNames s;
     bs_PBMname := bs_PBMname s; bs_Size := bs_Size s; bs_Snapshots := v;
     bs_PBMPod := bs_PBMPod s; bs_PBMPods := bs_PBMPods s; bs_Error := bs_Error s;
     bs_StartAt := bs_StartAt s; bs_CompletedAt := bs_CompletedAt s;
     bs_LastWriteAt := bs_LastWriteAt s; bs_LastTransition := bs_LastTransition s;
     bs_LatestRestorableTime := bs_LatestRestorableTime s |}.
Definition set_StartAt (v : option time) (s : PerconaServerMongoDBBackupStatus)
    : PerconaServerMongoDBBackupStatus :=
  {| bs_Type := bs_Type s; bs_State := bs_State s; bs_WaitingReason := bs_WaitingReason s;
     bs_Destination := bs_Destination s; bs_StorageName := bs_StorageName s;
     bs_Storage := bs_Storage s; bs_ReplsetNames := bs_ReplsetNames s;
     bs_PBMname := bs_PBMname s; bs_Size := bs_Size s; bs_Snapshots := bs_Snapshots s;
     bs_PBMPod := bs_PBMPod s; bs_PBMPods := bs_PBMPods s; bs_Error := bs_Error s;
     bs_StartAt := v; bs_CompletedAt := bs_CompletedAt s; bs_LastWriteAt := bs_LastWriteAt s;
     bs_LastTransition := bs_LastTransition s;
     bs_LatestRestorableTime := bs_LatestRestorableTime s |}.
Definition set_CompletedAt (v : option time) (s : PerconaServerMongoDBBackupStatus)
    : PerconaServerMongoDBBackupStatus :=
  {| bs_Type := bs_Type s; bs_State := bs_State s; bs_WaitingReason := bs_WaitingReason s;
     bs_Destination := bs_Destination s; bs_StorageName := bs_StorageName s;
     bs_Storage := bs_Storage s; bs_ReplsetNames := bs_ReplsetNames s;
     bs_PBMname := bs_PBMname s; bs_Size := bs_Size s; bs_Snapshots := bs_Snapshots s;
     bs_PBMPod := bs_PBMPod s; bs_PBMPods := bs_PBMPods s; bs_Error := bs_Error s;
     bs_StartAt := bs_StartAt s; bs_CompletedAt := v; bs_LastWriteAt := bs_LastWriteAt s;
     bs_LastTransition := bs_LastTransition s;
     bs_LatestRestorableTime := bs_LatestRestorableTime s |}.
Definition set_LastWriteAt (v : option time) (s : PerconaServerMongoDBBackupStatus)
    : PerconaServerMongoDBBackupStatus :=
  {| bs_Type := bs_Type s; bs_State := bs_State s; bs_WaitingReason := bs_WaitingReason s;
     bs_Destination := bs_Destination s; bs_StorageName := bs_StorageName s;
     bs_Storage := bs_Storage s; bs_ReplsetNames := bs_ReplsetNames s;
     bs_PBMname := bs_PBMname s; bs_Size := bs_Size s; bs_Snapshots := bs_Snapshots s;
     bs_PBMPod := bs_PBMPod s; bs_PBMPods := bs_PBMPods s; bs_Error := bs_Error s;
     bs_StartAt := bs_StartAt s; bs_CompletedAt := bs_CompletedAt s; bs_LastWriteAt := v;
     bs_LastTransition := bs_LastTransition s;
     bs_LatestRestorableTime := bs_LatestRestorableTime s |}.
Definition set_LastTransition (v : option time) (s : PerconaServerMongoDBBackupStatus)
    : PerconaServerMongoDBBackupStatus :=
  {| bs_Type := bs_Type s; bs_State := bs_State s; bs_WaitingReason := bs_WaitingReason s;
     bs_Destination := bs_Destination s; bs_StorageName := bs_StorageName s;
     bs_Storage := bs_Storage s; bs_ReplsetNames := bs_ReplsetNames s;
     bs_PBMname := bs_PBMname s; bs_Size := bs_Size s; bs_Snapshots := bs_Snapshots s;
     bs_PBMPod := bs_PBMPod s; bs_PBMPods := bs_PBMPods s; bs_Error := bs_Error s;
     bs_StartAt := bs_StartAt s; bs_CompletedAt := bs_CompletedAt s;
     bs_LastWriteAt := bs_LastWriteAt s; bs_LastTransition := v;
     bs_LatestRestorableTime := bs_LatestRestorableTime s |}.
Definition set_LatestRestorableTime (v : option time) (s : PerconaServerMongoDBBackupStatus)
    : PerconaServerMongoDBBackupStatus :=
  {| bs_Type := bs_Type s; bs_State := bs_State s; bs_WaitingReason := bs_WaitingReason s;
     bs_Destination := bs_Destination s; bs_StorageName := bs_StorageName s;
     bs_Storage := bs_Storage s; bs_ReplsetNames := bs_ReplsetNames s;
     bs_PBMname := bs_PBMname s; bs_Size := bs_Size s; bs_Snapshots := bs_Snapshots s;
     bs_PBMPod := bs_PBMPod s; bs_PBMPods := bs_PBMPods s; bs_Error := bs_Error s;
     bs_StartAt := bs_StartAt s; bs_CompletedAt := bs_CompletedAt s;
     bs_LastWriteAt := bs_LastWriteAt s; bs_LastTransition := bs_LastTransition s;
     bs_LatestRestorableTime := v |}.
Definition set_Type (v : string) (s : PerconaServerMongoDBBackupStatus)
    : PerconaServerMongoDBBackupStatus :=
  {| bs_Type := v; bs_State := bs_State s; bs_WaitingReason := bs_WaitingReason s;
     bs_Destination := bs_Destination s; bs_StorageName := bs_StorageName s;
     bs_Storage := bs_Storage s; bs_ReplsetNames := bs_ReplsetNames s;
     bs_PBMname := bs_PBMname s; bs_Size := bs_Size s; bs_Snapshots := bs_Snapshots s;
     bs_PBMPod := bs_PBMPod s; bs_PBMPods := bs_PBMPods s; bs_Error := bs_Error s;
     bs_StartAt := bs_StartAt s; bs_CompletedAt := bs_CompletedAt s;
     bs_LastWriteAt := bs_LastWriteAt s; bs_LastTransition := bs_LastTransition s;
     bs_LatestRestorableTime := bs_LatestRestorableTime s |}.
Definition set_Size (v : string) (s : PerconaServerMongoDBBackupStatus)
    : PerconaServerMongoDBBackupStatus :=
  {| bs_Type := bs_Type s; bs_State := bs_State s; bs_WaitingReason := bs_WaitingReason s;
     bs_Destination := bs_Destination s; bs_StorageName := bs_StorageName s;
     bs_Storage := bs_Storage s; bs_ReplsetNames := bs_ReplsetNames s;
     bs_PBMname := bs_PBMname s; bs_Size := v; bs_Snapshots := bs_Snapshots s;
     bs_PBMPod := bs_PBMPod s; bs_PBMPods := bs_PBMPods s; bs_Error := bs_Error s;
     bs_StartAt := bs_StartAt s; bs_CompletedAt := bs_CompletedAt s;
     bs_LastWriteAt := bs_LastWriteAt s; bs_LastTransition := bs_LastTransition s;
     bs_LatestRestorableTime := bs_LatestRestorableTime s |}.
Definition set_PBMPod (v : string) (s : PerconaServerMongoDBBackupStatus)
    : PerconaServerMongoDBBackupStatus :=
  {| bs_Type := bs_Type s; bs_State := bs_State s; bs_WaitingReason := bs_WaitingReason s;
     bs_Destination := bs_Destination s; bs_StorageName := bs_StorageName s;
     bs_Storage := bs_Storage s; bs_ReplsetNames := bs_ReplsetNames s;
     bs_PBMname := bs_PBMname s; bs_Size := bs_Size s; bs_Snapshots := bs_Snapshots s;
     bs_PBMPod := v; bs_PBMPods := bs_PBMPods s; bs_Error := bs_Error s;
     bs_StartAt := bs_StartAt s; bs_CompletedAt := bs_CompletedAt s;
     bs_LastWriteAt := bs_LastWriteAt s; bs_LastTransition := bs_LastTransition s;
     bs_LatestRestorableTime := bs_LatestRestorableTime s |}.
Definition set_PBMPods (v : gmap string string) (s : PerconaServerMongoDBBackupStatus)
    : PerconaServerMongoDBBackupStatus :=
  {| bs_Type := bs_Type s; bs_State := bs_State s; bs_WaitingReason := bs_WaitingReason s;
     bs_Destination := bs_Destination s; bs_StorageName := bs_StorageName s;
     bs_Storage := bs_Storage s; bs_ReplsetNames := bs_ReplsetNames s;
     bs_PBMname := bs_PBMname s; bs_Size := bs_Size s; bs_Snapshots := bs_Snapshots s;
     bs_PBMPod := bs_PBMPod s; bs_PBMPods := v; bs_Error := bs_Error s;
     bs_StartAt := bs_StartAt s; bs_CompletedAt := bs_CompletedAt s;
     bs_LastWriteAt := bs_LastWriteAt s; bs_LastTransition := bs_LastTransition s;
     bs_LatestRestorableTime := bs_LatestRestorableTime s |}.
Definition set_Destination (v : string) (s : PerconaServerMongoDBBackupStatus)
    : PerconaServerMongoDBBackupStatus :=
  {| bs_Type := bs_Type s; bs_State := bs_State s; bs_WaitingReason := bs_WaitingReason s;
     bs_Destination := v; bs_StorageName := bs_StorageName s; bs_Storage := bs_Storage s;
     bs_ReplsetNames := bs_ReplsetNames s; bs_PBMname := bs_PBMname s; bs_Size := bs_Size s;
     bs_Snapshots := bs_Snapshots s; bs_PBMPod := bs_PBMPod s; bs_PBMPods := bs_PBMPods s;
     bs_Error := bs_Error s; bs_StartAt := bs_StartAt s; bs_CompletedAt := bs_CompletedAt s;
     bs_LastWriteAt := bs_LastWriteAt s; bs_LastTransition := bs_LastTransition s;
     bs_LatestRestorableTime := bs_LatestRestorableTime s |}.

Record PerconaServerMongoDBBackup := {
  bk_Name : string;
  bk_GenerateName : string;
  bk_Namespace : string;
  bk_UID : string;
  bk_Labels : gmap string string;
  bk_Annotations : gmap string string;
  bk_Finalizers : list string;
  bk_Deleting : bool;                    (* DeletionTimestamp != nil *)
  bk_CreationTimestamp : time;
  bk_Spec : PerconaServerMongoDBBackupSpec;
  bk_Status : PerconaServerMongoDBBackupStatus
}.
Definition with_spec (v : PerconaServerMongoDBBackupSpec) (b : PerconaServerMongoDBBackup)
    : PerconaServerMongoDBBackup :=
  {| bk_Name := bk_Name b; bk_GenerateName := bk_GenerateName b; bk_Namespace := bk_Namespace b;
     bk_UID := bk_UID b; bk_Labels := bk_Labels b; bk_Annotations := bk_Annotations b;
     bk_Finalizers := bk_Finalizers b; bk_Deleting := bk_Deleting b;
     bk_CreationTimestamp := bk_CreationTimestamp b; bk_Spec := v; bk_Status := bk_Status b |}.
Definition with_status (v : PerconaServerMongoDBBackupStatus) (b : PerconaServerMongoDBBackup)
    : PerconaServerMongoDBBackup :=
  {| bk_Name := bk_Name b; bk_GenerateName := bk_GenerateName b; bk_Namespace := bk_Namespace b;
     bk_UID := bk_UID b; bk_Labels := bk_Labels b; bk_Annotations := bk_Annotations b;
     bk_Finalizers := bk_Finalizers b; bk_Deleting := bk_Deleting b;
     bk_CreationTimestamp := bk_CreationTimestamp b; bk_Spec := bk_Spec b; bk_Status := v |}.
Definition with_finalizers (v : list string) (b : PerconaServerMongoDBBackup)
    : PerconaServerMongoDBBackup :=
  {| bk_Name := bk_Name b; bk_GenerateName := bk_GenerateName b; bk_Namespace := bk_Namespace b;
     bk_UID := bk_UID b; bk_Labels := bk_Labels b; bk_Annotations := bk_Annotations b;
     bk_Finalizers := v; bk_Deleting := bk_Deleting b;
     bk_CreationTimestamp := bk_CreationTimestamp b; bk_Spec := bk_Spec b;
     bk_Status := bk_Status b |}.
Definition with_namespace (v : string) (b : PerconaServerMongoDBBackup)
    : PerconaServerMongoDBBackup :=
  {| bk_Name := bk_Name b; bk_GenerateName := bk_GenerateName b; bk_Namespace := v;
     bk_UID := bk_UID b; bk_Labels := bk_Labels b; bk_Annotations := bk_Annotations b;
     bk_Finalizers := bk_Finalizers b; bk_Deleting := bk_Deleting b;
     bk_CreationTimestamp := bk_CreationTimestamp b; bk_Spec := bk_Spec b;
     bk_Status := bk_Status b |}.
Definition bk_State (b : PerconaServerMongoDBBackup) : BackupState := bs_State (bk_Status b).

Definition GetClusterName (p : PerconaServerMongoDBBackupSpec) : string := bsp_ClusterName p.

Definition PBMBackupType (p : PerconaServerMongoDBBackup) : string :=
  if bool_decide (bsp_Type (bk_Spec p) = BackupTypeIncrementalBase) then IncrementalBackup
  else if bool_decide (bsp_Type (bk_Spec p) = "") then LogicalBackup
  else bsp_Type (bk_Spec p).

Definition IsBackupTypeIncrementalBase (p : PerconaServerMongoDBBackup) : bool :=
  bool_decide (bsp_Type (bk_Spec p) = BackupTypeIncrementalBase).

(** Checks the specification and fills in the type and the compression. *)
Definition CheckFields (p : PerconaServerMongoDBBackup) : result PerconaServerMongoDBBackup :=
  let s := bk_Spec p in
  if bool_decide (bsp_Type s = ExternalBackup)
     && bool_decide (default "" (bsp_VolumeSnapshotClass s) = "") then
    Err (ENew "spec volumeSnapshotClass field is empty")
  else if bool_decide (bsp_StorageName s = "") && negb (bool_decide (bsp_Type s = ExternalBackup)) then
    Err (ENew "spec storageName field is empty")
  else if bool_decide (GetClusterName s = "") then Err (ENew "spec clusterName is empty")
  else
    let s' := {|
      bsp_ClusterName := bsp_ClusterName s;
      bsp_StorageName := bsp_StorageName s;
      bsp_Compression := if bool_decide (bsp_Compression s = "") then CompressionTypeGZIP
                         else bsp_Compression s;
      bsp_CompressionLevel := bsp_CompressionLevel s;
      bsp_Type := if bool_decide (bsp_Type s = "") then LogicalBackup else bsp_Type s;
      bsp_VolumeSnapshotClass := bsp_VolumeSnapshotClass s;
      bsp_StartingDeadlineSeconds := bsp_StartingDeadlineSeconds s |} in
    Ok (with_spec s' p).

(** * Names and labels *)
Definition LabelBackupAncestor : string := "percona.com/backup-ancestor".
Definition LabelBackupType : string := "percona.com/backup-type".
Definition LabelCluster : string := "percona.com/cluster".
Definition FinalizerDeleteBackup : string := "percona.com/delete-backup".
Definition FinalizerReleaseLock : string := "internal.percona.com/release-lock".
Definition AnnotationCancelBackup : string := "percona.com/cancel-backup".

Definition ScheduledBackupLabels `{Versions} (cr : PerconaServerMongoDB) (task : BackupTaskSpec)
    : gmap string string :=
  if (CompareVersion cr "1.17.0" <? 0)%Z then
    {[ "ancestor" := task_Name task; "cluster" := cr_Name cr; "type" := "cron" ]}
  else
    <[LabelBackupType := "cron"]>
      (<[LabelCluster := cr_Name cr]>
        (<[LabelBackupAncestor := task_Name task]> (ClusterLabels cr))).

Definition BackupLeaseName (clusterName : string) : string :=
  "psmdb-" +:+ clusterName +:+ "-backup-lock".
Definition ClusterSyncLeaseName (clusterName : string) : string :=
  "psmdb-" +:+ clusterName +:+ "-clustersync-lock".
Definition BackupHolderId (cr : PerconaServerMongoDBBackup) : string :=
  bk_Name cr +:+ "-" +:+ bk_UID cr.

(** [s[:16]] of a longer name *)
Definition shortClusterName (cr : PerconaServerMongoDB) : string :=
  if (16 <? String.length (cr_Name cr))%nat then String.substring 0 16 (cr_Name cr) else cr_Name cr.

(** [stamp] is [time.Now().Format("20060102150405")]. *)
Definition BackupFromTask `{Versions} (cr : PerconaServerMongoDB) (task : BackupTaskSpec)
    (stamp : string) : result PerconaServerMongoDBBackup :=
  CheckFields {|
    bk_Name := "";
    bk_GenerateName := "cron-" +:+ shortClusterName cr +:+ "-" +:+ stamp +:+ "-";
    bk_Namespace := "";
    bk_UID := "";
    bk_Labels := ScheduledBackupLabels cr task;
    bk_Annotations := ∅;
    bk_Finalizers := if ret_DeleteFromStorage (GetRetention task cr) then [FinalizerDeleteBackup] else [];
    bk_Deleting := false;
    bk_CreationTimestamp := zeroTime;
    bk_Spec := {|
      bsp_ClusterName := cr_Name cr;
      bsp_StorageName := task_StorageName task;
      bsp_Compression := task_CompressionType task;
      bsp_CompressionLevel := task_CompressionLevel task;
      bsp_Type := if bool_decide (task_Type task = "") then LogicalBackup else task_Type task;
      bsp_VolumeSnapshotClass := task_VolumeSnapshotClass task;
      bsp_StartingDeadlineSeconds := None |};
    bk_Status := zeroStatus |}.

(** * Restores, as far as the backup handlers look at them *)
Inductive RestoreState :=
| RestoreStateNew | RestoreStateWaiting | RestoreStateRequested | RestoreStateRejected
| RestoreStateRunning | RestoreStateError | RestoreStateReady.
#[export] Instance RestoreState_eq_dec : EqDecision RestoreState.
Proof. solve_decision. Defined.
Record PerconaServerMongoDBRestore := {
  r_Name : string;
  r_ClusterName : string;
  r_State : RestoreState
}.

(** * The Kubernetes API for these resources

    The API server is outside the repository.  [client] reads go through a
    cache, [apiReader] reads do not. *)
Class BackupClient (W : Type) := {
  api_get_cluster : string → string → GoM W BackupCluster;          (* client.Get *)
  api_read_cluster : string → string → GoM W BackupCluster;         (* apiReader.Get *)
  api_get_backup : string → string → GoM W PerconaServerMongoDBBackup;
  api_read_backup : string → string → GoM W PerconaServerMongoDBBackup;
  api_list_backups : string → Kube.Selector → GoM W (list PerconaServerMongoDBBackup);
  api_list_restores : string → GoM W (list PerconaServerMongoDBRestore);
  api_create_backup : PerconaServerMongoDBBackup → GoM W unit;
  api_delete_backup : PerconaServerMongoDBBackup → GoM W unit;
  api_update_backup_status : PerconaServerMongoDBBackup → GoM W unit;  (* Status().Update *)
  api_update_backup : PerconaServerMongoDBBackup → GoM W unit;         (* Update *)
  api_patch_finalizers : PerconaServerMongoDBBackup → list string → GoM W unit;
  go_now : GoM W time;                       (* time.Now() *)
  go_stamp : GoM W string                    (* time.Now().Format("20060102150405") *)
}.

(** * An API server without backups, and a cluster, for concrete runs *)
Definition emptyBackups (W : Type) : BackupClient W := {|
  api_get_cluster := λ _ _, Kube.notFound;
  api_read_cluster := λ _ _, Kube.notFound;
  api_get_backup := λ _ _, Kube.notFound;
  api_read_backup := λ _ _, Kube.notFound;
  api_list_backups := λ _ _, mret [];
  api_list_restores := λ _, mret [];
  api_create_backup := λ _, mret tt;
  api_delete_backup := λ _, mret tt;
  api_update_backup_status := λ _, mret tt;
  api_update_backup := λ _, mret tt;
  api_patch_finalizers := λ _ _, mret tt;
  go_now := mret 1700000000000000000%Z;
  go_stamp := mret "20260101000000"
|}.

Definition a_bucket : BucketSpec :=
  {| bu_Bucket := "bucket"; bu_Prefix := ""; bu_EndpointURL := ""; bu_CredentialsSecret := "creds" |}.
Definition a_storage : BackupStorageSpec := {|
  stg_Type := BackupStorageS3; stg_Main := true;
  stg_S3 := {| s3_bucket := a_bucket; s3_Region := ""; s3_UploadPartSize := 0; s3_MaxUploadParts := 0;
    s3_StorageClass := ""; s3_InsecureSkipTLSVerify := false; s3_ForcePathStyle := None;
    s3_Retryer := None; s3_SSE := {| SSEAlgorithm := ""; SSE_KMSKeyID := "";
      SSECustomerAlgorithm := ""; SSE_CustomerKey := "" |} |};
  stg_Minio := {| mio_bucket := a_bucket; mio_Region := ""; mio_PartSize := 0;
    mio_InsecureSkipTLSVerify := false; mio_CABundle := false; mio_ForcePathStyle := None;
    mio_DebugTrace := false; mio_Retryer := None; mio_Secure := false |};
  stg_GCS := {| gcs_bucket := a_bucket; gcs_ChunkSize := 0; gcs_Retryer := None |};
  stg_Azure := a_bucket;
  stg_OSS := {| oss_bucket := a_bucket; oss_Region := ""; oss_ConnectTimeout := 0;
    oss_UploadPartSize := 0; oss_MaxUploadParts := 0; oss_Retryer := None;
    oss_SSE := {| osse_SecretName := ""; osse_EncryptionMethod := "";
      osse_EncryptionAlgorithm := ""; osse_EncryptionKeyID := "" |} |};
  stg_Filesystem := {| fs_Path := "/" |};
  stg_OCI := {| oci_bucket := a_bucket; oci_Region := ""; oci_Namespace := "";
    oci_AuthType := AuthTypeInstancePrincipal; oci_Retryer := None; oci_SSE_KmsKeyID := "";
    oci_SSE_SecretName := ""; oci_UploadPartSize := 0; oci_MaxObjSizeGB := None;
    oci_UploadConcurrency := 0 |} |}.
Definition a_task : BackupTaskSpec := {|
  task_Name := "daily"; task_Enabled := true; task_Keep := 2; task_Retention := None;
  task_Schedule := "@daily"; task_StorageName := "s3"; task_CompressionType := "";
  task_CompressionLevel := None; task_VolumeSnapshotClass := None; task_Type := "" |}.
Definition a_backup_cluster : BackupCluster := {|
  bc_cr := a_cluster [];
  bc_Backup := {| b_Enabled := true; b_Image := "pbm"; b_Storages := {[ "s3" := a_storage ]};
                  b_Tasks := [a_task];
                  b_PITR := {| pitr_Enabled := false; pitr_OplogSpanMin := "10"; pitr_OplogOnly := false;
                               pitr_CompressionType := ""; pitr_CompressionLevel := None |};
                  b_BackupOptions := None; b_RestoreOptions := None;
                  b_StartingDeadlineSeconds := None |};
  bc_Status := {| st_State := AppStateReady; st_MongoVersion := ""; st_MongoImage := ""; st_Message := "";
                  st_Conditions := []; st_Replsets := ∅; st_Mongos := None; st_ObservedGeneration := 0;
                  st_BackupVersion := "2.12.0"; st_BackupImage := "pbm"; st_BackupConfigHash := "";
                  st_Host := ""; st_Size := 1; st_Ready := 1; st_PVCShrink := ∅; st_Search := ∅ |};
  bc_Pause := false; bc_SecretsSSE := ""; bc_UnsafeConf := false; bc_BackupIfUnhealthy := false |}.
Definition a_backup (name : string) (st : BackupState) (created : time) : PerconaServerMongoDBBackup := {|
  bk_Name := name; bk_GenerateName := ""; bk_Namespace := "ns"; bk_UID := "uid-" +:+ name;
  bk_Labels := ∅; bk_Annotations := ∅; bk_Finalizers := []; bk_Deleting := false;
  bk_CreationTimestamp := created;
  bk_Spec := {| bsp_ClusterName := "c"; bsp_StorageName := "s3"; bsp_Compression := "gzip";
                bsp_CompressionLevel := None; bsp_Type := LogicalBackup;
                bsp_VolumeSnapshotClass := None; bsp_StartingDeadlineSeconds := None |};
  bk_Status := set_State st zeroStatus |}.

(** * Time *)

(** [time.Duration(s) * time.Second], and [t.Sub(u)], which saturates *)
Definition seconds (s : Z) : Z := wrap64 (s * second).
Definition Sub (t u : time) : Z := Z.max (- 2 ^ 63) (Z.min (2 ^ 63 - 1) (t - u)).
(** [time.Unix(t.Unix(), 0)] *)
Definition truncate_second (t : time) : time := unix (t / second).

(** The date of a day counted from the first of January 1970: [y, m, d] *)
Definition civil (days : Z) : Z * Z * Z :=
  (let z := days + 719468 in
   let era := z / 146097 in
   let doe := z - era * 146097 in
   let yoe := (doe - doe / 1460 + doe / 36524 - doe / 146096) / 365 in
   let doy := doe - (365 * yoe + yoe / 4 - yoe / 100) in
   let mp := (5 * doy + 2) / 153 in
   let d := doy - (153 * mp + 2) / 5 + 1 in
   let m := if mp <? 10 then mp + 3 else mp - 9 in
   (yoe + era * 400 + (if m <=? 2 then 1 else 0), m, d))%Z.

Definition two_digits (z : Z) : string := (if (z <? 10)%Z then "0" else "") +:+ itoa z.

(** [t.UTC().Format(time.RFC3339)] for the years 1000 to 9999 *)
Definition rfc3339 (t : time) : string :=
  let s := (t / second)%Z in
  let '(y, m, d) := civil (s / 86400) in
  let r := (s mod 86400)%Z in
  itoa y +:+ "-" +:+ two_digits m +:+ "-" +:+ two_digits d +:+ "T" +:+
  two_digits (r / 3600) +:+ ":" +:+ two_digits (r / 60 mod 60) +:+ ":" +:+ two_digits (r mod 60) +:+ "Z".

Example rfc3339_test : rfc3339 1709210096123456789 = "2024-02-29T12:34:56Z".
Proof. reflexivity. Qed.
