(* ===== verification/BackupSchedule.v ===== *)
(** Scheduled backups (pkg/controller/perconaservermongodb/backup.go).

    The operator keeps its schedule in memory: a cron runner with one entry per
    task and a table, [r.crons.backupJobs], from job names to the entries.
    [reconcileBackupTasks] brings both in line with the tasks of the cluster
    resource, makes up for a tick that was missed, and deletes the backups that
    exceed a task's retention, oldest first, with a heap. *)
From S2P Require Import Prelude ReplsetModels Api Kube Hosts GoSort GoHeap BackupApi.

(** What an entry runs: [createBackupTask(ctx, cr, task)] *)
Record CronFunc := { cf_cr : BackupCluster; cf_task : BackupTaskSpec }.

(** github.com/robfig/cron: a runner with entries under the numbers it hands
    out; [cron_Next] is [ParseStandard] with the [Next] of the parsed schedule,
    the zero time when there is no next tick. *)
Class Cron (C : Type) := {
  cron_AddFunc : string → CronFunc → C → result Z * C;
  cron_Remove : Z → C → C;
  cron_entries : C → gmap Z CronFunc;
  cron_Next : string → result (time → time)
}.
Class CronLaws (C : Type) `{Cron C} := {
  AddFunc_Ok spec f c id c' : cron_AddFunc spec f c = (Ok id, c') →
    cron_entries c !! id = None ∧ cron_entries c' = <[id := f]> (cron_entries c);
  AddFunc_Err spec f c e c' : cron_AddFunc spec f c = (Err e, c') →
    cron_entries c' = cron_entries c;
  Remove_entries id c : cron_entries (cron_Remove id c) = delete id (cron_entries c)
}.

Record BackupScheduleJob := {
  bj_Task :> BackupTaskSpec;
  bj_JobID : Z;
  bj_ClusterName : string
}.

(** [r.crons] *)
Record CronRegistry (C : Type) := { crons : C; backupJobs : gmap string BackupScheduleJob }.
Arguments crons {C} _.
Arguments backupJobs {C} _.

(** * Reading the list of backups *)
Section lists.
Context {W : Type} {K : BackupClient W} {V : Versions}.

Definition backupInProgress (state : BackupState) : bool :=
  match state with
  | BackupStateNew | BackupStateWaiting | BackupStateRequested | BackupStateRunning => true
  | _ => false
  end.

Definition ancestor_selector (cr : PerconaServerMongoDB) (ancestor : string) : Selector :=
  SelectorFromSet {[ LabelCluster := cr_Name cr; LabelBackupAncestor := ancestor ]}.
Definition everything : Selector := SelectorFromSet ∅.

(** [latest == nil || latest.CreationTimestamp.Before(&b.CreationTimestamp)] *)
Definition later_backup (latest : option PerconaServerMongoDBBackup) (b : PerconaServerMongoDBBackup)
    : option PerconaServerMongoDBBackup :=
  match latest with
  | None => Some b
  | Some l => if Before (bk_CreationTimestamp l) (bk_CreationTimestamp b) then Some b else Some l
  end.

Definition latestScheduledBackup (cr : PerconaServerMongoDB) (ancestor : string)
    : GoM W (option PerconaServerMongoDBBackup) :=
  items ← api_list_backups (cr_Namespace cr) (ancestor_selector cr ancestor);
  mret (foldl later_backup None items).

Definition older (a b : PerconaServerMongoDBBackup) : bool :=
  Before (bk_CreationTimestamp a) (bk_CreationTimestamp b).

(** Popping [n] times; on an empty heap the code would panic. *)
Fixpoint pop_n (n : nat) (h : list PerconaServerMongoDBBackup)
    : result (list PerconaServerMongoDBBackup) :=
  match n with
  | 0 => Ok []
  | S n' =>
      match heap_Pop older h with
      | None => Err index_panic
      | Some (o, h') => ret ← pop_n n' h'; Ok (o :: ret)
      end
  end.

Definition ready_heap (items : list PerconaServerMongoDBBackup) : list PerconaServerMongoDBBackup :=
  foldl (λ h bcp, if bool_decide (bk_State bcp = BackupStateReady) then heap_Push older h bcp else h)
    [] items.

(** The ready backups among [items] that exceed [keep]. *)
Definition exceeding (keep : Z) (items : list PerconaServerMongoDBBackup)
    : result (list PerconaServerMongoDBBackup) :=
  if (Z.of_nat (length items) <=? keep)%Z then Ok []
  else
    let h := ready_heap items in
    if (Z.of_nat (length h) <=? keep)%Z then Ok []
    else pop_n (Z.to_nat (Z.of_nat (length h) - keep)) h.

Definition oldScheduledBackups (cr : PerconaServerMongoDB) (ancestor : string) (keep : Z)
    : GoM W (list PerconaServerMongoDBBackup) :=
  items ← api_list_backups (cr_Namespace cr) (ancestor_selector cr ancestor);
  liftR (exceeding keep items).

Definition backup_running (cr : PerconaServerMongoDB) (bcp : PerconaServerMongoDBBackup) : bool :=
  bool_decide (GetClusterName (bk_Spec bcp) = cr_Name cr) &&
  match bk_State bcp with
  | BackupStateReady | BackupStateError | BackupStateCanceled | BackupStateWaiting => false
  | _ => true
  end.

Definition isBackupRunning (cr : PerconaServerMongoDB) : GoM W bool :=
  r ← tryM (api_list_backups (cr_Namespace cr) everything);
  match r with
  | Err e => if IsNotFound e then mret false else throw (EWrap e "get backup list")
  | Ok items => mret (existsb (backup_running cr) items)
  end.

Definition full_backup (cr : PerconaServerMongoDB) (stgName : string)
    (b : PerconaServerMongoDBBackup) : bool :=
  bool_decide (bk_State b = BackupStateReady)
  && bool_decide (GetClusterName (bk_Spec b) = cr_Name cr)
  && bool_decide (bsp_StorageName (bk_Spec b) = stgName).

Definition hasFullBackup (cr : PerconaServerMongoDB) (stgName : string) : GoM W bool :=
  r ← tryM (api_list_backups (cr_Namespace cr) everything);
  match r with
  | Err e => if IsNotFound e then mret false else throw (EWrap e "get backup list")
  | Ok items => mret (existsb (full_backup cr stgName) items)
  end.

Definition ready_of (cr : PerconaServerMongoDB) (b : PerconaServerMongoDBBackup) : bool :=
  bool_decide (bk_State b = BackupStateReady) && bool_decide (GetClusterName (bk_Spec b) = cr_Name cr).

Definition getLatestBackup (cr : PerconaServerMongoDB) : GoM W (option PerconaServerMongoDBBackup) :=
  r ← tryM (api_list_backups (cr_Namespace cr) everything);
  match r with
  | Err e => if IsNotFound e then mret None else throw (EWrap e "get backup list")
  | Ok items =>
      mret (foldl (λ latest b, if ready_of cr b then later_backup latest b else latest) None items)
  end.
End lists.

(** * The schedule *)
Section schedule.
Context {W : Type} {K : BackupClient W} {V : Versions} {O : MapOrder}.
Context {C : Type} {R : Cron C}.
Abbreviation M := (GoM (CronRegistry C * W)).

Definition onK {A} (m : GoM W A) : M A := λ w, let '(r, w') := m w.2 in (r, (w.1, w')).
Definition load (key : string) : M (option BackupScheduleJob) :=
  λ w, (Ok (backupJobs w.1 !! key), w).
Definition store (key : string) (job : BackupScheduleJob) : M unit := λ w,
  (Ok tt, ({| crons := crons w.1; backupJobs := <[key := job]> (backupJobs w.1) |}, w.2)).
Definition load_and_delete (key : string) : M (option BackupScheduleJob) := λ w,
  (Ok (backupJobs w.1 !! key),
   ({| crons := crons w.1; backupJobs := delete key (backupJobs w.1) |}, w.2)).
Definition add_func (spec : string) (f : CronFunc) : M Z := λ w,
  let '(r, c) := cron_AddFunc spec f (crons w.1) in
  (r, ({| crons := c; backupJobs := backupJobs w.1 |}, w.2)).
Definition remove (id : Z) : M unit := λ w,
  (Ok tt, ({| crons := cron_Remove id (crons w.1); backupJobs := backupJobs w.1 |}, w.2)).

Definition deleteBackupTask (cr : PerconaServerMongoDB) (task : BackupTaskSpec) : M unit :=
  r ← load_and_delete (JobName task cr);
  match r with
  | None => mret tt
  | Some job => remove (bj_JobID job)
  end.

(** The backup is built from the cluster and the task as they were when the
    entry was made. *)
Definition createBackup (cr : BackupCluster) (task : BackupTaskSpec) : M unit :=
  r ← tryM (onK (api_get_cluster (cr_Namespace cr) (cr_Name cr)));
  match r with
  | Err e => if IsNotFound e then deleteBackupTask cr task else throw (EWrap e "get cluster")
  | Ok _ =>
      stamp ← onK go_stamp;
      bcp ← wrapM "build backup" (liftR (BackupFromTask cr task stamp));
      wrapM "create backup" (onK (api_create_backup (with_namespace (cr_Namespace cr) bcp)))
  end.

(** Running an entry: the error is only logged. *)
Definition run_entry (f : CronFunc) : M unit :=
  _ ← tryM (createBackup (cf_cr f) (cf_task f)); mret tt.

Definition missedCronTick (schedule : string) (last now : time) : result bool :=
  if bool_decide (last = zeroTime) then Ok false
  else match cron_Next (C := C) schedule with
       | Err e => Err (EWrap e "parse cron schedule")
       | Ok Next =>
           let next := Next last in
           Ok (negb (bool_decide (next = zeroTime)) && Before next now)
       end.

Definition catchUpMissedScheduledBackup (cr : BackupCluster) (task : BackupTaskSpec) (now : time)
    : M unit :=
  latest ← wrapM "list scheduled backups" (onK (latestScheduledBackup cr (task_Name task)));
  match latest with
  | None => mret tt
  | Some latest =>
      if backupInProgress (bk_State latest) then mret tt
      else
        missed ← liftR (missedCronTick (task_Schedule task) (bk_CreationTimestamp latest) now);
        if negb missed then mret tt
        else
          running ← wrapM "check if backup is running" (onK (isBackupRunning cr));
          if running : bool then mret tt
          else wrapM "create catch-up backup" (createBackup cr task)
  end.

(** A stored job that already does what the task asks for. *)
Definition unchanged_job (job : option BackupScheduleJob) (task : BackupTaskSpec) : bool :=
  match job with
  | Some t => bool_decide (task_Schedule t = task_Schedule task)
              && bool_decide (task_StorageName t = task_StorageName task)
  | None => false
  end.

Definition createOrUpdateBackupTaskAt (cr : BackupCluster) (task : BackupTaskSpec) (now : time)
    : M unit :=
  bj ← load (JobName task cr);
  if unchanged_job bj task then mret tt
  else
    let t := match bj with Some job => bj_Task job | None => zeroTask end in
    deleteBackupTask cr t;;
    jobID ← wrapM ("can't parse cronjob schedule for backup " +:+ task_Name task +:+
                   " with schedule " +:+ task_Schedule task)
              (add_func (task_Schedule task) {| cf_cr := cr; cf_task := task |});
    r ← tryM (catchUpMissedScheduledBackup cr task now);
    match r with
    | Err e => remove jobID;; throw e
    | Ok _ =>
        store (JobName task cr)
          {| bj_Task := task; bj_JobID := jobID; bj_ClusterName := NamespacedName cr |}
    end.

Definition createOrUpdateBackupTask (cr : BackupCluster) (task : BackupTaskSpec) : M unit :=
  now ← onK go_now; createOrUpdateBackupTaskAt cr task now.

(** The deletion stops at the first failure, which is only logged. *)
Definition delete_exceeding (cr : BackupCluster) (name : string) (keep : Z) : M unit :=
  r ← tryM (onK (oldScheduledBackups cr name keep));
  match r with
  | Err _ => mret tt
  | Ok oldjobs => _ ← tryM (onK (mapM_list api_delete_backup oldjobs)); mret tt
  end.

(** The callback of [Range]. *)
Definition prune_job (cr : BackupCluster) (ctasks : gmap string BackupTaskSpec)
    (item : BackupScheduleJob) : M unit :=
  if negb (bool_decide (bj_ClusterName item = "")) &&
     negb (bool_decide (bj_ClusterName item = NamespacedName cr)) then mret tt
  else match ctasks !! task_Name item with
       | Some spec =>
           if bool_decide (task_Type spec = IncrementalBackup) then mret tt
           else
             let ret := GetRetention spec cr in
             if negb (bool_decide (ret_Type ret = BackupTaskSpecRetentionTypeCount)) then mret tt
             else if (ret_Count ret <=? 0)%Z then mret tt
             else delete_exceeding cr (task_Name item) (ret_Count ret)
       | None => deleteBackupTask cr item
       end.

(** The callback removes at most the entry it is called for, so [Range] visits
    the jobs that were there when it started. *)
Definition deleteOldBackupTasks (cr : BackupCluster) (ctasks : gmap string BackupTaskSpec) : M unit :=
  λ w, mapM_list (λ p, prune_job cr ctasks p.2) (map_order (backupJobs w.1)) w.

(** What is wrong with an enabled task. *)
Definition task_error (cr : BackupCluster) (task : BackupTaskSpec) : option error :=
  let no_storage := match b_Storages (bc_Backup cr) !! task_StorageName task with
                    | None => true | Some _ => false end in
  let external := bool_decide (task_Type task = ExternalBackup) in
  if negb external && no_storage then
    Some (ENew ("there is no storage " +:+ task_StorageName task +:+ " in cluster " +:+
                cr_Name cr +:+ " for " +:+ task_Name task +:+ " task"))
  else if external && bool_decide (default "" (task_VolumeSnapshotClass task) = "") then
    Some (ENew ("spec volumeSnapshotClass field is empty for " +:+ task_Name task +:+ " task"))
  else None.

Fixpoint schedule_tasks (cr : BackupCluster) (tasks : list BackupTaskSpec)
    (ctasks : gmap string BackupTaskSpec) : M (gmap string BackupTaskSpec) :=
  match tasks with
  | [] => mret ctasks
  | task :: tasks' =>
      if negb (task_Enabled task) then schedule_tasks cr tasks' ctasks
      else match task_error cr task with
           | Some e => throw e
           | None =>
               createOrUpdateBackupTask cr task;;
               schedule_tasks cr tasks' (<[task_Name task := task]> ctasks)
           end
  end.

Definition reconcileBackupTasks (cr : BackupCluster) : M unit :=
  if IsPVCShrinkInProgress cr then mret tt
  else
    ctasks ← schedule_tasks cr (b_Tasks (bc_Backup cr)) ∅;
    deleteOldBackupTasks cr ctasks.
End schedule.

(** * Retention *)
Lemma older_strict : strict_weak older.
Proof.
  split; unfold older, Before; intros *; rewrite ?Z.ltb_lt, ?Z.ltb_ge; lia.
Qed.

Lemma pop_n_spec n h :
  heap_ok older h (length h) → n ≤ length h →
  ∃ ret h', pop_n n h = Ok ret ∧ length ret = n ∧ ret ++ h' ≡ₚ h ∧
    StronglySorted (λ a b, older b a = false) ret ∧
    ∀ o k, o ∈ ret → k ∈ h' → older k o = false.
Proof.
  revert h; induction n as [|n IH]; intros h Hh Hn.
  { exists [], h. split_and!; try done; [constructor|]. intros o k Ho. by apply elem_of_nil in Ho. }
  destruct (heap_Pop_spec older older_strict h) as (x & h1 & Hpop & Hp & Hh1 & Hmin);
    [by intros ->; cbn in Hn; lia|done|].
  assert (length h = S (length h1)) as Hlen by (by rewrite <- Hp).
  destruct (IH h1 Hh1) as (ret & h2 & Hr & Hl & Hp2 & Hs & Hle); [lia|].
  assert (∀ y, y ∈ ret ++ h2 → older y x = false) as Hx.
  { intros y Hy. apply Hmin. rewrite <- Hp, elem_of_cons. right. by rewrite <- Hp2. }
  exists (x :: ret), h2. cbn [pop_n]. rewrite Hpop, Hr. split_and!.
  - done.
  - cbn. by rewrite Hl.
  - cbn. by rewrite Hp2.
  - constructor; [done|]. apply Forall_forall. intros y Hy. apply Hx. apply elem_of_app. by left.
  - intros o k [->|Ho]%elem_of_cons Hk; [|by apply Hle]. apply Hx. apply elem_of_app. by right.
Qed.

Abbreviation is_ready := (λ b, bk_State b = BackupStateReady).

Lemma ready_heap_spec items :
  ready_heap items ≡ₚ filter is_ready items ∧ heap_ok older (ready_heap items) (length (ready_heap items)).
Proof.
  unfold ready_heap.
  assert (∀ h, heap_ok older h (length h) →
    let h' := foldl (λ h bcp, if bool_decide (bk_State bcp = BackupStateReady)
                              then heap_Push older h bcp else h) h items in
    h' ≡ₚ h ++ filter is_ready items ∧ heap_ok older h' (length h')) as H.
  { induction items as [|b items IH]; intros h Hh; cbn [foldl]; [by rewrite app_nil_r|].
    rewrite filter_cons. case_bool_decide as Hb; [|rewrite decide_False by done; by apply IH].
    rewrite decide_True by done.
    destruct (IH (heap_Push older h b)) as [Hp Ho].
    { apply heap_Push_ok; [apply older_strict|done]. }
    split; [|done]. rewrite Hp. unfold heap_Push. cbv zeta. rewrite up_perm.
    by rewrite <- app_assoc. }
  apply (H []). intros k Hk. cbn in Hk. lia.
Qed.

Lemma exceeding_spec keep items :
  (0 ≤ keep)%Z →
  ∃ ret kept, exceeding keep items = Ok ret ∧
    ret ++ kept ≡ₚ filter is_ready items ∧
    length kept = Nat.min (Z.to_nat keep) (length (filter is_ready items)) ∧
    StronglySorted (λ a b, older b a = false) ret ∧
    ∀ o k, o ∈ ret → k ∈ kept → older k o = false.
Proof.
  intros Hkeep. pose proof (ready_heap_spec items) as [Hp Ho].
  pose proof (length_filter is_ready items) as Hf. pose proof (Permutation_length Hp) as Hl.
  assert ((Z.of_nat (length (filter is_ready items)) ≤ keep)%Z → ∃ ret kept, Ok [] = Ok ret ∧
    ret ++ kept ≡ₚ filter is_ready items ∧
    length kept = Nat.min (Z.to_nat keep) (length (filter is_ready items)) ∧
    StronglySorted (λ a b, older b a = false) ret ∧
    ∀ o k, o ∈ ret → k ∈ kept → older k o = false) as Hnone.
  { intros. exists [], (filter is_ready items). split_and!; try done; [lia|constructor|].
    intros o k Hx. by apply elem_of_nil in Hx. }
  unfold exceeding. destruct (Z.leb_spec (Z.of_nat (length items)) keep); [apply Hnone; lia|].
  cbv zeta. destruct (Z.leb_spec (Z.of_nat (length (ready_heap items))) keep); [apply Hnone; lia|].
  destruct (pop_n_spec (Z.to_nat (Z.of_nat (length (ready_heap items)) - keep)) (ready_heap items))
    as (ret & kept & Hr & Hlr & Hpr & Hs & Hle); [done|lia|].
  exists ret, kept. split_and!; try done; [by rewrite Hpr|].
  apply Permutation_length in Hpr. rewrite length_app in Hpr. lia.
Qed.

(** C34: The backups deleted for exceeding a retention count are, of the ready
    backups of the task, the oldest ones, in order of age: exactly so many that
    the count remain (or none), and no backup that remains is older than one
    that is deleted; backups in any other state are never deleted. *)
Theorem oldScheduledBackups_spec {W} {K : BackupClient W} cr ancestor keep w items w' :
  (0 ≤ keep)%Z →
  api_list_backups (cr_Namespace cr) (ancestor_selector cr ancestor) w = (Ok items, w') →
  ∃ ret kept, oldScheduledBackups cr ancestor keep w = (Ok ret, w') ∧
    ret ++ kept ≡ₚ filter is_ready items ∧
    length kept = Nat.min (Z.to_nat keep) (length (filter is_ready items)) ∧
    StronglySorted (λ a b, older b a = false) ret ∧
    ∀ o k, o ∈ ret → k ∈ kept → older k o = false.
Proof.
  intros Hkeep Hl. destruct (exceeding_spec keep items Hkeep) as (ret & kept & E & H).
  exists ret, kept. split; [|done]. unfold oldScheduledBackups.
  rewrite (bind_ok _ _ _ _ _ Hl). unfold liftR. by rewrite E.
Qed.

(** * The table and the runner *)
Section table.
Context {W : Type} {K : BackupClient W} {V : Versions} {O : MapOrder}.
Context {C : Type} {R : Cron C}.
Implicit Types (s : CronRegistry C) (cr : BackupCluster) (task : BackupTaskSpec).

Definition jobname cr (nm : string) : string :=
  cr_Name cr +:+ "-backup-" +:+ nm +:+ "-" +:+ cr_Namespace cr.

Lemma JobName_jobname cr task : JobName task cr = jobname cr (task_Name task).
Proof. done. Qed.
Lemma jobname_inj cr n1 n2 : jobname cr n1 = jobname cr n2 → n1 = n2.
Proof. unfold jobname. intros E. do 2 apply (inj (String.app _)) in E. by apply str_app_inj_r in E. Qed.

(** Every stored job has its own entry in the runner, which runs its task, and
    every entry belongs to a stored job, but for an entry [pend] that was just
    made. *)
Definition registered (pend : option (Z * BackupTaskSpec)) s : Prop :=
  (∀ k job, backupJobs s !! k = Some job →
     (∃ f, cron_entries (crons s) !! bj_JobID job = Some f ∧ cf_task f = job) ∧
     (∀ t, pend ≠ Some (bj_JobID job, t))) ∧
  (∀ k1 k2 j1 j2, backupJobs s !! k1 = Some j1 → backupJobs s !! k2 = Some j2 →
     bj_JobID j1 = bj_JobID j2 → k1 = k2) ∧
  (∀ id f, cron_entries (crons s) !! id = Some f →
     (∃ t, pend = Some (id, t)) ∨ ∃ k job, backupJobs s !! k = Some job ∧ bj_JobID job = id) ∧
  (∀ id t, pend = Some (id, t) → ∃ f, cron_entries (crons s) !! id = Some f ∧ cf_task f = t).
Definition in_sync s : Prop := registered None s.

(** The jobs stored under the names this cluster uses are its own, and its own
    are stored under these names. *)
Definition own cr s : Prop :=
  ∀ k job, backupJobs s !! k = Some job →
    bj_ClusterName job ≠ "" ∧
    ∀ nm, k = jobname cr nm ↔ (bj_ClusterName job = NamespacedName cr ∧ task_Name job = nm).

(** The jobs of other clusters are as they were. *)
Definition others_kept cr s s' : Prop :=
  ∀ k, (∀ nm, k ≠ jobname cr nm) → backupJobs s' !! k = backupJobs s !! k.

Definition drop_job (k : string) s : CronRegistry C :=
  match backupJobs s !! k with
  | None => s
  | Some job => {| crons := cron_Remove (bj_JobID job) (crons s); backupJobs := delete k (backupJobs s) |}
  end.

Lemma deleteBackupTask_eq cr task s (w : W) :
  deleteBackupTask cr task (s, w) = (Ok tt, (drop_job (JobName task cr) s, w)).
Proof.
  unfold deleteBackupTask, load_and_delete, drop_job, mbind, gom_bind, remove, mret, gom_ret. cbn.
  destruct (backupJobs s !! _) as [job|] eqn:E; cbn; [done|].
  rewrite delete_id by done. by destruct s.
Qed.
Lemma drop_job_jobs k s : backupJobs (drop_job k s) = delete k (backupJobs s).
Proof. unfold drop_job. destruct (_ !! k) eqn:E; [done|]. by rewrite delete_id. Qed.
Lemma drop_job_own k cr s : own cr s → own cr (drop_job k s).
Proof.
  intros Ho k' job. rewrite drop_job_jobs. intros [_ Hk]%lookup_delete_Some. by apply Ho.
Qed.
Lemma drop_job_others nm cr s0 s : others_kept cr s0 s → others_kept cr s0 (drop_job (jobname cr nm) s).
Proof.
  intros Hs k Hk. rewrite drop_job_jobs, lookup_delete_ne by (intros E; by apply (Hk nm)).
  by apply Hs.
Qed.

Context {CL : CronLaws C}.
Lemma drop_job_registered pend k s : registered pend s → registered pend (drop_job k s).
Proof using CL.
  intros (H1 & H2 & H3 & H4). unfold drop_job.
  destruct (backupJobs s !! k) as [job|] eqn:E; [|done].
  destruct (H1 _ _ E) as [_ Hpend].
  unfold registered. cbn. rewrite Remove_entries. split_and!.
  - intros k' job' [Hk Hj]%lookup_delete_Some. destruct (H1 _ _ Hj) as [(f & Hf & Ht) Hp].
    split; [|done]. exists f. split; [|done]. apply lookup_delete_Some. split; [|done].
    intros E'. apply Hk. by apply (H2 k k' job job').
  - intros k1 k2 j1 j2 [_ ?]%lookup_delete_Some [_ ?]%lookup_delete_Some. by apply H2.
  - intros id f [Hid Hf]%lookup_delete_Some. destruct (H3 _ _ Hf) as [?|(k' & job' & Hj & Hj')]; [by left|].
    right. exists k', job'. split; [|done]. apply lookup_delete_Some. split; [|done].
    intros <-. rewrite E in Hj. by injection Hj as <-.
  - intros id t Ep. destruct (H4 id t Ep) as (f & Hf & Ht). exists f. split; [|done].
    apply lookup_delete_Some. split; [|done]. intros E'. apply (Hpend t). by rewrite E'.
Qed.

(** ** Steps that may only remove the task's own job *)
Lemma onK_hoare {A} (m : GoM W A) (P : CronRegistry C → Prop) : hoare P (onK m) (λ _, P).
Proof using Type. intros s w Hs. unfold onK. cbn. by destruct (m w). Qed.

Section dropping.
Context (cr : BackupCluster) (task : BackupTaskSpec) (P : CronRegistry C → Prop).
Context (HP : ∀ s, P s → P (drop_job (JobName task cr) s)).

Lemma createBackup_hoare : hoare P (createBackup cr task) (λ _, P).
Proof using HP.
  unfold createBackup. apply hoare_step; [apply hoare_try, onK_hoare|]. intros [c|e].
  - apply hoare_step; [apply onK_hoare|]. intros stamp.
    apply hoare_step; [by apply hoare_wrap, hoare_lift|]. intros b. apply hoare_wrap, onK_hoare.
  - destruct (IsNotFound e); [|by apply hoare_throw].
    intros s w Hs. rewrite deleteBackupTask_eq. by apply HP.
Qed.

Lemma catchUp_hoare now : hoare P (catchUpMissedScheduledBackup cr task now) (λ _, P).
Proof using HP.
  unfold catchUpMissedScheduledBackup. apply hoare_step; [apply hoare_wrap, onK_hoare|].
  intros [latest|]; [|by apply hoare_ret]. destruct (backupInProgress _); [by apply hoare_ret|].
  apply hoare_step; [by apply hoare_lift|].
  intros missed. destruct (negb missed); [by apply hoare_ret|].
  apply hoare_step; [apply hoare_wrap, onK_hoare|].
  intros []; [by apply hoare_ret|]. apply hoare_wrap, createBackup_hoare.
Qed.
End dropping.

(** ** One task *)
Lemma registered_frame pend s c : cron_entries c = cron_entries (crons s) →
  registered pend s → registered pend {| crons := c; backupJobs := backupJobs s |}.
Proof using Type. unfold registered. cbn. by intros ->. Qed.

Lemma own_insert cr task (id : Z) s :
  own cr s → own cr {| crons := crons s; backupJobs := <[JobName task cr :=
    {| bj_Task := task; bj_JobID := id; bj_ClusterName := NamespacedName cr |}]> (backupJobs s) |}.
Proof using Type.
  intros Ho k job. cbn. destruct (decide (k = JobName task cr)) as [->|Hk].
  - rewrite lookup_insert_eq. intros [= <-]. cbn. split.
    + unfold NamespacedName. intros E. revert E. by destruct (cr_Namespace cr).
    + intros nm. rewrite JobName_jobname. split; [by intros ?%jobname_inj|by intros [_ <-]].
  - rewrite lookup_insert_ne by done. by apply Ho.
Qed.

Lemma add_registered s c id f spec (task := cf_task f) :
  in_sync s → cron_AddFunc spec f (crons s) = (Ok id, c) →
  registered (Some (id, task)) {| crons := c; backupJobs := backupJobs s |}.
Proof using CL.
  intros (H1 & H2 & H3 & _) [Hid Hc]%AddFunc_Ok. unfold registered. cbn. rewrite Hc. split_and!.
  - intros k job Hj. destruct (H1 _ _ Hj) as [(g & Hg & Ht) _].
    assert (id ≠ bj_JobID job) by congruence. split; [|by intros t [= ? _]].
    exists g. by rewrite lookup_insert_ne.
  - exact H2.
  - intros i g. destruct (decide (i = id)) as [->|Hi]; [by left; exists task|].
    rewrite lookup_insert_ne by done. intros [[t ?]|?]%H3; [done|by right].
  - intros i t [= <- <-]. exists f. by rewrite lookup_insert_eq.
Qed.

Lemma remove_registered s id task :
  registered (Some (id, task)) s →
  in_sync {| crons := cron_Remove id (crons s); backupJobs := backupJobs s |}.
Proof using CL.
  intros (H1 & H2 & H3 & _). unfold in_sync, registered. cbn. rewrite Remove_entries. split_and!.
  - intros k job Hj. destruct (H1 _ _ Hj) as [(g & Hg & Ht) Hp]. split; [|done].
    exists g. rewrite lookup_delete_ne; [done|]. intros ->. by apply (Hp task).
  - exact H2.
  - intros i g [Hi Hg]%lookup_delete_Some. right. destruct (H3 _ _ Hg) as [[t [= E _]]|?]; [done|done].
  - done.
Qed.

Lemma store_registered s k job :
  registered (Some (bj_JobID job, bj_Task job)) s → backupJobs s !! k = None →
  in_sync {| crons := crons s; backupJobs := <[k := job]> (backupJobs s) |}.
Proof using Type.
  intros (H1 & H2 & H3 & H4) Hk. unfold in_sync, registered. cbn. split_and!.
  - intros k' job' [[<- <-]|[_ Hj]]%lookup_insert_Some.
    + split; [|done]. by apply (H4 _ (bj_Task job)).
    + destruct (H1 _ _ Hj) as [? _]. by split.
  - intros k1 k2 j1 j2 [[<- <-]|[Hk1 Hj1]]%lookup_insert_Some [[<- <-]|[Hk2 Hj2]]%lookup_insert_Some E.
    + done.
    + destruct (H1 _ _ Hj2) as [_ Hp]. rewrite <- E in Hp. by destruct (Hp (bj_Task job)).
    + destruct (H1 _ _ Hj1) as [_ Hp]. rewrite E in Hp. by destruct (Hp (bj_Task job)).
    + by apply (H2 k1 k2 j1 j2).
  - intros id f Hf. right. destruct (H3 _ _ Hf) as [[t [= <- <-]]|(k' & job' & Hj & E)].
    + exists k, job. by rewrite lookup_insert_eq.
    + exists k', job'. rewrite lookup_insert_ne; [done|]. intros <-. by rewrite Hk in Hj.
  - done.
Qed.

(** What [createOrUpdateBackupTaskAt] leaves, from the table of [s0]. *)
Definition scheduled cr task s0 (r : result unit) s : Prop :=
  in_sync s ∧ own cr s ∧ others_kept cr s0 s ∧
  (∀ nm, nm ≠ "" → nm ≠ task_Name task → backupJobs s !! jobname cr nm = backupJobs s0 !! jobname cr nm) ∧
  (r = Ok tt → unchanged_job (backupJobs s !! JobName task cr) task = true).

(** The state between the steps: the new entry is not stored yet. *)
Definition pending_task cr task s0 (id : Z) s : Prop :=
  registered (Some (id, task)) s ∧ own cr s ∧ others_kept cr s0 s ∧
  backupJobs s !! JobName task cr = None ∧
  (∀ nm, nm ≠ "" → nm ≠ task_Name task → backupJobs s !! jobname cr nm = backupJobs s0 !! jobname cr nm).

Lemma pending_drop cr task s0 id s :
  pending_task cr task s0 id s → pending_task cr task s0 id (drop_job (JobName task cr) s).
Proof using CL.
  intros (H1 & H2 & H3 & H4 & H5). split_and!.
  - by apply drop_job_registered.
  - by apply drop_job_own.
  - by apply (drop_job_others (task_Name task)).
  - by rewrite drop_job_jobs, lookup_delete_eq.
  - intros nm Hnm Hne. rewrite drop_job_jobs, lookup_delete_ne; [by apply H5|].
    rewrite JobName_jobname. intros E%jobname_inj. by apply Hne.
Qed.

(** The deletion that precedes a change frees the task's name. *)
Lemma old_job_dropped cr task s0 (bj := backupJobs s0 !! JobName task cr)
    (t := match bj with Some job => bj_Task job | None => zeroTask end) (s := drop_job (JobName t cr) s0) :
  own cr s0 →
  backupJobs s !! JobName task cr = None ∧
  (∀ nm, nm ≠ "" → nm ≠ task_Name task → backupJobs s !! jobname cr nm = backupJobs s0 !! jobname cr nm).
Proof using Type.
  intros Ho. unfold s. rewrite drop_job_jobs.
  assert (task_Name t = task_Name task ∧ is_Some bj ∨ task_Name t = "" ∧ bj = None) as Ht.
  { unfold t. destruct bj as [job|] eqn:E; [|by right]. left. split; [|done].
    destruct (Ho _ _ E) as [_ Hnm]. by destruct (proj1 (Hnm (task_Name task)) eq_refl) as [_ ->]. }
  split.
  - destruct Ht as [[E _]|[_ E]].
    + rewrite !JobName_jobname, E. by rewrite lookup_delete_eq.
    + apply lookup_delete_None. by right.
  - intros nm Hnm Hne. apply lookup_delete_ne. rewrite JobName_jobname. intros <-%jobname_inj.
    destruct Ht as [[E _]|[E _]]; by rewrite E in *.
Qed.

Lemma createOrUpdateBackupTaskAt_hoare cr task now s0 :
  in_sync s0 → own cr s0 →
  hoare (λ s, s = s0) (createOrUpdateBackupTaskAt cr task now) (scheduled cr task s0).
Proof using CL.
  intros Hreg Hown. unfold createOrUpdateBackupTaskAt.
  pose proof (old_job_dropped cr task s0 Hown) as [Hfree Hrest].
  eapply hoare_bind with (R := λ bj s, bj = backupJobs s0 !! JobName task cr ∧ s = s0).
  { by intros s w ->. }
  intros bj. destruct (unchanged_job bj task) eqn:Eu.
  { apply hoare_ret. intros s [-> ->]. by split_and!. }
  cbv zeta. set (t := match backupJobs s0 !! JobName task cr with Some job => _ | None => _ end) in *.
  apply hoare_bind with (R := λ _ s, s = drop_job (JobName t cr) s0).
  { intros s w [-> ->]. by rewrite deleteBackupTask_eq. }
  intros _. apply hoare_bind with (R := λ id, pending_task cr task s0 id).
  { apply hoare_wrap. intros s w ->. unfold add_func. cbn [fst snd].
    assert (others_kept cr s0 (drop_job (JobName t cr) s0)) by (by apply drop_job_others).
    pose proof (drop_job_registered None (JobName t cr) _ Hreg) as Hr.
    pose proof (drop_job_own (JobName t cr) _ _ Hown).
    destruct (cron_AddFunc _ _ _) as [[id|e] c] eqn:Ea; cbn [wrap_err fst snd].
    - split_and!; try done. by apply (add_registered _ _ _ _ _ Hr Ea).
    - apply AddFunc_Err in Ea. split_and!; try done. by apply registered_frame. }
  intros id. apply hoare_bind with (R := λ _, pending_task cr task s0 id).
  { apply hoare_try, catchUp_hoare, pending_drop. }
  intros [[]|e]; intros s w (H1 & H2 & H3 & H4 & H5); cbn.
  - split_and!.
    + by apply store_registered.
    + by apply own_insert.
    + intros k Hk. cbn. rewrite lookup_insert_ne; [by apply H3|]. intros E. by apply (Hk (task_Name task)).
    + intros nm Hnm Hne. cbn. rewrite lookup_insert_ne; [by apply H5|].
      rewrite JobName_jobname. intros E%jobname_inj. by apply Hne.
    + intros _. cbn. rewrite lookup_insert_eq. cbn. by rewrite !bool_decide_eq_true_2.
  - split_and!; try done. by eapply remove_registered.
Qed.

(** ** All tasks of a cluster *)

(** The enabled tasks by name; of two with one name the later counts. *)
Definition enabled_tasks (tasks : list BackupTaskSpec) (ct : gmap string BackupTaskSpec)
    : gmap string BackupTaskSpec :=
  foldl (λ ct task, if task_Enabled task then <[task_Name task := task]> ct else ct) ct tasks.

Definition covered cr (ct : gmap string BackupTaskSpec) s : Prop :=
  ∀ nm t, nm ≠ "" → ct !! nm = Some t → unchanged_job (backupJobs s !! jobname cr nm) t = true.

(** The table and the runner agree, and only jobs of [cr] differ from [s0]. *)
Definition reconciling cr s0 s : Prop := in_sync s ∧ own cr s ∧ others_kept cr s0 s.

Lemma schedule_tasks_hoare cr tasks ct s0 :
  hoare (λ s, reconciling cr s0 s ∧ covered cr ct s) (schedule_tasks cr tasks ct)
    (λ r s, reconciling cr s0 s ∧
       match r with Ok ct' => ct' = enabled_tasks tasks ct ∧ covered cr ct' s | Err _ => True end).
Proof using CL.
  revert ct; induction tasks as [|task tasks IH]; intros ct; cbn [schedule_tasks].
  { apply hoare_ret. by intros s [? ?]. }
  unfold enabled_tasks. cbn [foldl]. fold (enabled_tasks tasks).
  destruct (task_Enabled task); cbn [negb]; [|apply IH].
  destruct (task_error cr task); [by apply hoare_throw; intros s [? ?]|].
  eapply hoare_bind with (R := λ _ s, reconciling cr s0 s ∧ covered cr (<[task_Name task := task]> ct) s);
    [|intros []; apply IH].
  unfold createOrUpdateBackupTask.
  eapply hoare_bind with (R := λ _ s, reconciling cr s0 s ∧ covered cr ct s).
  { eapply hoare_conseq; [apply (onK_hoare _ (λ s, reconciling cr s0 s ∧ covered cr ct s))|done|].
    intros [] s H; [done|]. by destruct H. }
  intros now s w [(Hs & Ho & Hk) Hc].
  pose proof (createOrUpdateBackupTaskAt_hoare cr task now s Hs Ho s w eq_refl) as (H1 & H2 & H3 & H4 & H5).
  destruct (createOrUpdateBackupTaskAt cr task now (s, w)) as [r [s' w']]. cbn [fst snd] in *.
  assert (reconciling cr s0 s').
  { split_and!; [done|done|]. intros k Hk'. rewrite H3 by done. by apply Hk. }
  destruct r as [[]|e]; [|done]. split; [done|].
  intros nm t Hnm [[<- <-]|[Hne Ht]]%lookup_insert_Some.
  - by apply H5.
  - rewrite H4 by done. by apply Hc.
Qed.

(** The callback's effect on the table *)
Definition outdated cr (ct : gmap string BackupTaskSpec) (item : BackupScheduleJob) : bool :=
  (bool_decide (bj_ClusterName item = "") || bool_decide (bj_ClusterName item = NamespacedName cr))
  && bool_decide (ct !! task_Name item = None).

Lemma prune_job_eq cr ct item s (w : W) :
  ∃ w', prune_job cr ct item (s, w) =
    (Ok tt, (if outdated cr ct item then drop_job (JobName item cr) s else s, w')).
Proof using Type.
  unfold prune_job, outdated. rewrite <- negb_orb.
  destruct (_ || _); cbn [negb andb]; [|by exists w].
  destruct (ct !! task_Name item) as [spec|] eqn:E.
  - rewrite (bool_decide_eq_false_2 (Some spec = None)) by done. cbv zeta. repeat (case_match; [by exists w|]).
    unfold delete_exceeding, tryM, onK, mbind, gom_bind. cbn.
    destruct (oldScheduledBackups cr _ _ w) as [[old|e] w1]; cbn; [|by exists w1].
    destruct (mapM_list _ old w1) as [r w2]. by exists w2.
  - rewrite bool_decide_eq_true_2 by done. exists w. apply deleteBackupTask_eq.
Qed.

Lemma prune_jobs_eq cr ct l s (w : W) :
  ∃ w', mapM_list (λ p : string * BackupScheduleJob, prune_job cr ct p.2) l (s, w) =
    (Ok tt, (foldl (λ s p, if outdated cr ct p.2 then drop_job (JobName p.2 cr) s else s) s l, w')).
Proof using Type.
  revert s w; induction l as [|p l IH]; intros s w; [by exists w|].
  destruct (prune_job_eq cr ct p.2 s w) as [w1 E1]. 
  destruct (IH (if outdated cr ct p.2 then drop_job (JobName p.2 cr) s else s) w1) as [w2 E2].
  exists w2. cbn [mapM_list foldl]. unfold mbind at 1, gom_bind at 1. rewrite E1. exact E2.
Qed.

Lemma pruned_reconciling cr ct s0 l s :
  reconciling cr s0 s →
  reconciling cr s0 (foldl (λ s p, if outdated cr ct (p : string * _).2 then drop_job (JobName p.2 cr) s else s) s l).
Proof using CL.
  revert s; induction l as [|p l IH]; intros s Hs; cbn [foldl]; [done|].
  apply IH. destruct (outdated _ _ _); [|done]. destruct Hs as (? & ? & ?).
  split_and!; [by apply drop_job_registered|by apply drop_job_own|by apply drop_job_others].
Qed.

Lemma pruned_lookup cr ct nm l s :
  backupJobs (foldl (λ s p, if outdated cr ct (p : string * _).2 then drop_job (JobName p.2 cr) s else s) s l)
    !! jobname cr nm =
  if existsb (λ p : string * BackupScheduleJob, outdated cr ct p.2 && bool_decide (task_Name p.2 = nm)) l
  then None else backupJobs s !! jobname cr nm.
Proof using Type.
  revert s; induction l as [|p l IH]; intros s; cbn [foldl existsb]; [done|]. rewrite IH.
  destruct (outdated cr ct p.2); cbn [andb orb]; [|done]. rewrite drop_job_jobs, JobName_jobname.
  case_bool_decide as E; cbn [orb].
  - rewrite E, lookup_delete_eq. by destruct (existsb _ l).
  - rewrite lookup_delete_ne; [done|]. by intros ?%jobname_inj.
Qed.

Lemma deleteOldBackupTasks_eq {OL : MapOrderLaws O} cr ct s0 s (w : W) :
  reconciling cr s0 s → covered cr ct s →
  ∃ s' w', deleteOldBackupTasks cr ct (s, w) = (Ok tt, (s', w')) ∧
    reconciling cr s0 s' ∧ covered cr ct s' ∧
    ∀ nm, ct !! nm = None → backupJobs s' !! jobname cr nm = None.
Proof using CL.
  intros Hs Hc. destruct (prune_jobs_eq cr ct (map_order (backupJobs s)) s w) as [w' E].
  eexists _, w'. split_and!; [exact E|by apply pruned_reconciling|..].
  - intros nm t Hnm Ht. rewrite pruned_lookup.
    destruct (existsb _ _) eqn:Ee; [|by apply Hc].
    apply existsb_exists in Ee as ([k job] & _ & [Ho En]%andb_prop). apply bool_decide_eq_true in En.
    unfold outdated in Ho. cbn [snd] in *. apply andb_prop in Ho as [_ Ho%bool_decide_eq_true].
    by rewrite En, Ht in Ho.
  - intros nm Hnm. rewrite pruned_lookup. destruct (existsb _ _) eqn:Ee; [done|].
    destruct (backupJobs s !! jobname cr nm) as [job|] eqn:Ej; [exfalso|done].
    destruct Hs as (_ & Ho & _). destruct (Ho _ _ Ej) as [_ Hnm'].
    destruct (proj1 (Hnm' nm) eq_refl) as [Hcl En].
    rewrite <- Bool.not_true_iff_false in Ee. apply Ee, existsb_exists. exists (jobname cr nm, job). split.
    + apply base.list_elem_of_In. rewrite map_order_perm. by apply elem_of_map_to_list.
    + unfold outdated. cbn [snd]. rewrite En, Hnm, (bool_decide_eq_true_2 (bj_ClusterName job = NamespacedName cr)) by done.
      rewrite orb_true_r. by rewrite !bool_decide_eq_true_2.
Qed.

(** C35: From a table of jobs and a cron runner in step, in which the jobs
    under the names this cluster uses are its own and its own are under these
    names (two clusters can form the same name, see the example
    JobName_collision; such tables are not covered), reconcileBackupTasks
    keeps, whatever the API server answers and whether it succeeds or fails,
    table and runner in step: every stored job has an entry of its own that
    runs its task, no entry is left without a job, the names stay its own, and
    the jobs of other clusters stay as they are. *)
Theorem reconcileBackupTasks_in_sync {OL : MapOrderLaws O} cr s (w : W) :
  in_sync s → own cr s →
  let s' := (reconcileBackupTasks cr (s, w)).2.1 in
  in_sync s' ∧ own cr s' ∧ others_kept cr s s'.
Proof using CL.
  intros Hs Ho. unfold reconcileBackupTasks. destruct (IsPVCShrinkInProgress cr); [by split_and!|].
  apply (hoare_bind (λ s1, s1 = s) _ (λ ct s1, reconciling cr s s1 ∧ covered cr ct s1) _
           (λ _ s1, reconciling cr s s1)); [|..|done].
  - eapply hoare_conseq; [apply (schedule_tasks_hoare cr _ ∅ s)|..].
    + intros ? ->. by split_and!.
    + intros [ct|e] s1 [? ?]; [|done]. by intuition.
  - intros ct s1 w1 [H1 H2]. destruct (deleteOldBackupTasks_eq cr ct s s1 w1 H1 H2)
      as (s2 & w2 & E & ? & _). by rewrite E.
Qed.

(** When [reconcileBackupTasks] succeeds, the jobs of the cluster are
    exactly its enabled tasks: a job with the schedule and the storage of the
    task, with an entry in the runner, for each of them, and no job under any
    other name. *)
Theorem reconcileBackupTasks_jobs {OL : MapOrderLaws O} cr s s' (w w' : W) :
  in_sync s → own cr s → IsPVCShrinkInProgress cr = false →
  reconcileBackupTasks cr (s, w) = (Ok tt, (s', w')) →
  ∀ nm, nm ≠ "" →
    match enabled_tasks (b_Tasks (bc_Backup cr)) ∅ !! nm with
    | Some task => ∃ (job : BackupScheduleJob) f, backupJobs s' !! jobname cr nm = Some job ∧
        task_Schedule job = task_Schedule task ∧ task_StorageName job = task_StorageName task ∧
        cron_entries (crons s') !! bj_JobID job = Some f ∧ cf_task f = job
    | None => backupJobs s' !! jobname cr nm = None
    end.
Proof using CL.
  intros Hs Ho Hp E nm Hnm. unfold reconcileBackupTasks in E. rewrite Hp in E.
  pose proof (schedule_tasks_hoare cr (b_Tasks (bc_Backup cr)) ∅ s s w) as H.
  unfold mbind, gom_bind in E. destruct (schedule_tasks _ _ _ _) as [[ct|e] [s1 w1]]; [|done].
  cbn in H. destruct H as (H1 & -> & H2); [by split_and!|].
  destruct (deleteOldBackupTasks_eq cr _ s s1 w1 H1 H2) as (s2 & w2 & E2 & H3 & H4 & H5).
  rewrite E2 in E. injection E as -> ->.
  destruct (enabled_tasks _ _ !! nm) as [task|] eqn:Et; [|by apply H5].
  specialize (H4 nm task Hnm Et). destruct (backupJobs s' !! jobname cr nm) as [job|] eqn:Ej; [|done].
  destruct H3 as ((Hreg & _) & _). destruct (Hreg _ _ Ej) as [(f & Hf & Hft) _].
  apply andb_prop in H4 as [?%bool_decide_eq_true ?%bool_decide_eq_true]. by exists job, f.
Qed.
End table.

(** * Catching up

    The handlers run over [W * list _] with every backup they ask the API
    server to create recorded. *)
Section catch_up.
Context {W : Type} {K : BackupClient W} {V : Versions} {C : Type} {R : Cron C}.
Abbreviation blog := (list PerconaServerMongoDBBackup).

Definition unrecorded {A} (m : GoM W A) : GoM (W * blog) A := λ w,
  let '(r, w') := m w.1 in (r, (w', w.2)).
Definition recording : BackupClient (W * blog) := {|
  api_get_cluster := λ a b, unrecorded (api_get_cluster a b);
  api_read_cluster := λ a b, unrecorded (api_read_cluster a b);
  api_get_backup := λ a b, unrecorded (api_get_backup a b);
  api_read_backup := λ a b, unrecorded (api_read_backup a b);
  api_list_backups := λ a b, unrecorded (api_list_backups a b);
  api_list_restores := λ a, unrecorded (api_list_restores a);
  api_create_backup := λ b w,
    let '(r, w') := api_create_backup b w.1 in (r, (w', w.2 ++ [b]));
  api_delete_backup := λ b, unrecorded (api_delete_backup b);
  api_update_backup_status := λ b, unrecorded (api_update_backup_status b);
  api_update_backup := λ b, unrecorded (api_update_backup b);
  api_patch_finalizers := λ b f, unrecorded (api_patch_finalizers b f);
  go_now := unrecorded go_now;
  go_stamp := unrecorded go_stamp
|}.

Lemma later_fold items acc latest :
  foldl later_backup acc items = Some latest →
  (latest ∈ items ∨ acc = Some latest) ∧
  (∀ b, b ∈ items ∨ acc = Some b → (bk_CreationTimestamp b ≤ bk_CreationTimestamp latest)%Z).
Proof using Type.
  revert acc; induction items as [|x items IH]; intros acc; cbn [foldl].
  - intros ->. split; [by right|]. intros b [Hb| [= ->]]; [by apply elem_of_nil in Hb|lia].
  - intros [Hin Hle]%IH. unfold later_backup in *. destruct acc as [l|].
    + unfold Before in *. destruct (Z.ltb_spec (bk_CreationTimestamp l) (bk_CreationTimestamp x)).
      * split.
        -- destruct Hin as [?| [= <-]]; left; [by right|by left].
        -- intros b [[->|Hb]%elem_of_cons| [= ->]]; [apply Hle; by right|apply Hle; by left|].
           specialize (Hle x (or_intror eq_refl)). lia.
      * split.
        -- destruct Hin as [?| [= <-]]; [left; by right|by right].
        -- intros b [[->|Hb]%elem_of_cons| [= ->]]; [|apply Hle; by left|apply Hle; by right].
           specialize (Hle l (or_intror eq_refl)). lia.
    + split.
      * destruct Hin as [?| [= <-]]; left; [by right|by left].
      * intros b [[->|Hb]%elem_of_cons|?]; [apply Hle; by right|apply Hle; by left|done].
Qed.

Lemma BackupFromTask_fields cr task stamp b :
  BackupFromTask cr task stamp = Ok b →
  bk_Labels b = ScheduledBackupLabels cr task ∧ GetClusterName (bk_Spec b) = cr_Name cr ∧
  bsp_StorageName (bk_Spec b) = task_StorageName task.
Proof using Type.
  unfold BackupFromTask, CheckFields. cbv zeta. intros E. repeat case_match; simplify_eq; done.
Qed.

(** A backup of the task: made by [BackupFromTask], in the cluster's namespace. *)
Definition backup_of cr task (b : PerconaServerMongoDBBackup) : Prop :=
  bk_Namespace b = cr_Namespace cr ∧ bk_Labels b = ScheduledBackupLabels cr task ∧
  GetClusterName (bk_Spec b) = cr_Name cr ∧ bsp_StorageName (bk_Spec b) = task_StorageName task.

Lemma createBackup_recorded (cr : BackupCluster) task (s : CronRegistry C) w log :
  let log' := (createBackup (K := recording) cr task (s, (w, log))).2.2.2 in
  log' = log ∨ ∃ b, log' = log ++ [b] ∧ backup_of cr task b.
Proof using Type.
  intros log'. assert (E : log' = log') by done. revert E. unfold log' at 2. clearbody log'.
  unfold createBackup, tryM, onK, mbind, gom_bind, wrapM, liftR. cbn. unfold unrecorded. cbn.
  destruct (api_get_cluster _ _ w) as [[c|e] w1]; cbn.
  - destruct (go_stamp w1) as [[stamp|e] w2]; cbn; [|by intros ->; left].
    destruct (BackupFromTask cr task stamp) as [b|e] eqn:E; cbn; [|by intros ->; left].
    destruct (api_create_backup _ w2) as [r w3]; cbn. intros ->. right. eexists. split; [done|].
    by apply BackupFromTask_fields in E as (? & ? & ?).
  - destruct (IsNotFound e); [|by intros ->; left]. rewrite deleteBackupTask_eq. by intros ->; left.
Qed.

(** Catching up asks for at most one backup, a backup of the task, and only
    when the newest backup of the task exists and is not in progress, the
    schedule had a tick after it and before now, and no backup of the cluster is
    running. *)
Theorem catchUp_creates (cr : BackupCluster) task now (s : CronRegistry C) w log :
  let log' := (catchUpMissedScheduledBackup (K := recording) cr task now (s, (w, log))).2.2.2 in
  log' = log ∨
  ∃ b items w1 latest Next w2,
    log' = log ++ [b] ∧ backup_of cr task b ∧
    api_list_backups (cr_Namespace cr) (ancestor_selector cr (task_Name task)) w = (Ok items, w1) ∧
    latest ∈ items ∧
    (∀ b', b' ∈ items → (bk_CreationTimestamp b' ≤ bk_CreationTimestamp latest)%Z) ∧
    backupInProgress (bk_State latest) = false ∧
    cron_Next (C := C) (task_Schedule task) = Ok Next ∧
    (Next (bk_CreationTimestamp latest) < now)%Z ∧
    isBackupRunning cr w1 = (Ok false, w2).
Proof using Type.
  intros log'. assert (E : log' = log') by done. revert E. unfold log' at 2. clearbody log'.
  unfold catchUpMissedScheduledBackup, wrapM, onK. unfold mbind at 1, gom_bind at 1. cbn.
  unfold latestScheduledBackup, mbind at 1, gom_bind at 1. cbn. unfold unrecorded at 1. cbn.
  destruct (api_list_backups _ _ w) as [[items|e] w1] eqn:El; cbn; [|by intros ->; left].
  destruct (foldl later_backup None items) as [latest|] eqn:Ef; cbn; [|by intros ->; left].
  apply later_fold in Ef as [[Hin|?] Hle]; [|done].
  destruct (backupInProgress (bk_State latest)) eqn:Ep; [by intros ->; left|].
  unfold missedCronTick. case_bool_decide; cbn; [by intros ->; left|].
  destruct (cron_Next (task_Schedule task)) as [Next|e] eqn:En; cbn; [|by intros ->; left].
  destruct (negb (bool_decide _) && Before _ now) eqn:Em; cbn; [|by intros ->; left].
  apply andb_prop in Em as [_ Hb]. apply Z.ltb_lt in Hb.
  assert (∃ w2 rr, isBackupRunning cr w1 = (rr, w2) ∧
    isBackupRunning (K := recording) cr (w1, log) = (rr, (w2, log))) as (w2 & rr & E1 & E2).
  { unfold isBackupRunning, tryM, mbind, gom_bind. cbn. unfold unrecorded. cbn.
    destruct (api_list_backups _ _ w1) as [[items2|e] w2]; cbn; [by eexists _, _|].
    destruct (IsNotFound e); by eexists _, _. }
  unfold mbind, gom_bind. cbn. rewrite E2. destruct rr as [[|]|e]; cbn; [by intros ->; left| |by intros ->; left].
  pose proof (createBackup_recorded cr task s w2 log) as Hc. cbv zeta in Hc.
  destruct (createBackup _ _ _) as [r [s3 [w3 log3]]]. cbn in *.
  destruct Hc as [?|(b & ? & ?)]; [by intros ->; left|].
  intros ->. right. exists b, items, w1, latest, Next, w2.
  split_and!; try done. intros b' Hb'. apply Hle. by left.
Qed.
End catch_up.

(** * Concrete runs *)

(** A runner that numbers its entries from 1 on, and a schedule that ticks
    every hour. *)
Definition fresh_id (m : gmap Z CronFunc) : Z := (1 + foldr Z.max 0 (map_to_list m).*1)%Z.
Definition hourly : Cron (gmap Z CronFunc) := {|
  cron_AddFunc := λ spec f m,
    if bool_decide (spec = "") then (Err (ENew "empty spec string"), m)
    else (Ok (fresh_id m), <[fresh_id m := f]> m);
  cron_Remove := λ id m, delete id m;
  cron_entries := λ m, m;
  cron_Next := λ _, Ok (λ t, t + 3600 * second)%Z
|}.
Lemma fresh_id_spec m : m !! fresh_id m = None.
Proof.
  destruct (m !! fresh_id m) as [f|] eqn:E; [|done]. apply elem_of_map_to_list in E.
  assert (∀ l x, x ∈ l → (x ≤ foldr Z.max 0 l)%Z) as H.
  { intros l x. induction l as [|y l IH]; [by intros ?%elem_of_nil|].
    cbn. intros [->|?%IH]%elem_of_cons; lia. }
  specialize (H (map_to_list m).*1 (fresh_id m)). unfold fresh_id in *.
  assert ((1 + foldr Z.max 0 (map_to_list m).*1)%Z ∈ (map_to_list m).*1) as Hin.
  { apply list_elem_of_fmap. by exists ((1 + foldr Z.max 0 (map_to_list m).*1)%Z, f). }
  specialize (H Hin). lia.
Qed.
Lemma hourly_laws : @CronLaws _ hourly.
Proof.
  split; cbn.
  - intros spec f c id c'. case_bool_decide; intros [= <- <-]. split; [apply fresh_id_spec|done].
  - intros spec f c e c'. case_bool_decide; by intros [= <- <-].
  - done.
Qed.

Definition empty_registry : CronRegistry (gmap Z CronFunc) := {| crons := ∅; backupJobs := ∅ |}.
Lemma empty_in_sync : @in_sync _ hourly empty_registry.
Proof. unfold in_sync, registered. split_and!; cbn; intros *; rewrite ?lookup_empty; done. Qed.
Lemma empty_own cr : own cr empty_registry.
Proof. intros k job. cbn. by rewrite lookup_empty. Qed.

(** With a retention of two, the oldest of three ready backups goes. *)
Lemma oldScheduledBackups_spec_witness :
  let items := [a_backup "b" BackupStateReady 20; a_backup "f" BackupStateError 1;
                a_backup "a" BackupStateReady 10; a_backup "c" BackupStateReady 30] in
  ∃ ret kept, exceeding 2 items = Ok ret ∧ ret ++ kept ≡ₚ filter is_ready items ∧ length kept = 2 ∧
    map bk_Name ret = ["a"].
Proof.
  cbv zeta. set (items := [_; _; _; _]).
  pose (K := {| api_get_cluster := λ _ _, notFound; api_read_cluster := λ _ _, notFound;
    api_get_backup := λ _ _, notFound; api_read_backup := λ _ _, notFound;
    api_list_backups := λ _ _, mret items; api_list_restores := λ _, mret [];
    api_create_backup := λ _, mret tt; api_delete_backup := λ _, mret tt;
    api_update_backup_status := λ _, mret tt; api_update_backup := λ _, mret tt;
    api_patch_finalizers := λ _ _, mret tt; go_now := mret 0%Z; go_stamp := mret "" |} : BackupClient unit).
  destruct (oldScheduledBackups_spec (K := K) (a_cluster []) "daily" 2 tt items tt ltac:(lia) eq_refl)
    as (ret & kept & E & Hp & Hk & _).
  assert (exceeding 2 items = Ok ret) as E' by exact (f_equal fst E).
  exists ret, kept. split; [exact E'|]. split; [exact Hp|]. split; [exact Hk|].
  clear -E'. vm_compute in E'. by injection E' as <-.
Defined.

Lemma reconcileBackupTasks_in_sync_witness :
  in_sync (R := hourly) (reconcileBackupTasks (K := emptyBackups unit) (V := λ _ _, 0%Z)
    (O := list_order) (R := hourly) a_backup_cluster (empty_registry, tt)).2.1.
Proof.
  pose proof hourly_laws. pose proof list_order_laws.
  apply (reconcileBackupTasks_in_sync (K := emptyBackups unit) (R := hourly) a_backup_cluster
           empty_registry tt empty_in_sync (empty_own _)).
Defined.

Definition first_reconcile : result unit * (CronRegistry (gmap Z CronFunc) * unit) :=
  reconcileBackupTasks (K := emptyBackups unit) (V := λ _ _, 0%Z) (O := list_order) (R := hourly)
    a_backup_cluster (empty_registry, tt).

Lemma reconcileBackupTasks_jobs_witness :
  ∃ job, backupJobs first_reconcile.2.1 !! "c-backup-daily-ns" = Some job ∧
    task_Schedule (bj_Task job) = "@daily".
Proof.
  pose proof hourly_laws. pose proof list_order_laws.
  assert (first_reconcile = (Ok tt, (first_reconcile.2.1, tt))) as E by (vm_compute; reflexivity).
  pose proof (reconcileBackupTasks_jobs (K := emptyBackups unit) (V := λ _ _, 0%Z)
    (O := list_order) (R := hourly) a_backup_cluster empty_registry _ tt tt empty_in_sync
    (empty_own _) eq_refl E "daily" ltac:(done)) as Hj.
  assert (enabled_tasks (b_Tasks (bc_Backup a_backup_cluster)) ∅ !! "daily" = Some a_task) as Et
    by (vm_compute; reflexivity).
  rewrite Et in Hj. destruct Hj as (job & f & Hj & Hs & _).
  exists job. split; [exact Hj|exact Hs].
Defined.

Definition task_named (nm : string) : BackupTaskSpec := {|
  task_Name := nm; task_Enabled := true; task_Keep := 0; task_Retention := None;
  task_Schedule := "@daily"; task_StorageName := "s3"; task_CompressionType := "";
  task_CompressionLevel := None; task_VolumeSnapshotClass := None; task_Type := "" |}.
Definition named (nm : string) : PerconaServerMongoDB := {|
  cr_Name := nm; cr_Namespace := "ns"; cr_UID := "uid-" +:+ nm; cr_Generation := 1; cr_Annotations := ∅;
  cr_CRVersion := "1.21.0";
  cr_Unmanaged := false; cr_UnsafeReplsetSize := false; cr_ShardingEnabled := false;
  cr_MongosSize := 0; cr_MongosServicePerPod := false; cr_MongosExposeType := "ClusterIP";
  cr_ConfigsvrReplSet := None; cr_Replsets := []; cr_DNSMode := DNSModeInternal;
  cr_DNSSuffix := "svc.cluster.local"; cr_MCSEnabled := false; cr_MCSDNSSuffix := "";
  cr_TLSMode := None; cr_DefaultRWConcern := None; cr_SecretsUsers := ""; cr_SearchEnabled := false |}.

(** Task [b] of the cluster [a-backup] and task [backup-b] of the cluster [a]
    share one name: the second cluster's reconcile takes the first's job for
    its own and schedules nothing. *)
Example JobName_collision :
  ∃ cr1 cr2, cr_Name cr1 ≠ cr_Name cr2 ∧ cr_Namespace cr1 = cr_Namespace cr2 ∧
    JobName (task_named "backup-b") cr1 = JobName (task_named "b") cr2.
Proof. exists (named "a"), (named "a-backup"). by split_and!. Qed.
