(* ===== verification/Lease.v ===== *)
(** Leases as locks (pkg/k8s/lease.go): acquiring, releasing, and what the
    backup controllers that share one lease may rely on.

    The leases live in the API server, outside the repository.  Reads go
    through a cache, so they may return any earlier version of the lease; a
    write is refused unless it is made from the current version. *)
From S2P Require Import Prelude Kube ReplsetModels BackupApi.

Record Lease := {
  l_Name : string;
  l_Namespace : string;
  l_UID : string;
  l_ResourceVersion : Z;
  l_HolderIdentity : option string;
  l_AcquireTime : option time
}.

Definition ErrNotTheHolder : error := ENew "not the holder".
Definition ErrLeaseAlreadyHeld : error := ENew "lease held by another holder".

(** [lease_create_or_update] is controller-runtime's [CreateOrUpdate]: it reads
    the lease into its argument if there is one, runs the function on it, and
    creates the lease, or updates it if it changed.  [lease_delete] deletes the
    lease if its UID and resource version are those of the argument. *)
Class LeaseClient (W : Type) := {
  lease_get : string → string → GoM W Lease;
  lease_create_or_update : Lease → (Lease → GoM W Lease) → GoM W Lease;
  lease_delete : Lease → GoM W unit;
  lease_now : GoM W time
}.

Definition is_kind (k : ext_kind) (e : error) : bool := bool_decide (err_kind e = Some k).

Section lease.
Context {W : Type} {L : LeaseClient W}.

(** A named holder: neither nil nor empty. *)
Definition lease_holder (lease : Lease) : option string :=
  match l_HolderIdentity lease with
  | Some h => if bool_decide (h = "") then None else Some h
  | None => None
  end.

Definition GetLease (name namespace : string) : GoM W Lease := lease_get name namespace.

Definition take_lease (holder : string) (lease : Lease) : GoM W Lease :=
  now ← lease_now;
  mret {| l_Name := l_Name lease; l_Namespace := l_Namespace lease; l_UID := l_UID lease;
          l_ResourceVersion := l_ResourceVersion lease;
          l_HolderIdentity := Some holder; l_AcquireTime := Some now |}.

(** The function [AcquireLease] hands to [CreateOrUpdate]. *)
Definition acquire_mutate (holder : string) (checkStale : option (Lease → GoM W bool))
    (lease : Lease) : GoM W Lease :=
  match lease_holder lease with
  | None => take_lease holder lease
  | Some h =>
      if bool_decide (h = holder) then mret lease
      else match checkStale with
           | None => throw ErrLeaseAlreadyHeld
           | Some check =>
               stale ← wrapM "check if lease holder is stale" (check lease);
               if negb stale then throw ErrLeaseAlreadyHeld else take_lease holder lease
           end
  end.

Definition AcquireLease (name namespace holder : string) (checkStale : option (Lease → GoM W bool))
    : GoM W Lease :=
  lease_create_or_update
    {| l_Name := name; l_Namespace := namespace; l_UID := ""; l_ResourceVersion := 0;
       l_HolderIdentity := None; l_AcquireTime := None |}
    (acquire_mutate holder checkStale).

Definition IsLeaseActive (name namespace : string) : GoM W bool :=
  r ← tryM (lease_get name namespace);
  match r with
  | Err e => if IsNotFound e then mret false else throw (EWrap e "get lease")
  | Ok lease => mret (match lease_holder lease with Some _ => true | None => false end)
  end.

Definition ReleaseLease (name namespace holder : string) : GoM W unit :=
  r ← tryM (GetLease name namespace);
  match r with
  | Err e => if IsNotFound e then mret tt else throw (EWrap e "get lease")
  | Ok lease =>
      let other := match l_HolderIdentity lease with
                   | Some h => negb (bool_decide (h = holder))
                   | None => false
                   end in
      if other then throw ErrNotTheHolder
      else
        d ← tryM (lease_delete lease);
        match d with
        | Err e => if IsNotFound e || is_kind KConflict e then mret tt
                   else throw (EWrap e "delete lease")
        | Ok _ => mret tt
        end
  end.
End lease.

(** * One lease, many backups

    The server keeps the current version of the lease and the resource version
    of the next write.  [ca_read] is what the cache returns for the next read,
    and [ca_past] every version there ever was. *)
Record Server := {
  sv_lease : option Lease;
  sv_next : Z;
  sv_read : option Lease
}.

Definition write_lease (lease : Lease) (w : Server) : Lease * Server :=
  let l := {| l_Name := l_Name lease; l_Namespace := l_Namespace lease; l_UID := l_UID lease;
              l_ResourceVersion := sv_next w; l_HolderIdentity := l_HolderIdentity lease;
              l_AcquireTime := l_AcquireTime lease |} in
  (l, {| sv_lease := Some l; sv_next := (sv_next w + 1)%Z; sv_read := sv_read w |}).

Definition same_version (a b : Lease) : bool :=
  bool_decide (l_ResourceVersion a = l_ResourceVersion b).

#[export] Instance Lease_eq_dec : EqDecision Lease.
Proof. solve_decision. Defined.

(** A server with optimistic concurrency behind a cache *)
Definition server_client : LeaseClient Server := {|
  lease_get := λ _ _ w,
    match sv_read w with
    | Some l => (Ok l, w)
    | None => (Err (EExt KNotFound "not found"), w)
    end;
  lease_create_or_update := λ obj f w,
    match sv_read w with
    | None =>
        match f obj w with
        | (Err e, w') => (Err e, w')
        | (Ok l, w') =>
            match sv_lease w' with
            | Some _ => (Err (EExt KAlreadyExists "already exists"), w')
            | None => let '(l', w'') := write_lease l w' in (Ok l', w'')
            end
        end
    | Some old =>
        match f old w with
        | (Err e, w') => (Err e, w')
        | (Ok l, w') =>
            if bool_decide (l = old) then (Ok l, w')
            else match sv_lease w' with
                 | Some cur =>
                     if same_version cur old
                     then let '(l', w'') := write_lease l w' in (Ok l', w'')
                     else (Err (EExt KConflict "conflict"), w')
                 | None => (Err (EExt KNotFound "not found"), w')
                 end
        end
    end;
  lease_delete := λ l w,
    match sv_lease w with
    | Some cur =>
        if same_version cur l
        then (Ok tt, {| sv_lease := None; sv_next := sv_next w; sv_read := sv_read w |})
        else (Err (EExt KConflict "conflict"), w)
    | None => (Err (EExt KNotFound "not found"), w)
    end;
  lease_now := λ w, (Ok 0%Z, w)
|}.

(** A backup has not acquired the lease yet, has acquired it, or is done: in a
    terminal state, or gone. *)
Inductive phase := Fresh | Acquired | Done.
#[export] Instance phase_eq_dec : EqDecision phase.
Proof. solve_decision. Defined.

Record Protocol := {
  p_server : Server;
  p_past : list Lease;              (* every version the lease ever had *)
  p_phase : string → phase          (* by holder identity *)
}.

Section protocol.
Context (name namespace : string).
Existing Instance server_client.

Definition set_phase (c : string) (ph : phase) (f : string → phase) : string → phase :=
  λ c', if bool_decide (c' = c) then ph else f c'.

(** A holder is stale when its backup is done. *)
Definition done_holder (ph : string → phase) (lease : Lease) : GoM Server bool :=
  match lease_holder lease with
  | None => mret true
  | Some h => mret (bool_decide (ph h = Done))
  end.

(** The cache may serve any version there was, or none. *)
Definition with_read (r : option Lease) (s : Server) : Server :=
  {| sv_lease := sv_lease s; sv_next := sv_next s; sv_read := r |}.

Definition acquire_at (c : string) (snap : option Lease) (s : Protocol) : result Lease * Protocol :=
  let '(r, sv) := AcquireLease name namespace c (Some (done_holder (p_phase s)))
                    (with_read snap (p_server s)) in
  (r, {| p_server := sv;
         p_past := match sv_lease sv with Some l => l :: p_past s | None => p_past s end;
         p_phase := match r with Ok _ => set_phase c Acquired (p_phase s) | Err _ => p_phase s end |}).

Definition release_at (c : string) (snap : option Lease) (s : Protocol) : Protocol :=
  let '(r, sv) := ReleaseLease name namespace c (with_read snap (p_server s)) in
  {| p_server := sv; p_past := p_past s; p_phase := p_phase s |}.

Inductive step : Protocol → Protocol → Prop :=
| step_acquire c snap s :
    c ≠ "" → p_phase s c ≠ Done → (∀ l, snap = Some l → l ∈ p_past s) →
    step s (acquire_at c snap s).2
| step_finish c s :                     (* the backup reaches a terminal state *)
    step s {| p_server := p_server s; p_past := p_past s; p_phase := set_phase c Done (p_phase s) |}
| step_release c snap s :
    p_phase s c = Done → (∀ l, snap = Some l → l ∈ p_past s) →
    step s (release_at c snap s).

Definition start : Protocol :=
  {| p_server := {| sv_lease := None; sv_next := 1; sv_read := None |}; p_past := [];
     p_phase := λ _, Fresh |}.

Inductive reachable : Protocol → Prop :=
| reach_start : reachable start
| reach_step s s' : reachable s → step s s' → reachable s'.

(** The versions are told apart by their numbers; a backup that holds the lease
    is named by the current version; one named by any version has acquired it. *)
Record lease_inv (s : Protocol) : Prop := {
  inv_cur : ∀ l, sv_lease (p_server s) = Some l → l ∈ p_past s;
  inv_next : ∀ l, l ∈ p_past s → (l_ResourceVersion l < sv_next (p_server s))%Z;
  inv_version : ∀ l l', l ∈ p_past s → l' ∈ p_past s → l_ResourceVersion l = l_ResourceVersion l' → l = l';
  inv_holder : ∀ l c, l ∈ p_past s → l_HolderIdentity l = Some c → p_phase s c ≠ Fresh;
  inv_acquired : ∀ c, p_phase s c = Acquired →
    c ≠ "" ∧ ∃ l, sv_lease (p_server s) = Some l ∧ l_HolderIdentity l = Some c
}.

Definition taken (c : string) (l : Lease) : Lease :=
  {| l_Name := l_Name l; l_Namespace := l_Namespace l; l_UID := l_UID l;
     l_ResourceVersion := l_ResourceVersion l; l_HolderIdentity := Some c; l_AcquireTime := Some 0%Z |}.

(** What [acquire_mutate] does with a lease: it keeps its own, takes a free or
    stale one, and fails on any other. *)
Lemma acquire_mutate_eq c ph l sv :
  ∃ r, acquire_mutate c (Some (done_holder ph)) l sv = (r, sv) ∧
    ((r = Ok l ∧ lease_holder l = Some c) ∨
     (r = Ok (taken c l) ∧ lease_holder l ≠ Some c ∧
      ∀ h, lease_holder l = Some h → ph h = Done) ∨
     (∃ e, r = Err e)).
Proof.
  unfold acquire_mutate, done_holder. destruct (lease_holder l) as [h|] eqn:Eh.
  - case_bool_decide as Eq; [subst; eexists; split; [done|by left]|].
    unfold wrapM, mbind, gom_bind, mret, gom_ret. cbn. case_bool_decide as Ed; cbn.
    + eexists. split; [done|]. right. left. split_and!; [done|congruence|]. by intros ? [= <-].
    + eexists. split; [done|]. right. right. by eexists.
  - eexists. split; [done|]. right. left. by split_and!.
Qed.

Lemma lease_holder_Some l c : lease_holder l = Some c ↔ l_HolderIdentity l = Some c ∧ c ≠ "".
Proof.
  unfold lease_holder. destruct (l_HolderIdentity l) as [h|]; [|naive_solver].
  case_bool_decide; naive_solver.
Qed.

(** ** Each kind of change keeps the invariant *)
Lemma inv_stay s past sv :
  lease_inv s → sv_lease sv = sv_lease (p_server s) → sv_next sv = sv_next (p_server s) →
  (∀ l, l ∈ past ↔ l ∈ p_past s) →
  lease_inv {| p_server := sv; p_past := past; p_phase := p_phase s |}.
Proof.
  intros [H1 H2 H3 H4 H5] E1 E2 Hp. split; cbn; rewrite ?E1, ?E2.
  - intros l Hl. by apply Hp, H1.
  - intros l Hl. by apply H2, Hp.
  - intros l l' Hl Hl'. apply H3; by apply Hp.
  - intros l c Hl. by apply H4, Hp.
  - exact H5.
Qed.

Lemma inv_phase_ext s f :
  lease_inv s → (∀ c, f c = p_phase s c) →
  lease_inv {| p_server := p_server s; p_past := p_past s; p_phase := f |}.
Proof.
  intros [H1 H2 H3 H4 H5] Hf. split; cbn; try done.
  - intros l c. rewrite Hf. apply H4.
  - intros c. rewrite Hf. apply H5.
Qed.

Lemma inv_write s c l sv :
  lease_inv s → c ≠ "" → (∀ c', p_phase s c' ≠ Acquired) → l_HolderIdentity l = Some c →
  sv_next sv = sv_next (p_server s) →
  lease_inv {| p_server := (write_lease l sv).2; p_past := (write_lease l sv).1 :: p_past s;
               p_phase := set_phase c Acquired (p_phase s) |}.
Proof.
  intros [H1 H2 H3 H4 H5] Hc Hno Hl En. unfold write_lease, set_phase. split; cbn; rewrite ?En.
  - intros k [= <-]. left.
  - intros k [->|Hk%H2]%elem_of_cons; cbn; lia.
  - intros k k' [->|Hk]%elem_of_cons [->|Hk']%elem_of_cons; cbn; intros E; try done.
    + specialize (H2 _ Hk'). lia.
    + specialize (H2 _ Hk). lia.
    + by apply H3.
  - intros k c' [->|Hk]%elem_of_cons; cbn.
    + rewrite Hl. intros [= ->]. by rewrite bool_decide_eq_true_2.
    + intros Hc'. case_bool_decide; [done|]. by apply (H4 k).
  - intros c'. case_bool_decide as E; [|by intros ?%Hno]. subst c'. intros _. split; [done|].
    eexists. split; [done|]. exact Hl.
Qed.

(** A version that is free or stale, and still current, leaves nobody who has
    acquired the lease. *)
Lemma nobody_acquired s l :
  lease_inv s → sv_lease (p_server s) = Some l →
  (∀ h, lease_holder l = Some h → p_phase s h = Done) → ∀ c, p_phase s c ≠ Acquired.
Proof.
  intros Hinv Hcur Hh c Hc. destruct (inv_acquired s Hinv c Hc) as (Hne & l' & Hl' & Hid).
  assert (l' = l) as -> by congruence.
  specialize (Hh c (proj2 (lease_holder_Some l c) (conj Hid Hne))). congruence.
Qed.

Lemma acquire_inv s c snap :
  lease_inv s → c ≠ "" → p_phase s c ≠ Done → (∀ l, snap = Some l → l ∈ p_past s) →
  lease_inv (acquire_at c snap s).2.
Proof.
  intros Hinv Hc Hd Hsnap. unfold acquire_at, AcquireLease. cbn [lease_create_or_update server_client].
  set (w := with_read snap (p_server s)).
  assert (∀ sv, sv = w → lease_inv {| p_server := sv;
     p_past := match sv_lease sv with Some l => l :: p_past s | None => p_past s end;
     p_phase := p_phase s |}) as Hstay.
  { intros sv ->. apply inv_stay; [done|done|done|]. intros l. cbn.
    destruct (sv_lease (p_server s)) as [k|] eqn:E; [|done]. rewrite elem_of_cons.
    pose proof (inv_cur s Hinv k E). naive_solver. }
  set (obj := {| l_Name := name; l_Namespace := _; l_UID := _; l_ResourceVersion := _;
                 l_HolderIdentity := _; l_AcquireTime := _ |}).
  change (sv_read w) with snap. destruct snap as [old|].
  - specialize (Hsnap old eq_refl).
    destruct (acquire_mutate_eq c (p_phase s) old w) as (r & -> & Hr).
    destruct Hr as [[-> Hown]|[(-> & Hno & Hstale)|[e ->]]]; [| |by apply Hstay].
    + rewrite bool_decide_eq_true_2 by done. cbn.
      apply lease_holder_Some in Hown as [Hown _].
      pose proof (inv_holder s Hinv old c Hsnap Hown) as Hf.
      apply (inv_phase_ext _ (set_phase c Acquired (p_phase s)) (Hstay w eq_refl)).
      intros c'. unfold set_phase. cbn. case_bool_decide as E; [|done]. subst c'.
      by destruct (p_phase s c).
    + rewrite bool_decide_eq_false_2.
      2: { intros E. apply Hno, lease_holder_Some. split; [|done]. by rewrite <- E. }
      change (sv_lease w) with (sv_lease (p_server s)).
      destruct (sv_lease (p_server s)) as [cur|] eqn:Ecur; [|by apply Hstay].
      unfold same_version. case_bool_decide as Ev; [|by apply Hstay].
      assert (cur = old) as -> by (apply (inv_version s Hinv); [by apply (inv_cur s Hinv)|done|done]).
      cbn. apply (inv_write s c (taken c old) w Hinv Hc); [|done|done].
      by apply (nobody_acquired s old).
  - destruct (acquire_mutate_eq c (p_phase s) obj w) as (r & -> & Hr).
    destruct Hr as [[-> Hown]|[(-> & Hno & Hstale)|[e ->]]]; [done| |by apply Hstay].
    change (sv_lease w) with (sv_lease (p_server s)).
    destruct (sv_lease (p_server s)) as [cur|] eqn:Ecur; [by apply Hstay|].
    cbn. apply (inv_write s c (taken c obj) w Hinv Hc); [|done|done].
    intros c' Hc'. destruct (inv_acquired s Hinv c' Hc') as (_ & l & Hl & _). congruence.
Qed.

Lemma release_inv s c snap :
  lease_inv s → p_phase s c = Done → (∀ l, snap = Some l → l ∈ p_past s) →
  lease_inv (release_at c snap s).
Proof.
  intros Hinv Hd Hsnap. unfold release_at, ReleaseLease, GetLease, tryM, mbind, gom_bind. cbn.
  destruct snap as [l|]; cbn; [|by apply inv_stay].
  specialize (Hsnap l eq_refl).
  destruct (match l_HolderIdentity l with Some h => _ | None => false end) eqn:Eo; cbn;
    [by apply inv_stay|].
  destruct (sv_lease (p_server s)) as [cur|] eqn:Ecur; cbn; [|by apply inv_stay].
  unfold same_version. case_bool_decide as Ev; cbn; [|by apply inv_stay].
  assert (cur = l) as -> by (apply (inv_version s Hinv); [by apply (inv_cur s Hinv)|done|done]).
  assert (∀ c', p_phase s c' ≠ Acquired) as Hno.
  { apply (nobody_acquired s l Hinv Ecur). intros h [Hh _]%lease_holder_Some. rewrite Hh in Eo.
    apply negb_false_iff, bool_decide_eq_true in Eo. by subst. }
  destruct Hinv as [H1 H2 H3 H4 H5]. split; cbn; try done. by intros c' ?%Hno.
Qed.

Lemma step_inv s s' : lease_inv s → step s s' → lease_inv s'.
Proof.
  intros Hinv Hs. destruct Hs as [c snap s Hc Hd Hsnap|c s|c snap s Hd Hsnap].
  - by apply acquire_inv.
  - destruct Hinv as [H1 H2 H3 H4 H5]. split; cbn; try done; unfold set_phase.
    + intros l c' Hl Hh. case_bool_decide; [done|]. by apply (H4 l).
    + intros c'. case_bool_decide; [done|]. apply H5.
  - by apply release_inv.
Qed.

Lemma reachable_inv s : reachable s → lease_inv s.
Proof.
  induction 1 as [|s s' _ IH Hs]; [|by eapply step_inv].
  split; cbn; try done; intros *; rewrite ?elem_of_nil; done.
Qed.

(** C13: Mutual exclusion of backups: however the attempts of the controllers
    to acquire and to release the lease interleave, and whatever old version of
    the lease the cache serves them, at any time at most one holder that is not
    done is in the state of having acquired the lease, and the current lease
    names it. A holder that is done without having released it does not count:
    the next one may take the lease over from it. *)
Theorem lease_mutual_exclusion s c c' :
  reachable s → p_phase s c = Acquired → p_phase s c' = Acquired →
  c = c' ∧ ∃ l, sv_lease (p_server s) = Some l ∧ l_HolderIdentity l = Some c.
Proof.
  intros Hr Hc Hc'. pose proof (reachable_inv s Hr) as Hinv.
  destruct (inv_acquired s Hinv c Hc) as (_ & l & Hl & Hh).
  destruct (inv_acquired s Hinv c' Hc') as (_ & l' & Hl' & Hh').
  split; [congruence|]. by exists l.
Qed.
End protocol.

(** The second backup fails on the first one's lease, and takes it over once
    the first is done. *)
Lemma lease_mutual_exclusion_witness :
  let s1 := (acquire_at "psmdb-c-backup-lock" "ns" "a" None start).2 in
  let s2 := (acquire_at "psmdb-c-backup-lock" "ns" "b" (sv_lease (p_server s1)) s1).2 in
  p_phase s1 "a" = Acquired ∧ p_phase s2 "b" = Fresh ∧
  ∃ l, sv_lease (p_server s2) = Some l ∧ l_HolderIdentity l = Some "a".
Proof.
  cbv zeta. set (s1 := (acquire_at _ _ _ _ _).2). set (s2 := (acquire_at _ _ _ _ _).2).
  assert (reachable "psmdb-c-backup-lock" "ns" s2) as Hr.
  { apply (reach_step _ _ s1).
    - apply (reach_step _ _ start); [apply reach_start|]. by apply step_acquire.
    - apply step_acquire; [done|done|]. intros l [= <-]. vm_compute. left. }
  split; [reflexivity|]. split; [reflexivity|].
  apply (lease_mutual_exclusion "psmdb-c-backup-lock" "ns" s2 "a" "a" Hr); reflexivity.
Defined.
