(* ===== verification/BackupExec.v ===== *)
(** Running one backup through Percona Backup for MongoDB: the two executors of
    the backup controller ([managedBackups] in backup.go, [snapshotBackups] in
    snapshot.go) and the cancellation (cancel.go).

    PBM itself, the volume snapshots' API and the clock are classes.  A
    function of the source that returns a status and an error returns both
    here, as the caller uses the status even when there is an error. *)
From S2P Require Import Prelude ReplsetModels Api Kube Hosts GoSort BackupApi Lease.
From Stdlib Require Import Ascii.

(** * PBM *)
Inductive PBMStatus :=
| StatusStarting | StatusCopyReady | StatusDone | StatusCancelled | StatusError
| StatusRunning | StatusOther (s : string).
#[export] Instance PBMStatus_eq_dec : EqDecision PBMStatus.
Proof. solve_decision. Defined.

Record BackupReplset := { br_Name : string; br_Node : string; br_Status : PBMStatus }.
Record BackupMeta := {
  meta_Name : string;
  meta_OPID : string;
  meta_Status : PBMStatus;
  meta_Error : option string;                 (* meta.Error() *)
  meta_Size : Z;
  meta_StartTS : Z;
  meta_LastTransitionTS : Z;
  meta_LastWriteTS : Z;                       (* LastWriteTS.T *)
  meta_Hb : Z;                                (* Hb.T *)
  meta_Replsets : option (list BackupReplset)
}.
Record BackupCmd := {
  cmd_Name : string;
  cmd_Type : string;
  cmd_IncrBase : bool;
  cmd_Compression : string;
  cmd_CompressionLevel : option Z;
  cmd_Profile : string
}.
Definition CmdBackup : string := "backup".
Definition CmdRestore : string := "restore".
Definition CmdPITR : string := "pitr".
Record Lock := { lock_Type : string; lock_OPID : string; lock_Heartbeat : Z }.

Class PBM (W : Type) := {
  newPBM : BackupCluster → GoM W unit;
  pbm_Close : GoM W unit;
  pbm_SendCmd : BackupCmd → GoM W unit;
  pbm_GetBackupMeta : string → GoM W (option BackupMeta);
  pbm_Node : GoM W string;
  pbm_FinishBackup : string → GoM W unit;
  pbm_CancelBackup : string → GoM W unit;
  pbm_DeleteBackup : string → GoM W unit;
  pbm_DeleteBackupMeta : string → GoM W unit;
  pbm_DeletePITRChunks : Z → GoM W unit;
  pbm_GetNSetConfigLegacy : BackupCluster → BackupStorageSpec → GoM W unit;
  pbm_GetLocks : GoM W (list Lock);
  pbm_GetOpLocks : GoM W (list Lock);
  pbm_ClusterTime : GoM W Z;
  pbm_StaleFrameSec : Z;
  pbm_PrettySize : Z → string
}.
(** [errors.Is(err, pbmErrors.ErrNotFound)] *)
Definition IsPBMNotFound (e : error) : bool := is_kind KPBMNotFound e.

Record VolumeSnapshot := {
  vs_Name : string;
  vs_Namespace : string;
  vs_Deleting : bool;
  vs_ClassName : option string;
  vs_PVC : string;
  vs_Status : option (option bool * option string)   (* ReadyToUse, Error.Message *)
}.
Class SnapshotClient (W : Type) := {
  snapshot_get : string → string → GoM W VolumeSnapshot;
  snapshot_create : VolumeSnapshot → GoM W VolumeSnapshot;
  snapshot_delete : string → string → GoM W unit
}.

(** The platform of the cluster ([version.Server]), and the defaults of the
    cluster resource, which [CheckNSetDefaults] checks and fills in. *)
Class BackupEnv (W : Type) := {
  be_platform : GoM W string;
  be_CheckNSetDefaults : BackupCluster → string → result BackupCluster;
  be_event : string → GoM W unit                     (* recorder.Eventf *)
}.

(** [fmt.Sprintf("%x", md5.Sum(s))] *)
Class Md5 := md5_hex : string → string.

(** [errors.Wrap(err, msg)] returned with the status [st] *)
Abbreviation outcome := (PerconaServerMongoDBBackupStatus * option error)%type.
Definition or_fail {W A} (st : PerconaServerMongoDBBackupStatus) (msg : string) (m : GoM W A)
    (k : A → GoM W outcome) : GoM W outcome :=
  r ← tryM m;
  match r with
  | Ok a => k a
  | Err e => mret (st, Some (EWrap e msg))
  end.

Definition defaultPBMStartingDeadline : Z := 120.
Definition pbmStartingDeadlineErrMsg : string :=
  "backup did not progress from 'starting' state within the allowed timeout".

Section locks.
Context {W : Type} {P : PBM W}.

Definition stale_lock (clusterTime : Z) (l : Lock) : bool :=
  ((lock_Heartbeat l + pbm_StaleFrameSec) mod 2 ^ 32 <? clusterTime)%Z.

Definition hasLocks (activeOnly : bool) (allowed : Lock → bool) : GoM W bool :=
  locks ← wrapM "get lock data" pbm_GetLocks;
  opLocks ← wrapM "get op lock data" pbm_GetOpLocks;
  let locks := locks ++ opLocks in
  clusterTime ← (if activeOnly && (0 <? length locks)%nat
                 then wrapM "get cluster time for backup locks" pbm_ClusterTime else mret 0%Z);
  mret (existsb (λ l, negb (activeOnly && stale_lock clusterTime l) && allowed l) locks).

Definition HasBackupLock (opID : string) : GoM W bool :=
  hasLocks true (λ h, bool_decide (lock_Type h = CmdBackup) &&
    (bool_decide (opID = "") || bool_decide (lock_OPID h = opID))).

Definition NotPITRLock (l : Lock) : bool := negb (bool_decide (lock_Type l = CmdPITR)).
(** The job that asks whether others are active.  Go's [Job{}] is a backup job,
    as [TypeBackup] is the zero of its type. *)
Inductive JobType := TypeBackup | TypeRestore | TypePITRestore.
Record Job := { job_Name : string; job_Type : JobType }.
Definition zeroJob : Job := {| job_Name := ""; job_Type := TypeBackup |}.
Definition NewBackupJob (name : string) : Job := {| job_Name := name; job_Type := TypeBackup |}.
Definition NotJobLock (j : Job) (h : Lock) : bool :=
  let jobCommand := match job_Type j with
                    | TypeBackup => CmdBackup
                    | TypeRestore | TypePITRestore => CmdRestore
                    end in
  negb (bool_decide (lock_Type h = jobCommand)).
End locks.

(** * The executors *)
Section executors.
Context {W : Type} {K : BackupClient W} {P : PBM W} {S : SnapshotClient W}.
Context {V : Versions} {O : MapOrder} {G : GoSort} {H : Md5}.
Abbreviation M := (GoM W).
Implicit Types (cluster : BackupCluster) (cr : PerconaServerMongoDBBackup).

(** The replica sets named in a new backup's status *)
Definition replset_names cluster : list string :=
  (match cr_ConfigsvrReplSet cluster with
   | Some rs => if cr_ShardingEnabled cluster then [rs_Name rs] else []
   | None => []
   end) ++ map rs_Name (cr_Replsets cluster).

Definition bucket_url (bucket prefix : string) : string :=
  if bool_decide (prefix = "") then bucket else bucket +:+ "/" +:+ prefix.
(** [if !strings.HasPrefix(bucket, scheme) { dest = scheme + dest }] *)
Definition with_scheme (scheme bucket dest : string) : string :=
  if has_prefix scheme bucket then dest else scheme +:+ dest.
Definition bucket_destination (scheme : string) (s : BucketSpec) : string :=
  with_scheme scheme (bu_Bucket s) (bucket_url (bu_Bucket s) (bu_Prefix s)).

(** [strings.TrimSuffix(s, "/")] *)
Fixpoint trim_slash (s : string) : string :=
  match s with
  | EmptyString => EmptyString
  | String a EmptyString => if bool_decide (a = "/"%char) then EmptyString else s
  | String a s' => String a (trim_slash s')
  end.

(** The storage recorded in the status and the destination's prefix *)
Definition storage_destination (stg : BackupStorageSpec) : StorageRef * string :=
  match stg_Type stg with
  | BackupStorageS3 => (RefS3 (stg_S3 stg), bucket_destination "s3://" (stg_S3 stg))
  | BackupStorageMinio => (RefMinio (stg_Minio stg), bucket_destination "s3://" (stg_Minio stg))
  | BackupStorageGCS => (RefGCS (stg_GCS stg), bucket_destination "gs://" (stg_GCS stg))
  | BackupStorageAzure =>
      let s := stg_Azure stg in
      let dest := bucket_url (bu_Bucket s) (bu_Prefix s) in
      (RefAzure s,
       if has_prefix "azure://" (bu_Bucket s) then dest
       else if bool_decide (bu_EndpointURL s = "") then "azure://" +:+ dest
       else bu_EndpointURL s +:+ "/" +:+ dest)
  | BackupStorageOSS => (RefOSS (stg_OSS stg), bucket_destination "oss://" (stg_OSS stg))
  | BackupStorageFilesystem =>
      (RefFilesystem (stg_Filesystem stg), trim_slash (fs_Path (stg_Filesystem stg)))
  | BackupStorageOCI => (RefOCI (stg_OCI stg), bucket_destination "oci://" (stg_OCI stg))
  end.

(** The status of a backup whose command PBM has taken *)
Definition requested (storageName name : string) (now : time) (names : list string)
    (stg : option (StorageRef * string)) : PerconaServerMongoDBBackupStatus :=
  {| bs_Type := ""; bs_State := BackupStateRequested; bs_WaitingReason := NotWaiting;
     bs_Destination := match stg with Some (_, d) => d +:+ "/" +:+ name | None => "" end;
     bs_StorageName := storageName; bs_Storage := fst <$> stg; bs_ReplsetNames := names;
     bs_PBMname := name; bs_Size := ""; bs_Snapshots := []; bs_PBMPod := ""; bs_PBMPods := ∅;
     bs_Error := ""; bs_StartAt := None; bs_CompletedAt := None; bs_LastWriteAt := None;
     bs_LastTransition := Some (truncate_second now); bs_LatestRestorableTime := None |}.

(** The profile of the storage: none for the main storage. *)
Definition backup_profile cluster (spec : BackupSpec) cr : result string :=
  if (0 <=? CompareVersion cluster "1.20.0")%Z then
    match MainStorage spec with
    | Err e => Err (EWrap e "get main storage")
    | Ok (mainStgName, _) =>
        Ok (if bool_decide (bsp_StorageName (bk_Spec cr) = mainStgName) then ""
            else bsp_StorageName (bk_Spec cr))
    end
  else Ok "".

Definition managed_Start (spec : BackupSpec) cluster cr : M outcome :=
  let storageName := bsp_StorageName (bk_Spec cr) in
  match b_Storages spec !! storageName with
  | None => mret (zeroStatus, Some (ENew ("unable to get storage '" +:+ storageName +:+ "'")))
  | Some stg =>
      or_fail zeroStatus ("set backup config with storage " +:+ storageName)
        (if (CompareVersion cluster "1.20.0" <? 0)%Z
         then pbm_GetNSetConfigLegacy cluster stg else mret tt) (λ _,
      now ← go_now;
      let name := rfc3339 now in
      match backup_profile cluster spec cr with
      | Err e => mret (zeroStatus, Some e)
      | Ok profile =>
          sent ← tryM (pbm_SendCmd
            {| cmd_Name := name; cmd_Type := PBMBackupType cr;
               cmd_IncrBase := IsBackupTypeIncrementalBase cr;
               cmd_Compression := bsp_Compression (bk_Spec cr);
               cmd_CompressionLevel := bsp_CompressionLevel (bk_Spec cr);
               cmd_Profile := profile |});
          match sent with
          | Err e => mret (zeroStatus, Some e)
          | Ok _ =>
              now' ← go_now;
              mret (requested storageName name now' (replset_names cluster)
                      (Some (storage_destination stg)), None)
          end
      end)
  end.

Definition snapshot_Start cluster cr : M outcome :=
  now ← go_now;
  let name := rfc3339 now in
  sent ← tryM (pbm_SendCmd
    {| cmd_Name := name; cmd_Type := ExternalBackup; cmd_IncrBase := false; cmd_Compression := "";
       cmd_CompressionLevel := None; cmd_Profile := "" |});
  match sent with
  | Err e => mret (zeroStatus, Some e)
  | Ok _ => now' ← go_now; mret (requested "" name now' (replset_names cluster) None, None)
  end.

(** [StartingDeadlineSeconds] of the cluster, or the default. *)
Definition starting_timeout cluster : Z :=
  match b_StartingDeadlineSeconds (bc_Backup cluster) with
  | Some s => if (0 <? s)%Z then s else defaultPBMStartingDeadline
  | None => defaultPBMStartingDeadline
  end.

(** PBM says "starting": an error after the timeout, unless the backup is being
    cancelled and its lock is still held. *)
Definition starting_case cluster cr (meta : BackupMeta) (status : PerconaServerMongoDBBackupStatus)
    (k : PerconaServerMongoDBBackupStatus → M outcome) : M outcome :=
  now ← go_now;
  let canceling := bool_decide (bk_State cr = BackupStateCanceling) in
  let failed := set_Error pbmStartingDeadlineErrMsg (set_State BackupStateError status) in
  if (seconds (starting_timeout cluster) <=? Sub now (unix (meta_StartTS meta)))%Z then
    if canceling then
      or_fail status "check starting backup locks" (HasBackupLock (meta_OPID meta)) (λ hasLock,
        if hasLock : bool then k status else k failed)
    else k failed
  else if canceling then k status
  else k (set_State BackupStateRequested status).

Definition with_transition (meta : BackupMeta) (status : PerconaServerMongoDBBackupStatus)
    : PerconaServerMongoDBBackupStatus :=
  if bool_decide (bs_State status = BackupStateCanceling) then status
  else set_LastTransition (Some (unix (meta_LastTransitionTS meta))) status.

Definition with_start (meta : BackupMeta) (status : PerconaServerMongoDBBackupStatus)
    : PerconaServerMongoDBBackupStatus :=
  if (0 <? meta_StartTS meta)%Z then set_StartAt (Some (unix (meta_StartTS meta))) status else status.

Definition completed (meta : BackupMeta) (status : PerconaServerMongoDBBackupStatus)
    : PerconaServerMongoDBBackupStatus :=
  set_LastWriteAt (Some (unix (meta_LastWriteTS meta)))
    (set_CompletedAt (Some (unix (meta_LastTransitionTS meta)))
      (set_State BackupStateReady status)).

Definition backupPods (replsets : list BackupReplset) : gmap string string :=
  go_map_of (λ rs, Some (br_Name rs, br_Node rs)) replsets.

(** The end of [managedBackups.statusFromMeta], after the switch *)
Definition managed_finish cr (meta : BackupMeta) (status : PerconaServerMongoDBBackupStatus)
    : M outcome :=
  let status := set_Type (bsp_Type (bk_Spec cr)) (with_transition meta status) in
  node ← tryM pbm_Node;
  match node with
  | Err _ => mret (status, None)
  | Ok node =>
      let status := set_PBMPod node status in
      m ← tryM (pbm_GetBackupMeta (bs_PBMname (bk_Status cr)));
      match m with
      | Ok (Some {| meta_Replsets := Some replsets |}) =>
          mret (set_PBMPods (backupPods replsets) status, None)
      | _ => mret (status, None)
      end
  end.

Definition no_meta (meta : option BackupMeta) : bool :=
  match meta with None => true | Some m => bool_decide (meta_Name m = "") end.

Definition managed_statusFromMeta cluster cr (meta : option BackupMeta) : M outcome :=
  let status := bk_Status cr in
  match meta with
  | None => mret (status, None)
  | Some meta =>
      if bool_decide (meta_Name meta = "") then mret (status, None)
      else
        let status := with_start meta status in
        let k := managed_finish cr meta in
        match meta_Status meta with
        | StatusCancelled => k (set_Error "" (set_State BackupStateCanceled status))
        | StatusError =>
            let status := set_Error (default "<nil>" (meta_Error meta)) (set_State BackupStateError status) in
            if bool_decide (bsp_Type (bk_Spec cr) = IncrementalBackup) then
              match meta_Error meta with
              | None => throw nil_panic
              | Some msg =>
                  if bool_decide (msg = "define source backup: not found")
                  then k (set_Error "incremental base backup not found" status) else k status
              end
            else k status
        | StatusDone => k (completed meta (set_Size (pbm_PrettySize (meta_Size meta)) status))
        | StatusStarting => starting_case cluster cr meta status k
        | _ => k (if bool_decide (bk_State cr = BackupStateCanceling) then status
                  else set_State BackupStateRunning status)
        end
  end.

(** [GetBackupMeta] with a missing backup told apart from an error *)
Definition get_meta (cr : PerconaServerMongoDBBackup) (k : option BackupMeta → M outcome) : M outcome :=
  r ← tryM (pbm_GetBackupMeta (bs_PBMname (bk_Status cr)));
  match r with
  | Ok meta => k meta
  | Err e => if IsPBMNotFound e then k None
             else mret (bk_Status cr, Some (EWrap e "get pbm backup meta"))
  end.

Definition managed_Status cluster cr : M outcome :=
  get_meta cr (managed_statusFromMeta cluster cr).

(** ** Snapshots *)
Definition ascii_lower (a : ascii) : ascii :=
  let n := nat_of_ascii a in
  if ((65 <=? n) && (n <=? 90))%nat then ascii_of_nat (n + 32) else a.
(** [strings.ToLower] of an ASCII string *)
Fixpoint ToLower (s : string) : string :=
  match s with EmptyString => EmptyString | String a s' => String (ascii_lower a) (ToLower s') end.

Definition VolumeSnapshotName (bcp : PerconaServerMongoDBBackup) (rsName : string) : string :=
  let hash := md5_hex (bsp_ClusterName (bk_Spec bcp) +:+ bk_Name bcp +:+ rsName) in
  bk_Name bcp +:+ "-" +:+ ToLower rsName +:+ "-" +:+ String.substring 0 5 hash.

Definition IgnoreNotFound {A} (r : result A) : option error :=
  match r with
  | Err e => if IsNotFound e then None else Some e
  | Ok _ => None
  end.

Definition reconcileSnapshot (rsName pvc : string) (bcp : PerconaServerMongoDBBackup) : M VolumeSnapshot :=
  let name := VolumeSnapshotName bcp rsName in
  r ← tryM (snapshot_get (bk_Namespace bcp) name);
  match r, IgnoreNotFound r with
  | Ok volumeSnapshot, _ => mret volumeSnapshot
  | _, Some e => throw (EWrap e "get volume snapshot")
  | _, None =>
      wrapM "create volume snapshot" (snapshot_create
        {| vs_Name := name; vs_Namespace := bk_Namespace bcp; vs_Deleting := false;
           vs_ClassName := bsp_VolumeSnapshotClass (bk_Spec bcp); vs_PVC := pvc; vs_Status := None |})
  end.

(** [strings.Split(s, ".")[0]] *)
Fixpoint before_dot (s : string) : string :=
  match s with
  | EmptyString => EmptyString
  | String a s' => if bool_decide (a = "."%char) then EmptyString else String a (before_dot s')
  end.

Definition MongodDataVolClaimName : string := "mongod-data".

Definition snapshot_ready (s : VolumeSnapshot) : bool :=
  match vs_Status s with Some (ready, _) => default false ready | None => false end.
Definition snapshot_error (s : VolumeSnapshot) : option string :=
  match vs_Status s with
  | Some (_, Some msg) => if bool_decide (msg = "") then None else Some msg
  | _ => None
  end.

Fixpoint snapshot_loop (bcp : PerconaServerMongoDBBackup) (l : list BackupReplset) (done : bool)
    (snapshots : list SnapshotInfo) : M (bool * list SnapshotInfo) :=
  match l with
  | [] => mret (done, snapshots)
  | rs :: l' =>
      if negb (bool_decide (br_Status rs = StatusCopyReady)) then snapshot_loop bcp l' false snapshots
      else
        let podName := before_dot (br_Node rs) in
        when bool_decide (podName = "")
          raise EWrap (ENew ("unexpected node name format: " +:+ br_Node rs)) "get pod name";
        snapshot ← wrapM "reconcile snapshot"
          (reconcileSnapshot (br_Name rs) (MongodDataVolClaimName +:+ "-" +:+ podName) bcp);
        match snapshot_error snapshot with
        | Some msg => throw (ENew ("snapshot error: " +:+ msg))
        | None =>
            snapshot_loop bcp l' (done && snapshot_ready snapshot)
              (snapshots ++ [{| sn_ReplsetName := br_Name rs; sn_SnapshotName := vs_Name snapshot |}])
        end
  end.

Definition reconcileSnapshots (bcp : PerconaServerMongoDBBackup) (meta : BackupMeta)
    : M (bool * list SnapshotInfo) :=
  r ← snapshot_loop bcp (default [] (meta_Replsets meta)) true [];
  mret (r.1, sort_slice (λ a b, String.ltb (sn_ReplsetName a) (sn_ReplsetName b)) r.2).

(** The names of the snapshots a backup may have made *)
Definition canceled_names cr : gmap string unit :=
  foldl (λ m rs, <[VolumeSnapshotName cr rs := tt]> m)
    (foldl (λ m s, <[sn_SnapshotName s := tt]> m) ∅ (bs_Snapshots (bk_Status cr)))
    (bs_ReplsetNames (bk_Status cr)).

Fixpoint cleanup_loop (ns : string) (names : list (string * unit)) (done : bool) : M bool :=
  match names with
  | [] => mret done
  | (name, _) :: names' =>
      r ← tryM (snapshot_get ns name);
      match r with
      | Err e => if IsNotFound e then cleanup_loop ns names' done
                 else throw (EWrap e "get canceled backup snapshot")
      | Ok snapshot =>
          (if vs_Deleting snapshot then mret tt
           else
             d ← tryM (snapshot_delete ns (vs_Name snapshot));
             match IgnoreNotFound d with
             | Some e => throw (EWrap e "delete canceled backup snapshot")
             | None => mret tt
             end);;
          cleanup_loop ns names' false
      end
  end.
Definition cleanupCanceledSnapshots cr : M bool :=
  cleanup_loop (bk_Namespace cr) (map_order (canceled_names cr)) true.

(** The end of [snapshotBackups.statusFromMeta], after the switch *)
Definition snapshot_finish cr (meta : BackupMeta) (status : PerconaServerMongoDBBackupStatus)
    : M outcome :=
  mret (set_Type (bsp_Type (bk_Spec cr)) (with_transition meta status), None).

Definition snapshot_statusFromMeta cluster cr (meta : option BackupMeta) : M outcome :=
  let status := bk_Status cr in
  match meta with
  | None => mret (status, None)
  | Some meta =>
      if bool_decide (meta_Name meta = "") then mret (status, None)
      else
        let status := with_start meta status in
        let k := snapshot_finish cr meta in
        match meta_Status meta with
        | StatusCancelled =>
            now ← go_now;
            let status := set_Error "" (set_State BackupStateCanceling
              (if bool_decide (bs_State status = BackupStateCanceling) then status
               else set_LastTransition (Some now) status)) in
            r ← tryM (cleanupCanceledSnapshots cr);
            match r with
            | Err e => mret (status, Some e)
            | Ok true => k (set_Snapshots [] (set_State BackupStateCanceled status))
            | Ok false => k status
            end
        | StatusError =>
            k (set_Error (default "<nil>" (meta_Error meta)) (set_State BackupStateError status))
        | StatusStarting => starting_case cluster cr meta status k
        | StatusDone => k (completed meta status)
        | StatusCopyReady =>
            if bool_decide (bk_State cr = BackupStateCanceling) then k status
            else
              let status := set_State BackupStateRunning status in
              or_fail status "reconcile snapshots" (reconcileSnapshots cr meta) (λ r,
                let status := set_Snapshots r.2 status in
                if r.1 then
                  or_fail status "finish backup" (pbm_FinishBackup (bs_PBMname (bk_Status cr)))
                    (λ _, k status)
                else k status)
        | _ => k status
        end
  end.

Definition snapshot_Status cluster cr : M outcome :=
  get_meta cr (snapshot_statusFromMeta cluster cr).

(** * Cancellation *)
Context {E : BackupEnv W}.

Definition cancellationRequested cr : bool :=
  bk_Deleting cr
  || bool_decide (bk_Annotations cr !! AnnotationCancelBackup = Some "true")
  || bool_decide (bk_State cr = BackupStateCanceling).

Definition backupStateTerminal (state : BackupState) : bool :=
  bool_decide (state = BackupStateReady) || bool_decide (state = BackupStateError)
  || bool_decide (state = BackupStateCanceled).

(** The later of [last] and the times PBM reports *)
Definition last_progress (meta : option BackupMeta) (last : time) : time :=
  match meta with
  | None => last
  | Some m =>
      foldl (λ last ts, if Before last (unix ts) then unix ts else last) last
        [meta_LastTransitionTS m; meta_Hb m]
  end.

(** The status after the check; on an error the caller drops it. *)
Definition checkCancellationTimeout cluster cr (status : PerconaServerMongoDBBackupStatus)
    (meta : option BackupMeta) : M PerconaServerMongoDBBackupStatus :=
  if negb (bool_decide (bs_State status = BackupStateCanceling)) then mret status
  else match bs_LastTransition status with
  | None => now ← go_now; mret (set_LastTransition (Some now) status)
  | Some last =>
      let lastProgress := last_progress meta last in
      let opID := match meta with Some m => meta_OPID m | None => "" end in
      now ← go_now;
      if (Sub now lastProgress <? seconds (starting_timeout cluster))%Z then mret status
      else
        hasLock ← wrapM "check backup locks during cancellation recovery" (HasBackupLock opID);
        if hasLock : bool then mret status
        else
          let external := bool_decide (bsp_Type (bk_Spec cr) = ExternalBackup) in
          done ← (if external then cleanupCanceledSnapshots cr else mret true);
          if negb done then mret status
          else
            now ← go_now;
            mret (set_LastTransition (Some now)
              (set_Error
                (match meta with
                 | Some _ => "PBM backup agent stopped responding before cancellation could finish"
                 | None => "PBM backup metadata not found during cancellation within the allowed timeout"
                 end)
                (set_State BackupStateError
                  (if external then set_Snapshots [] status else status))))
  end.

Definition starting_or_cancelled (meta : option BackupMeta) : bool :=
  match meta with
  | Some m => bool_decide (meta_Status m = StatusStarting) || bool_decide (meta_Status m = StatusCancelled)
  | None => false
  end.

(** The part of [cancelBackup] that talks to PBM: the backup with its new
    status, and the error. *)
Definition cancel_with_pbm cluster cr : M (PerconaServerMongoDBBackup * option error) :=
  let external := bool_decide (bsp_Type (bk_Spec cr) = ExternalBackup) in
  r ← tryM (pbm_GetBackupMeta (bs_PBMname (bk_Status cr)));
  match (match r with
         | Ok m => Ok (if no_meta m then None else m)
         | Err e => if IsPBMNotFound e then Ok None else Err e
         end) with
  | Err e => mret (cr, Some (EWrap e "get pbm backup meta"))
  | Ok meta =>
      st ← (if external then snapshot_statusFromMeta cluster cr meta
            else managed_statusFromMeta cluster cr meta);
      match st with
      | (_, Some e) => mret (cr, Some e)
      | (status, None) =>
          checked ← tryM (if bool_decide (bs_State status = BackupStateCanceling)
                             && negb (starting_or_cancelled meta)
                          then checkCancellationTimeout cluster cr status meta else mret status);
          match checked with
          | Err e => mret (cr, Some e)
          | Ok status =>
              let cleanup := external && bool_decide (bs_State status = BackupStateError) in
              cleaned ← tryM (if cleanup then cleanupCanceledSnapshots cr else mret true);
              match cleaned with
              | Err e => mret (cr, Some e)
              | Ok false => mret (cr, None)
              | Ok true =>
                  let status := if cleanup then set_Snapshots [] status else status in
                  if backupStateTerminal (bs_State status) then mret (with_status status cr, None)
                  else
                    c ← tryM (pbm_CancelBackup (bs_PBMname status));
                    mret (with_status (set_State BackupStateCanceling status) cr,
                          match c with Ok _ => None | Err e => Some e end)
              end
          end
      end
  end.

Definition cancelBackup cr : M (PerconaServerMongoDBBackup * option error) :=
  let fail e msg : M (PerconaServerMongoDBBackup * option error) := mret (cr, Some (EWrap e msg)) in
  if bool_decide (bs_PBMname (bk_Status cr) = "") then
    now ← go_now;
    mret (with_status (set_LastTransition (Some now)
            (set_State BackupStateCanceled (bk_Status cr))) cr, None)
  else
    c ← tryM (api_read_cluster (bk_Namespace cr) (GetClusterName (bk_Spec cr)));
    match (c : result BackupCluster) with
    | Err e =>
        if negb (IsNotFound e) then fail e "get cluster for backup cancellation"
        else
          let external := bool_decide (bsp_Type (bk_Spec cr) = ExternalBackup) in
          cleaned ← tryM (if external then cleanupCanceledSnapshots cr else mret true);
          match cleaned with
          | Err e => mret (cr, Some e)
          | Ok false => mret (cr, None)
          | Ok true =>
              now ← go_now;
              mret (with_status (set_LastTransition (Some now)
                (set_Error "cluster not found during backup cancellation"
                  (set_State BackupStateError
                    (if external then set_Snapshots [] (bk_Status cr) else bk_Status cr)))) cr, None)
          end
    | Ok cluster =>
        if bool_decide (cr_Replsets cluster = []) then
          mret (cr, Some (ENew "cluster has no replica sets"))
        else
          p ← tryM be_platform;
          match p with
          | Err e => fail e "fetch server version for backup cancellation"
          | Ok platform =>
              match be_CheckNSetDefaults cluster platform with
              | Err e => fail e "check cluster defaults for backup cancellation"
              | Ok cluster =>
                  n ← tryM (newPBM cluster);
                  match n with
                  | Err e => fail e "connect to PBM for backup cancellation"
                  | Ok _ => deferM pbm_Close (cancel_with_pbm cluster cr)
                  end
              end
          end
    end.

(** * A cancellation is never undone *)

(** What a backup that is being cancelled may become, given PBM's report *)
Definition settled (meta : option BackupMeta) (st : BackupState) : Prop :=
  st = BackupStateCanceling ∨
  ∃ m, meta = Some m ∧
    ((st = BackupStateCanceled ∧ meta_Status m = StatusCancelled) ∨
     (st = BackupStateReady ∧ meta_Status m = StatusDone) ∨
     (st = BackupStateError ∧ (meta_Status m = StatusError ∨ meta_Status m = StatusStarting))).

Lemma or_fail_ensures {A} st msg (m : M A) k (Q : outcome → Prop) :
  (∀ e, Q (st, Some e)) → (∀ a, ensures (k a) Q) → ensures (or_fail st msg m k) Q.
Proof. intros He Hk. unfold or_fail. apply ensures_then. intros [a|e]; [apply Hk|]. by apply ensures_ret. Qed.

Lemma with_transition_State meta st : bs_State (with_transition meta st) = bs_State st.
Proof. unfold with_transition. by case_bool_decide. Qed.
Lemma with_start_State meta st : bs_State (with_start meta st) = bs_State st.
Proof. unfold with_start. by case_match. Qed.

Lemma managed_finish_State cr meta st :
  ensures (managed_finish cr meta st) (λ o, bs_State o.1 = bs_State st).
Proof.
  unfold managed_finish. cbv zeta. apply ensures_then. intros [node|e].
  - apply ensures_then. intros [[[]|]|e]; try case_match; apply ensures_ret; cbn; apply with_transition_State.
  - apply ensures_ret. cbn. apply with_transition_State.
Qed.
Lemma snapshot_finish_State cr meta st :
  ensures (snapshot_finish cr meta st) (λ o, bs_State o.1 = bs_State st).
Proof. apply ensures_ret. cbn. apply with_transition_State. Qed.

Lemma starting_case_ensures cluster cr meta st k (Q : outcome → Prop) :
  bk_State cr = BackupStateCanceling →
  (∀ e, Q (st, Some e)) → ensures (k st) Q →
  ensures (k (set_Error pbmStartingDeadlineErrMsg (set_State BackupStateError st))) Q →
  ensures (starting_case cluster cr meta st k) Q.
Proof.
  intros Hc He Hk Hf. unfold starting_case. apply ensures_then. intros now. cbv zeta.
  rewrite bool_decide_eq_true_2 by done. destruct (_ <=? _)%Z; [|done].
  apply or_fail_ensures; [done|]. by intros [].
Qed.

Lemma managed_settled cluster cr meta :
  bk_State cr = BackupStateCanceling →
  ensures (managed_statusFromMeta cluster cr meta) (λ o, settled meta (bs_State o.1)).
Proof.
  intros Hc. unfold managed_statusFromMeta. destruct meta as [m|]; [|apply ensures_ret; by left].
  cbv zeta. case_bool_decide; [apply ensures_ret; by left|].
  assert (∀ st, settled (Some m) (bs_State st) →
    ensures (managed_finish cr m st) (λ o, settled (Some m) (bs_State o.1))) as Hk.
  { intros st Hst. eapply ensures_conseq; [apply managed_finish_State|]. by intros o ->. }
  assert (settled (Some m) (bs_State (with_start m (bk_Status cr)))) as Hst
    by (rewrite with_start_State; by left).
  destruct (meta_Status m) eqn:Em; try (rewrite bool_decide_eq_true_2 by done; by apply Hk).
  - apply starting_case_ensures; [done|done|by apply Hk|]. apply Hk. right. exists m. naive_solver.
  - apply Hk. right. exists m. naive_solver.
  - apply Hk. right. exists m. naive_solver.
  - assert (∀ x, settled (Some m) (bs_State (set_Error x (set_State BackupStateError
      (with_start m (bk_Status cr)))))) as He by (intros x; right; exists m; naive_solver).
    repeat case_match; first [by apply ensures_throw|apply Hk; by right; exists m; naive_solver].
Qed.

Lemma snapshot_settled cluster cr meta :
  bk_State cr = BackupStateCanceling →
  ensures (snapshot_statusFromMeta cluster cr meta) (λ o, settled meta (bs_State o.1)).
Proof.
  intros Hc. unfold snapshot_statusFromMeta. destruct meta as [m|]; [|apply ensures_ret; by left].
  cbv zeta. case_bool_decide; [apply ensures_ret; by left|].
  assert (∀ st, settled (Some m) (bs_State st) →
    ensures (snapshot_finish cr m st) (λ o, settled (Some m) (bs_State o.1))) as Hk.
  { intros st Hst. eapply ensures_conseq; [apply snapshot_finish_State|]. by intros o ->. }
  assert (settled (Some m) (bs_State (with_start m (bk_Status cr)))) as Hst
    by (rewrite with_start_State; by left).
  destruct (meta_Status m) eqn:Em; try by apply Hk.
  - apply starting_case_ensures; [done|done|by apply Hk|]. apply Hk. right. exists m. naive_solver.
  - rewrite bool_decide_eq_true_2 by done. by apply Hk.
  - apply Hk. right. exists m. naive_solver.
  - apply ensures_then. intros now. cbv zeta. apply ensures_then. intros [[|]|e].
    + apply Hk. right. exists m. naive_solver.
    + apply Hk. by left.
    + apply ensures_ret. by left.
  - apply Hk. right. exists m. naive_solver.
Qed.

Definition cancel_outcome (st : BackupState) : Prop :=
  st = BackupStateCanceling ∨ st = BackupStateCanceled ∨ st = BackupStateError ∨ st = BackupStateReady.
Lemma settled_outcome meta st : settled meta st → cancel_outcome st.
Proof. unfold settled, cancel_outcome. naive_solver. Qed.

Lemma checkCancellationTimeout_State cluster cr st meta :
  cancel_outcome (bs_State st) →
  ensures (checkCancellationTimeout cluster cr st meta) (λ st', cancel_outcome (bs_State st')).
Proof.
  intros Hst. unfold checkCancellationTimeout. destruct (negb _); [by apply ensures_ret|].
  destruct (bs_LastTransition st) as [last|]; [|apply ensures_then; intros now; by apply ensures_ret].
  cbv zeta. apply ensures_then. intros now. destruct (_ <? _)%Z; [by apply ensures_ret|].
  apply ensures_then. intros []; [by apply ensures_ret|].
  apply ensures_then. intros [|]; cbn [negb]; [|by apply ensures_ret].
  apply ensures_then. intros now'. apply ensures_ret. right. right. by left.
Qed.

Lemma cancel_with_pbm_State cluster cr :
  bk_State cr = BackupStateCanceling →
  ensures (cancel_with_pbm cluster cr) (λ r, cancel_outcome (bk_State r.1)).
Proof.
  intros Hc. assert (cancel_outcome (bk_State cr)) as Hcr by (by left). unfold cancel_with_pbm. cbv zeta.
  apply ensures_then. intros r. destruct (match r with Ok m => _ | Err e => _ end) as [meta|e];
    [|by apply ensures_ret].
  apply (ensures_bind _ _ (λ o, cancel_outcome (bs_State o.1))).
  { case_bool_decide; eapply ensures_conseq;
      [by apply snapshot_settled| |by apply managed_settled|]; intros o; apply settled_outcome. }
  intros [status [e|]] Hst; [by apply ensures_ret|]. cbn [fst] in Hst.
  apply (ensures_bind _ _ (λ c, ∀ st, c = Ok st → cancel_outcome (bs_State st))).
  { apply ensures_try; [|done]. destruct (_ && _).
    - eapply ensures_conseq; [by apply checkCancellationTimeout_State|]. by intros st ? ? [= <-].
    - apply ensures_ret. by intros ? [= <-]. }
  intros [st|e] Hchecked; [|by apply ensures_ret]. specialize (Hchecked st eq_refl).
  apply ensures_then. intros [[|]|e]; [|by apply ensures_ret..].
  assert (∀ b : bool, cancel_outcome (bs_State (if b then set_Snapshots [] st else st))) as Hs
    by (by intros []).
  destruct (backupStateTerminal _); [apply ensures_ret, Hs|].
  apply ensures_then. intros c. apply ensures_ret. by left.
Qed.

Lemma cancelBackup_State cr :
  bk_State cr = BackupStateCanceling → ensures (cancelBackup cr) (λ r, cancel_outcome (bk_State r.1)).
Proof.
  intros Hc. assert (cancel_outcome (bk_State cr)) as Hcr by (by left). unfold cancelBackup.
  case_bool_decide.
  { apply ensures_then. intros now. apply ensures_ret. right. by left. }
  apply ensures_then. intros [cl|e].
  - case_bool_decide; [by apply ensures_ret|]. apply ensures_then. intros [platform|e]; [|by apply ensures_ret].
    destruct (be_CheckNSetDefaults cl platform); [|by apply ensures_ret].
    apply ensures_then. intros [[]|e]; [|by apply ensures_ret].
    apply ensures_defer. by apply cancel_with_pbm_State.
  - destruct (negb _); [by apply ensures_ret|]. cbv zeta.
    apply ensures_then. intros [[|]|e']; [|by apply ensures_ret..].
    apply ensures_then. intros now. apply ensures_ret. right. right. by left.
Qed.

(** C31: A cancellation is never undone: for a backup that is being cancelled,
    whatever PBM, the API server and the clock answer, the status from PBM's
    report is still "canceling", or "canceled", "ready" or "error" as PBM says
    (an error also when PBM does not get past "starting" in time), and
    [cancelBackup] never leaves the backup requested, running or waiting. *)
Theorem cancellation_sticky cluster cr meta :
  bk_State cr = BackupStateCanceling →
  ensures (managed_statusFromMeta cluster cr meta) (λ o, settled meta (bs_State o.1)) ∧
  ensures (snapshot_statusFromMeta cluster cr meta) (λ o, settled meta (bs_State o.1)) ∧
  ensures (cancelBackup cr) (λ r, cancel_outcome (bk_State r.1)).
Proof.
  intros Hc. split_and!; [by apply managed_settled|by apply snapshot_settled|by apply cancelBackup_State].
Qed.
End executors.

(** * A PBM that has no backups and takes every command, for concrete runs *)
Definition emptyPBM (W : Type) : PBM W := {|
  newPBM := λ _, mret tt; pbm_Close := mret tt; pbm_SendCmd := λ _, mret tt;
  pbm_GetBackupMeta := λ _, notFound; pbm_Node := notFound; pbm_FinishBackup := λ _, mret tt;
  pbm_CancelBackup := λ _, mret tt; pbm_DeleteBackup := λ _, mret tt; pbm_DeleteBackupMeta := λ _, mret tt;
  pbm_DeletePITRChunks := λ _, mret tt; pbm_GetNSetConfigLegacy := λ _ _, mret tt;
  pbm_GetLocks := mret []; pbm_GetOpLocks := mret []; pbm_ClusterTime := mret 0%Z;
  pbm_StaleFrameSec := 30%Z; pbm_PrettySize := itoa
|}.
Definition emptySnapshots (W : Type) : SnapshotClient W :=
  {| snapshot_get := λ _ _, notFound; snapshot_create := λ s, mret s; snapshot_delete := λ _ _, mret tt |}.
Definition plainEnv (W : Type) : BackupEnv W :=
  {| be_platform := mret "kubernetes"; be_CheckNSetDefaults := λ c _, Ok c; be_event := λ _, mret tt |}.

Definition a_meta (st : PBMStatus) : BackupMeta :=
  {| meta_Name := "2026-01-01T00:00:00Z"; meta_OPID := "op"; meta_Status := st; meta_Error := None;
     meta_Size := 1; meta_StartTS := 1; meta_LastTransitionTS := 2; meta_LastWriteTS := 2; meta_Hb := 2;
     meta_Replsets := None |}.

(** PBM still reports "running": the backup stays in canceling. *)
Lemma cancellation_sticky_witness :
  let cr := a_backup "b" BackupStateCanceling 0 in
  let run := managed_statusFromMeta (P := emptyPBM unit) (K := emptyBackups unit)
               a_backup_cluster cr (Some (a_meta StatusRunning)) tt in
  match run.1 with Ok o => settled (Some (a_meta StatusRunning)) (bs_State o.1) | Err _ => True end ∧
  (∃ o, run.1 = Ok o ∧ bs_State o.1 = BackupStateCanceling).
Proof.
  cbv zeta. split.
  - exact (proj1 (cancellation_sticky (P := emptyPBM unit) (K := emptyBackups unit)
      (S := emptySnapshots unit) (O := list_order) (G := insertion_GoSort)
      (H := λ s, s) (E := plainEnv unit) a_backup_cluster (a_backup "b" BackupStateCanceling 0)
      (Some (a_meta StatusRunning)) eq_refl) tt).
  - eexists. split; reflexivity.
Defined.
