(* ===== verification/PbmConfig.v ===== *)
(** The configuration of Percona Backup for MongoDB (pkg/psmdb/backup/pbm.go):
    how the storages of the cluster resource and their secrets become PBM's
    storage configurations, profiles and settings; and the storage a deleted
    backup's files are looked for in when PBM is gone ([getPBMStorage] of the
    backup controller). *)
From S2P Require Import Prelude ReplsetModels MongoClient Api Kube Hosts SystemUsers BackupApi Lease BackupExec.
From Stdlib Require Import Ascii.

(** Keys of the secrets *)
Definition KMSKeyID : string := "KMS_KEY_ID".
Definition SSECustomerKey : string := "SSE_CUSTOMER_KEY".
Definition AWSAccessKeySecretKey : string := "AWS_ACCESS_KEY_ID".
Definition AWSSecretAccessKeySecretKey : string := "AWS_SECRET_ACCESS_KEY".
Definition AWSSessionTokenSecretKey : string := "AWS_SESSION_TOKEN".
Definition OSSAccessKeySecretKey : string := "ALIBABA_ACCESS_KEY_ID".
Definition OSSSecretAccessKeySecretKey : string := "ALIBABA_ACCESS_KEY_SECRET".
Definition AzureStorageAccountNameSecretKey : string := "AZURE_STORAGE_ACCOUNT_NAME".
Definition AzureStorageAccountKeySecretKey : string := "AZURE_STORAGE_ACCOUNT_KEY".
Definition AzureStorageConnectionStringSecretKey : string := "AZURE_STORAGE_CONNECTION_STRING".
Definition GCSClientEmailSecretKey : string := "GCS_CLIENT_EMAIL".
Definition GCSPrivateKeySecretKey : string := "GCS_PRIVATE_KEY".
Definition OCITenancySecretKey : string := "OCI_TENANCY".
Definition OCIUserSecretKey : string := "OCI_USER".
Definition OCIFingerprintSecretKey : string := "OCI_FINGERPRINT".
Definition OCIPrivateKeySecretKey : string := "OCI_PRIVATE_KEY".
Definition OCIPrivateKeyPassphraseSecretKey : string := "OCI_PRIVATE_KEY_PASSPHRASE".
Definition OCISSECustomerKeySecretKey : string := "OCI_SSE_CUSTOMER_KEY".
Definition MinPBMVersionOSS : string := "2.12.0".
Definition OSSCloudEndpointURL : string := "aliyuncs.com".

(** A key's bytes; nil when the key is missing *)
Definition data (secret : gmap string string) (key : string) : string := default "" (secret !! key).

(** * Azure connection strings *)

(** [strings.Split(s, sep)] for a separator of one character *)
Fixpoint split_char (sep : ascii) (s : string) : list string :=
  match s with
  | EmptyString => [EmptyString]
  | String a s' =>
      if bool_decide (a = sep) then EmptyString :: split_char sep s'
      else match split_char sep s' with
           | [] => [String a EmptyString]
           | p :: ps => String a p :: ps
           end
  end.
(** [strings.SplitN(s, sep, 2)] with two parts, if there are two *)
Fixpoint cut_char (sep : ascii) (s : string) : option (string * string) :=
  match s with
  | EmptyString => None
  | String a s' =>
      if bool_decide (a = sep) then Some (EmptyString, s')
      else match cut_char sep s' with
           | Some (l, r) => Some (String a l, r)
           | None => None
           end
  end.
(** [strings.TrimRight(s, sep)] *)
Fixpoint trim_right (sep : ascii) (s : string) : string :=
  match s with
  | EmptyString => EmptyString
  | String a s' =>
      match trim_right sep s' with
      | EmptyString => if bool_decide (a = sep) then EmptyString else String a EmptyString
      | t => String a t
      end
  end.

Definition azure_part (acc : string * string) (part : string) : string * string :=
  match cut_char "=" part with
  | Some ("AccountName", v) => (v, acc.2)
  | Some ("AccountKey", v) => (acc.1, v)
  | _ => acc
  end.
Definition parseAzureConnectionString (connStr : string) : result (string * string) :=
  let '(account, key) :=
    foldl azure_part ("", "") (split_char ";" (trim_right ";" connStr)) in
  if bool_decide (account = "") || bool_decide (key = "")
  then Err (ENew "AccountName or AccountKey not found in connection string")
  else Ok (account, key).

Section storage_config.
Context {W : Type} {K : K8sClient W}.
Abbreviation M := (GoM W).

Definition getSecret (namespace secretName : string) : M (gmap string string) :=
  k8s_get_secret namespace secretName.

(** The encryption settings of an S3 storage.  [secretName] is the evaluation
    of [cluster.Spec.Secrets.SSE]; the second setting overwrites the first. *)
Definition s3_sse (namespace : string) (secretName : M string) (sse : S3ServiceSideEncryption)
    : M (option AWSsse) :=
  customer ←
    (if bool_decide (SSECustomerAlgorithm sse = "") then mret None
     else
       let with_key key := Some {| awssse_SseAlgorithm := ""; awssse_KmsKeyID := "";
         awssse_SseCustomerAlgorithm := SSECustomerAlgorithm sse; awssse_SseCustomerKey := key |} in
       if negb (bool_decide (SSE_CustomerKey sse = "")) then mret (with_key (SSE_CustomerKey sse))
       else
         name ← secretName;
         when bool_decide (name = "") raise ENew "no SseCustomerKey specified";
         secret ← wrapM "get sse credentials secret" (getSecret namespace name);
         mret (with_key (data secret SSECustomerKey)));
  if bool_decide (SSEAlgorithm sse = "") then mret customer
  else
    let with_id id := Some {| awssse_SseAlgorithm := SSEAlgorithm sse; awssse_KmsKeyID := id;
      awssse_SseCustomerAlgorithm := ""; awssse_SseCustomerKey := "" |} in
    if negb (bool_decide (SSE_KMSKeyID sse = "")) then mret (with_id (SSE_KMSKeyID sse))
    else
      name ← secretName;
      when bool_decide (name = "") raise ENew "no KmsKeyID specified";
      secret ← wrapM "get sse credentials secret" (getSecret namespace name);
      mret (with_id (data secret KMSKeyID)).

Definition s3_config (s : BackupStorageS3Spec) (forcePathStyle : option bool) (creds : AwsCredentials)
    (sse : option AWSsse) (retryer : option S3Retryer) : S3Config :=
  {| s3c_Region := s3_Region s; s3c_EndpointURL := bu_EndpointURL s; s3c_Bucket := bu_Bucket s;
     s3c_Prefix := bu_Prefix s; s3c_UploadPartSize := s3_UploadPartSize s;
     s3c_MaxUploadParts := s3_MaxUploadParts s; s3c_StorageClass := s3_StorageClass s;
     s3c_InsecureSkipTLSVerify := s3_InsecureSkipTLSVerify s; s3c_ForcePathStyle := forcePathStyle;
     s3c_Credentials := creds; s3c_SSE := sse; s3c_Retryer := retryer |}.

(** Without a credentials secret the encryption settings are not looked at. *)
Definition GetPBMStorageS3Config (cluster : BackupCluster) (s : BackupStorageS3Spec) : M StorageConf :=
  if bool_decide (bu_CredentialsSecret s = "") then
    mret (ConfS3 (s3_config s (s3_ForcePathStyle s) noAwsCredentials None (s3_Retryer s)))
  else
    secret ← wrapM "get s3 credentials secret" (getSecret (cr_Namespace cluster) (bu_CredentialsSecret s));
    sse ← s3_sse (cr_Namespace cluster) (mret (bc_SecretsSSE cluster)) (s3_SSE s);
    mret (ConfS3 (s3_config s (s3_ForcePathStyle s)
      {| ak_AccessKeyID := data secret AWSAccessKeySecretKey;
         ak_SecretAccessKey := data secret AWSSecretAccessKeySecretKey;
         ak_SessionToken := data secret AWSSessionTokenSecretKey |} sse (s3_Retryer s))).

Definition minio_config (s : BackupStorageMinioSpec) (insecure : bool) (creds : AwsCredentials)
    : MinioConfig :=
  {| mioc_Region := mio_Region s; mioc_Endpoint := bu_EndpointURL s; mioc_Bucket := bu_Bucket s;
     mioc_Prefix := bu_Prefix s; mioc_InsecureSkipTLSVerify := insecure;
     mioc_DebugTrace := mio_DebugTrace s; mioc_PartSize := mio_PartSize s;
     mioc_Secure := mio_Secure s; mioc_ForcePathStyle := mio_ForcePathStyle s;
     mioc_Credentials := creds; mioc_Retryer := mio_Retryer s |}.

(** [Data[key]] with its [ok] *)
Definition need (secret : gmap string string) (key msg : string) : M string :=
  match secret !! key with Some v => mret v | None => throw (ENew msg) end.

Definition GetPBMStorageMinioConfig (cluster : BackupCluster) (s : BackupStorageMinioSpec) : M StorageConf :=
  wrapM "invalid minio storage config" (liftR (minio_Validate s));;
  creds ←
    (if bool_decide (bu_CredentialsSecret s = "") then mret noAwsCredentials
     else
       secret ← wrapM "get minio credentials secret"
         (getSecret (cr_Namespace cluster) (bu_CredentialsSecret s));
       accessKey ← need secret AWSAccessKeySecretKey "access key not found in credentials secret";
       secretAccessKey ← need secret AWSSecretAccessKeySecretKey
         "secret access key not found in credentials secret";
       mret {| ak_AccessKeyID := accessKey; ak_SecretAccessKey := secretAccessKey;
               ak_SessionToken := data secret AWSSessionTokenSecretKey |});
  mret (ConfMinio (minio_config s (mio_InsecureSkipTLSVerify s) creds)).

Definition gcs_config (s : BackupStorageGCSSpec) (email key : string) (workload : bool)
    (retryer : option GCSRetryer) : GCSConfig :=
  {| gcsc_Bucket := bu_Bucket s; gcsc_Prefix := bu_Prefix s; gcsc_ChunkSize := gcs_ChunkSize s;
     gcsc_ClientEmail := email; gcsc_PrivateKey := key; gcsc_WorkloadIdentity := workload;
     gcsc_Retryer := retryer |}.

Definition GetPBMStorageGCSConfig (cluster : BackupCluster) (s : BackupStorageGCSSpec) : M StorageConf :=
  if bool_decide (bu_CredentialsSecret s = "") then
    mret (ConfGCS (gcs_config s "" "" true (gcs_Retryer s)))
  else
    secret ← wrapM "get GCS credentials secret"
      (getSecret (cr_Namespace cluster) (bu_CredentialsSecret s));
    match secret !! GCSClientEmailSecretKey with
    | Some email =>
        mret (ConfGCS (gcs_config s email (data secret GCSPrivateKeySecretKey) false (gcs_Retryer s)))
    | None => mret (ConfGCS (gcs_config s "" "" false (gcs_Retryer s)))
    end.

Definition azure_config (s : BucketSpec) (account key : string) : AzureConfig :=
  {| azc_Account := account; azc_Container := bu_Bucket s; azc_EndpointURL := bu_EndpointURL s;
     azc_Prefix := bu_Prefix s; azc_Key := key |}.

Definition GetPBMStorageAzureConfig (cluster : BackupCluster) (s : BucketSpec) : M StorageConf :=
  when bool_decide (bu_CredentialsSecret s = "")
    raise ENew "no credentials specified for the secret name";
  secret ← wrapM "get azure credentials secret"
    (getSecret (cr_Namespace cluster) (bu_CredentialsSecret s));
  let connStr := data secret AzureStorageConnectionStringSecretKey in
  creds ←
    (if bool_decide (connStr = "") then
       mret (data secret AzureStorageAccountNameSecretKey, data secret AzureStorageAccountKeySecretKey)
     else wrapM "parse azure connection string" (liftR (parseAzureConnectionString connStr)));
  mret (ConfAzure (azure_config s creds.1 creds.2)).

Definition oss_config (s : BackupStorageOSSSpec) (id key : string) (sse : option OSSsse) : OSSConfig :=
  {| ossc_Region := oss_Region s; ossc_EndpointURL := bu_EndpointURL s; ossc_Bucket := bu_Bucket s;
     ossc_Prefix := bu_Prefix s; ossc_AccessKeyID := id; ossc_AccessKeySecret := key;
     ossc_ConnectTimeout := oss_ConnectTimeout s; ossc_UploadPartSize := oss_UploadPartSize s;
     ossc_MaxUploadParts := oss_MaxUploadParts s; ossc_SSE := sse; ossc_Retryer := oss_Retryer s |}.

(** [namespace] is the evaluation of [cluster.Namespace]. *)
Definition oss_sse (namespace : M string) (sse : OSSServerSideEncryption) : M (option OSSsse) :=
  if bool_decide (osse_EncryptionAlgorithm sse = "") then mret None
  else
    let with_id id := Some {| osss_Method := osse_EncryptionMethod sse;
      osss_Algorithm := osse_EncryptionAlgorithm sse; osss_KeyID := id |} in
    if negb (bool_decide (osse_EncryptionKeyID sse = "")) then mret (with_id (osse_EncryptionKeyID sse))
    else if negb (bool_decide (osse_SecretName sse = "")) then
      ns ← namespace;
      secret ← wrapM "get sse credentials secret" (getSecret ns (osse_SecretName sse));
      mret (with_id (data secret SSECustomerKey))
    else throw (ENew "no encryptionKeyId or SSE secret specified").

(** The Alibaba keys of the secret, or else AWS ones. *)
Definition GetPBMStorageOSSConfig (cluster : BackupCluster) (s : BackupStorageOSSSpec) : M StorageConf :=
  when bool_decide (bu_CredentialsSecret s = "")
    raise ENew "no credentials specified for the secret name";
  when bool_decide (bu_Bucket s = "") raise ENew "bucket is required";
  when bool_decide (bu_EndpointURL s = "") raise ENew "endpointURL is required";
  secret ← wrapM "get oss credentials secret"
    (getSecret (cr_Namespace cluster) (bu_CredentialsSecret s));
  let '(id, key) :=
    match secret !! AWSAccessKeySecretKey with
    | Some id => (id, data secret AWSSecretAccessKeySecretKey)
    | None => (data secret OSSAccessKeySecretKey, data secret OSSSecretAccessKeySecretKey)
    end in
  sse ← oss_sse (mret (cr_Namespace cluster)) (oss_SSE s);
  mret (ConfOSS (oss_config s id key sse)).

(** An S3 storage at an Alibaba endpoint, seen as an OSS storage *)
Definition s3_as_oss (s : BackupStorageS3Spec) : BackupStorageOSSSpec :=
  {| oss_bucket := s3_bucket s; oss_Region := s3_Region s; oss_ConnectTimeout := 0;
     oss_UploadPartSize := s3_UploadPartSize s; oss_MaxUploadParts := s3_MaxUploadParts s;
     oss_Retryer := None;
     oss_SSE := {| osse_SecretName := ""; osse_EncryptionMethod := "";
                   osse_EncryptionAlgorithm := ""; osse_EncryptionKeyID := "" |} |}.
Definition GetPBMStorageS3CompatibleOSSConfig (cluster : BackupCluster) (s : BackupStorageS3Spec)
    : M StorageConf :=
  wrapM "get oss config" (GetPBMStorageOSSConfig cluster (s3_as_oss s)).

Definition oci_user_principal (secret : gmap string string) : M UserPrincipalCredentials :=
  let field key := need secret key (key +:+ " not found in OCI secret") in
  tenancy ← field OCITenancySecretKey;
  user ← field OCIUserSecretKey;
  fingerprint ← field OCIFingerprintSecretKey;
  privateKey ← field OCIPrivateKeySecretKey;
  mret {| up_Tenancy := tenancy; up_User := user; up_Fingerprint := fingerprint;
          up_PrivateKey := privateKey;
          up_PrivateKeyPassphrase := data secret OCIPrivateKeyPassphraseSecretKey |}.

Definition GetPBMStorageOCIConfig (cluster : BackupCluster) (s : BackupStorageOCISpec) : M StorageConf :=
  principal ←
    (if bool_decide (oci_AuthType s = AuthTypeUserPrincipal) then
       secret ← wrapM "get OCI private key secret"
         (getSecret (cr_Namespace cluster) (bu_CredentialsSecret s));
       creds ← oci_user_principal secret;
       mret (Some creds)
     else mret None);
  customerKey ←
    (if bool_decide (oci_SSE_SecretName s = "") then mret ""
     else
       secret ← wrapM "get OCI SSE customer key secret"
         (getSecret (cr_Namespace cluster) (oci_SSE_SecretName s));
       need secret OCISSECustomerKeySecretKey
         (OCISSECustomerKeySecretKey +:+ " not found in OCI SSE customer key secret"));
  mret (ConfOCI
    {| ocic_Region := oci_Region s; ocic_Namespace := oci_Namespace s; ocic_Bucket := bu_Bucket s;
       ocic_Prefix := bu_Prefix s; ocic_AuthType := oci_AuthType s; ocic_UserPrincipal := principal;
       ocic_SSE_KmsKeyID := oci_SSE_KmsKeyID s; ocic_SSE_CustomerKey := customerKey;
       ocic_UploadPartSize := oci_UploadPartSize s; ocic_MaxObjSizeGB := oci_MaxObjSizeGB s;
       ocic_UploadConcurrency := oci_UploadConcurrency s; ocic_Retryer := oci_Retryer s |}).

(** github.com/hashicorp/go-version's [NewVersion]: whether a version parses *)
Class VersionParser := version_parses : string → bool.
Context {V : Versions} {VP : VersionParser}.

Definition ComparePBMAgentVersion (cr : BackupCluster) (version : string) : result Z :=
  if negb (version_parses (bc_BackupVersion cr)) then
    Err (EWrap (EExt KOther "malformed version") "parse status.backupVersion")
  else if negb (version_parses version) then
    Err (EWrap (EExt KOther "malformed version") "parse version")
  else Ok (version_compare (bc_BackupVersion cr) version).

Definition GetPBMStorageConfig (cluster : BackupCluster) (stg : BackupStorageSpec) : M StorageConf :=
  pbm2120Plus ← wrapM "compare pbm-agent version"
    (liftR (ComparePBMAgentVersion cluster MinPBMVersionOSS));
  match stg_Type stg with
  | BackupStorageS3 =>
      if (0 <=? pbm2120Plus)%Z && str_contains OSSCloudEndpointURL (bu_EndpointURL (stg_S3 stg)) then
        wrapM "get s3-compatible oss config" (GetPBMStorageS3CompatibleOSSConfig cluster (stg_S3 stg))
      else wrapM "get s3 config" (GetPBMStorageS3Config cluster (stg_S3 stg))
  | BackupStorageMinio => wrapM "get minio config" (GetPBMStorageMinioConfig cluster (stg_Minio stg))
  | BackupStorageGCS => wrapM "get gcs config" (GetPBMStorageGCSConfig cluster (stg_GCS stg))
  | BackupStorageAzure => wrapM "get azure config" (GetPBMStorageAzureConfig cluster (stg_Azure stg))
  | BackupStorageOSS =>
      when (pbm2120Plus <? 0)%Z
        raise ENew ("oss storage requires PBM " +:+ MinPBMVersionOSS +:+ " or newer");
      wrapM "get oss config" (GetPBMStorageOSSConfig cluster (stg_OSS stg))
  | BackupStorageOCI => wrapM "get oci config" (GetPBMStorageOCIConfig cluster (stg_OCI stg))
  | BackupStorageFilesystem => mret (ConfFilesystem (fs_Path (stg_Filesystem stg)))
  end.
End storage_config.

(** * PBM's settings *)
Record PITRConf := {
  pitrc_Enabled : bool;
  pitrc_OplogSpanMin : string;
  pitrc_OplogOnly : bool;
  pitrc_Compression : string;
  pitrc_CompressionLevel : option Z
}.
Record BackupConf := {
  bconf_OplogSpanMin : string;
  bconf_NumParallelCollections : Z;
  bconf_Priority : option (gmap string string);
  bconf_Timeouts : option (option Z)
}.
(** [config.Config] *)
Record PBMConfig := {
  pc_Name : string;
  pc_IsProfile : bool;
  pc_Storage : StorageConf;
  pc_PITR : option PITRConf;
  pc_Backup : option BackupConf;
  pc_Restore : option RestoreOptions
}.

(** The configuration kept in PBM's database: the main one, and the profiles
    by name. *)
Class PbmStore (W : Type) := {
  config_SetConfig : PBMConfig → GoM W unit;
  config_GetConfig : GoM W PBMConfig;
  config_AddProfile : PBMConfig → GoM W unit;
  config_GetProfile : string → GoM W PBMConfig;
  config_RemoveProfile : string → GoM W unit
}.

(** [psmdb.MongoClient] with a user name and a password, and [Disconnect] *)
Class MongoByCredentials (W : Type) := {
  mongo_with_credentials : PerconaServerMongoDB → ReplsetSpec → string → string → GoM W (Client W);
  mongo_disconnect : GoM W unit
}.

Section settings.
Context {W : Type} {K : K8sClient W} {V : Versions} {VP : VersionParser} {O : MapOrder}.
Context {C : MongoByCredentials W} {PS : PbmStore W}.
Abbreviation M := (GoM W).

Definition GetPrimaryPod (cl : Client W) : M string :=
  status ← wrapM "failed to get rs status" cRSStatus;
  match Primary status with
  | Some m => mret (Name m)
  | None => throw nil_panic
  end.

Fixpoint replset_priorities (cluster : BackupCluster) (user password : string) (l : list ReplsetSpec)
    (priorities : gmap string string) : M (gmap string string) :=
  match l with
  | [] => mret priorities
  | rs :: l' =>
      let priorities := foldl (λ m e, <[HostPort e := "0.5"]> m) priorities (rs_ExternalNodes rs) in
      cli ← wrapM "get mongo client" (mongo_with_credentials cluster rs user password);
      primary ← tryM (GetPrimaryPod cli);
      _ ← tryM mongo_disconnect;
      primary ← wrapM "get primary pod" (liftR primary);
      replset_priorities cluster user password l' (<[primary := "0.5"]> priorities)
  end.

Definition GetPriorities (cluster : BackupCluster) : M (option (gmap string string)) :=
  if (0 <=? CompareVersion cluster "1.24.0")%Z then mret None
  else
    secret ← wrapM "get users secret" (getSecret (cr_Namespace cluster) (cr_SecretsUsers cluster));
    p ← replset_priorities cluster (data secret "MONGODB_BACKUP_USER")
      (data secret "MONGODB_BACKUP_PASSWORD") (cr_Replsets cluster) ∅;
    mret (Some p).

Definition GetPBMConfig (cluster : BackupCluster) (stg : BackupStorageSpec) : M PBMConfig :=
  let b := bc_Backup cluster in
  backup ←
    match b_BackupOptions b with
    | None => mret None
    | Some opts =>
        priority ← match bo_Priority opts with
                   | Some p => mret (Some p)
                   | None => wrapM "get priorities" (GetPriorities cluster)
                   end;
        mret (Some {| bconf_OplogSpanMin := bo_OplogSpanMin opts;
                      bconf_NumParallelCollections := bo_NumParallelCollections opts;
                      bconf_Priority := priority; bconf_Timeouts := bo_Timeouts opts |})
    end;
  storageConf ← wrapM "get storage config" (GetPBMStorageConfig cluster stg);
  mret {| pc_Name := ""; pc_IsProfile := false; pc_Storage := storageConf;
          pc_PITR := Some {| pitrc_Enabled := pitr_Enabled (b_PITR b); pitrc_OplogSpanMin := "";
            pitrc_OplogOnly := false; pitrc_Compression := pitr_CompressionType (b_PITR b);
            pitrc_CompressionLevel := pitr_CompressionLevel (b_PITR b) |};
          pc_Backup := backup; pc_Restore := b_RestoreOptions b |}.

Definition GetPBMProfile (cluster : BackupCluster) (name : string) (stg : BackupStorageSpec)
    : M PBMConfig :=
  stgConf ← wrapM "get external storage config" (GetPBMStorageConfig cluster stg);
  mret {| pc_Name := name; pc_IsProfile := true; pc_Storage := stgConf; pc_PITR := None;
          pc_Backup := None; pc_Restore := None |}.

Definition AddProfile (cluster : BackupCluster) (name : string) (stg : BackupStorageSpec) : M unit :=
  profile ← wrapM "get profile" (GetPBMProfile cluster name stg);
  wrapM "add profile" (config_AddProfile profile).

(** The pause for PBM to open the new storage is left out. *)
Definition GetNSetConfigLegacy (cluster : BackupCluster) (stg : BackupStorageSpec) : M unit :=
  conf ← wrapM "get PBM config" (GetPBMConfig cluster stg);
  wrapM "write config" (config_SetConfig conf).

Definition add_profiles (cluster : BackupCluster) (mainStgName : string)
    : list (string * BackupStorageSpec) → M unit :=
  mapM_list (λ p, if bool_decide (p.1 = mainStgName) then mret tt
                  else wrapM "add profile" (AddProfile cluster p.1 p.2)).

Definition GetNSetConfig (cluster : BackupCluster) : M unit :=
  main ← wrapM "get main storage" (liftR (MainStorage (bc_Backup cluster)));
  conf ← wrapM "get PBM config" (GetPBMConfig cluster main.2);
  wrapM "write config" (config_SetConfig conf);;
  add_profiles cluster main.1 (map_order (b_Storages (bc_Backup cluster)));;
  r ← tryM (config_GetProfile main.1);
  match r with
  | Ok _ => wrapM ("remove profile " +:+ main.1) (config_RemoveProfile main.1)
  | Err _ => mret tt
  end.
End settings.

(** * The storage of a backup whose PBM is gone *)
Section deletion.
Context {W : Type} {K : K8sClient W}.
Abbreviation M := (GoM W).

(** [cluster.Spec.Secrets.SSE] and [cluster.Namespace], for a cluster that may
    be nil *)
Definition deref_sse (cluster : option BackupCluster) : M string :=
  match cluster with Some c => mret (bc_SecretsSSE c) | None => throw nil_panic end.
Definition deref_namespace (cluster : option BackupCluster) : M string :=
  match cluster with Some c => mret (cr_Namespace c) | None => throw nil_panic end.

(** Whether the cluster's MinIO storage of that name has a CA bundle *)
Definition minio_ca_bundle (cluster : option BackupCluster) (storageName : string) : bool :=
  match cluster with
  | None => false
  | Some c =>
      match b_Storages (bc_Backup c) !! storageName with
      | Some stg => bool_decide (stg_Type stg = BackupStorageMinio) && mio_CABundle (stg_Minio stg)
      | None => false
      end
  end.

Definition aws_credentials (secret : gmap string string) : AwsCredentials :=
  {| ak_AccessKeyID := data secret AWSAccessKeySecretKey;
     ak_SecretAccessKey := data secret AWSSecretAccessKeySecretKey; ak_SessionToken := "" |}.
Definition delete_credentials (ns name msg : string) : M AwsCredentials :=
  if bool_decide (name = "") then mret noAwsCredentials
  else secret ← wrapM msg (getSecret ns name); mret (aws_credentials secret).

(** The configuration handed to the storage's constructor; the status holds at
    most one storage. *)
Definition getPBMStorage (cluster : option BackupCluster) (cr : PerconaServerMongoDBBackup)
    : M StorageConf :=
  let ns := bk_Namespace cr in
  match bs_Storage (bk_Status cr) with
  | Some (RefAzure s) =>
      when bool_decide (bu_CredentialsSecret s = "")
        raise ENew "no azure credentials specified for the secret name";
      secret ← wrapM "get azure credentials secret" (getSecret ns (bu_CredentialsSecret s));
      mret (ConfAzure (azure_config s (data secret AzureStorageAccountNameSecretKey)
                         (data secret AzureStorageAccountKeySecretKey)))
  | Some (RefGCS s) =>
      if bool_decide (bu_CredentialsSecret s = "") then mret (ConfGCS (gcs_config s "" "" false None))
      else
        secret ← wrapM "get gcs credentials secret" (getSecret ns (bu_CredentialsSecret s));
        mret (ConfGCS (gcs_config s (data secret GCSClientEmailSecretKey)
                         (data secret GCSPrivateKeySecretKey) false None))
  | Some (RefS3 s) =>
      creds ← delete_credentials ns (bu_CredentialsSecret s) "get s3 credentials secret";
      sse ← s3_sse ns (deref_sse cluster) (s3_SSE s);
      mret (ConfS3 (s3_config s None creds sse None))
  | Some (RefMinio s) =>
      creds ← delete_credentials ns (bu_CredentialsSecret s) "get minio credentials secret";
      mret (ConfMinio (minio_config s
        (mio_InsecureSkipTLSVerify s || minio_ca_bundle cluster (bs_StorageName (bk_Status cr))) creds))
  | Some (RefOSS s) =>
      when bool_decide (bu_CredentialsSecret s = "")
        raise ENew "no oss credentials specified for the secret name";
      secret ← wrapM "get oss credentials secret" (getSecret ns (bu_CredentialsSecret s));
      sse ← oss_sse (deref_namespace cluster) (oss_SSE s);
      mret (ConfOSS (oss_config s (data secret OSSAccessKeySecretKey)
                       (data secret OSSSecretAccessKeySecretKey) sse))
  | Some (RefFilesystem _) | Some (RefOCI _) | None => throw (ENew "no storage info in backup status")
  end.
End deletion.

(** * Theorems: a backup is deleted where it was written *)

(** The pair of keys a configuration signs its requests with *)
Definition conf_keys (c : StorageConf) : string * string :=
  match c with
  | ConfS3 c => (ak_AccessKeyID (s3c_Credentials c), ak_SecretAccessKey (s3c_Credentials c))
  | ConfMinio c => (ak_AccessKeyID (mioc_Credentials c), ak_SecretAccessKey (mioc_Credentials c))
  | ConfGCS c => (gcsc_ClientEmail c, gcsc_PrivateKey c)
  | ConfAzure c => (azc_Account c, azc_Key c)
  | ConfOSS c => (ossc_AccessKeyID c, ossc_AccessKeySecret c)
  | ConfFilesystem _ | ConfOCI _ => ("", "")
  end.

(** The bucket of a storage, and the keys its secret holds under the names the
    deletion looks for *)
Definition stg_bucket (stg : BackupStorageSpec) : BucketSpec :=
  match stg_Type stg with
  | BackupStorageS3 => stg_S3 stg
  | BackupStorageMinio => stg_Minio stg
  | BackupStorageGCS => stg_GCS stg
  | BackupStorageAzure => stg_Azure stg
  | BackupStorageOSS => stg_OSS stg
  | BackupStorageOCI => stg_OCI stg
  | BackupStorageFilesystem => {| bu_Bucket := ""; bu_Prefix := ""; bu_EndpointURL := ""; bu_CredentialsSecret := "" |}
  end.
Definition stg_location (stg : BackupStorageSpec) : string * string * string :=
  let s := stg_bucket stg in
  (match stg_Type stg with BackupStorageGCS => "" | _ => bu_EndpointURL s end, bu_Bucket s, bu_Prefix s).
Definition secret_keys (stg : BackupStorageSpec) (secret : gmap string string) : string * string :=
  match stg_Type stg with
  | BackupStorageS3 | BackupStorageMinio =>
      (data secret AWSAccessKeySecretKey, data secret AWSSecretAccessKeySecretKey)
  | BackupStorageGCS => (data secret GCSClientEmailSecretKey, data secret GCSPrivateKeySecretKey)
  | BackupStorageAzure =>
      (data secret AzureStorageAccountNameSecretKey, data secret AzureStorageAccountKeySecretKey)
  | BackupStorageOSS => (data secret OSSAccessKeySecretKey, data secret OSSSecretAccessKeySecretKey)
  | BackupStorageFilesystem | BackupStorageOCI => ("", "")
  end.
(** The secrets that both ways read alike: no connection string, no AWS names
    for Alibaba keys or the other way round, no private key without an e-mail. *)
Definition plain_secret (stg : BackupStorageSpec) (secret : gmap string string) : Prop :=
  match stg_Type stg with
  | BackupStorageS3 => is_Some (secret !! AWSAccessKeySecretKey)
  | BackupStorageGCS => is_Some (secret !! GCSClientEmailSecretKey)
  | BackupStorageAzure => data secret AzureStorageConnectionStringSecretKey = ""
  | BackupStorageOSS => secret !! AWSAccessKeySecretKey = None
  | _ => True
  end.
(** Storages whose files can be deleted without PBM *)
Definition deletable (stg : BackupStorageSpec) : bool :=
  match stg_Type stg with BackupStorageFilesystem | BackupStorageOCI => false | _ => true end.

Section deletion_place.
Context {W : Type} {K : K8sClient W} {V : Versions} {VP : VersionParser}.
(** The secrets do not change. *)
Context (secrets : string → string → result (gmap string string)).
Context (Hsecrets : ∀ ns n w, (k8s_get_secret ns n w).1 = secrets ns n).
Implicit Types (cluster : BackupCluster) (stg : BackupStorageSpec).

Lemma ensures_secret msg ns n :
  ensures (wrapM msg (getSecret ns n)) (λ s, secrets ns n = Ok s).
Proof using Hsecrets.
  intros w. unfold wrapM, getSecret. rewrite <- (Hsecrets ns n w). by destruct (k8s_get_secret ns n w) as [[] ?].
Qed.
Lemma ensures_wrap {X A} msg (m : GoM X A) Q : ensures m Q → ensures (wrapM msg m) Q.
Proof. intros Hm w. specialize (Hm w). unfold wrapM. by destruct (m w) as [[] ?]. Qed.

(** What both ways agree on *)
Definition as_written (ns : string) (b : BucketSpec) (loc : string * string * string)
    (plain : gmap string string → Prop) (keys : gmap string string → string * string)
    (conf : StorageConf) : Prop :=
  conf_location conf = loc ∧
  if bool_decide (bu_CredentialsSecret b = "") then conf_keys conf = ("", "")
  else ∃ secret, secrets ns (bu_CredentialsSecret b) = Ok secret ∧
         (plain secret → conf_keys conf = keys secret).
Definition agrees (ns : string) stg : StorageConf → Prop :=
  as_written ns (stg_bucket stg) (stg_location stg) (plain_secret stg) (secret_keys stg).

(** A configuration made from the credentials secret *)
Lemma as_written_secret {A} ns b loc plain keys msg (f : gmap string string → GoM W A) (g : A → StorageConf) :
  bu_CredentialsSecret b ≠ "" →
  (∀ secret, secrets ns (bu_CredentialsSecret b) = Ok secret →
     ensures (f secret) (λ c, conf_location (g c) = loc ∧ (plain secret → conf_keys (g c) = keys secret))) →
  ensures (secret ← wrapM msg (getSecret ns (bu_CredentialsSecret b)); f secret)
    (λ c, as_written ns b loc plain keys (g c)).
Proof using Hsecrets.
  intros Hb Hf. eapply ensures_bind; [apply ensures_secret|]. intros secret Hs.
  eapply ensures_conseq; [by apply Hf|]. intros c [Hl Hk]. split; [done|].
  rewrite bool_decide_eq_false_2 by done. by exists secret.
Qed.

Ltac place := repeat first
  [ apply ensures_throw | apply ensures_ret; (split; [done|]) | progress cbv beta zeta
  | apply ensures_then; intros ? ].

Lemma S3_written cluster (s : BackupStorageS3Spec) plain :
  ensures (GetPBMStorageS3Config cluster s)
    (as_written (cr_Namespace cluster) s (bu_EndpointURL s, bu_Bucket s, bu_Prefix s) plain
       (λ secret, (data secret AWSAccessKeySecretKey, data secret AWSSecretAccessKeySecretKey))).
Proof using Hsecrets.
  unfold GetPBMStorageS3Config. case_bool_decide as Hc.
  - apply ensures_ret. split; [done|]. by rewrite bool_decide_eq_true_2.
  - apply (as_written_secret _ _ _ _ _ _ _ id); [done|]. intros secret _. by place.
Qed.
Lemma Minio_written cluster (s : BackupStorageMinioSpec) plain :
  ensures (GetPBMStorageMinioConfig cluster s)
    (as_written (cr_Namespace cluster) s (bu_EndpointURL s, bu_Bucket s, bu_Prefix s) plain
       (λ secret, (data secret AWSAccessKeySecretKey, data secret AWSSecretAccessKeySecretKey))).
Proof using Hsecrets.
  unfold GetPBMStorageMinioConfig. apply ensures_then. intros _.
  eapply ensures_bind with (R := λ creds, as_written (cr_Namespace cluster) s
    (bu_EndpointURL s, bu_Bucket s, bu_Prefix s) plain
    (λ secret, (data secret AWSAccessKeySecretKey, data secret AWSSecretAccessKeySecretKey))
    (ConfMinio (minio_config s false creds))).
  - case_bool_decide as Hc.
    + apply ensures_ret. split; [done|]. by rewrite bool_decide_eq_true_2.
    + apply (as_written_secret _ _ _ _ _ _ _ (λ creds, ConfMinio (minio_config s false creds))); [done|].
      intros secret _. unfold need, data.
      destruct (secret !! AWSAccessKeySecretKey) as [ak|]; [|by intros w].
      destruct (secret !! AWSSecretAccessKeySecretKey) as [sk|]; [|by intros w]. by apply ensures_ret.
  - intros creds H. by apply ensures_ret.
Qed.
Lemma GCS_written cluster (s : BackupStorageGCSSpec) :
  ensures (GetPBMStorageGCSConfig cluster s)
    (as_written (cr_Namespace cluster) s ("", bu_Bucket s, bu_Prefix s) (λ secret, is_Some (secret !! GCSClientEmailSecretKey))
       (λ secret, (data secret GCSClientEmailSecretKey, data secret GCSPrivateKeySecretKey))).
Proof using Hsecrets.
  unfold GetPBMStorageGCSConfig. case_bool_decide as Hc.
  - apply ensures_ret. split; [done|]. by rewrite bool_decide_eq_true_2.
  - apply (as_written_secret _ _ _ _ _ _ _ id); [done|]. intros secret _. unfold data.
    destruct (secret !! GCSClientEmailSecretKey) as [e|] eqn:Ee; apply ensures_ret; (split; [done|]); [done|].
    by intros [].
Qed.
Lemma Azure_written cluster (s : BucketSpec) :
  ensures (GetPBMStorageAzureConfig cluster s)
    (as_written (cr_Namespace cluster) s (bu_EndpointURL s, bu_Bucket s, bu_Prefix s)
       (λ secret, data secret AzureStorageConnectionStringSecretKey = "")
       (λ secret, (data secret AzureStorageAccountNameSecretKey, data secret AzureStorageAccountKeySecretKey))).
Proof using Hsecrets.
  unfold GetPBMStorageAzureConfig. case_bool_decide as Hc; [apply ensures_throw|].
  apply (as_written_secret _ _ _ _ _ _ _ id); [done|]. intros secret _. cbv zeta.
  eapply ensures_bind with (R := λ creds, data secret AzureStorageConnectionStringSecretKey = "" →
    creds = (data secret AzureStorageAccountNameSecretKey, data secret AzureStorageAccountKeySecretKey)).
  - case_bool_decide; [by apply ensures_ret|]. eapply ensures_conseq; [apply ensures_any|]. by intros.
  - intros creds Hcreds. apply ensures_ret. split; [done|]. intros Hp. cbn. by rewrite (Hcreds Hp).
Qed.
Definition oss_names (secret : gmap string string) : string * string :=
  match secret !! AWSAccessKeySecretKey with
  | Some id => (id, data secret AWSSecretAccessKeySecretKey)
  | None => (data secret OSSAccessKeySecretKey, data secret OSSSecretAccessKeySecretKey)
  end.
Lemma OSS_written cluster (s : BackupStorageOSSSpec) plain :
  ensures (GetPBMStorageOSSConfig cluster s)
    (as_written (cr_Namespace cluster) s (bu_EndpointURL s, bu_Bucket s, bu_Prefix s) plain oss_names).
Proof using Hsecrets.
  unfold GetPBMStorageOSSConfig. case_bool_decide as Hc; [apply ensures_throw|].
  do 2 (case_bool_decide; [apply ensures_throw|]).
  apply (as_written_secret _ _ _ _ _ _ _ id); [done|]. intros secret _. unfold oss_names.
  destruct (secret !! AWSAccessKeySecretKey); by place.
Qed.

Lemma as_written_conseq ns b loc (plain plain' : _ → Prop) keys keys' c :
  (∀ secret, plain' secret → plain secret ∧ keys secret = keys' secret) →
  as_written ns b loc plain keys c → as_written ns b loc plain' keys' c.
Proof.
  intros Hk [Hl Hc]. split; [done|]. case_bool_decide; [done|].
  destruct Hc as (secret & Hs & Hkeys). exists secret. split; [done|]. intros Hp.
  destruct (Hk secret Hp) as [H1 <-]. auto.
Qed.

Lemma written cluster stg :
  deletable stg = true → ensures (GetPBMStorageConfig cluster stg) (agrees (cr_Namespace cluster) stg).
Proof using Hsecrets.
  intros Hd. unfold GetPBMStorageConfig. apply ensures_then. intros pbm.
  unfold agrees, stg_location, stg_bucket, plain_secret, secret_keys, deletable in *.
  destruct (stg_Type stg); try done.
  - case_match; apply ensures_wrap; [|apply S3_written].
    eapply ensures_conseq; [apply ensures_wrap, (OSS_written _ _ (λ secret, is_Some (secret !! AWSAccessKeySecretKey)))|].
    intros c. apply as_written_conseq. intros secret [id Hid]. split; [done|]. unfold oss_names, data. by rewrite Hid.
  - apply ensures_wrap, GCS_written.
  - apply ensures_wrap, Azure_written.
  - apply ensures_wrap, Minio_written.
  - case_match; [apply ensures_throw|]. apply ensures_wrap.
    eapply ensures_conseq; [apply (OSS_written _ _ (λ secret, secret !! AWSAccessKeySecretKey = None))|].
    intros c. apply as_written_conseq. intros secret Hid. split; [done|]. unfold oss_names. by rewrite Hid.
Qed.

Lemma delete_credentials_written ns (b : BucketSpec) loc plain msg (g : AwsCredentials → StorageConf) :
  (∀ creds, conf_location (g creds) = loc ∧ conf_keys (g creds) = (ak_AccessKeyID creds, ak_SecretAccessKey creds)) →
  ensures (delete_credentials ns (bu_CredentialsSecret b) msg) (λ creds, as_written ns b loc plain
    (λ secret, (data secret AWSAccessKeySecretKey, data secret AWSSecretAccessKeySecretKey)) (g creds)).
Proof using Hsecrets.
  intros Hg. unfold delete_credentials. case_bool_decide as Hc.
  - apply ensures_ret. split; [apply Hg|]. rewrite bool_decide_eq_true_2 by done. by destruct (Hg noAwsCredentials) as [_ ->].
  - apply as_written_secret; [done|]. intros secret _. apply ensures_ret. destruct (Hg (aws_credentials secret)) as [-> ->].
    done.
Qed.
Lemma deleted (c : option BackupCluster) (cr : PerconaServerMongoDBBackup) stg :
  bs_Storage (bk_Status cr) = Some (storage_destination stg).1 →
  ensures (getPBMStorage c cr) (agrees (bk_Namespace cr) stg).
Proof using Hsecrets.
  intros Hst. unfold getPBMStorage. rewrite Hst.
  unfold agrees, stg_location, stg_bucket, plain_secret, secret_keys, storage_destination.
  destruct (stg_Type stg); cbn [fst]; try apply ensures_throw.
  - eapply ensures_bind.
    + apply (delete_credentials_written _ (stg_S3 stg)
        (bu_EndpointURL (stg_S3 stg), bu_Bucket (stg_S3 stg), bu_Prefix (stg_S3 stg)) (λ secret, is_Some (secret !! AWSAccessKeySecretKey)) _
        (λ creds, ConfS3 (s3_config (stg_S3 stg) None creds None None))). intros; by split.
    + intros creds H. apply ensures_then. intros sse. by apply ensures_ret.
  - case_bool_decide as Hc.
    + apply ensures_ret. split; [done|]. by rewrite bool_decide_eq_true_2.
    + apply (as_written_secret _ _ _ _ _ _ _ id); [done|]. intros secret _. by place.
  - case_bool_decide as Hc; [apply ensures_throw|].
    apply (as_written_secret _ _ _ _ _ _ _ id); [done|]. intros secret _. by place.
  - eapply ensures_bind.
    + apply (delete_credentials_written _ (stg_Minio stg)
        (bu_EndpointURL (stg_Minio stg), bu_Bucket (stg_Minio stg), bu_Prefix (stg_Minio stg)) (λ _, True) _
        (λ creds, ConfMinio (minio_config (stg_Minio stg) false creds))). intros; by split.
    + intros creds H. by apply ensures_ret.
  - case_bool_decide as Hc; [apply ensures_throw|].
    apply (as_written_secret _ _ _ _ _ _ _ id); [done|]. intros secret _. by place.
Qed.

(** C36: A backup's files are deleted where they were written.  When PBM is gone,
    the storage the deletion opens for a backup whose status names a storage of
    the cluster has the endpoint, bucket and prefix of the configuration PBM was
    given for that storage, and signs with the same keys if the storage has no
    credentials secret or its secret names its keys in the way both read. *)
Theorem deletion_uses_backup_storage cluster cr stg w1 conf w1' w2 conf' w2' :
  bk_Namespace cr = cr_Namespace cluster → bs_Storage (bk_Status cr) = Some (storage_destination stg).1 →
  GetPBMStorageConfig cluster stg w1 = (Ok conf, w1') →
  getPBMStorage (Some cluster) cr w2 = (Ok conf', w2') →
  conf_location conf' = conf_location conf ∧
  (bu_CredentialsSecret (stg_bucket stg) = "" ∨
     (∀ secret, secrets (cr_Namespace cluster) (bu_CredentialsSecret (stg_bucket stg)) = Ok secret → plain_secret stg secret) →
   conf_keys conf' = conf_keys conf).
Proof using Hsecrets.
  intros Hns Hst Hw Hd.
  assert (deletable stg = true) as Hdel.
  { unfold getPBMStorage in Hd. rewrite Hst in Hd. unfold storage_destination, deletable in *.
    by destruct (stg_Type stg). }
  pose proof (written cluster stg Hdel w1) as H1. rewrite Hw in H1. destruct H1 as [Hl1 Hk1].
  pose proof (deleted (Some cluster) cr stg Hst w2) as H2. rewrite Hd in H2. destruct H2 as [Hl2 Hk2].
  rewrite Hns in Hk2. split; [congruence|]. intros Hp. case_bool_decide as Hc; [congruence|].
  destruct Hp as [Hp|Hp]; [done|]. destruct Hk1 as (s1 & Hs1 & Hk1), Hk2 as (s2 & Hs2 & Hk2).
  rewrite Hk1, Hk2 by auto. congruence.
Qed.
End deletion_place.

(** ** A storage with a secret *)
Definition key_secret : gmap string string :=
  {[ AWSAccessKeySecretKey := "id"; AWSSecretAccessKeySecretKey := "key" ]}.
Definition s3_with_secret : BackupStorageSpec :=
  let b := {| bu_Bucket := "backups"; bu_Prefix := "c"; bu_EndpointURL := ""; bu_CredentialsSecret := "s3" |} in
  {| stg_Type := BackupStorageS3; stg_Main := true;
     stg_S3 := {| s3_bucket := b; s3_Region := ""; s3_UploadPartSize := 0; s3_MaxUploadParts := 0;
       s3_StorageClass := ""; s3_InsecureSkipTLSVerify := false; s3_ForcePathStyle := None; s3_Retryer := None;
       s3_SSE := s3_SSE (stg_S3 a_storage) |};
     stg_Minio := stg_Minio a_storage; stg_GCS := stg_GCS a_storage; stg_Azure := b; stg_OSS := stg_OSS a_storage;
     stg_OCI := stg_OCI a_storage; stg_Filesystem := stg_Filesystem a_storage |}.
(** A backup that was written to it *)
Definition stored_backup : PerconaServerMongoDBBackup :=
  with_status (requested "s3" "b" 0 [] (Some (storage_destination s3_with_secret))) (a_backup "b" BackupStateReady 0).

Lemma deletion_uses_backup_storage_witness :
  let run := getPBMStorage (K := secret_k8s unit key_secret) (Some a_backup_cluster) stored_backup tt in
  ∃ conf', run.1 = Ok conf' ∧ conf_location conf' = ("", "backups", "c") ∧ conf_keys conf' = ("id", "key").
Proof.
  cbv zeta. eexists. split; [reflexivity|].
  destruct (deletion_uses_backup_storage (K := secret_k8s unit key_secret) (V := always_newer) (VP := λ _, true)
    (λ _ _, Ok key_secret) (λ _ _ _, eq_refl) a_backup_cluster stored_backup s3_with_secret tt _ tt tt _ tt
    eq_refl eq_refl eq_refl eq_refl) as [Hl Hk].
  split; [exact Hl|]. apply Hk. right. intros secret [= <-]. by exists "id".
Defined.

(** With a connection string the two ways differ: PBM writes to the account the
    string names, and the deletion looks in another. *)
Definition azure_secret : gmap string string :=
  {[ AzureStorageConnectionStringSecretKey := "AccountName=prod;AccountKey=a2V5==" ]}.
Definition azure_storage : BackupStorageSpec :=
  {| stg_Type := BackupStorageAzure; stg_Main := true; stg_S3 := stg_S3 a_storage; stg_Minio := stg_Minio a_storage;
     stg_GCS := stg_GCS a_storage; stg_Azure := stg_Azure s3_with_secret; stg_OSS := stg_OSS a_storage;
     stg_OCI := stg_OCI a_storage; stg_Filesystem := stg_Filesystem a_storage |}.
Example azure_connection_string_lost :
  conf_keys <$> (GetPBMStorageConfig (K := secret_k8s unit azure_secret) (V := always_newer) (VP := λ _, true)
                   a_backup_cluster azure_storage tt).1 = Ok ("prod", "a2V5==") ∧
  conf_keys <$> (getPBMStorage (K := secret_k8s unit azure_secret) (Some a_backup_cluster)
     (with_status (requested "az" "b" 0 [] (Some (storage_destination azure_storage)))
        (a_backup "b" BackupStateReady 0)) tt).1 = Ok ("", "").
Proof. split; reflexivity. Qed.
