(* ===== verification/BackupController.v ===== *)
(** The controller of PerconaServerMongoDBBackup resources
    (pkg/controller/perconaservermongodbbackup): [Reconcile], the start of a
    backup under the cluster's lock, cancellation and the finalizers, with
    [HasActiveJobs] of pkg/psmdb/backup.

    A run of [Reconcile] reads the backup once, and writes its status through
    [updateStatus].  The deferred functions of the source run here after the
    body, in the same order.  A panic passes through every handler ([catchM]),
    as no handler of the controller recovers. *)
From S2P Require Import Prelude ReplsetModels Api Kube Hosts GoSort BackupApi Lease BackupExec PbmConfig.

Definition defaultBackoff : nat := 6.           (* Steps *)
Definition updateStatusBackoff : nat := 6.

(** Exec in a pod's container ([clientcmd.Exec]), and the storages of a backup
    opened without PBM ([s3.New], ..., [DeleteBackupFiles]). *)
Class BackupFiles (W : Type) := {
  files_exec : Pod → string → list string → GoM W unit;
  files_open : StorageConf → GoM W unit;
  files_delete : StorageConf → string → GoM W unit
}.

(** The executor of a backup; [None] is an executor without PBM. *)
Inductive backupExecutor :=
| managedBackups (spec : option BackupSpec)
| snapshotBackups (spec : option BackupSpec).
Definition exec_spec (b : backupExecutor) : option BackupSpec :=
  match b with managedBackups s | snapshotBackups s => s end.
Definition exec_has_pbm (b : backupExecutor) : bool :=
  match exec_spec b with Some _ => true | None => false end.

(** [reconcile.Result]: after how many nanoseconds to come back, 0 for not *)
Record Result := { RequeueAfter : Z }.
Definition noRequeue : Result := {| RequeueAfter := 0 |}.
Abbreviation reply := (Result * option error)%type.

Section controller.
Context {W : Type} {KB : BackupClient W} {P : PBM W} {SC : SnapshotClient W} {E : BackupEnv W}.
Context {L : LeaseClient W} {K : K8sClient W} {F : BackupFiles W}.
Context {V : Versions} {O : MapOrder} {G : GoSort} {H : Md5} {R : GoRetryOn}.
Context (reconcileIn : Z).
Abbreviation M := (GoM W).
Implicit Types (cluster : BackupCluster) (cr : PerconaServerMongoDBBackup).

(** * Other jobs of the cluster *)
Definition IsErrNoDocuments (e : error) : bool := is_kind KNoDocuments e.

Definition restore_active cluster (r : PerconaServerMongoDBRestore) : bool :=
  bool_decide (r_ClusterName r = cr_Name cluster)
  && negb (bool_decide (r_State r = RestoreStateReady) || bool_decide (r_State r = RestoreStateError)
           || bool_decide (r_State r = RestoreStateWaiting)).

Definition own_restore (current : Job) (r : PerconaServerMongoDBRestore) : bool :=
  bool_decide (r_Name r = job_Name current) &&
  match job_Type current with TypeRestore | TypePITRestore => true | TypeBackup => false end.

Definition HasActiveJobs cluster (current : Job) (allowLock : Lock → bool) : M bool :=
  rstrs ← wrapM "get restore list" (api_list_restores (cr_Namespace cluster));
  if existsb (λ r, negb (own_restore current r) && restore_active cluster r) rstrs then mret true
  else if negb (b_Enabled (bc_Backup cluster)) then mret false
  else
    n ← catchM (newPBM cluster);
    match n with
    | Err e => if IsErrNoDocuments e then mret false else throw (EWrap e "getting PBM object")
    | Ok _ =>
        deferM pbm_Close
          (wrapM "check PBM locks" (hasLocks false (λ l, allowLock l && NotJobLock current l)))
    end.

(** * The status and the lease *)
Definition updateStatus cr : M unit :=
  r ← catchM (retry_on updateStatusBackoff (is_kind KConflict)
    (c ← api_get_backup (bk_Namespace cr) (bk_Name cr);
     api_update_backup_status (with_status (bk_Status cr) c)));
  match r with
  | Ok _ => mret tt
  | Err e => if IsNotFound e then mret tt else throw (EWrap e "write status")
  end.

Definition runReleaseLockFinalizer cr : M unit :=
  r ← catchM (ReleaseLease (BackupLeaseName (bsp_ClusterName (bk_Spec cr))) (bk_Namespace cr)
                (BackupHolderId cr));
  match r with
  | Ok _ => mret tt
  | Err e =>
      if IsNotFound e || bool_decide (err_cause e = ErrNotTheHolder) then mret tt
      else throw (EWrap e "release backup lock")
  end.

Definition fresh_backup cr : bool :=
  bool_decide (bk_State cr = BackupStateNew) || bool_decide (bk_State cr = BackupStateWaiting).

Definition checkClusterSyncLease cr cluster : M bool :=
  if negb (fresh_backup cr) then mret false
  else
    active ← wrapM "check clustersync lease"
      (IsLeaseActive (ClusterSyncLeaseName (cr_Name cluster)) (bk_Namespace cr));
    if negb active then mret false
    else
      (if bool_decide (bs_WaitingReason (bk_Status cr) = BackupWaitingReasonClusterSync) then mret tt
       else be_event "ClusterSyncActive");;
      mret true.

(** Whether the backup that holds the lease has ended, or is gone *)
Definition holder_done (backups : list PerconaServerMongoDBBackup) (holder : string) : bool :=
  match find (λ b, bool_decide (BackupHolderId b = holder)) backups with
  | Some b => backupStateTerminal (bk_State b)
  | None => true
  end.
Definition checkStale cr (lease : Lease) : M bool :=
  match lease_holder lease with
  | None => mret true
  | Some holder =>
      backups ← wrapM "list backups" (api_list_backups (bk_Namespace cr) (SelectorFromSet ∅));
      mret (holder_done backups holder)
  end.

Definition tryAcquireLease cr cluster : M bool :=
  if negb (fresh_backup cr) then mret true
  else
    let holderID := BackupHolderId cr in
    r ← catchM (AcquireLease (BackupLeaseName (cr_Name cluster)) (bk_Namespace cr) holderID
                  (Some (checkStale cr)));
    match r with
    | Err e =>
        if bool_decide (err_cause e = ErrLeaseAlreadyHeld) || is_kind KAlreadyExists e
           || is_kind KConflict e
        then mret false
        else throw (EWrap e "acquire backup lock")
    | Ok lease =>
        mret (match l_HolderIdentity lease with
              | Some h => bool_decide (h = holderID)
              | None => true
              end)
    end.

Definition ensureReleaseLockFinalizer cr : M PerconaServerMongoDBBackup :=
  if bool_decide (FinalizerReleaseLock ∈ bk_Finalizers cr) then mret cr
  else
    let finalizers := bk_Finalizers cr ++ [FinalizerReleaseLock] in
    wrapM "patch finalizers" (api_patch_finalizers cr finalizers);;
    mret (with_finalizers finalizers cr).

(** * Starting and following a backup *)
Definition newBackupExecutor (cluster : option BackupCluster) cr : M backupExecutor :=
  let new (msg : string) : M (option BackupSpec) :=
    match cluster with
    | None => mret None
    | Some c => wrapM msg (wrapM "create pbm object" (newPBM c));; mret (Some (bc_Backup c))
    end in
  if bool_decide (bsp_Type (bk_Spec cr) = ExternalBackup)
     && negb (bool_decide (default "" (bsp_VolumeSnapshotClass (bk_Spec cr)) = ""))
  then s ← new "create snapshot backup object"; mret (snapshotBackups s)
  else s ← new "create backup object"; mret (managedBackups s).

(** The executor's methods.  Without PBM its interface is nil; the storages of
    an empty specification are a nil map. *)
Definition exec_Start (b : backupExecutor) cluster cr : M outcome :=
  match b with
  | managedBackups (Some spec) => managed_Start spec cluster cr
  | managedBackups None =>
      mret (zeroStatus, Some (ENew ("unable to get storage '" +:+ bsp_StorageName (bk_Spec cr) +:+ "'")))
  | snapshotBackups (Some _) => snapshot_Start cluster cr
  | snapshotBackups None => throw nil_panic
  end.
Definition exec_Status (b : backupExecutor) cluster cr : M outcome :=
  match b with
  | managedBackups (Some _) => managed_Status cluster cr
  | snapshotBackups (Some _) => snapshot_Status cluster cr
  | managedBackups None | snapshotBackups None => throw nil_panic
  end.

(** Any error is retried, but a panic is not an error. *)
Definition any_error (e : error) : bool := negb (is_panic e).

Definition retry_newBackupExecutor (cluster : option BackupCluster) cr : M backupExecutor := λ w,
  let once : GoM (backupExecutor * W) unit := λ bw,
    match newBackupExecutor cluster cr bw.2 with
    | (Ok b, w') => (Ok tt, (b, w'))
    | (Err e, w') => (Err e, (bw.1, w'))
    end in
  let '(r, (b, w')) := retry_on defaultBackoff any_error once (managedBackups None, w) in
  (match r with Ok _ => Ok b | Err e => Err e end, w').

(** [status] is the variable the retried function assigns. *)
Definition retry_Status (b : backupExecutor) cluster cr (status : PerconaServerMongoDBBackupStatus)
    : M outcome := λ w,
  let once : GoM (PerconaServerMongoDBBackupStatus * W) unit := λ sw,
    match exec_Status b cluster cr sw.2 with
    | (Ok (st, None), w') => (Ok tt, (st, w'))
    | (Ok (st, Some e), w') => (Err e, (st, w'))
    | (Err e, w') => (Err e, (sw.1, w'))
    end in
  let '(r, (st, w')) := retry_on defaultBackoff any_error once (status, w) in
  match r with
  | Ok _ => (Ok (st, None), w')
  | Err e => if is_panic e then (Err e, w') else (Ok (st, Some e), w')
  end.

Definition waiting (reason : BackupWaitingReason) (status : PerconaServerMongoDBBackupStatus) : outcome :=
  (set_WaitingReason reason (set_State BackupStateWaiting status), None).

Definition reconcile (cluster : option BackupCluster) cr (b : backupExecutor) : M outcome :=
  let status := bk_Status cr in
  match cluster with
  | None => mret (status, Some (ENew "cluster not found"))
  | Some cluster =>
      match CanBackup cluster with
      | Err _ => mret (status, None)
      | Ok _ =>
          cjobs ← catchM (HasActiveJobs cluster (NewBackupJob (bk_Name cr)) NotPITRLock);
          match cjobs with
          | Err e => mret (status, Some (EWrap e "check for concurrent jobs"))
          | Ok true => mret (waiting BackupWaitingReasonConcurrentJob status)
          | Ok false =>
              blocked ← catchM (checkClusterSyncLease cr cluster);
              match blocked with
              | Err e => mret (status, Some e)
              | Ok true => mret (waiting BackupWaitingReasonClusterSync status)
              | Ok false =>
                  let status := set_WaitingReason NotWaiting status in
                  acquired ← catchM (tryAcquireLease cr cluster);
                  match acquired with
                  | Err e => mret (status, Some e)
                  | Ok false => mret (waiting BackupWaitingReasonBackupLease status)
                  | Ok true =>
                      f ← catchM (ensureReleaseLockFinalizer cr);
                      match f with
                      | Err e => mret (status, Some (EWrap e ("ensure " +:+ FinalizerReleaseLock +:+ " finalizer")))
                      | Ok cr' =>
                          if fresh_backup cr then exec_Start b cluster cr'
                          else retry_Status b cluster cr' status
                      end
                  end
              end
          end
      end
  end.

(** * The starting deadline *)
Definition checkStartingDeadline (cluster : option BackupCluster) cr : M unit :=
  if negb (bool_decide (bk_State cr = BackupStateNew)) then mret tt
  else
    deadlineSeconds ←
      match bsp_StartingDeadlineSeconds (bk_Spec cr), cluster with
      | Some s, _ => mret (Some s)
      | None, Some c => mret (b_StartingDeadlineSeconds (bc_Backup c))
      | None, None => throw nil_panic
      end;
    match deadlineSeconds with
    | None => mret tt
    | Some s =>
        now ← go_now;
        if (Sub now (bk_CreationTimestamp cr) <? s * second)%Z then mret tt
        else throw (ENew "starting deadline seconds exceeded")
    end.

(** * Cancellation *)
Definition reconcileCancellation cr : M reply :=
  let result := {| RequeueAfter := reconcileIn |} in
  first ←
    (if bool_decide (bk_State cr = BackupStateCanceling) then mret (Ok cr)
     else
       now ← go_now;
       let cr := with_status (set_LastTransition (Some now)
                   (set_State BackupStateCanceling (bk_Status cr))) cr in
       u ← catchM (updateStatus cr);
       mret (match u with Ok _ => Ok cr | Err e => Err e end));
  match first with
  | Err e => mret (noRequeue, Some e)
  | Ok cr =>
      c ← cancelBackup (with_status (set_Error "" (bk_Status cr)) cr);
      let '(cr, err) := c : PerconaServerMongoDBBackup * option error in
      let cr := match err with
                | None => cr
                | Some e => with_status (set_Error (err_string e)
                              (set_State BackupStateCanceling (bk_Status cr))) cr
                end in
      u ← catchM (updateStatus cr);
      match u with
      | Err e => mret (noRequeue, Some e)
      | Ok _ =>
          if negb (backupStateTerminal (bk_State cr)) then mret (result, err)
          else
            r ← catchM (runReleaseLockFinalizer cr);
            match r with
            | Err e => mret (noRequeue, Some e)
            | Ok _ => mret (if bk_Deleting cr then result else noRequeue, None)
            end
      end
  end.

(** * Finalizers *)
Fixpoint deleteVolumeSnapshots_loop (ns : string) (l : list SnapshotInfo) : M unit :=
  match l with
  | [] => mret tt
  | s :: l' =>
      r ← catchM (snapshot_delete ns (sn_SnapshotName s));
      match IgnoreNotFound r with
      | Some e => throw (EWrap e "delete volume snapshot")
      | None => deleteVolumeSnapshots_loop ns l'
      end
  end.
Definition deleteVolumeSnapshots cr : M unit :=
  deleteVolumeSnapshots_loop (bk_Namespace cr) (bs_Snapshots (bk_Status cr)).

Definition deleteFilesystemBackup cluster cr : M unit :=
  match bs_ReplsetNames (bk_Status cr) with
  | [] => throw index_panic
  | rsName :: _ =>
      rsPods ← wrapM ("get " +:+ rsName +:+ " pods") (GetRSPods cluster rsName);
      match rsPods with
      | [] => throw index_panic
      | pod :: _ =>
          wrapM "exec delete-backup"
            (files_exec pod "backup-agent" ["pbm"; "delete-backup"; bs_PBMname (bk_Status cr); "--yes"])
      end
  end.

(** PBM's metadata of the backup, if PBM is there and has any *)
Definition backup_meta cr (b : backupExecutor) : M (option BackupMeta) :=
  if negb (exec_has_pbm b) then mret None
  else
    r ← catchM (pbm_GetBackupMeta (bs_PBMname (bk_Status cr)));
    match r with
    | Ok meta => mret meta
    | Err e => if IsPBMNotFound e then mret None else throw (EWrap e "get backup meta")
    end.

(** The backup's files, deleted without PBM *)
Definition delete_without_pbm (cluster : option BackupCluster) cr : M unit :=
  if (0 <? length (bs_Snapshots (bk_Status cr)))%nat then deleteVolumeSnapshots cr
  else
    stg ← wrapM "get storage" (c ← getPBMStorage cluster cr; files_open c;; mret c);
    wrapM "failed to delete backup files with dummy PBM"
      (files_delete stg (bs_PBMname (bk_Status cr))).

Definition delete_with_pbm cluster cr (meta : BackupMeta) : M unit :=
  let status := bk_Status cr in
  let chunks : M unit :=
    wrapM "failed to delete PITR" (pbm_DeletePITRChunks (meta_LastWriteTS meta)) in
  let all : M unit := wrapM "failed to delete backup" (pbm_DeleteBackup (bs_PBMname status)) in
  let rest : M unit :=
    if (CompareVersion cluster "1.20.0" <? 0)%Z then chunks;; all
    else
      main ← wrapM "get main storage" (liftR (MainStorage (bc_Backup cluster)));
      (if bool_decide (main.1 = bs_StorageName status) then chunks else mret tt);;
      all in
  match bs_Storage status with
  | Some (RefFilesystem _) => wrapM "delete filesystem backup" (deleteFilesystemBackup cluster cr)
  | Some (RefS3 _) | Some (RefMinio _) | Some (RefAzure _) | Some (RefOSS _) => rest
  | _ =>
      if (0 <? length (bs_Snapshots status))%nat then
        wrapM "delete volume snapshots" (deleteVolumeSnapshots cr);;
        wrapM "delete backup meta" (pbm_DeleteBackupMeta (bs_PBMname status))
      else rest
  end.

Definition deleteBackupFinalizer (cluster : option BackupCluster) cr (b : backupExecutor) : M unit :=
  if bool_decide (bs_PBMname (bk_Status cr) = "") then mret tt
  else if bool_decide (bsp_Type (bk_Spec cr) = IncrementalBackup) then mret tt
  else
    meta ← backup_meta cr b;
    match meta with
    | None => delete_without_pbm cluster cr
    | Some meta =>
        match cluster with
        | None => throw (ENew ("PerconaServerMongoDB " +:+ GetClusterName (bk_Spec cr) +:+ " is not found"))
        | Some cluster => delete_with_pbm cluster cr meta
        end
    end.

Definition is_delete_finalizer (f : string) : bool :=
  bool_decide (f = "delete-backup") || bool_decide (f = FinalizerDeleteBackup).

(** The finalizers that failed and stay *)
Fixpoint run_finalizers (cluster : option BackupCluster) cr (b : backupExecutor) (l kept : list string)
    : M (list string) :=
  match l with
  | [] => mret kept
  | f :: l' =>
      let run (m : M unit) : M (list string) :=
        r ← catchM m;
        run_finalizers cluster cr b l' (match r with Ok _ => kept | Err _ => kept ++ [f] end) in
      if is_delete_finalizer f then
        if bool_decide (bk_State cr = BackupStateReady) then run (deleteBackupFinalizer cluster cr b)
        else run_finalizers cluster cr b l' kept
      else if bool_decide (f = FinalizerReleaseLock) then run (runReleaseLockFinalizer cr)
      else run_finalizers cluster cr b l' kept
  end.

Definition checkFinalizers cr (cluster : option BackupCluster) (b : backupExecutor) : M unit :=
  if negb (bk_Deleting cr) then mret tt
  else
    finalizers ← run_finalizers cluster cr b (bk_Finalizers cr) [];
    api_update_backup (with_finalizers finalizers cr).

(** [client.Get] of the cluster, with a missing cluster told apart *)
Definition get_cluster cr (get : string → string → M BackupCluster) : M (result (option BackupCluster)) :=
  r ← catchM (get (bk_Namespace cr) (GetClusterName (bk_Spec cr)));
  mret (match (r : result BackupCluster) with
        | Ok c => Ok (Some c)
        | Err e =>
            if IsNotFound e then Ok None
            else Err (EWrap e ("get cluster " +:+ bk_Namespace cr +:+ "/" +:+ GetClusterName (bk_Spec cr)))
        end).

(** The defaults are set if the platform is known and the resource valid; the
    failures are only logged. *)
Definition try_defaults (cluster : option BackupCluster) : M (option BackupCluster) :=
  match cluster with
  | None => mret None
  | Some c =>
      p ← catchM be_platform;
      mret (match p with
            | Ok platform => match be_CheckNSetDefaults c platform with Ok c' => Some c' | Err _ => Some c end
            | Err _ => Some c
            end)
  end.

Definition reconcileDelete cr : M reply :=
  let rr := {| RequeueAfter := 5 * second |} in
  c ← get_cluster cr api_get_cluster;
  match c with
  | Err e => mret (rr, Some e)
  | Ok cluster =>
      cluster ← try_defaults cluster;
      n ← catchM (newBackupExecutor cluster cr);
      let b := match n with Ok b => b | Err _ => managedBackups None end in
      let run : M reply :=
        r ← catchM (checkFinalizers cr cluster b);
        mret (rr, match r with Ok _ => None | Err e => Some (EWrap e "failed to run finalizer") end) in
      if exec_has_pbm b then deferM pbm_Close run else run
  end.

(** * Reconcile *)

(** The function deferred by [Reconcile]: records an error in the status, and
    writes the status if it changed. *)
Definition final_status (o : outcome) : PerconaServerMongoDBBackupStatus :=
  match o.2 with
  | None => o.1
  | Some e =>
      set_Error (err_string e)
        (if bool_decide (bs_State o.1 = BackupStateCanceling) then o.1
         else set_State BackupStateError o.1)
  end.
Definition status_changed (old new : PerconaServerMongoDBBackupStatus) : bool :=
  negb (bool_decide (bs_State old = bs_State new) && bool_decide (bs_Error old = bs_Error new)
        && bool_decide (bs_WaitingReason old = bs_WaitingReason new)
        && bool_decide (bs_Snapshots old = bs_Snapshots new)).
Definition write_status cr (o : outcome) : M unit :=
  let status := final_status o in
  if negb (status_changed (bk_Status cr) status) then mret tt
  else
    let cr := with_status status cr in
    u ← catchM (updateStatus cr);
    match u with
    | Err _ => mret tt
    | Ok _ =>
        if backupStateTerminal (bs_State status) then
          _ ← catchM (ReleaseLease (BackupLeaseName (bsp_ClusterName (bk_Spec cr))) (bk_Namespace cr)
                        (BackupHolderId cr));
          mret tt
        else mret tt
    end.

(** A deferred function runs when the body panics, too; then the panic goes on. *)
Definition on_panic {A} (deferred : M unit) (m : M A) : M A := λ w,
  match m w with
  | (Err e, w') =>
      if is_panic e then let '(r, w') := deferred w' in (match r with Ok _ => Err e | Err e' => Err e' end, w')
      else (Err e, w')
  | r => r
  end.

(** The body after the backup was read: what it returns, the backup with its
    defaults, and what the deferred function sees of the status and the error.
    Without a cluster, reading its deadline is a panic, at which the error the
    deferred function sees is still that of the reading of the cluster.  At any
    later panic it sees no error and the status as it was, and writes nothing. *)
Definition run_backup cr : M (reply * (PerconaServerMongoDBBackup * outcome)) :=
  let rr := {| RequeueAfter := reconcileIn |} in
  let status := bk_Status cr in
  let failed cr (res : Result) (msg : error → error) (e : error)
      : M (reply * (PerconaServerMongoDBBackup * outcome)) :=
    mret ((res, Some (msg e)), (cr, (status, Some e))) in
  let same (e : error) := e in
  match CheckFields cr with
  | Err e => failed cr rr (λ e, EWrap e "fields check") e
  | Ok cr =>
      r ← catchM (api_get_cluster (bk_Namespace cr) (GetClusterName (bk_Spec cr)));
      match (match (r : result BackupCluster) with
             | Ok c => Ok (Some c, None)
             | Err e => if IsNotFound e then Ok (None, Some e) else Err e
             end) with
      | Err e => failed cr rr (λ e, EWrap e ("get cluster " +:+ bk_Namespace cr +:+ "/" +:+
                                             GetClusterName (bk_Spec cr))) e
      | Ok (cluster, err) =>
          d ← on_panic (write_status cr (status, err)) (catchM (checkStartingDeadline cluster cr));
          match d with
          | Err e => failed cr noRequeue same e
          | Ok _ =>
              let go_on (cluster : option BackupCluster)
                  : M (reply * (PerconaServerMongoDBBackup * outcome)) :=
                n ← catchM (retry_newBackupExecutor cluster cr);
                match n with
                | Err e => failed cr rr same e
                | Ok b =>
                    let body : M outcome := reconcile cluster cr b in
                    o ← (if exec_has_pbm b then deferM pbm_Close body else body);
                    mret ((rr, (λ e, EWrap e "reconcile backup") <$> o.2), (cr, o))
                end in
              match cluster with
              | None => go_on None
              | Some c =>
                  p ← catchM be_platform;
                  match p with
                  | Err e => failed cr rr (λ e, EWrap e "fetch server version") e
                  | Ok platform =>
                      match be_CheckNSetDefaults c platform with
                      | Err e => failed cr noRequeue (λ e, EWrap e "invalid cr oprions used") e
                      | Ok c => go_on (Some c)
                      end
                  end
              end
          end
      end
  end.

Definition Reconcile (namespace name : string) : M reply :=
  let rr := {| RequeueAfter := reconcileIn |} in
  r ← catchM (api_read_backup namespace name);
  match (r : result PerconaServerMongoDBBackup) with
  | Err e => if IsNotFound e then mret (noRequeue, None) else mret (rr, Some e)
  | Ok cr =>
      let terminal := backupStateTerminal (bk_State cr) in
      if negb terminal && cancellationRequested cr then reconcileCancellation cr
      else if terminal && negb (bk_Deleting cr) then
        r ← catchM (runReleaseLockFinalizer cr);
        mret (match r with Ok _ => (noRequeue, None) | Err e => (rr, Some e) end)
      else if bk_Deleting cr then reconcileDelete cr
      else
        x ← run_backup cr;
        write_status x.2.1 x.2.2;;
        mret x.1
  end.
End controller.
