(* ===== verification/BackupTrace.v ===== *)
(** What a run of the backup controller does, as a trace: the handlers of
    BackupController run over a world paired with the list of the calls they
    made, and the theorems say which calls are allowed after which. *)
From S2P Require Import Prelude Trace KubeTrace ReplsetModels Api Kube Hosts GoSort BackupApi Lease BackupExec PbmConfig.
From S2P Require Import BackupController.

(** * Traces *)
Inductive event :=
| Read (cr : PerconaServerMongoDBBackup)           (* the backup, from the API server *)
| Restores (l : list PerconaServerMongoDBRestore)  (* the restores of the namespace *)
| LeaseSeen (name : string) (r : result Lease)     (* a lease read *)
| Acquired (name : string) (lease : Lease)         (* a lease created or updated *)
| LeaseDeleted (lease : Lease)                     (* a lease's deletion, tried *)
| Sent (cmd : BackupCmd)                           (* a command for PBM *)
| Wrote (b : PerconaServerMongoDBBackup) (ok : bool)   (* a write of the status *)
| Gone                                             (* the backup is not there any more *)
| Erased                                           (* a backup's data or metadata deleted *)
| SnapDeleted (ns name : string)                   (* a volume snapshot's deletion, tried *)
| ReadCluster (c : BackupCluster)                  (* the cluster, before its defaults *)
| Clock (now : time)
| NoPbm                                            (* PBM is not there: no document in its database *)
| Locks (l : list Lock) | OpLocks (l : list Lock)  (* the locks of PBM *)
| Metadata (m : BackupMeta).                       (* what PBM says of the backup *)

(** [or_fail] of the executors *)
Lemma only_or_fail {Ev W A} (P : Ev → Prop) st msg (m : GoM (list Ev * W) A) k :
  only P m → (∀ a, only P (k a)) → only P (or_fail st msg m k).
Proof.
  intros Hm Hk. apply only_bind; [by apply only_try|]. intros [a|e]; [apply Hk|apply only_ret].
Qed.
Ltac only_extra ::= apply only_or_fail; [|intros ?].

(** * The calls that leave an event *)
Section traced.
Context {W : Type} {KB : BackupClient W} {P : PBM W} {SC : SnapshotClient W} {E : BackupEnv W}.
Context {L : LeaseClient W} {K : K8sClient W} {F : BackupFiles W}.
Abbreviation T := (list event * W)%type.

Definition on_read (r : result PerconaServerMongoDBBackup) : list event :=
  match r with Ok cr => [Read cr] | Err _ => [] end.
Definition on_gone {A} (r : result A) : list event :=
  match r with Ok _ => [] | Err e => if IsNotFound e then [Gone] else [] end.

#[export] Instance traced_backups : BackupClient T := {|
  api_get_cluster := λ a b,
    recorded (λ r, match r with Ok c => [ReadCluster c] | Err _ => [] end) (api_get_cluster a b);
  api_read_cluster := λ a b, quietly (api_read_cluster a b);
  api_get_backup := λ a b, recorded on_gone (api_get_backup a b);
  api_read_backup := λ a b, recorded on_read (api_read_backup a b);
  api_list_backups := λ a b, quietly (api_list_backups a b);
  api_list_restores := λ a,
    recorded (λ r, match r with Ok l => [Restores l] | Err _ => [] end) (api_list_restores a);
  api_create_backup := λ b, quietly (api_create_backup b);
  api_delete_backup := λ b, quietly (api_delete_backup b);
  api_update_backup_status := λ b,
    recorded (λ r, Wrote b (is_ok r) :: on_gone r) (api_update_backup_status b);
  api_update_backup := λ b, quietly (api_update_backup b);
  api_patch_finalizers := λ b f, quietly (api_patch_finalizers b f);
  go_now := recorded (λ r, match r with Ok t => [Clock t] | Err _ => [] end) go_now;
  go_stamp := quietly go_stamp
|}.
#[export] Instance traced_PBM : PBM T := {|
  newPBM := λ c,
    recorded (λ r, match r with Ok _ => [] | Err e => if IsErrNoDocuments e then [NoPbm] else [] end) (newPBM c);
  pbm_Close := quietly pbm_Close;
  pbm_SendCmd := λ c, recorded (λ _, [Sent c]) (pbm_SendCmd c);
  pbm_GetBackupMeta := λ n,
    recorded (λ r, match r with Ok (Some m) => [Metadata m] | _ => [] end) (pbm_GetBackupMeta n);
  pbm_Node := quietly pbm_Node;
  pbm_FinishBackup := λ n, quietly (pbm_FinishBackup n);
  pbm_CancelBackup := λ n, quietly (pbm_CancelBackup n);
  pbm_DeleteBackup := λ n, recorded (λ _, [Erased]) (pbm_DeleteBackup n);
  pbm_DeleteBackupMeta := λ n, recorded (λ _, [Erased]) (pbm_DeleteBackupMeta n);
  pbm_DeletePITRChunks := λ u, recorded (λ _, [Erased]) (pbm_DeletePITRChunks u);
  pbm_GetNSetConfigLegacy := λ c s, quietly (pbm_GetNSetConfigLegacy c s);
  pbm_GetLocks := recorded (λ r, match r with Ok l => [Locks l] | Err _ => [] end) pbm_GetLocks;
  pbm_GetOpLocks := recorded (λ r, match r with Ok l => [OpLocks l] | Err _ => [] end) pbm_GetOpLocks;
  pbm_ClusterTime := quietly pbm_ClusterTime;
  pbm_StaleFrameSec := pbm_StaleFrameSec;
  pbm_PrettySize := pbm_PrettySize
|}.
#[export] Instance traced_snapshots : SnapshotClient T := {|
  snapshot_get := λ a b, quietly (snapshot_get a b);
  snapshot_create := λ s, quietly (snapshot_create s);
  snapshot_delete := λ a b, recorded (λ _, [SnapDeleted a b]) (snapshot_delete a b)
|}.
#[export] Instance traced_env : BackupEnv T := {|
  be_platform := quietly be_platform;
  be_CheckNSetDefaults := be_CheckNSetDefaults;
  be_event := λ s, quietly (be_event s)
|}.
(** The function [CreateOrUpdate] is given runs inside of it, so what it does is
    not in the trace. *)
#[export] Instance traced_leases : LeaseClient T := {|
  lease_get := λ n ns, recorded (λ r, [LeaseSeen n r]) (lease_get n ns);
  lease_create_or_update := λ l f tw,
    recorded (λ r, match r with Ok l' => [Acquired (l_Name l) l'] | Err _ => [] end)
      (lease_create_or_update l (λ x w, let '(r, tw') := f x (tw.1, w) in (r, tw'.2))) tw;
  lease_delete := λ l, recorded (λ _, [LeaseDeleted l]) (lease_delete l);
  lease_now := quietly lease_now
|}.
#[export] Instance traced_files : BackupFiles T := {|
  files_exec := λ p c cmd, recorded (λ _, [Erased]) (files_exec p c cmd);
  files_open := λ c, quietly (files_open c);
  files_delete := λ c n, recorded (λ _, [Erased]) (files_delete c n)
|}.
End traced.

(** * The abstract controller: the traces it may leave *)

(** The life of a backup that is not being cancelled, one step per run *)
Inductive lifecycle : BackupState → BackupState → Prop :=
| life_stays s : lifecycle s s
| life_fails s : lifecycle s BackupStateError
| life_waits s : lifecycle s BackupStateWaiting
| life_requested s :
    s = BackupStateNew ∨ s = BackupStateWaiting → lifecycle s BackupStateRequested
| life_follows s s' :
    s = BackupStateRequested ∨ s = BackupStateRunning →
    s' ∈ [BackupStateRequested; BackupStateRunning; BackupStateReady; BackupStateCanceling;
          BackupStateCanceled] →
    lifecycle s s'.

Definition lease_inactive (r : result Lease) : Prop :=
  match r with Ok l => lease_holder l = None | Err e => IsNotFound e = true end.

(** No lock of PBM but those of the oplog slicer and of backups, if the cluster
    has PBM *)
Definition no_pbm_job (cluster : BackupCluster) (d : list event) : Prop :=
  b_Enabled (bc_Backup cluster) = false ∨ NoPbm ∈ d ∨
  ∃ l1 l2, Locks l1 ∈ d ∧ OpLocks l2 ∈ d ∧
    ∀ l, l ∈ l1 ++ l2 → lock_Type l = CmdPITR ∨ lock_Type l = CmdBackup.
(** A new backup is younger than its deadline, or than that of the cluster that
    was read, if there is one. *)
Definition deadline (cr : PerconaServerMongoDBBackup) (d : list event) (limit : option Z) : Prop :=
  match bsp_StartingDeadlineSeconds (bk_Spec cr) with
  | Some s => limit = Some s
  | None => ∃ c, ReadCluster c ∈ d ∧ limit = b_StartingDeadlineSeconds (bc_Backup c)
  end.
Definition in_time (cr : PerconaServerMongoDBBackup) (d : list event) : Prop :=
  bk_State cr = BackupStateNew → ∃ limit, deadline cr d limit ∧
    ∀ s, limit = Some s → ∃ now, Clock now ∈ d ∧ (Sub now (bk_CreationTimestamp cr) < s * second)%Z.
(** What was seen before a backup may be started: no restore is active in the
    cluster, PBM does nothing that counts, no cluster sync holds it, the deadline
    is not over, and the backup has its lock. *)
Definition cleared (cr : PerconaServerMongoDBBackup) (cluster : BackupCluster) `{Versions, MapOrder}
    (d : list event) : Prop :=
  CanBackup cluster = Ok tt ∧ in_time cr d ∧
  (∃ l, Restores l ∈ d ∧ existsb (restore_active cluster) l = false) ∧ no_pbm_job cluster d ∧
  (∃ r, LeaseSeen (ClusterSyncLeaseName (cr_Name cluster)) r ∈ d ∧ lease_inactive r) ∧
  (∃ l, Acquired (BackupLeaseName (cr_Name cluster)) l ∈ d ∧
        (l_HolderIdentity l = None ∨ l_HolderIdentity l = Some (BackupHolderId cr))).

(** A look that asks for nothing; a look, or the deletion of a volume snapshot *)
Definition look_event (e : event) : Prop :=
  match e with ReadCluster _ | Clock _ | NoPbm | Locks _ | OpLocks _ | Metadata _ => True | _ => False end.
Definition side_event (e : event) : Prop :=
  match e with SnapDeleted _ _ => True | e => look_event e end.
Definition check_event (e : event) : Prop :=
  match e with Restores _ | LeaseSeen _ _ | Acquired _ _ => True | e => look_event e end.
Definition write_event (s : BackupState) (e : event) : Prop :=
  match e with Wrote b _ => bk_State b = s | Gone => True | _ => False end.
Definition release_event (e : event) : Prop :=
  match e with LeaseSeen _ _ | LeaseDeleted _ => True | _ => False end.

(** The state was written, or there is no backup to write it to. *)
Definition saved (s : BackupState) (d : list event) : Prop :=
  (∃ b, Wrote b true ∈ d ∧ bk_State b = s) ∨ Gone ∈ d.
(** Writing a state, and releasing the lock if it was saved and is the last *)
Definition writes_and_releases (s : BackupState) (d : list event) : Prop :=
  ∃ dw dr, d = dw ++ dr ∧ Forall (write_event s) dw ∧ Forall release_event dr ∧
    (dr = [] ∨ backupStateTerminal s = true ∧ saved s dw).

(** A backup whose data may be deleted *)
Definition erasable (cr : PerconaServerMongoDBBackup) : Prop :=
  bk_Deleting cr = true ∧ bk_State cr = BackupStateReady ∧
  (∃ f, f ∈ bk_Finalizers cr ∧ is_delete_finalizer f = true) ∧
  bsp_Type (bk_Spec cr) ≠ IncrementalBackup ∧ bs_PBMname (bk_Status cr) ≠ "".

(** Volume snapshots go after PBM said that the backup was cancelled. *)
Definition reported_cancelled (d : list event) : Prop := ∃ m, Metadata m ∈ d ∧ meta_Status m = StatusCancelled.
Definition cleanup_reported (d : list event) : Prop :=
  ∀ d1 ns name d2, d = d1 ++ SnapDeleted ns name :: d2 → reported_cancelled d1.
(** What is done after the checks [d0]: the backup is followed, or started. *)
Inductive acted `{Versions, MapOrder} (cr : PerconaServerMongoDBBackup) (d0 : list event) : list event → Prop :=
| acted_followed d : Forall side_event d → cleanup_reported d → acted cr d0 d
| acted_started cluster cmd d :
    fresh_backup cr = true → cleared cr cluster d0 → Forall look_event d → acted cr d0 (Sent cmd :: d).
(** What deleting a backup leaves *)
Definition delete_event (cr : PerconaServerMongoDBBackup) (e : event) : Prop :=
  release_event e ∨ look_event e ∨ (e = Erased ∨ ∃ ns name, e = SnapDeleted ns name) ∧ erasable cr.

Inductive run `{Versions, MapOrder} : list event → Prop :=
| run_absent : run []
| run_ended cr d :
    backupStateTerminal (bk_State cr) = true → bk_Deleting cr = false →
    Forall release_event d → run (Read cr :: d)
| run_deleted cr d :
    backupStateTerminal (bk_State cr) = true → bk_Deleting cr = true →
    Forall (delete_event cr) d → run (Read cr :: d)
| run_cancelled cr d1 dm s d2 :
    backupStateTerminal (bk_State cr) = false → cancellationRequested cr = true →
    Forall (λ e, write_event BackupStateCanceling e ∨ look_event e) d1 → Forall side_event dm →
    cancel_outcome s → writes_and_releases s d2 →
    run (Read cr :: d1 ++ dm ++ d2)
| run_tried cr d0 d1 s d2 :
    backupStateTerminal (bk_State cr) = false → cancellationRequested cr = false →
    Forall check_event d0 → acted cr d0 d1 →
    lifecycle (bk_State cr) s → writes_and_releases s d2 →
    run (Read cr :: d0 ++ d1 ++ d2).

(** * The handlers *)
Section handlers.
Context {W : Type} {KB : BackupClient W} {P : PBM W} {SC : SnapshotClient W} {E : BackupEnv W}.
Context {L : LeaseClient W} {K : K8sClient W} {F : BackupFiles W}.
Context {V : Versions} {O : MapOrder} {G : GoSort} {H : Md5} {R : GoRetryOn} {RL : GoRetryOnLaws R}.
Abbreviation T := (list event * W)%type.
Abbreviation M := (GoM T).
Implicit Types (cluster : BackupCluster) (cr : PerconaServerMongoDBBackup).

Lemma look_side e : look_event e → side_event e.
Proof. by destruct e. Qed.
Lemma look_check e : look_event e → check_event e.
Proof. by destruct e. Qed.
Lemma only_side {A} (m : M A) : only look_event m → only side_event m.
Proof. apply only_mono, look_side. Qed.

Lemma looks_now : only look_event (go_now : M _).
Proof. solve_only. Qed.
Lemma looks_meta n : only look_event (pbm_GetBackupMeta n : M _).
Proof. apply only_recorded. intros [[]|]; by repeat constructor. Qed.
Lemma looks_newPBM c : only look_event (newPBM c : M _).
Proof. apply only_recorded. intros [|e]; [|destruct (IsErrNoDocuments e)]; by repeat constructor. Qed.
Hint Resolve looks_now looks_meta looks_newPBM : only.
Lemma looks_hasLocks active p : only look_event (hasLocks active p : M bool).
Proof. unfold hasLocks. solve_only. Qed.
Hint Resolve looks_hasLocks : only.
Lemma looks_managed_finish cr meta st : only look_event (managed_finish cr meta st : M _).
Proof. unfold managed_finish. solve_only. Qed.
Hint Resolve looks_managed_finish : only.
Lemma looks_starting_case cluster cr meta st (k : _ → M outcome) :
  (∀ s, only look_event (k s)) → only look_event (starting_case cluster cr meta st k).
Proof. intros Hk. unfold starting_case, HasBackupLock. solve_only; apply Hk. Qed.
Lemma side_cleanup cr : only side_event (cleanupCanceledSnapshots cr : M bool).
Proof.
  unfold cleanupCanceledSnapshots. generalize true. induction (map_order _) as [|[n []] l IH]; intros done0;
    cbn [cleanup_loop]; solve_only; apply IH.
Qed.
Lemma quiet_snapshot_loop bcp l done0 ss : quiet (snapshot_loop bcp l done0 ss : M _).
Proof.
  revert done0 ss; induction l as [|rs l IH]; intros done0 ss; cbn [snapshot_loop]; [apply quiet_ret|].
  unfold reconcileSnapshot. solve_quiet; apply IH.
Qed.
Hint Resolve quiet_snapshot_loop : quiet.
Lemma looks_managed_status cluster cr meta : only look_event (managed_statusFromMeta cluster cr meta : M _).
Proof.
  unfold managed_statusFromMeta. destruct meta as [m|]; [|apply only_ret]. cbv zeta.
  case_bool_decide; [apply only_ret|].
  destruct (meta_Status m); try (apply looks_starting_case; intros s); solve_only.
Qed.
(** Only PBM's report of a cancellation has the snapshots deleted. *)
Lemma looks_snapshot_status cluster cr meta :
  (∀ m, meta = Some m → meta_Status m ≠ StatusCancelled) →
  only look_event (snapshot_statusFromMeta cluster cr meta : M _).
Proof.
  intros Hm. unfold snapshot_statusFromMeta. destruct meta as [m|]; [|apply only_ret]. cbv zeta.
  case_bool_decide; [apply only_ret|].
  destruct (meta_Status m) eqn:Em; try apply only_ret; try by destruct (Hm m eq_refl).
  all: try (apply looks_starting_case; intros s; apply only_ret).
  all: unfold reconcileSnapshots, snapshot_finish; solve_only.
Qed.
Lemma side_snapshot_status cluster cr meta : only side_event (snapshot_statusFromMeta cluster cr meta : M _).
Proof.
  destruct meta as [m|]; [|by apply only_side, looks_snapshot_status].
  destruct (decide (meta_Status m = StatusCancelled)) as [Em|Hn].
  - unfold snapshot_statusFromMeta. cbv zeta. rewrite Em. pose proof (side_cleanup cr).
    case_bool_decide; [apply only_ret|]. apply only_bind; [apply only_side, looks_now|]. intros now.
    unfold snapshot_finish. solve_only.
  - apply only_side, looks_snapshot_status. by intros ? [= <-].
Qed.
Lemma cleanup_reported_looks d : Forall look_event d → cleanup_reported d.
Proof.
  intros Hd d1 ns name d2 ->. apply Forall_app in Hd as [_ Hd]. by apply Forall_cons in Hd as [[] _].
Qed.
Lemma cleanup_reported_after d0 d : reported_cancelled d0 → Forall look_event d0 → cleanup_reported (d0 ++ d).
Proof.
  intros (m & Hm & Em) H0 d1 ns name d2 Hd. apply app_eq_inv in Hd as [(k & -> & Hd)|(k & -> & Hd)].
  - apply Forall_app in H0 as [_ H0]. destruct k as [|x k].
    + exists m. by rewrite app_nil_r in Hm.
    + injection Hd as <- _. by apply Forall_cons in H0 as [[] _].
  - exists m. set_solver.
Qed.
Lemma cleanup_reported_app d d' : cleanup_reported d → cleanup_reported d' → cleanup_reported (d ++ d').
Proof.
  intros H1 H2 d1 ns name d2 Hd. apply app_eq_inv in Hd as [(k & -> & Hd)|(k & -> & Hd)].
  - destruct k as [|x k]; [|injection Hd as <- _; by eapply H1].
    cbn in Hd. destruct (H2 [] ns name d2) as (m & Hm & _); [done|]. by apply elem_of_nil in Hm.
  - destruct (H2 k ns name d2 Hd) as (m & Hm & Em). exists m. set_solver.
Qed.
Definition followed (d : list event) : Prop := Forall side_event d ∧ cleanup_reported d.
Lemma followed_looks d : Forall look_event d → followed d.
Proof.
  intros Hd. split; [|by apply cleanup_reported_looks]. eapply Forall_impl; [exact Hd|]. apply look_side.
Qed.
Lemma followed_app d d' : followed d → followed d' → followed (d ++ d').
Proof. intros [? ?] [? ?]. split; [by apply Forall_app|by apply cleanup_reported_app]. Qed.

Lemma exec_Status_emits b cluster cr : emits (exec_Status b cluster cr : M _) (λ _ d, followed d).
Proof.
  unfold exec_Status, managed_Status, snapshot_Status.
  assert (∀ k : _ → M outcome, (∀ m, only side_event (k m)) →
    (∀ meta, (∀ m, meta = Some m → meta_Status m ≠ StatusCancelled) → only look_event (k meta)) →
    emits (get_meta cr k) (λ _ d, followed d)) as Hget.
  { intros k Hs Hl. unfold get_meta. eapply emits_bind with (Q1 := λ r d,
      ∃ r', r = Ok r' ∧ d = match r' with Ok (Some m) => [Metadata m] | _ => [] end).
    - apply emits_try. eapply emits_conseq; [apply emits_recorded|]. intros r d ->. by exists r.
    - intros r d (? & [= <-] & ->). destruct r as [[m|]|e]; cbn [app].
      + destruct (decide (meta_Status m = StatusCancelled)) as [Em|Em].
        * eapply emits_conseq; [apply Hs|]. intros r d Hd. split; [by constructor|].
          apply (cleanup_reported_after [Metadata m]); [|by repeat constructor]. exists m. split; [by left|done].
        * eapply emits_conseq; [apply Hl; by intros ? [= <-]|]. intros r d Hd. apply followed_looks. by constructor.
      + eapply emits_conseq; [by apply Hl|]. intros r d Hd. by apply followed_looks.
      + case_match; [eapply emits_conseq; [by apply Hl|]; intros r d Hd; by apply followed_looks|].
        apply emits_ret. by apply followed_looks.
    - by intros e d (r & [=] & _). }
  repeat case_match; try (apply emits_throw; by apply followed_looks); apply Hget; intros;
    auto using only_side, looks_managed_status, looks_snapshot_status, side_snapshot_status.
Qed.
Lemma side_cancel_with_pbm cluster cr : only side_event (cancel_with_pbm cluster cr : M _).
Proof.
  pose proof (side_cleanup cr). unfold cancel_with_pbm. cbv zeta.
  apply only_bind; [apply only_try, only_side, looks_meta|]. intros r.
  destruct (match r with Ok m => _ | Err e => _ end) as [meta|e]; [|apply only_ret].
  apply only_bind; [case_bool_decide; [apply side_snapshot_status|apply only_side, looks_managed_status]|].
  intros [status [e|]]; [apply only_ret|]. apply only_bind.
  - apply only_try. case_match; [|apply only_ret]. unfold checkCancellationTimeout, HasBackupLock.
    pose proof (only_side _ looks_now). pose proof (λ a p, only_side _ (looks_hasLocks a p)).
    solve_only.
  - intros [st|e]; solve_only.
Qed.
Lemma side_cancelBackup cr : only side_event (cancelBackup cr : M _).
Proof.
  unfold cancelBackup. cbv zeta. pose proof (side_cleanup cr). pose proof (only_side _ looks_now).
  pose proof (λ c, only_side _ (looks_newPBM c)). pose proof side_cancel_with_pbm. solve_only.
Qed.
Lemma looks_newBackupExecutor (c : option BackupCluster) cr : only look_event (newBackupExecutor c cr : M _).
Proof. unfold newBackupExecutor. solve_only. Qed.
Lemma quiet_ensureReleaseLockFinalizer cr : quiet (ensureReleaseLockFinalizer cr : M _).
Proof. unfold ensureReleaseLockFinalizer. solve_quiet. Qed.
Lemma quiet_getPBMStorage (c : option BackupCluster) cr : quiet (getPBMStorage c cr : M _).
Proof.
  unfold getPBMStorage, delete_credentials, getSecret, s3_sse, oss_sse, deref_sse, deref_namespace.
  solve_quiet.
Qed.
Hint Resolve quiet_getPBMStorage quiet_ensureReleaseLockFinalizer quiet_GetRSPods : quiet.

Lemma looks_retry_newBackupExecutor (c : option BackupCluster) cr :
  only look_event (retry_newBackupExecutor c cr : M backupExecutor).
Proof.
  intros t w. unfold retry_newBackupExecutor. cbv zeta.
  match goal with |- context [retry_on ?n ?p ?f (?s, _)] =>
    edestruct (retry_mem (λ _, Forall look_event) n p f s) with (t := t) (w := w) as (d & Hd & Hl) end; [by constructor|..].
  - intros b0 t0 w0 d0 H0. cbn. destruct (looks_newBackupExecutor c cr t0 w0) as (d & Hd & Hl). exists d.
    destruct (newBackupExecutor c cr (t0, w0)) as [[] []]; cbn in *; by rewrite Forall_app.
  - exists d. destruct (retry_on _ _ _ _) as [r [b tw']]. by destruct r.
Qed.

(** ** Writing the status *)
Lemma updateStatus_emits cr :
  emits (updateStatus cr) (λ r d, Forall (write_event (bk_State cr)) d ∧
    (r = Ok tt → saved (bk_State cr) d)).
Proof.
  unfold updateStatus. eapply emits_bind with (Q1 := λ r d, Forall (write_event (bk_State cr)) d ∧
    match r with Ok (Ok _) => saved (bk_State cr) d | Ok (Err e) => IsNotFound e = true → Gone ∈ d
    | Err _ => True end).
  - apply emits_catch. eapply emits_conseq.
    + apply (emits_retry (write_event (bk_State cr)) (λ r d,
        match r with Ok _ => saved (bk_State cr) d | Err e => IsNotFound e = true → Gone ∈ d end)).
      * eapply emits_bind; [apply emits_recorded| |].
        -- intros c d ->. eapply emits_conseq; [apply emits_recorded|]. cbn. intros [[]|e] d ->; cbn.
           ++ split; [by repeat constructor|]. left. eexists. split; [by left|done].
           ++ destruct (IsNotFound e); (split; [by repeat constructor|]); [|done]. intros _. by right; left.
        -- intros e d ->. cbn. destruct (IsNotFound e); (split; [by repeat constructor|]); [|done].
           intros _. by left.
      * intros d0 [a|e] d Hd; [|by intros Hn%Hd; apply elem_of_app; right].
        destruct Hd as [(b & ? & ?)|?]; [left; exists b|right]; set_solver.
    + by intros [a|e] d [? ?].
  - intros [a|e] d (HF & Hs).
    + apply emits_ret. rewrite app_nil_r. by split.
    + destruct (IsNotFound e) eqn:En.
      * apply emits_ret. rewrite app_nil_r. split; [done|]. intros _. right. by apply Hs.
      * apply emits_throw. by rewrite app_nil_r.
  - intros e d (HF & _). by split.
Qed.

(** ** Leases *)
Lemma ReleaseLease_emits name ns holder :
  emits (ReleaseLease name ns holder : M unit) (λ _ d, Forall release_event d).
Proof.
  unfold ReleaseLease, GetLease. eapply emits_bind with (Q1 := λ _ d, Forall release_event d).
  - intros t w. unfold tryM. cbn. unfold recorded. cbn. destruct (lease_get _ _ w) as [r w'].
    exists [LeaseSeen name r]. split; [done|]. by repeat constructor.
  - intros [l|e] d Hd.
    + cbv zeta. destruct (match l_HolderIdentity l with Some _ => _ | None => _ end);
        [apply emits_throw; by rewrite app_nil_r|].
      eapply emits_bind with (Q1 := λ _ d, Forall release_event d).
      * intros t w. unfold tryM. cbn. unfold recorded. cbn. destruct (lease_delete _ w) as [r w'].
        exists [LeaseDeleted l]. split; [done|]. by repeat constructor.
      * intros [a|e] d' Hd'; [|destruct (_ || _)]; (apply emits_ret || apply emits_throw);
          rewrite app_nil_r; by apply Forall_app.
      * intros e d' Hd'. by apply Forall_app.
    + destruct (IsNotFound e); (apply emits_ret || apply emits_throw); by rewrite app_nil_r.
  - by intros e d Hd.
Qed.
Lemma runReleaseLockFinalizer_emits cr :
  emits (runReleaseLockFinalizer cr : M unit) (λ _ d, Forall release_event d).
Proof.
  unfold runReleaseLockFinalizer. eapply emits_bind with (Q1 := λ _ d, Forall release_event d).
  - apply emits_catch. eapply emits_conseq; [apply ReleaseLease_emits|]. by intros [] d Hd.
  - intros [a|e] d Hd; [|destruct (_ || _)]; (apply emits_ret || apply emits_throw); by rewrite app_nil_r.
  - by intros e d Hd.
Qed.

(** ** The checks before a start *)
Lemma IsLeaseActive_emits name ns :
  emits (IsLeaseActive name ns : M bool)
    (λ r d, ∃ s, d = [LeaseSeen name s] ∧ (r = Ok false → lease_inactive s)).
Proof.
  unfold IsLeaseActive. eapply emits_bind with (Q1 := λ r d, ∃ s, d = [LeaseSeen name s] ∧ r = Ok s).
  - intros t w. unfold tryM. cbn. unfold recorded. cbn. destruct (lease_get _ _ w) as [r w'].
    eexists. split; [done|]. by exists r.
  - intros s d (? & -> & [= <-]). destruct s as [l|e].
    + apply emits_ret. exists (Ok l). split; [done|]. cbn. by destruct (lease_holder l).
    + destruct (IsNotFound e) eqn:En; (apply emits_ret || apply emits_throw); by exists (Err e).
  - by intros e d (s & _ & [=]).
Qed.

Lemma checkClusterSyncLease_emits cr cluster :
  emits (checkClusterSyncLease cr cluster : M bool) (λ r d, Forall check_event d ∧
    (∀ a, r = Ok a → a = false → fresh_backup cr = true →
     ∃ s, LeaseSeen (ClusterSyncLeaseName (cr_Name cluster)) s ∈ d ∧ lease_inactive s)).
Proof.
  unfold checkClusterSyncLease. destruct (fresh_backup cr); cbn [negb]; [|by apply emits_ret; split].
  eapply emits_bind.
  - apply emits_wrap. eapply emits_conseq; [apply IsLeaseActive_emits|]. intros r d Hr.
    instantiate (1 := λ r d, ∃ s, d = [LeaseSeen (ClusterSyncLeaseName (cr_Name cluster)) s] ∧
      (r = Ok false → lease_inactive s)).
    destruct Hr as (s & -> & Hs). exists s. split; [done|]. intros ?. apply Hs. by destruct r; simplify_eq/=.
  - intros [|] d (s & -> & Hs); cbn [negb].
    + apply emits_quiet_bind; [solve_quiet| |].
      * intros _. apply emits_ret. split; [by repeat constructor|]. by intros ? [= <-].
      * intros e. split; [by repeat constructor|done].
    + apply emits_ret. split; [by repeat constructor|]. intros _ _ _ _. exists s.
      split; [by left|by apply Hs].
  - intros e d (s & -> & _). split; [by repeat constructor|done].
Qed.

Lemma tryAcquireLease_emits cr cluster :
  emits (tryAcquireLease cr cluster : M bool) (λ r d, Forall check_event d ∧
    (∀ a, r = Ok a → a = true → fresh_backup cr = true →
     ∃ l, Acquired (BackupLeaseName (cr_Name cluster)) l ∈ d ∧
       (l_HolderIdentity l = None ∨ l_HolderIdentity l = Some (BackupHolderId cr)))).
Proof.
  unfold tryAcquireLease. destruct (fresh_backup cr); cbn [negb]; [|by apply emits_ret; split].
  cbv zeta. eapply emits_bind with (Q1 := λ r d, Forall check_event d ∧
    ∀ l, r = Ok (Ok l) → Acquired (BackupLeaseName (cr_Name cluster)) l ∈ d).
  - apply emits_catch. intros t w. unfold AcquireLease. cbn. unfold recorded. cbn.
    destruct (lease_create_or_update _ _ w) as [[l|e] w']; eexists; (split; [done|]); cbn.
    + split; [by repeat constructor|]. intros ? [= <-]. by left.
    + split; split; try done; by repeat constructor.
  - intros [l|e] d (Hd & Hl).
    + apply emits_ret. rewrite app_nil_r. split; [done|]. intros ? [= <-] Hh _. exists l. split; [by apply Hl|].
      destruct (l_HolderIdentity l) as [h|]; [|by left]. right. by apply bool_decide_eq_true in Hh as ->.
    + destruct (_ || _); (apply emits_ret || apply emits_throw); rewrite app_nil_r; (split; [done|]);
        by intros ? [= <-].
  - intros e d (Hd & _). split; done.
Qed.

(** A backup job skips no restore. *)
Lemma backup_job_restores cluster name l :
  existsb (λ r, negb (own_restore (NewBackupJob name) r) && restore_active cluster r) l =
  existsb (restore_active cluster) l.
Proof. induction l as [|r l IH]; [done|]. cbn [existsb]. rewrite IH. unfold own_restore. by rewrite andb_false_r. Qed.
Lemma hasLocks_looks p :
  emits (hasLocks false p : M bool) (λ r d, Forall check_event d ∧
    (r = Ok false → ∃ l1 l2, Locks l1 ∈ d ∧ OpLocks l2 ∈ d ∧ existsb p (l1 ++ l2) = false)).
Proof.
  unfold hasLocks. eapply emits_wrap_bind; [apply emits_recorded| |by intros e d ->; split; [constructor|]].
  intros l1 d ->. eapply emits_wrap_bind; [apply emits_recorded| |].
  - intros l2 d ->. apply emits_ret. cbn. split; [by repeat constructor|]. intros [= Hf].
    exists l1, l2. split; [by left|]. split; [by right; left|exact Hf].
  - intros e d ->. split; [by repeat constructor|done].
Qed.
Lemma no_lock_left cluster name d l1 l2 :
  Locks l1 ∈ d → OpLocks l2 ∈ d →
  existsb (λ l, NotPITRLock l && NotJobLock (NewBackupJob name) l) (l1 ++ l2) = false → no_pbm_job cluster d.
Proof.
  intros H1 H2 Hf. right. right. exists l1, l2. split; [done|]. split; [done|]. intros l Hl.
  pose proof (existsb_exists (λ l, NotPITRLock l && NotJobLock (NewBackupJob name) l) (l1 ++ l2)) as [_ Hx].
  rewrite Hf in Hx. destruct (NotPITRLock l) eqn:E1.
  - right. destruct (NotJobLock (NewBackupJob name) l) eqn:E2.
    + exfalso. discriminate Hx. exists l. rewrite <- list_elem_of_In, E1, E2. done.
    + unfold NotJobLock in E2. by apply negb_false_iff, bool_decide_eq_true in E2.
  - left. unfold NotPITRLock in E1. by apply negb_false_iff, bool_decide_eq_true in E1.
Qed.
Lemma HasActiveJobs_emits cluster name :
  emits (HasActiveJobs cluster (NewBackupJob name) NotPITRLock : M bool) (λ r d, Forall check_event d ∧
    (∀ a, r = Ok a → a = false →
     (∃ l, Restores l ∈ d ∧ existsb (restore_active cluster) l = false) ∧ no_pbm_job cluster d)).
Proof.
  unfold HasActiveJobs. eapply emits_bind with (Q1 := λ r d, Forall check_event d ∧
    ∀ l, r = Ok l → Restores l ∈ d).
  - apply emits_wrap. eapply emits_conseq; [apply emits_recorded|]. intros [l|e] d ->; cbn.
    + split; [by repeat constructor|]. intros ? [= <-]. by left.
    + split; [by constructor|done].
  - intros l d (Hd & Hl). specialize (Hl l eq_refl). rewrite backup_job_restores. destruct (existsb _ l) eqn:Ea.
    { apply emits_ret. rewrite app_nil_r. split; [done|]. by intros ? [= <-]. }
    assert (∀ d', ∃ l, Restores l ∈ d ++ d' ∧ existsb (restore_active cluster) l = false) as Hno
      by (intros d'; exists l; split; [set_solver|done]).
    destruct (b_Enabled (bc_Backup cluster)) eqn:Eb; cbn [negb].
    2:{ apply emits_ret. split; [by rewrite app_nil_r|]. intros _ _ _. split; [apply Hno|by left]. }
    eapply emits_bind with (Q1 := λ rr d', d' = match rr with
      | Ok (Ok _) => []
      | Ok (Err e) | Err e => if IsErrNoDocuments e then [NoPbm] else []
      end).
    { apply emits_catch. eapply emits_conseq; [apply emits_recorded|]. by intros [u|e] d' ->. }
    + intros [u|e] d' H0; cbn in H0; subst d'; cbn [app].
      * apply emits_defer; [apply quiet_quietly|]. apply emits_wrap. eapply emits_conseq; [apply hasLocks_looks|].
        intros r d' [Hd' Hr]. split; [by apply Forall_app|]. intros a Ha ->.
        destruct r as [b|e]; [|done]. injection Ha as ->. destruct (Hr eq_refl) as (l1 & l2 & H1 & H2 & Hf).
        split; [apply Hno|]. apply (no_lock_left _ name _ l1 l2); [set_solver|set_solver|done].
      * destruct (IsErrNoDocuments e) eqn:Ee; [apply emits_ret|apply emits_throw].
        -- rewrite app_nil_r. split; [apply Forall_app; by repeat constructor|]. intros _ _ _. split; [apply Hno|].
           right. left. set_solver.
        -- by rewrite !app_nil_r.
    + intros e d' H0. cbn in H0. subst d'. case_match; (split; [|done]); apply Forall_app; by repeat constructor.
  - by intros e d (Hd & _).
Qed.

(** The deadline, and the cluster it is read from *)
Lemma checkStartingDeadline_emits (c : option BackupCluster) cr :
  emits (checkStartingDeadline c cr : M unit) (λ r d, Forall look_event d ∧
    (r = Ok tt → ∀ d0, (∀ c', c = Some c' → ReadCluster c' ∈ d0) → in_time cr (d0 ++ d))).
Proof.
  unfold checkStartingDeadline. case_bool_decide as Hn; cbn [negb].
  2:{ apply emits_ret. split; [done|]. by intros _ d0 _ ?. }
  set (ask := match bsp_StartingDeadlineSeconds (bk_Spec cr), c with
    | Some s, _ => mret (Some s)
    | None, Some c => mret (b_StartingDeadlineSeconds (bc_Backup c))
    | None, None => throw nil_panic end : M (option Z)).
  eapply emits_bind with (Q1 := λ r d, d = [] ∧ ∀ limit, r = Ok limit →
    ∀ d0 d1, (∀ c', c = Some c' → ReadCluster c' ∈ d0) → deadline cr (d0 ++ d1) limit).
  - unfold ask, deadline. destruct (bsp_StartingDeadlineSeconds _); [|destruct c as [c|]].
    + apply emits_ret. split; [done|]. by intros limit [= <-].
    + apply emits_ret. split; [done|]. intros limit [= <-] d0 d1 Hc. exists c. split; [|done].
      apply elem_of_app. left. by apply Hc.
    + by apply emits_throw.
  - intros limit d [-> Hl]. specialize (Hl limit eq_refl). destruct limit as [s|].
    2:{ apply emits_ret. split; [done|]. intros _ d0 Hc _. exists None. split; [by apply Hl|done]. }
    eapply emits_bind; [apply emits_recorded| |by intros e d ->]. intros now d ->. cbn [app].
    destruct (Z.ltb_spec (Sub now (bk_CreationTimestamp cr)) (s * second)) as [Hlt|_].
    + apply emits_ret. split; [by repeat constructor|]. intros _ d0 Hc _. exists (Some s).
      split; [by apply Hl|]. intros ? [= <-]. exists now. split; [set_solver|done].
    + apply emits_throw. split; [by repeat constructor|done].
  - by intros e d [-> _].
Qed.
Lemma in_time_app cr d d' : in_time cr d → in_time cr (d ++ d').
Proof.
  intros Ht Hn. destruct (Ht Hn) as (limit & Hd & Hlim). exists limit. split.
  - unfold deadline in *. case_match; [done|]. destruct Hd as (c & ? & ?). exists c. set_solver.
  - intros s Es. destruct (Hlim s Es) as (now & ? & ?). exists now. set_solver.
Qed.
Lemma no_pbm_incl cluster d d' : (∀ e, e ∈ d → e ∈ d') → no_pbm_job cluster d → no_pbm_job cluster d'.
Proof.
  intros Hi [?|[?|(l1 & l2 & ? & ? & ?)]]; [by left|right; left; auto|]. right. right. exists l1, l2. auto.
Qed.
Lemma cleared_before cr cluster d d' : cleared cr cluster d → cleared cr cluster (d ++ d').
Proof.
  intros (Hc & Ht & (l & Hl & Hr) & Hp & (r & Hs & Hi) & (a & Ha & Hh)). split; [done|]. split_and!.
  - by apply in_time_app.
  - exists l. set_solver.
  - eapply no_pbm_incl; [|exact Hp]. set_solver.
  - exists r. set_solver.
  - exists a. set_solver.
Qed.

(** ** The executors *)
Lemma send_emits cmd (k : result () → M outcome) Q :
  (∀ x, emits (k x) (λ r d, Q r (Sent cmd :: d))) → emits (x ← tryM (pbm_SendCmd cmd); k x) Q.
Proof.
  intros Hk. eapply emits_bind with (Q1 := λ r d, d = [Sent cmd] ∧ ∃ x, r = Ok x).
  - intros t w. unfold tryM. cbn. unfold recorded. cbn. destruct (pbm_SendCmd cmd w) as [r w'].
    exists [Sent cmd]. split; [done|]. split; [done|]. by exists r.
  - intros x d (-> & _). apply Hk.
  - intros e d (_ & x & [=]).
Qed.

Definition started (r : result outcome) (d : list event) : Prop :=
  (Forall look_event d ∨
   ∃ d1 cmd d2, d = d1 ++ Sent cmd :: d2 ∧ Forall look_event d1 ∧ Forall look_event d2) ∧
  ∀ o, r = Ok o → bs_State (final_status o) ∈ [BackupStateRequested; BackupStateError].
Lemma not_started (e : error) d : Forall look_event d → started (Ok (zeroStatus, Some e)) d.
Proof. intros Hd. split; [by left|]. intros ? [= <-]. cbn. set_solver. Qed.
Lemma started_panic e d : Forall look_event d → started (Err e) d.
Proof. intros Hd. split; [by left|done]. Qed.

Lemma send_requested cmd sn nm names stg d :
  Forall look_event d →
  emits (sent ← tryM (pbm_SendCmd cmd);
         match sent with
         | Err e => mret (zeroStatus, Some e)
         | Ok _ => now' ← go_now; mret (requested sn nm now' names stg, None)
         end : M outcome) (λ r d', started r (d ++ d')).
Proof.
  intros Hd. apply send_emits. intros [x|e].
  - eapply emits_bind; [apply looks_now| |].
    + intros now' d' Hd'. apply emits_ret. rewrite app_nil_r. split; [right; by exists d, cmd, d'|].
      intros ? [= <-]. by left.
    + intros e d' Hd'. split; [right; by exists d, cmd, d'|done].
  - apply emits_ret. split; [right; by exists d, cmd, []|]. intros ? [= <-]. cbn. set_solver.
Qed.

Lemma exec_Start_emits b cluster cr : emits (exec_Start b cluster cr : M outcome) started.
Proof.
  unfold exec_Start. destruct b as [[spec|]|[spec|]].
  - unfold managed_Start. cbv zeta. destruct (b_Storages spec !! _) as [stg|].
    2:{ by apply emits_ret, not_started. }
    unfold or_fail. apply emits_quiet_bind; [solve_quiet| |by intros; apply started_panic]. intros [u|e].
    2:{ by apply emits_ret, not_started. }
    eapply emits_bind; [apply looks_now| |by intros; apply started_panic]. intros now d Hd.
    destruct (backup_profile _ _ _) as [profile|e]; [by apply send_requested|].
    apply emits_ret. rewrite app_nil_r. by apply not_started.
  - by apply emits_ret, not_started.
  - unfold snapshot_Start. eapply emits_bind; [apply looks_now| |by intros; apply started_panic].
    intros now d Hd. by apply send_requested.
  - by apply emits_throw, started_panic.
Qed.

(** ** Following a backup *)
Definition underway cr : Prop := bk_State cr = BackupStateRequested ∨ bk_State cr = BackupStateRunning.
Definition follows cr (o : outcome) : Prop := lifecycle (bk_State cr) (bs_State o.1).

Lemma follows_final cr o : follows cr o → lifecycle (bk_State cr) (bs_State (final_status o)).
Proof.
  unfold follows, final_status. destruct o as [s [e|]]; cbn; [|done]. intros Hs.
  case_bool_decide; [done|]. apply life_fails.
Qed.
Lemma finish_follows cr meta st s
    (finish : PerconaServerMongoDBBackup → BackupMeta → PerconaServerMongoDBBackupStatus → M outcome) :
  (∀ st, ensures (finish cr meta st) (λ o, bs_State o.1 = bs_State st)) →
  bs_State st = s → lifecycle (bk_State cr) s → ensures (finish cr meta st) (follows cr).
Proof.
  intros Hf Hs Hl. eapply ensures_conseq; [apply Hf|]. intros o Ho. unfold follows. by rewrite Ho, Hs.
Qed.
Lemma starting_follows cluster cr meta st (k : PerconaServerMongoDBBackupStatus → M outcome) :
  bk_State cr ≠ BackupStateCanceling →
  (∀ st s, bs_State st = s → lifecycle (bk_State cr) s → ensures (k st) (follows cr)) →
  lifecycle (bk_State cr) BackupStateRequested →
  ensures (starting_case cluster cr meta st k) (follows cr).
Proof.
  intros Hc Hk Hr. unfold starting_case. apply ensures_then. intros now. cbv zeta.
  rewrite bool_decide_eq_false_2 by done. destruct (_ <=? _)%Z.
  - eapply Hk; [done|apply life_fails].
  - by eapply Hk.
Qed.

Lemma exec_Status_follows b cluster cr : underway cr → ensures (exec_Status b cluster cr : M outcome) (follows cr).
Proof.
  intros Hu. assert (bk_State cr ≠ BackupStateCanceling) as Hc by (destruct Hu as [-> | ->]; done).
  assert (∀ s, s ∈ [BackupStateRequested; BackupStateRunning; BackupStateReady; BackupStateCanceling;
    BackupStateCanceled] → lifecycle (bk_State cr) s) as Hl by (intros s Hs; by apply life_follows).
  assert (∀ e, ensures (mret (bk_Status cr, e) : M outcome) (follows cr)) as Hsame
    by (intros e; apply ensures_ret, life_stays).
  assert (∀ k : option BackupMeta → M outcome, (∀ m, ensures (k m) (follows cr)) →
    ensures (get_meta cr k) (follows cr)) as Hget.
  { intros k Hk. apply ensures_then. intros [m|e]; [apply Hk|]. case_match; [apply Hk|apply Hsame]. }
  unfold exec_Status. destruct b as [[spec|]|[spec|]]; try apply ensures_throw; apply Hget; intros [m|];
    try apply Hsame.
  - unfold managed_statusFromMeta. cbv zeta. case_bool_decide; [apply Hsame|].
    pose proof (λ st s, finish_follows cr m st s _ (managed_finish_State cr m)) as Hk.
    assert (∀ x st, ensures (managed_finish cr m (set_Error x (set_State BackupStateError st)) : M outcome) (follows cr))
      as Hf by (intros x st; eapply Hk; [done|apply life_fails]).
    destruct (meta_Status m); try (rewrite bool_decide_eq_false_2 by done; eapply Hk; [done|apply Hl; set_solver]).
    + apply starting_follows; [done|exact Hk|apply Hl; set_solver].
    + eapply Hk; [done|apply Hl; set_solver].
    + eapply Hk; [done|apply Hl; set_solver].
    + repeat case_match; first [apply ensures_throw|apply Hf].
  - unfold snapshot_statusFromMeta. cbv zeta. case_bool_decide; [apply Hsame|].
    pose proof (λ st s, finish_follows cr m st s _ (snapshot_finish_State cr m)) as Hk.
    destruct (meta_Status m);
      try (eapply Hk; [done|]; rewrite with_start_State; apply life_stays).
    + apply starting_follows; [done|exact Hk|apply Hl; set_solver].
    + rewrite bool_decide_eq_false_2 by done. apply or_fail_ensures; [intros e; apply Hl; set_solver|].
      intros [[] ss]; cbn; [apply or_fail_ensures; [intros e; apply Hl; set_solver|intros u]|];
        (eapply Hk; [done|apply Hl; set_solver]).
    + eapply Hk; [done|apply Hl; set_solver].
    + apply ensures_then. intros now. cbv zeta. apply ensures_then. intros [[|]|e].
      * eapply Hk; [done|apply Hl; set_solver].
      * eapply Hk; [done|apply Hl; set_solver].
      * apply ensures_ret. apply Hl. set_solver.
    + eapply Hk; [done|apply life_fails].
Qed.

Lemma retry_Status_emits b cluster cr st :
  underway cr → bs_State st = bk_State cr →
  emits (retry_Status b cluster cr st : M outcome)
    (λ r d, followed d ∧ ∀ o, r = Ok o → lifecycle (bk_State cr) (bs_State (final_status o))).
Proof.
  intros Hu Hst t w. unfold retry_Status. cbv zeta.
  match goal with |- context [retry_on ?n ?p ?f (?s, _)] =>
    edestruct (retry_mem (λ s d, followed d ∧ lifecycle (bk_State cr) (bs_State s)) n p f s)
      with (t := t) (w := w) as (d & Hd & Hf & Hl) end.
  - split; [by apply followed_looks|]. rewrite Hst. apply life_stays.
  - intros s0 t0 w0 d0 [H0 Hs]. cbn. destruct (exec_Status_emits b cluster cr t0 w0) as (d & Hd & Hf).
    pose proof (exec_Status_follows b cluster cr Hu (t0, w0)) as Hfl. exists d.
    pose proof (followed_app _ _ H0 Hf).
    destruct (exec_Status b cluster cr (t0, w0)) as [[[s1 [e|]]|e] [t1 w1]]; cbn in *; by split_and!.
  - exists d. destruct (retry_on _ _ _ _) as [r [s tw']]. cbn in Hd, Hl.
    destruct r as [u|e]; [|destruct (is_panic e)]; (split; [done|]; split; [done|]); intros o; cbn;
      intros [= <-]; by apply follows_final.
Qed.

Definition tried cr (r : result outcome) (d : list event) : Prop :=
  ∃ d0 d1, d = d0 ++ d1 ∧ Forall check_event d0 ∧ acted cr d0 d1 ∧
    ∀ o, r = Ok o → lifecycle (bk_State cr) (bs_State (final_status o)).
Lemma tried_followed cr r d d' :
  Forall check_event d → followed d' →
  (∀ o, r = Ok o → lifecycle (bk_State cr) (bs_State (final_status o))) → tried cr r (d ++ d').
Proof. intros Hd [? ?] Hr. exists d, d'. split_and!; try done. by apply acted_followed. Qed.
Lemma tried_nothing cr r d :
  Forall check_event d → (∀ o, r = Ok o → lifecycle (bk_State cr) (bs_State (final_status o))) → tried cr r d.
Proof. intros Hd Hr. rewrite <- (app_nil_r d). apply tried_followed; [done| |done]. by apply followed_looks. Qed.
Lemma tried_ret cr (o : outcome) d :
  Forall check_event d → follows cr o → emits (mret o : M outcome) (λ r d', tried cr r (d ++ d')).
Proof.
  intros Hd Ho. apply emits_ret. rewrite app_nil_r. apply tried_nothing; [done|].
  intros ? [= <-]. by apply follows_final.
Qed.
Lemma tried_panic cr e d : Forall check_event d → tried cr (Err e) d.
Proof. intros Hd. by apply tried_nothing. Qed.

(** A check of [reconcile]: it leaves only checks in the trace. *)
Lemma tried_check {A} cr (m : M A) (k : result A → M outcome) d (Q : A → list event → Prop) :
  Forall check_event d →
  emits m (λ r d', Forall check_event d' ∧ ∀ a, r = Ok a → Q a d') →
  (∀ e d', Forall check_event d' → emits (k (Err e)) (λ r d'', tried cr r (d' ++ d''))) →
  (∀ a d', Forall check_event (d ++ d') → Q a d' →
    emits (k (Ok a)) (λ r d'', tried cr r ((d ++ d') ++ d''))) →
  emits (x ← catchM m; k x) (λ r d', tried cr r (d ++ d')).
Proof.
  intros Hd Hm He Hk. eapply emits_bind with (Q1 := λ r d', Forall check_event d' ∧
    ∀ a, r = Ok (Ok a) → Q a d').
  - apply emits_catch. eapply emits_conseq; [exact Hm|]. intros [a|e] d' (Hd' & Ha); cbn.
    + split; [done|]. intros ? [= <-]. by apply Ha.
    + by repeat split.
  - intros [a|e] d' (Hd' & Ha).
    + assert (Forall check_event (d ++ d')) by (by apply Forall_app).
      eapply emits_conseq; [apply Hk; [done|by apply Ha]|]. intros r d''. by rewrite app_assoc.
    + assert (Forall check_event (d ++ d')) by (by apply Forall_app).
      eapply emits_conseq; [by apply (He e (d ++ d'))|]. intros r d''. by rewrite app_assoc.
  - intros e d' (Hd' & _). apply tried_panic. by apply Forall_app.
Qed.

Lemma ensureReleaseLockFinalizer_emits cr :
  emits (ensureReleaseLockFinalizer cr : M _) (λ r d, Forall check_event d ∧
    ∀ cr', r = Ok cr' → d = [] ∧ bk_State cr' = bk_State cr).
Proof.
  eapply emits_conseq.
  - apply (emits_ensures _ _ (λ cr', bk_State cr' = bk_State cr) (quiet_ensureReleaseLockFinalizer cr)).
    unfold ensureReleaseLockFinalizer. case_bool_decide; [by apply ensures_ret|].
    apply ensures_then. intros u. by apply ensures_ret.
  - intros r d [-> Hr]. split; [done|]. by intros cr' ->.
Qed.

Lemma start_or_follow cr cr' cluster b st d :
  backupStateTerminal (bk_State cr) = false → cancellationRequested cr = false →
  bk_State cr' = bk_State cr → bs_State st = bk_State cr → Forall check_event d →
  (fresh_backup cr = true → cleared cr cluster d) →
  emits (if fresh_backup cr then exec_Start b cluster cr' else retry_Status b cluster cr' st : M outcome)
    (λ r d', tried cr r (d ++ d')).
Proof.
  intros Ht Hc Hcr' Hst Hd Hclear. destruct (fresh_backup cr) eqn:Ef.
  - eapply emits_conseq; [apply exec_Start_emits|]. intros r d' [Hd' Hr].
    assert (∀ o, r = Ok o → lifecycle (bk_State cr) (bs_State (final_status o))) as Hlife.
    { intros o Ho. specialize (Hr o Ho). apply list_elem_of_In in Hr. destruct Hr as [<-|[<-|[]]];
        [|apply life_fails]. apply life_requested. unfold fresh_backup in Ef.
      apply orb_true_iff in Ef. by rewrite !bool_decide_eq_true in Ef. }
    destruct Hd' as [Hd'|(d1 & cmd & d2 & -> & H1 & H2)]; [by apply tried_followed; [|apply followed_looks|]|].
    exists (d ++ d1), (Sent cmd :: d2). rewrite app_assoc. split_and!; [done| |..|done].
    + apply Forall_app. split; [done|]. eapply Forall_impl; [exact H1|exact look_check].
    + apply (acted_started _ _ cluster); [done| |done]. by apply cleared_before, Hclear.
  - assert (underway cr') as Hu.
    { unfold underway. rewrite Hcr'. unfold fresh_backup, backupStateTerminal, cancellationRequested in *.
      rewrite orb_comm in Hc.
      destruct (bk_State cr); first [by left|by right|discriminate Ht|discriminate Hc|discriminate Ef]. }
    eapply emits_conseq; [apply retry_Status_emits; [done|by rewrite Hcr']|]. intros r d' [Hf Hr].
    apply tried_followed; [done..|]. by rewrite <- Hcr'.
Qed.

Lemma reconcile_emits (c : option BackupCluster) cr b dp :
  backupStateTerminal (bk_State cr) = false → cancellationRequested cr = false →
  Forall check_event dp → in_time cr dp →
  emits (reconcile c cr b : M outcome) (λ r d, tried cr r (dp ++ d)).
Proof.
  intros Ht Hc Hdp Htime. unfold reconcile. cbv zeta.
  assert (∀ e d, Forall check_event d → ∀ s, bs_State s = bk_State cr →
    emits (mret (s, e) : M outcome) (λ r d', tried cr r (d ++ d'))) as Hret.
  { intros e d Hd s Hs. apply tried_ret; [done|]. unfold follows. cbn. rewrite Hs. apply life_stays. }
  assert (∀ reason s d, Forall check_event d →
    emits (mret (waiting reason s) : M outcome) (λ r d', tried cr r (d ++ d'))) as Hwait
    by (intros; apply tried_ret; [done|apply life_waits]).
  destruct c as [cluster|]; [|by apply Hret].
  destruct (CanBackup cluster) as [[]|e] eqn:Ecan; [|by apply Hret].
  eapply (tried_check cr _ _ dp); [done|apply HasActiveJobs_emits|by intros; apply Hret|].
  intros [|] d1 Hd1 Hjobs; [by apply Hwait|]. destruct (Hjobs eq_refl) as [(lr & Hlr & Hact) Hpbm].
  eapply (tried_check cr _ _ (dp ++ d1)); [done|apply checkClusterSyncLease_emits|by intros; apply Hret|].
  intros [|] d2 Hd2 Hsync; [by apply Hwait|]. specialize (Hsync eq_refl).
  eapply (tried_check cr _ _ ((dp ++ d1) ++ d2)); [done|apply tryAcquireLease_emits|by intros; apply Hret|].
  intros [|] d3 Hd3 Hacq; [|by apply Hwait]. specialize (Hacq eq_refl).
  eapply (tried_check cr _ _ (((dp ++ d1) ++ d2) ++ d3)); [done|apply ensureReleaseLockFinalizer_emits|by intros; apply Hret|].
  intros cr' d4 Hd4 [-> Hcr']. apply start_or_follow; try done. intros Ef.
  destruct (Hsync Ef) as (s & Hs & Hin). destruct (Hacq Ef) as (l & Hl & Hh).
  rewrite app_nil_r. split; [done|]. split; [|split; [exists lr; set_solver|split]].
  - rewrite <-!app_assoc. by apply in_time_app.
  - eapply no_pbm_incl; [|exact Hpbm]. set_solver.
  - split; [exists s; set_solver|exists l; set_solver].
Qed.

(** ** The function Reconcile defers, and its body *)
Lemma update_then_release {A} cr (k : result () → M A) s :
  bk_State cr = s →
  (∀ x, emits (k x) (λ _ d, Forall release_event d ∧ (d = [] ∨ (x = Ok tt ∧ backupStateTerminal s = true)))) →
  emits (u ← catchM (updateStatus cr); k u) (λ _ d, writes_and_releases s d).
Proof.
  intros Hs Hk. eapply emits_bind with (Q1 := λ r d, Forall (write_event s) d ∧
    (r = Ok (Ok tt) → saved s d)).
  - apply emits_catch. eapply emits_conseq; [apply updateStatus_emits|]. rewrite Hs.
    intros [[]|e] d [Hd Hr]; cbn; [|by repeat split]. split; [done|]. intros _. by apply Hr.
  - intros x d [Hd Hr]. eapply emits_conseq; [apply Hk|]. intros r d' (Hd' & Hx).
    exists d, d'. split_and!; try done. destruct Hx as [-> |[-> ?]]; [by left|]. right. split; [done|by apply Hr].
  - intros e d [Hd _]. exists d, []. rewrite app_nil_r. split_and!; try done. by left.
Qed.

Lemma write_status_emits cr o :
  emits (write_status cr o : M unit) (λ _ d, writes_and_releases (bs_State (final_status o)) d).
Proof.
  unfold write_status. cbv zeta. destruct (negb _).
  { apply emits_ret. exists [], []. split_and!; try done. by left. }
  apply update_then_release; [done|]. intros [[]|e]; [|apply emits_ret; by split; [|left]].
  destruct (backupStateTerminal _); [|apply emits_ret; by split; [|left]].
  eapply emits_bind with (Q1 := λ _ d, Forall release_event d).
  - apply emits_catch. eapply emits_conseq; [apply ReleaseLease_emits|]. by intros [] d Hd.
  - intros x d Hd. apply emits_ret. rewrite app_nil_r. split; [done|by right].
  - intros e d Hd. split; [done|by right].
Qed.

Lemma CheckFields_spec cr cr' :
  CheckFields cr = Ok cr' → ∃ s, cr' = with_spec s cr ∧
    bsp_StartingDeadlineSeconds s = bsp_StartingDeadlineSeconds (bk_Spec cr).
Proof. unfold CheckFields. cbv zeta. intros Hc. repeat case_match; simplify_eq; eauto. Qed.
Lemma tried_spec cr s r d :
  bsp_StartingDeadlineSeconds s = bsp_StartingDeadlineSeconds (bk_Spec cr) →
  tried (with_spec s cr) r d → tried cr r d.
Proof.
  intros Hs (d0 & d1 & -> & Hd0 & Ha & Hl). exists d0, d1. split_and!; try done.
  destruct Ha as [d|cluster cmd d Hf (Hc & Ht & Hr) Hd]; [by apply acted_followed|].
  apply (acted_started _ _ cluster); [done| |done]. split; [done|]. split; [|done].
  unfold in_time, deadline in *. cbn in Ht. by rewrite Hs in Ht.
Qed.
Lemma emits_on_panic {A} (deferred : M unit) (m : M A) Q1 Q2 (Q : result A → list event → Prop) :
  emits m Q1 → emits deferred (λ _, Q2) →
  (∀ a d, Q1 (Ok a) d → Q (Ok a) d) → (∀ e d, Q1 (Err e) d → Q (Err e) d) →
  (∀ e e' d d', Q1 (Err e) d → Q2 d' → Q (Err e') (d ++ d')) →
  emits (on_panic deferred m) Q.
Proof.
  intros Hm Hf HO HE HP t w. destruct (Hm t w) as (d & Hd & H1). unfold on_panic.
  destruct (m (t, w)) as [[a|e] [t' w']]; cbn in *; subst t'; [exists d; split; [done|by apply HO]|].
  destruct (is_panic e); [|exists d; split; [done|by apply HE]].
  destruct (Hf (t ++ d) w') as (d' & Hd' & H2). destruct (deferred (t ++ d, w')) as [r [t' w'']]. cbn in *.
  exists (d ++ d'). rewrite Hd', app_assoc. split; [done|]. destruct r; by eapply HP.
Qed.

Context (reconcileIn : Z).
Abbreviation body := (reply * (PerconaServerMongoDBBackup * outcome))%type.
(** The body ends, or it panics; before the panic the deferred function may have
    written the status. *)
Definition body_ran cr (r : result body) (d : list event) : Prop :=
  tried cr ((λ x : body, x.2.2) <$> r) d ∨
  (∃ e, r = Err e) ∧ ∃ d0 s d2, d = d0 ++ d2 ∧ Forall check_event d0 ∧
    lifecycle (bk_State cr) s ∧ writes_and_releases s d2.

Lemma body_failed cr (x : body) d :
  Forall check_event d → bs_State (x.2.2).1 = bk_State cr → emits (mret x : M body) (λ r d', body_ran cr r (d ++ d')).
Proof.
  intros Hd Hx. apply emits_ret. rewrite app_nil_r. left. apply tried_nothing; [done|].
  intros ? [= <-]. apply follows_final. unfold follows. rewrite Hx. apply life_stays.
Qed.
Lemma body_panic cr e d : Forall check_event d → body_ran cr (Err e) d.
Proof. intros Hd. left. by apply tried_panic. Qed.

(** After the deadline was checked: PBM and the checks *)
Lemma go_on_emits cr s (c : option BackupCluster) dp :
  backupStateTerminal (bk_State cr) = false → cancellationRequested cr = false →
  bsp_StartingDeadlineSeconds s = bsp_StartingDeadlineSeconds (bk_Spec cr) →
  Forall check_event dp → in_time (with_spec s cr) dp →
  emits (n ← catchM (retry_newBackupExecutor c (with_spec s cr));
    match n with
    | Err e => mret (({| RequeueAfter := reconcileIn |}, Some e), (with_spec s cr, (bk_Status cr, Some e)))
    | Ok b =>
        o ← (if exec_has_pbm b then deferM pbm_Close (reconcile c (with_spec s cr) b)
             else reconcile c (with_spec s cr) b);
        mret (({| RequeueAfter := reconcileIn |}, (λ e, EWrap e "reconcile backup") <$> o.2),
              (with_spec s cr, o))
    end : M body) (λ r d, body_ran cr r (dp ++ d)).
Proof.
  intros Ht Hc Hs Hdp Htime.
  assert (∀ d, Forall look_event d → Forall check_event (dp ++ d)) as Hck.
  { intros d Hd. apply Forall_app. split; [done|]. eapply Forall_impl; [exact Hd|exact look_check]. }
  eapply emits_bind with (Q1 := λ _ d, Forall look_event d);
    [apply only_catch, looks_retry_newBackupExecutor| |intros e d Hd; by apply body_panic, Hck].
  intros [b|e] d Hd.
  2:{ eapply emits_conseq; [by apply (body_failed cr _ (dp ++ d)); [apply Hck|]|]. intros r d'. by rewrite app_assoc. }
  eapply emits_bind with (Q1 := λ r d', tried (with_spec s cr) r ((dp ++ d) ++ d')).
  - assert (emits (reconcile c (with_spec s cr) b : M outcome) (λ r d', tried (with_spec s cr) r ((dp ++ d) ++ d'))) as Hr.
    { apply reconcile_emits; try done; [by apply Hck|by apply in_time_app]. }
    destruct (exec_has_pbm b); [|done]. apply emits_defer; [solve_quiet|done].
  - intros o d' Ho. apply emits_ret. rewrite app_nil_r, app_assoc. left. by eapply tried_spec.
  - intros e d' Ho. rewrite app_assoc. left. by eapply tried_spec.
Qed.

(** The check of the deadline, and what a panic in it leaves *)
Lemma deadline_emits cr s (c : option BackupCluster) err d (k : M body) :
  bsp_StartingDeadlineSeconds s = bsp_StartingDeadlineSeconds (bk_Spec cr) →
  Forall check_event d → (∀ c', c = Some c' → ReadCluster c' ∈ d) →
  (∀ d', Forall check_event (d ++ d') → in_time (with_spec s cr) (d ++ d') →
     emits k (λ r d2, body_ran cr r ((d ++ d') ++ d2))) →
  emits (x ← on_panic (write_status (with_spec s cr) (bk_Status cr, err))
               (catchM (checkStartingDeadline c (with_spec s cr)));
    match x with
    | Err e => mret ((noRequeue, Some e), (with_spec s cr, (bk_Status cr, Some e)))
    | Ok _ => k
    end : M body) (λ r d', body_ran cr r (d ++ d')).
Proof.
  intros Hs Hd Hin Hk.
  assert (∀ d', Forall look_event d' → Forall check_event (d ++ d')) as Hck.
  { intros d' Hd'. apply Forall_app. split; [done|]. eapply Forall_impl; [exact Hd'|exact look_check]. }
  eapply emits_bind with (Q1 := λ rr d', match rr with
    | Ok (Ok _) => Forall look_event d' ∧ in_time (with_spec s cr) (d ++ d')
    | Ok (Err _) => Forall look_event d'
    | Err _ => ∃ d0 s d2, d' = d0 ++ d2 ∧ Forall look_event d0 ∧ lifecycle (bk_State cr) s ∧ writes_and_releases s d2
    end).
  - eapply emits_on_panic with (Q1 := λ rr d', Forall look_event d' ∧
      (rr = Ok (Ok tt) → in_time (with_spec s cr) (d ++ d'))).
    + apply emits_catch. eapply emits_conseq; [apply checkStartingDeadline_emits|].
      intros [[]|e] d' [Hd' Hi]; [|by repeat split]. split; [done|]. intros _. by apply Hi.
    + apply write_status_emits.
    + intros [[]|e] d' [Hd' Hi]; [|done]. split; [done|by apply Hi].
    + intros e d' [Hd' _]. exists d', (bk_State cr), []. rewrite app_nil_r. split_and!; try done; [apply life_stays|].
      exists [], []. split_and!; try done. by left.
    + intros e e' d' d2 [Hd' _] H2. eexists d', _, d2. split_and!; [done|done| |exact H2].
      apply follows_final. apply life_stays.
  - intros [[]|e] d' Hd'.
    + destruct Hd' as [Hd' Hi]. eapply emits_conseq; [by apply (Hk d'); [apply Hck|]|]. intros r d2. by rewrite app_assoc.
    + eapply emits_conseq; [by apply (body_failed cr _ (d ++ d')); [apply Hck|]|]. intros r d2. by rewrite app_assoc.
  - intros e d' (d0 & s0 & d2 & -> & Hd0 & Hl & H2). right. split; [by exists e|].
    exists (d ++ d0), s0, d2. rewrite app_assoc. split_and!; try done. by apply Hck.
Qed.

Lemma run_backup_emits cr :
  backupStateTerminal (bk_State cr) = false → cancellationRequested cr = false →
  emits (run_backup reconcileIn cr : M body) (body_ran cr).
Proof.
  intros Ht Hc. unfold run_backup. cbv zeta.
  destruct (CheckFields cr) as [cr1|e] eqn:Ecf; [|by apply (body_failed _ _ [])].
  apply CheckFields_spec in Ecf as (s & -> & Hs).
  eapply emits_bind with (Q1 := λ rr d, match rr with Ok (Ok c) => d = [ReadCluster c] | _ => d = [] end).
  { apply emits_catch. eapply emits_conseq; [apply emits_recorded|]. by intros [c|e] d ->. }
  2:{ intros e d Hd. assert (d = []) as -> by by destruct e. by apply body_panic. }
  intros [c|e] d ->; [|destruct (IsNotFound e); [|by apply (body_failed _ _ [])]].
  - apply (deadline_emits cr s (Some c)); [done|by repeat constructor|intros ? [= ->]; by left|]. intros d' Hd' Hi.
    apply emits_quiet_bind; [solve_quiet| |intros e; rewrite app_nil_r; by apply body_panic]. intros [platform|e].
    + destruct (be_CheckNSetDefaults c platform) as [c1|e]; [by apply go_on_emits|by apply body_failed].
    + by apply body_failed.
  - apply (deadline_emits cr s None); [done..|]. intros d' Hd' Hi. by apply go_on_emits.
Qed.

(** ** Cancellation and deletion *)
Definition canceling_event (e : event) : Prop := write_event BackupStateCanceling e ∨ look_event e.
Lemma begin_cancellation cr :
  emits (if bool_decide (bk_State cr = BackupStateCanceling) then mret (Ok cr)
         else
           now ← go_now;
           let cr := with_status (set_LastTransition (Some now)
                       (set_State BackupStateCanceling (bk_Status cr))) cr in
           u ← catchM (updateStatus cr);
           mret (match u with Ok _ => Ok cr | Err e => Err e end) : M (result PerconaServerMongoDBBackup))
    (λ r d, Forall canceling_event d ∧
       ∀ cr', r = Ok (Ok cr') → bk_State cr' = BackupStateCanceling).
Proof.
  case_bool_decide as Hs.
  { apply emits_ret. split; [done|]. by intros ? [= <-]. }
  assert (∀ d, Forall look_event d → Forall canceling_event d) as Hl
    by (intros d Hd; eapply Forall_impl; [exact Hd|by right]).
  eapply emits_bind; [apply looks_now| |intros e d Hd; split; [by apply Hl|done]]. intros now d0 Hd0. cbv zeta.
  eapply emits_bind with (Q1 := λ _ d, Forall canceling_event d).
  - apply emits_catch. eapply emits_conseq; [apply updateStatus_emits|].
    intros [] d [Hd _]; [|split]; (eapply Forall_impl; [exact Hd|by left]).
  - intros [u|e] d Hd; apply emits_ret; rewrite app_nil_r; (split; [apply Forall_app; by auto|]); by intros ? [= <-].
  - intros e d Hd. split; [apply Forall_app; by auto|done].
Qed.

Definition cancelled_shape (d : list event) : Prop := ∃ d1 dm s d2, d = d1 ++ dm ++ d2 ∧
  Forall canceling_event d1 ∧ Forall side_event dm ∧ cancel_outcome s ∧ writes_and_releases s d2.
Lemma reconcileCancellation_emits cr :
  emits (reconcileCancellation reconcileIn cr : M reply) (λ _ d, cancelled_shape d).
Proof.
  unfold reconcileCancellation. cbv zeta.
  assert (∀ d d', Forall canceling_event d → Forall side_event d' → cancelled_shape (d ++ d')) as Hno.
  { intros d d' Hd Hd'. exists d, d', BackupStateCanceling, []. rewrite app_nil_r. split_and!; [done..|by left|].
    exists [], []. split_and!; try done. by left. }
  assert (∀ d, Forall canceling_event d → cancelled_shape d) as Hno1.
  { intros d Hd. rewrite <- (app_nil_r d). by apply Hno. }
  eapply emits_bind; [apply begin_cancellation| |by intros e d [Hd _]; apply Hno1].
  intros [cr1|e] d [Hd Hcr1].
  2:{ apply emits_ret. rewrite app_nil_r. by apply Hno1. }
  specialize (Hcr1 cr1 eq_refl).
  eapply emits_bind.
  - apply emits_ensures; [apply side_cancelBackup|]. by apply cancelBackup_State.
  - intros [cr2 err] d' [Hd' Ho]. cbn [fst] in Ho.
    set (cr3 := match err with None => cr2 | Some e => _ end).
    assert (cancel_outcome (bk_State cr3)) as Ho3 by (unfold cr3; destruct err; [by left|done]).
    clearbody cr3. eapply emits_conseq; [apply (update_then_release cr3 _ _ eq_refl)|].
    + intros [[]|e]; [|apply emits_ret; by split; [|left]].
      destruct (backupStateTerminal (bk_State cr3)); cbn [negb]; [|apply emits_ret; by split; [|left]].
      eapply emits_bind with (Q1 := λ _ d, Forall release_event d).
      * apply emits_catch. eapply emits_conseq; [apply runReleaseLockFinalizer_emits|]. by intros [] d0 Hd0.
      * intros [u|e] d0 Hd0; apply emits_ret; rewrite app_nil_r; split; [done|by right|done|by right].
      * intros e d0 Hd0. split; [done|by right].
    + intros r d2 Hd2. by exists d, d', (bk_State cr3), d2.
  - intros e d' [Hd' _]. by apply Hno.
Qed.

(** What deleting a backup's data leaves in the trace *)
Definition erase_event (e : event) : Prop :=
  match e with Erased | SnapDeleted _ _ => True | e => look_event e end.
Lemma look_erase e : look_event e → erase_event e.
Proof. by destruct e. Qed.

Lemma deleteVolumeSnapshots_erases cr : only erase_event (deleteVolumeSnapshots cr : M _).
Proof.
  unfold deleteVolumeSnapshots. induction (bs_Snapshots _) as [|s l IH]; cbn [deleteVolumeSnapshots_loop];
    solve_only; apply IH.
Qed.
Hint Resolve deleteVolumeSnapshots_erases : only.
Lemma deleteFilesystemBackup_erases cluster cr : only erase_event (deleteFilesystemBackup cluster cr : M _).
Proof. unfold deleteFilesystemBackup. solve_only. Qed.
Hint Resolve deleteFilesystemBackup_erases : only.
Lemma delete_with_pbm_erases cluster cr meta : only erase_event (delete_with_pbm cluster cr meta : M _).
Proof. unfold delete_with_pbm. solve_only. Qed.
Lemma deleteBackupFinalizer_erases (c : option BackupCluster) cr b :
  emits (deleteBackupFinalizer c cr b : M unit) (λ _ d, Forall erase_event d ∧
    (d = [] ∨ bsp_Type (bk_Spec cr) ≠ IncrementalBackup ∧ bs_PBMname (bk_Status cr) ≠ "")).
Proof.
  unfold deleteBackupFinalizer. case_bool_decide; [apply emits_ret; by split; [|left]|].
  case_bool_decide; [apply emits_ret; by split; [|left]|].
  eapply emits_conseq with (Q := λ _ d, Forall erase_event d); [|intros r d Hd; by split; [|right]].
  apply only_bind.
  - eapply only_mono; [exact look_erase|]. unfold backup_meta. solve_only.
  - intros meta. pose proof (delete_with_pbm_erases). unfold delete_without_pbm. solve_only.
Qed.

Lemma run_finalizers_emits (c : option BackupCluster) cr b l kept :
  bk_Deleting cr = true → l ⊆ bk_Finalizers cr →
  emits (run_finalizers c cr b l kept : M _) (λ _ d, Forall (delete_event cr) d).
Proof.
  intros Hdel. revert kept; induction l as [|f l IH]; intros kept Hl; cbn [run_finalizers].
  { by apply emits_ret. }
  assert (l ⊆ bk_Finalizers cr ∧ f ∈ bk_Finalizers cr) as [Hl' Hf] by set_solver.
  assert (∀ m : M unit, emits m (λ _ d, Forall (delete_event cr) d) →
    emits (r ← catchM m; run_finalizers c cr b l (match r with Ok _ => kept | Err _ => kept ++ [f] end) : M _)
      (λ _ d, Forall (delete_event cr) d)) as Hrun.
  { intros m Hm. eapply emits_bind with (Q1 := λ _ d, Forall (delete_event cr) d).
    - apply emits_catch. eapply emits_conseq; [exact Hm|]. by intros [] d Hd.
    - intros r d Hd. eapply emits_conseq; [by apply IH|]. intros r' d' Hd'. by apply Forall_app.
    - by intros e d Hd. }
  destruct (is_delete_finalizer f) eqn:Ef; [|case_bool_decide; [|by apply IH]].
  - case_bool_decide as Hs; [|by apply IH]. apply Hrun.
    eapply emits_conseq; [apply deleteBackupFinalizer_erases|]. intros r d [Hd Hc].
    destruct Hc as [-> |[Htype Hname]]; [done|].
    assert (erasable cr) as Her by (split_and!; try done; by exists f).
    eapply Forall_impl; [exact Hd|]. intros e He. right. destruct e; try by left.
    + right. split; [by left|done].
    + right. split; [right; by eexists _, _|done].
  - apply Hrun. eapply emits_conseq; [apply runReleaseLockFinalizer_emits|]. intros r d Hd.
    eapply Forall_impl; [exact Hd|]. intros e He. by left.
Qed.

Lemma reconcileDelete_emits cr :
  bk_Deleting cr = true → emits (reconcileDelete cr : M reply) (λ _ d, Forall (delete_event cr) d).
Proof.
  intros Hdel. unfold reconcileDelete, get_cluster, try_defaults. cbv zeta.
  assert (∀ A (m : M A), only look_event m → only (delete_event cr) m) as Hl.
  { intros A m. apply only_mono. intros e He. right. by left. }
  apply only_bind; [apply Hl; solve_only|]. intros [c|e]; [|by apply emits_ret].
  apply only_bind; [apply Hl; solve_only|]. intros c'.
  apply only_bind; [apply Hl, only_catch, looks_newBackupExecutor|]. intros n.
  generalize (match n with Ok b => b | Err _ => managedBackups None end). intros b.
  match goal with |- only _ (if _ then deferM _ ?m else _) => assert (emits m
    (λ _ d, Forall (delete_event cr) d)) as Hm end.
  { eapply emits_bind with (Q1 := λ _ d, Forall (delete_event cr) d).
    - apply emits_catch. unfold checkFinalizers. rewrite Hdel. cbn [negb].
      eapply emits_bind; [by apply run_finalizers_emits| |by intros e d Hd].
      intros l d Hd. apply quiet_emits; [solve_quiet|]. intros []; by rewrite app_nil_r.
    - intros r d Hd. apply emits_ret. by rewrite app_nil_r.
    - by intros e d Hd. }
  destruct (exec_has_pbm b); [|done]. apply emits_defer; [solve_quiet|done].
Qed.

Lemma Reconcile_run ns name : emits (Reconcile reconcileIn ns name : M reply) (λ _ d, run d).
Proof.
  unfold Reconcile. cbv zeta. eapply emits_bind with (Q1 := λ r d,
    (d = [] ∧ ∃ e, r = Ok (Err e)) ∨ d = [] ∧ (∃ e, r = Err e) ∨ ∃ cr, d = [Read cr] ∧ r = Ok (Ok cr)).
  { apply emits_catch. eapply emits_conseq; [apply emits_recorded|]. intros [cr|e] d ->; cbn.
    - right. right. by exists cr.
    - split; [left; eauto|right; left; eauto]. }
  2:{ intros e d [(-> & _)|[(-> & _)|(cr & _ & [=])]]; apply run_absent. }
  intros [cr|e] d Hd.
  2:{ assert (d = []) as -> by naive_solver. case_match; apply emits_ret; apply run_absent. }
  assert (d = [Read cr]) as -> by naive_solver. cbn [app].
  destruct (backupStateTerminal (bk_State cr)) eqn:Ht; cbn [negb andb].
  - destruct (bk_Deleting cr) eqn:Hdel; cbn [negb].
    + eapply emits_conseq; [by apply reconcileDelete_emits|]. intros r d Hd'. by apply run_deleted.
    + eapply emits_bind with (Q1 := λ _ d, Forall release_event d).
      * apply emits_catch. eapply emits_conseq; [apply runReleaseLockFinalizer_emits|]. by intros [] d Hd'.
      * intros r d Hd'. apply emits_ret. rewrite app_nil_r. by apply run_ended.
      * intros e d Hd'. by apply run_ended.
  - destruct (cancellationRequested cr) eqn:Hc.
    { eapply emits_conseq; [apply reconcileCancellation_emits|]. intros r d (d1 & dm & s & d2 & -> & ? & ? & ? & ?).
      by eapply run_cancelled. }
    assert (bk_Deleting cr = false) as -> by (unfold cancellationRequested in Hc; by destruct (bk_Deleting cr)).
    eapply emits_bind; [by apply run_backup_emits| |].
    + intros x d [(d0 & d1 & -> & Hd0 & Ha & Hlife)|[(e & [=]) _]]. eapply emits_bind; [apply write_status_emits| |].
      * intros u d2 Hd2. apply emits_ret. rewrite app_nil_r, <- app_assoc.
        apply (run_tried _ _ _ (bs_State (final_status x.2.2))); try done. by apply Hlife.
      * intros e d2 Hd2. rewrite <- app_assoc. apply (run_tried _ _ _ (bs_State (final_status x.2.2))); try done. by apply Hlife.
    + intros e d [(d0 & d1 & -> & Hd0 & Ha & Hlife)|(_ & d0 & s & d2 & -> & Hd0 & Hl & Hd2)].
      * rewrite <- (app_nil_r (d0 ++ d1)), <- app_assoc. apply (run_tried _ _ _ (bk_State cr)); try done; [apply life_stays|].
        exists [], []. split_and!; try done. by left.
      * rewrite <- (app_nil_l d2). apply (run_tried _ _ _ s); try done.
        by apply acted_followed, cleanup_reported_looks.
Qed.

(** * What the controller does and does not *)

(** A property of the traces of the abstract controller holds of [Reconcile]. *)
Lemma Reconcile_traces ns name (Q : list event → Prop) t w :
  (∀ d, run d → Q d) → ∃ d, (Reconcile reconcileIn ns name (t, w)).2.1 = t ++ d ∧ Q d.
Proof.
  intros HQ. destruct (Reconcile_run ns name t w) as (d & Hd & Hr). exists d. split; [done|by apply HQ].
Qed.

(** C1: [Reconcile] refines the abstract controller: whatever the API server,
    PBM, the storages, the caches and the clock answer, the calls a run makes
    are those of one run of the specification: for an ended backup only the
    lock is released; a deleted one loses its data and its lock; a cancelled
    one moves to "canceling" and from there to an end; any other one passes the
    checks, may be started, and its state moves one step of the life cycle. *)
Theorem Reconcile_refines ns name t w :
  ∃ d, (Reconcile reconcileIn ns name (t, w)).2.1 = t ++ d ∧ run d.
Proof. by apply Reconcile_traces. Qed.

Lemma not_in_events (ev : event → Prop) e d : Forall ev d → ¬ ev e → e ∉ d.
Proof. rewrite Forall_forall. naive_solver. Qed.
(** The event of the goal is not one of those a hypothesis allows. *)
Ltac not_event := eapply not_in_events; [eassumption|]; unfold delete_event, canceling_event; cbn; naive_solver.
Lemma writes_and_releases_events s d :
  writes_and_releases s d → Forall (λ e, write_event s e ∨ release_event e) d.
Proof.
  intros (dw & dr & -> & Hw & Hr & _). apply Forall_app.
  split; (eapply Forall_impl; [eassumption|]); naive_solver.
Qed.
Lemma not_sent s d cmd : writes_and_releases s d → Sent cmd ∉ d.
Proof. intros Hd%writes_and_releases_events. by not_event. Qed.

Lemma acted_sent cr d0 d cmd :
  acted cr d0 d → Sent cmd ∈ d → ∃ cluster d', d = Sent cmd :: d' ∧ (∀ cmd', Sent cmd' ∉ d') ∧
    fresh_backup cr = true ∧ cleared cr cluster d0.
Proof.
  intros [d' Hd' _|cluster cmd' d' Hf Hc Hd'] Hin.
  - exfalso. revert Hin. by not_event.
  - assert (∀ cmd', Sent cmd' ∉ d') as Hno by (intros c; by not_event).
    apply elem_of_cons in Hin as [[= ->]|Hin]; [|by destruct (Hno cmd)]. by exists cluster, d'.
Qed.


Lemma acted_snapshot cr d0 d k ns name k2 : acted cr d0 d → d = k ++ SnapDeleted ns name :: k2 → reported_cancelled k.
Proof.
  intros [d' _ Hcr|cluster cmd d' _ _ Hd'] Ed; [by eapply Hcr|]. exfalso.
  assert (SnapDeleted ns name ∈ Sent cmd :: d') as Hin by (rewrite Ed; set_solver).
  apply elem_of_cons in Hin as [?|Hin]; [done|]. revert Hin. by not_event.
Qed.
(** What a run may delete *)
Definition erases_as_asked (d : list event) : Prop :=
  ∀ d1 e d2, d = d1 ++ e :: d2 →
    (e = Erased → ∃ cr, head d = Some (Read cr) ∧ erasable cr) ∧
    (∀ sns sname, e = SnapDeleted sns sname → ∃ cr, head d = Some (Read cr) ∧
       (erasable cr ∨ backupStateTerminal (bk_State cr) = false ∧
                      (cancellationRequested cr = true ∨ reported_cancelled d1))).
Lemma erases_as_asked_none d : Erased ∉ d → (∀ ns name, SnapDeleted ns name ∉ d) → erases_as_asked d.
Proof.
  intros He Hs d1 e d2 ->. split; [intros ->|intros ? ? ->]; exfalso; [apply He|eapply Hs];
    apply elem_of_app; right; left.
Qed.

(** C29: A run deletes the data of a backup (its files and metadata, by PBM or
    in the storage, and oplog chunks) only for a backup that was read as being
    deleted, ready, not incremental, with a name in PBM and with the finalizer
    for it. It deletes a volume snapshot only for such a backup, or for one
    that has not ended and is being cancelled or that PBM, earlier in the run,
    said to be cancelled. *)
Theorem data_erased_only_when_asked ns name t w :
  ∃ d, (Reconcile reconcileIn ns name (t, w)).2.1 = t ++ d ∧ erases_as_asked d.
Proof.
  apply Reconcile_traces. intros d Hd.
  destruct Hd as [|cr d _ _ Hd|cr d _ _ Hd|cr d1 dm s d2 Ht Hc Hd1 Hdm _ Hd2|cr d0 d1 s d2 Ht Hc Hd0 Hs _ Hd2].
  - apply erases_as_asked_none; intros; apply not_elem_of_nil.
  - apply erases_as_asked_none; intros; (apply not_elem_of_cons; split; [done|]); by not_event.
  - intros e1 e e2 He. destruct e1 as [|x e1]; injection He as <- ->; [split; naive_solver|].
    apply Forall_app in Hd as [_ [Hd _]%Forall_cons].
    split; [intros ->|intros ? ? ->]; exists cr; (split; [done|]); destruct Hd as [[]|[[]|[_ ?]]]; auto.
  - intros e1 e e2 He. destruct e1 as [|x e1]; injection He as <- He; [split; naive_solver|].
    split; [|intros ? ? ->; exists cr; by auto].
    apply writes_and_releases_events in Hd2. intros ->. exfalso.
    assert (Erased ∈ d1 ++ dm ++ d2) as Hin by (rewrite He; set_solver). revert Hin.
    rewrite !elem_of_app. intros [Hin|[Hin|Hin]]; revert Hin; by not_event.
  - apply writes_and_releases_events in Hd2.
    intros e1 e e2 He. destruct e1 as [|x e1]; injection He as <- He; [split; naive_solver|].
    assert (e ∈ d0 ++ d1 ++ d2) as Hin by (rewrite He; set_solver). split.
    + intros ->. exfalso. revert Hin. rewrite !elem_of_app. intros [Hin|[Hin|Hin]]; revert Hin; [by not_event| |by not_event].
      destruct Hs as [d Hd _|cluster cmd d _ _ Hd]; [by not_event|].
      apply not_elem_of_cons. split; [done|]. by not_event.
    + intros sns sname ->. exists cr. split; [done|]. right. split; [done|]. right.
      assert (∀ d, SnapDeleted sns sname ∉ d → ∀ d', d ++ d' = e1 ++ SnapDeleted sns sname :: e2 →
        ∃ k, e1 = d ++ k ∧ d' = k ++ SnapDeleted sns sname :: e2) as Hskip.
      { intros d Hd d' Hdd. destruct (app_split _ _ _ _ _ Hdd) as [?|(k & -> & ->)]; [done|by exists k]. }
      destruct (Hskip d0 ltac:(by not_event) _ He) as (k & -> & Hk).
      assert (SnapDeleted sns sname ∉ d2) as Hno by (by not_event).
      apply app_eq_inv in Hk as [(k2 & E1 & Hk)|(k2 & -> & Hk)]; [|by destruct Hno; rewrite Hk; set_solver].
      destruct k2 as [|x k2]; cbn in Hk; simplify_eq; [destruct Hno; left|].
      destruct (acted_snapshot _ _ _ _ _ _ _ Hs eq_refl) as (m & Hm & Em). exists m. set_solver.
Qed.

End handlers.

(** * Concrete runs *)
(** An API server with one backup, one cluster and the given restores, and
    without leases *)
Definition one_backup (b : PerconaServerMongoDBBackup) (restores : list PerconaServerMongoDBRestore)
    : BackupClient unit := {|
  api_get_cluster := λ _ _, mret a_backup_cluster; api_read_cluster := λ _ _, mret a_backup_cluster;
  api_get_backup := λ _ _, mret b; api_read_backup := λ _ _, mret b;
  api_list_backups := λ _ _, mret [b]; api_list_restores := λ _, mret restores;
  api_create_backup := λ _, mret tt; api_delete_backup := λ _, mret tt;
  api_update_backup_status := λ _, mret tt; api_update_backup := λ _, mret tt;
  api_patch_finalizers := λ _ _, mret tt; go_now := mret 1700000000000000000%Z; go_stamp := mret ""
|}.
Definition no_leases : LeaseClient unit := {|
  lease_get := λ _ _, notFound; lease_create_or_update := λ l f, f l;
  lease_delete := λ _, mret tt; lease_now := mret 0%Z |}.
Definition no_files : BackupFiles unit := {|
  files_exec := λ _ _ _, mret tt; files_open := λ _, mret tt; files_delete := λ _ _, mret tt |}.
(** PBM with a finished backup *)
Definition done_PBM : PBM unit := {|
  newPBM := λ _, mret tt; pbm_Close := mret tt; pbm_SendCmd := λ _, mret tt;
  pbm_GetBackupMeta := λ _, mret (Some (a_meta StatusDone)); pbm_Node := mret "node";
  pbm_FinishBackup := λ _, mret tt; pbm_CancelBackup := λ _, mret tt; pbm_DeleteBackup := λ _, mret tt;
  pbm_DeleteBackupMeta := λ _, mret tt; pbm_DeletePITRChunks := λ _, mret tt;
  pbm_GetNSetConfigLegacy := λ _ _, mret tt; pbm_GetLocks := mret []; pbm_GetOpLocks := mret [];
  pbm_ClusterTime := mret 0%Z; pbm_StaleFrameSec := 30%Z; pbm_PrettySize := itoa
|}.

(** The lease of the given holder *)
Definition held (holder : string) : LeaseClient unit := {|
  lease_get := λ n ns, mret {| l_Name := n; l_Namespace := ns; l_UID := "l"; l_ResourceVersion := 1;
                               l_HolderIdentity := Some holder; l_AcquireTime := None |};
  lease_create_or_update := λ l f, f l; lease_delete := λ _, mret tt; lease_now := mret 0%Z |}.

Section runs.
Context (K : BackupClient unit) (L : LeaseClient unit).
Definition the_run : result reply * (list event * unit) :=
  Reconcile (KB := traced_backups) (P := traced_PBM (P := done_PBM))
    (SC := traced_snapshots (SC := emptySnapshots unit)) (E := traced_env (E := plainEnv unit))
    (L := traced_leases (L := L)) (K := quiet_k8s (K := emptyK8s unit))
    (F := traced_files (F := no_files)) (V := λ _ _, 1%Z) (O := list_order) (G := insertion_GoSort)
    (H := λ s, s) (R := steps_retry) 5 "ns" "b" ([], tt).
End runs.
Definition kind_of (e : event) : string :=
  match e with
  | Read _ => "read" | Restores _ => "restores" | LeaseSeen _ _ => "lease" | Acquired _ _ => "acquired"
  | LeaseDeleted _ => "released" | Sent _ => "sent" | Wrote b ok => "wrote"
  | Gone => "gone" | Erased => "erased" | SnapDeleted _ _ => "snapshot deleted" | ReadCluster _ => "cluster"
  | Clock _ => "clock" | NoPbm => "no PBM" | Locks _ => "locks" | OpLocks _ => "op locks" | Metadata _ => "metadata"
  end.
Definition kinds (K : BackupClient unit) (L : LeaseClient unit) : list string :=
  map kind_of (the_run K L).2.1.

Definition new_restore : PerconaServerMongoDBRestore :=
  {| r_Name := "r"; r_ClusterName := "c"; r_State := RestoreStateNew |}.
Definition deleted_backup : PerconaServerMongoDBBackup :=
  let b := a_backup "b" BackupStateReady 0 in
  {| bk_Name := "b"; bk_GenerateName := ""; bk_Namespace := "ns"; bk_UID := "u"; bk_Labels := ∅;
     bk_Annotations := ∅; bk_Finalizers := [FinalizerDeleteBackup]; bk_Deleting := true;
     bk_CreationTimestamp := 0%Z; bk_Spec := bk_Spec b;
     bk_Status := set_State BackupStateReady
       (requested "s3" "2026-01-01T00:00:00Z" 0 ["rs0"] (Some (storage_destination a_storage))) |}.

(** A new backup, a running one that PBM has finished, and a deleted one *)
Definition case_new : BackupClient unit := one_backup (a_backup "b" BackupStateNew 0) [].
Definition case_running : BackupClient unit := one_backup (a_backup "b" BackupStateRunning 0) [].
Definition case_deleted : BackupClient unit := one_backup deleted_backup [].

(** The running backup is found done, and its lock released. *)
Lemma Reconcile_refines_witness :
  ∃ d, (the_run case_running (held "b-uid-b")).2.1 = [] ++ d ∧ run (H := λ _ _, 1%Z) (H0 := list_order) d ∧
    map kind_of d = ["read"; "cluster"; "restores"; "locks"; "op locks"; "metadata"; "metadata"; "wrote";
                     "lease"; "released"].
Proof.
  pose proof steps_retry_laws.
  destruct (Reconcile_refines (V := λ _ _, 1%Z) (O := list_order) (H := λ s, s) (R := steps_retry)
    (KB := case_running) (P := done_PBM) (SC := emptySnapshots unit) (E := plainEnv unit)
    (L := held "b-uid-b") (K := emptyK8s unit) (F := no_files) (G := insertion_GoSort) 5 "ns" "b" [] tt)
    as (d & Hd & Hr).
  exists d. split; [exact Hd|]. split; [exact Hr|].
  assert (d = (the_run case_running (held "b-uid-b")).2.1) as -> by exact (eq_sym Hd).
  vm_compute. reflexivity.
Defined.


(** The deleted backup's oplog chunks and files go. *)
Lemma data_erased_only_when_asked_witness :
  ∃ d, (the_run case_deleted no_leases).2.1 = [] ++ d ∧ Erased ∈ d ∧
    ∃ cr, head d = Some (Read cr) ∧ erasable cr.
Proof.
  pose proof steps_retry_laws.
  destruct (data_erased_only_when_asked (V := λ _ _, 1%Z) (O := list_order) (H := λ s, s) (R := steps_retry)
    (KB := case_deleted) (P := done_PBM) (SC := emptySnapshots unit) (E := plainEnv unit)
    (L := no_leases) (K := emptyK8s unit) (F := no_files) (G := insertion_GoSort) 5 "ns" "b" [] tt)
    as (d & Hd & Hs).
  exists d. assert (d = (the_run case_deleted no_leases).2.1) as Ed by exact (eq_sym Hd).
  assert (Erased ∈ d) as He by (rewrite Ed; vm_compute; do 3 right; left).
  split; [exact Hd|]. split; [exact He|]. destruct (list_elem_of_split _ _ He) as (d1 & d2 & E).
  exact (proj1 (Hs d1 Erased d2 E) eq_refl).
Defined.


(** A backup that runs goes back to "waiting" when a restore is asked for, and
    from there the next run sends PBM a second command. *)
Example running_backup_sent_again :
  kinds (one_backup (a_backup "b" BackupStateRunning 0) [new_restore]) no_leases =
    ["read"; "cluster"; "restores"; "wrote"] ∧
  omap (λ e, match e with Wrote b _ => Some (bk_State b) | _ => None end)
    (the_run (one_backup (a_backup "b" BackupStateRunning 0) [new_restore]) no_leases).2.1 =
    [BackupStateWaiting] ∧
  kinds (one_backup (a_backup "b" BackupStateWaiting 0) []) no_leases =
    ["read"; "cluster"; "restores"; "locks"; "op locks"; "lease"; "acquired"; "clock"; "sent"; "clock"; "wrote"].
Proof. vm_compute. done. Qed.

(** A finalizer the controller does not know is dropped with the others. *)
Example foreign_finalizer_dropped :
  (run_finalizers (W := unit) (P := done_PBM) (SC := emptySnapshots unit)
    (L := no_leases) (K := emptyK8s unit) (F := no_files) (V := λ _ _, 1%Z) (O := list_order)
    (G := insertion_GoSort) (Some a_backup_cluster) deleted_backup (managedBackups None)
    ["example.com/keep"] [] tt).1 = Ok [].
Proof. reflexivity. Qed.
