(* ===== verification/GoFloat.v ===== *)
(** Go's [float64]: IEEE 754 binary64 numbers, with the operations the operator
    uses, on the Standard Library's specification of floating-point numbers
    (53 bits of precision, exponents up to 1024). *)
From S2P Require Import Prelude.
From Stdlib Require Export SpecFloat.

Abbreviation float64 := spec_float (only parsing).

(** [float64(z)] *)
Definition f64_of_int (z : Z) : float64 := binary_normalize 53 1024 z 0 false.
Definition f64_mul : float64 → float64 → float64 := SFmul 53 1024.
Definition f64_div : float64 → float64 → float64 := SFdiv 53 1024.
Definition f64_ltb (a b : float64) : bool := SFltb a b.

(** The integer a finite number is truncated to, and rounded down to. *)
Definition f64_trunc (f : float64) : option Z :=
  match f with
  | S754_zero _ => Some 0%Z
  | S754_finite s m e =>
      let n := if (0 <=? e)%Z then Z.shiftl (Zpos m) e else Z.shiftr (Zpos m) (- e) in
      Some (if s then (- n)%Z else n)
  | _ => None
  end.
Definition f64_floor_int (f : float64) : option Z :=
  match f with
  | S754_zero _ => Some 0%Z
  | S754_finite s m e =>
      let z := if s then Zneg m else Zpos m in
      Some (if (0 <=? e)%Z then Z.shiftl z e else Z.shiftr z (- e))
  | _ => None
  end.
(** [math.Floor(f)] *)
Definition f64_floor (f : float64) : float64 :=
  match f64_floor_int f with
  | Some 0%Z => match f with S754_zero s => S754_zero s | _ => S754_zero false end
  | Some z => f64_of_int z
  | None => f
  end.
(** [int64(f)]; where the language leaves the result to the implementation
    (infinities, NaN, out of range) it is that of amd64. *)
Definition int64_of_f64 (f : float64) : Z :=
  match f64_trunc f with
  | Some z => if ((- 2 ^ 63 <=? z) && (z <? 2 ^ 63))%Z then z else (- 2 ^ 63)%Z
  | None => (- 2 ^ 63)%Z
  end.

Example f64_half : f64_mul (f64_div (f64_of_int 1) (f64_of_int 2)) (f64_of_int 7)
  = f64_div (f64_of_int 7) (f64_of_int 2).
Proof. reflexivity. Qed.
Example f64_floor_negative : f64_floor (f64_div (f64_of_int (-7)) (f64_of_int 2)) = f64_of_int (-4).
Proof. reflexivity. Qed.
Example int64_of_half : int64_of_f64 (f64_div (f64_of_int 7) (f64_of_int 2)) = 3%Z.
Proof. reflexivity. Qed.
