(* ===== verification/InPlace.v ===== *)
(** Resizing a pod in place (pkg/controller/perconaservermongodb/inplace.go,
    pkg/psmdb/container.go, pkg/psmdb/mongo/wiredtiger.go): whether a pod can be
    moved to a new revision without a restart, and how. *)
From S2P Require Import Prelude GoFloat ReplsetModels MongoClient Api Kube Hosts SystemUsers Cluster BackupApi.

(** * The parts of the resources that updates read *)
Definition SmartUpdateStatefulSetStrategyType : string := "SmartUpdate".
Definition VPAUpdateModeAuto : string := "Auto".
Definition StorageEngineWiredTiger : string := "wiredTiger".

Record VPASpec := {
  vpa_Enabled : bool;
  vpa_UpdateMode : string;
  vpa_InPlaceResize : bool
}.
Record SmartCluster := {
  sc_bc :> BackupCluster;
  sc_UpdateStrategy : string;
  sc_VPA : option VPASpec;
  sc_MongosDelay : Z;                       (* Sharding.Mongos.LivenessProbe.InitialDelaySeconds *)
  sc_BalancerEnabled : option bool;         (* Sharding.Balancer.Enabled *)
  sc_TLS : option (option bool);            (* TLS, its AllowInvalidCertificates *)
  sc_Deleting : bool                        (* DeletionTimestamp != nil *)
}.

(** Storage.WiredTiger.EngineConfig with its cache size ratio as a float64 *)
Record MongodSpecStorage := {
  ms_Engine : string;
  ms_WiredTiger : option (option float64)
}.
Record SmartReplset := {
  sr_rs :> ReplsetSpec;
  sr_LivenessDelay : Z;                     (* LivenessProbe.InitialDelaySeconds *)
  sr_Storage : option MongodSpecStorage
}.

Definition VPAInPlaceResizeEnabled `{Versions} (cr : SmartCluster) : bool :=
  (0 <=? CompareVersion cr "1.24.0")%Z &&
  bool_decide (sc_UpdateStrategy cr = SmartUpdateStatefulSetStrategyType) &&
  match sc_VPA cr with
  | None => false
  | Some v => vpa_Enabled v && bool_decide (vpa_UpdateMode v = VPAUpdateModeAuto) && vpa_InPlaceResize v
  end.

(** * The cache size of WiredTiger *)
Definition ResourceMemory : string := "memory".
Definition ResourceCPU : string := "cpu".
Definition GigaByte : Z := Z.shiftl 1 30.
Definition MinWiredTigerCacheSizeGB : float64 := f64_div (f64_of_int 1) (f64_of_int 4).

Definition getWiredTigerCacheSizeGB (resourceList : gmap string Z) (cacheRatio : float64)
    (subtract1GB : bool) : float64 :=
  let maxMemory := default 0%Z (resourceList !! ResourceMemory) in
  let size :=
    if subtract1GB
    then f64_floor (f64_mul cacheRatio (f64_of_int (wrap64 (Value maxMemory - GigaByte))))
    else f64_floor (f64_mul cacheRatio (f64_of_int (Value maxMemory))) in
  let sizeGB := f64_div size (f64_of_int GigaByte) in
  if f64_ltb sizeGB MinWiredTigerCacheSizeGB then MinWiredTigerCacheSizeGB else sizeGB.
Definition WiredTigerCacheSizeGB (limits : gmap string Z) (ratio : float64) : float64 :=
  getWiredTigerCacheSizeGB limits ratio true.

Definition SetWiredTigerCacheSize {W} (c : Client W) (sizeGB : float64) : GoM W unit :=
  let cmd := [("setParameter", VInt 1);
              ("wiredTigerEngineRuntimeConfig",
               VStr ("cache_size=" +:+ itoa (int64_of_f64 (f64_mul sizeGB (f64_of_int 1024))) +:+ "M"))] in
  res ← cRunCommand "admin" cmd;
  match cres_Err res with
  | Some e => throw (EWrap e "setParameter wiredTigerEngineRuntimeConfig")
  | None =>
      match cres_OK res with
      | Err e => throw (EWrap e "decode setParameter response")
      | Ok resp => when negb (OK resp =? 1)%Z raise ENew ("mongo says: " +:+ Errmsg resp); mret tt
      end
  end.

(** * Resources *)
Definition findContainer (containers : list Container) (name : string) : option Container :=
  head (filter (λ c, ctr_Name c = name) containers).

Definition ComponentConfigSrv : string := "cfg".
Definition ContainerMongod : string := ComponentMongod.
Definition ContainerMongos : string := ComponentMongos.
Definition ContainerNonVoting : string := "mongod-nv".
Definition ContainerArbiter : string := "mongod-arbiter".
Definition ContainerHidden : string := "mongod-hidden".

Definition managedContainer (component : string) : string :=
  if bool_decide (component = ComponentMongod) || bool_decide (component = ComponentConfigSrv)
  then ContainerMongod
  else if bool_decide (component = ComponentNonVoting) then ContainerNonVoting
  else if bool_decide (component = ComponentHidden) then ContainerHidden
  else if bool_decide (component = ComponentMongos) then ContainerMongos
  else "".

(** A missing request is the limit. *)
Definition normalizeResources (r : ResourceRequirements) : ResourceRequirements :=
  {| res_Requests := res_Requests r ∪ res_Limits r; res_Limits := res_Limits r |}.

Definition quantity_equal (name : string) (qa qb : Z) : bool :=
  if bool_decide (name = ResourceCPU) then (MilliValue qa =? MilliValue qb)%Z
  else (Value qa =? Value qb)%Z.
Definition quantitiesEqual (a b : gmap string Z) : bool :=
  (size a =? size b)%nat &&
  forallb (λ '(name, qa), match b !! name with Some qb => quantity_equal name qa qb | None => false end)
    (map_to_list a).
Definition resourcesApplied (actual target : ResourceRequirements) : bool :=
  let actual := normalizeResources actual in
  let target := normalizeResources target in
  quantitiesEqual (res_Requests actual) (res_Requests target)
  && quantitiesEqual (res_Limits actual) (res_Limits target).

(** * Pod templates of a revision

    Of a template the containers with their resources are read; everything
    else is only compared, as text.  The comparison of the source takes
    quantities by value and tells no empty map from a missing one. *)
Record PodTemplateSpec := {
  tpl_Containers : list (Container * string);       (* each with its other fields *)
  tpl_InitContainers : list (Container * string);
  tpl_Rest : string
}.
#[export] Instance PodTemplateSpec_eq_dec : EqDecision PodTemplateSpec.
Proof. solve_decision. Defined.

Definition clear_resources (c : Container * string) : Container * string :=
  ({| ctr_Name := ctr_Name c.1; ctr_Image := ctr_Image c.1; ctr_Ports := ctr_Ports c.1; ctr_Resources := noResources |}, c.2).
(** The first container of that name *)
Fixpoint clear_container (name : string) (l : list (Container * string)) : list (Container * string) :=
  match l with
  | [] => []
  | c :: l' => if bool_decide (ctr_Name c.1 = name) then clear_resources c :: l'
               else c :: clear_container name l'
  end.
Definition clear_template (container : string) (t : PodTemplateSpec) : PodTemplateSpec :=
  {| tpl_Containers := clear_container container (tpl_Containers t);
     tpl_InitContainers := clear_resources <$> tpl_InitContainers t;
     tpl_Rest := tpl_Rest t |}.
Definition onlyResourcesDiffer (a b : PodTemplateSpec) (container : string) : bool :=
  bool_decide (clear_template container a = clear_template container b).

(** * Plans *)
Inductive memoryChange := memoryUnchanged | memoryGrow | memoryShrink.
#[export] Instance memoryChange_eq_dec : EqDecision memoryChange.
Proof. solve_decision. Defined.
Record inPlaceResize := {
  ip_container : string;
  ip_target : ResourceRequirements;
  ip_memory : memoryChange;
  ip_cacheGB : float64
}.

(** A step of [PollUntilContextTimeout]: the next poll, the timeout, or the end
    of the caller's context. *)
Inductive poll_step := PollNext | PollTimedOut | PollDone (e : error).

(** Pods and revisions in the API server.  A patch is given the object it starts
    from and the changed one, and returns the object as the server has it. *)
Class PodClient (W : Type) := {
  pod_get : string → string → GoM W Pod;
  pod_delete : Pod → GoM W unit;
  pod_patch : Pod → Pod → GoM W Pod;
  pod_resize : Pod → Pod → GoM W Pod;              (* SubResource("resize").Patch *)
  revision_template : string → string → GoM W PodTemplateSpec;   (* and its decoding *)
  poll_tick : GoM W poll_step;
  ctx_err : GoM W (option error)                   (* ctx.Err() *)
}.

(** The version of the API server, and the comparison of versions of
    k8s.io/apimachinery; [None] when the version cannot be parsed. *)
Class KubeVersion := {
  serverVersion : option string;
  version_AtLeast : string → Z → Z → option bool
}.

Definition inPlaceResizeSupported `{KubeVersion} : bool :=
  match serverVersion with
  | None => false
  | Some v => default false (version_AtLeast v 1 33)
  end.

(** 2 minutes at one poll per second *)
Definition inPlaceResizePolls : nat := 120.
Definition revision_label : string := "controller-revision-hash".
Definition label_of (l : string) (pod : Pod) : string := default "" (pod_Labels pod !! l).
Definition pod_revision (pod : Pod) : string := label_of revision_label pod.
Definition pod_component (pod : Pod) : string := label_of LabelComponent pod.

Definition with_pod_Labels (l : gmap string string) (p : Pod) : Pod :=
  {| pod_Name := pod_Name p; pod_Namespace := pod_Namespace p; pod_Labels := l;
     pod_Annotations := pod_Annotations p; pod_Deleting := pod_Deleting p; pod_NodeName := pod_NodeName p;
     pod_InitContainers := pod_InitContainers p; pod_Containers := pod_Containers p;
     pod_Phase := pod_Phase p; pod_HostIP := pod_HostIP p;
     pod_ContainerStatuses := pod_ContainerStatuses p; pod_Conditions := pod_Conditions p |}.
Definition with_pod_Containers (cs : list Container) (p : Pod) : Pod :=
  {| pod_Name := pod_Name p; pod_Namespace := pod_Namespace p; pod_Labels := pod_Labels p;
     pod_Annotations := pod_Annotations p; pod_Deleting := pod_Deleting p; pod_NodeName := pod_NodeName p;
     pod_InitContainers := pod_InitContainers p; pod_Containers := cs;
     pod_Phase := pod_Phase p; pod_HostIP := pod_HostIP p;
     pod_ContainerStatuses := pod_ContainerStatuses p; pod_Conditions := pod_Conditions p |}.

(** [c.Resources = target] on the container [findContainer] found *)
Fixpoint set_resources (name : string) (target : ResourceRequirements) (l : list Container) : list Container :=
  match l with
  | [] => []
  | c :: l' => if bool_decide (ctr_Name c = name)
               then {| ctr_Name := ctr_Name c; ctr_Image := ctr_Image c; ctr_Ports := ctr_Ports c; ctr_Resources := target |} :: l'
               else c :: set_resources name target l'
  end.

Section inplace.
Context {W : Type} {K : K8sClient W} {Q : PodClient W} {P : MongoClientProvider W} {Y : Yaml}.
Context {V : Versions} {KV : KubeVersion}.
Abbreviation M := (GoM W).
Implicit Types (cr : SmartCluster) (pod : Pod).

(** connections.go *)
Definition standaloneClientWithRole cr (rs : ReplsetSpec) (role : string) pod : M (Client W) :=
  host ← wrapM "failed to get mongo host" (MongoHost cr (cr_DNSMode cr) rs (rs_ExposeEnabled rs) pod);
  mp_Standalone cr role host (TLSEnabled cr).

Definition setPodCacheSize cr (replset : ReplsetSpec) pod (sizeGB : float64) : M unit :=
  c ← wrapM "create standalone client" (standaloneClientWithRole cr replset RoleClusterAdmin pod);
  deferM mp_Disconnect (SetWiredTigerCacheSize c sizeGB).

(** The plan, or none when the pod has to be recreated; the reasons are only
    logged. *)
Definition planInPlaceResize cr (replset : option SmartReplset) (updateRevision : string) pod
    : M (option inPlaceResize) :=
  if negb (VPAInPlaceResizeEnabled cr) then mret None
  else if negb inPlaceResizeSupported then mret None
  else
    let container := managedContainer (pod_component pod) in
    if bool_decide (container = "") then mret None
    else
      r ← tryM (revision_template (pod_Namespace pod) (pod_revision pod));
      match r with
      | Err e => if IsNotFound e then mret None else throw (EWrap e "get pod revision")
      | Ok cur =>
          r ← tryM (revision_template (pod_Namespace pod) updateRevision);
          match r with
          | Err e => if IsNotFound e then mret None else throw (EWrap e "get update revision")
          | Ok upd =>
              if negb (onlyResourcesDiffer cur upd container) then mret None
              else
                match findContainer (fst <$> tpl_Containers cur) container,
                      findContainer (fst <$> tpl_Containers upd) container,
                      findContainer (pod_Containers pod) container with
                | Some curC, Some updC, Some _ =>
                    let target := ctr_Resources updC in
                    let plan m gb := {| ip_container := container; ip_target := target;
                                        ip_memory := m; ip_cacheGB := gb |} in
                    let memory c := default 0%Z (res_Limits (ctr_Resources c) !! ResourceMemory) in
                    if bool_decide (container = ContainerMongos) then mret (Some (plan memoryUnchanged (f64_of_int 0)))
                    else
                      match (memory curC ?= memory updC)%Z with
                      | Eq => mret (Some (plan memoryUnchanged (f64_of_int 0)))
                      | c =>
                          let change := match c with Lt => memoryGrow | _ => memoryShrink end in
                          match replset with
                          | Some rs =>
                              match sr_Storage rs with
                              | Some st =>
                                  if bool_decide (ms_Engine st = StorageEngineWiredTiger) then
                                    match ms_WiredTiger st with
                                    | Some (Some ratio) =>
                                        mret (Some (plan change
                                          (WiredTigerCacheSizeGB (res_Limits target) ratio)))
                                    | _ => throw nil_panic
                                    end
                                  else mret None
                              | None => mret None
                              end
                          | None => mret None
                          end
                      end
                | _, _, _ => mret None
                end
          end
      end.

(** The pod as the call leaves it, and its error. *)
Definition resizePod pod (plan : inPlaceResize) : M (Pod * option error) :=
  match findContainer (pod_Containers pod) (ip_container plan) with
  | None => throw nil_panic
  | Some c =>
      if resourcesApplied (ctr_Resources c) (ip_target plan) then mret (pod, None)
      else
        let pod' := with_pod_Containers
                      (set_resources (ip_container plan) (ip_target plan) (pod_Containers pod)) pod in
        r ← tryM (pod_resize pod pod');
        match r with
        | Ok p => mret (p, None)
        | Err e => mret (pod', Some e)
        end
  end.

Definition PodResizePending : string := "PodResizePending".
Definition PodResizeInProgress : string := "PodResizeInProgress".

(** The conditions in their order: a failed resize ends the loop. *)
Fixpoint resize_conditions (inProgress : bool) (l : list PodCondition) : result bool :=
  match l with
  | [] => Ok inProgress
  | cond :: l' =>
      if bool_decide (pc_Type cond = PodResizePending) then
        if bool_decide (pc_Reason cond = "Infeasible")
        then Err (ENew ("resize is infeasible: " +:+ pc_Message cond))
        else resize_conditions true l'
      else if bool_decide (pc_Type cond = PodResizeInProgress) then
        if bool_decide (pc_Reason cond = "Error")
        then Err (ENew ("resize failed: " +:+ pc_Message cond))
        else resize_conditions true l'
      else resize_conditions inProgress l'
  end.
Definition resize_done (plan : inPlaceResize) pod : bool :=
  existsb (λ cs, bool_decide (cs_Name cs = ip_container plan) &&
                 match cs_Resources cs with
                 | Some r => resourcesApplied r (ip_target plan)
                 | None => false
                 end) (pod_ContainerStatuses pod).

(** What is left when the polling has ended with an error: an error when the
    caller's context has ended, and otherwise a pod to recreate. *)
Definition resize_gave_up pod : M (bool * Pod) :=
  e ← ctx_err;
  match e with
  | Some e => throw (EWrap e "wait for resize")
  | None => mret (false, pod)
  end.

Fixpoint waitPodResized (polls : nat) pod (plan : inPlaceResize) : M (bool * Pod) :=
  match polls with
  | 0 => resize_gave_up pod
  | S polls' =>
      tick ← poll_tick;
      match tick with
      | PollDone e => throw (EWrap e "wait for resize")
      | PollTimedOut => resize_gave_up pod
      | PollNext =>
          got ← tryM (pod_get (pod_Namespace pod) (pod_Name pod));
          match got with
          | Err e => resize_gave_up pod
          | Ok pod =>
              match resize_conditions false (pod_Conditions pod) with
              | Err e => resize_gave_up pod
              | Ok true => waitPodResized polls' pod plan
              | Ok false => if resize_done plan pod then mret (true, pod)
                            else waitPodResized polls' pod plan
              end
          end
      end
  end.

(** Whether the pod was moved to the revision, and the pod as it is then. *)
Definition tryInPlaceResize cr (replset : option SmartReplset) (updateRevision : string) pod
    : M (bool * Pod) :=
  plan ← wrapM "plan in-place resize" (planInPlaceResize cr replset updateRevision pod);
  match plan with
  | None => mret (false, pod)
  | Some plan =>
      let set_cache pod :=
        match replset with
        | Some rs => setPodCacheSize cr rs pod (ip_cacheGB plan)
        | None => throw nil_panic
        end in
      shrunk ← (if bool_decide (ip_memory plan = memoryShrink) then catchM (set_cache pod) else mret (Ok tt));
      match shrunk with
      | Err _ => mret (false, pod)
      | Ok _ =>
          '(pod, err) ← resizePod pod plan;
          match err with
          | Some _ => mret (false, pod)
          | None =>
              '(resized, pod) ← wrapM "wait for in-place resize" (waitPodResized inPlaceResizePolls pod plan);
              if negb resized then mret (false, pod)
              else
                (if bool_decide (ip_memory plan = memoryGrow)
                 then catchM (set_cache pod);; mret tt else mret tt);;
                pod' ← wrapM "relabel pod"
                  (pod_patch pod (with_pod_Labels (<[revision_label := updateRevision]> (pod_Labels pod)) pod));
                mret (true, pod')
          end
      end
  end.
End inplace.
