(* ===== verification/SmartUpdate.v ===== *)
(** The smart update (pkg/controller/perconaservermongodb/smart.go, balancer.go,
    with what they use of getters.go, ssl.go and pkg/k8s/utils.go): rolling the
    pods of a replica set or of mongos to a new revision, one pod at a time, the
    primary last and after it has stepped down.

    [updateStatus], which the waiting loop calls in every round, is the class
    [StatusUpdater].  It changes the status of the cluster resource, which the
    handlers below read only before their first wait. *)
From S2P Require Import Prelude GoFloat ReplsetModels MongoClient Api GoSort Kube Hosts SystemUsers Cluster.
From S2P Require Import BackupApi BackupSchedule Lease BackupExec BackupController.
From S2P Require Export InPlace.

Class StatusUpdater (W : Type) := update_status : SmartCluster → option error → string → GoM W unit.
(** The cluster resource, read and written as a whole *)
Class ClusterClient (W : Type) := {
  cr_get : string → string → GoM W PerconaServerMongoDB;
  cr_update : PerconaServerMongoDB → GoM W unit
}.

(** * Pods and stateful sets *)
Definition sts_label (l : string) (s : StatefulSet) : string := default "" (sts_Labels s !! l).

Definition HasStatefulSetChanged (sfs : StatefulSet) (podList : list Pod) : bool :=
  if bool_decide (sts_UpdateRevision sfs = "") then false
  else existsb (λ pod,
         bool_decide (pod_component pod = sts_label LabelComponent sfs)
         && negb (bool_decide (pod_revision pod = sts_UpdateRevision sfs))) podList.

Definition PodIndexLabel : string := "apps.kubernetes.io/pod-index".
Definition podOrdinal (pod : Pod) : Z :=
  match pod_Labels pod !! PodIndexLabel with
  | None => -1
  | Some val =>
      match atoi val with
      | Some ordinal => if (ordinal <? 0)%Z then -1 else ordinal
      | None => -1
      end
  end.
Definition sortPodsByOrdinal `{GoSort} (less : Z → Z → bool) (pods : list Pod) : list Pod :=
  sort_slice (λ a b, less (podOrdinal a) (podOrdinal b)) pods.

(** The last container of a known name decides. *)
Definition known_container (name : string) : bool :=
  bool_decide (name ∈ [ContainerMongod; ContainerMongos; ContainerNonVoting; ContainerArbiter; ContainerHidden]).
Definition main_ready (pod : Pod) : bool :=
  foldl (λ ready cs, if known_container (cs_Name cs) then cs_Ready cs else ready) false
    (pod_ContainerStatuses pod).
(** The pod runs the revision. *)
Definition pod_started (updateRevision : string) (pod : Pod) : bool :=
  bool_decide (pod_Phase pod = PodRunning) && bool_decide (pod_revision pod = updateRevision)
  && main_ready pod.

Definition with_cr_Annotations (a : gmap string string) (cr : PerconaServerMongoDB) : PerconaServerMongoDB :=
  {| cr_Name := cr_Name cr; cr_Namespace := cr_Namespace cr; cr_UID := cr_UID cr;
     cr_Generation := cr_Generation cr; cr_Annotations := a;
     cr_CRVersion := cr_CRVersion cr; cr_Unmanaged := cr_Unmanaged cr;
     cr_UnsafeReplsetSize := cr_UnsafeReplsetSize cr; cr_ShardingEnabled := cr_ShardingEnabled cr;
     cr_MongosSize := cr_MongosSize cr; cr_MongosServicePerPod := cr_MongosServicePerPod cr;
     cr_MongosExposeType := cr_MongosExposeType cr; cr_ConfigsvrReplSet := cr_ConfigsvrReplSet cr;
     cr_Replsets := cr_Replsets cr; cr_DNSMode := cr_DNSMode cr; cr_DNSSuffix := cr_DNSSuffix cr;
     cr_MCSEnabled := cr_MCSEnabled cr; cr_MCSDNSSuffix := cr_MCSDNSSuffix cr; cr_TLSMode := cr_TLSMode cr;
     cr_DefaultRWConcern := cr_DefaultRWConcern cr; cr_SecretsUsers := cr_SecretsUsers cr;
     cr_SearchEnabled := cr_SearchEnabled cr |}.
Definition with_sc_Annotations (a : gmap string string) (cr : SmartCluster) : SmartCluster :=
  {| sc_bc := {| bc_cr := with_cr_Annotations a cr; bc_Backup := bc_Backup cr; bc_Status := bc_Status cr;
                 bc_Pause := bc_Pause cr; bc_SecretsSSE := bc_SecretsSSE cr; bc_UnsafeConf := bc_UnsafeConf cr;
                 bc_BackupIfUnhealthy := bc_BackupIfUnhealthy cr |};
     sc_UpdateStrategy := sc_UpdateStrategy cr; sc_VPA := sc_VPA cr; sc_MongosDelay := sc_MongosDelay cr;
     sc_BalancerEnabled := sc_BalancerEnabled cr; sc_TLS := sc_TLS cr; sc_Deleting := sc_Deleting cr |}.

Definition DefaultBackoffSteps : nat := 4.      (* retry.DefaultBackoff *)
Definition no_electable : string := "No electable secondaries caught up".
Definition AnnotationSSLHash : string := "percona.com/ssl-hash".
Definition AnnotationSSLInternalHash : string := "percona.com/ssl-internal-hash".
Definition DefaultAllowInvalidCertificates : bool := true.

Definition zeroPod : Pod :=
  {| pod_Name := ""; pod_Namespace := ""; pod_Labels := ∅; pod_Annotations := ∅; pod_Deleting := false;
     pod_NodeName := ""; pod_InitContainers := []; pod_Containers := []; pod_Phase := ""; pod_HostIP := "";
     pod_ContainerStatuses := []; pod_Conditions := [] |}.

Section smart.
Context {W : Type} {K : K8sClient W} {Q : PodClient W} {P : MongoClientProvider W} {E : ClusterEnv W}.
Context {KB : BackupClient W} {PB : PBM W} {SU : StatusUpdater W} {CC : ClusterClient W}.
Context {Y : Yaml} {V : Versions} {KV : KubeVersion} {G : GoSort} {R : GoRetryOn}.
Abbreviation M := (GoM W).
Implicit Types (cr : SmartCluster) (replset : SmartReplset) (pod : Pod) (sfs : StatefulSet).

(** ** getters.go *)
Definition getMongosPods cr : M (list Pod) :=
  k8s_list_pods (cr_Namespace cr) (SelectorFromSet (MongosLabels cr)).
Definition ArbiterLabels cr (rs : ReplsetSpec) : gmap string string :=
  <[LabelComponent := ComponentArbiter]> (RSLabels cr (Some rs)).
(** The number is checked before the error. *)
Definition getArbiterStatefulset cr (rs : ReplsetSpec) : M StatefulSet :=
  r ← tryM (k8s_list_sts (cr_Namespace cr) (SelectorFromSet (ArbiterLabels cr rs)));
  match match r with Ok l => l | Err _ => [] end with
  | [s] => mret s
  | l => throw (ENew ("invalid sfs arbiter count: " +:+ itoa (Z.of_nat (length l))))
  end.
Definition getRsStatefulset cr (rs : string) : M StatefulSet :=
  k8s_get_sts (cr_Namespace cr) (cr_Name cr +:+ "-" +:+ rs).

(** ** Updating mongos first *)
Definition setUpdateMongosFirst cr : M SmartCluster :=
  if negb (cr_ShardingEnabled cr) then mret cr
  else if bool_decide (is_Some (cr_Annotations cr !! AnnotationUpdateMongosFirst)) then mret cr
  else
    retry_on DefaultBackoffSteps (is_kind KConflict)
      (c ← cr_get (cr_Namespace cr) (cr_Name cr);
       if bool_decide (is_Some (cr_Annotations c !! AnnotationUpdateMongosFirst)) then mret tt
       else cr_update (with_cr_Annotations (<[AnnotationUpdateMongosFirst := "true"]> (cr_Annotations c)) c));;
    mret (with_sc_Annotations (<[AnnotationUpdateMongosFirst := "true"]> (cr_Annotations cr)) cr).

Definition unsetUpdateMongosFirst cr : M SmartCluster :=
  if negb (cr_ShardingEnabled cr) then mret cr
  else
    retry_on DefaultBackoffSteps (is_kind KConflict)
      (c ← cr_get (cr_Namespace cr) (cr_Name cr);
       if negb (bool_decide (is_Some (cr_Annotations c !! AnnotationUpdateMongosFirst))) then mret tt
       else cr_update (with_cr_Annotations (delete AnnotationUpdateMongosFirst (cr_Annotations c)) c));;
    mret (with_sc_Annotations (delete AnnotationUpdateMongosFirst (cr_Annotations cr)) cr).

(** ssl.go *)
Definition mongosNeedsLatestTLS cr : result bool :=
  if cr_ShardingEnabled cr && (0 <? cr_MongosSize cr)%Z && TLSEnabled cr
     && bool_decide (sc_UpdateStrategy cr = SmartUpdateStatefulSetStrategyType) then
    match sc_TLS cr with
    | None => Err nil_panic
    | Some allow => Ok (negb (default DefaultAllowInvalidCertificates allow))
    end
  else Ok false.

Definition tls_outdated sfs pod : bool :=
  existsb (λ k, negb (bool_decide (default "" (pod_Annotations pod !! k)
                                   = default "" (sts_TemplateAnnotations sfs !! k))))
    [AnnotationSSLHash; AnnotationSSLInternalHash].

Definition updateMongosFirstIfTLSOutdated cr sfs : M SmartCluster :=
  needs ← liftR (mongosNeedsLatestTLS cr);
  if negb needs then mret cr
  else
    pods ← wrapM "get mongos pods" (getMongosPods cr);
    if existsb (tls_outdated sfs) pods then setUpdateMongosFirst cr else mret cr.

(** ** The balancer *)
Definition balancer_IsEnabled cr : bool := default true (sc_BalancerEnabled cr).

Fixpoint isStsListUpToDate cr (stsList : list StatefulSet) : M bool :=
  match stsList with
  | [] => mret true
  | s :: stsList' =>
      r ← tryM (k8s_list_pods (cr_Namespace cr) (SelectorFromSet (sts_Labels s)));
      match r with
      | Err e => throw (ENew ("failed to get statefulset " +:+ sts_Name s +:+ " pods: " +:+ err_string e))
      | Ok podList =>
          if (sts_UpdatedReplicas s <? sts_Replicas s)%Z || HasStatefulSetChanged s podList then mret false
          else isStsListUpToDate cr stsList'
      end
  end.
Definition isAllSfsUpToDate cr : M bool :=
  sfsList ← wrapM "failed to get statefulset list"
    (k8s_list_sts (cr_Namespace cr) (SelectorFromSet {[ LabelInstance := cr_Name cr ]}));
  isStsListUpToDate cr sfsList.

Definition mongosClientWithRole cr (role : string) : M (Client W) := mp_Mongos cr role.

(** The mongos pods can be asked. *)
Definition mongos_pods_ready (pods : list Pod) : bool :=
  negb (bool_decide (pods = [])) &&
  forallb (λ p, bool_decide (pod_Phase p = PodRunning) && forallb cs_Ready (pod_ContainerStatuses p)) pods.

Definition start_balancer cr : M unit :=
  mongosSession ← wrapM "failed to get mongos connection" (mongosClientWithRole cr RoleClusterAdmin);
  deferM mp_Disconnect
    (run ← wrapM "failed to check if balancer running" cIsBalancerRunning;
     if negb run then wrapM "failed to start balancer" cStartBalancer else mret tt).

Definition enableBalancerIfNeeded cr : M unit :=
  if negb (cr_ShardingEnabled cr) || (cr_MongosSize cr =? 0)%Z || negb (balancer_IsEnabled cr)
     || cr_Unmanaged cr || sc_Deleting cr || bc_Pause cr then mret tt
  else if IsPVCShrinkInProgress cr then mret tt
  else
    uptodate ← wrapM "failed to check if all sfs are up to date" (isAllSfsUpToDate cr);
    bcpRunning ← wrapM "failed to check running backups" (isBackupRunning cr);
    rstRunning ← wrapM "failed to check running restores" (isRestoreRunning cr);
    if negb uptodate || bcpRunning || rstRunning then mret tt
    else
      r ← tryM (k8s_get_sts (cr_Namespace cr) (cr_Name cr +:+ "-" +:+ ComponentMongos));
      match r with
      | Err e => if IsNotFound e then mret tt
                 else throw (EWrap e ("get statefulset " +:+ cr_Name cr +:+ "-" +:+ ComponentMongos))
      | Ok msSts =>
          if negb (sts_Generation msSts =? sts_ObservedGeneration msSts)%Z then mret tt
          else if (sts_UpdatedReplicas msSts <? sts_Replicas msSts)%Z then mret tt
          else
            r ← tryM (getMongosPods cr);
            match r with
            | Err e => if IsNotFound e then mret tt else throw (EWrap e "get pods list for mongos")
            | Ok mongosPods => if mongos_pods_ready mongosPods then start_balancer cr else mret tt
            end
      end.

Definition disableBalancer cr : M unit :=
  if negb (cr_ShardingEnabled cr) || (cr_MongosSize cr =? 0)%Z || cr_Unmanaged cr then mret tt
  else
    r ← tryM (k8s_get_sts (cr_Namespace cr) (cr_Name cr +:+ "-" +:+ "mongos"));
    match r with
    | Err e => if IsNotFound e then mret tt
               else throw (EWrap e ("get mongos statefulset " +:+ cr_Name cr +:+ "-" +:+ ComponentMongos))
    | Ok msSts =>
        if bool_decide (sts_SpecReplicas msSts = Some 0%Z) then mret tt
        else
          mongosSession ← wrapM "failed to get mongos connection" (mongosClientWithRole cr RoleClusterAdmin);
          deferM mp_Disconnect
            (run ← wrapM "failed to check if balancer running" cIsBalancerRunning;
             if run : bool then wrapM "failed to stop balancer" cStopBalancer else mret tt)
    end.
Definition disableBalancerIfNeeded cr : M unit :=
  if negb (cr_ShardingEnabled cr) || (cr_MongosSize cr =? 0)%Z || balancer_IsEnabled cr || cr_Unmanaged cr
  then mret tt
  else disableBalancer cr.

(** ** Primaries *)
Definition isPodPrimary cr pod (replset : ReplsetSpec) : M bool :=
  mgoClient ← wrapM "failed to create standalone client" (standaloneClientWithRole cr replset RoleClusterAdmin pod);
  deferM mp_Disconnect (isMaster ← wrapM "is master" cIsMaster; mret (IsMaster isMaster)).

Definition stepDownPod cr (replset : ReplsetSpec) pod (seconds : Z) : M unit :=
  mgoClient ← wrapM "failed to create standalone client" (standaloneClientWithRole cr replset RoleClusterAdmin pod);
  deferM mp_Disconnect (wrapM "failed to step down" (cStepDown seconds false)).
Definition freezePod cr (replset : ReplsetSpec) pod (seconds : Z) : M unit :=
  mgoClient ← wrapM "failed to create standalone client" (standaloneClientWithRole cr replset RoleClusterAdmin pod);
  deferM mp_Disconnect (wrapM "failed to freeze" (cFreeze seconds)).

(** Freezes every pod but the wanted one and the primary, which it returns. *)
Fixpoint freeze_others cr (replset : ReplsetSpec) (expectedPrimary : Pod) (sleepSeconds : Z) (primaryPod : Pod)
    (pods : list Pod) : M Pod :=
  match pods with
  | [] => mret primaryPod
  | pod :: pods' =>
      if bool_decide (pod_Name expectedPrimary = pod_Name pod)
      then freeze_others cr replset expectedPrimary sleepSeconds primaryPod pods'
      else
        primary ← wrapM "is pod primary" (isPodPrimary cr pod replset);
        if primary : bool then freeze_others cr replset expectedPrimary sleepSeconds pod pods'
        else
          wrapM ("failed to freeze " +:+ pod_Name pod +:+ " pod") (freezePod cr replset pod sleepSeconds);;
          freeze_others cr replset expectedPrimary sleepSeconds primaryPod pods'
  end.
Definition setPrimary cr (replset : ReplsetSpec) (expectedPrimary : Pod) : M unit :=
  primary ← wrapM "is pod primary" (isPodPrimary cr expectedPrimary replset);
  if primary : bool then mret tt
  else
    sts ← wrapM "get rs statefulset" (getRsStatefulset cr (rs_Name replset));
    pods ← wrapM "get rs statefulset"
      (k8s_list_pods (cr_Namespace cr) (SelectorFromSet (sts_TemplateLabels sts)));
    match rs_TerminationGrace replset with
    | None => throw nil_panic
    | Some grace =>
        let sleepSeconds := wrap64 (grace * Z.of_nat (length pods)) in
        primaryPod ← freeze_others cr replset expectedPrimary sleepSeconds zeroPod pods;
        wrapM "failed to step down primary pod" (stepDownPod cr replset primaryPod sleepSeconds)
    end.

(** ** Applying a revision to a pod

    Waiting [n] rounds: a [Get] that finds no pod leaves the variable as it
    was. *)
Fixpoint wait_rounds (n : nat) cr (updateRevision : string) pod : M unit :=
  match n with
  | 0 => throw (ENew "reach pod wait limit")
  | S n' =>
      tick ← go_tick;
      match tick with
      | Some e => throw e
      | None =>
          got ← tryM (pod_get (pod_Namespace pod) (pod_Name pod));
          pod ← match got with
                | Ok p => mret p
                | Err e => if IsNotFound e then mret pod else throw (EWrap e "get pod")
                end;
          wrapM "update status" (update_status cr None AppStateInit);;
          if pod_started updateRevision pod then mret tt else wait_rounds n' cr updateRevision pod
      end
  end.
Definition waitPodRestart cr (updateRevision : string) pod (waitLimit : Z) : M unit :=
  wait_rounds (Z.to_nat waitLimit) cr updateRevision pod.

Definition recreateNWait cr (updateRevision : string) pod (waitLimit : Z) : M unit :=
  (if bool_decide (pod_revision pod = updateRevision) then mret tt
   else wrapM "delete pod" (pod_delete pod));;
  wrapM "wait pod restart" (waitPodRestart cr updateRevision pod waitLimit).

Definition applyNWait cr (replset : option SmartReplset) (updateRevision : string) pod (waitLimit : Z) : M unit :=
  if negb (bool_decide (pod_revision pod = updateRevision)) then
    '(resized, pod) ← wrapM "in-place resize" (tryInPlaceResize cr replset updateRevision pod);
    if resized : bool then wrapM "wait pod ready" (waitPodRestart cr updateRevision pod waitLimit)
    else recreateNWait cr updateRevision pod waitLimit
  else recreateNWait cr updateRevision pod waitLimit.

Definition updatePod cr sfs replset pod : M unit :=
  updateRevision ←
    (if bool_decide (pod_component pod = "arbiter") then
       arbiterSfs ← wrapM "failed to get arbiter statefulset" (getArbiterStatefulset cr replset);
       mret (sts_UpdateRevision arbiterSfs)
     else mret (sts_UpdateRevision sfs));
  wrapM "failed to apply changes"
    (applyNWait cr (Some replset) updateRevision pod (sr_LivenessDelay replset)).

(** ** The smart update of a replica set *)
Definition cfg_sts_name cr : string := cr_Name cr +:+ "-" +:+ ConfigReplSetName.

(** Whether the config servers still have to be updated. *)
Definition config_outdated cr sfs : M bool :=
  if cr_ShardingEnabled cr && negb (bool_decide (sts_Name sfs = cfg_sts_name cr)) then
    cfgSfs ← wrapM ("get config statefulset " +:+ cr_Namespace cr +:+ "/" +:+ cfg_sts_name cr)
      (k8s_get_sts (cr_Namespace cr) (cfg_sts_name cr));
    cfgList ← wrapM "get cfg pod list" (GetRSPods cr ConfigReplSetName);
    mret (HasStatefulSetChanged cfgSfs cfgList)
  else mret false.

(** The loop over the secondaries; the primary it meets, the last one when
    there are more, is left out. *)
Fixpoint update_secondaries cr sfs replset (primaryPod : option Pod) (pods : list Pod) : M (option Pod) :=
  match pods with
  | [] => mret primaryPod
  | pod :: pods' =>
      isPrimary ← wrapM "is pod primary" (isPodPrimary cr pod replset);
      if isPrimary : bool then update_secondaries cr sfs replset (Some pod) pods'
      else
        updatePod cr sfs replset pod;;
        update_secondaries cr sfs replset primaryPod pods'
  end.

Definition step_down (cl : Client W) (force : bool) : M unit :=
  r ← catchM (cStepDown 60 force);
  match r with
  | Ok _ => mret tt
  | Err e =>
      if str_contains no_electable (err_string e)
      then wrapM "failed to do forced step down" (cStepDown 60 true)
      else throw (EWrap e "failed to do step down")
  end.

Definition update_primary cr sfs replset (primaryPod : Pod) : M unit :=
  let updateRevision := sts_UpdateRevision sfs in
  '(resized, primaryPod) ←
    (if bool_decide (pod_revision primaryPod = updateRevision) then mret (true, primaryPod)
     else wrapM "in-place resize primary" (tryInPlaceResize cr (Some replset) updateRevision primaryPod));
  if resized : bool then
    wrapM "wait primary pod ready" (waitPodRestart cr updateRevision primaryPod (sr_LivenessDelay replset))
  else
    r ← catchM (mp_Mongo cr replset RoleClusterAdmin false);
    match r with
    | Err e => throw (ENew ("failed to get mongo client: " +:+ err_string e))
    | Ok cl =>
        deferM mp_Disconnect
          (step_down cl (rs_Size replset =? 1)%Z;;
           wrapM "failed to apply changes"
             (recreateNWait cr updateRevision primaryPod (sr_LivenessDelay replset)))
    end.

Definition update_members cr sfs replset (pods : list Pod) : M unit :=
  primaryPod ← update_secondaries cr sfs replset None (sortPodsByOrdinal Z.gtb pods);
  let component := sts_label LabelComponent sfs in
  match primaryPod with
  | Some p =>
      if negb (bool_decide (component = ComponentNonVoting)) && negb (bool_decide (component = ComponentHidden))
         && negb (bool_decide (pod_Name p = ""))
      then update_primary cr sfs replset p else mret tt
  | None => mret tt
  end.

(** What runs once the replica set has members and all pods are among them. *)
Definition update_initialized cr sfs replset (pods : list Pod) : M unit :=
  if IsPVCShrinkInProgress cr then mret tt
  else
    running ← wrapM "failed to check active backups" (isBackupRunning cr);
    if running : bool then mret tt
    else
      r ← catchM (HasActiveJobs cr zeroJob NotPITRLock);
      hasActiveJobs ←
        match r with
        | Ok b => mret b
        | Err e => if bool_decide (bc_State cr = AppStateError) then mret false
                   else throw (EWrap e "failed to check active jobs")
        end;
      if negb (bool_decide (is_Some (sts_Annotations sfs !! AnnotationRestoreInProgress)))
         && hasActiveJobs then mret tt
      else
        (if bool_decide (sts_Name sfs = cfg_sts_name cr)
         then wrapM "failed to stop balancer" (disableBalancer cr) else mret tt);;
        update_members cr sfs replset pods.

Definition pod_not_member (members : gmap string ReplsetMemberStatus) pod : bool :=
  negb (bool_decide (is_Some (members !! pod_Name pod))).

Definition update_pods cr sfs replset (pods : list Pod) : M unit :=
  match st_Replsets (bc_Status cr) !! rs_Name replset with
  | None => mapM_list (updatePod cr sfs replset) pods
  | Some rsStatus =>
      if negb (rst_Initialized rsStatus) then mapM_list (updatePod cr sfs replset) pods
      else if bool_decide (rst_Members rsStatus = ∅) then mret tt
      else
        match list_find (λ pod, pod_not_member (rst_Members rsStatus) pod = true) pods with
        | Some (_, pod) => updatePod cr sfs replset pod
        | None => update_initialized cr sfs replset pods
        end
  end.

Definition smartUpdate cr sfs replset : M unit :=
  if bc_Pause cr then mret tt
  else if (rs_Size replset =? 0)%Z then mret tt
  else if negb (bool_decide (sc_UpdateStrategy cr = SmartUpdateStatefulSetStrategyType)) then mret tt
  else
    let matchLabels :=
      match sts_Labels sfs !! LabelComponent with
      | Some label => <[LabelComponent := label]> (RSLabels cr (Some (replset : ReplsetSpec)))
      | None => RSLabels cr (Some (replset : ReplsetSpec))
      end in
    r ← tryM (k8s_list_pods (cr_Namespace cr) (SelectorFromSet matchLabels));
    match r with
    | Err e => throw (ENew ("get pod list: " +:+ err_string e))
    | Ok pods =>
        if negb (HasStatefulSetChanged sfs pods) then mret tt
        else if (CompareVersion cr "1.4.0" <? 0)%Z then mret tt
        else
          cr ← wrapM "update mongos first if TLS is outdated" (updateMongosFirstIfTLSOutdated cr sfs);
          if shouldUpdateMongosFirst (cr : SmartCluster) then mret tt
          else
            outdated ← config_outdated cr sfs;
            if outdated : bool then mret tt
            else if (sts_ReadyReplicas sfs <? sts_Replicas sfs)%Z then mret tt
            else update_pods cr sfs replset pods
    end.

(** ** The smart update of mongos *)
Definition smartMongosUpdate cr sts : M unit :=
  if (cr_MongosSize cr =? 0)%Z
     || negb (bool_decide (sc_UpdateStrategy cr = SmartUpdateStatefulSetStrategyType)) then
    wrapM "unset update mongos first" (unsetUpdateMongosFirst cr);; mret tt
  else
    pods ← wrapM "get mongos pods" (getMongosPods cr);
    if negb (HasStatefulSetChanged sts pods) then
      wrapM "unset update mongos first" (unsetUpdateMongosFirst cr);; mret tt
    else if (sts_ReadyReplicas sts <? sts_Replicas sts)%Z then mret tt
    else
      running ← wrapM "failed to check active backups" (isBackupRunning cr);
      if running : bool then mret tt
      else
        hasActiveJobs ← wrapM "failed to check active jobs" (HasActiveJobs cr zeroJob NotPITRLock);
        if hasActiveJobs : bool then mret tt
        else
          mapM_list (λ pod, wrapM "failed to apply changes"
            (applyNWait cr None (sts_UpdateRevision sts) pod (sc_MongosDelay cr)))
            (sortPodsByOrdinal Z.ltb pods);;
          wrapM "unset update mongos first" (unsetUpdateMongosFirst cr);; mret tt.
End smart.
