(* ===== verification/Defaults.v ===== *)
(** Defaults and checks of a cluster's specification: CheckNSetDefaults
    (pkg/apis/psmdb/v1/psmdb_defaults.go).

    The operator runs it on every cluster it reads, before anything else.  A
    record is rebuilt by one function from the old record; a nil pointer is
    [None].  On an error only the error is kept: the cluster, which the source
    leaves half changed, is then only used to report the error.  No element of a
    list of pointers is nil: the API server refuses a null there. *)
From S2P Require Import Prelude ReplsetModels Api Storage BackupApi InPlace.

Definition require (b : bool) (e : error) : result unit := if b then Ok tt else Err e.
(** [if x < 1 { x = d }] and [if x == "" { x = d }] *)
Definition at_least_1 (d x : Z) : Z := if (x <? 1)%Z then d else x.
Definition non_zero (d x : Z) : Z := if (x =? 0)%Z then d else x.
Definition non_empty (d s : string) : string := if bool_decide (s = "") then d else s.

(** The text of a number is what FormatFloat makes of it, or empty: this is when
    it reads as zero. *)
Definition zero_number (s : string) : bool :=
  bool_decide (s = "") || bool_decide (s = "0") || bool_decide (s = "-0").

(** * The specification *)

(** Kubernetes' types, with the fields that the defaults touch *)
Record Probe := {
  pr_Exec : option (list string);          (* Exec, its Command *)
  pr_TCPSocket : option Z;                 (* TCPSocket, its Port *)
  pr_InitialDelaySeconds : Z;
  pr_TimeoutSeconds : Z;
  pr_PeriodSeconds : Z;
  pr_SuccessThreshold : Z;
  pr_FailureThreshold : Z
}.
Definition zeroProbe : Probe := {|
  pr_Exec := None; pr_TCPSocket := None; pr_InitialDelaySeconds := 0; pr_TimeoutSeconds := 0;
  pr_PeriodSeconds := 0; pr_SuccessThreshold := 0; pr_FailureThreshold := 0 |}.
Record SecurityContext := {
  sc_RunAsNonRoot : option bool;
  sc_RunAsUser : option Z;
  sc_RunAsGroup : option Z
}.
Record PodSecurityContext := {
  psc_FSGroup : option Z;
  psc_RunAsUser : option Z;
  psc_RunAsGroup : option Z
}.
Record TopologySpreadConstraint := {
  tsc_MaxSkew : Z;
  tsc_TopologyKey : string;
  tsc_WhenUnsatisfiable : string
}.
Record PersistentVolumeClaimSpec := {
  pvc_Requests : gmap string Z;
  pvc_AccessModes : list string
}.
Definition zeroClaim : PersistentVolumeClaimSpec := {| pvc_Requests := ∅; pvc_AccessModes := [] |}.

Record LivenessProbeExtended := { lp_Probe :> Probe; lp_StartupDelaySeconds : Z }.
Definition zeroLiveness : LivenessProbeExtended :=
  {| lp_Probe := zeroProbe; lp_StartupDelaySeconds := 0 |}.
Definition CommandHas (l : Probe) (flag : string) : bool :=
  match pr_Exec l with None => false | Some cmd => bool_decide (flag ∈ cmd) end.

Record PodAffinity := {
  pa_TopologyKey : option string;
  pa_Advanced : option string              (* an affinity, as text *)
}.
(** A bound of a disruption budget: a number of pods, or a percentage *)
Record PodDisruptionBudgetSpec := {
  pdb_MinAvailable : option (Z + string);
  pdb_MaxUnavailable : option (Z + string)
}.
Record MultiAZ := {
  maz_Affinity : option PodAffinity;
  maz_TopologySpreadConstraints : list TopologySpreadConstraint;
  maz_ServiceAccountName : string;
  maz_PodDisruptionBudget : option PodDisruptionBudgetSpec;
  maz_TerminationGracePeriodSeconds : option Z
}.
Record VolumeSpec := {
  vs_EmptyDir : bool;                      (* EmptyDir != nil *)
  vs_HostPath : bool;
  vs_PersistentVolumeClaim : option PersistentVolumeClaimSpec
}.
Record ExternalDNSConfig := { dns_Prefix : string; dns_Domain : string }.
Record Expose := {
  ex_ExposeType : string;
  ex_DeprecatedExposeType : string;
  ex_ServiceAnnotations : gmap string string;
  ex_DeprecatedServiceAnnotations : gmap string string;
  ex_ServiceLabels : gmap string string;
  ex_DeprecatedServiceLabels : gmap string string;
  ex_ExternalDNS : option ExternalDNSConfig
}.

(** Storage: the engine's ratios are texts of numbers *)
Record WiredTigerSpec := {
  wt_CollectionConfig : option (option string);       (* its BlockCompressor *)
  wt_CacheSizeRatio : option string;                  (* EngineConfig *)
  wt_PrefixCompression : option bool                  (* IndexConfig *)
}.
Record StorageSpec := {
  ss_Engine : string;
  ss_InMemory : option (option string);               (* its EngineConfig's InMemorySizeRatio *)
  ss_WiredTiger : option WiredTigerSpec
}.
Definition StorageEngineInMemory : string := "inMemory".
Definition StorageEngineMMAPv1 : string := "mmapv1".

(** Non-voting and hidden members: the two types have the same fields. *)
Record SideSpec := {
  sd_Enabled : bool;
  sd_Size : Z;
  sd_VolumeSpec : option VolumeSpec;
  sd_ReadinessProbe : option Probe;
  sd_LivenessProbe : option LivenessProbeExtended;
  sd_PodSecurityContext : option PodSecurityContext;
  sd_ContainerSecurityContext : option SecurityContext;
  sd_Configuration : string;
  sd_MultiAZ : MultiAZ
}.
Record Arbiter := { ar_Enabled : bool; ar_Size : Z; ar_MultiAZ : MultiAZ }.

Record Replset := {
  rp_Name : string;
  rp_Size : Z;
  rp_ClusterRole : string;
  rp_Arbiter : Arbiter;
  rp_ExposeEnabled : bool;
  rp_Expose : Expose;
  rp_VolumeSpec : option VolumeSpec;
  rp_ReadinessProbe : option Probe;
  rp_LivenessProbe : option LivenessProbeExtended;
  rp_PodSecurityContext : option PodSecurityContext;
  rp_ContainerSecurityContext : option SecurityContext;
  rp_Storage : option StorageSpec;
  rp_Configuration : string;
  rp_ExternalNodes : list ExternalNode;
  rp_NonVoting : SideSpec;
  rp_Hidden : SideSpec;
  rp_Horizons : gmap string (gmap string string);
  rp_Overrides : gmap string ReplsetOverride;
  rp_PrimaryPreferTagSelector : gmap string string;
  rp_MultiAZ : MultiAZ
}.
Record MongosSpec := {
  mg_Size : Z;
  mg_ServicePerPod : bool;
  mg_Expose : Expose;
  mg_ReadinessProbe : option Probe;
  mg_LivenessProbe : option LivenessProbeExtended;
  mg_PodSecurityContext : option PodSecurityContext;
  mg_ContainerSecurityContext : option SecurityContext;
  mg_Configuration : string;
  mg_MultiAZ : MultiAZ;
  mg_LogStorage : option (option PersistentVolumeClaimSpec)   (* LogStorage() *)
}.
Record Sharding := {
  sh_Enabled : bool;
  sh_ConfigsvrReplSet : option Replset;
  sh_Mongos : option MongosSpec
}.

Record SecretsSpec := {
  sec_Users : string;
  sec_SSL : string;
  sec_SSLInternal : string;
  sec_SSLPBM : string;
  sec_InternalKey : string;
  sec_EncryptionKey : string;
  sec_SSE : string
}.
Definition zeroSecrets : SecretsSpec := {|
  sec_Users := ""; sec_SSL := ""; sec_SSLInternal := ""; sec_SSLPBM := "";
  sec_InternalKey := ""; sec_EncryptionKey := ""; sec_SSE := "" |}.
Record VaultSpec := { va_EndpointURL : string; va_TLSSecret : string; va_Role : string }.
Record AutoscalingSpec := {
  as_Enabled : bool;
  as_TriggerThresholdPercent : Z;
  as_GrowthStep : Z;                       (* a Quantity; 0 when it is zero *)
  as_MaxSize : Z
}.
Record TLSSpec := {
  tls_Mode : string;
  tls_AllowInvalidCertificates : option bool;
  tls_CertValidityDuration : Z;            (* nanoseconds *)
  tls_IssuerKind : string;
  tls_IssuerGroup : string
}.
Record UnsafeFlags := {
  uf_TLS : bool;
  uf_ReplsetSize : bool;
  uf_MongosSize : bool;
  uf_TerminationGracePeriod : bool;
  uf_BackupIfUnhealthy : bool
}.
Record UpgradeOptions := { up_VersionServiceEndpoint : string; up_Apply : string }.
Record SearchSpec := {
  se_Enabled : bool;
  se_ContainerSecurityContext : option SecurityContext;
  se_PodSecurityContext : option PodSecurityContext
}.
Record BackupSection := {
  bk_spec :> BackupSpec;
  bk_ServiceAccountName : string;
  bk_PodSecurityContext : option PodSecurityContext;
  bk_ContainerSecurityContext : option SecurityContext
}.

(** The fields that the defaults of every section read, and the others. *)
Record ClusterHead := {
  ch_Name : string;
  ch_Namespace : string;
  ch_Deleting : bool;                      (* DeletionTimestamp != nil *)
  ch_CRVersion : string;
  ch_Pause : bool;
  ch_Unmanaged : bool;
  ch_UnsafeConf : bool;
  ch_Unsafe : UnsafeFlags;
  ch_Image : string;
  ch_ImagePullPolicy : string;
  ch_Secrets : option SecretsSpec;
  ch_Vault : option VaultSpec;
  ch_Autoscaling : option AutoscalingSpec;     (* StorageAutoscaling() *)
  ch_TLS : option TLSSpec
}.
Record Cluster := {
  cl_head :> ClusterHead;
  cl_Annotations : gmap string string;
  cl_Replsets : option (list Replset);
  cl_Sharding : Sharding;
  cl_Backup : BackupSection;
  cl_PMMSecurityContext : option SecurityContext;
  cl_DNSSuffix : string;
  cl_DNSMode : string;
  cl_UpdateStrategy : string;
  cl_UpgradeOptions : UpgradeOptions;
  cl_MCSEnabled : bool;                    (* Spec.MultiCluster *)
  cl_MCSDNSSuffix : string;
  cl_Search : option SearchSpec;
  cl_DefaultRWConcern : option DefaultRWConcernSpec
}.

(** What [util.MapMerge] does where it is called with two maps *)
Definition merge_deprecated (deprecated m : gmap string string) : gmap string string :=
  if (0 <? size deprecated)%nat then MapMerge [deprecated; m] else m.

Definition DefaultDNSSuffix : string := "svc.cluster.local".
Definition MultiClusterDefaultDNSSuffix : string := "svc.clusterset.local".
Definition DefaultVersionServiceEndpoint : string := "https://check.percona.com".
Definition WorkloadSA : string := "default".
Definition DefaultS3Region : string := "us-east-1".
Definition defaultUsersSecretName : string := "percona-server-mongodb-users".
Definition TLSModePrefer : string := "preferTLS".
Definition ClusterRoleConfigSvr : string := "configsvr".
Definition minSafeMongosSize : Z := 2.
Definition minSafeReplicasetSizeWithArbiter : Z := 4.
Definition defaultMongodSize : Z := 3.
Definition clusterNameMaxLen : nat := 50.
(** 90 days, in nanoseconds *)
Definition defaultCertValidity : Z := 90 * 24 * 3600 * 1000000000.
Definition ReadWriteOnce : string := "ReadWriteOnce".
Definition GiByte : Z := 2 ^ 30 * 1000000000.    (* a quantity is in billionths *)

(** Where the operator runs; the user id is fixed on Kubernetes and left to the
    platform on OpenShift. *)
Inductive Platform := PlatformKubernetes | PlatformOpenshift.
Definition platform_user (p : Platform) : option Z :=
  match p with PlatformKubernetes => Some 1001%Z | PlatformOpenshift => None end.

(** k8s.io/apimachinery tests names; whether the API server has the types of
    multi-cluster services is found out at start ([mcs.IsAvailable]). *)
Class DomainNames := IsDNS1123Subdomain : string → bool.
Class McsAvailable := mcs_IsAvailable : bool.

Section defaults.
Context `{V : Versions, Y : Yaml, N : DomainNames, A : McsAvailable}.
Variable platform : Platform.

(** [cr.CompareVersion(v) >= 0] *)
Definition since (cr : ClusterHead) (v : string) : bool :=
  (0 <=? version_compare (ch_CRVersion cr) v)%Z.
Definition head_TLSEnabled (cr : ClusterHead) : bool :=
  match ch_TLS cr with
  | Some t => negb (bool_decide (tls_Mode t = TLSModeDisabled))
  | None => true
  end.

(** * Security contexts, volumes, exposure, scheduling *)
Definition container_context (c : option SecurityContext) : option SecurityContext :=
  match c with
  | Some c => Some c
  | None => Some {| sc_RunAsNonRoot := Some true; sc_RunAsUser := platform_user platform;
                    sc_RunAsGroup := None |}
  end.
Definition pod_context (c : option PodSecurityContext) : option PodSecurityContext :=
  match c with
  | Some c => Some c
  | None => Some {| psc_FSGroup := platform_user platform; psc_RunAsUser := None;
                    psc_RunAsGroup := None |}
  end.

Definition default_access_modes (c : PersistentVolumeClaimSpec) : PersistentVolumeClaimSpec :=
  {| pvc_Requests := pvc_Requests c;
     pvc_AccessModes := match pvc_AccessModes c with [] => [ReadWriteOnce] | l => l end |}.

(** [(v *VolumeSpec) reconcileOpts] *)
Definition volume_reconcileOpts (v : VolumeSpec) : result VolumeSpec :=
  let claim :=
    match vs_PersistentVolumeClaim v with
    | Some c => Some c
    | None => if vs_EmptyDir v || vs_HostPath v then None else Some zeroClaim
    end in
  let build c := {| vs_EmptyDir := vs_EmptyDir v; vs_HostPath := vs_HostPath v;
                    vs_PersistentVolumeClaim := c |} in
  match claim with
  | None => Ok (build None)
  | Some c =>
      match pvc_Requests c !! "storage" with
      | None => Err (ENew "volume.resources.storage can't be empty")
      | Some _ => Ok (build (Some (default_access_modes c)))
      end
  end.

Definition default_expose (e : Expose) : Expose :=
  {| ex_ExposeType :=
       if bool_decide (ex_ExposeType e = "")
       then non_empty "ClusterIP" (ex_DeprecatedExposeType e) else ex_ExposeType e;
     ex_DeprecatedExposeType := ex_DeprecatedExposeType e;
     ex_ServiceAnnotations :=
       merge_deprecated (ex_DeprecatedServiceAnnotations e) (ex_ServiceAnnotations e);
     ex_DeprecatedServiceAnnotations := ex_DeprecatedServiceAnnotations e;
     ex_ServiceLabels := merge_deprecated (ex_DeprecatedServiceLabels e) (ex_ServiceLabels e);
     ex_DeprecatedServiceLabels := ex_DeprecatedServiceLabels e;
     ex_ExternalDNS := ex_ExternalDNS e |}.
Definition with_ExternalDNS (d : option ExternalDNSConfig) (e : Expose) : Expose :=
  {| ex_ExposeType := ex_ExposeType e; ex_DeprecatedExposeType := ex_DeprecatedExposeType e;
     ex_ServiceAnnotations := ex_ServiceAnnotations e;
     ex_DeprecatedServiceAnnotations := ex_DeprecatedServiceAnnotations e;
     ex_ServiceLabels := ex_ServiceLabels e;
     ex_DeprecatedServiceLabels := ex_DeprecatedServiceLabels e; ex_ExternalDNS := d |}.
(** The checks of [ExternalDNS], for mongos or for a replica set *)
Definition external_dns (cr : ClusterHead) (what : string) (d : option ExternalDNSConfig)
    : result (option ExternalDNSConfig) :=
  match d with
  | None => Ok None
  | Some d =>
      _ ← require (negb (bool_decide (dns_Domain d = "")))
            (ENew ("externalDNS requires domain for " +:+ what));
      _ ← require (IsDNS1123Subdomain (dns_Domain d))
            (ENew ("externalDNS domain " +:+ dns_Domain d +:+ " for " +:+ what +:+
                   " is not a valid domain name"));
      Ok (Some {| dns_Prefix := non_empty (ch_Name cr) (dns_Prefix d); dns_Domain := dns_Domain d |})
  end.

Definition affinityValidTopologyKeys : list string :=
  ["none"; "kubernetes.io/hostname"; "topology.kubernetes.io/zone"; "topology.kubernetes.io/region"].
Definition affinityValidTopologyKeysPre116 : list string :=
  ["none"; "kubernetes.io/hostname"; "failure-domain.beta.kubernetes.io/zone";
   "failure-domain.beta.kubernetes.io/region"].
Definition defaultAffinityTopologyKey : string := "kubernetes.io/hostname".

Definition reconcileAffinityOpts (cr : ClusterHead) (a : option PodAffinity) : option PodAffinity :=
  let validTopologyKeys :=
    if since cr "1.16.0" then affinityValidTopologyKeys else affinityValidTopologyKeysPre116 in
  match a with
  | None => Some {| pa_TopologyKey := Some defaultAffinityTopologyKey; pa_Advanced := None |}
  | Some a =>
      let key k := Some {| pa_TopologyKey := k; pa_Advanced := pa_Advanced a |} in
      match pa_TopologyKey a, pa_Advanced a with
      | None, _ => key (Some defaultAffinityTopologyKey)
      | Some _, Some _ => key None
      | Some k, None =>
          if bool_decide (k ∈ validTopologyKeys) then Some a
          else key (Some defaultAffinityTopologyKey)
      end
  end.

Definition reconcile_constraint (t : TopologySpreadConstraint) : TopologySpreadConstraint :=
  {| tsc_MaxSkew := non_zero 1 (tsc_MaxSkew t);
     tsc_TopologyKey := non_empty defaultAffinityTopologyKey (tsc_TopologyKey t);
     tsc_WhenUnsatisfiable := non_empty "DoNotSchedule" (tsc_WhenUnsatisfiable t) |}.
Definition reconcileTopologySpreadConstraints (cr : ClusterHead)
    (l : list TopologySpreadConstraint) : list TopologySpreadConstraint :=
  if since cr "1.15.0" then reconcile_constraint <$> l else l.

(** The grace period; reading through a nil pointer panics. *)
Definition reconcile_grace (cr : ClusterHead) (g : option Z) : result (option Z) :=
  let g := if since cr "1.15.0" then Some (default 60%Z g) else g in
  g ← (if (version_compare (ch_CRVersion cr) "1.15.0" =? 0)%Z && negb (ch_UnsafeConf cr) then
         match g with
         | None => Err nil_panic
         | Some s => Ok (Some (if (s <? 30)%Z then 60%Z else s))
         end
       else Ok g);
  if since cr "1.16.0" then
    match g with
    | None => Err nil_panic
    | Some s =>
        _ ← require (negb ((s <? 30)%Z && negb (uf_TerminationGracePeriod (ch_Unsafe cr))))
              (ENew ("terminationGracePeriodSeconds must be at least 30 seconds for safe configuration."
                     +:+ " Set spec.unsafeFlags.terminationGracePeriod to true to disable this check"));
        Ok g
    end
  else Ok g.

(** [(m *MultiAZ) reconcileOpts] *)
Definition reconcileOpts (cr : ClusterHead) (m : MultiAZ) : result MultiAZ :=
  grace ← reconcile_grace cr (maz_TerminationGracePeriodSeconds m);
  Ok {| maz_Affinity := reconcileAffinityOpts cr (maz_Affinity m);
        maz_TopologySpreadConstraints :=
          reconcileTopologySpreadConstraints cr (maz_TopologySpreadConstraints m);
        maz_ServiceAccountName := maz_ServiceAccountName m;
        maz_PodDisruptionBudget :=
          match maz_PodDisruptionBudget m with
          | Some b => Some b
          | None => Some {| pdb_MinAvailable := None; pdb_MaxUnavailable := Some (inl 1%Z) |}
          end;
        maz_TerminationGracePeriodSeconds := grace |}.
Definition with_ServiceAccountName (s : string) (m : MultiAZ) : MultiAZ :=
  {| maz_Affinity := maz_Affinity m;
     maz_TopologySpreadConstraints := maz_TopologySpreadConstraints m;
     maz_ServiceAccountName := s; maz_PodDisruptionBudget := maz_PodDisruptionBudget m;
     maz_TerminationGracePeriodSeconds := maz_TerminationGracePeriodSeconds m |}.

(** * The head of the specification *)
Definition secrets_defaults (name : string) (s : option SecretsSpec) : SecretsSpec :=
  let s := default zeroSecrets s in
  {| sec_Users := non_empty defaultUsersSecretName (sec_Users s);
     sec_SSL := non_empty (name +:+ "-ssl") (sec_SSL s);
     sec_SSLInternal := non_empty (name +:+ "-ssl-internal") (sec_SSLInternal s);
     sec_SSLPBM := non_empty (name +:+ "-pbm") (sec_SSLPBM s);
     sec_InternalKey := sec_InternalKey s;
     sec_EncryptionKey := non_empty (name +:+ "-mongodb-encryption-key") (sec_EncryptionKey s);
     sec_SSE := sec_SSE s |}.

Definition vault_defaults (v : option VaultSpec) : result (option VaultSpec) :=
  match v with
  | None => Ok None
  | Some v =>
      if bool_decide (va_EndpointURL v = "") then Ok (Some v)
      else
        _ ← require (negb (has_prefix "https://" (va_EndpointURL v)
                           && bool_decide (va_TLSSecret v = "")))
              (ENew "spec.vault.tlsSecret must be set when spec.vault.endpointURL uses https");
        Ok (Some {| va_EndpointURL := va_EndpointURL v; va_TLSSecret := va_TLSSecret v;
                    va_Role := non_empty "operator" (va_Role v) |})
  end.

Definition validateStorageAutoscaling (a : option AutoscalingSpec) : result unit :=
  match a with
  | None => Ok tt
  | Some a =>
      require (negb (as_Enabled a && negb (as_MaxSize a =? 0)%Z && (as_MaxSize a <? GiByte)%Z))
        (ENew "maxSize must be at least 1Gi")
  end.
Definition setStorageAutoscalingDefaults (a : AutoscalingSpec) : AutoscalingSpec :=
  {| as_Enabled := as_Enabled a;
     as_TriggerThresholdPercent := non_zero 80 (as_TriggerThresholdPercent a);
     as_GrowthStep := non_zero (2 * GiByte) (as_GrowthStep a);
     as_MaxSize := as_MaxSize a |}.

(** A missing TLS section, and one with some fields *)
Definition tls_defaults (t : option TLSSpec) : TLSSpec :=
  let t := default {| tls_Mode := TLSModePrefer; tls_AllowInvalidCertificates := Some true;
                      tls_CertValidityDuration := defaultCertValidity;
                      tls_IssuerKind := ""; tls_IssuerGroup := "" |} t in
  {| tls_Mode := non_empty TLSModePrefer (tls_Mode t);
     tls_AllowInvalidCertificates := Some (default true (tls_AllowInvalidCertificates t));
     tls_CertValidityDuration := non_zero defaultCertValidity (tls_CertValidityDuration t);
     tls_IssuerKind := non_empty "Issuer" (tls_IssuerKind t);
     tls_IssuerGroup := non_empty "cert-manager.io" (tls_IssuerGroup t) |}.
Definition with_tls_Mode (m : string) (t : TLSSpec) : TLSSpec :=
  {| tls_Mode := m; tls_AllowInvalidCertificates := tls_AllowInvalidCertificates t;
     tls_CertValidityDuration := tls_CertValidityDuration t;
     tls_IssuerKind := tls_IssuerKind t; tls_IssuerGroup := tls_IssuerGroup t |}.
(** What allowUnsafeConfigurations turns on *)
Definition all_unsafe : UnsafeFlags :=
  {| uf_TLS := true; uf_ReplsetSize := true; uf_MongosSize := true;
     uf_TerminationGracePeriod := true; uf_BackupIfUnhealthy := true |}.

(** From the first check to the check of TLS *)
Definition head_defaults (cr : ClusterHead) : result ClusterHead :=
  _ ← require (negb (bool_decide (ch_Image cr = ""))) (ENew "Required value for spec.image");
  vault ← vault_defaults (ch_Vault cr);
  _ ← wrap_err "validate storage autoscaling" (validateStorageAutoscaling (ch_Autoscaling cr));
  let tls := tls_defaults (ch_TLS cr) in
  let cr' := {|
    ch_Name := ch_Name cr; ch_Namespace := ch_Namespace cr; ch_Deleting := ch_Deleting cr;
    ch_CRVersion := ch_CRVersion cr; ch_Pause := ch_Pause cr; ch_Unmanaged := ch_Unmanaged cr;
    ch_UnsafeConf := ch_UnsafeConf cr;
    ch_Unsafe := if ch_UnsafeConf cr then all_unsafe else ch_Unsafe cr;
    ch_Image := ch_Image cr;
    ch_ImagePullPolicy := non_empty "Always" (ch_ImagePullPolicy cr);
    ch_Secrets := Some (secrets_defaults (ch_Name cr) (ch_Secrets cr));
    ch_Vault := vault;
    ch_Autoscaling := setStorageAutoscalingDefaults <$> ch_Autoscaling cr;
    ch_TLS := Some (if ch_UnsafeConf cr then with_tls_Mode TLSModeDisabled tls else tls) |} in
  _ ← require (head_TLSEnabled cr' || uf_TLS (ch_Unsafe cr'))
        (ENew "TLS must be enabled. Set spec.unsafeFlags.tls to true to disable this check");
  Ok cr'.

(** * Probes *)

(** [timeoutSecondsDefault] and the others *)
Definition timeoutSecondsDefault (cr : ClusterHead) : Z := if since cr "1.10.0" then 10 else 5.
Definition initialDelaySecondsDefault (cr : ClusterHead) : Z := if since cr "1.4.0" then 60 else 90.
Definition periodSecondsDefault (cr : ClusterHead) : Z := if since cr "1.4.0" then 30 else 10.
Definition failureThresholdDefault (cr : ClusterHead) : Z := if since cr "1.4.0" then 4 else 12.
Definition startupDelaySecondsFlag : string := "--startupDelaySeconds".
Definition ssl_flags : list string :=
  ["--ssl"; "--sslInsecure"; "--sslCAFile"; "/etc/mongodb-ssl/ca.crt"; "--sslPEMKeyFile"; "/tmp/tls.pem"].

(** [append(cmd, l...)] when the condition holds *)
Definition append_if (b : bool) (l cmd : list string) : list string := if b then cmd ++ l else cmd.
(** [cmd[0] = path] *)
Definition set_path_if (b : bool) (path : string) (cmd : list string) : list string :=
  if b then <[0%nat := path]> cmd else cmd.
Definition startup_flag (delay : Z) (b : bool) (cmd : list string) : list string :=
  append_if (b && negb (bool_decide (startupDelaySecondsFlag ∈ cmd)))
    [startupDelaySecondsFlag; itoa delay] cmd.

(** The delays of a liveness probe: those of another one, or the defaults *)
Definition liveness_with (exec : option (list string)) (startup initial timeout period failure : Z)
    (l : LivenessProbeExtended) : LivenessProbeExtended :=
  {| lp_Probe := {|
       pr_Exec := exec; pr_TCPSocket := pr_TCPSocket l;
       pr_InitialDelaySeconds := at_least_1 initial (pr_InitialDelaySeconds l);
       pr_TimeoutSeconds := at_least_1 timeout (pr_TimeoutSeconds l);
       pr_PeriodSeconds := at_least_1 period (pr_PeriodSeconds l);
       pr_SuccessThreshold := pr_SuccessThreshold l;
       pr_FailureThreshold := at_least_1 failure (pr_FailureThreshold l) |};
     lp_StartupDelaySeconds := startup |}.

Definition mongos_liveness (cr : ClusterHead) (l : option LivenessProbeExtended)
    : LivenessProbeExtended :=
  let l := default zeroLiveness l in
  let startup := at_least_1 10 (lp_StartupDelaySeconds l) in
  let exec :=
    match pr_Exec l with
    | Some cmd => cmd
    | None =>
        set_path_if (since cr "1.14.0") "/opt/percona/mongodb-healthcheck"
          (startup_flag startup (since cr "1.11.0")
            (append_if (head_TLSEnabled cr) ssl_flags
              ["/data/db/mongodb-healthcheck"; "k8s"; "liveness"; "--component"; "mongos"]))
    end in
  liveness_with (Some exec) startup (initialDelaySecondsDefault cr) (timeoutSecondsDefault cr)
    (periodSecondsDefault cr) (failureThresholdDefault cr) l.

Definition mongos_readiness (cr : ClusterHead) (p : option Probe) : Probe :=
  let p := default zeroProbe p in
  let exec :=
    match pr_Exec p with
    | Some cmd => cmd
    | None =>
        set_path_if (since cr "1.14.0") "/opt/percona/mongodb-healthcheck"
          (append_if (head_TLSEnabled cr) ssl_flags
            ["/data/db/mongodb-healthcheck"; "k8s"; "readiness"; "--component"; "mongos"])
    end in
  {| pr_Exec := Some exec; pr_TCPSocket := pr_TCPSocket p;
     pr_InitialDelaySeconds := at_least_1 10 (pr_InitialDelaySeconds p);
     pr_TimeoutSeconds := at_least_1 (if since cr "1.11.0" then 1 else 2) (pr_TimeoutSeconds p);
     pr_PeriodSeconds := at_least_1 1 (pr_PeriodSeconds p);
     pr_SuccessThreshold :=
       if since cr "1.11.0" && (pr_SuccessThreshold p =? 0)%Z then 1%Z
       else if (pr_SuccessThreshold p <? 0)%Z then 1%Z else pr_SuccessThreshold p;
     pr_FailureThreshold := at_least_1 3 (pr_FailureThreshold p) |}.

Definition replset_liveness (cr : ClusterHead) (l : option LivenessProbeExtended)
    : LivenessProbeExtended :=
  let l := default zeroLiveness l in
  let startup := non_zero (2 * 60 * 60) (lp_StartupDelaySeconds l) in
  let exec :=
    match pr_Exec l with
    | Some cmd => cmd
    | None =>
        set_path_if (since cr "1.14.0") "/opt/percona/mongodb-healthcheck"
          (startup_flag startup (since cr "1.4.0")
            (append_if (head_TLSEnabled cr) ssl_flags
              (set_path_if true "/data/db/mongodb-healthcheck"
                ["mongodb-healthcheck"; "k8s"; "liveness"])))
    end in
  liveness_with (Some exec) startup (initialDelaySecondsDefault cr) (timeoutSecondsDefault cr)
    (periodSecondsDefault cr) (failureThresholdDefault cr) l.

(** Without a handler a member of a replica set gets a command, or, in versions
    before 1.15.0, a TCP check; returns Exec and TCPSocket. *)
Definition mongod_readiness_exec (cr : ClusterHead) : list string :=
  append_if (head_TLSEnabled cr && since cr "1.22.0") ssl_flags
    ["/opt/percona/mongodb-healthcheck"; "k8s"; "readiness"; "--component"; "mongod"].
Definition readiness_handler (cr : ClusterHead) (tcp_before_1_15 : bool) (port : Z) (p : Probe)
    : option (list string) * option Z :=
  match pr_TCPSocket p, pr_Exec p with
  | None, None =>
      if tcp_before_1_15 && negb (since cr "1.15.0") then (None, Some port)
      else (Some (mongod_readiness_exec cr), None)
  | tcp, exec => (exec, tcp)
  end.

(** [GetPort] reads the configuration. *)
Definition conf_port (conf : string) : Z :=
  match conf_GetPort conf with
  | Ok p => if (0 <? p)%Z then p else DefaultMongoPort
  | Err _ => DefaultMongoPort
  end.

Definition replset_readiness (cr : ClusterHead) (name conf : string) (p : option Probe) : Probe :=
  let p := default zeroProbe p in
  let '(exec, tcp) := readiness_handler cr true (conf_port conf) p in
  {| pr_Exec := exec; pr_TCPSocket := tcp;
     pr_InitialDelaySeconds := at_least_1 10 (pr_InitialDelaySeconds p);
     pr_TimeoutSeconds := at_least_1 2 (pr_TimeoutSeconds p);
     pr_PeriodSeconds := at_least_1 3 (pr_PeriodSeconds p);
     pr_SuccessThreshold := at_least_1 1 (pr_SuccessThreshold p);
     pr_FailureThreshold :=
       at_least_1 (if since cr "1.11.0" && bool_decide (name = ConfigReplSetName) then 3 else 8)
         (pr_FailureThreshold p) |}.

(** Non-voting and hidden members take the delays of their replica set. *)
Definition side_readiness (cr : ClusterHead) (tcp_before_1_15 : bool) (port : Z) (of_rs : Probe)
    (p : option Probe) : Probe :=
  let p := default zeroProbe p in
  let '(exec, tcp) := readiness_handler cr tcp_before_1_15 port p in
  {| pr_Exec := exec; pr_TCPSocket := tcp;
     pr_InitialDelaySeconds := at_least_1 (pr_InitialDelaySeconds of_rs) (pr_InitialDelaySeconds p);
     pr_TimeoutSeconds := at_least_1 (pr_TimeoutSeconds of_rs) (pr_TimeoutSeconds p);
     pr_PeriodSeconds := at_least_1 (pr_PeriodSeconds of_rs) (pr_PeriodSeconds p);
     pr_SuccessThreshold := pr_SuccessThreshold p;
     pr_FailureThreshold := at_least_1 (pr_FailureThreshold of_rs) (pr_FailureThreshold p) |}.

Definition side_liveness (of_rs : LivenessProbeExtended) (command : list string)
    (l : option LivenessProbeExtended) : LivenessProbeExtended :=
  let l := default zeroLiveness l in
  let startup := at_least_1 (lp_StartupDelaySeconds of_rs) (lp_StartupDelaySeconds l) in
  liveness_with (Some (startup_flag startup true (default command (pr_Exec l)))) startup
    (pr_InitialDelaySeconds of_rs) (pr_TimeoutSeconds of_rs) (pr_PeriodSeconds of_rs)
    (pr_FailureThreshold of_rs) l.
Definition nonVoting_command (cr : ClusterHead) : list string :=
  set_path_if (since cr "1.14.0") "/opt/percona/mongodb-healthcheck"
    (append_if (head_TLSEnabled cr) ssl_flags ["/data/db/mongodb-healthcheck"; "k8s"; "liveness"]).
Definition hidden_command (cr : ClusterHead) : list string :=
  append_if (head_TLSEnabled cr) ssl_flags ["/opt/percona/mongodb-healthcheck"; "k8s"; "liveness"].

(** * A replica set *)

Definition wired_tiger_defaults (w : option WiredTigerSpec) : WiredTigerSpec :=
  let w := default {| wt_CollectionConfig := None; wt_CacheSizeRatio := None;
                      wt_PrefixCompression := None |} w in
  let ratio := default "" (wt_CacheSizeRatio w) in
  {| wt_CollectionConfig := Some (default None (wt_CollectionConfig w));
     wt_CacheSizeRatio := Some (if zero_number ratio then "0.5" else ratio);
     wt_PrefixCompression := Some (default true (wt_PrefixCompression w)) |}.
Definition in_memory_defaults (m : option (option string)) : option string :=
  let ratio := default "" (default None m) in
  Some (if zero_number ratio then "0.9" else ratio).

Definition storage_defaults (cr : ClusterHead) (sharding : bool) (role : string)
    (s : option StorageSpec) : result StorageSpec :=
  let s := default {| ss_Engine := ""; ss_InMemory := None; ss_WiredTiger := None |} s in
  let engine := non_empty StorageEngineWiredTiger (ss_Engine s) in
  let s' :=
    {| ss_Engine := engine;
       ss_InMemory := if bool_decide (engine = StorageEngineInMemory)
                      then Some (in_memory_defaults (ss_InMemory s)) else ss_InMemory s;
       ss_WiredTiger := if bool_decide (engine = StorageEngineWiredTiger)
                        then Some (wired_tiger_defaults (ss_WiredTiger s)) else ss_WiredTiger s |} in
  _ ← require (negb (bool_decide (engine = StorageEngineMMAPv1)))
        (ENew "mmapv1 storage engine is not supported");
  _ ← require (negb (sharding && bool_decide (role = ClusterRoleConfigSvr)
                     && negb (bool_decide (engine = StorageEngineWiredTiger))))
        (ENew (engine +:+ " storage engine is not supported for config server replica set"));
  Ok s'.

(** The size and the arbiters of a replica set, before 1.16.0 and since.  No even
    int32 is the largest: [size + 1] does not wrap. *)
Definition with_ar_Size (enabled : bool) (size : Z) (a : Arbiter) : Arbiter :=
  {| ar_Enabled := enabled; ar_Size := size; ar_MultiAZ := ar_MultiAZ a |}.
Definition setSafeDefaults (size : Z) (a : Arbiter) : Z * Arbiter :=
  if ar_Enabled a then
    let size := if (size <? minSafeReplicasetSizeWithArbiter)%Z
                then minSafeReplicasetSizeWithArbiter else size in
    if negb (Z.rem size 2 =? 0)%Z then (size, with_ar_Size false 0 a)
    else (size, with_ar_Size true 1 a)
  else
    let size := if (size <? 2)%Z then defaultMongodSize else size in
    (if (Z.rem size 2 =? 0)%Z then size + 1 else size, a)%Z.

Definition safe_hint : string := " Set spec.unsafeFlags.replsetSize to true to disable this check".
Definition checkSafeDefaults (unsafe : UnsafeFlags) (size : Z) (a : Arbiter) (conf : string)
    : result unit :=
  _ ← (if uf_ReplsetSize unsafe then Ok tt
       else if ar_Enabled a then
         _ ← require (ar_Size a =? 1)%Z (ENew ("arbiter size must be 1." +:+ safe_hint));
         _ ← require (negb (size <? minSafeReplicasetSizeWithArbiter)%Z)
               (ENew ("replset size must be at least 4 with arbiter." +:+ safe_hint));
         require (Z.rem size 2 =? 0)%Z
           (ENew ("arbiter must disabled due to odd replset size." +:+ safe_hint))
       else
         _ ← require (negb (size <? 2)%Z) (ENew ("replset size must be at least 3." +:+ safe_hint));
         require (negb (Z.rem size 2 =? 0)%Z) (ENew ("replset size must be odd." +:+ safe_hint)));
  mode ← wrap_err "get tls mode" (GetTLSMode conf);
  require (bool_decide (mode = "")) (ENew "tlsMode must be set using spec.tls.mode").

Definition check_external (e : ExternalNode) : result ExternalNode :=
  _ ← require (negb ((en_Votes e <? 0)%Z || (1 <? en_Votes e)%Z))
        (ENew ("invalid votes for " +:+ en_Host e +:+ ": votes must be 0 or 1"));
  _ ← require (negb ((en_Priority e <? 0)%Z || (1000 <? en_Priority e)%Z))
        (ENew ("invalid priority for " +:+ en_Host e +:+ ": priority must be between 0 and 1000"));
  _ ← require (negb ((en_Votes e =? 0)%Z && negb (en_Priority e =? 0)%Z))
        (ENew ("invalid priority for " +:+ en_Host e +:+ ": non-voting members must have priority 0"));
  Ok {| en_Host := en_Host e; en_Port := non_zero 27017 (en_Port e);
        en_Priority := en_Priority e; en_Votes := en_Votes e;
        en_ArbiterOnly := en_ArbiterOnly e; en_Override := en_Override e |}.
Fixpoint mapR {A B} (f : A → result B) (l : list A) : result (list B) :=
  match l with
  | [] => Ok []
  | x :: l => y ← f x; ys ← mapR f l; Ok (y :: ys)
  end.

Definition rs_IsEncryptionEnabled (engine conf : string) : result bool :=
  enabled ← wrap_err "failed to parse replset configuration" (IsEncryptionEnabled conf);
  Ok (match enabled with
      | None => negb (bool_decide (engine = StorageEngineInMemory))
      | Some b => b
      end).

(** Probes, storage and service account: what comes before [SetDefaults] *)
Definition replset_prepare (cr : ClusterHead) (sharding : bool) (rs : Replset) : result Replset :=
  _ ← require (String.length (ch_Name cr +:+ rp_Name rs) <=? clusterNameMaxLen)%nat
        (ENew ("cluster name (" +:+ ch_Name cr +:+ ") + replset name (" +:+ rp_Name rs +:+
               ") is too long, must be no more than 50 characters"));
  storage ← storage_defaults cr sharding (rp_ClusterRole rs) (rp_Storage rs);
  Ok {|
    rp_Name := rp_Name rs; rp_Size := rp_Size rs; rp_ClusterRole := rp_ClusterRole rs;
    rp_Arbiter := rp_Arbiter rs; rp_ExposeEnabled := rp_ExposeEnabled rs; rp_Expose := rp_Expose rs;
    rp_VolumeSpec := rp_VolumeSpec rs;
    rp_ReadinessProbe :=
      Some (replset_readiness cr (rp_Name rs) (rp_Configuration rs) (rp_ReadinessProbe rs));
    rp_LivenessProbe := Some (replset_liveness cr (rp_LivenessProbe rs));
    rp_PodSecurityContext := rp_PodSecurityContext rs;
    rp_ContainerSecurityContext := rp_ContainerSecurityContext rs;
    rp_Storage := Some storage; rp_Configuration := rp_Configuration rs;
    rp_ExternalNodes := rp_ExternalNodes rs; rp_NonVoting := rp_NonVoting rs;
    rp_Hidden := rp_Hidden rs; rp_Horizons := rp_Horizons rs; rp_Overrides := rp_Overrides rs;
    rp_PrimaryPreferTagSelector := rp_PrimaryPreferTagSelector rs;
    rp_MultiAZ :=
      if since cr "1.6.0"
      then with_ServiceAccountName
             (non_empty WorkloadSA (maz_ServiceAccountName (rp_MultiAZ rs))) (rp_MultiAZ rs)
      else rp_MultiAZ rs |}.

(** Size and arbiters, checked or corrected *)
Definition live (cr : ClusterHead) : bool := negb (ch_Deleting cr) && negb (ch_Pause cr).
Definition replset_size (cr : ClusterHead) (size : Z) (a : Arbiter) (conf : string)
    : result (Z * Arbiter) :=
  if since cr "1.16.0" then
    _ ← (if live cr then wrap_err "check safe defaults" (checkSafeDefaults (ch_Unsafe cr) size a conf)
         else Ok tt);
    Ok (size, a)
  else if negb (ch_UnsafeConf cr) && live cr then Ok (setSafeDefaults size a)
  else Ok (size, a).
Definition arbiter_reconcileOpts (cr : ClusterHead) (name : string) (a : Arbiter) : result Arbiter :=
  if ar_Enabled a then
    m ← wrap_err ("reconcile multiAZ options for arbiter in replset " +:+ name)
          (reconcileOpts cr (ar_MultiAZ a));
    Ok {| ar_Enabled := ar_Enabled a; ar_Size := ar_Size a; ar_MultiAZ := m |}
  else Ok a.

(** [(rs *ReplsetSpec) SetDefaults] *)
Definition replset_SetDefaults (cr : ClusterHead) (rs : Replset) : result Replset :=
  volume ← match rp_VolumeSpec rs with
           | None => Err (ENew ("replset " +:+ rp_Name rs +:+ ": volumeSpec should be specified"))
           | Some v => wrap_err ("replset " +:+ rp_Name rs +:+ " VolumeSpec") (volume_reconcileOpts v)
           end;
  let expose := if rp_ExposeEnabled rs then default_expose (rp_Expose rs) else rp_Expose rs in
  dns ← external_dns cr ("replset " +:+ rp_Name rs) (ex_ExternalDNS expose);
  multiAZ ← wrap_err ("reconcile multiAZ options for replset " +:+ rp_Name rs)
              (reconcileOpts cr (rp_MultiAZ rs));
  arbiter ← arbiter_reconcileOpts cr (rp_Name rs) (rp_Arbiter rs);
  sized ← replset_size cr (rp_Size rs) arbiter (rp_Configuration rs);
  conf ← wrap_err "failed to set configuration defaults" (conf_SetDefaults (rp_Configuration rs));
  external ← mapR check_external (rp_ExternalNodes rs);
  _ ← match rp_Storage rs with
      | Some s =>
          if bool_decide (ss_Engine s = StorageEngineInMemory) then
            encrypted ← wrap_err "failed to parse replset configuration"
                          (rs_IsEncryptionEnabled (ss_Engine s) conf);
            require (negb encrypted) (ENew "inMemory storage engine doesn't support encryption")
          else Ok tt
      | None => Ok tt
      end;
  Ok {|
    rp_Name := rp_Name rs; rp_Size := sized.1; rp_ClusterRole := rp_ClusterRole rs;
    rp_Arbiter := sized.2; rp_ExposeEnabled := rp_ExposeEnabled rs;
    rp_Expose := with_ExternalDNS dns expose; rp_VolumeSpec := Some volume;
    rp_ReadinessProbe := rp_ReadinessProbe rs; rp_LivenessProbe := rp_LivenessProbe rs;
    rp_PodSecurityContext := pod_context (rp_PodSecurityContext rs);
    rp_ContainerSecurityContext := container_context (rp_ContainerSecurityContext rs);
    rp_Storage := rp_Storage rs; rp_Configuration := conf; rp_ExternalNodes := external;
    rp_NonVoting := rp_NonVoting rs; rp_Hidden := rp_Hidden rs; rp_Horizons := rp_Horizons rs;
    rp_Overrides := rp_Overrides rs;
    rp_PrimaryPreferTagSelector := rp_PrimaryPreferTagSelector rs; rp_MultiAZ := multiAZ |}.

(** What [SetDefaults] of non-voting and of hidden members have in common; the
    volume is shared with the replica set's when there is none. *)
Definition side_SetDefaults (cr : ClusterHead) (rs : Replset) (what : string)
    (liveness : option LivenessProbeExtended → LivenessProbeExtended)
    (readiness : option Probe → Probe) (nv : SideSpec) : result SideSpec :=
  if negb (sd_Enabled nv) then Ok nv
  else
    volume ← match sd_VolumeSpec nv with
             | Some v =>
                 v ← wrap_err ("reconcile volumes for replset " +:+ rp_Name rs +:+ " nonVoting")
                       (volume_reconcileOpts v);
                 Ok (Some v)
             | None => Ok (rp_VolumeSpec rs)
             end;
    multiAZ ← wrap_err ("reconcile multiAZ options for replset " +:+ rp_Name rs +:+ what)
                (reconcileOpts cr (with_ServiceAccountName
                   (non_empty WorkloadSA (maz_ServiceAccountName (sd_MultiAZ nv))) (sd_MultiAZ nv)));
    conf ← wrap_err "failed to set configuration defaults" (conf_SetDefaults (sd_Configuration nv));
    Ok {|
      sd_Enabled := sd_Enabled nv; sd_Size := sd_Size nv; sd_VolumeSpec := volume;
      sd_ReadinessProbe := Some (readiness (sd_ReadinessProbe nv));
      sd_LivenessProbe := Some (liveness (sd_LivenessProbe nv));
      sd_PodSecurityContext :=
        match sd_PodSecurityContext nv with Some c => Some c | None => rp_PodSecurityContext rs end;
      sd_ContainerSecurityContext :=
        match sd_ContainerSecurityContext nv with
        | Some c => Some c | None => rp_ContainerSecurityContext rs
        end;
      sd_Configuration := conf; sd_MultiAZ := multiAZ |}.

(** The replica set's probes, which are set by then *)
Definition rp_liveness (rs : Replset) : LivenessProbeExtended := default zeroLiveness (rp_LivenessProbe rs).
Definition rp_readiness (rs : Replset) : Probe := default zeroProbe (rp_ReadinessProbe rs).
Definition nonVoting_SetDefaults (cr : ClusterHead) (rs : Replset) (nv : SideSpec) : result SideSpec :=
  side_SetDefaults cr rs " nonVoting" (side_liveness (rp_liveness rs) (nonVoting_command cr))
    (side_readiness cr true (conf_port (rp_Configuration rs)) (rp_readiness rs)) nv.
Definition hidden_SetDefaults (cr : ClusterHead) (rs : Replset) (h : SideSpec) : result SideSpec :=
  side_SetDefaults cr rs "-hidden" (side_liveness (rp_liveness rs) (hidden_command cr))
    (side_readiness cr false 0 (rp_readiness rs)) h.

Definition with_side (nonVoting hidden : SideSpec) (rs : Replset) : Replset := {|
  rp_Name := rp_Name rs; rp_Size := rp_Size rs; rp_ClusterRole := rp_ClusterRole rs;
  rp_Arbiter := rp_Arbiter rs; rp_ExposeEnabled := rp_ExposeEnabled rs; rp_Expose := rp_Expose rs;
  rp_VolumeSpec := rp_VolumeSpec rs; rp_ReadinessProbe := rp_ReadinessProbe rs;
  rp_LivenessProbe := rp_LivenessProbe rs; rp_PodSecurityContext := rp_PodSecurityContext rs;
  rp_ContainerSecurityContext := rp_ContainerSecurityContext rs; rp_Storage := rp_Storage rs;
  rp_Configuration := rp_Configuration rs; rp_ExternalNodes := rp_ExternalNodes rs;
  rp_NonVoting := nonVoting; rp_Hidden := hidden; rp_Horizons := rp_Horizons rs;
  rp_Overrides := rp_Overrides rs; rp_PrimaryPreferTagSelector := rp_PrimaryPreferTagSelector rs;
  rp_MultiAZ := rp_MultiAZ rs |}.

(** One turn of the loop over the replica sets *)
Definition replset_defaults (cr : ClusterHead) (sharding : bool) (rs : Replset) : result Replset :=
  rs ← replset_prepare cr sharding rs;
  rs ← replset_SetDefaults cr rs;
  nonVoting ← wrap_err "set nonvoting defaults" (nonVoting_SetDefaults cr rs (rp_NonVoting rs));
  hidden ← wrap_err "set nonvoting defaults" (hidden_SetDefaults cr rs (rp_Hidden rs));
  Ok (with_side nonVoting hidden rs).

(** * Sharding *)
Definition mongos_log_storage (s : option (option PersistentVolumeClaimSpec))
    : option (option PersistentVolumeClaimSpec) :=
  match s with
  | Some (Some c) => Some (Some (default_access_modes c))
  | s => s
  end.

Definition mongos_size (cr : ClusterHead) (size : Z) : Z :=
  if negb (since cr "1.16.0") && live cr && negb (ch_UnsafeConf cr) && (size <? minSafeMongosSize)%Z
  then minSafeMongosSize else size.

Definition mongos_defaults (cr : ClusterHead) (m : MongosSpec) : result MongosSpec :=
  multiAZ ← wrap_err "reconcile mongos options" (reconcileOpts cr (mg_MultiAZ m));
  conf ← wrap_err "failed to set configuration defaults" (conf_SetDefaults (mg_Configuration m));
  let expose := default_expose (mg_Expose m) in
  dns ← external_dns cr "mongos" (ex_ExternalDNS expose);
  Ok {|
    mg_Size := mongos_size cr (mg_Size m); mg_ServicePerPod := mg_ServicePerPod m;
    mg_Expose := with_ExternalDNS dns expose;
    mg_ReadinessProbe := Some (mongos_readiness cr (mg_ReadinessProbe m));
    mg_LivenessProbe := Some (mongos_liveness cr (mg_LivenessProbe m));
    mg_PodSecurityContext :=
      if since cr "1.15.0" then pod_context (mg_PodSecurityContext m) else mg_PodSecurityContext m;
    mg_ContainerSecurityContext :=
      if since cr "1.15.0" then container_context (mg_ContainerSecurityContext m)
      else mg_ContainerSecurityContext m;
    mg_Configuration := conf;
    mg_MultiAZ :=
      if since cr "1.16.0"
      then with_ServiceAccountName (non_empty WorkloadSA (maz_ServiceAccountName multiAZ)) multiAZ
      else multiAZ;
    mg_LogStorage := mongos_log_storage (mg_LogStorage m) |}.

Definition with_identity (name role : string) (a : Arbiter) (rs : Replset) : Replset := {|
  rp_Name := name; rp_Size := rp_Size rs; rp_ClusterRole := role; rp_Arbiter := a;
  rp_ExposeEnabled := rp_ExposeEnabled rs; rp_Expose := rp_Expose rs;
  rp_VolumeSpec := rp_VolumeSpec rs; rp_ReadinessProbe := rp_ReadinessProbe rs;
  rp_LivenessProbe := rp_LivenessProbe rs; rp_PodSecurityContext := rp_PodSecurityContext rs;
  rp_ContainerSecurityContext := rp_ContainerSecurityContext rs; rp_Storage := rp_Storage rs;
  rp_Configuration := rp_Configuration rs; rp_ExternalNodes := rp_ExternalNodes rs;
  rp_NonVoting := rp_NonVoting rs; rp_Hidden := rp_Hidden rs; rp_Horizons := rp_Horizons rs;
  rp_Overrides := rp_Overrides rs; rp_PrimaryPreferTagSelector := rp_PrimaryPreferTagSelector rs;
  rp_MultiAZ := rp_MultiAZ rs |}.

Definition zeroMultiAZ : MultiAZ := {|
  maz_Affinity := None; maz_TopologySpreadConstraints := []; maz_ServiceAccountName := "";
  maz_PodDisruptionBudget := None; maz_TerminationGracePeriodSeconds := None |}.
Definition zeroSide : SideSpec := {|
  sd_Enabled := false; sd_Size := 0; sd_VolumeSpec := None; sd_ReadinessProbe := None;
  sd_LivenessProbe := None; sd_PodSecurityContext := None; sd_ContainerSecurityContext := None;
  sd_Configuration := ""; sd_MultiAZ := zeroMultiAZ |}.
Definition zeroExpose : Expose := {|
  ex_ExposeType := ""; ex_DeprecatedExposeType := ""; ex_ServiceAnnotations := ∅;
  ex_DeprecatedServiceAnnotations := ∅; ex_ServiceLabels := ∅; ex_DeprecatedServiceLabels := ∅;
  ex_ExternalDNS := None |}.
(** [&ReplsetSpec{Name: "rs0", Size: 3}] *)
Definition default_replset : Replset := {|
  rp_Name := "rs0"; rp_Size := defaultMongodSize; rp_ClusterRole := "";
  rp_Arbiter := {| ar_Enabled := false; ar_Size := 0; ar_MultiAZ := zeroMultiAZ |};
  rp_ExposeEnabled := false; rp_Expose := zeroExpose; rp_VolumeSpec := None;
  rp_ReadinessProbe := None; rp_LivenessProbe := None; rp_PodSecurityContext := None;
  rp_ContainerSecurityContext := None; rp_Storage := None; rp_Configuration := "";
  rp_ExternalNodes := []; rp_NonVoting := zeroSide; rp_Hidden := zeroSide; rp_Horizons := ∅;
  rp_Overrides := ∅; rp_PrimaryPreferTagSelector := ∅; rp_MultiAZ := zeroMultiAZ |}.

(** Names and cluster roles of the replica sets *)
Definition name_replset (sharding : bool) (i : nat) (rs : Replset) : Replset :=
  with_identity (non_empty ("rs" +:+ itoa (Z.of_nat i)) (rp_Name rs))
    (if sharding then ClusterRoleShardSvr else "") (rp_Arbiter rs) rs.
Definition name_replsets (sharding : bool) (l : list Replset) : list Replset :=
  imap (name_replset sharding) (match l with [] => [default_replset] | _ => l end).

(** The config servers: their name and role, and no arbiters *)
Definition name_configsvr (cfg : Replset) : Replset :=
  with_identity ConfigReplSetName ClusterRoleConfigSvr
    {| ar_Enabled := false; ar_Size := ar_Size (rp_Arbiter cfg);
       ar_MultiAZ := ar_MultiAZ (rp_Arbiter cfg) |} cfg.

(** External nodes are in every replica set or in none. *)
Definition no_external (rs : Replset) : bool :=
  match rp_ExternalNodes rs with [] => true | _ => false end.
Fixpoint check_external_everywhere (cfg : Replset) (l : list Replset) : result unit :=
  match l with
  | [] => Ok tt
  | rs :: l =>
      _ ← require (no_external rs || negb (no_external cfg))
            (ENew ("ConfigsvrReplSet must have externalNodes if replset " +:+ rp_Name rs +:+ " has"));
      _ ← require (no_external cfg || negb (no_external rs))
            (ENew ("replset " +:+ rp_Name rs +:+ " must have externalNodes if ConfigsvrReplSet has"));
      check_external_everywhere cfg l
  end.

(** From the names of the replica sets to the end of the loop over them, which
    takes the config servers last. *)
Definition sharding_defaults (cr : ClusterHead) (l : list Replset) (s : Sharding)
    : result (list Replset * Sharding) :=
  let l := name_replsets (sh_Enabled s) l in
  if sh_Enabled s then
    match sh_ConfigsvrReplSet s, sh_Mongos s with
    | None, _ => Err (ENew "config replica set should be specified")
    | _, None => Err (ENew "mongos should be specified")
    | Some cfg, Some m =>
        m ← mongos_defaults cr m;
        let cfg := name_configsvr cfg in
        _ ← check_external_everywhere cfg l;
        l ← mapR (replset_defaults cr true) l;
        cfg ← replset_defaults cr true cfg;
        Ok (l, {| sh_Enabled := true; sh_ConfigsvrReplSet := Some cfg; sh_Mongos := Some m |})
    end
  else
    l ← mapR (replset_defaults cr false) l;
    Ok (l, s).

(** * Backups, search and the rest *)
Fixpoint tasks_defaults (i : nat) (l : list BackupTaskSpec) : result (list BackupTaskSpec) :=
  match l with
  | [] => Ok []
  | t :: l =>
      _ ← require (negb (bool_decide (task_Name t = "")))
            (ENew ("backup task " +:+ itoa (Z.of_nat i) +:+ " should have a name"));
      l ← tasks_defaults (S i) l;
      Ok ({| task_Name := task_Name t; task_Enabled := task_Enabled t; task_Keep := task_Keep t;
             task_Retention := task_Retention t; task_Schedule := task_Schedule t;
             task_StorageName := task_StorageName t;
             task_CompressionType := non_empty CompressionTypeGZIP (task_CompressionType t);
             task_CompressionLevel := task_CompressionLevel t;
             task_VolumeSnapshotClass := task_VolumeSnapshotClass t; task_Type := task_Type t |} :: l)
  end.

Definition main_storages (m : gmap string BackupStorageSpec) : nat :=
  size (filter (λ p, stg_Main p.2 = true) m).
Definition check_main_storage (cr : ClusterHead) (m : gmap string BackupStorageSpec) : result unit :=
  if since cr "1.20.0" && (1 <? size m)%nat then
    _ ← require (negb (main_storages m =? 0)%nat) (ENew "main backup storage is not specified");
    require (negb (1 <? main_storages m)%nat) (ENew "multiple main backup storages are specified")
  else Ok tt.

Definition with_Region (region : string) (s : BackupStorageSpec) : BackupStorageSpec :=
  let s3 := stg_S3 s in
  {| stg_Type := stg_Type s; stg_Main := stg_Main s;
     stg_S3 := {| s3_bucket := s3_bucket s3; s3_Region := region;
                  s3_UploadPartSize := s3_UploadPartSize s3; s3_MaxUploadParts := s3_MaxUploadParts s3;
                  s3_StorageClass := s3_StorageClass s3;
                  s3_InsecureSkipTLSVerify := s3_InsecureSkipTLSVerify s3;
                  s3_ForcePathStyle := s3_ForcePathStyle s3; s3_Retryer := s3_Retryer s3;
                  s3_SSE := s3_SSE s3 |};
     stg_Minio := stg_Minio s; stg_GCS := stg_GCS s; stg_Azure := stg_Azure s; stg_OSS := stg_OSS s;
     stg_Filesystem := stg_Filesystem s; stg_OCI := stg_OCI s |}.
Definition is_s3 (s : BackupStorageSpec) : bool := bool_decide (stg_Type s = BackupStorageS3).
Definition two_encryptions (s : BackupStorageSpec) : bool :=
  is_s3 s && negb (bool_decide (SSECustomerAlgorithm (s3_SSE (stg_S3 s)) = ""))
  && negb (bool_decide (SSEAlgorithm (s3_SSE (stg_S3 s)) = "")).
Definition storage_region (cr : ClusterHead) (s : BackupStorageSpec) : BackupStorageSpec :=
  if is_s3 s && since cr "1.22.0" then with_Region (non_empty DefaultS3Region (s3_Region (stg_S3 s))) s
  else s.

(** The OCI storages with workload identity are in one region.  An empty region
    that is met first is forgotten, so that with one the outcome can depend on the
    order in which the map is ranged over. *)
Definition workload_region (s : BackupStorageSpec) : option string :=
  if bool_decide (stg_Type s = BackupStorageOCI)
     && bool_decide (oci_AuthType (stg_OCI s) = AuthTypeOkeWorkloadIdentity)
  then Some (oci_Region (stg_OCI s)) else None.
Fixpoint check_regions (seen : string) (l : list BackupStorageSpec) : result unit :=
  match l with
  | [] => Ok tt
  | s :: l =>
      match workload_region s with
      | None => check_regions seen l
      | Some region =>
          if bool_decide (seen = "") then check_regions region l
          else if bool_decide (seen = region) then check_regions seen l
          else Err (ENew "all OCI storages using okeWorkloadIdentity need to be in the same region")
      end
  end.
Definition validateOCIStorages `{MapOrder} (m : gmap string BackupStorageSpec) : result unit :=
  check_regions "" (snd <$> map_order m).

Definition with_pitr (enabled : bool) (span : string) (p : PITRSpec) : PITRSpec :=
  {| pitr_Enabled := enabled; pitr_OplogSpanMin := span; pitr_OplogOnly := pitr_OplogOnly p;
     pitr_CompressionType := pitr_CompressionType p;
     pitr_CompressionLevel := pitr_CompressionLevel p |}.
Definition pitr_defaults (cr : ClusterHead) (b : BackupSpec) : PITRSpec :=
  let p := b_PITR b in
  let enabled :=
    b_Enabled b && pitr_Enabled p && (since cr "1.20.0" || (size (b_Storages b) =? 1)%nat) in
  with_pitr enabled
    (if enabled && zero_number (pitr_OplogSpanMin p) then "10" else pitr_OplogSpanMin p) p.

Definition with_backup_spec (storages : gmap string BackupStorageSpec) (tasks : list BackupTaskSpec)
    (p : PITRSpec) (b : BackupSpec) : BackupSpec :=
  {| b_Enabled := b_Enabled b; b_Image := b_Image b; b_Storages := storages; b_Tasks := tasks;
     b_PITR := p; b_BackupOptions := b_BackupOptions b; b_RestoreOptions := b_RestoreOptions b;
     b_StartingDeadlineSeconds := b_StartingDeadlineSeconds b |}.


Definition backup_defaults `{MapOrder} (cr : ClusterHead) (b : BackupSection) : result BackupSection :=
  if b_Enabled b then
    tasks ← tasks_defaults 0 (b_Tasks b);
    _ ← check_main_storage cr (b_Storages b);
    _ ← require (forallb (λ p, negb (two_encryptions p.2)) (map_to_list (b_Storages b)))
          (ENew ("For S3 storage only one encryption method can be used. Set either (sseAlgorithm and"
                 +:+ " kmsKeyID) or (sseCustomerAlgorithm and sseCustomerKey)"));
    let storages := storage_region cr <$> b_Storages b in
    _ ← wrap_err "validate oci storages" (validateOCIStorages storages);
    Ok {| bk_spec := with_backup_spec storages tasks (pitr_defaults cr b) b;
          bk_ServiceAccountName :=
            if negb (since cr "1.15.0")
            then non_empty "percona-server-mongodb-operator" (bk_ServiceAccountName b)
            else bk_ServiceAccountName b;
          bk_PodSecurityContext := pod_context (bk_PodSecurityContext b);
          bk_ContainerSecurityContext := container_context (bk_ContainerSecurityContext b) |}
  else
    Ok {| bk_spec := with_backup_spec (b_Storages b) (b_Tasks b) (pitr_defaults cr b) b;
          bk_ServiceAccountName := bk_ServiceAccountName b;
          bk_PodSecurityContext := bk_PodSecurityContext b;
          bk_ContainerSecurityContext := bk_ContainerSecurityContext b |}.

Definition setSearchDefaults (s : SearchSpec) : SearchSpec :=
  let user := platform_user platform in
  {| se_Enabled := se_Enabled s;
     se_ContainerSecurityContext :=
       Some (default {| sc_RunAsNonRoot := Some true; sc_RunAsUser := user; sc_RunAsGroup := user |}
               (se_ContainerSecurityContext s));
     se_PodSecurityContext :=
       Some (default {| psc_FSGroup := user; psc_RunAsUser := user; psc_RunAsGroup := user |}
               (se_PodSecurityContext s)) |}.

Definition CheckNSetDefaults `{MapOrder} (cr : Cluster) : result Cluster :=
  l ← match cl_Replsets cr with
      | None => Err (ENew "at least one replica set should be specified")
      | Some l => Ok l
      end;
  head ← head_defaults cr;
  sharded ← sharding_defaults head l (cl_Sharding cr);
  backup ← backup_defaults head (cl_Backup cr);
  let updateStrategy := non_empty SmartUpdateStatefulSetStrategyType (cl_UpdateStrategy cr) in
  _ ← require (negb (ch_Unmanaged cr
                     && bool_decide (updateStrategy = SmartUpdateStatefulSetStrategyType)))
        (ENew ("SmartUpdate is not allowed on unmanaged clusters, set updateStrategy to"
               +:+ " RollingUpdate or OnDelete"));
  _ ← require (mcs_IsAvailable || negb (cl_MCSEnabled cr)) (ENew "MCS is not available on this cluster");
  Ok {|
    cl_head := head; cl_Annotations := cl_Annotations cr;
    cl_Replsets := Some sharded.1; cl_Sharding := sharded.2; cl_Backup := backup;
    cl_PMMSecurityContext :=
      if b_Enabled (cl_Backup cr) then container_context (cl_PMMSecurityContext cr)
      else cl_PMMSecurityContext cr;
    cl_DNSSuffix := non_empty DefaultDNSSuffix (cl_DNSSuffix cr);
    cl_DNSMode := non_empty DNSModeInternal (cl_DNSMode cr);
    cl_UpdateStrategy := updateStrategy;
    cl_UpgradeOptions :=
      {| up_VersionServiceEndpoint :=
           non_empty DefaultVersionServiceEndpoint (up_VersionServiceEndpoint (cl_UpgradeOptions cr));
         up_Apply := non_empty "disabled" (up_Apply (cl_UpgradeOptions cr)) |};
    cl_MCSEnabled := cl_MCSEnabled cr;
    cl_MCSDNSSuffix := non_empty MultiClusterDefaultDNSSuffix (cl_MCSDNSSuffix cr);
    cl_Search := setSearchDefaults <$> cl_Search cr;
    cl_DefaultRWConcern := cl_DefaultRWConcern cr |}.
End defaults.
