(* ===== verification/DefaultsFacts.v ===== *)
(** What a cluster is once CheckNSetDefaults has accepted it, and that applying
    the defaults again changes nothing (psmdb_defaults.go). *)
From S2P Require Import Prelude ReplsetModels Api Storage BackupApi InPlace Defaults.

(** * Results *)
Lemma bind_Ok {A B} (m : result A) (f : A → result B) b :
  m ≫= f = Ok b ↔ ∃ a, m = Ok a ∧ f a = Ok b.
Proof.
  destruct m as [a|e]; cbn; split; [by exists a|by intros (? & [= ->] & ?)|done|by intros (? & [=] & _)].
Qed.
Lemma require_Ok b e u : require b e = Ok u ↔ b = true.
Proof. destruct u, b; cbn; split; done. Qed.
Lemma wrap_Ok {A} msg (m : result A) a : wrap_err msg m = Ok a ↔ m = Ok a.
Proof. by destruct m. Qed.
Lemma bind_step {A B} (m : result A) (f : A → result B) a : m = Ok a → m ≫= f = f a.
Proof. by intros ->. Qed.
Lemma mapR_Forall2 {A B} (f : A → result B) l l' :
  mapR f l = Ok l' ↔ Forall2 (λ x y, f x = Ok y) l l'.
Proof.
  revert l'. induction l as [|x l IH]; intros l'; cbn.
  - split; [intros [= <-]; constructor|intros ->%Forall2_nil_inv_l; done].
  - rewrite bind_Ok. split.
    + intros (y & Hy & (ys & Hys & [= <-])%bind_Ok). constructor; [done|by apply IH].
    + intros (y & ys & Hy & Hys & ->)%Forall2_cons_inv_l. exists y. split; [done|].
      apply bind_Ok. exists ys. split; [by apply IH|done].
Qed.
(** The two lists of the theorems below: what held of each pair *)
Lemma Forall2_right {A B} (R : A → B → Prop) (P : B → Prop) l l' :
  (∀ x y, R x y → P y) → Forall2 R l l' → Forall P l'.
Proof. induction 2; constructor; eauto. Qed.

Ltac ok_inv :=
  repeat match goal with
  | H : _ ≫= _ = Ok _ |- _ =>
      let a := fresh "a" in let Ha := fresh "Hok" in apply bind_Ok in H as (a & Ha & H)
  | H : require _ _ = Ok _ |- _ => apply require_Ok in H
  | H : wrap_err _ _ = Ok _ |- _ => apply wrap_Ok in H
  | H : Ok (_, _) = Ok (_, _) |- _ => injection H as <- <-
  | H : Ok _ = Ok _ |- _ => injection H as <-
  | H : Err _ = Ok _ |- _ => discriminate H
  end.

Lemma at_least_1_ge d x : (1 ≤ d → 1 ≤ at_least_1 d x)%Z.
Proof. unfold at_least_1. destruct (Z.ltb_spec x 1); lia. Qed.
Lemma at_least_1_idem d x : at_least_1 d (at_least_1 d x) = at_least_1 d x.
Proof. unfold at_least_1. destruct (Z.ltb_spec x 1); [destruct (Z.ltb_spec d 1)|destruct (Z.ltb_spec x 1)]; lia. Qed.
Lemma non_zero_idem d x : non_zero d (non_zero d x) = non_zero d x.
Proof. unfold non_zero. destruct (Z.eqb_spec x 0); [destruct (Z.eqb_spec d 0)|destruct (Z.eqb_spec x 0)]; lia. Qed.
Lemma non_zero_ne d x : d ≠ 0%Z → non_zero d x ≠ 0%Z.
Proof. unfold non_zero. by destruct (Z.eqb_spec x 0). Qed.
(** A number that is not zero, or the default *)
Lemma number_set d r : zero_number d = false → zero_number (if zero_number r then d else r) = false.
Proof. by destruct (zero_number r) eqn:E. Qed.
Lemma non_empty_idem d s : non_empty d (non_empty d s) = non_empty d s.
Proof. unfold non_empty. repeat case_bool_decide; congruence. Qed.
Lemma non_empty_ne d s : d ≠ "" → non_empty d s ≠ "".
Proof. unfold non_empty. by case_bool_decide. Qed.

(** * Accepted clusters *)
Section accepted.
Context `{V : Versions, Y : Yaml, N : DomainNames, A : McsAvailable, O : MapOrder}.
Variable platform : Platform.
Implicit Types (cr : ClusterHead) (rs : Replset).

Definition timed (p : Probe) : Prop :=
  (1 ≤ pr_InitialDelaySeconds p ∧ 1 ≤ pr_TimeoutSeconds p ∧
   1 ≤ pr_PeriodSeconds p ∧ 1 ≤ pr_FailureThreshold p)%Z.
Definition has_handler (p : Probe) : Prop := is_Some (pr_Exec p) ∨ is_Some (pr_TCPSocket p).

(** Storage behind every member: a claim has a size. *)
Definition volume_ok (v : VolumeSpec) : Prop :=
  match vs_PersistentVolumeClaim v with
  | Some c => is_Some (pvc_Requests c !! "storage") ∧ pvc_AccessModes c ≠ []
  | None => vs_EmptyDir v || vs_HostPath v = true
  end.
(** Since 1.16.0 a pod has half a minute to stop, unless that is switched off;
    every group of pods has a disruption budget and an affinity. *)
Definition multiAZ_ok cr (m : MultiAZ) : Prop :=
  is_Some (maz_Affinity m) ∧ is_Some (maz_PodDisruptionBudget m) ∧
  (since cr "1.16.0" = true → uf_TerminationGracePeriod (ch_Unsafe cr) = false →
   ∃ s, maz_TerminationGracePeriodSeconds m = Some s ∧ (30 ≤ s)%Z).
Definition storage_ok (sharding : bool) (role : string) (s : StorageSpec) : Prop :=
  ss_Engine s ≠ StorageEngineMMAPv1 ∧
  (sharding = true → role = ClusterRoleConfigSvr → ss_Engine s = StorageEngineWiredTiger) ∧
  (ss_Engine s = StorageEngineInMemory →
   ∃ r, ss_InMemory s = Some (Some r) ∧ zero_number r = false) ∧
  (ss_Engine s = StorageEngineWiredTiger →
   ∃ w r, ss_WiredTiger s = Some w ∧ wt_CacheSizeRatio w = Some r ∧ zero_number r = false ∧
          is_Some (wt_CollectionConfig w) ∧ is_Some (wt_PrefixCompression w)).
(** Data-bearing members and arbiters are odd in number; without three data
    members there is no majority to lose one. *)
Definition size_ok cr (size : Z) (a : Arbiter) : Prop :=
  live cr = true →
  (if since cr "1.16.0" then uf_ReplsetSize (ch_Unsafe cr) else ch_UnsafeConf cr) = false →
  (3 ≤ size)%Z ∧ Z.odd (size + (if ar_Enabled a then ar_Size a else 0)) = true ∧
  (ar_Enabled a = true → ar_Size a = 1%Z ∧ (4 ≤ size)%Z).
Definition external_ok (e : ExternalNode) : Prop :=
  en_Port e ≠ 0%Z ∧ (en_Votes e = 0 ∨ en_Votes e = 1)%Z ∧ (0 ≤ en_Priority e ≤ 1000)%Z ∧
  (en_Votes e = 0 → en_Priority e = 0)%Z.
Definition side_ok cr (s : SideSpec) : Prop :=
  sd_Enabled s = true →
  (∃ v, sd_VolumeSpec s = Some v ∧ volume_ok v) ∧
  (∃ l, sd_LivenessProbe s = Some l ∧ timed l ∧ CommandHas l startupDelaySecondsFlag = true) ∧
  (∃ p, sd_ReadinessProbe s = Some p ∧ timed p ∧ has_handler p) ∧
  is_Some (sd_ContainerSecurityContext s) ∧ is_Some (sd_PodSecurityContext s) ∧
  maz_ServiceAccountName (sd_MultiAZ s) ≠ "" ∧ multiAZ_ok cr (sd_MultiAZ s).

Record replset_ok cr (sharding : bool) rs : Prop := {
  ro_name : String.length (ch_Name cr +:+ rp_Name rs) ≤ clusterNameMaxLen;
  ro_storage : ∃ s, rp_Storage rs = Some s ∧ storage_ok sharding (rp_ClusterRole rs) s ∧
    (ss_Engine s = StorageEngineInMemory →
     rs_IsEncryptionEnabled (ss_Engine s) (rp_Configuration rs) = Ok false);
  ro_liveness : ∃ l, rp_LivenessProbe rs = Some l ∧ timed l ∧ is_Some (pr_Exec l);
  ro_readiness : ∃ p, rp_ReadinessProbe rs = Some p ∧ timed p ∧ has_handler p;
  ro_volume : ∃ v, rp_VolumeSpec rs = Some v ∧ volume_ok v;
  ro_expose : rp_ExposeEnabled rs = true → ex_ExposeType (rp_Expose rs) ≠ "";
  ro_dns : ∀ d, ex_ExternalDNS (rp_Expose rs) = Some d →
    dns_Domain d ≠ "" ∧ IsDNS1123Subdomain (dns_Domain d) = true;
  ro_multiAZ : multiAZ_ok cr (rp_MultiAZ rs);
  ro_arbiter : ar_Enabled (rp_Arbiter rs) = true → multiAZ_ok cr (ar_MultiAZ (rp_Arbiter rs));
  ro_size : size_ok cr (rp_Size rs) (rp_Arbiter rs);
  ro_external : Forall external_ok (rp_ExternalNodes rs);
  ro_contexts : is_Some (rp_ContainerSecurityContext rs) ∧ is_Some (rp_PodSecurityContext rs);
  ro_nonVoting : side_ok cr (rp_NonVoting rs);
  ro_hidden : side_ok cr (rp_Hidden rs)
}.

Record mongos_ok cr (m : MongosSpec) : Prop := {
  mo_liveness : ∃ l, mg_LivenessProbe m = Some l ∧ timed l ∧ is_Some (pr_Exec l);
  mo_readiness : ∃ p, mg_ReadinessProbe m = Some p ∧ timed p ∧ is_Some (pr_Exec p);
  mo_expose : ex_ExposeType (mg_Expose m) ≠ "";
  mo_multiAZ : multiAZ_ok cr (mg_MultiAZ m)
}.

(** The configuration servers are a replica set of their own kind, and external
    nodes are everywhere or nowhere. *)
Record sharding_ok cr (l : list Replset) (s : Sharding) : Prop := {
  so_roles : Forall (λ rs, rp_Name rs ≠ "" ∧
    rp_ClusterRole rs = (if sh_Enabled s then ClusterRoleShardSvr else "")) l;
  so_replsets : Forall (replset_ok cr (sh_Enabled s)) l;
  so_some : l ≠ [];
  so_sharded : sh_Enabled s = true → ∃ cfg m,
    sh_ConfigsvrReplSet s = Some cfg ∧ sh_Mongos s = Some m ∧
    replset_ok cr true cfg ∧ mongos_ok cr m ∧
    rp_Name cfg = ConfigReplSetName ∧ rp_ClusterRole cfg = ClusterRoleConfigSvr ∧
    ar_Enabled (rp_Arbiter cfg) = false ∧
    Forall (λ rs, no_external rs = no_external cfg) l
}.

Record backup_ok cr (b : BackupSection) : Prop := {
  bo_named : b_Enabled b = true → Forall (λ t, task_Name t ≠ "" ∧ task_CompressionType t ≠ "") (b_Tasks b);
  bo_main : b_Enabled b = true → since cr "1.20.0" = true → 1 < size (b_Storages b) →
    main_storages (b_Storages b) = 1;
  bo_encryption : b_Enabled b = true → ∀ n s, b_Storages b !! n = Some s → two_encryptions s = false;
  bo_pitr : pitr_Enabled (b_PITR b) = true →
    b_Enabled b = true ∧ zero_number (pitr_OplogSpanMin (b_PITR b)) = false
}.

Record cluster_ok (cr : Cluster) : Prop := {
  co_image : ch_Image cr ≠ "";
  co_secrets : ∃ s, ch_Secrets cr = Some s ∧ sec_Users s ≠ "" ∧ sec_SSL s ≠ "" ∧
    sec_SSLInternal s ≠ "" ∧ sec_EncryptionKey s ≠ "";
  co_vault : ∀ v, ch_Vault cr = Some v → has_prefix "https://" (va_EndpointURL v) = true →
    va_TLSSecret v ≠ "" ∧ va_Role v ≠ "";
  co_tls : ∃ t, ch_TLS cr = Some t ∧ tls_Mode t ≠ "" ∧ is_Some (tls_AllowInvalidCertificates t) ∧
    tls_CertValidityDuration t ≠ 0%Z ∧
    (tls_Mode t = TLSModeDisabled → uf_TLS (ch_Unsafe cr) = true);
  co_sharding : ∃ l, cl_Replsets cr = Some l ∧ sharding_ok cr l (cl_Sharding cr);
  co_backup : backup_ok cr (cl_Backup cr);
  co_update : cl_UpdateStrategy cr ≠ "" ∧
    (ch_Unmanaged cr = true → cl_UpdateStrategy cr ≠ SmartUpdateStatefulSetStrategyType);
  co_mcs : cl_MCSEnabled cr = true → mcs_IsAvailable = true;
  co_dns : cl_DNSSuffix cr ≠ "" ∧ cl_DNSMode cr ≠ "" ∧ cl_MCSDNSSuffix cr ≠ ""
}.

(** ** The parts *)
Lemma container_context_is_Some c : is_Some (container_context platform c).
Proof. by destruct c. Qed.
Lemma pod_context_is_Some c : is_Some (pod_context platform c).
Proof. by destruct c. Qed.

Lemma volume_accepted v v' : volume_reconcileOpts v = Ok v' → volume_ok v'.
Proof.
  assert (∀ c, pvc_AccessModes (default_access_modes c) ≠ []) as Hm by (by intros [? []]).
  unfold volume_reconcileOpts, volume_ok.
  destruct (vs_PersistentVolumeClaim v) as [c|]; [|destruct (_ || _) eqn:E; [intros [= <-]; exact E|]].
  - destruct (pvc_Requests c !! "storage") as [z|] eqn:E; intros [= <-].
    split; [by exists z|apply Hm].
  - cbn [pvc_Requests zeroClaim]. by rewrite lookup_empty.
Qed.

Lemma multiAZ_accepted cr m m' : reconcileOpts cr m = Ok m' → multiAZ_ok cr m'.
Proof.
  unfold reconcileOpts. intros (g & Hg & [= <-])%bind_Ok. unfold multiAZ_ok; cbn. split_and!.
  - unfold reconcileAffinityOpts. destruct (maz_Affinity m) as [[[k|] [a|]]|]; cbn;
      try case_bool_decide; done.
  - by destruct (maz_PodDisruptionBudget m).
  - intros H16 Hu. unfold reconcile_grace in Hg. apply bind_Ok in Hg as (g' & _ & Hg).
    rewrite H16, Hu in Hg. destruct g' as [s|]; [|done]. ok_inv.
    exists s. split; [done|]. destruct (Z.ltb_spec s 30); [done|lia].
Qed.

Lemma storage_accepted cr sharding role s s' :
  storage_defaults cr sharding role s = Ok s' → storage_ok sharding role s'.
Proof.
  unfold storage_defaults. intros H. ok_inv.
  apply negb_true_iff, bool_decide_eq_false in Hok. apply negb_true_iff in Hok0.
  unfold storage_ok; cbn [ss_Engine ss_InMemory ss_WiredTiger]. split_and!; [done| | |].
  - intros -> ->. rewrite bool_decide_eq_true_2 in Hok0 by done. cbn in Hok0.
    by apply negb_false_iff, bool_decide_eq_true in Hok0.
  - intros ->. rewrite bool_decide_eq_true_2 by done. unfold in_memory_defaults.
    eexists. split; [done|]. by apply number_set.
  - intros ->. rewrite bool_decide_eq_true_2 by done. eexists _, _. split; [done|].
    cbn. split_and!; [done| |done..]. by apply number_set.
Qed.

Lemma timed_liveness exec startup i t p f l :
  (1 ≤ i → 1 ≤ t → 1 ≤ p → 1 ≤ f → timed (liveness_with exec startup i t p f l))%Z.
Proof. intros. unfold timed; cbn. split_and!; by apply at_least_1_ge. Qed.
Lemma default_delays cr :
  (1 ≤ initialDelaySecondsDefault cr ∧ 1 ≤ timeoutSecondsDefault cr ∧
   1 ≤ periodSecondsDefault cr ∧ 1 ≤ failureThresholdDefault cr)%Z.
Proof.
  unfold initialDelaySecondsDefault, timeoutSecondsDefault, periodSecondsDefault,
    failureThresholdDefault. repeat destruct (since _ _); lia.
Qed.
Lemma readiness_has_handler cr b port p :
  is_Some (readiness_handler cr b port p).1 ∨ is_Some (readiness_handler cr b port p).2.
Proof.
  unfold readiness_handler. destruct (pr_TCPSocket p), (pr_Exec p); cbn; [by left| by right|by left|].
  destruct (_ && _); [by right|by left].
Qed.

Lemma replset_liveness_accepted cr l : timed (replset_liveness cr l) ∧ is_Some (pr_Exec (replset_liveness cr l)).
Proof. pose proof (default_delays cr). split; [apply timed_liveness; tauto|done]. Qed.
Lemma mongos_liveness_accepted cr l : timed (mongos_liveness cr l) ∧ is_Some (pr_Exec (mongos_liveness cr l)).
Proof. pose proof (default_delays cr). split; [apply timed_liveness; tauto|done]. Qed.
Lemma mongos_readiness_accepted cr p :
  timed (mongos_readiness cr p) ∧ is_Some (pr_Exec (mongos_readiness cr p)).
Proof. split; [|done]. unfold timed; cbn. destruct (since cr "1.11.0"); split_and!; apply at_least_1_ge; lia. Qed.
Lemma replset_readiness_accepted cr name conf p :
  timed (replset_readiness cr name conf p) ∧ has_handler (replset_readiness cr name conf p).
Proof.
  unfold replset_readiness, has_handler.
  pose proof (readiness_has_handler cr true (conf_port conf) (default zeroProbe p)) as Hh.
  destruct (readiness_handler _ _ _ _) as [exec tcp]. split; [|exact Hh].
  unfold timed; cbn. split_and!; apply at_least_1_ge; [lia..|]. destruct (_ && _); lia.
Qed.

Lemma startup_flag_has delay cmd : startupDelaySecondsFlag ∈ startup_flag delay true cmd.
Proof.
  unfold startup_flag. case_bool_decide as H; cbn; [done|].
  apply elem_of_app. right. by left.
Qed.
Lemma side_liveness_accepted (of_rs : LivenessProbeExtended) cmd l : timed of_rs →
  timed (side_liveness of_rs cmd l) ∧ CommandHas (side_liveness of_rs cmd l) startupDelaySecondsFlag = true.
Proof.
  intros (?&?&?&?). split; [by apply timed_liveness|].
  unfold CommandHas, side_liveness, liveness_with. cbn -[startup_flag].
  apply bool_decide_eq_true, startup_flag_has.
Qed.
Lemma side_readiness_accepted cr b port of_rs p : timed of_rs →
  timed (side_readiness cr b port of_rs p) ∧ has_handler (side_readiness cr b port of_rs p).
Proof.
  intros (?&?&?&?). unfold side_readiness, has_handler.
  pose proof (readiness_has_handler cr b port (default zeroProbe p)) as Hh.
  destruct (readiness_handler _ _ _ _) as [exec tcp]. split; [|exact Hh].
  unfold timed; cbn. split_and!; by apply at_least_1_ge.
Qed.

Lemma external_dns_accepted cr what d d' : external_dns cr what d = Ok (Some d') →
  dns_Domain d' ≠ "" ∧ IsDNS1123Subdomain (dns_Domain d') = true.
Proof.
  unfold external_dns. destruct d as [d|]; [|done]. intros H. ok_inv. cbn.
  by apply negb_true_iff, bool_decide_eq_false in Hok.
Qed.
Lemma default_expose_typed e : ex_ExposeType (default_expose e) ≠ "".
Proof. cbn. case_bool_decide; [by apply non_empty_ne|done]. Qed.

Lemma external_accepted e e' : check_external e = Ok e' → external_ok e'.
Proof.
  unfold check_external, external_ok. intros H. ok_inv. cbn.
  split; [by apply non_zero_ne|].
  repeat match goal with H : negb _ = true |- _ => apply negb_true_iff in H end.
  apply orb_false_iff in Hok as [?%Z.ltb_ge ?%Z.ltb_ge].
  apply orb_false_iff in Hok0 as [?%Z.ltb_ge ?%Z.ltb_ge].
  apply andb_false_iff in Hok1. rewrite negb_false_iff, Z.eqb_eq, Z.eqb_neq in Hok1. lia.
Qed.
Lemma external_all_accepted l l' : mapR check_external l = Ok l' → Forall external_ok l'.
Proof. rewrite mapR_Forall2. apply Forall2_right, external_accepted. Qed.

Lemma setSafeDefaults_ok size a : let s := setSafeDefaults size a in
  (3 ≤ s.1)%Z ∧ Z.odd (s.1 + (if ar_Enabled s.2 then ar_Size s.2 else 0)) = true ∧
  (ar_Enabled s.2 = true → ar_Size s.2 = 1%Z ∧ (4 ≤ s.1)%Z).
Proof.
  assert (∀ z, 0 ≤ z → (Z.rem z 2 =? 0) = Z.even z)%Z as Hr.
  { intros z Hz. rewrite Z.rem_mod_nonneg by lia. by rewrite Zeven_mod. }
  unfold setSafeDefaults, minSafeReplicasetSizeWithArbiter, defaultMongodSize. cbv zeta.
  assert (∀ d z : Z, (d ≤ if z <? d then d else z)%Z) as Hd.
  { intros d z. destruct (Z.ltb_spec z d); lia. }
  destruct (ar_Enabled a) eqn:Ha.
  - specialize (Hd 4%Z size). set (z := if (size <? 4)%Z then 4%Z else size) in *. clearbody z.
    rewrite Hr by lia. rewrite <- Z.negb_odd, negb_involutive.
    destruct (Z.odd z) eqn:Ho; cbn; rewrite ?Z.add_0_r, ?Z.odd_add, ?Ho; split_and!; done || lia.
  - assert (2 ≤ if (size <? 2) then 3 else size)%Z as Hd' by (destruct (Z.ltb_spec size 2); lia).
    set (z := if (size <? 2)%Z then 3%Z else size) in *. clearbody z.
    rewrite Hr by lia. rewrite <- Z.negb_odd. cbn [fst snd]. rewrite Ha.
    destruct (Z.odd z) eqn:Ho; cbn; rewrite Z.add_0_r, ?Z.odd_add, ?Ho; split_and!; try done; try lia.
    assert (z ≠ 2)%Z by (intros ->; done). lia.
Qed.

Lemma checkSafe_ok unsafe size a conf :
  checkSafeDefaults unsafe size a conf = Ok tt → uf_ReplsetSize unsafe = false →
  (3 ≤ size)%Z ∧ Z.odd (size + (if ar_Enabled a then ar_Size a else 0)) = true ∧
  (ar_Enabled a = true → ar_Size a = 1%Z ∧ (4 ≤ size)%Z).
Proof.
  unfold checkSafeDefaults, minSafeReplicasetSizeWithArbiter. intros H Hu. rewrite Hu in H.
  apply bind_Ok in H as ([] & H & _).
  assert (∀ z, 0 ≤ z → (Z.rem z 2 =? 0) = negb (Z.odd z))%Z as Hr.
  { intros z Hz. rewrite Z.rem_mod_nonneg, Z.negb_odd by lia. by rewrite Zeven_mod. }
  destruct (ar_Enabled a); ok_inv.
  - apply Z.eqb_eq in Hok. apply negb_true_iff, Z.ltb_ge in Hok0.
    rewrite Hr in H by lia. apply negb_true_iff in H. rewrite Hok, Z.odd_add, H. split_and!; done || lia.
  - apply negb_true_iff, Z.ltb_ge in Hok. rewrite Hr, negb_involutive in H by lia.
    rewrite Z.add_0_r. split_and!; try done.
    assert (size ≠ 2)%Z by (intros ->; done). lia.
Qed.

Lemma size_accepted cr size a conf s :
  replset_size cr size a conf = Ok s → size_ok cr s.1 s.2 ∧
  (ar_Enabled s.2 = true → ar_Enabled a = true) ∧ ar_MultiAZ s.2 = ar_MultiAZ a.
Proof.
  unfold replset_size, size_ok. destruct (since cr "1.16.0").
  - destruct (live cr) eqn:Hl; intros H; ok_inv; cbn; [|by split_and!].
    split_and!; [|done..]. intros _. destruct a0. by apply (checkSafe_ok _ _ _ conf).
  - destruct (ch_UnsafeConf cr); cbn; [intros [= <-]; by split_and!|].
    destruct (live cr); intros [= <-]; [|by split_and!].
    split; [intros _ _; apply setSafeDefaults_ok|].
    unfold setSafeDefaults. destruct (ar_Enabled a) eqn:E; [destruct (negb _)|]; split; cbn; congruence.
Qed.

Lemma side_accepted cr rs what (fl : option LivenessProbeExtended → LivenessProbeExtended)
    (fr : option Probe → Probe) nv nv' :
  (∀ l, timed (fl l) ∧ CommandHas (fl l) startupDelaySecondsFlag = true) →
  (∀ p, timed (fr p) ∧ has_handler (fr p)) →
  (∃ v, rp_VolumeSpec rs = Some v ∧ volume_ok v) →
  is_Some (rp_ContainerSecurityContext rs) → is_Some (rp_PodSecurityContext rs) →
  side_SetDefaults cr rs what fl fr nv = Ok nv' → side_ok cr nv'.
Proof.
  intros Hl Hr Hv Hc Hp. unfold side_SetDefaults, side_ok.
  destruct (sd_Enabled nv) eqn:En; cbn; [|intros [= <-]; congruence].
  intros H. ok_inv. cbn [sd_VolumeSpec sd_LivenessProbe sd_ReadinessProbe sd_MultiAZ
    sd_ContainerSecurityContext sd_PodSecurityContext]. intros _. split_and!.
  - destruct (sd_VolumeSpec nv); ok_inv; [|done].
    eexists. split; [done|]. by eapply volume_accepted.
  - eexists. split; [done|]. apply Hl.
  - eexists. split; [done|]. apply Hr.
  - by destruct (sd_ContainerSecurityContext nv).
  - by destruct (sd_PodSecurityContext nv).
  - unfold reconcileOpts in Hok0. ok_inv. by apply non_empty_ne.
  - by eapply multiAZ_accepted.
Qed.

(** What the two halves of [replset_defaults] establish, and what they leave. *)
Record prepared cr (sharding : bool) rs : Prop := {
  pp_name : String.length (ch_Name cr +:+ rp_Name rs) ≤ clusterNameMaxLen;
  pp_storage : ∃ s, rp_Storage rs = Some s ∧ storage_ok sharding (rp_ClusterRole rs) s;
  pp_liveness : ∃ l, rp_LivenessProbe rs = Some l ∧ timed l ∧ is_Some (pr_Exec l);
  pp_readiness : ∃ p, rp_ReadinessProbe rs = Some p ∧ timed p ∧ has_handler p
}.
Definition same_place (rs rs' : Replset) : Prop :=
  rp_Name rs' = rp_Name rs ∧ rp_ClusterRole rs' = rp_ClusterRole rs ∧
  (ar_Enabled (rp_Arbiter rs') = true → ar_Enabled (rp_Arbiter rs) = true) ∧
  no_external rs' = no_external rs.

Lemma prepare_accepted cr sharding rs rs' :
  replset_prepare cr sharding rs = Ok rs' → prepared cr sharding rs' ∧ same_place rs rs'.
Proof.
  unfold replset_prepare. intros H. ok_inv. split; [|by split_and!]. constructor; cbn.
  - by apply Nat.leb_le.
  - eexists. split; [done|]. by eapply storage_accepted.
  - eexists. split; [done|]. apply replset_liveness_accepted.
  - eexists. split; [done|]. apply replset_readiness_accepted.
Qed.

Lemma encryption_accepted (s : StorageSpec) conf (u : unit) :
  (if bool_decide (ss_Engine s = StorageEngineInMemory) then
     encrypted ← wrap_err "failed to parse replset configuration"
                   (rs_IsEncryptionEnabled (ss_Engine s) conf);
     require (negb encrypted) (ENew "inMemory storage engine doesn't support encryption")
   else Ok tt) = Ok u →
  ss_Engine s = StorageEngineInMemory → rs_IsEncryptionEnabled (ss_Engine s) conf = Ok false.
Proof.
  intros H He. rewrite bool_decide_eq_true_2 in H by done. ok_inv. by destruct a.
Qed.
Lemma same_external l l' : mapR check_external l = Ok l' →
  match l' with [] => true | _ => false end = match l with [] => true | _ => false end.
Proof. rewrite mapR_Forall2. by destruct 1. Qed.
Lemma arbiter_accepted cr name a a' : arbiter_reconcileOpts cr name a = Ok a' →
  ar_Enabled a' = ar_Enabled a ∧ ar_Size a' = ar_Size a ∧
  (ar_Enabled a = true → multiAZ_ok cr (ar_MultiAZ a')).
Proof.
  unfold arbiter_reconcileOpts. destruct (ar_Enabled a) eqn:E; intros H; ok_inv; split_and!; try done.
  intros _. by eapply multiAZ_accepted.
Qed.

(** What non-voting and hidden members take from their replica set *)
Record lends rs : Prop := {
  le_liveness : timed (rp_liveness rs);
  le_readiness : timed (rp_readiness rs);
  le_volume : ∃ v, rp_VolumeSpec rs = Some v ∧ volume_ok v;
  le_container : is_Some (rp_ContainerSecurityContext rs);
  le_pod : is_Some (rp_PodSecurityContext rs)
}.

Lemma SetDefaults_accepted cr sharding rs rs' :
  prepared cr sharding rs → replset_SetDefaults platform cr rs = Ok rs' →
  same_place rs rs' ∧ lends rs' ∧
  (∀ nv h, side_ok cr nv → side_ok cr h → replset_ok cr sharding (with_side nv h rs')).
Proof.
  intros [Hn (s & Hs & Hso) Hl Hr] H. unfold replset_SetDefaults in H.
  apply bind_Ok in H as (volume & Hv & H). cbv zeta in H.
  apply bind_Ok in H as (dns & Hdns & H). apply bind_Ok in H as (maz & Hmaz & H).
  apply bind_Ok in H as (a & Ha & H). apply bind_Ok in H as (sized & Hz & H).
  apply bind_Ok in H as (conf & Hc & H). apply bind_Ok in H as (ext & He & H).
  rewrite Hs in H. apply bind_Ok in H as (u & Hu & H). ok_inv.
  apply size_accepted in Hz as (Hz & Hze & Hzm). apply arbiter_accepted in Ha as (Hae & _ & Ham).
  assert (volume_ok volume) as Hvo.
  { destruct (rp_VolumeSpec rs); ok_inv. by eapply volume_accepted. }
  split; [split_and!; cbn; [done..|by rewrite <- Hae; auto|by apply same_external]|]. split.
  { constructor; cbn; [unfold rp_liveness|unfold rp_readiness|by eexists
      |apply container_context_is_Some|apply pod_context_is_Some]; cbn.
    - by destruct Hl as (l & -> & Hl & _).
    - by destruct Hr as (p & -> & Hr & _). }
  intros nv h Hnv Hh. constructor; cbn in *; try done.
  - eexists. split; [done|]. split; [done|]. by eapply encryption_accepted.
  - by eexists.
  - intros Hx. rewrite Hx. apply (default_expose_typed (rp_Expose rs)).
  - intros d ->. by apply external_dns_accepted in Hdns.
  - by eapply multiAZ_accepted.
  - intros Hx. rewrite Hzm. apply Ham. rewrite <- Hae. by apply Hze.
  - by eapply external_all_accepted.
  - split; [apply container_context_is_Some|apply pod_context_is_Some].
Qed.

Lemma replset_accepted cr sharding rs rs' :
  replset_defaults platform cr sharding rs = Ok rs' → replset_ok cr sharding rs' ∧ same_place rs rs'.
Proof.
  unfold replset_defaults. intros (rs1 & H1 & (rs2 & H2 & H)%bind_Ok)%bind_Ok.
  apply prepare_accepted in H1 as [Hp Hs].
  apply (SetDefaults_accepted _ sharding) in H2 as (Hs2 & [Hl Hr Hv Hc Hpc] & Hok); [|done]. ok_inv. split.
  - apply Hok; eapply side_accepted; try eassumption; intros;
      by (apply side_liveness_accepted || apply side_readiness_accepted).
  - destruct Hs as (Hn1 & Hr1 & Ha1 & He1), Hs2 as (Hn2 & Hr2 & Ha2 & He2).
    split_and!; cbn; [congruence..|auto|]. unfold no_external in *. cbn. congruence.
Qed.

Lemma replsets_accepted cr sharding l l' :
  mapR (replset_defaults platform cr sharding) l = Ok l' →
  Forall (replset_ok cr sharding) l' ∧ Forall2 same_place l l'.
Proof.
  rewrite mapR_Forall2. induction 1 as [|x y l l' H _ [IH1 IH2]]; [done|].
  apply replset_accepted in H as [??]. by split; constructor.
Qed.

Lemma mongos_accepted cr m m' : mongos_defaults platform cr m = Ok m' → mongos_ok cr m'.
Proof.
  unfold mongos_defaults. intros H. ok_inv. constructor; cbn.
  - eexists. split; [done|]. apply mongos_liveness_accepted.
  - eexists. split; [done|]. apply mongos_readiness_accepted.
  - apply (default_expose_typed (mg_Expose m)).
  - apply multiAZ_accepted in Hok. by destruct (since cr "1.16.0") eqn:E.
Qed.

Lemma external_everywhere cfg l u :
  check_external_everywhere cfg l = Ok u → Forall (λ rs, no_external rs = no_external cfg) l.
Proof.
  induction l as [|rs l IH]; cbn; intros H; ok_inv; constructor; [|by apply IH].
  destruct (no_external rs), (no_external cfg); done.
Qed.

Lemma name_replsets_ok sharding l :
  name_replsets sharding l ≠ [] ∧
  Forall (λ rs, rp_Name rs ≠ "" ∧
    rp_ClusterRole rs = (if sharding then ClusterRoleShardSvr else "")) (name_replsets sharding l).
Proof.
  unfold name_replsets. set (l' := match l with [] => _ | _ => l end).
  assert (l' ≠ []) as Hl by (by destruct l). clearbody l'. split.
  - by destruct l'.
  - apply Forall_forall. intros rs (i & x & -> & _)%elem_of_lookup_imap. split; [|done].
    by apply non_empty_ne.
Qed.

Lemma sharding_accepted cr l s l' s' :
  sharding_defaults platform cr l s = Ok (l', s') → sharding_ok cr l' s'.
Proof.
  unfold sharding_defaults. pose proof (name_replsets_ok (sh_Enabled s) l) as [Hn Hr].
  set (l0 := name_replsets (sh_Enabled s) l) in *. clearbody l0.
  assert (∀ l', Forall2 same_place l0 l' → l' ≠ [] ∧
    Forall (λ rs, rp_Name rs ≠ "" ∧
      rp_ClusterRole rs = if sh_Enabled s then ClusterRoleShardSvr else "") l') as Hplace.
  { intros l1 H1. split; [by destruct H1|]. clear Hn. induction H1 as [|x y l1 l2 Hs _ IH]; [done|].
    inversion_clear Hr. constructor; [|by apply IH]. by destruct Hs as (-> & -> & _). }
  destruct (sh_Enabled s) eqn:Es.
  - destruct (sh_ConfigsvrReplSet s) as [cfg|], (sh_Mongos s) as [m|]; try done. intros H. ok_inv.
    apply external_everywhere in Hok0.
    apply replsets_accepted in Hok1 as [Hall Hs]. apply replset_accepted in Hok2 as [Hcfg (Hc1 & Hc2 & Hc3 & Hc4)].
    destruct (Hplace _ Hs). constructor; cbn -[no_external]; [done..|]. intros _.
    eexists _, _. split_and!; [done|done|done|by eapply mongos_accepted|done|done| |].
    + apply not_true_iff_false. intros Hx. by apply Hc3 in Hx.
    + rewrite Hc4. clear -Hs Hok0. induction Hs as [|x y l1 l2 (_ & _ & _ & He) _ IH]; [done|].
      inversion_clear Hok0. constructor; [by rewrite He|by apply IH].
  - intros H. ok_inv. apply replsets_accepted in Hok as [Hall Hs].
    destruct (Hplace _ Hs), s as [en ? ?]. cbn in *. subst en. by constructor.
Qed.

(** ** The head, backups, and the whole *)
Lemma app_suffix_ne a b : b ≠ "" → a +:+ b ≠ "".
Proof. by destruct a. Qed.
Lemma secrets_set name s : sec_Users (secrets_defaults name s) ≠ "" ∧
  sec_SSL (secrets_defaults name s) ≠ "" ∧ sec_SSLInternal (secrets_defaults name s) ≠ "" ∧
  sec_EncryptionKey (secrets_defaults name s) ≠ "".
Proof. split_and!; apply non_empty_ne; [done|by apply app_suffix_ne..]. Qed.

Lemma vault_accepted v v' : vault_defaults v = Ok (Some v') →
  has_prefix "https://" (va_EndpointURL v') = true → va_TLSSecret v' ≠ "" ∧ va_Role v' ≠ "".
Proof.
  unfold vault_defaults. destruct v as [v|]; [|done].
  case_bool_decide as E; intros H Hp; ok_inv; [by rewrite E in Hp|].
  cbn [va_EndpointURL va_TLSSecret va_Role] in Hp |- *. rewrite Hp in Hok. split; [|by apply non_empty_ne].
  by apply negb_true_iff, bool_decide_eq_false in Hok.
Qed.

Lemma head_accepted cr cr' : head_defaults cr = Ok cr' →
  ch_Image cr' ≠ "" ∧
  (∃ s, ch_Secrets cr' = Some s ∧ sec_Users s ≠ "" ∧ sec_SSL s ≠ "" ∧
    sec_SSLInternal s ≠ "" ∧ sec_EncryptionKey s ≠ "") ∧
  (∀ v, ch_Vault cr' = Some v → has_prefix "https://" (va_EndpointURL v) = true →
    va_TLSSecret v ≠ "" ∧ va_Role v ≠ "") ∧
  (∃ t, ch_TLS cr' = Some t ∧ tls_Mode t ≠ "" ∧ is_Some (tls_AllowInvalidCertificates t) ∧
    tls_CertValidityDuration t ≠ 0%Z ∧ (tls_Mode t = TLSModeDisabled → uf_TLS (ch_Unsafe cr') = true)) ∧
  ch_Unmanaged cr' = ch_Unmanaged cr.
Proof.
  unfold head_defaults. intros H. ok_inv.
  apply negb_true_iff, bool_decide_eq_false in Hok. cbn [ch_Image ch_Secrets ch_Vault ch_TLS ch_Unsafe ch_Unmanaged].
  split_and!; [done| | | |done].
  - eexists. split; [done|]. apply secrets_set.
  - intros v ->. by eapply vault_accepted.
  - eexists. split; [done|]. unfold head_TLSEnabled in Hok2; cbn [ch_TLS ch_Unsafe] in Hok2.
    assert (tls_Mode (tls_defaults (ch_TLS cr)) ≠ "") by (by apply non_empty_ne).
    assert (tls_CertValidityDuration (tls_defaults (ch_TLS cr)) ≠ 0%Z) by (by apply non_zero_ne).
    destruct (ch_UnsafeConf cr); cbn [with_tls_Mode tls_Mode tls_AllowInvalidCertificates
      tls_CertValidityDuration]; split_and!; try done.
    intros Hd. rewrite Hd, bool_decide_eq_true_2 in Hok2 by done. done.
Qed.

Lemma tasks_accepted i l l' : tasks_defaults i l = Ok l' →
  Forall (λ t, task_Name t ≠ "" ∧ task_CompressionType t ≠ "") l'.
Proof.
  revert i l'. induction l as [|t l IH]; intros i l'; cbn; intros H; ok_inv; constructor; [|by eapply IH].
  split; [by apply negb_true_iff, bool_decide_eq_false in Hok|by apply non_empty_ne].
Qed.

Lemma storage_region_main cr s : stg_Main (storage_region cr s) = stg_Main s.
Proof. unfold storage_region. by destruct (_ && _). Qed.
Lemma storage_region_encryptions cr s : two_encryptions (storage_region cr s) = two_encryptions s.
Proof. unfold storage_region. by destruct (_ && _). Qed.
Lemma main_storages_region cr m : main_storages (storage_region cr <$> m) = main_storages m.
Proof.
  unfold main_storages. rewrite map_filter_fmap, map_size_fmap. f_equal.
  apply map_filter_ext. intros i s _. cbn. by rewrite storage_region_main.
Qed.

Lemma pitr_accepted cr b : pitr_Enabled (pitr_defaults cr b) = true →
  b_Enabled b = true ∧ zero_number (pitr_OplogSpanMin (pitr_defaults cr b)) = false.
Proof.
  unfold pitr_defaults. cbn. intros H. rewrite H. cbn. split; [|by apply number_set].
  by apply andb_true_iff in H as [[??]%andb_true_iff _].
Qed.

Lemma backup_accepted cr b b' : backup_defaults platform cr b = Ok b' → backup_ok cr b'.
Proof.
  unfold backup_defaults. destruct (b_Enabled b) eqn:E; intros H; ok_inv.
  - constructor; cbn -[pitr_defaults]; [intros _..|].
    + by eapply tasks_accepted.
    + intros H20 Hs. rewrite map_size_fmap in Hs. rewrite main_storages_region.
      unfold check_main_storage in Hok0. rewrite H20 in Hok0. apply Nat.ltb_lt in Hs. rewrite Hs in Hok0.
      cbn [andb] in Hok0. ok_inv.
      destruct (main_storages (b_Storages b)) as [|[|k]]; done.
    + intros n s. rewrite lookup_fmap. intros (s0 & Hs & ->)%fmap_Some. rewrite storage_region_encryptions.
      rewrite forallb_forall in Hok1. apply negb_true_iff, (Hok1 (n, s0)), list_elem_of_In.
      by apply elem_of_map_to_list.
    + apply pitr_accepted.
  - constructor; cbn; [congruence..|]. by rewrite E.
Qed.
End accepted.

(** C32: A cluster that CheckNSetDefaults accepts is complete: an image,
    secrets, an update strategy, TLS with a mode (disabled only under the
    unsafe TLS flag), and for every replica set timed probes with a handler,
    storage whose claim has a size, affinity and a disruption budget, external
    nodes with 0 or 1 vote, a valid priority and a port. At version 1.16 or
    later, without the unsafe flag for grace periods, every group of pods has
    30 seconds or more to stop. In a cluster that is neither paused nor being
    deleted, without the unsafe flag for sizes, a replica set has three data
    members or more, an odd number of these and arbiters, and one arbiter at
    most, from four members on. A sharded cluster has config servers without
    arbiters, and mongos. At version 1.20 or later, with backups enabled, one
    of several storages is the main one. *)
Theorem CheckNSetDefaults_accepted `{V : Versions, Y : Yaml, N : DomainNames, A : McsAvailable, O : MapOrder}
    (platform : Platform) (cr cr' : Cluster) :
  CheckNSetDefaults platform cr = Ok cr' → cluster_ok cr'.
Proof.
  unfold CheckNSetDefaults. intros H. apply bind_Ok in H as (l & _ & H).
  apply bind_Ok in H as (head & Hh & H). apply bind_Ok in H as ([l' sh] & Hs & H).
  apply bind_Ok in H as (b & Hb & H). ok_inv.
  apply head_accepted in Hh as (? & ? & ? & ? & Hu). apply sharding_accepted in Hs.
  apply backup_accepted in Hb. constructor; cbn; try done.
  - by exists l'.
  - split; [by apply non_empty_ne|]. intros Hm Hx. rewrite Hu in Hm. rewrite Hm, Hx in Hok. done.
  - intros Hm. rewrite Hm in Hok0. by destruct mcs_IsAvailable.
  - split_and!; by apply non_empty_ne.
Qed.
