(* ===== verification/DefaultsIdem.v ===== *)
(** Applying the defaults again (psmdb_defaults.go): the controller calls
    CheckNSetDefaults several times on one cluster (handleShardingToggle,
    reconcilePause), and nothing it has set may change under it. *)
From S2P Require Import Prelude ReplsetModels Api Storage BackupApi InPlace Defaults DefaultsFacts.

(** What comes back from the text a value was written to: strings, truth values,
    integers and maps as they were; another value may come back as another, or as
    an integer, as the float 1.0, which is written as 1. *)
Inductive alike : yval → yval → Prop :=
| alike_str s : alike (YStr s) (YStr s)
| alike_bool b : alike (YBool b) (YBool b)
| alike_int z : alike (YInt z) (YInt z)
| alike_map m m' : (∀ k, option_Forall2 alike (m !! k) (m' !! k)) → alike (YMap m) (YMap m')
| alike_other v v' : alike (YOther v) (YOther v')
| alike_number v z : alike (YOther v) (YInt z).
(** The text of a map can be read, and what is read is written as the same text. *)
Class YamlLaws (Y : Yaml) := {
  yaml_marshal_back m s : yaml_marshal m = Some s →
    ∃ m', yaml_map s = Some m' ∧ yaml_marshal m' = Some s ∧ alike (YMap m) (YMap m')
}.

Lemma alike_at m m' k : alike (YMap m) (YMap m') → option_Forall2 alike (m !! k) (m' !! k).
Proof. by inversion 1. Qed.
Lemma alike_none m m' k : alike (YMap m) (YMap m') → m !! k = None → m' !! k = None.
Proof. intros H%(alike_at _ _ k) Hk. rewrite Hk in H. by inversion H. Qed.
Lemma alike_some m m' k x :
  alike (YMap m) (YMap m') → m !! k = Some x → ∃ y, m' !! k = Some y ∧ alike x y.
Proof. intros H%(alike_at _ _ k) Hk. rewrite Hk in H. inversion H as [? y Hxy E1 E2|]; subst. by exists y. Qed.

Section configuration.
Context `{YL : YamlLaws}.

Lemma marshalled_security m sec sec' s :
  m !! "security" = Some (YMap sec) → sec !! "vault" = None →
  sec' = match sec !! "enableEncryption" with
         | Some _ => <["encryptionKeyFile" := YStr (MongodRESTencryptDir +:+ "/" +:+ EncryptionKeyName)]> sec
         | None => sec
         end →
  yaml_marshal (<["security" := YMap sec']> m) = Some s → setEncryptionDefaults s = Ok s.
Proof.
  intros Hm Hv Hs Hy. destruct (yaml_marshal_back _ _ Hy) as (m1 & E1 & E2 & Ha).
  destruct (alike_some _ _ "security" (YMap sec') Ha) as (y & Ey & Hy1); [by rewrite lookup_insert_eq|].
  inversion Hy1 as [| | |? sec1 Hsec| |]; subst y. unfold setEncryptionDefaults. rewrite E1, Ey.
  assert (alike (YMap sec') (YMap sec1)) as Hal by by constructor. clear Hsec Hy1.
  rewrite (alike_none _ _ "vault" Hal).
  2:{ rewrite Hs. destruct (sec !! "enableEncryption"); [|done]. by rewrite lookup_insert_ne. }
  assert (match sec1 !! "enableEncryption" with
          | Some _ => <["encryptionKeyFile" := YStr (MongodRESTencryptDir +:+ "/" +:+ EncryptionKeyName)]> sec1
          | None => sec1
          end = sec1) as ->.
  { destruct (sec !! "enableEncryption") as [x|] eqn:Ex; rewrite Hs in Hal.
    - destruct (sec1 !! "enableEncryption"); [|done]. apply insert_id.
      destruct (alike_some _ _ "encryptionKeyFile" _ Hal (lookup_insert_eq _ _ _)) as (z & -> & Hz).
      by inversion Hz.
    - by rewrite (alike_none _ _ _ Hal Ex). }
  by rewrite (insert_id _ _ _ Ey), E2.
Qed.

Lemma alike_TLSMode c c' m m' :
  yaml_map c = Some m → yaml_map c' = Some m' → option_Forall2 alike (m !! "net") (m' !! "net") →
  GetTLSMode c' = GetTLSMode c.
Proof.
  intros E E' Hn. unfold GetTLSMode, GetOptions. rewrite E, E'.
  destruct Hn as [x y Hxy|]; [|done]. destruct Hxy as [| | |a b Hab| |]; try done.
  destruct (Hab "tls") as [x y Hxy|]; [|done]. destruct Hxy as [| | |a' b' Hab'| |]; try done.
  destruct (Hab' "mode") as [x y Hxy|]; [|done]. by destruct Hxy.
Qed.

Lemma setEncryptionDefaults_again c c' : setEncryptionDefaults c = Ok c' →
  setEncryptionDefaults c' = Ok c' ∧ GetTLSMode c' = GetTLSMode c.
Proof.
  intros H. pose proof H as H0. unfold setEncryptionDefaults in H.
  destruct (yaml_map c) as [m|] eqn:Em; [|done].
  destruct (m !! "security") as [[| | |sec|]|] eqn:Es; try done; [|by injection H as <-].
  destruct (sec !! "vault") eqn:Ev; [by injection H as <-|].
  set (sec' := match sec !! "enableEncryption" with Some _ => _ | None => _ end) in H.
  destruct (yaml_marshal _) as [s|] eqn:Ey; [|done]. injection H as ->. split.
  - by eapply marshalled_security.
  - destruct (yaml_marshal_back _ _ Ey) as (m1 & E1 & _ & Ha). eapply alike_TLSMode; [exact Em|exact E1|].
    apply (alike_at _ _ "net") in Ha. by rewrite lookup_insert_ne in Ha.
Qed.
Lemma conf_SetDefaults_again c c' : conf_SetDefaults c = Ok c' →
  conf_SetDefaults c' = Ok c' ∧ GetTLSMode c' = GetTLSMode c.
Proof.
  unfold conf_SetDefaults. intros H. ok_inv. apply setEncryptionDefaults_again in H as [-> ?]. done.
Qed.
End configuration.

Section again.
Context `{V : Versions, YL : YamlLaws, N : DomainNames, A : McsAvailable, O : MapOrder}.
Variable platform : Platform.
Implicit Types (cr : ClusterHead) (rs : Replset).

Lemma number_set_idem d r : zero_number d = false →
  (if zero_number (if zero_number r then d else r) then d else if zero_number r then d else r) =
  (if zero_number r then d else r).
Proof. intros Hd. by rewrite number_set. Qed.

Lemma volume_again v v' : volume_reconcileOpts v = Ok v' → volume_reconcileOpts v' = Ok v'.
Proof.
  intros H. pose proof (volume_accepted _ _ H) as Hok. clear H. unfold volume_ok in Hok.
  unfold volume_reconcileOpts. destruct v' as [e h [c|]]; cbn in *.
  - destruct Hok as [[z Hz] Hm]. rewrite Hz. do 3 f_equal. destruct c as [r [|]]; done.
  - by rewrite Hok.
Qed.

Lemma external_dns_again cr what d d' :
  external_dns cr what d = Ok d' → external_dns cr what d' = Ok d'.
Proof.
  unfold external_dns. destruct d as [d|]; intros H; ok_inv; [|done].
  cbn [dns_Domain dns_Prefix]. rewrite Hok, Hok0; cbn; by rewrite non_empty_idem.
Qed.
Lemma merge_again d m : merge_deprecated d (merge_deprecated d m) = merge_deprecated d m.
Proof.
  unfold merge_deprecated. destruct (_ <? _); [|done]. cbn.
  apply map_eq. intros i. rewrite !lookup_union. by destruct (m !! i), (d !! i).
Qed.
Lemma default_expose_again e d :
  default_expose (with_ExternalDNS d (default_expose e)) = with_ExternalDNS d (default_expose e).
Proof.
  unfold default_expose, with_ExternalDNS; cbn. rewrite !merge_again. f_equal.
  unfold non_empty. repeat case_bool_decide; congruence.
Qed.

Definition plain_affinity (m : MultiAZ) : Prop :=
  ∀ a, maz_Affinity m = Some a → pa_Advanced a = None.

Lemma affinity_again cr a a' :
  reconcileAffinityOpts cr a = Some a' → pa_Advanced a' = None → reconcileAffinityOpts cr (Some a') = Some a'.
Proof.
  assert (defaultAffinityTopologyKey ∈ (if since cr "1.16.0" then affinityValidTopologyKeys
    else affinityValidTopologyKeysPre116)) as Hd.
  { destruct (since cr "1.16.0"); apply (bool_decide_eq_true_1 _); reflexivity. }
  unfold reconcileAffinityOpts.
  destruct a as [[[k|] [adv|]]|]; cbn; try case_bool_decide as Hk; intros [= <-]; cbn; try done;
    intros _; try (by rewrite bool_decide_eq_true_2 by done).
Qed.
Lemma grace_again cr g g' : reconcile_grace cr g = Ok g' → reconcile_grace cr g' = Ok g'.
Proof.
  unfold reconcile_grace. intros H. apply bind_Ok in H as (g1 & H1 & H2).
  assert (g' = g1) as ->.
  { destruct (since cr "1.16.0"); [|by injection H2]. destruct g1; ok_inv; done. }
  assert ((if since cr "1.15.0" then Some (default 60%Z g1) else g1) = g1) as ->.
  { destruct (since cr "1.15.0"); [|done]. destruct (_ && _); [|by injection H1 as <-].
    by injection H1 as <-. }
  destruct (_ && _); [|exact H2]. destruct g1 as [s|].
  - enough ((s <? 30) = false)%Z as -> by exact H2. cbv zeta in H1.
    destruct (if since cr "1.15.0" then _ else _) as [s0|]; [|done]. injection H1 as <-.
    destruct (Z.ltb_spec s0 30); apply Z.ltb_ge; lia.
  - destruct (if since cr "1.15.0" then _ else _) as [s0|]; done.
Qed.
Lemma constraints_again cr l :
  reconcileTopologySpreadConstraints cr (reconcileTopologySpreadConstraints cr l) =
  reconcileTopologySpreadConstraints cr l.
Proof.
  unfold reconcileTopologySpreadConstraints. destruct (since cr "1.15.0"); [|done].
  rewrite <- list_fmap_compose. apply list_fmap_ext. intros _ [] _.
  unfold reconcile_constraint; cbn. by rewrite non_zero_idem, !non_empty_idem.
Qed.
Lemma reconcileOpts_again cr m m' :
  reconcileOpts cr m = Ok m' → plain_affinity m' → reconcileOpts cr m' = Ok m'.
Proof.
  unfold reconcileOpts, plain_affinity. intros (g & Hg%grace_again & [= <-])%bind_Ok Hp. cbn in *.
  rewrite (bind_step _ _ _ Hg), constraints_again. do 2 f_equal; [|by destruct (maz_PodDisruptionBudget m)].
  destruct (reconcileAffinityOpts cr (maz_Affinity m)) as [a|] eqn:E.
  - by apply (affinity_again cr (maz_Affinity m)); [|apply Hp].
  - unfold reconcileAffinityOpts in E. destruct (maz_Affinity m) as [[[] []]|]; try done.
    cbn in E. by case_bool_decide.
Qed.
Lemma reconcileOpts_account cr m m' : reconcileOpts cr m = Ok m' →
  maz_ServiceAccountName m' = maz_ServiceAccountName m.
Proof. unfold reconcileOpts. intros H. by ok_inv. Qed.
Lemma with_account_fixed cr m s : reconcileOpts cr m = Ok m →
  reconcileOpts cr (with_ServiceAccountName s m) = Ok (with_ServiceAccountName s m).
Proof.
  unfold reconcileOpts. cbn. intros (g & -> & H)%bind_Ok. cbn. destruct m; cbn in *.
  injection H. intros. unfold with_ServiceAccountName; cbn. congruence.
Qed.
Lemma with_account_same m s : maz_ServiceAccountName m = s → with_ServiceAccountName s m = m.
Proof. intros <-. by destruct m. Qed.

(** ** Storage and probes *)
Lemma wired_tiger_again w : wired_tiger_defaults (Some (wired_tiger_defaults w)) = wired_tiger_defaults w.
Proof. unfold wired_tiger_defaults; cbn. by rewrite number_set_idem. Qed.
Lemma in_memory_again m : in_memory_defaults (Some (in_memory_defaults m)) = in_memory_defaults m.
Proof. unfold in_memory_defaults; cbn. by rewrite number_set_idem. Qed.
Lemma storage_again cr sharding role s s' :
  storage_defaults cr sharding role s = Ok s' → storage_defaults cr sharding role (Some s') = Ok s'.
Proof.
  unfold storage_defaults. intros H. ok_inv. cbn [default from_option ss_Engine ss_InMemory ss_WiredTiger id].
  rewrite non_empty_idem. rewrite Hok, Hok0. cbn [require mbind result_bind].
  set (s0 := default _ s). set (e := non_empty _ _).
  destruct (bool_decide (e = StorageEngineInMemory)), (bool_decide (e = StorageEngineWiredTiger));
    by rewrite ?in_memory_again, ?wired_tiger_again.
Qed.

Lemma liveness_with_again exec s i t p f l :
  liveness_with exec s i t p f (liveness_with exec s i t p f l) = liveness_with exec s i t p f l.
Proof. unfold liveness_with; cbn. by rewrite !at_least_1_idem. Qed.
Lemma replset_liveness_again cr l : replset_liveness cr (Some (replset_liveness cr l)) = replset_liveness cr l.
Proof.
  unfold replset_liveness; cbn [default from_option id lp_StartupDelaySeconds liveness_with lp_Probe pr_Exec].
  rewrite non_zero_idem. apply liveness_with_again.
Qed.
Lemma mongos_liveness_again cr l : mongos_liveness cr (Some (mongos_liveness cr l)) = mongos_liveness cr l.
Proof.
  unfold mongos_liveness; cbn [default from_option id lp_StartupDelaySeconds liveness_with lp_Probe pr_Exec].
  rewrite at_least_1_idem. apply liveness_with_again.
Qed.
Lemma mongos_readiness_again cr p : mongos_readiness cr (Some (mongos_readiness cr p)) = mongos_readiness cr p.
Proof.
  unfold mongos_readiness; cbn. rewrite !at_least_1_idem. f_equal.
  set (z := pr_SuccessThreshold _). destruct (since cr "1.11.0"); cbn.
  - destruct (Z.eqb_spec z 0); [done|]. destruct (Z.ltb_spec z 0); [done|].
    destruct (Z.eqb_spec z 0); [done|]. by destruct (Z.ltb_spec z 0); [lia|].
  - destruct (Z.ltb_spec z 0); [done|]. destruct (Z.ltb_spec z 0); [lia|done].
Qed.
(** Once there is a handler it stays, whatever the port. *)
Lemma handler_again cr b port p q port' exec tcp :
  readiness_handler cr b port p = (exec, tcp) → pr_Exec q = exec → pr_TCPSocket q = tcp →
  readiness_handler cr b port' q = (exec, tcp).
Proof.
  intros H He Ht. pose proof (readiness_has_handler cr b port p) as Hs. rewrite H in Hs.
  unfold readiness_handler. rewrite He, Ht. destruct tcp, exec; try done. by destruct Hs as [[]|[]].
Qed.
Lemma replset_readiness_again cr name conf conf' p :
  replset_readiness cr name conf' (Some (replset_readiness cr name conf p)) = replset_readiness cr name conf p.
Proof.
  unfold replset_readiness at 1 3. cbn [default from_option id].
  destruct (readiness_handler cr true (conf_port conf) (default zeroProbe p)) as [exec tcp] eqn:E.
  rewrite (handler_again cr true _ _ (replset_readiness cr name conf p) (conf_port conf') _ _ E);
    unfold replset_readiness; rewrite ?E; cbn; [|done..]. by rewrite !at_least_1_idem.
Qed.
Lemma side_readiness_again cr b port port' of_rs p :
  side_readiness cr b port' of_rs (Some (side_readiness cr b port of_rs p)) = side_readiness cr b port of_rs p.
Proof.
  unfold side_readiness at 1 3. cbn [default from_option id].
  destruct (readiness_handler cr b port (default zeroProbe p)) as [exec tcp] eqn:E.
  rewrite (handler_again cr b _ _ (side_readiness cr b port of_rs p) port' _ _ E);
    unfold side_readiness; rewrite ?E; cbn; [|done..]. by rewrite !at_least_1_idem.
Qed.
Lemma startup_flag_again d cmd :
  startup_flag d true (startup_flag d true cmd) = startup_flag d true cmd.
Proof.
  unfold startup_flag at 1. by rewrite bool_decide_eq_true_2 by apply startup_flag_has.
Qed.
Lemma side_liveness_again (of_rs : LivenessProbeExtended) cmd l :
  side_liveness of_rs cmd (Some (side_liveness of_rs cmd l)) = side_liveness of_rs cmd l.
Proof.
  unfold side_liveness; cbn [default from_option id lp_StartupDelaySeconds liveness_with lp_Probe pr_Exec].
  rewrite at_least_1_idem, startup_flag_again. apply liveness_with_again.
Qed.

(** ** Sizes, arbiters, external nodes *)
Lemma with_ar_same a : with_ar_Size (ar_Enabled a) (ar_Size a) a = a.
Proof. by destruct a. Qed.
Lemma setSafeDefaults_again size a :
  setSafeDefaults (setSafeDefaults size a).1 (setSafeDefaults size a).2 = setSafeDefaults size a.
Proof.
  pose proof (setSafeDefaults_ok size a) as (H3 & Ho & He). set (s := setSafeDefaults size a) in *.
  assert (∀ z, 0 ≤ z → (Z.rem z 2 =? 0) = negb (Z.odd z))%Z as Hr.
  { intros z Hz. rewrite Z.rem_mod_nonneg, Z.negb_odd by lia. by rewrite Zeven_mod. }
  clearbody s. destruct s as [z [en asz maz]]. cbn in *. unfold setSafeDefaults; cbn.
  unfold minSafeReplicasetSizeWithArbiter, defaultMongodSize.
  destruct en.
  - destruct (He eq_refl) as [-> H4]. destruct (Z.ltb_spec z 4); [lia|].
    rewrite Z.odd_add in Ho. cbn in Ho. rewrite Hr by lia. destruct (Z.odd z); done.
  - destruct (Z.ltb_spec z 2); [lia|]. rewrite Z.add_0_r in Ho. by rewrite Hr, Ho by lia.
Qed.
Lemma size_again cr size a conf conf' s : GetTLSMode conf' = GetTLSMode conf →
  replset_size cr size a conf = Ok s → replset_size cr s.1 s.2 conf' = Ok s.
Proof.
  intros Ht. unfold replset_size. destruct (since cr "1.16.0").
  - destruct (live cr); intros H; ok_inv; [|done]. cbn.
    enough (checkSafeDefaults (ch_Unsafe cr) size a conf' = Ok a0) as -> by done.
    unfold checkSafeDefaults in *. by rewrite Ht.
  - destruct (_ && _); intros [= <-]; [|done]. by rewrite setSafeDefaults_again.
Qed.
Lemma arbiter_again cr name a a' : arbiter_reconcileOpts cr name a = Ok a' →
  plain_affinity (ar_MultiAZ a') → arbiter_reconcileOpts cr name a' = Ok a'.
Proof.
  unfold arbiter_reconcileOpts. destruct (ar_Enabled a) eqn:E; intros H Hp; ok_inv; cbn in *.
  - apply reconcileOpts_again in Hok as ->; done.
  - by rewrite E.
Qed.
Lemma arbiter_fixed cr name a b : arbiter_reconcileOpts cr name a = Ok a →
  (ar_Enabled b = true → ar_Enabled a = true) → ar_MultiAZ b = ar_MultiAZ a →
  arbiter_reconcileOpts cr name b = Ok b.
Proof.
  unfold arbiter_reconcileOpts. intros H He Hm. destruct (ar_Enabled b) eqn:Eb; [|done].
  rewrite He in H by done. rewrite Hm. apply bind_Ok in H as (m & H & [= Ha]). rewrite H. cbn.
  rewrite <- Ha in Hm. cbn in Hm. destruct b; cbn in *. congruence.
Qed.
Lemma external_again e e' : check_external e = Ok e' → check_external e' = Ok e'.
Proof.
  unfold check_external. intros H. ok_inv. cbn. rewrite Hok, Hok0, Hok1. cbn. by rewrite non_zero_idem.
Qed.
Lemma mapR_again {X} (f : X → result X) l l' :
  (∀ x y, x ∈ l → y ∈ l' → f x = Ok y → f y = Ok y) → mapR f l = Ok l' → mapR f l' = Ok l'.
Proof.
  intros Hf. rewrite !mapR_Forall2. induction 1 as [|x y l l' H _ IH]; constructor.
  - apply (Hf x); [by left|by left|done].
  - apply IH. intros x' y' ??. apply Hf; by right.
Qed.

(** ** Replica sets *)
Lemma account_fixed m : maz_ServiceAccountName m ≠ "" →
  with_ServiceAccountName (non_empty WorkloadSA (maz_ServiceAccountName m)) m = m.
Proof. intros. apply with_account_same. unfold non_empty. by rewrite bool_decide_eq_false_2. Qed.

Lemma side_again cr rs what (fl : option LivenessProbeExtended → LivenessProbeExtended)
    (fr : option Probe → Probe) nv nv' :
  (∀ l, fl (Some (fl l)) = fl l) → (∀ p, fr (Some (fr p)) = fr p) →
  (∀ v, rp_VolumeSpec rs = Some v → volume_reconcileOpts v = Ok v) →
  side_SetDefaults cr rs what fl fr nv = Ok nv' → plain_affinity (sd_MultiAZ nv') →
  side_SetDefaults cr rs what fl fr nv' = Ok nv'.
Proof.
  intros Hl Hr Hv H Hp. unfold side_SetDefaults in *.
  destruct (sd_Enabled nv) eqn:En; cbn in H; [|injection H as <-; by rewrite En].
  apply bind_Ok in H as (v & Hvol & H). apply bind_Ok in H as (m & Hm & H).
  apply bind_Ok in H as (conf & Hc & H). ok_inv.
  pose proof (reconcileOpts_account _ _ _ Hm) as Ha. cbn in Ha, Hp |- *.
  rewrite Hl, Hr.
  assert (match v with
          | Some v0 => v1 ← wrap_err ("reconcile volumes for replset " +:+ rp_Name rs +:+ " nonVoting")
                              (volume_reconcileOpts v0); Ok (Some v1)
          | None => Ok (rp_VolumeSpec rs)
          end = Ok v) as ->.
  { destruct (sd_VolumeSpec nv) as [v0|]; ok_inv; [by rewrite (volume_again _ _ Hok)|].
    destruct (rp_VolumeSpec rs) as [v1|]; [|done]. by rewrite (Hv v1). }
  cbn. rewrite account_fixed by (rewrite Ha; by apply non_empty_ne).
  apply reconcileOpts_again in Hm as ->; [|done]. cbn.
  apply conf_SetDefaults_again in Hc as [-> _]. cbn.
  by destruct (sd_PodSecurityContext nv), (sd_ContainerSecurityContext nv),
    (rp_PodSecurityContext rs), (rp_ContainerSecurityContext rs).
Qed.

Lemma prepare_fixed cr sharding rs s :
  String.length (ch_Name cr +:+ rp_Name rs) ≤ clusterNameMaxLen →
  rp_Storage rs = Some s → storage_defaults cr sharding (rp_ClusterRole rs) (Some s) = Ok s →
  rp_ReadinessProbe rs =
    Some (replset_readiness cr (rp_Name rs) (rp_Configuration rs) (rp_ReadinessProbe rs)) →
  rp_LivenessProbe rs = Some (replset_liveness cr (rp_LivenessProbe rs)) →
  (since cr "1.6.0" = true → maz_ServiceAccountName (rp_MultiAZ rs) ≠ "") →
  replset_prepare cr sharding rs = Ok rs.
Proof.
  intros Hn%Nat.leb_le Hs Hsd Hr Hl Ha. unfold replset_prepare. rewrite Hn, Hs, Hsd. cbn.
  rewrite <- Hr, <- Hl, <- Hs.
  assert ((if since cr "1.6.0" then with_ServiceAccountName
      (non_empty WorkloadSA (maz_ServiceAccountName (rp_MultiAZ rs))) (rp_MultiAZ rs)
    else rp_MultiAZ rs) = rp_MultiAZ rs) as ->.
  { destruct (since cr "1.6.0"); [|done]. by apply account_fixed, Ha. }
  by destruct rs.
Qed.

(** What the first half leaves ready for the second run *)
Lemma prepare_again cr sharding rs rs1 rs' : replset_prepare cr sharding rs = Ok rs1 →
  rp_Name rs' = rp_Name rs1 → rp_ClusterRole rs' = rp_ClusterRole rs1 → rp_Storage rs' = rp_Storage rs1 →
  rp_ReadinessProbe rs' = rp_ReadinessProbe rs1 → rp_LivenessProbe rs' = rp_LivenessProbe rs1 →
  maz_ServiceAccountName (rp_MultiAZ rs') = maz_ServiceAccountName (rp_MultiAZ rs1) →
  replset_prepare cr sharding rs' = Ok rs'.
Proof.
  intros H Hn Hc Hs Hr Hl Ha. unfold replset_prepare in H. ok_inv. cbn in *.
  eapply prepare_fixed.
  - rewrite Hn. by apply Nat.leb_le.
  - exact Hs.
  - rewrite Hc. by eapply storage_again.
  - rewrite Hr. by rewrite Hn, replset_readiness_again.
  - rewrite Hl. by rewrite replset_liveness_again.
  - intros H6. rewrite Ha, H6. by apply non_empty_ne.
Qed.

Lemma SetDefaults_again cr rs rs' nv h :
  replset_SetDefaults platform cr rs = Ok rs' →
  plain_affinity (rp_MultiAZ rs') → plain_affinity (ar_MultiAZ (rp_Arbiter rs')) →
  replset_SetDefaults platform cr (with_side nv h rs') = Ok (with_side nv h rs').
Proof.
  intros H Hp Hpa. unfold replset_SetDefaults in H.
  apply bind_Ok in H as (volume & Hv & H). cbv zeta in H.
  apply bind_Ok in H as (dns & Hdns & H). apply bind_Ok in H as (maz & Hmaz & H).
  apply bind_Ok in H as (a & Ha & H). apply bind_Ok in H as (sized & Hz & H).
  apply bind_Ok in H as (conf & Hc & H). apply bind_Ok in H as (ext & He & H).
  apply bind_Ok in H as (u & Hu & H). ok_inv.
  destruct (rp_VolumeSpec rs) as [v0|]; [|done]. ok_inv. apply volume_again in Hv.
  apply conf_SetDefaults_again in Hc as [Hc Ht].
  pose proof (size_accepted _ _ _ _ _ Hz) as (_ & Hze & Hzm). cbn in Hp, Hpa. rewrite Hzm in Hpa.
  apply arbiter_again in Ha; [|done]. apply (size_again _ _ _ _ conf) in Hz; [|done].
  apply reconcileOpts_again in Hmaz; [|done].
  apply (mapR_again check_external) in He; [|intros; by eapply external_again].
  apply (arbiter_fixed cr _ a sized.2) in Ha; [|done..]. apply external_dns_again in Hdns.
  set (e := if rp_ExposeEnabled rs then default_expose (rp_Expose rs) else rp_Expose rs) in *.
  assert ((if rp_ExposeEnabled rs then default_expose (with_ExternalDNS dns e) else with_ExternalDNS dns e)
    = with_ExternalDNS dns e) as He2.
  { subst e. destruct (rp_ExposeEnabled rs); [apply default_expose_again|done]. }
  unfold replset_SetDefaults; cbn [with_side rp_Name rp_Size rp_ClusterRole rp_Arbiter rp_ExposeEnabled
    rp_Expose rp_VolumeSpec rp_ReadinessProbe rp_LivenessProbe rp_PodSecurityContext
    rp_ContainerSecurityContext rp_Storage rp_Configuration rp_ExternalNodes rp_MultiAZ]. cbv zeta.
  rewrite Hv, He2. cbn [wrap_err mbind result_bind]. cbn [ex_ExternalDNS with_ExternalDNS].
  rewrite Hdns, Hmaz. cbn [wrap_err mbind result_bind]. rewrite Ha. cbn [wrap_err mbind result_bind].
  rewrite Hz, Hc. cbn [wrap_err mbind result_bind]. rewrite He. cbn [wrap_err mbind result_bind].
  rewrite Hu. unfold with_side; cbn.
  by destruct (rp_PodSecurityContext rs), (rp_ContainerSecurityContext rs).
Qed.

(** No pod has an affinity of its own. *)
Record plain_replset rs : Prop := {
  pl_pods : plain_affinity (rp_MultiAZ rs);
  pl_arbiter : plain_affinity (ar_MultiAZ (rp_Arbiter rs));
  pl_nonVoting : plain_affinity (sd_MultiAZ (rp_NonVoting rs));
  pl_hidden : plain_affinity (sd_MultiAZ (rp_Hidden rs))
}.

Lemma replset_again cr sharding rs rs' :
  replset_defaults platform cr sharding rs = Ok rs' → plain_replset rs' →
  replset_defaults platform cr sharding rs' = Ok rs'.
Proof.
  intros (rs1 & H1 & (rs2 & H2 & (nv & Hnv & (h & Hh & [= <-])%bind_Ok)%bind_Ok)%bind_Ok)%bind_Ok [Hp Hpa Hpn Hph].
  cbn in Hp, Hpa, Hpn, Hph. apply wrap_Ok in Hnv, Hh.
  pose proof (SetDefaults_again _ _ _ nv h H2 Hp Hpa) as Hset.
  assert (∀ v, rp_VolumeSpec rs2 = Some v → volume_reconcileOpts v = Ok v) as Hvol.
  { intros v Hv. unfold replset_SetDefaults in H2. destruct (rp_VolumeSpec rs1); ok_inv.
    cbn in Hv. injection Hv as <-. by eapply volume_again. }
  assert (rp_Name rs2 = rp_Name rs1 ∧ rp_ClusterRole rs2 = rp_ClusterRole rs1 ∧
    rp_Storage rs2 = rp_Storage rs1 ∧ rp_ReadinessProbe rs2 = rp_ReadinessProbe rs1 ∧
    rp_LivenessProbe rs2 = rp_LivenessProbe rs1 ∧
    maz_ServiceAccountName (rp_MultiAZ rs2) = maz_ServiceAccountName (rp_MultiAZ rs1)) as (?&?&?&?&?&?).
  { unfold replset_SetDefaults in H2. ok_inv. cbn. split_and!; try done. by eapply reconcileOpts_account. }
  unfold replset_defaults. erewrite bind_step by (eapply prepare_again; [exact H1|done..]).
  rewrite (bind_step _ _ _ Hset). unfold nonVoting_SetDefaults, hidden_SetDefaults in *.
  change (rp_NonVoting (with_side nv h rs2)) with nv. change (rp_Hidden (with_side nv h rs2)) with h.
  rewrite (bind_step _ _ nv) by (apply wrap_Ok; exact (side_again cr (with_side nv h rs2) _ _ _ _ nv
    (side_liveness_again _ _) (side_readiness_again _ _ _ _ _) Hvol Hnv Hpn)).
  rewrite (bind_step _ _ h) by (apply wrap_Ok; exact (side_again cr (with_side nv h rs2) _ _ _ _ h
    (side_liveness_again _ _) (side_readiness_again _ _ _ _ _) Hvol Hh Hph)).
  done.
Qed.

Lemma mongos_again cr m m' : mongos_defaults platform cr m = Ok m' → plain_affinity (mg_MultiAZ m') →
  mongos_defaults platform cr m' = Ok m'.
Proof.
  unfold mongos_defaults. intros H Hp. apply bind_Ok in H as (maz & Hm & H).
  apply bind_Ok in H as (conf & Hc & H). cbv zeta in H. apply bind_Ok in H as (dns & Hd & H). ok_inv.
  apply conf_SetDefaults_again in Hc as [Hc _]. apply external_dns_again in Hd.
  cbn [mg_Size mg_ServicePerPod mg_Expose mg_ReadinessProbe mg_LivenessProbe mg_PodSecurityContext
    mg_ContainerSecurityContext mg_Configuration mg_MultiAZ mg_LogStorage] in *.
  set (maz' := if since cr "1.16.0" then with_ServiceAccountName
    (non_empty WorkloadSA (maz_ServiceAccountName maz)) maz else maz) in *.
  assert (reconcileOpts cr maz' = Ok maz') as ->.
  { subst maz'. destruct (since cr "1.16.0"); [|by eapply reconcileOpts_again].
    by eapply with_account_fixed, reconcileOpts_again. }
  cbn [wrap_err mbind result_bind]. rewrite Hc. cbn [wrap_err mbind result_bind].
  rewrite default_expose_again. cbn [ex_ExternalDNS with_ExternalDNS]. rewrite Hd. cbn [mbind result_bind].
  rewrite mongos_liveness_again, mongos_readiness_again. do 2 f_equal.
  - unfold mongos_size, minSafeMongosSize. destruct (negb _ && live cr && negb _); cbn [andb]; [|done].
    destruct (Z.ltb_spec (mg_Size m) 2); [done|]. by destruct (Z.ltb_spec (mg_Size m) 2); [lia|].
  - destruct (since cr "1.15.0"); [|done]. by destruct (mg_PodSecurityContext m).
  - destruct (since cr "1.15.0"); [|done]. by destruct (mg_ContainerSecurityContext m).
  - subst maz'. destruct (since cr "1.16.0"); [|done]. rewrite account_fixed; [done|]. by apply non_empty_ne.
  - destruct (mg_LogStorage m) as [[c|]|]; [|done..]. cbn. do 2 f_equal. by destruct c as [r [|]].
Qed.

(** ** The whole cluster *)
Lemma name_replsets_again (sharding : bool) (l : list Replset) :
  l ≠ [] → Forall (λ rs, rp_Name rs ≠ "" ∧
    rp_ClusterRole rs = (if sharding then ClusterRoleShardSvr else "")) l →
  name_replsets sharding l = l.
Proof.
  intros Hl Hall. unfold name_replsets. assert (match l with [] => [default_replset] | _ => l end = l) as ->
    by (by destruct l). clear Hl.
  apply list_eq. intros i. rewrite list_lookup_imap. destruct (l !! i) as [rs|] eqn:E; [|done]. cbn. f_equal.
  rewrite Forall_forall in Hall. destruct (Hall rs) as [Hn Hr]; [by eapply list_elem_of_lookup_2|].
  unfold name_replset, with_identity, non_empty. rewrite bool_decide_eq_false_2 by done. rewrite <- Hr.
  by destruct rs.
Qed.

Lemma replsets_again cr sharding l l' : mapR (replset_defaults platform cr sharding) l = Ok l' →
  Forall plain_replset l' → mapR (replset_defaults platform cr sharding) l' = Ok l'.
Proof.
  intros H Hp. apply (mapR_again (replset_defaults platform cr sharding) l l'); [|done].
  intros x y _ Hy Hxy. eapply replset_again; [done|]. rewrite Forall_forall in Hp. by apply Hp.
Qed.
Lemma external_check_same cfg cfg' l l' u :
  Forall2 same_place l l' → no_external cfg' = no_external cfg →
  check_external_everywhere cfg l = Ok u → check_external_everywhere cfg' l' = Ok tt.
Proof.
  intros Hs Hc. induction Hs as [|x y l l' (_ & _ & _ & He) _ IH]; cbn; [done|]. intros H. ok_inv.
  rewrite He, Hc, Hok, Hok0. cbn. by apply IH.
Qed.

Definition plain_sharding (l : list Replset) (s : Sharding) : Prop :=
  Forall plain_replset l ∧
  (sh_Enabled s = true → ∀ cfg m, sh_ConfigsvrReplSet s = Some cfg → sh_Mongos s = Some m →
   plain_replset cfg ∧ plain_affinity (mg_MultiAZ m)).

Lemma sharding_again cr l s l' s' : sharding_defaults platform cr l s = Ok (l', s') →
  plain_sharding l' s' → sharding_defaults platform cr l' s' = Ok (l', s').
Proof.
  intros H [Hp Hps]. pose proof (sharding_accepted _ _ _ _ _ _ H) as [Hr _ Hn Hsh].
  unfold sharding_defaults in *. rewrite name_replsets_again by done.
  destruct (sh_Enabled s) eqn:Es.
  - destruct (sh_ConfigsvrReplSet s) as [cfg|], (sh_Mongos s) as [m|]; try done. cbv zeta in H. ok_inv.
    cbn [sh_Enabled sh_ConfigsvrReplSet sh_Mongos] in *.
    destruct (Hps eq_refl _ _ eq_refl eq_refl) as [Hpc Hpm].
    destruct (Hsh eq_refl) as (cfg' & m' & [= <-] & [= <-] & _ & _ & Hcn & Hcr & Hca & _).
    assert (name_configsvr a2 = a2) as ->.
    { unfold name_configsvr. rewrite <- Hcn, <- Hcr, <- Hca. by destruct a2 as [? ? ? []]. }
    apply replsets_accepted in Hok1 as Hs1. destruct Hs1 as [_ Hs1].
    apply replset_accepted in Hok2 as Hs2. destruct Hs2 as [_ (_ & _ & _ & Hs2)].
    rewrite (mongos_again _ _ _ Hok Hpm). cbn [mbind result_bind].
    rewrite (external_check_same _ _ _ _ _ Hs1 Hs2 Hok0). cbn [mbind result_bind].
    rewrite (replsets_again _ _ _ _ Hok1 Hp). cbn [mbind result_bind].
    by rewrite (replset_again _ _ _ _ Hok2 Hpc).
  - ok_inv. rewrite Es, (replsets_again _ _ _ _ Hok Hp). done.
Qed.

Lemma secrets_again name s : secrets_defaults name (Some (secrets_defaults name s)) = secrets_defaults name s.
Proof. unfold secrets_defaults; cbn. by rewrite !non_empty_idem. Qed.
Lemma vault_again v v' : vault_defaults v = Ok v' → vault_defaults v' = Ok v'.
Proof.
  unfold vault_defaults. destruct v as [v|]; [|by intros [= <-]].
  case_bool_decide as E; intros H; ok_inv; [by rewrite bool_decide_eq_true_2|].
  cbn [va_EndpointURL va_TLSSecret va_Role]. rewrite bool_decide_eq_false_2 by done.
  rewrite Hok. cbn. by rewrite non_empty_idem.
Qed.
Lemma autoscaling_again a :
  setStorageAutoscalingDefaults (setStorageAutoscalingDefaults a) = setStorageAutoscalingDefaults a.
Proof. unfold setStorageAutoscalingDefaults; cbn. by rewrite !non_zero_idem. Qed.
Lemma tls_again t : tls_defaults (Some (tls_defaults t)) = tls_defaults t.
Proof. unfold tls_defaults; cbn. by rewrite !non_empty_idem, non_zero_idem. Qed.
Lemma tls_disabled_again t :
  with_tls_Mode TLSModeDisabled (tls_defaults (Some (with_tls_Mode TLSModeDisabled (tls_defaults t)))) =
  with_tls_Mode TLSModeDisabled (tls_defaults t).
Proof. unfold tls_defaults, with_tls_Mode; cbn. by rewrite !non_empty_idem, non_zero_idem. Qed.

Lemma head_again cr cr' : head_defaults cr = Ok cr' → head_defaults cr' = Ok cr'.
Proof.
  unfold head_defaults. intros H. apply bind_Ok in H as (u1 & H1 & H).
  apply bind_Ok in H as (v & Hv%vault_again & H). apply bind_Ok in H as (u2 & H2 & H). cbv zeta in H.
  apply bind_Ok in H as (u3 & H3 & H). ok_inv.
  cbn [ch_Name ch_Namespace ch_Deleting ch_CRVersion ch_Pause ch_Unmanaged ch_UnsafeConf ch_Unsafe ch_Image
    ch_ImagePullPolicy ch_Secrets ch_Vault ch_Autoscaling ch_TLS].
  rewrite H1, Hv. cbn [require mbind result_bind].
  assert (validateStorageAutoscaling (setStorageAutoscalingDefaults <$> ch_Autoscaling cr) = Ok u2) as ->.
  { by destruct (ch_Autoscaling cr). }
  cbn [wrap_err mbind result_bind]. rewrite secrets_again, non_empty_idem.
  rewrite <- option_fmap_compose.
  assert ((setStorageAutoscalingDefaults ∘ setStorageAutoscalingDefaults) <$> ch_Autoscaling cr =
    setStorageAutoscalingDefaults <$> ch_Autoscaling cr) as ->.
  { apply option_fmap_ext. apply autoscaling_again. }
  cbn [ch_Unsafe] in H3 |- *.
  destruct (ch_UnsafeConf cr); rewrite ?tls_disabled_again, ?tls_again; by rewrite H3.
Qed.

Lemma storage_region_again cr s : storage_region cr (storage_region cr s) = storage_region cr s.
Proof.
  unfold storage_region. destruct (is_s3 s && since cr "1.22.0") eqn:E; [|by rewrite E].
  assert (is_s3 (with_Region (non_empty DefaultS3Region (s3_Region (stg_S3 s))) s) = is_s3 s) as -> by done.
  rewrite E. unfold with_Region; cbn. by rewrite non_empty_idem.
Qed.
Lemma tasks_again i l l' : tasks_defaults i l = Ok l' → tasks_defaults i l' = Ok l'.
Proof.
  revert i l'. induction l as [|t l IH]; intros i l'; cbn; intros H; ok_inv; [done|].
  cbn. rewrite Hok. cbn. apply IH in Hok0. rewrite Hok0. cbn. by rewrite non_empty_idem.
Qed.
Lemma check_main_region cr m : check_main_storage cr (storage_region cr <$> m) = check_main_storage cr m.
Proof. unfold check_main_storage. by rewrite main_storages_region, map_size_fmap. Qed.
Lemma encryptions_region cr m :
  forallb (λ p : string * _, negb (two_encryptions p.2)) (map_to_list m) = true →
  forallb (λ p : string * _, negb (two_encryptions p.2)) (map_to_list (storage_region cr <$> m)) = true.
Proof.
  rewrite !forallb_forall. intros H [n s] Hs%list_elem_of_In%elem_of_map_to_list.
  rewrite lookup_fmap in Hs. apply fmap_Some in Hs as (s0 & Hs & ->).
  cbn. rewrite storage_region_encryptions. by apply (H (n, s0)), list_elem_of_In, elem_of_map_to_list.
Qed.
Lemma pitr_again cr b storages tasks :
  size storages = size (b_Storages b) →
  pitr_defaults cr (with_backup_spec storages tasks (pitr_defaults cr b) b) = pitr_defaults cr b.
Proof.
  intros Hs. unfold pitr_defaults; cbn. rewrite Hs.
  set (e := b_Enabled b). set (p := pitr_Enabled (b_PITR b)). set (c := since cr "1.20.0" || _).
  assert (e && (e && p && c) && c = e && p && c) as -> by (by destruct e, p, c).
  destruct (e && p && c); cbn; [|done]. by rewrite number_set_idem.
Qed.

(** Where every region is given, the check does not depend on the order. *)
Definition regions_given (m : gmap string BackupStorageSpec) : Prop :=
  ∀ n s, m !! n = Some s → workload_region s ≠ Some "".
Lemma check_regions_spec seen l :
  (∀ s, s ∈ l → workload_region s ≠ Some "") →
  check_regions seen l = Ok tt ↔ ∃ r, (seen = "" ∨ seen = r) ∧ ∀ s x, s ∈ l → workload_region s = Some x → x = r.
Proof.
  revert seen. induction l as [|s l IH]; intros seen Hl; cbn.
  { split; [intros _|done]. exists seen. split; [by right|]. by intros s x ?%elem_of_nil. }
  assert (∀ s', s' ∈ l → workload_region s' ≠ Some "") as Hl' by (intros; apply Hl; by right).
  pose proof (Hl s ltac:(by left)) as Hs. destruct (workload_region s) as [region|] eqn:E.
  2:{ rewrite IH by done. split; intros (r & Hr & Hx); exists r; (split; [done|]); intros s' x Hs' Ex.
      - apply elem_of_cons in Hs' as [->|?]; [congruence|eauto].
      - eapply Hx; [by right|done]. }
  assert (∀ r, (∀ s' x, s' ∈ s :: l → workload_region s' = Some x → x = r) ↔
    region = r ∧ ∀ s' x, s' ∈ l → workload_region s' = Some x → x = r) as Hcons.
  { intros r. split.
    - intros Hx. split; [eapply Hx; [by left|done]|]. intros s' x ??. eapply Hx; [by right|done].
    - intros [-> Hx] s' x [->|?]%elem_of_cons; [congruence|eauto]. }
  setoid_rewrite Hcons. repeat case_bool_decide; subst; [rewrite IH by done|rewrite IH by done|].
  - split; [intros (r & [?| ->] & Hx); [by destruct Hs; f_equal|]; exists r; auto|].
    intros (r & _ & -> & Hx). exists r. auto.
  - split; [intros (r & [?| ->] & Hx); [done|]; exists r; auto|]. intros (r & _ & -> & Hx). exists r. auto.
  - split; [done|]. intros (r & [?|?] & -> & _); by subst.
Qed.
Lemma validate_regions_order (O1 O2 : MapOrder) `{!MapOrderLaws O1, !MapOrderLaws O2} m :
  regions_given m → validateOCIStorages (H := O1) m = Ok tt → validateOCIStorages (H := O2) m = Ok tt.
Proof.
  intros Hm. unfold validateOCIStorages.
  assert (∀ (O' : MapOrder) `{!MapOrderLaws O'} s, s ∈ snd <$> map_order m ↔ ∃ n, m !! n = Some s) as Hin.
  { intros O' HO s. rewrite list_elem_of_fmap. split.
    - intros ([n s'] & -> & Hn). exists n. rewrite map_order_perm in Hn. by apply elem_of_map_to_list in Hn.
    - intros (n & Hn). exists (n, s). split; [done|]. rewrite map_order_perm. by apply elem_of_map_to_list. }
  rewrite !check_regions_spec by (intros s Hs; destruct (proj1 (Hin _ _ s) Hs) as (n & E); by eapply Hm).
  intros (r & _ & Hr). exists r. split; [by left|]. intros s x Hs. apply Hr.
  apply (proj2 (Hin O1 _ s)), (proj1 (Hin O2 _ s) Hs).
Qed.

Lemma backup_again (O' : MapOrder) `{!MapOrderLaws O, !MapOrderLaws O'} cr b b' :
  backup_defaults (H := O) platform cr b = Ok b' → (b_Enabled b' = true → regions_given (b_Storages b')) →
  backup_defaults (H := O') platform cr b' = Ok b'.
Proof.
  unfold backup_defaults. destruct (b_Enabled b) eqn:E; intros Hb Hg; ok_inv; cbn [bk_spec bk_ServiceAccountName
    bk_PodSecurityContext bk_ContainerSecurityContext with_backup_spec b_Enabled b_Storages b_Tasks] in *; rewrite E.
  - rewrite (tasks_again _ _ _ Hok). cbn [mbind result_bind]. rewrite check_main_region, Hok0. cbn [mbind result_bind].
    rewrite encryptions_region by done. cbn [require mbind result_bind].
    rewrite <- map_fmap_compose.
    assert ((storage_region cr ∘ storage_region cr) <$> b_Storages b = storage_region cr <$> b_Storages b) as ->.
    { apply map_fmap_ext. intros. apply storage_region_again. }
    destruct a2. rewrite (validate_regions_order O O') by auto.
    cbn [wrap_err mbind result_bind]. rewrite pitr_again by apply map_size_fmap.
    do 2 f_equal; [|by destruct (bk_PodSecurityContext b)|by destruct (bk_ContainerSecurityContext b)].
    destruct (negb _); [|done]. by rewrite non_empty_idem.
  - by rewrite pitr_again.
Qed.
Lemma backup_enabled cr b b' : backup_defaults platform cr b = Ok b' → b_Enabled b' = b_Enabled b.
Proof. unfold backup_defaults. destruct (b_Enabled b) eqn:E; intros H; by ok_inv. Qed.
End again.

(** C33: Applying the defaults to a cluster that they have completed succeeds
    and changes nothing, whatever the orders in which the two runs range over
    maps, under three conditions: no group of pods has an affinity of its own
    (then its topology key is set and taken away in turns); with backups
    enabled, no OCI storage with workload identity has an empty region (then
    the check can depend on the order); and the text to which yaml.v2 writes a
    map is read as a map that is written as the same text, with its strings,
    truth values, integers and maps as they were (a float may come back as an
    integer). *)
Theorem CheckNSetDefaults_idempotent `{V : Versions, YL : YamlLaws, N : DomainNames, A : McsAvailable}
    (O O' : MapOrder) {OL : MapOrderLaws O} {OL' : MapOrderLaws O'} (platform : Platform) (cr cr' : Cluster) :
  CheckNSetDefaults (H := O) platform cr = Ok cr' →
  (∀ l, cl_Replsets cr' = Some l → plain_sharding l (cl_Sharding cr')) →
  (b_Enabled (cl_Backup cr') = true → regions_given (b_Storages (cl_Backup cr'))) →
  CheckNSetDefaults (H := O') platform cr' = Ok cr'.
Proof.
  unfold CheckNSetDefaults. intros H Hp Hg. apply bind_Ok in H as (l & _ & H).
  apply bind_Ok in H as (head & Hh & H). pose proof (head_accepted _ _ Hh) as (_ & _ & _ & _ & Hu).
  apply head_again in Hh. apply bind_Ok in H as ([l' sh] & Hs & H).
  apply bind_Ok in H as (b & Hb & H). cbv zeta in H. ok_inv. rewrite <- Hu in Hok.
  apply sharding_again in Hs; [|by apply Hp]. cbn [fst snd] in *.
  pose proof (backup_again _ O' _ _ _ Hb) as Hb2. cbn in *. specialize (Hb2 Hg).
  rewrite Hh. cbn. rewrite Hs. cbn. rewrite Hb2. cbn.
  rewrite !non_empty_idem, <- option_fmap_compose, Hok, (backup_enabled _ _ _ _ Hb). cbn.
  rewrite Hok0. cbn. do 2 f_equal.
  destruct (b_Enabled (cl_Backup cr)); [|done]. by destruct (cl_PMMSecurityContext cr).
Qed.

(** ** A cluster *)
Definition demo_security (enc : bool) : gmap string yval :=
  let m := <["enableEncryption" := YBool true]> ∅ in
  if enc then <["encryptionKeyFile" := YStr (MongodRESTencryptDir +:+ "/" +:+ EncryptionKeyName)]> m else m.
(** A YAML with three documents: an empty one, and encryption with and without
    the name of the key's file. *)
Definition demo_marshal (m : gmap string yval) : option string :=
  match map_to_list m with
  | [] => Some ""
  | [(k, YMap sec)] =>
      match map_to_list sec with
      | [(k1, YStr v1); (k2, YBool true)] =>
          if bool_decide ((k, k1, v1, k2) =
               ("security", "encryptionKeyFile", MongodRESTencryptDir +:+ "/" +:+ EncryptionKeyName,
                "enableEncryption"))
          then Some "encrypted" else None
      | _ => None
      end
  | _ => None
  end.
Definition demo_yaml : Yaml := {|
  yaml_map := λ s, Some (
    if bool_decide (s = "") then ∅
    else {[ "security" := YMap (demo_security (negb (bool_decide (s = "plain")))) ]});
  yaml_net_port := λ _, Some 0%Z; yaml_replSetName := λ _, Some ""; yaml_marshal := demo_marshal |}.

Lemma map_of_list {X} (m : gmap string X) l : map_to_list m = l → m = list_to_map l.
Proof. intros <-. by rewrite list_to_map_to_list. Qed.
Lemma alike_same (m : gmap string yval) : (∀ k v, m !! k = Some v → alike v v) → alike (YMap m) (YMap m).
Proof. intros Hm. constructor. intros k. destruct (m !! k) eqn:E; constructor. by eapply Hm. Qed.
Lemma demo_yaml_laws : YamlLaws demo_yaml.
Proof.
  assert (∀ m s, demo_marshal m = Some s → yaml_map (Yaml := demo_yaml) s = Some m ∧ alike (YMap m) (YMap m)) as Hx.
  { intros m s. unfold demo_marshal.
    destruct (map_to_list m) as [|[k [| | |sec|]] [|]] eqn:Em; try done.
    - intros [= <-]. apply map_of_list in Em as ->. split; [reflexivity|]. apply alike_same. by intros k v Hk.
    - destruct (map_to_list sec) as [|[k1 [v1| | | |]] [|[k2 [|[]| | |]] [|]]] eqn:Es; try done.
      case_bool_decide as Hk; [|done]. injection Hk as -> -> -> ->. intros [= <-].
      apply map_of_list in Em as ->. apply map_of_list in Es as ->. split; [reflexivity|].
      apply alike_same. intros k v Hk. cbn [list_to_map foldr] in Hk.
      apply lookup_insert_Some in Hk as [[_ <-]|[_ Hk]]; [|done]. apply alike_same. clear k.
      intros k v Hk. cbn [list_to_map foldr] in Hk.
      apply lookup_insert_Some in Hk as [[_ <-]|[_ Hk]]; [constructor|].
      apply lookup_insert_Some in Hk as [[_ <-]|[_ Hk]]; [constructor|done]. }
  constructor. intros m s Hs. exists m. destruct (Hx m s Hs). by split_and!.
Qed.

Definition demo_volume : VolumeSpec := {|
  vs_EmptyDir := false; vs_HostPath := false;
  vs_PersistentVolumeClaim := Some {| pvc_Requests := {[ "storage" := 3%Z ]}; pvc_AccessModes := [] |} |}.
Definition demo_side : SideSpec := {|
  sd_Enabled := true; sd_Size := 1; sd_VolumeSpec := None; sd_ReadinessProbe := None;
  sd_LivenessProbe := None; sd_PodSecurityContext := None; sd_ContainerSecurityContext := None;
  sd_Configuration := ""; sd_MultiAZ := zeroMultiAZ |}.
(** Four data members and an arbiter, with a hidden member, encrypted *)
Definition demo_rs (name : string) : Replset := {|
  rp_Name := name; rp_Size := 4; rp_ClusterRole := "";
  rp_Arbiter := {| ar_Enabled := true; ar_Size := 1; ar_MultiAZ := zeroMultiAZ |};
  rp_ExposeEnabled := true; rp_Expose := zeroExpose; rp_VolumeSpec := Some demo_volume;
  rp_ReadinessProbe := None; rp_LivenessProbe := None; rp_PodSecurityContext := None;
  rp_ContainerSecurityContext := None; rp_Storage := None; rp_Configuration := "plain";
  rp_ExternalNodes := []; rp_NonVoting := zeroSide; rp_Hidden := demo_side; rp_Horizons := ∅;
  rp_Overrides := ∅; rp_PrimaryPreferTagSelector := ∅; rp_MultiAZ := zeroMultiAZ |}.
(** Three config servers *)
Definition demo_cfg : Replset := {|
  rp_Name := ""; rp_Size := 3; rp_ClusterRole := "";
  rp_Arbiter := {| ar_Enabled := true; ar_Size := 1; ar_MultiAZ := zeroMultiAZ |};
  rp_ExposeEnabled := false; rp_Expose := zeroExpose; rp_VolumeSpec := Some demo_volume;
  rp_ReadinessProbe := None; rp_LivenessProbe := None; rp_PodSecurityContext := None;
  rp_ContainerSecurityContext := None; rp_Storage := None; rp_Configuration := "";
  rp_ExternalNodes := []; rp_NonVoting := zeroSide; rp_Hidden := zeroSide; rp_Horizons := ∅;
  rp_Overrides := ∅; rp_PrimaryPreferTagSelector := ∅; rp_MultiAZ := zeroMultiAZ |}.
Definition demo_mongos : MongosSpec := {|
  mg_Size := 2; mg_ServicePerPod := false; mg_Expose := zeroExpose; mg_ReadinessProbe := None;
  mg_LivenessProbe := None; mg_PodSecurityContext := None; mg_ContainerSecurityContext := None;
  mg_Configuration := ""; mg_MultiAZ := zeroMultiAZ; mg_LogStorage := None |}.
Definition demo_task (name : string) : BackupTaskSpec := {|
  task_Name := name; task_Enabled := true; task_Keep := 3; task_Retention := None;
  task_Schedule := "0 0 * * *"; task_StorageName := "s3"; task_CompressionType := "";
  task_CompressionLevel := None; task_VolumeSnapshotClass := None; task_Type := "" |}.
Definition demo_backup : BackupSection := {|
  bk_spec := {|
    b_Enabled := true; b_Image := "pbm"; b_Storages := ∅; b_Tasks := [demo_task "daily"];
    b_PITR := {| pitr_Enabled := true; pitr_OplogSpanMin := ""; pitr_OplogOnly := false;
                 pitr_CompressionType := ""; pitr_CompressionLevel := None |};
    b_BackupOptions := None; b_RestoreOptions := None; b_StartingDeadlineSeconds := None |};
  bk_ServiceAccountName := ""; bk_PodSecurityContext := None; bk_ContainerSecurityContext := None |}.
Definition demo_head : ClusterHead := {|
  ch_Name := "db"; ch_Namespace := "ns"; ch_Deleting := false; ch_CRVersion := "1.23.0";
  ch_Pause := false; ch_Unmanaged := false; ch_UnsafeConf := false;
  ch_Unsafe := {| uf_TLS := false; uf_ReplsetSize := false; uf_MongosSize := false;
                  uf_TerminationGracePeriod := false; uf_BackupIfUnhealthy := false |};
  ch_Image := "mongod"; ch_ImagePullPolicy := ""; ch_Secrets := None; ch_Vault := None;
  ch_Autoscaling := None; ch_TLS := None |}.
Definition demo_spec (l : list Replset) : Cluster := {|
  cl_head := demo_head; cl_Annotations := ∅; cl_Replsets := Some l;
  cl_Sharding := {| sh_Enabled := true; sh_ConfigsvrReplSet := Some demo_cfg; sh_Mongos := Some demo_mongos |};
  cl_Backup := demo_backup; cl_PMMSecurityContext := None; cl_DNSSuffix := ""; cl_DNSMode := "";
  cl_UpdateStrategy := ""; cl_UpgradeOptions := {| up_VersionServiceEndpoint := ""; up_Apply := "" |};
  cl_MCSEnabled := false; cl_MCSDNSSuffix := ""; cl_Search := None; cl_DefaultRWConcern := None |}.

(** Every version is newer, every name is a domain, no multi-cluster services. *)
Definition demo_defaults (cr : Cluster) : result Cluster :=
  CheckNSetDefaults (V := λ _ _, 1%Z) (Y := demo_yaml) (N := λ _, true) (A := false) (H := list_order)
    PlatformKubernetes cr.
Definition demo_accepted : Cluster :=
  match demo_defaults (demo_spec [demo_rs ""]) with Ok cr => cr | Err _ => demo_spec [] end.
Definition accepted_replsets (cr : Cluster) : list Replset := default [] (cl_Replsets cr).

Lemma CheckNSetDefaults_accepted_witness :
  (λ rs, (rp_Name rs, rp_ClusterRole rs, rp_Size rs, ar_Size (rp_Arbiter rs), rp_Configuration rs,
          ex_ExposeType (rp_Expose rs)))
    <$> accepted_replsets demo_accepted = [("rs0", "shardsvr", 4%Z, 1%Z, "encrypted", "ClusterIP")] ∧
  cluster_ok (V := λ _ _, 1%Z) (Y := demo_yaml) (N := λ _, true) (A := false) demo_accepted.
Proof.
  split; [vm_compute; reflexivity|].
  apply (CheckNSetDefaults_accepted PlatformKubernetes (demo_spec [demo_rs ""]) (O := list_order)).
  vm_compute. reflexivity.
Defined.

(** A list with no replica set gets one by default, but one without a volume: it is
    rejected for that. *)
Lemma default_replset_rejected `{V : Versions, Y : Yaml, N : DomainNames, A : McsAvailable, O : MapOrder}
    platform cr : cl_Replsets cr = Some [] → is_ok (CheckNSetDefaults platform cr) = false.
Proof.
  intros Hl. destruct (CheckNSetDefaults platform cr) as [cr'|] eqn:H; [|done].
  unfold CheckNSetDefaults in H. rewrite Hl in H. cbn in H.
  apply bind_Ok in H as (head & _ & H). apply bind_Ok in H as ([l' sh] & Hs & _). exfalso.
  assert (∀ cr b rs, rp_VolumeSpec rs = None → is_ok (replset_defaults platform cr b rs) = false) as Hno.
  { intros h b rs Hv. unfold replset_defaults, replset_prepare. rewrite Hv.
    destruct (require _ _); [|done]. cbn. destruct (storage_defaults _ _ _ _); [|done]. done. }
  assert (∀ b rs l, rp_VolumeSpec rs = None →
    is_ok (mapR (replset_defaults platform head b) (rs :: l)) = false) as Hno2.
  { intros b rs l Hv. specialize (Hno head b rs Hv). cbn.
    by destruct (replset_defaults platform head b rs). }
  unfold sharding_defaults, name_replsets in Hs. cbn [imap] in Hs.
  destruct (sh_Enabled (cl_Sharding cr)).
  - destruct (sh_ConfigsvrReplSet (cl_Sharding cr)), (sh_Mongos (cl_Sharding cr)); try done.
    cbv zeta in Hs. ok_inv. pose proof (Hno2 true (name_replset true 0 default_replset) [] eq_refl) as Hf. by rewrite Hok1 in Hf.
  - cbv zeta in Hs. ok_inv. pose proof (Hno2 false (name_replset false 0 default_replset) [] eq_refl) as Hf. by rewrite Hok in Hf.
Qed.

(** The comment of [reconcileAffinityOpts] says that an affinity of the user's own
    takes the topology key away; without a key it first gets one, and loses it at
    the next run. *)
Example affinity_alternates :
  let a k := Some {| pa_TopologyKey := k; pa_Advanced := Some "mine" |} in
  let next := reconcileAffinityOpts (V := λ _ _, 1%Z) demo_head in
  next (a None) = a (Some defaultAffinityTopologyKey) ∧
  next (a (Some defaultAffinityTopologyKey)) = a None.
Proof. split; reflexivity. Qed.

Lemma CheckNSetDefaults_idempotent_witness : demo_defaults demo_accepted = Ok demo_accepted.
Proof.
  pose proof list_order_laws.
  apply (CheckNSetDefaults_idempotent (V := λ _ _, 1%Z) (YL := demo_yaml_laws) (N := λ _, true) (A := false)
    list_order list_order PlatformKubernetes (demo_spec [demo_rs ""])); [vm_compute; reflexivity| |].
  2:{ intros _ n s Hs. vm_compute in Hs. discriminate Hs. }
  intros l Hl. vm_compute in Hl. injection Hl as <-. split.
  - repeat constructor; intros a [= <-]; reflexivity.
  - intros _ cfg m Hc Hm. vm_compute in Hc, Hm. injection Hc as <-. injection Hm as <-.
    split; [constructor|]; intros a [= <-]; reflexivity.
Defined.
