(* ===== verification/Volumes.v ===== *)
(** The volumes of stateful sets (pkg/controller/perconaservermongodb/volumes.go,
    volume_autoscaling.go, metrics_client.go, pkg/k8s/annotations.go): claims
    that grow when more storage is asked for or used, and claims that are
    replaced by smaller ones, one pod at a time.

    The handlers change objects that their caller keeps using: the cluster
    resource (its status, and the requests of its volume specifications, which
    are maps shared with the argument [pvcSpec]) and the stateful set.  These
    are the memory [VolMem]; what is in the API server is the world. *)
From S2P Require Import Prelude GoFloat ReplsetModels MongoClient Api GoSort Kube Hosts SystemUsers Cluster.
From S2P Require Import BackupApi BackupSchedule BackupExec PbmConfig BackupController SmartUpdate.
From S2P Require Defaults.
From Stdlib Require Import Ascii.

(** * Resources *)
Definition ResourceStorage : string := "storage".

(** A claim; [None] is a nil map. *)
Record PersistentVolumeClaim := {
  pvc_Name : string;
  pvc_Namespace : string;
  pvc_Labels : gmap string string;
  pvc_Annotations : gmap string string;
  pvc_Requests : option (gmap string Z);      (* Spec.Resources.Requests *)
  pvc_Capacity : option (gmap string Z);      (* Status.Capacity *)
  pvc_Conditions : list PodCondition          (* Status.Conditions *)
}.
(** [Requests[storage]] and [Capacity.Storage()]: a missing quantity is zero. *)
Definition storage_of (m : option (gmap string Z)) : Z := default 0%Z (default ∅ m !! ResourceStorage).

Record VolumeEvent := {
  ev_EventTime : option time;
  ev_FirstTimestamp : time;
  ev_Reason : string;
  ev_Note : string
}.

(** A stateful set with its claim templates and the volumes its containers
    mount. *)
Record VolStatefulSet := {
  vs_sts :> StatefulSet;
  vs_Namespace : string;
  vs_ClaimTemplates : list (string * option (gmap string Z));   (* name, requests *)
  vs_Mounts : list (string * list (string * string))            (* container: volume, path *)
}.

(** A claim specification of the cluster: the embedded pointer is nil, or it
    holds the requests. *)
Record PVCSpec := {
  ps_Labels : gmap string string;
  ps_Annotations : gmap string string;
  ps_Requests : option (option (gmap string Z))
}.
Record StorageScalingSpec := {
  ss_EnableVolumeScaling : bool;
  ss_EnableExternalAutoscaling : bool;
  ss_EnableVolumeShrink : bool;
  ss_MaxDiskUsagePercent : option Z;          (* ShrinkOpts.MaxDiskUsagePercent *)
  ss_Autoscaling : option Defaults.AutoscalingSpec
}.
Record StorageAutoscalingStatus := {
  sas_CurrentSize : string;
  sas_LastResizeTime : option time;
  sas_ResizeCount : Z;
  sas_LastError : string
}.
Definition zeroAutoscalingStatus : StorageAutoscalingStatus :=
  {| sas_CurrentSize := ""; sas_LastResizeTime := None; sas_ResizeCount := 0; sas_LastError := "" |}.

(** Where a cluster specifies a claim: the component and the replica set. *)
Abbreviation claim_key := (string * string)%type.
Record VolCluster := {
  vc_sc :> SmartCluster;
  vc_StorageScaling : option StorageScalingSpec;
  vc_EnableExternalVolumeAutoscaling : bool;
  vc_VolumeExpansionEnabled : bool;
  vc_Claims : gmap claim_key PVCSpec;         (* no entry: a nil volume specification *)
  vc_Autoscaling : gmap string StorageAutoscalingStatus   (* Status.StorageAutoscaling *)
}.

Definition IsExternalVolumeAutoscalingEnabled (cr : VolCluster) : bool :=
  match vc_StorageScaling cr with
  | Some s => ss_EnableExternalAutoscaling s
  | None => vc_EnableExternalVolumeAutoscaling cr
  end.
Definition IsVolumeExpansionEnabled (cr : VolCluster) : bool :=
  match vc_StorageScaling cr with
  | Some s => ss_EnableVolumeScaling s
  | None => vc_VolumeExpansionEnabled cr
  end.
Definition IsVolumeShrinkEnabled (cr : VolCluster) : bool :=
  match vc_StorageScaling cr with
  | Some s => ss_EnableVolumeShrink s
  | None => false
  end.
Definition ShrinkMaxDiskUsagePercent (cr : VolCluster) : float64 :=
  match vc_StorageScaling cr ≫= ss_MaxDiskUsagePercent with
  | Some p => f64_div (f64_of_int p) (f64_of_int 100)
  | None => f64_div (f64_of_int 4) (f64_of_int 5)
  end.
Definition StorageAutoscaling (cr : VolCluster) : option Defaults.AutoscalingSpec :=
  vc_StorageScaling cr ≫= ss_Autoscaling.

Definition with_bc_Status (f : ClusterStatus → ClusterStatus) (cr : BackupCluster) : BackupCluster :=
  {| bc_cr := cr; bc_Backup := bc_Backup cr; bc_Status := f (bc_Status cr); bc_Pause := bc_Pause cr;
     bc_SecretsSSE := bc_SecretsSSE cr; bc_UnsafeConf := bc_UnsafeConf cr;
     bc_BackupIfUnhealthy := bc_BackupIfUnhealthy cr |}.
Definition with_sc_bc (b : BackupCluster) (cr : SmartCluster) : SmartCluster :=
  {| sc_bc := b; sc_UpdateStrategy := sc_UpdateStrategy cr; sc_VPA := sc_VPA cr;
     sc_MongosDelay := sc_MongosDelay cr; sc_BalancerEnabled := sc_BalancerEnabled cr;
     sc_TLS := sc_TLS cr; sc_Deleting := sc_Deleting cr |}.
Definition with_shrink (f : gmap string PVCShrinkState → gmap string PVCShrinkState) (cr : VolCluster)
    : VolCluster :=
  {| vc_sc := with_sc_bc (with_bc_Status (with_PVCShrink f) cr) cr; vc_StorageScaling := vc_StorageScaling cr;
     vc_EnableExternalVolumeAutoscaling := vc_EnableExternalVolumeAutoscaling cr;
     vc_VolumeExpansionEnabled := vc_VolumeExpansionEnabled cr; vc_Claims := vc_Claims cr;
     vc_Autoscaling := vc_Autoscaling cr |}.
Definition with_claims (f : gmap claim_key PVCSpec → gmap claim_key PVCSpec) (cr : VolCluster) : VolCluster :=
  {| vc_sc := vc_sc cr; vc_StorageScaling := vc_StorageScaling cr;
     vc_EnableExternalVolumeAutoscaling := vc_EnableExternalVolumeAutoscaling cr;
     vc_VolumeExpansionEnabled := vc_VolumeExpansionEnabled cr; vc_Claims := f (vc_Claims cr);
     vc_Autoscaling := vc_Autoscaling cr |}.
Definition with_autoscaling (f : gmap string StorageAutoscalingStatus → gmap string StorageAutoscalingStatus)
    (cr : VolCluster) : VolCluster :=
  {| vc_sc := vc_sc cr; vc_StorageScaling := vc_StorageScaling cr;
     vc_EnableExternalVolumeAutoscaling := vc_EnableExternalVolumeAutoscaling cr;
     vc_VolumeExpansionEnabled := vc_VolumeExpansionEnabled cr; vc_Claims := vc_Claims cr;
     vc_Autoscaling := f (vc_Autoscaling cr) |}.

Definition GetPVCShrinkState (stsName : string) (cr : BackupCluster) : option PVCShrinkState :=
  bc_PVCShrink cr !! stsName.
Definition SetPVCShrinkState (stsName : string) (state : PVCShrinkState) : VolCluster → VolCluster :=
  with_shrink <[stsName := state]>.
Definition ClearPVCShrinkState (stsName : string) : VolCluster → VolCluster := with_shrink (delete stsName).

Definition with_Phase (p : string) (s : PVCShrinkState) : PVCShrinkState :=
  {| shr_TargetSize := shr_TargetSize s; shr_StartedAt := shr_StartedAt s; shr_Phase := p;
     shr_ProcessedPods := shr_ProcessedPods s; shr_PrimaryPod := shr_PrimaryPod s |}.
Definition with_PrimaryPod (p : string) (s : PVCShrinkState) : PVCShrinkState :=
  {| shr_TargetSize := shr_TargetSize s; shr_StartedAt := shr_StartedAt s; shr_Phase := shr_Phase s;
     shr_ProcessedPods := shr_ProcessedPods s; shr_PrimaryPod := p |}.
Definition add_Processed (p : string) (s : PVCShrinkState) : PVCShrinkState :=
  {| shr_TargetSize := shr_TargetSize s; shr_StartedAt := shr_StartedAt s; shr_Phase := shr_Phase s;
     shr_ProcessedPods := shr_ProcessedPods s ++ [p]; shr_PrimaryPod := shr_PrimaryPod s |}.

(** * The outside *)
Class VolumeClient (W : Type) := {
  pvc_list : string → gmap string string → GoM W (list PersistentVolumeClaim);
  pvc_get : string → string → GoM W PersistentVolumeClaim;
  pvc_update : PersistentVolumeClaim → GoM W unit;
  pvc_patch : PersistentVolumeClaim → PersistentVolumeClaim → GoM W unit;
  pvc_delete : PersistentVolumeClaim → GoM W unit;
  event_list : string → string → GoM W (list VolumeEvent);
  vsts_get : string → string → GoM W VolStatefulSet;
  vsts_patch : VolStatefulSet → VolStatefulSet → GoM W unit;
  vsts_delete_orphan : VolStatefulSet → GoM W unit;         (* its pods stay *)
  vcr_patch : VolCluster → VolCluster → GoM W unit;
  cr_patch : PerconaServerMongoDB → PerconaServerMongoDB → GoM W unit
}.
(** k8s.io/apimachinery's quantities as text: what is printed reads back as the
    same quantity. *)
Class Quantities := {
  quantity_String : Z → string;
  ParseQuantity : string → option Z
}.
Class QuantitiesLaws (Q : Quantities) := quantity_roundtrip z : ParseQuantity (quantity_String z) = Some z.
(** [time.Parse(time.RFC3339, s)] *)
Class TimeParser := parse_rfc3339 : string → option time.

Definition AnnotationPVCResizeInProgress : string := "percona.com/pvc-resize-in-progress".
Definition AnnotationPreservedRestartedAt (stsName : string) : string :=
  "percona.com/preserved-restarted-at" +:+ "." +:+ stsName.
Definition AnnotationKubectlRestartedAt : string := "kubectl.kubernetes.io/restartedAt".
Definition ConditionResizing : string := "Resizing".
Definition ConditionFileSystemResizePending : string := "FileSystemResizePending".
Definition MongodContainerDataDir : string := "/data/db".
Definition MongodContainerDataLogsDir : string := "/data/db/logs".
Definition MongosLogVolClaimName : string := "mongos-logs".

(** pkg/k8s/annotations.go, for any object: how it is read and patched, and
    where its annotations are. *)
Section annotate.
Context {W A : Type} (get : GoM W A) (annotations_of : A → gmap string string).
Context (set_annotations : gmap string string → A → A) (patch : A → A → GoM W unit).
Definition AnnotateObject (annotations : gmap string string) : GoM W unit :=
  o ← get; patch o (set_annotations (annotations ∪ annotations_of o) o).
Definition DeannotateObject (annotation : string) : GoM W unit :=
  o ← get; patch o (set_annotations (delete annotation (annotations_of o)) o).
End annotate.

Definition with_sts_Annotations (a : gmap string string) (s : StatefulSet) : StatefulSet :=
  {| sts_Name := sts_Name s; sts_Labels := sts_Labels s; sts_Annotations := a;
     sts_Generation := sts_Generation s; sts_Controller := sts_Controller s;
     sts_Deleting := sts_Deleting s; sts_SpecReplicas := sts_SpecReplicas s; sts_Selector := sts_Selector s;
     sts_TemplateLabels := sts_TemplateLabels s; sts_TemplateAnnotations := sts_TemplateAnnotations s;
     sts_TemplateInitContainers := sts_TemplateInitContainers s;
     sts_TemplateContainers := sts_TemplateContainers s;
     sts_UpdateRevision := sts_UpdateRevision s; sts_ObservedGeneration := sts_ObservedGeneration s;
     sts_Replicas := sts_Replicas s; sts_ReadyReplicas := sts_ReadyReplicas s;
     sts_UpdatedReplicas := sts_UpdatedReplicas s |}.
Definition with_vs_Annotations (a : gmap string string) (s : VolStatefulSet) : VolStatefulSet :=
  {| vs_sts := with_sts_Annotations a s; vs_Namespace := vs_Namespace s;
     vs_ClaimTemplates := vs_ClaimTemplates s; vs_Mounts := vs_Mounts s |}.
Definition with_vs_ClaimTemplates (l : list (string * option (gmap string Z))) (s : VolStatefulSet) : VolStatefulSet :=
  {| vs_sts := vs_sts s; vs_Namespace := vs_Namespace s; vs_ClaimTemplates := l; vs_Mounts := vs_Mounts s |}.
Definition with_pvc_Requests (r : option (gmap string Z)) (p : PersistentVolumeClaim) : PersistentVolumeClaim :=
  {| pvc_Name := pvc_Name p; pvc_Namespace := pvc_Namespace p; pvc_Labels := pvc_Labels p;
     pvc_Annotations := pvc_Annotations p; pvc_Requests := r; pvc_Capacity := pvc_Capacity p;
     pvc_Conditions := pvc_Conditions p |}.
Definition with_pvc_Meta (l a : gmap string string) (p : PersistentVolumeClaim) : PersistentVolumeClaim :=
  {| pvc_Name := pvc_Name p; pvc_Namespace := pvc_Namespace p; pvc_Labels := l;
     pvc_Annotations := a; pvc_Requests := pvc_Requests p; pvc_Capacity := pvc_Capacity p;
     pvc_Conditions := pvc_Conditions p |}.

(** [m[storage] = q]: a nil map panics. *)
Definition set_storage (q : Z) (m : option (gmap string Z)) : result (option (gmap string Z)) :=
  match m with
  | Some m => Ok (Some (<[ResourceStorage := q]> m))
  | None => Err (ENew "panic: assignment to entry in nil map")
  end.

(** * Claims *)
Fixpoint str_drop (n : nat) (s : string) : string :=
  match n, s with
  | S n, String _ s => str_drop n s
  | _, _ => s
  end.

Definition validatePVCName (claimName : string) (pvc : PersistentVolumeClaim) (sts : StatefulSet) : bool :=
  has_prefix (claimName +:+ "-" +:+ sts_Name sts) (pvc_Name pvc).
(** [pvc.Name[len(claimName)+1:]] *)
Definition claim_pod (claimName : string) (pvc : PersistentVolumeClaim) : string :=
  str_drop (String.length claimName + 1) (pvc_Name pvc).

(** The capacity of a claim of the stateful set, unless it has none. *)
Definition claim_capacity (claimName : string) (sts : StatefulSet) (pvc : PersistentVolumeClaim) : option Z :=
  if validatePVCName claimName pvc sts then
    match pvc_Capacity pvc with Some c => Some (storage_of (Some c)) | None => None end
  else None.
Definition maxPVCCapacity (pvcs : list PersistentVolumeClaim) (claimName : string) (sts : StatefulSet) : Z :=
  foldl (λ max pvc,
    match claim_capacity claimName sts pvc with
    | Some c => if (max =? 0)%Z || (max <? c)%Z then c else max
    | None => max
    end) 0%Z pvcs.
(** The smallest one *)
Definition minPVCCapacity (pvcs : list PersistentVolumeClaim) (claimName : string) (sts : StatefulSet) : Z :=
  foldl (λ actual pvc,
    match claim_capacity claimName sts pvc with
    | Some c => if (actual =? 0)%Z || (c <? actual)%Z then c else actual
    | None => actual
    end) 0%Z pvcs.

Definition resize_condition (c : PodCondition) : bool :=
  bool_decide (pc_Status c = "True") &&
  (bool_decide (pc_Type c = ConditionResizing) || bool_decide (pc_Type c = ConditionFileSystemResizePending)).
Definition pvc_expanding (pvc : PersistentVolumeClaim) : bool :=
  existsb resize_condition (pvc_Conditions pvc) ||
  match pvc_Requests pvc, pvc_Capacity pvc with
  | Some _, Some _ => (storage_of (pvc_Capacity pvc) <? storage_of (pvc_Requests pvc))%Z
  | _, _ => false
  end.
Definition isPVCExpansionInProgress (pvcs : list PersistentVolumeClaim) (claimName : string)
    (sts : StatefulSet) : bool :=
  existsb (λ pvc, validatePVCName claimName pvc sts && pvc_expanding pvc) pvcs.

(** * Disk usage *)
Definition is_space (a : ascii) : bool :=
  let n := nat_of_ascii a in ((9 <=? n) && (n <=? 13) || (n =? 32))%nat.
(** [strings.Fields(s)] *)
Fixpoint fields_go (cur : string) (s : string) : list string :=
  let flush := if bool_decide (cur = "") then [] else [cur] in
  match s with
  | EmptyString => flush
  | String a s' =>
      if is_space a then flush ++ fields_go "" s'
      else fields_go (cur +:+ String a "") s'
  end.
Definition Fields (s : string) : list string := fields_go "" s.
(** [strings.TrimSpace(s)] *)
Fixpoint trim_left_space (s : string) : string :=
  match s with
  | String a s' => if is_space a then trim_left_space s' else s
  | EmptyString => EmptyString
  end.
Fixpoint trim_right_space (s : string) : string :=
  match s with
  | EmptyString => EmptyString
  | String a s' =>
      match trim_right_space s' with
      | EmptyString => if is_space a then EmptyString else String a EmptyString
      | t => String a t
      end
  end.
Definition TrimSpace (s : string) : string := trim_right_space (trim_left_space s).

Record PVCUsage := {
  pu_PVCName : string;
  pu_UsedBytes : Z;
  pu_TotalBytes : Z;
  pu_UsagePercent : Z
}.
Definition newline : ascii := Ascii.ascii_of_nat 10.
(** What [df] printed *)
Definition parse_usage (pvcName stdout : string) : result PVCUsage :=
  match split_char newline (TrimSpace stdout) with
  | _ :: line :: _ =>
      match Fields line with
      | _ :: total :: used :: _ :: _ :: _ :: _ =>
          match atoi total with
          | None => Err (EWrap (ENew "invalid syntax") ("failed to parse total bytes: " +:+ total))
          | Some totalBytes =>
              match atoi used with
              | None => Err (EWrap (ENew "invalid syntax") ("failed to parse used bytes: " +:+ used))
              | Some usedBytes =>
                  Ok {| pu_PVCName := pvcName; pu_UsedBytes := usedBytes; pu_TotalBytes := totalBytes;
                        pu_UsagePercent :=
                          if (0 <? totalBytes)%Z then Z.quot (wrap64 (usedBytes * 100)) totalBytes else 0 |}
              end
          end
      | _ => Err (ENew ("unexpected df output fields: " +:+ line))
      end
  | _ => Err (ENew ("unexpected df output format: " +:+ stdout))
  end.

(** [util.MapEqual]: a missing key reads as the empty string. *)
Definition MapEqual (a b : gmap string string) : bool :=
  (size a =? size b)%nat &&
  forallb (λ '(k, v), bool_decide (default "" (b !! k) = v)) (map_to_list a).

(** * Memory *)
Record VolMem := { vm_cr : VolCluster; vm_sts : VolStatefulSet }.
Definition with_vm_cr (f : VolCluster → VolCluster) (m : VolMem) : VolMem :=
  {| vm_cr := f (vm_cr m); vm_sts := vm_sts m |}.
Definition with_vm_sts (f : VolStatefulSet → VolStatefulSet) (m : VolMem) : VolMem :=
  {| vm_cr := vm_cr m; vm_sts := f (vm_sts m) |}.

(** What shrinking knows of the stateful set. *)
Record shrinkContext := {
  sx_ls : gmap string string;
  sx_claimName : string;
  sx_claim : claim_key;                  (* pvcSpec *)
  sx_component : string;
  sx_replset : option ReplsetSpec;
  sx_isRSComponent : bool;
  sx_needsStepdown : bool
}.
Definition phase_secondaries : string := "secondaries".
Definition phase_stepdown : string := "stepdown".
Definition phase_primary : string := "primary".
Definition MongodContainerName (component : string) : string :=
  if bool_decide (component = ComponentNonVoting) then ContainerNonVoting
  else if bool_decide (component = ComponentHidden) then ContainerHidden
  else if bool_decide (component = ComponentArbiter) then ContainerArbiter
  else ContainerMongod.

(** The handlers of a stateful set and of the specification of its claims. *)
Section volumes.
Context {W : Type} {K : K8sClient W} {Q : PodClient W} {P : MongoClientProvider W} {E : ClusterEnv W}.
Context {KB : BackupClient W} {PB : PBM W} {SU : StatusUpdater W} {CC : ClusterClient W} {VC : VolumeClient W}.
Context {Y : Yaml} {V : Versions} {KV : KubeVersion} {G : GoSort} {R : GoRetryOn} {O : MapOrder}.
Context {QT : Quantities} {TP : TimeParser}.
Abbreviation M := (GoM (VolMem * W)).
Implicit Types (cr : VolCluster) (sts : VolStatefulSet) (pod : Pod) (pvc : PersistentVolumeClaim).

Definition onV {A} (m : GoM W A) : M A := λ s, let '(r, w') := m s.2 in (r, (s.1, w')).
Definition getCR : M VolCluster := λ s, (Ok (vm_cr s.1), s).
Definition getSts : M VolStatefulSet := λ s, (Ok (vm_sts s.1), s).
Definition setCR (f : VolCluster → VolCluster) : M unit := λ s, (Ok tt, (with_vm_cr f s.1, s.2)).
Definition setSts (f : VolStatefulSet → VolStatefulSet) : M unit := λ s, (Ok tt, (with_vm_sts f s.1, s.2)).
(** Runs [m] on a copy of the stateful set that the caller does not see. *)
Definition on_copy {A} (sts : VolStatefulSet) (m : M A) : M A := λ s,
  let '(r, (mem, w')) := m (with_vm_sts (λ _, sts) s.1, s.2) in
  (r, (with_vm_sts (λ _, vm_sts s.1) mem, w')).

(** ** metrics_client.go *)
Definition defaultPVCUsageSteps : nat := 5.
Definition df_once pod (containerName mountPath : string) : GoM (string * W) unit := λ '(_, w),
  let '(r, w') := ce_exec pod containerName ["df"; "-B1"; mountPath] None w in
  match r with
  | Ok (stdout, stderr, None) => (Ok tt, (stdout, w'))
  | Ok (stdout, stderr, Some e) =>
      (Err (EWrap e ("failed to execute df on " +:+ mountPath +:+ " in pod " +:+ pod_Name pod
                     +:+ " container " +:+ containerName +:+ ": " +:+ stderr)), (stdout, w'))
  | Err e => (Err e, ("", w'))
  end.
Definition getPVCUsageFromMetrics pod (pvcName containerName mountPath : string) : GoM W PVCUsage := λ w,
  let containerName := if bool_decide (containerName = "") then ContainerMongod else containerName in
  let mountPath := if bool_decide (mountPath = "") then MongodContainerDataDir else mountPath in
  let '(r, (stdout, w')) :=
    retry_on defaultPVCUsageSteps (λ _, true) (df_once pod containerName mountPath) ("", w) in
  match r with
  | Err e => (Err (EWrap e "wait for df execution"), w')
  | Ok _ => (parse_usage pvcName stdout, w')
  end.

(** ** Reverting a specification *)
Definition volume_key (component replset : string) : claim_key :=
  if bool_decide (component = ComponentMongod) && bool_decide (replset = ConfigReplSetName)
  then (ComponentConfigSrv, "") else (component, replset).
Definition mongos_key : claim_key := (ComponentMongos, "").

Definition sts_set_label (l : string) sts (msg : string) : result string :=
  match sts_Labels sts !! l with Some v => Ok v | None => Err (ENew msg) end.

(** The claim specification whose request is set back, and what is said when
    it has none. *)
Definition reverted_claim cr sts : result (claim_key * error) :=
  component ← sts_set_label LabelComponent sts "missing component label";
  if bool_decide (component ∈ [ComponentMongod; ComponentNonVoting; ComponentHidden]) then
    replset ← sts_set_label LabelReplset sts "missing replset label";
    match Replset cr replset with
    | None => Err (ENew ("replset " +:+ replset +:+ " not found in cr"))
    | Some _ => Ok (volume_key component replset,
                    ENew ("missing volume spec for " +:+ replset +:+ "/" +:+ component))
    end
  else if bool_decide (component = ComponentMongos) then
    Ok (mongos_key, ENew "missing log storage spec for mongos")
  else if bool_decide (component = ComponentConfigSrv) then Ok (volume_key component "", nil_panic)
  else Err (ENew ("unsupported component " +:+ component)).

Definition set_claim_request (k : claim_key) (ps : PVCSpec) (q : Z) cr : VolCluster :=
  with_claims <[k := {| ps_Labels := ps_Labels ps; ps_Annotations := ps_Annotations ps;
                        ps_Requests := match ps_Requests ps with
                                       | Some (Some m) => Some (Some (<[ResourceStorage := q]> m))
                                       | r => r
                                       end |}]> cr.

(** The resource in memory is changed even when the server refuses. *)
Definition revertVolumeTemplate sts (originalSize : Z) : M unit :=
  cr ← getCR;
  '(k, missing) ← liftR (reverted_claim cr sts);
  match vc_Claims cr !! k with
  | None => throw missing
  | Some ps =>
      match ps_Requests ps with
      | None => throw nil_panic
      | Some None => throw missing
      | Some (Some _) =>
          setCR (set_claim_request k ps originalSize);;
          wrapM ("patch psmdb/" +:+ cr_Name cr)
            (onV (vcr_patch cr (set_claim_request k ps originalSize cr)))
      end
  end.

Definition annotate_sts sts (a : gmap string string) : M unit :=
  onV (AnnotateObject (vsts_get (vs_Namespace sts) (sts_Name sts)) (λ s : VolStatefulSet, sts_Annotations s)
         with_vs_Annotations vsts_patch a).
Definition deannotate_sts sts (a : string) : M unit :=
  onV (DeannotateObject (vsts_get (vs_Namespace sts) (sts_Name sts)) (λ s : VolStatefulSet, sts_Annotations s)
         with_vs_Annotations vsts_patch a).
Definition annotate_cr cr (a : gmap string string) : M unit :=
  onV (AnnotateObject (cr_get (cr_Namespace cr) (cr_Name cr)) cr_Annotations with_cr_Annotations cr_patch a).

Definition handlePVCResizeFailure sts (originalSize : Z) : M unit :=
  cr ← getCR;
  wrapM ("revert volume template for sts/" +:+ sts_Name sts) (revertVolumeTemplate sts originalSize);;
  wrapM ("deannotate psmdb/" +:+ cr_Name (cr : VolCluster)) (deannotate_sts sts AnnotationPVCResizeInProgress).

(** The stateful set goes, its pods stay; a time of restart is kept. *)
Definition deleteStatefulSetForResize sts : M unit :=
  cr ← getCR;
  match sts_TemplateAnnotations sts !! AnnotationKubectlRestartedAt with
  | Some restartedAt =>
      _ ← catchM (annotate_cr cr {[ AnnotationPreservedRestartedAt (sts_Name sts) := restartedAt ]}); mret tt
  | None => mret tt
  end;;
  r ← tryM (onV (vsts_delete_orphan sts));
  match r with
  | Ok _ => mret tt
  | Err e => if IsNotFound e then mret tt else throw (EWrap e ("delete statefulset/" +:+ sts_Name sts))
  end.

(** ** Growing volumes *)
Definition retriable_resize (note : string) : bool :=
  str_contains "DeadlineExceeded" note || str_contains "Unavailable" note.
(** The first event since the resize started that tells of a failure for good. *)
Definition resize_failure (startedAt : time) (ev : VolumeEvent) : bool :=
  let eventTime := default (ev_FirstTimestamp ev) (ev_EventTime ev) in
  negb (Before eventTime startedAt) && bool_decide (ev_Reason ev = "VolumeResizeFailed")
  && negb (retriable_resize (ev_Note ev)).

(** How many of the claims have grown; a failure of one ends the resize. *)
Fixpoint count_resized sts (requested configured : Z) (startedAt : time)
    (pvcs : list PersistentVolumeClaim) (updated : nat) : M nat :=
  match pvcs with
  | [] => mret updated
  | pvc :: pvcs' =>
      if (requested <=? storage_of (pvc_Capacity pvc))%Z
      then count_resized sts requested configured startedAt pvcs' (S updated)
      else
        events ← wrapM ("list events for pvc/" +:+ pvc_Name pvc)
          (onV (event_list (vs_Namespace sts) (pvc_Name pvc)));
        match list_find (λ ev, resize_failure startedAt ev = true) events with
        | Some (_, ev) =>
            handlePVCResizeFailure sts configured;;
            throw (ENew ("volume resize failed: " +:+ ev_Note ev))
        | None => count_resized sts requested configured startedAt pvcs' updated
        end
  end.

(** The requests of the specification, as the code reads and writes them *)
Definition spec_requests (key : claim_key) : M (gmap string Z) :=
  cr ← getCR;
  match vc_Claims (cr : VolCluster) !! key with
  | None => throw nil_panic
  | Some ps => match ps_Requests ps with
               | None => throw nil_panic
               | Some r => mret (default ∅ r)
               end
  end.
Definition spec_request (key : claim_key) : M Z :=
  r ← spec_requests key; mret (default 0%Z (r !! ResourceStorage)).
Definition write_spec_request (key : claim_key) (q : Z) : M unit :=
  cr ← getCR;
  match vc_Claims (cr : VolCluster) !! key with
  | None => throw nil_panic
  | Some ps => match ps_Requests ps with
               | None => throw nil_panic
               | Some None => throw (ENew "panic: assignment to entry in nil map")
               | Some (Some _) => setCR (set_claim_request key ps q)
               end
  end.

(** The template of the claim gets the request; the first one of that name. *)
Fixpoint set_template (claimName : string) (q : Z) (l : list (string * option (gmap string Z)))
    : result (list (string * option (gmap string Z))) :=
  match l with
  | [] => Ok []
  | (name, m) :: l' =>
      if bool_decide (name = claimName) then m' ← set_storage q m; Ok ((name, m') :: l')
      else l'' ← set_template claimName q l'; Ok ((name, m) :: l'')
  end.
Definition align_template (claimName : string) (q : Z) : M unit :=
  sts ← getSts;
  l ← liftR (set_template claimName q (vs_ClaimTemplates (sts : VolStatefulSet)));
  setSts (with_vs_ClaimTemplates l).
(** The last template of that name *)
Definition configured_request (claimName : string) sts : Z :=
  foldl (λ q t, if bool_decide (t.1 = claimName) then storage_of t.2 else q) 0%Z (vs_ClaimTemplates sts).

Definition no_quota : string := "exceeded quota".
Definition no_resize_support : string := "the storageclass that provisions the pvc must support resize".

Fixpoint update_claims sts (requested configured : Z) (pvcs : list PersistentVolumeClaim) : M unit :=
  match pvcs with
  | [] => mret tt
  | pvc :: pvcs' =>
      pvc ← wrapM ("get persistentvolumeclaim/" +:+ pvc_Name pvc)
        (onV (pvc_get (pvc_Namespace pvc) (pvc_Name pvc)));
      if (storage_of (pvc_Capacity (pvc : PersistentVolumeClaim)) =? requested)%Z
      then update_claims sts requested configured pvcs'
      else
        requests ← liftR (set_storage requested (pvc_Requests pvc));
        r ← tryM (onV (pvc_update (with_pvc_Requests requests pvc)));
        match r with
        | Ok _ => update_claims sts requested configured pvcs'
        | Err e =>
            if str_contains no_quota (err_string e) || str_contains no_resize_support (err_string e)
            then handlePVCResizeFailure sts configured
            else throw (EWrap e ("update persistentvolumeclaim/" +:+ pvc_Name pvc))
        end
  end.

(** The claims to update: those of the stateful set whose pod exists *)
Definition to_update (claimName : string) sts (podNames : list string) pvc : bool :=
  validatePVCName claimName pvc sts && bool_decide (claim_pod claimName pvc ∈ podNames).

(** What is done with the stateful set as it is in the API server, the claims
    to update and their smallest capacity, when claims have to grow. *)
Definition start_resize sts (requested configured : Z) (pvcsToUpdate : list PersistentVolumeClaim) : M unit :=
  now ← onV go_now;
  wrapM "annotate psmdb" (annotate_sts sts {[ AnnotationPVCResizeInProgress := rfc3339 now ]});;
  update_claims sts requested configured pvcsToUpdate.

(** The resize in progress; [true] when the handler is done. *)
Definition resize_progress sts (requested configured : Z) (pvcsToUpdate : list PersistentVolumeClaim) : M bool :=
  let started := default "" (sts_Annotations sts !! AnnotationPVCResizeInProgress) in
  if bool_decide (started = "") then mret false
  else
    match parse_rfc3339 started with
    | None => throw (EWrap (ENew "cannot parse time") "parse annotation")
    | Some startedAt =>
        updated ← count_resized sts requested configured startedAt pvcsToUpdate 0;
        if (updated =? length pvcsToUpdate)%nat then deleteStatefulSetForResize sts;; mret true
        else mret false
    end.

(** ** Shrinking volumes: before the first deletion *)
Definition healthy_member (m : Member) : bool :=
  bool_decide (StateStr m ∈ ["PRIMARY"; "SECONDARY"; "ARBITER"]).
Definition sx_names_primary (sx : shrinkContext) : option ReplsetSpec :=
  if sx_isRSComponent sx then sx_replset sx else None.

(** The pods one after the other: [Ok true] when the usage of each is known and
    fits the target, [Ok false] when the shrink is put off. *)
Fixpoint usage_fits (sx : shrinkContext) sts (requested actual : Z) (pods : list Pod) : M bool :=
  match pods with
  | [] => mret true
  | pod :: pods' =>
      let mongos := bool_decide (sx_component sx = ComponentMongos) in
      r ← catchM (onV (getPVCUsageFromMetrics pod (sx_claimName sx +:+ "-" +:+ pod_Name pod)
             (if mongos then ContainerMongos else MongodContainerName (sx_component sx))
             (if mongos then MongodContainerDataLogsDir else "")));
      match r with
      | Err _ => align_template (sx_claimName sx) actual;; mret false
      | Ok usage =>
          cr ← getCR;
          let maxUsed := f64_mul (f64_of_int (Value requested)) (ShrinkMaxDiskUsagePercent cr) in
          if f64_ltb maxUsed (f64_of_int (pu_UsedBytes usage)) then
            wrapM ("revert volume template for sts/" +:+ sts_Name sts) (revertVolumeTemplate sts actual);;
            throw (ENew ("PVC shrink rejected: pod " +:+ pod_Name pod +:+ " disk usage exceeds "
                          +:+ itoa (int64_of_f64 (f64_mul (ShrinkMaxDiskUsagePercent cr) (f64_of_int 100)))
                          +:+ "% of target size " +:+ quantity_String requested))
          else usage_fits sx sts requested actual pods'
      end
  end.

(** The first pod that says it is primary; a pod that cannot be asked is
    passed over. *)
Fixpoint find_primary (replset : ReplsetSpec) (pods : list Pod) : M string :=
  match pods with
  | [] => mret ""
  | pod :: pods' =>
      cr ← getCR;
      r ← catchM (onV (isPodPrimary (cr : VolCluster) pod replset));
      match r with
      | Ok true => mret (pod_Name pod)
      | _ => find_primary replset pods'
      end
  end.

(** From the balancer on *)
Definition shrink_start (sx : shrinkContext) sts (requested actual : Z) (pods : list Pod) : M unit :=
  cr ← getCR;
  (if cr_ShardingEnabled (cr : VolCluster)
      && (bool_decide (sx_component sx = ComponentMongod) || bool_decide (sx_component sx = ComponentConfigSrv))
   then wrapM "disable balancer for PVC shrink" (onV (disableBalancer cr)) else mret tt);;
  primaryPod ← match sx_names_primary sx with
               | Some replset => find_primary replset pods
               | None => mret ""
               end;
  if sx_isRSComponent sx && sx_needsStepdown sx && bool_decide (primaryPod = "")
  then align_template (sx_claimName sx) actual
  else
    wrapM "delete statefulset for shrink" (deleteStatefulSetForResize sts);;
    now ← onV go_now;
    setCR (SetPVCShrinkState (sts_Name sts)
      {| shr_TargetSize := quantity_String requested; shr_StartedAt := rfc3339 now;
         shr_Phase := phase_secondaries; shr_ProcessedPods := []; shr_PrimaryPod := primaryPod |}).

(** The members of the replica set are asked first. *)
Definition shrink_healthy (sx : shrinkContext) (actual : Z) (k : M unit) : M unit :=
  match sx_names_primary sx with
  | None => k
  | Some replset =>
      cr ← getCR;
      r ← catchM (onV (mp_Mongo (cr : VolCluster) replset RoleClusterAdmin false));
      match r with
      | Err _ => align_template (sx_claimName sx) actual
      | Ok rsClient =>
          deferM (onV mp_Disconnect)
            (r ← catchM (onV cRSStatus);
             match r with
             | Err _ => align_template (sx_claimName sx) actual
             | Ok rsStatus =>
                 if forallb healthy_member (St_Members rsStatus) then k
                 else align_template (sx_claimName sx) actual
             end)
      end
  end.

Definition cluster_ready cr : bool :=
  bool_decide (bc_State cr = AppStateReady)
  || (bool_decide (bc_State cr = AppStateInit) && IsPVCShrinkInProgress cr).

Definition shrinkPreflight (sx : shrinkContext) (requested actual : Z) : M unit :=
  let revertVCT := align_template (sx_claimName sx) actual in
  cr ← getCR;
  sts ← getSts;
  if negb (cluster_ready cr) then revertVCT
  else
    isBackup ← wrapM "check active backups" (onV (isBackupRunning cr));
    if isBackup : bool then revertVCT
    else
      isRestore ← wrapM "check active restores" (onV (isRestoreRunning cr));
      if isRestore : bool then revertVCT
      else
        hasActiveJobs ← wrapM "check active backup jobs" (onV (HasActiveJobs cr zeroJob NotPITRLock));
        if hasActiveJobs : bool then revertVCT
        else if match sx_names_primary sx with Some rs => (rs_Size rs =? 1)%Z | None => false end then
          wrapM ("revert volume template for sts/" +:+ sts_Name sts) (revertVolumeTemplate sts actual);;
          throw (ENew ("PVC shrink rejected for " +:+ sts_Name (sts : VolStatefulSet)
                       +:+ ": single-member replica set has no sync source"))
        else
          pods ← wrapM "list pods for disk check"
            (onV (k8s_list_pods (cr_Namespace cr) (SelectorFromSet (sx_ls sx))));
          fits ← usage_fits sx sts requested actual pods;
          if negb fits then mret tt
          else shrink_healthy sx actual (shrink_start sx sts requested actual pods).

(** ** Shrinking volumes: the pods *)
Definition IgnoreDeleted (msg : string) (m : M unit) : M unit :=
  r ← tryM m;
  match r with
  | Ok _ => mret tt
  | Err e => if IsNotFound e then mret tt else throw (EWrap e msg)
  end.

(** A pod belongs to the phase. *)
Definition in_phase (isPrimaryPhase : bool) (primaryPod name : string) : bool :=
  Bool.eqb (bool_decide (name = primaryPod)) isPrimaryPhase.
Definition to_process (isPrimaryPhase : bool) (state : PVCShrinkState) (name : string) : bool :=
  in_phase isPrimaryPhase (shr_PrimaryPod state) name
  && negb (bool_decide (name ∈ shr_ProcessedPods state)).

(** The state after all pods of the phase were found processed, or none when
    the handler returned before. *)
Fixpoint process_pods (sx : shrinkContext) (isPrimaryPhase : bool) (targetSize : Z)
    (pvcByPod : gmap string PersistentVolumeClaim) (state : PVCShrinkState) (pods : list Pod)
    : M (option PVCShrinkState) :=
  match pods with
  | [] => mret (Some state)
  | pod :: pods' =>
      if negb (to_process isPrimaryPhase state (pod_Name pod))
      then process_pods sx isPrimaryPhase targetSize pvcByPod state pods'
      else
        match pvcByPod !! pod_Name pod with
        | None => mret None
        | Some pvc =>
            if (targetSize <? storage_of (pvc_Requests pvc))%Z then
              IgnoreDeleted ("delete PVC " +:+ pvc_Name pvc) (onV (pvc_delete pvc));;
              IgnoreDeleted ("delete pod " +:+ pod_Name pod) (onV (pod_delete pod));;
              mret None
            else if negb (isPodReady pod) then mret None
            else
              let processed := process_pods sx isPrimaryPhase targetSize pvcByPod
                                 (add_Processed (pod_Name pod) state) pods' in
              match sx_names_primary sx with
              | None => processed
              | Some replset =>
                  cr ← getCR;
                  r ← catchM (onV (isPodPrimary (cr : VolCluster) pod replset));
                  match r with
                  | Err _ => mret None
                  | Ok false => processed
                  | Ok true =>
                      (if isPrimaryPhase then mret tt
                       else sts ← getSts;
                            setCR (SetPVCShrinkState (sts_Name (sts : VolStatefulSet))
                                     (with_PrimaryPod (pod_Name pod) state)));;
                      mret None
                  end
              end
        end
  end.

Definition claim_by_pod (claimName : string) sts pvc : option (string * PersistentVolumeClaim) :=
  if validatePVCName claimName pvc sts then Some (claim_pod claimName pvc, pvc) else None.

(** A pod that should exist and does not *)
Definition missing_pod (isPrimaryPhase : bool) (state : PVCShrinkState) sts (replicas : Z) (pods : list Pod) : bool :=
  existsb (λ i, let name := sts_Name sts +:+ "-" +:+ itoa (Z.of_nat i) in
                to_process isPrimaryPhase state name && negb (bool_decide (name ∈ (pod_Name <$> pods))))
    (seq 0 (Z.to_nat replicas)).

Definition sts_replicas (sx : shrinkContext) sts : option Z :=
  match sts_SpecReplicas sts with
  | Some n => Some n
  | None => rs_Size <$> sx_names_primary sx
  end.

Definition shrinkProcessPods (sx : shrinkContext) (state : PVCShrinkState) (isPrimaryPhase : bool) : M unit :=
  cr ← getCR;
  sts ← getSts;
  isBackup ← wrapM "check active backups" (onV (isBackupRunning cr));
  if isBackup : bool then mret tt
  else
    isRestore ← wrapM "check active restores" (onV (isRestoreRunning (cr : VolCluster)));
    if isRestore : bool then mret tt
    else
      match ParseQuantity (shr_TargetSize state) with
      | None => throw (ENew "panic: cannot parse the quantity")
      | Some targetSize =>
          podList ← wrapM "list pods" (onV (k8s_list_pods (cr_Namespace cr) (SelectorFromSet (sx_ls sx))));
          let pods := sortPodsByOrdinal Z.gtb podList in
          pvcs ← wrapM "list pvcs" (onV (pvc_list (cr_Namespace (cr : VolCluster)) (sx_ls sx)));
          let pvcByPod := go_map_of (claim_by_pod (sx_claimName sx) sts) pvcs in
          match sts_replicas sx sts with
          | None => mret tt
          | Some replicas =>
              if missing_pod isPrimaryPhase state sts replicas pods then mret tt
              else
                done ← process_pods sx isPrimaryPhase targetSize pvcByPod state pods;
                match done with
                | None => mret tt
                | Some state =>
                    if isPrimaryPhase then setCR (ClearPVCShrinkState (sts_Name sts))
                    else setCR (SetPVCShrinkState (sts_Name sts) (with_Phase phase_stepdown state))
                end
          end
      end.

Definition shrinkStepdown (sx : shrinkContext) (state : PVCShrinkState) : M unit :=
  cr ← getCR;
  sts ← getSts;
  let advance := setCR (SetPVCShrinkState (sts_Name (sts : VolStatefulSet)) (with_Phase phase_primary state)) in
  if negb (sx_needsStepdown sx) || bool_decide (shr_PrimaryPod state = "") then advance
  else
    r ← tryM (onV (pod_get (cr_Namespace (cr : VolCluster)) (shr_PrimaryPod state)));
    match r with
    | Err e => if IsNotFound e then advance
               else throw (EWrap e ("get primary pod " +:+ shr_PrimaryPod state))
    | Ok pod =>
        match sx_replset sx with
        | None => throw nil_panic
        | Some replset =>
            r ← catchM (onV (isPodPrimary cr pod replset));
            match r with
            | Err _ => mret tt
            | Ok isPrimary =>
                (if isPrimary : bool
                 then wrapM "step down primary for PVC shrink" (onV (stepDownPod (cr : VolCluster) replset pod 60))
                 else mret tt);;
                advance
            end
        end
    end.

Definition shrink_context cr sts (ls : gmap string string) (claimName : string) (key : claim_key)
    : result shrinkContext :=
  component ← sts_set_label LabelComponent sts "missing component label";
  let replsetName := default "" (sts_Labels sts !! LabelReplset) in
  Ok {| sx_ls := ls; sx_claimName := claimName; sx_claim := key; sx_component := component;
        sx_replset := if bool_decide (replsetName = "") then None else Replset cr replsetName;
        sx_isRSComponent := negb (bool_decide (component = ComponentMongos));
        sx_needsStepdown := bool_decide (component = ComponentMongod)
                            || bool_decide (component = ComponentConfigSrv) |}.

Definition zeroShrinkState : PVCShrinkState :=
  {| shr_TargetSize := ""; shr_StartedAt := ""; shr_Phase := ""; shr_ProcessedPods := []; shr_PrimaryPod := "" |}.

Definition shrinkVolumesIfNeeded (ls : gmap string string) (claimName : string) (key : claim_key)
    (state : PVCShrinkState) : M unit :=
  cr ← getCR;
  sts ← getSts;
  sx ← liftR (shrink_context cr sts ls claimName key);
  if bool_decide (shr_Phase state = "") then
    pvcs ← wrapM "list pvcs for shrink" (onV (pvc_list (cr_Namespace (cr : VolCluster)) ls));
    if isPVCExpansionInProgress pvcs claimName (sts : VolStatefulSet) then mret tt
    else
      let actual := maxPVCCapacity pvcs claimName sts in
      requested ← spec_request key;
      shrinkPreflight sx requested actual
  else if bool_decide (shr_Phase state = phase_secondaries) then shrinkProcessPods sx state false
  else if bool_decide (shr_Phase state = phase_stepdown) then shrinkStepdown sx state
  else if bool_decide (shr_Phase state = phase_primary) then shrinkProcessPods sx state true
  else throw (ENew ("unknown shrink phase: " +:+ shr_Phase state)).

(** ** The entry points *)

(** What is done about the claims once no shrink is in progress: [sts] is the
    stateful set in the API server. *)
Definition resize_claims (ls : gmap string string) (claimName : string) (key : claim_key)
    sts (actual : Z) (pvcsToUpdate : list PersistentVolumeClaim) : M unit :=
  cr ← getCR;
  requested ← spec_request key;
  let configured := configured_request claimName sts in
  done ← resize_progress sts requested configured pvcsToUpdate;
  if done : bool then mret tt
  else
    let resize :=
      if (0 <=? CompareVersion (cr : VolCluster) "1.18.0")%Z && negb (IsVolumeExpansionEnabled cr)
      then write_spec_request key configured
      else start_resize sts requested configured pvcsToUpdate in
    match (requested ?= actual)%Z with
    | Lt =>
        if IsVolumeShrinkEnabled cr then
          r ← tryM (on_copy sts (shrinkVolumesIfNeeded ls claimName key zeroShrinkState));
          align_template claimName actual;;
          liftR r
        else if (configured =? requested)%Z then mret tt
        else if (configured <? requested)%Z then deleteStatefulSetForResize sts
        else
          wrapM ("revert volume template for sts/" +:+ sts_Name sts) (revertVolumeTemplate sts configured);;
          if IsVolumeExpansionEnabled cr
          then throw (ENew ("requested storage (" +:+ quantity_String requested
                            +:+ ") is less than actual storage (" +:+ quantity_String actual +:+ ")"))
          else resize
    | Eq => if (configured =? requested)%Z then mret tt else deleteStatefulSetForResize sts
    | Gt => resize
    end.

Definition resizeVolumesIfNeeded (ls : gmap string string) (claimName : string) (key : claim_key) : M unit :=
  cr ← getCR;
  sts ← getSts;
  if IsExternalVolumeAutoscalingEnabled cr then mret tt
  else
    match GetPVCShrinkState (sts_Name (sts : VolStatefulSet)) cr with
    | Some state => shrinkVolumesIfNeeded ls claimName key state
    | None =>
        pvcs ← wrapM "list PVCs" (onV (pvc_list (vs_Namespace sts) ls));
        if bool_decide (pvcs = []) then mret tt
        else
          pods ← wrapM "list pods" (onV (k8s_list_pods (cr_Namespace (cr : VolCluster)) (SelectorFromSet ls)));
          let pvcsToUpdate := filter (λ pvc, to_update claimName sts (pod_Name <$> pods) pvc = true) pvcs in
          let actual := minPVCCapacity pvcs claimName sts in
          if (actual =? 0)%Z then mret tt
          else
            r ← tryM (onV (vsts_get (vs_Namespace sts) (sts_Name sts)));
            match r with
            | Err e => if IsNotFound e then mret tt
                       else throw (EWrap e ("get statefulset " +:+ vs_Namespace sts +:+ "/" +:+ sts_Name sts))
            | Ok current => resize_claims ls claimName key current actual pvcsToUpdate
            end
    end.

(** The labels and annotations of the specification go to the claims; an error
    of the server is only logged. *)
Definition fixed_claim (pvcSpec : PVCSpec) sts pvc : PersistentVolumeClaim :=
  with_pvc_Meta (sts_Labels sts ∪ (ps_Labels pvcSpec ∪ pvc_Labels pvc))
    (ps_Annotations pvcSpec ∪ pvc_Annotations pvc) pvc.
Definition fix_claim (pvcSpec : PVCSpec) sts pvc : M unit :=
  let pvc' := fixed_claim pvcSpec sts pvc in
  if MapEqual (pvc_Labels pvc) (pvc_Labels pvc') && MapEqual (pvc_Annotations pvc) (pvc_Annotations pvc')
  then mret tt
  else _ ← tryM (onV (pvc_patch pvc pvc')); mret tt.
Definition fixVolumeLabels (ls : gmap string string) (pvcSpec : PVCSpec) : M unit :=
  sts ← getSts;
  pvcs ← wrapM "list PVCs" (onV (pvc_list (vs_Namespace (sts : VolStatefulSet)) ls));
  mapM_list (fix_claim pvcSpec sts) pvcs.

Definition reconcilePVCs (ls : gmap string string) (key : claim_key) : M unit :=
  cr ← getCR;
  match vc_Claims (cr : VolCluster) !! key with
  | None => throw nil_panic
  | Some pvcSpec =>
      wrapM "fix volume labels" (fixVolumeLabels ls pvcSpec);;
      wrapM "resize volumes if needed" (resizeVolumesIfNeeded ls MongodDataVolClaimName key)
  end.

(** ** volume_autoscaling.go *)
Definition volumeMount sts (claimName : string) : option (string * string) :=
  head (omap (λ c, (λ m, (c.1, m.2)) <$> head (filter (λ m, m.1 = claimName) c.2)) (vs_Mounts sts)).

Definition shouldTriggerResize (config : Defaults.AutoscalingSpec) pvc (usage : PVCUsage) : bool :=
  (Defaults.as_TriggerThresholdPercent config <=? pu_UsagePercent usage)%Z
  && ((Defaults.as_MaxSize config =? 0)%Z
      || (storage_of (pvc_Capacity pvc) <? Defaults.as_MaxSize config)%Z)
  && negb (existsb resize_condition (pvc_Conditions pvc)).

(** In bytes, as a quantity *)
Definition calculateNewSize (config : Defaults.AutoscalingSpec) pvc : Z :=
  let newSize := (wrap64 (Value (storage_of (pvc_Capacity pvc)) + Value (Defaults.as_GrowthStep config))
                  * 1000000000)%Z in
  if negb (Defaults.as_MaxSize config =? 0)%Z && (Defaults.as_MaxSize config <? newSize)%Z
  then Defaults.as_MaxSize config else newSize.

Definition updated_status (usage : option PVCUsage) (err : option error) (now : time)
    (status : StorageAutoscalingStatus) : StorageAutoscalingStatus :=
  let status :=
    match usage with
    | None => status
    | Some u =>
        let newSize := (pu_TotalBytes u * 1000000000)%Z in
        let grown := negb (bool_decide (sas_CurrentSize status = "")) &&
          match ParseQuantity (sas_CurrentSize status) with
          | Some oldSize => (oldSize <? newSize)%Z
          | None => false
          end in
        {| sas_CurrentSize := quantity_String newSize;
           sas_LastResizeTime := if grown then Some now else sas_LastResizeTime status;
           sas_ResizeCount := if grown then wrap32 (sas_ResizeCount status + 1) else sas_ResizeCount status;
           sas_LastError := "" |}
    end in
  match err with
  | Some e => {| sas_CurrentSize := sas_CurrentSize status; sas_LastResizeTime := sas_LastResizeTime status;
                 sas_ResizeCount := sas_ResizeCount status; sas_LastError := err_string e |}
  | None => status
  end.
Definition updateAutoscalingStatus (pvcName : string) (usage : option PVCUsage) (err : option error) : M unit :=
  if bool_decide (pvcName = "") then mret tt
  else
    now ← onV go_now;
    setCR (with_autoscaling (λ m, <[pvcName := updated_status usage err now
                                                 (default zeroAutoscalingStatus (m !! pvcName))]> m)).

(** The request is set back when the server refuses it. *)
Definition triggerResize (newSize : Z) (key : claim_key) : M unit :=
  orig ← getCR;
  write_spec_request key newSize;;
  cr ← getCR;
  r ← tryM (onV (vcr_patch orig cr));
  match r with
  | Ok _ => mret tt
  | Err e => setCR (with_claims (λ _, vc_Claims orig));;
             throw (EWrap e "patch CR with new storage size")
  end.

Definition checkAndResizePVC (config : Defaults.AutoscalingSpec) pvc pod (key : claim_key)
    (container mountPath : string) : M unit :=
  if negb (isContainerAndPodRunning pod container) then mret tt
  else
    usage ← wrapM "get PVC usage from metrics"
      (onV (getPVCUsageFromMetrics pod (pvc_Name pvc) container mountPath));
    updateAutoscalingStatus (pvc_Name pvc) (Some usage) None;;
    if negb (shouldTriggerResize config pvc usage) then mret tt
    else
      let newSize := calculateNewSize config pvc in
      requests ← spec_requests key;
      if match requests !! ResourceStorage with Some requested => (newSize <=? requested)%Z | None => false end
      then mret tt
      else triggerResize newSize key.

Fixpoint autoscale_claims (config : Defaults.AutoscalingSpec) (claimName : string) (key : claim_key) sts
    (container mountPath : string) (pods : list Pod) (pvcs : list PersistentVolumeClaim) : M unit :=
  match pvcs with
  | [] => mret tt
  | pvc :: pvcs' =>
      (if negb (validatePVCName claimName pvc sts) then mret tt
       else
         (* validatePVCName makes CutPrefix succeed *)
         match head (filter (λ p, pod_Name p = claim_pod claimName pvc) pods) with
         | None => mret tt
         | Some pod =>
             r ← catchM (checkAndResizePVC config pvc pod key container mountPath);
             match r with
             | Ok _ => mret tt
             | Err e => updateAutoscalingStatus (pvc_Name pvc) None (Some e)
             end
         end);;
      autoscale_claims config claimName key sts container mountPath pods pvcs'
  end.

Definition reconcileStorageAutoscaling (claimName : string) (key : claim_key) (ls : gmap string string) : M unit :=
  cr ← getCR;
  sts ← getSts;
  match StorageAutoscaling cr with
  | None => mret tt
  | Some config =>
      if negb (Defaults.as_Enabled config) || IsExternalVolumeAutoscalingEnabled cr
         || negb (IsVolumeExpansionEnabled cr)
         || bool_decide (vc_Claims cr !! key ≫= ps_Requests = None)
         || bool_decide (is_Some (sts_Annotations (sts : VolStatefulSet) !! AnnotationPVCResizeInProgress))
         || bool_decide (is_Some (GetPVCShrinkState (sts_Name sts) cr))
      then mret tt
      else
        match volumeMount sts claimName with
        | None => mret tt
        | Some (container, mountPath) =>
            pvcs ← wrapM "list PVCs for autoscaling" (onV (pvc_list (cr_Namespace cr) ls));
            pods ← wrapM "list pods for autoscaling"
              (onV (k8s_list_pods (cr_Namespace cr) (SelectorFromSet ls)));
            autoscale_claims config claimName key sts container mountPath pods pvcs
        end
  end.
End volumes.
