(* ===== verification/SmartTrace.v ===== *)
(** What the smart update does to the pods, as a trace: at most one pod is down
    at a time, the primary goes last and only after it stepped down, and nothing
    is touched while a backup runs. *)
From S2P Require Import Prelude Trace KubeTrace ReplsetModels MongoClient Api GoSort Kube Hosts SystemUsers Cluster.
From S2P Require Import ReplsetMembers ReplsetReconcile BackupApi BackupSchedule Lease BackupExec BackupController SmartUpdate.
From S2P Require Volumes.

Inductive event :=
| Deleted (p : Pod)                       (* a deletion, tried *)
| Got (p : Pod)                           (* a pod, read *)
| Patched (p : Pod)                       (* a pod as the server has it after a patch or a resize *)
| Asked (host : string) (primary : bool)  (* the answer to isMaster *)
| SteppedDown (force ok : bool)
| Balancer (on : bool)                    (* started or stopped, tried *)
| Backups (l : list PerconaServerMongoDBBackup)
| Restores (l : list PerconaServerMongoDBRestore)
| Restoring (l : list RestoreSummary)     (* the same, for isRestoreRunning *)
| PbmLocks (l : list Lock)                (* PBM's locks, read *)
| PbmOpLocks (l : list Lock)
| NoPbm                                   (* PBM is not there: no document in its database *)
| Claims (l : list Volumes.PersistentVolumeClaim)
| ClaimWritten (c : Volumes.PersistentVolumeClaim)    (* an update, tried *)
| ClaimDeleted (c : Volumes.PersistentVolumeClaim)    (* a deletion, tried *)
| StsDeleted (name : string).             (* without its pods, tried *)

Section traced.
Context {W : Type}.
Abbreviation T := (list event * W)%type.

(** A client connected to one host, or to the replica set as a whole. *)
Definition traced_client (host : string) (C : Client W) : Client T := {|
  cSetDefaultRWConcern := λ a b c, quietly (cSetDefaultRWConcern a b c);
  cReadConfig := quietly cReadConfig;
  cCreateRole := λ a b, quietly (cCreateRole a b);
  cUpdateRole := λ a b, quietly (cUpdateRole a b);
  cGetRole := λ a b, quietly (cGetRole a b);
  cCreateUser := λ a b c d, quietly (cCreateUser a b c d);
  cAddShard := λ a b, quietly (cAddShard a b);
  cWriteConfig := λ c f, quietly (cWriteConfig c f);
  cRSStatus := quietly cRSStatus;
  cStartBalancer := recorded (λ _, [Balancer true]) cStartBalancer;
  cStopBalancer := recorded (λ _, [Balancer false]) cStopBalancer;
  cIsBalancerRunning := quietly cIsBalancerRunning;
  cGetFCV := quietly cGetFCV;
  cSetFCV := λ a, quietly (cSetFCV a);
  cListDBs := quietly cListDBs;
  cListShard := quietly cListShard;
  cRemoveShard := λ a, quietly (cRemoveShard a);
  cRSBuildInfo := quietly cRSBuildInfo;
  cStepDown := λ a f, recorded (λ r, [SteppedDown f (is_ok r)]) (cStepDown a f);
  cFreeze := λ a, quietly (cFreeze a);
  cIsMaster := recorded (λ r, match r with Ok m => [Asked host (IsMaster m)] | Err _ => [] end) cIsMaster;
  cGetUserInfo := λ a b, quietly (cGetUserInfo a b);
  cUpdateUserRoles := λ a b c, quietly (cUpdateUserRoles a b c);
  cUpdateUserPass := λ a b c, quietly (cUpdateUserPass a b c);
  cUpdateUser := λ a b c, quietly (cUpdateUser a b c);
  cRunCommand := λ a b, quietly (cRunCommand a b)
|}.
Definition connected (host : string) (m : GoM W (Client W)) : GoM T (Client T) :=
  C ← quietly m; mret (traced_client host C).

Context {P : MongoClientProvider W} {Q : PodClient W} {E : ClusterEnv W} {KB : BackupClient W}.
Context {PB : PBM W} {SU : StatusUpdater W} {CC : ClusterClient W}.

#[export] Instance traced_provider : MongoClientProvider T := {|
  mp_Mongo := λ a b c d, connected "" (mp_Mongo a b c d);
  mp_Mongos := λ a b, connected "" (mp_Mongos a b);
  mp_Standalone := λ a b h d, connected h (mp_Standalone a b h d);
  mp_Disconnect := quietly mp_Disconnect
|}.
Definition on_pod (f : Pod → event) (r : result Pod) : list event :=
  match r with Ok p => [f p] | Err _ => [] end.
#[export] Instance traced_pods : PodClient T := {|
  pod_get := λ a b, recorded (on_pod Got) (pod_get a b);
  pod_delete := λ p, recorded (λ _, [Deleted p]) (pod_delete p);
  pod_patch := λ o p, recorded (on_pod Patched) (pod_patch o p);
  pod_resize := λ o p, recorded (on_pod Patched) (pod_resize o p);
  revision_template := λ a b, quietly (revision_template a b);
  poll_tick := quietly poll_tick;
  ctx_err := quietly ctx_err
|}.
(** No list at all is an empty one. *)
Definition on_list {A} (f : list A → event) (r : result (list A)) : list event :=
  match r with Ok l => [f l] | Err e => if IsNotFound e then [f []] else [] end.
#[export] Instance traced_cluster_env : ClusterEnv T := {|
  ce_exec := λ a b c d, quietly (ce_exec a b c d);
  ce_now := quietly ce_now;
  ce_list_restores := λ a, recorded (on_list Restoring) (ce_list_restores a)
|}.
#[export] Instance traced_backup_api : BackupClient T := {|
  api_get_cluster := λ a b, quietly (api_get_cluster a b);
  api_read_cluster := λ a b, quietly (api_read_cluster a b);
  api_get_backup := λ a b, quietly (api_get_backup a b);
  api_read_backup := λ a b, quietly (api_read_backup a b);
  api_list_backups := λ a b, recorded (on_list Backups) (api_list_backups a b);
  api_list_restores := λ a, recorded (on_list Restores) (api_list_restores a);
  api_create_backup := λ b, quietly (api_create_backup b);
  api_delete_backup := λ b, quietly (api_delete_backup b);
  api_update_backup_status := λ b, quietly (api_update_backup_status b);
  api_update_backup := λ b, quietly (api_update_backup b);
  api_patch_finalizers := λ b f, quietly (api_patch_finalizers b f);
  go_now := quietly go_now;
  go_stamp := quietly go_stamp
|}.
#[export] Instance watched_PBM : PBM T := {|
  newPBM := λ c, recorded (λ r, match r with Err e => if IsErrNoDocuments e then [NoPbm] else [] | Ok _ => [] end) (newPBM c);
  pbm_Close := quietly pbm_Close;
  pbm_SendCmd := λ c, quietly (pbm_SendCmd c);
  pbm_GetBackupMeta := λ n, quietly (pbm_GetBackupMeta n);
  pbm_Node := quietly pbm_Node;
  pbm_FinishBackup := λ n, quietly (pbm_FinishBackup n);
  pbm_CancelBackup := λ n, quietly (pbm_CancelBackup n);
  pbm_DeleteBackup := λ n, quietly (pbm_DeleteBackup n);
  pbm_DeleteBackupMeta := λ n, quietly (pbm_DeleteBackupMeta n);
  pbm_DeletePITRChunks := λ u, quietly (pbm_DeletePITRChunks u);
  pbm_GetNSetConfigLegacy := λ c s, quietly (pbm_GetNSetConfigLegacy c s);
  pbm_GetLocks := recorded (λ r, match r with Ok l => [PbmLocks l] | Err _ => [] end) pbm_GetLocks;
  pbm_GetOpLocks := recorded (λ r, match r with Ok l => [PbmOpLocks l] | Err _ => [] end) pbm_GetOpLocks;
  pbm_ClusterTime := quietly pbm_ClusterTime;
  pbm_StaleFrameSec := pbm_StaleFrameSec;
  pbm_PrettySize := pbm_PrettySize
|}.
#[export] Instance quiet_status : StatusUpdater T := λ cr e s, quietly (update_status cr e s).
#[export] Instance quiet_cluster_client : ClusterClient T := {|
  cr_get := λ a b, quietly (cr_get a b);
  cr_update := λ c, quietly (cr_update c)
|}.
End traced.

(** Documented behaviour of the API server: a read by name, and a patch, return
    the object of that name. *)
Class PodClientLaws {W} (Q : PodClient W) := {
  pod_get_named ns n w p w' : pod_get ns n w = (Ok p, w') → pod_Name p = n ∧ pod_Namespace p = ns;
  pod_patch_named o p w q w' : pod_patch o p w = (Ok q, w') → pod_Name q = pod_Name p ∧ pod_Namespace q = pod_Namespace p;
  pod_resize_named o p w q w' : pod_resize o p w = (Ok q, w') → pod_Name q = pod_Name p ∧ pod_Namespace q = pod_Namespace p
}.

(** * One pod at a time *)
Definition same_pod (p q : Pod) : Prop := pod_Name p = pod_Name q ∧ pod_Namespace p = pod_Namespace q.
Definition disruptive (e : event) : bool :=
  match e with Deleted _ | SteppedDown _ _ => true | _ => false end.

(** Between two points of the trace the pod, which ran another revision, was seen
    running its new one, ready. *)
Definition back (p : Pod) (d : list event) (i j : nat) : Prop :=
  ∃ k q rev, i < k < j ∧ d !! k = Some (Got q) ∧
    same_pod q p ∧ pod_started rev q = true ∧ pod_revision p ≠ rev.
(** Every deleted pod is back before anything else is disrupted. *)
Definition orderly (d : list event) : Prop :=
  ∀ i j p e, d !! i = Some (Deleted p) → i < j → d !! j = Some e → disruptive e = true → back p d i j.
(** Every deleted pod is back. *)
Definition settled (d : list event) : Prop := ∀ i p, d !! i = Some (Deleted p) → back p d i (length d).
Definition careful (ok : bool) (d : list event) : Prop := orderly d ∧ (ok = true → settled d).

Lemma back_app_l p d1 d2 i j : back p d1 i j → back p (d1 ++ d2) i j.
Proof.
  intros (k & q & rev & Hk & Hq & H). exists k, q, rev. split; [done|]. split; [|done].
  by apply lookup_app_l_Some.
Qed.
Lemma back_app_r p d1 d2 i j : back p d2 i j → back p (d1 ++ d2) (length d1 + i) (length d1 + j).
Proof.
  intros (k & q & rev & Hk & Hq & H). exists (length d1 + k), q, rev. split; [lia|]. split; [|done].
  rewrite lookup_app_r by lia. by replace (length d1 + k - length d1) with k by lia.
Qed.
Lemma back_weaken p d i j j' : back p d i j → j ≤ j' → back p d i j'.
Proof. intros (k & q & rev & Hk & H) Hj. exists k, q, rev. split; [lia|done]. Qed.

Lemma settled_app d1 d2 : settled d1 → settled d2 → settled (d1 ++ d2).
Proof.
  intros H1 H2 i p Hi. rewrite length_app. apply lookup_app_Some in Hi as [Hi|[Hl Hi]].
  - apply back_weaken with (length d1); [|lia]. by apply back_app_l, H1.
  - specialize (H2 _ _ Hi). apply (back_app_r p d1) in H2.
    by replace (length d1 + (i - length d1)) with i in H2 by lia.
Qed.
Lemma orderly_app d1 d2 : orderly d1 → settled d1 → orderly d2 → orderly (d1 ++ d2).
Proof.
  intros H1 Hs H2 i j p e Hi Hij Hj He. apply lookup_app_Some in Hi as [Hi|[Hl Hi]].
  - apply lookup_app_Some in Hj as [Hj|[Hl Hj]]; [by eapply back_app_l, H1|].
    apply back_weaken with (length d1); [|lia]. by apply back_app_l, Hs.
  - rewrite lookup_app_r in Hj by lia. pose proof (H2 _ (j - length d1) _ _ Hi ltac:(lia) Hj He) as Hb.
    apply (back_app_r p d1) in Hb.
    by replace (length d1 + (i - length d1)) with i in Hb by lia;
       replace (length d1 + (j - length d1)) with j in Hb by lia.
Qed.
Lemma careful_app ok d1 d2 : careful true d1 → careful ok d2 → careful ok (d1 ++ d2).
Proof.
  intros [H1 S1] [H2 S2]. split; [apply orderly_app; auto|]. intros Ho. apply settled_app; auto.
Qed.
Lemma careful_calm ok d : Forall (λ e, match e with Deleted _ => False | _ => True end) d → careful ok d.
Proof.
  intros Hd. split; [intros i j p e Hi|intros _ i p Hi]; by apply (Forall_lookup_1 _ _ _ _ Hd) in Hi.
Qed.

(** * What happens to one pod *)
#[export] Instance same_pod_equiv : Equivalence same_pod.
Proof.
  unfold same_pod. split; [by intros ?|by intros ?? [??]|intros ??? [??] [??]; split; congruence].
Qed.

(** The pod runs the revision: as it was, or as it was seen since. *)
Definition seen (p : Pod) (rev : string) (d : list event) : Prop :=
  ∃ q, same_pod q p ∧ pod_started rev q = true ∧ (q = p ∨ Got q ∈ d ∨ Patched q ∈ d).
Lemma seen_app_r p rev d1 d2 : seen p rev d2 → seen p rev (d1 ++ d2).
Proof. intros (q & Hp & Hs & Hq). exists q. set_solver. Qed.
Lemma seen_app_l p rev d1 d2 : seen p rev d1 → seen p rev (d1 ++ d2).
Proof. intros (q & Hp & Hs & Hq). exists q. set_solver. Qed.
Lemma seen_same p q rev d : same_pod q p → seen q rev d → (pod_revision q ≠ rev ∨ Got q ∈ d ∨ Patched q ∈ d) → seen p rev d.
Proof.
  intros Hp (x & Hx & Hs & Hd) Hq. exists x. split; [by transitivity q|]. split; [done|].
  destruct Hd as [->|Hd]; [|auto]. destruct Hq as [Hne|Hq]; [|auto]. exfalso. unfold pod_started in Hs.
  apply andb_prop in Hs as [[_ E]%andb_prop _]. by apply bool_decide_eq_true in E.
Qed.

(** The same, by a read *)
Definition awaited (p : Pod) (rev : string) (d : list event) : Prop :=
  ∃ q, same_pod q p ∧ pod_started rev q = true ∧ (q = p ∨ Got q ∈ d).
Lemma awaited_seen p rev d : awaited p rev d → seen p rev d.
Proof. intros (q & Hp & Hs & Hq). exists q. tauto. Qed.

Definition read_event (p : Pod) (e : event) : Prop :=
  match e with Got q | Patched q => same_pod q p | _ => False end.
Definition pod_event (p : Pod) (e : event) : Prop :=
  match e with Got q | Patched q | Deleted q => same_pod q p | _ => False end.
Lemma read_is_pod_event p d : Forall (read_event p) d → Forall (pod_event p) d.
Proof. intros H. apply (Forall_impl _ _ _ H). by intros []. Qed.
Lemma read_same p q d : same_pod p q → Forall (read_event p) d → Forall (read_event q) d.
Proof. intros Hpq H. apply (Forall_impl _ _ _ H). intros []; cbn; try done; intros; by transitivity p. Qed.
Lemma read_calm p d ok : Forall (read_event p) d → careful ok d.
Proof. intros Hd. apply careful_calm. apply (Forall_impl _ _ _ Hd). by intros []. Qed.

(** A call and what is known of its answer *)
Lemma emits_recorded_ok {W A} (ev : result A → list event) (m : GoM W A) (φ : result A → Prop) :
  (∀ w, φ (m w).1) → emits (recorded ev m) (λ r d, d = ev r ∧ φ r).
Proof.
  intros Hm t w. unfold recorded. cbn. specialize (Hm w). destruct (m w) as [r w']. by exists (ev r).
Qed.

Section pods.
Context {W : Type} {K : K8sClient W} {Q : PodClient W} {QL : PodClientLaws Q} {P : MongoClientProvider W}.
Context {E : ClusterEnv W} {KB : BackupClient W} {PB : PBM W} {SU : StatusUpdater W} {CC : ClusterClient W}.
Context {Y : Yaml} {V : Versions} {KV : KubeVersion} {G : GoSort} {R : GoRetryOn} {RL : GoRetryOnLaws R}.
Abbreviation M := (GoM (list event * W)).
Implicit Types (cr : SmartCluster) (replset : SmartReplset) (pod : Pod) (sfs : StatefulSet).

Lemma emits_pod_get pod :
  emits (pod_get (pod_Namespace pod) (pod_Name pod) : M Pod)
    (λ r d, d = on_pod Got r ∧ ∀ p, r = Ok p → same_pod p pod).
Proof.
  apply (emits_recorded_ok (on_pod Got)). intros w p Hp.
  destruct (pod_get _ _ w) as [r w'] eqn:Eg. cbn in Hp. subst r. by apply pod_get_named in Eg.
Qed.
Lemma emits_pod_patch o pod :
  emits (pod_patch o pod : M Pod) (λ r d, d = on_pod Patched r ∧ ∀ p, r = Ok p → same_pod p pod).
Proof.
  apply (emits_recorded_ok (on_pod Patched)). intros w p Hp.
  destruct (pod_patch _ _ w) as [r w'] eqn:Eg. cbn in Hp. subst r. by apply pod_patch_named in Eg.
Qed.
Lemma emits_pod_resize o pod :
  emits (pod_resize o pod : M Pod) (λ r d, d = on_pod Patched r ∧ ∀ p, r = Ok p → same_pod p pod).
Proof.
  apply (emits_recorded_ok (on_pod Patched)). intros w p Hp.
  destruct (pod_resize _ _ w) as [r w'] eqn:Eg. cbn in Hp. subst r. by apply pod_resize_named in Eg.
Qed.

Lemma quiet_update_status cr e s : quiet (update_status cr e s : M unit).
Proof. apply quiet_quietly. Qed.

Lemma wait_rounds_emits n cr rev pod :
  emits (wait_rounds n cr rev pod : M unit)
    (λ r d, Forall (read_event pod) d ∧ (is_ok r = true → awaited pod rev d)).
Proof.
  revert pod; induction n as [|n IH]; intros pod; cbn [wait_rounds]; [by apply emits_throw|].
  apply emits_quiet_bind; [apply quiet_quietly| |by split]. intros [e|]; [by apply emits_throw|].
  eapply emits_bind with (Q1 := λ r d, Forall (read_event pod) d ∧
    match r with Ok (Ok p) => same_pod p pod ∧ Got p ∈ d | Ok (Err _) => d = [] | Err _ => True end).
  - apply emits_try. eapply emits_conseq; [apply emits_pod_get|]. intros [p|e] d (-> & Hp); cbn.
    + specialize (Hp p eq_refl). split; [by apply Forall_singleton|]. split; [done|set_solver].
    + split; [constructor|done].
  - intros r d [Hd Hr].
    eapply emits_bind with (Q1 := λ (x : result Pod) d', d' = [] ∧
      match x with Ok p => same_pod p pod ∧ (Got p ∈ d ∨ p = pod) | Err _ => True end).
    + destruct r as [p|e]; [|case_match].
      * apply emits_ret. split; [done|]. destruct Hr; auto.
      * apply emits_ret. split; [done|]. split; [done|auto].
      * by apply emits_throw.
    + intros p d' [-> [Hp Hg]]. cbn [app]. apply emits_quiet_bind.
      * apply quiet_wrap, quiet_update_status.
      * intros _. destruct (pod_started rev p) eqn:Es.
        -- apply emits_ret. rewrite app_nil_r. split; [done|]. intros _. exists p. set_solver.
        -- eapply emits_conseq; [apply IH|]. intros x dx [Hx Hs]. split.
           ++ apply Forall_app. split; [done|]. by eapply read_same.
           ++ intros Ho. destruct (Hs Ho) as (q & Hq & Hst & Hin). exists q. split; [by transitivity p|].
              split; [done|]. destruct Hin as [->|Hin]; [|set_solver]. congruence.
      * intros e. rewrite app_nil_r. by split.
    + intros e d' [-> _]. rewrite app_nil_r. by split.
  - intros e d [Hd _]. by split.
Qed.

Lemma quiet_planInPlaceResize cr (replset : option SmartReplset) rev pod :
  quiet (planInPlaceResize cr replset rev pod : M _).
Proof. unfold planInPlaceResize. cbv zeta. solve_quiet. Qed.
(** The address [MongoHost] found for a pod *)
Definition hosted cr (rs : ReplsetSpec) pod (h : string) : Prop :=
  ∃ tw : list event * W, (MongoHost cr (cr_DNSMode cr) rs (rs_ExposeEnabled rs) pod tw).1 = Ok h.

Lemma standalone_emits cr (rs : ReplsetSpec) role pod :
  emits (standaloneClientWithRole cr rs role pod : M _) (λ r d, d = [] ∧
    ∀ C, r = Ok C → ∃ h C0, hosted cr rs pod h ∧ C = traced_client h C0).
Proof.
  unfold standaloneClientWithRole.
  eapply emits_bind with (Q1 := λ r d, d = [] ∧ ∀ h, r = Ok h → hosted cr rs pod h).
  - intros t w. destruct (quiet_wrap (Ev := event) "failed to get mongo host" _ (quiet_MongoHost (W := W) cr (cr_DNSMode cr) rs
      (rs_ExposeEnabled rs) pod) t w) as (d & Hd & ->). exists []. split; [done|]. split; [done|].
    intros h. unfold wrapM. intros Hh. exists (t, w). by destruct (MongoHost _ _ _ _ _ _) as [[] ?].
  - intros h d [-> Hh]. specialize (Hh h eq_refl). cbn [app mp_Standalone traced_provider]. unfold connected.
    apply emits_quiet_bind; [apply quiet_quietly| |by split]. intros C. apply emits_ret. split; [done|].
    intros C' [= <-]. by exists h, C.
  - intros e d [-> _]. by split.
Qed.

Lemma isPodPrimary_emits cr pod (replset : ReplsetSpec) :
  emits (isPodPrimary cr pod replset : M bool) (λ r d,
    match r with Ok b => ∃ h, hosted cr replset pod h ∧ d = [Asked h b] | Err _ => d = [] end).
Proof.
  unfold isPodPrimary. eapply emits_wrap_bind; [apply standalone_emits| |].
  - intros C d [-> HC]. destruct (HC C eq_refl) as (h & C0 & Hh & ->). cbn [app].
    apply emits_defer; [apply quiet_quietly|].
    eapply emits_bind with (Q1 := λ r d, match r with Ok m => d = [Asked h (IsMaster m)] | Err _ => d = [] end).
    + apply emits_wrap. eapply emits_conseq; [apply emits_recorded|]. by intros [m|e] d ->.
    + intros m d ->. apply emits_ret. by exists h.
    + by intros e d ->.
  - by intros e d [-> _].
Qed.

Lemma quiet_setPodCacheSize cr (rs : ReplsetSpec) pod gb : quiet (setPodCacheSize cr rs pod gb : M _).
Proof.
  unfold setPodCacheSize. eapply emits_wrap_bind; [apply standalone_emits| |].
  - intros C d [-> HC]. destruct (HC C eq_refl) as (h & C0 & _ & ->). cbn [app].
    apply quiet_defer; [apply quiet_quietly|]. unfold SetWiredTigerCacheSize. cbv zeta.
    apply quiet_bind; [apply quiet_quietly|]. intros res. solve_quiet.
  - by intros e d [-> _].
Qed.

(** What is held of a pod after calls that may have read it again *)
Definition current pod (d : list event) (p : Pod) : Prop :=
  same_pod p pod ∧ (pod_revision p = pod_revision pod ∨ Got p ∈ d ∨ Patched p ∈ d).
Lemma current_self pod d : current pod d pod.
Proof. split; [done|by left]. Qed.
Lemma current_got pod p q d1 d2 :
  current pod d1 p → same_pod q p → q = p ∨ Got q ∈ d2 → current pod (d1 ++ d2) q.
Proof.
  intros [Hp H1] Hq Hd. split; [by transitivity p|]. rewrite !elem_of_app. naive_solver.
Qed.

Lemma resizePod_emits pod plan :
  emits (resizePod pod plan : M _) (λ r d, Forall (read_event pod) d ∧
    ∀ p e, r = Ok (p, e) → current pod d p).
Proof.
  unfold resizePod. destruct (findContainer _ _); [|by apply emits_throw].
  destruct (resourcesApplied _ _).
  { apply emits_ret. split; [done|]. intros p e [= <- <-]. split; [done|by left]. }
  cbv zeta. eapply emits_bind with (Q1 := λ r d, Forall (read_event pod) d ∧
    match r with Ok (Ok p) => current pod d p | Ok (Err _) => True | Err _ => False end).
  - apply emits_try. eapply emits_conseq; [apply emits_pod_resize|]. intros [p|e] d [-> Hp]; cbn; [|done].
    specialize (Hp p eq_refl). split; [by apply Forall_singleton|]. split; [done|]. set_solver.
  - intros [p|e] d [Hd Hp]; apply emits_ret; rewrite app_nil_r; (split; [done|]); intros q e' [= <- <-]; [done|].
    split; [done|by left].
  - by intros e d [_ []].
Qed.
Lemma quiet_resize_gave_up pod : emits (resize_gave_up pod : M _) (λ r d, d = [] ∧ ∀ b p, r = Ok (b, p) → p = pod).
Proof.
  unfold resize_gave_up. apply emits_quiet_bind; [apply quiet_quietly| |by split]. intros [e|].
  - by apply emits_throw.
  - apply emits_ret. split; [done|]. by intros b p [= <- <-].
Qed.
Lemma waitPodResized_emits polls pod plan :
  emits (waitPodResized polls pod plan : M _) (λ r d, Forall (read_event pod) d ∧
    ∀ b p, r = Ok (b, p) → same_pod p pod ∧ (p = pod ∨ Got p ∈ d)).
Proof.
  revert pod; induction polls as [|n IH]; intros pod; cbn [waitPodResized].
  { eapply emits_conseq; [apply quiet_resize_gave_up|]. intros r d [-> Hp]. split; [done|].
    intros b p Hr. rewrite (Hp b p Hr). by split; [|left]. }
  assert (∀ q, same_pod q pod → ∀ d, Forall (read_event pod) d → q = pod ∨ Got q ∈ d →
    emits (resize_gave_up q : M _) (λ r d', Forall (read_event pod) (d ++ d') ∧
      ∀ b p, r = Ok (b, p) → same_pod p pod ∧ (p = pod ∨ Got p ∈ d ++ d'))) as Hgave.
  { intros q Hq d Hd Hin. eapply emits_conseq; [apply quiet_resize_gave_up|]. intros r d' [-> Hp].
    rewrite app_nil_r. split; [done|]. intros b p Hr. by rewrite (Hp b p Hr). }
  apply emits_quiet_bind; [apply quiet_quietly| |done]. intros [| |e]; [|by apply (Hgave pod) with (d := []); [..|left]|by apply emits_throw].
  eapply emits_bind with (Q1 := λ r d, Forall (read_event pod) d ∧
    match r with Ok (Ok p) => same_pod p pod ∧ Got p ∈ d | Ok (Err _) => True | Err _ => False end).
  - apply emits_try. eapply emits_conseq; [apply emits_pod_get|]. intros [p|e] d [-> Hp]; cbn; [|done].
    specialize (Hp p eq_refl). split; [by apply Forall_singleton|]. split; [done|set_solver].
  - intros [p|e] d [Hd Hp]; [|apply (Hgave pod); [done|done|by left]]. destruct Hp as [Hp Hin].
    assert (emits (waitPodResized n p plan : M _) (λ r d', Forall (read_event pod) (d ++ d') ∧
      ∀ b q, r = Ok (b, q) → same_pod q pod ∧ (q = pod ∨ Got q ∈ d ++ d'))) as Hagain.
    { eapply emits_conseq; [apply IH|]. intros r d' [Hd' Hq]. split.
      - apply Forall_app. split; [done|]. by eapply read_same.
      - intros b q Hr. destruct (Hq b q Hr) as [Hs [->|Hg]]; [|split; [by transitivity p|set_solver]].
        split; [done|set_solver]. }
    destruct (resize_conditions false _) as [[|]|e]; [done| |apply (Hgave p); [done|done|by right]].
    destruct (resize_done plan p); [|done]. apply emits_ret. rewrite app_nil_r. split; [done|].
    intros b q [= <- <-]. auto.
  - by intros e d [_ []].
Qed.
Lemma tryInPlaceResize_emits cr (replset : option SmartReplset) rev pod :
  emits (tryInPlaceResize cr replset rev pod : M _) (λ r d, Forall (read_event pod) d ∧
    ∀ b p, r = Ok (b, p) → current pod d p).
Proof.
  unfold tryInPlaceResize. apply emits_quiet_bind; [apply quiet_wrap, quiet_planInPlaceResize| |done].
  assert (∀ (b : bool) d, Forall (read_event pod) d → ∀ p, current pod d p →
    emits (mret (b, p) : M _) (λ r d', Forall (read_event pod) (d ++ d') ∧
      ∀ b p, r = Ok (b, p) → current pod (d ++ d') p)) as Hret.
  { intros b d Hd p Hp. apply emits_ret. rewrite app_nil_r. split; [done|]. by intros ?? [= <- <-]. }
  intros [plan|]; [|apply (Hret false []); [done|apply current_self]]. cbv zeta.
  assert (∀ q, quiet (match replset with
                      | Some rs => setPodCacheSize cr rs q (ip_cacheGB plan)
                      | None => throw nil_panic
                      end : M unit)) as Hcache.
  { intros q. destruct replset; [apply quiet_setPodCacheSize|apply quiet_throw]. }
  apply emits_quiet_bind; [case_bool_decide; [by apply quiet_catch|apply quiet_ret]| |done].
  intros [u|e]; [|apply (Hret false []); [done|apply current_self]].
  eapply emits_bind; [apply resizePod_emits| |by intros e d [Hd _]].
  intros [p1 err] d1 [Hd1 Hp1]. specialize (Hp1 p1 err eq_refl). destruct err as [e|]; [by apply Hret|].
  eapply emits_wrap_bind; [apply waitPodResized_emits| |].
  - intros [resized p2] d2 [Hd2 Hp2]. destruct (Hp2 resized p2 eq_refl) as [Hs2 Hg2].
    assert (current pod (d1 ++ d2) p2) as Hc2 by by eapply current_got.
    assert (Forall (read_event pod) (d1 ++ d2)) as Hd12.
    { apply Forall_app. split; [done|]. eapply read_same; [|done]. by destruct Hp1. }
    destruct resized; cbn [negb].
    2:{ eapply emits_conseq; [by apply Hret|]. intros r d'. by rewrite !app_assoc. }
    apply emits_quiet_bind.
    + case_bool_decide; [|apply quiet_ret]. apply quiet_bind; [by apply quiet_catch|]. intros; apply quiet_ret.
    + intros _. eapply emits_wrap_bind; [apply emits_pod_patch| |].
      * intros p3 d3 [-> Hp3]. specialize (Hp3 p3 eq_refl). apply emits_ret. rewrite !app_assoc, app_nil_r. cbn.
        assert (same_pod p3 pod) as Hs3. { transitivity p2; [done|]. by destruct Hc2. }
        split; [apply Forall_app; split; [done|by apply Forall_singleton]|]. intros b p [= <- <-].
        split; [done|]. set_solver.
      * intros e d [-> _]. rewrite !app_assoc, app_nil_r. by split.
    + intros e. rewrite app_nil_r. by split.
  - intros e d [Hd _]. split; [|done]. apply Forall_app. split; [done|]. eapply read_same; [|done]. by destruct Hp1.
Qed.

(** What bringing a pod to a revision leaves in the trace *)
Definition moved pod rev (ok : bool) (d : list event) : Prop :=
  careful ok d ∧ Forall (pod_event pod) d ∧ (ok = true → seen pod rev d).

Lemma waitPodRestart_emits cr rev pod n :
  emits (waitPodRestart cr rev pod n : M unit)
    (λ r d, Forall (read_event pod) d ∧ (is_ok r = true → awaited pod rev d)).
Proof. apply wait_rounds_emits. Qed.
Lemma awaited_moved pod rev ok d :
  Forall (read_event pod) d → (ok = true → awaited pod rev d) → moved pod rev ok d.
Proof.
  intros Hd Ha. split; [by eapply read_calm|]. split; [by apply read_is_pod_event|]. intros Ho.
  apply awaited_seen. auto.
Qed.
(** A deletion and the wait after it *)
Lemma deleted_moved pod rev ok d :
  pod_revision pod ≠ rev → Forall (read_event pod) d → (ok = true → awaited pod rev d) →
  moved pod rev ok (Deleted pod :: d).
Proof.
  intros Hne Hd Ha. split; [split|split].
  - intros [|i] j p e Hi Hij Hj He; cbn in Hi.
    + destruct j as [|j]; [lia|]. cbn in Hj. apply (Forall_lookup_1 _ _ _ _ Hd) in Hj. by destruct e.
    + by apply (Forall_lookup_1 _ _ _ _ Hd) in Hi.
  - intros Ho [|i] p Hi; cbn in Hi; [|by apply (Forall_lookup_1 _ _ _ _ Hd) in Hi]. injection Hi as <-.
    destruct (Ha Ho) as (q & Hq & Hs & [->|Hin]).
    + exfalso. apply Hne. unfold pod_started in Hs. apply andb_prop in Hs as [[_ Hs]%andb_prop _].
      by apply bool_decide_eq_true in Hs.
    + apply list_elem_of_lookup in Hin as [k Hk]. exists (S k), q, rev.
      pose proof (lookup_lt_Some _ _ _ Hk). cbn. split; [lia|done].
  - constructor; [done|]. by apply read_is_pod_event.
  - intros Ho. destruct (Ha Ho) as (q & Hq & Hs & Hin). exists q. set_solver.
Qed.

(** At most one deletion, and before anything else *)
Definition recreated pod rev (ok : bool) (d : list event) : Prop :=
  ∃ d', Forall (read_event pod) d' ∧ (ok = true → awaited pod rev d') ∧
    (d = d' ∨ d = Deleted pod :: d' ∧ pod_revision pod ≠ rev).
Lemma recreated_moved pod rev ok d : recreated pod rev ok d → moved pod rev ok d.
Proof.
  intros (d' & Hd & Ha & [->|[-> Hne]]); [by apply awaited_moved|by apply deleted_moved].
Qed.
Lemma recreateNWait_shape cr rev pod n :
  emits (recreateNWait cr rev pod n : M unit) (λ r, recreated pod rev (is_ok r)).
Proof.
  unfold recreateNWait. case_bool_decide as Hrev.
  - apply emits_quiet_bind; [apply quiet_ret| |].
    + intros _. apply emits_wrap. eapply emits_conseq; [apply waitPodRestart_emits|]. intros r d [Hd Ha].
      exists d. split; [done|]. split; [by destruct r|auto].
    + intros e. exists []. split; [done|]. split; [done|auto].
  - eapply emits_wrap_bind; [apply emits_recorded| |].
    + intros _ d ->. apply emits_wrap. eapply emits_conseq; [apply waitPodRestart_emits|]. intros r d [Hd Ha].
      exists d. split; [done|]. split; [by destruct r|auto].
    + intros e d ->. exists []. split; [done|]. split; [done|auto].
Qed.
Lemma recreateNWait_emits cr rev pod n :
  emits (recreateNWait cr rev pod n : M unit) (λ r, moved pod rev (is_ok r)).
Proof. eapply emits_conseq; [apply recreateNWait_shape|]. intros r d. apply recreated_moved. Qed.
Lemma moved_nil pod rev : moved pod rev false [].
Proof. split; [by apply careful_calm|]. by split. Qed.
Lemma moved_after pod rev ok d1 p d2 :
  pod_revision pod ≠ rev → Forall (read_event pod) d1 → current pod d1 p → moved p rev ok d2 →
  moved pod rev ok (d1 ++ d2).
Proof.
  intros Hne Hd1 [Hp Hc] (Hcar & Hev & Hseen). split; [|split].
  - apply careful_app; [by eapply read_calm|done].
  - apply Forall_app. split; [by apply read_is_pod_event|]. apply (Forall_impl _ _ _ Hev).
    intros []; cbn; try done; intros; by transitivity p.
  - intros Ho. specialize (Hseen Ho). apply seen_app_r with (d1 := d1) in Hseen.
    eapply seen_same; [exact Hp|exact Hseen|]. rewrite !elem_of_app.
    destruct Hc as [->|[Hc|Hc]]; auto.
Qed.

Lemma applyNWait_emits cr (replset : option SmartReplset) rev pod n :
  emits (applyNWait cr replset rev pod n : M unit) (λ r, moved pod rev (is_ok r)).
Proof.
  unfold applyNWait. case_bool_decide as Hrev; cbn [negb]; [apply recreateNWait_emits|].
  eapply emits_wrap_bind; [apply tryInPlaceResize_emits| |].
  - intros [resized p] d1 [Hd1 Hp]. specialize (Hp _ _ eq_refl). destruct resized.
    + apply emits_wrap. eapply emits_conseq; [apply waitPodRestart_emits|]. intros r d [Hd Ha].
      eapply moved_after; [done..|]. apply awaited_moved; [done|]. by destruct r.
    + eapply emits_conseq; [apply recreateNWait_emits|]. intros r d Hm. by eapply moved_after.
  - intros e d [Hd _]. split; [by eapply read_calm|]. split; [by apply read_is_pod_event|done].
Qed.

(** The revision a pod of the stateful set is brought to; arbiters have a
    stateful set of their own. *)
Definition target sfs pod rev : Prop := pod_component pod ≠ "arbiter" → rev = sts_UpdateRevision sfs.
Definition moved_to sfs pod (ok : bool) (d : list event) : Prop :=
  ∃ rev, target sfs pod rev ∧ moved pod rev ok d.

Lemma updatePod_emits cr sfs replset pod :
  emits (updatePod cr sfs replset pod : M unit) (λ r, moved_to sfs pod (is_ok r)).
Proof.
  unfold updatePod. assert (moved_to sfs pod false []) as Hnil.
  { exists (sts_UpdateRevision sfs). split; [done|apply moved_nil]. }
  eapply emits_bind with (Q1 := λ r d, d = [] ∧ ∀ rev, r = Ok rev → target sfs pod rev).
  - case_bool_decide as Ha.
    + eapply (emits_conseq _ (λ _ d, d = [])); [unfold getArbiterStatefulset; solve_quiet|].
      intros r d ->. split; [done|]. intros rev _ Hne. by destruct Hne.
    + apply emits_ret. split; [done|]. intros rev [= <-] _. done.
  - intros rev d [-> Hrev]. specialize (Hrev rev eq_refl). cbn [app]. apply emits_wrap.
    eapply emits_conseq; [apply applyNWait_emits|]. intros r d Hm. exists rev. split; [done|]. by destruct r.
  - by intros e d [-> _].
Qed.

(** * The pods of a replica set *)
Lemma careful_nil ok : careful ok [].
Proof. by apply careful_calm. Qed.
Lemma careful_quiet {A} (m : M A) : quiet m → emits m (λ r, careful (is_ok r)).
Proof. intros Hm. apply (quiet_emits _ _ Hm). intros r. apply careful_nil. Qed.
Lemma careful_bind {A B} (m : M A) (f : A → M B) :
  emits m (λ r, careful (is_ok r)) → (∀ a, emits (f a) (λ r, careful (is_ok r))) →
  emits (m ≫= f) (λ r, careful (is_ok r)).
Proof.
  intros Hm Hf. eapply emits_bind; [exact Hm| |done].
  intros a d Hd. eapply emits_conseq; [apply Hf|]. intros r d' Hd'. by apply careful_app.
Qed.
Lemma careful_wrap {A} msg (m : M A) :
  emits m (λ r, careful (is_ok r)) → emits (wrapM msg m) (λ r, careful (is_ok r)).
Proof. intros Hm. apply emits_wrap. eapply emits_conseq; [exact Hm|]. by intros [] d. Qed.
Lemma careful_mapM {A} (f : A → M unit) l :
  (∀ x, emits (f x) (λ r, careful (is_ok r))) → emits (mapM_list f l) (λ r, careful (is_ok r)).
Proof.
  intros Hf. induction l as [|x l IH]; cbn [mapM_list]; [apply emits_ret, careful_nil|].
  by apply careful_bind.
Qed.

(** What was found out about a pod before the primary is touched: it is primary
    itself, or it runs its new revision. *)
Definition handled cr sfs (rs : ReplsetSpec) (d : list event) (q : Pod) : Prop :=
  (∃ h, hosted cr rs q h ∧ Asked h true ∈ d) ∨ (∃ rev, target sfs q rev ∧ seen q rev d).
Definition secondary_deleted cr (rs : ReplsetSpec) (pods : list Pod) (d : list event) : Prop :=
  ∀ d1 p d2, d = d1 ++ Deleted p :: d2 →
    ∃ q h, q ∈ pods ∧ same_pod p q ∧ hosted cr rs q h ∧ Asked h false ∈ d1.
Definition no_step_down (e : event) : Prop := match e with SteppedDown _ _ => False | _ => True end.

Lemma handled_app_r cr sfs rs d1 d2 q : handled cr sfs rs d2 q → handled cr sfs rs (d1 ++ d2) q.
Proof.
  intros [(h & Hh & Ha)|(rev & Hr & Hs)]; [left; exists h; set_solver|right].
  exists rev. split; [done|]. by apply seen_app_r.
Qed.
Lemma handled_app_l cr sfs rs d1 d2 q : handled cr sfs rs d1 q → handled cr sfs rs (d1 ++ d2) q.
Proof.
  intros [(h & Hh & Ha)|(rev & Hr & Hs)]; [left; exists h; set_solver|right].
  exists rev. split; [done|]. by apply seen_app_l.
Qed.

Lemma secondary_deleted_weaken cr rs pods pods' d :
  pods ⊆ pods' → secondary_deleted cr rs pods d → secondary_deleted cr rs pods' d.
Proof. intros Hs H d1 p d2 Hd. destruct (H _ _ _ Hd) as (q & h & Hq & Hr). exists q, h. auto. Qed.
Lemma secondary_deleted_app cr rs pods d1 d2 :
  secondary_deleted cr rs pods d1 → secondary_deleted cr rs pods d2 → secondary_deleted cr rs pods (d1 ++ d2).
Proof.
  intros H1 H2 da p db Hd. apply app_eq_inv in Hd as [(k & -> & Ed)|(k & -> & Ed)].
  - destruct k as [|x k]; cbn in Ed.
    + destruct (H2 [] p db) as (q & h & Hq & Hs & Hh & Ha); [done|set_solver].
    + injection Ed as <- ->. by destruct (H1 da p k) as (q & h & Hq & Hs & Hh & Ha); [|exists q, h; set_solver].
  - destruct (H2 k p db Ed) as (q & h & Hq & Hs & Hh & Ha). exists q, h. set_solver.
Qed.
Lemma pod_events_no_step_down pod d : Forall (pod_event pod) d → Forall no_step_down d.
Proof. intros H. apply (Forall_impl _ _ _ H). by intros []. Qed.
Lemma asked_careful h b ok : careful ok [Asked h b].
Proof. apply careful_calm. by apply Forall_singleton. Qed.
(** A pod that is no primary, brought to its revision *)
Lemma secondary_deleted_moved cr (rs : ReplsetSpec) pod h d :
  hosted cr rs pod h → Forall (pod_event pod) d → secondary_deleted cr rs [pod] (Asked h false :: d).
Proof.
  intros Hh Hd da p db Ed. destruct da as [|x da]; [done|]. injection Ed as <- ->.
  apply Forall_app in Hd as [_ Hd]. apply Forall_cons in Hd as [Hp _]. exists pod, h. set_solver.
Qed.

Definition secondaries_done cr sfs (rs : ReplsetSpec) (prim : option Pod) (pods : list Pod)
    (r : result (option Pod)) (d : list event) : Prop :=
  careful (is_ok r) d ∧ Forall no_step_down d ∧ secondary_deleted cr rs pods d ∧
  ∀ o, r = Ok o →
    (∀ q, q ∈ pods → handled cr sfs rs d q) ∧
    (o = prim ∨ ∃ p h, o = Some p ∧ p ∈ pods ∧ hosted cr rs p h ∧ Asked h true ∈ d).

Lemma update_secondaries_emits cr sfs replset prim pods :
  emits (update_secondaries cr sfs replset prim pods : M _) (secondaries_done cr sfs replset prim pods).
Proof.
  revert prim; induction pods as [|pod pods IH]; intros prim; cbn [update_secondaries].
  { apply emits_ret. split; [apply careful_nil|]. split; [done|]. split; [by intros [] ?? ?|].
    intros o [= <-]. split; [set_solver|by left]. }
  assert (∀ d1 prim', careful true d1 → Forall no_step_down d1 →
    secondary_deleted cr replset [pod] d1 → handled cr sfs replset d1 pod →
    (prim' = prim ∨ ∃ h, prim' = Some pod ∧ hosted cr replset pod h ∧ Asked h true ∈ d1) →
    emits (update_secondaries cr sfs replset prim' pods : M _)
      (λ r d, secondaries_done cr sfs replset prim (pod :: pods) r (d1 ++ d))) as Hrest.
  { intros d1 prim' Hc Hn Hs Hh Hp. eapply emits_conseq; [apply IH|]. intros r d (Hc2 & Hn2 & Hs2 & Ho).
    split; [by apply careful_app|]. split; [by apply Forall_app|]. split.
    - apply secondary_deleted_app; (eapply secondary_deleted_weaken; [|eassumption]); set_solver.
    - intros o Hr. destruct (Ho o Hr) as [Hall Hprim]. split.
      + intros q [->|Hq]%elem_of_cons; [by apply handled_app_l|by apply handled_app_r, Hall].
      + destruct Hprim as [->|(p & h & -> & Hin & Hhp & Ha)].
        * destruct Hp as [->|(h & -> & Hhp & Ha)]; [by left|right]. exists pod, h. set_solver.
        * right. exists p, h. set_solver. }
  eapply emits_wrap_bind; [apply isPodPrimary_emits| |].
  - intros b d (h & Hh & ->). destruct b.
    + apply Hrest; [apply asked_careful|by apply Forall_singleton|by intros [|? []] ?? ?| |].
      * left. exists h. set_solver.
      * right. exists h. set_solver.
    + eapply emits_bind; [apply updatePod_emits| |].
      * intros u d (rev & Ht & (Hc & Hev & Hseen)).
        eapply emits_conseq.
        -- apply (Hrest ([Asked h false] ++ d) prim).
           ++ apply careful_app; [apply asked_careful|done].
           ++ constructor; [done|]. by eapply pod_events_no_step_down.
           ++ by apply secondary_deleted_moved.
           ++ right. exists rev. split; [done|]. apply seen_app_r. by apply Hseen.
           ++ by left.
        -- intros r d'. done.
      * intros e d (rev & Ht & (Hc & Hev & Hseen)). split; [by apply careful_app; [apply asked_careful|]|].
        split; [constructor; [done|by eapply pod_events_no_step_down]|]. split; [|done].
        eapply secondary_deleted_weaken; [|by apply secondary_deleted_moved]. set_solver.
  - intros e d ->. split; [apply careful_nil|]. split; [done|]. split; [by intros [] ?? ?|done].
Qed.

(** ** The primary *)
Definition deleted_after_step_down pod (d : list event) : Prop :=
  ∀ d1 p d2, d = d1 ++ Deleted p :: d2 →
    same_pod p pod ∧ (∃ d0 f, d1 = d0 ++ [SteppedDown f true]) ∧ ∀ q, Deleted q ∉ d2.

Lemma read_no_delete pod d q : Forall (read_event pod) d → Deleted q ∉ d.
Proof. intros Hd Hin. rewrite Forall_forall in Hd. by apply Hd in Hin. Qed.

Lemma step_down_emits (C : Client W) force :
  emits (step_down (traced_client "" C) force : M unit) (λ r d,
    (∀ q, Deleted q ∉ d) ∧ (is_ok r = true → ∃ d0 f, d = d0 ++ [SteppedDown f true])).
Proof.
  unfold step_down. eapply emits_bind with (Q1 := λ r d,
    d = [SteppedDown force (match r with Ok (Ok _) => true | _ => false end)]).
  - apply emits_catch. eapply emits_conseq; [apply emits_recorded|]. by intros [u|e] d ->.
  - intros [u|e] d ->.
    + apply emits_ret. split; [set_solver|]. intros _. by exists [], force.
    + case_match; [|apply emits_throw; split; [set_solver|done]].
      apply emits_wrap. eapply emits_conseq; [apply emits_recorded|]. intros r d ->. split; [set_solver|].
      destruct r; [|done]. intros _. by exists [SteppedDown force false], true.
  - intros e d ->. split; [set_solver|done].
Qed.
Lemma no_deletion_after_step_down pod d : (∀ q, Deleted q ∉ d) → deleted_after_step_down pod d.
Proof. intros Hd d1 p d2 ->. destruct (Hd p). set_solver. Qed.
Lemma no_deletion_careful ok d : (∀ q, Deleted q ∉ d) → careful ok d.
Proof.
  intros Hd. apply careful_calm. apply Forall_forall. intros e He. destruct e; try done. by destruct (Hd p).
Qed.

Lemma recreated_after_step_down pod p rev ok d0 f d :
  same_pod p pod → (∀ q, Deleted q ∉ d0) → recreated p rev ok d →
  deleted_after_step_down pod (d0 ++ [SteppedDown f true] ++ d).
Proof.
  intros Hp H0 (d' & Hd & Ha & [->|[-> Hne]]).
  - apply no_deletion_after_step_down. intros q. rewrite !elem_of_app.
    pose proof (read_no_delete _ _ q Hd). set_solver.
  - intros d1 q d2 Ed. rewrite app_assoc in Ed. change (Deleted p :: d') with ([Deleted p] ++ d') in Ed.
    apply app_eq_inv in Ed as [(k & Ek & Ed)|(k & -> & Ed)].
    + destruct k as [|x k]; cbn in Ed.
      * injection Ed as -> ->. rewrite app_nil_r in Ek. subst d1. split; [done|]. split; [by exists d0, f|].
        intros q. by eapply read_no_delete.
      * injection Ed as <- ->. exfalso.
        assert (Deleted q ∈ d0 ++ [SteppedDown f true]) as Hin by (rewrite Ek; set_solver).
        apply (H0 q). set_solver.
    + destruct k as [|x k]; cbn in Ed.
      * injection Ed as <- <-. split; [done|]. rewrite app_nil_r. split; [by exists d0, f|].
        intros x. by eapply read_no_delete.
      * injection Ed as <- ->. exfalso. apply (read_no_delete _ _ q Hd). set_solver.
Qed.

Lemma update_primary_emits cr sfs replset pod :
  emits (update_primary cr sfs replset pod : M unit) (λ r d,
    careful (is_ok r) d ∧ deleted_after_step_down pod d).
Proof.
  unfold update_primary. cbv zeta.
  assert (∀ ok d, (∀ q, Deleted q ∉ d) → careful ok d ∧ deleted_after_step_down pod d) as Hcalm.
  { intros ok d Hd. split; [by apply no_deletion_careful|by apply no_deletion_after_step_down]. }
  eapply emits_bind with (Q1 := λ r d, Forall (read_event pod) d ∧ ∀ b p, r = Ok (b, p) → same_pod p pod).
  - case_bool_decide; [apply emits_ret; split; [done|by intros b p [= <- <-]]|].
    apply emits_wrap. eapply emits_conseq; [apply tryInPlaceResize_emits|]. intros r d [Hd Hp].
    split; [done|]. intros b p Hr. destruct r as [[b' p']|]; [|done]. injection Hr as -> ->.
    by destruct (Hp b p eq_refl).
  - intros [resized p] d1 [Hd1 Hp]. specialize (Hp _ _ eq_refl).
    assert (∀ q, Deleted q ∉ d1) as Hn1 by (intros q; by eapply read_no_delete).
    destruct resized.
    + apply emits_wrap. eapply emits_conseq; [apply waitPodRestart_emits|]. intros r d [Hd _]. apply Hcalm.
      intros q [Hq|Hq]%elem_of_app; [by apply (Hn1 q)|]. by eapply read_no_delete.
    + eapply emits_bind with (Q1 := λ r d, d = [] ∧
        ∀ C, r = Ok (Ok C) → ∃ C0, C = traced_client "" C0).
      * apply emits_catch. cbn [mp_Mongo traced_provider]. unfold connected.
        apply emits_quiet_bind; [apply quiet_quietly| |done]. intros C. apply emits_ret. split; [done|].
        intros C' [= <-]. by exists C.
      * intros [C|e] d [-> HC]; cbn [app]; [|apply emits_throw; rewrite app_nil_r; auto].
        destruct (HC C eq_refl) as [C0 ->]. apply emits_defer; [apply quiet_quietly|].
        eapply emits_bind; [apply step_down_emits| |].
        -- intros u ds [Hds Hok]. destruct (Hok eq_refl) as (d0 & f & ->). apply emits_wrap.
           eapply emits_conseq; [apply recreateNWait_shape|]. intros r d Hr.
           assert (is_ok (wrap_err "failed to apply changes" r) = is_ok r) as -> by by destruct r.
           split.
           ++ apply careful_app; [by apply no_deletion_careful|].
              apply careful_app; [by apply no_deletion_careful|].
              apply recreated_moved in Hr. by destruct Hr.
           ++ rewrite app_assoc, app_assoc, <- (app_assoc (d1 ++ d0)).
              apply (recreated_after_step_down _ p (sts_UpdateRevision sfs) (is_ok r)); [done| |done].
              intros q. set_solver.
        -- intros e d [Hd _]. apply Hcalm. intros q. set_solver.
      * intros e d [-> _]. rewrite app_nil_r. auto.
  - intros e d [Hd _]. apply Hcalm. intros q. by eapply read_no_delete.
Qed.

(** ** All members *)
Definition primary_last cr sfs (rs : ReplsetSpec) (pods : list Pod) (d : list event) : Prop :=
  ∀ d1 p d2, d = d1 ++ Deleted p :: d2 →
    (∃ q h, q ∈ pods ∧ same_pod p q ∧ hosted cr rs q h ∧ Asked h false ∈ d1) ∨
    (∃ q h d0 f, q ∈ pods ∧ same_pod p q ∧ hosted cr rs q h ∧ Asked h true ∈ d1 ∧
       d1 = d0 ++ [SteppedDown f true] ∧ (∀ x, x ∈ pods → handled cr sfs rs d1 x) ∧
       ∀ x, Deleted x ∉ d2).

Context {GL : GoSortLaws G}.

Lemma update_members_emits cr sfs replset pods :
  emits (update_members cr sfs replset pods : M unit) (λ r d,
    careful (is_ok r) d ∧ primary_last cr sfs replset pods d).
Proof.
  unfold update_members.
  assert (∀ x, x ∈ sortPodsByOrdinal Z.gtb pods ↔ x ∈ pods) as Hsort.
  { intros x. unfold sortPodsByOrdinal. by rewrite sort_perm. }
  assert (∀ d, secondary_deleted cr replset (sortPodsByOrdinal Z.gtb pods) d → primary_last cr sfs replset pods d) as Hsec.
  { intros d Hd d1 p d2 Ed. left. destruct (Hd d1 p d2 Ed) as (q & h & Hq & Hr). exists q, h.
    split; [by apply Hsort|done]. }
  eapply emits_bind; [apply update_secondaries_emits| |].
  - intros o d (Hc & Hn & Hs & Ho). destruct (Ho o eq_refl) as [Hall Hprim]. cbv zeta.
    assert (emits (mret tt : M unit) (λ r d', careful (is_ok r) (d ++ d') ∧ primary_last cr sfs replset pods (d ++ d'))) as Hret.
    { apply emits_ret. rewrite app_nil_r. auto. }
    destruct o as [p|]; [|done]. destruct (_ && _); [|done].
    destruct Hprim as [|(p' & h & [= <-] & Hin & Hh & Ha)]; [done|].
    eapply emits_conseq; [apply update_primary_emits|]. intros r dp [Hcp Hdp].
    split; [by apply careful_app|]. intros d1 x d2 Ed.
    apply app_eq_inv in Ed as [(k & -> & Ed)|(k & -> & Ed)].
    + destruct k as [|y k]; cbn in Ed.
      * destruct (Hdp [] x d2 (eq_sym Ed)) as (_ & (d0 & f & E0) & _). by destruct d0.
      * injection Ed as <- ->. left. destruct (Hs d1 x k eq_refl) as (q & h2 & Hq & Hr). exists q, h2.
        split; [by apply Hsort|done].
    + destruct (Hdp k x d2 Ed) as (Hx & (d0 & f & ->) & Hno). right. exists p, h, (d ++ d0), f.
      split; [by apply Hsort|]. split; [done|]. split; [done|]. split; [set_solver|].
      split; [by rewrite app_assoc|]. split; [|done]. intros q Hq. apply handled_app_l, Hall. by apply Hsort.
  - intros e d (Hc & Hn & Hs & _). auto.
Qed.

(** ** What is checked before *)
Definition check_event (e : event) : Prop :=
  match e with Backups _ | Restores _ | Balancer _ | PbmLocks _ | PbmOpLocks _ | NoPbm => True | _ => False end.
Definition no_backup_running (cr : SmartCluster) (d : list event) : Prop :=
  ∃ l, Backups l ∈ d ∧ existsb (backup_running cr) l = false.
Definition no_restore_active (cr : SmartCluster) (d : list event) : Prop :=
  ∃ l, Restores l ∈ d ∧ existsb (restore_active cr) l = false.
(** No lock of PBM but that of the oplog slicer, if the cluster has PBM *)
Definition no_pbm_job (cr : SmartCluster) (d : list event) : Prop :=
  b_Enabled (bc_Backup cr) = false ∨ NoPbm ∈ d ∨
  ∃ l1 l2, PbmLocks l1 ∈ d ∧ PbmOpLocks l2 ∈ d ∧
    existsb (λ l, NotPITRLock l && NotJobLock zeroJob l) (l1 ++ l2) = false.

Lemma isBackupRunning_emits cr :
  emits (isBackupRunning cr : M bool) (λ r d, Forall check_event d ∧ (r = Ok false → no_backup_running cr d)).
Proof.
  clear QL.
  unfold isBackupRunning. eapply emits_bind with (Q1 := λ r d, Forall check_event d ∧
    match r with
    | Ok (Ok l) => Backups l ∈ d
    | Ok (Err e) => IsNotFound e = true → Backups [] ∈ d
    | Err _ => True
    end).
  - apply emits_try. eapply emits_conseq; [apply emits_recorded|]. intros [l|e] d ->; cbn.
    + split; [by apply Forall_singleton|set_solver].
    + case_match; [split; [by apply Forall_singleton|set_solver]|done].
  - intros [l|e] d [Hd Hl].
    + apply emits_ret. rewrite app_nil_r. split; [done|]. intros [= Hr]. by exists l.
    + case_match; [apply emits_ret|apply emits_throw]; rewrite app_nil_r; (split; [done|]); [|done].
      intros _. exists []. auto.
  - intros e d [Hd _]. by split.
Qed.
Lemma hasLocks_emits (p : Lock → bool) :
  emits (hasLocks false p : M bool) (λ r d, Forall check_event d ∧
    ∀ b, r = Ok b → ∃ l1 l2, d = [PbmLocks l1; PbmOpLocks l2] ∧ b = existsb p (l1 ++ l2)).
Proof.
  clear QL. unfold hasLocks. eapply emits_wrap_bind; [apply emits_recorded| |by intros e d ->; split; [constructor|]].
  intros l1 d ->. eapply emits_wrap_bind; [apply emits_recorded| |].
  - intros l2 d ->. apply emits_ret. cbn. split; [by repeat constructor|]. intros b [= <-]. by exists l1, l2.
  - intros e d ->. split; [by repeat constructor|done].
Qed.
Lemma smart_jobs_emits cr :
  emits (HasActiveJobs cr zeroJob NotPITRLock : M bool)
    (λ r d, Forall check_event d ∧ (r = Ok false → no_restore_active cr d ∧ no_pbm_job cr d)).
Proof.
  clear QL.
  unfold HasActiveJobs. eapply emits_wrap_bind with (Q1 := λ r d, Forall check_event d ∧
    match r with Ok l => Restores l ∈ d | Err _ => True end).
  - eapply emits_conseq; [apply emits_recorded|]. intros [l|e] d ->; cbn.
    + split; [by apply Forall_singleton|set_solver].
    + case_match; [by split; [apply Forall_singleton|]|done].
  - intros l d [Hd Hl]. destruct (existsb _ l) eqn:Ea.
    { apply emits_ret. rewrite app_nil_r. by split. }
    assert (Hno : ∀ d', no_restore_active cr (d ++ d')).
    { intros d'. exists l. split; [set_solver|]. rewrite <- Ea. clear. induction l as [|x l IH]; [done|].
      cbn [existsb]. rewrite IH. unfold own_restore. by rewrite andb_false_r. }
    destruct (b_Enabled (bc_Backup cr)) eqn:Eb; cbn [negb].
    2:{ apply emits_ret. split; [by rewrite app_nil_r|]. intros _. split; [apply Hno|by left]. }
    eapply emits_bind with (Q1 := λ rr d', d' = match rr with
      | Ok (Ok _) => []
      | Ok (Err e) | Err e => if IsErrNoDocuments e then [NoPbm] else []
      end).
    { apply emits_catch. eapply emits_conseq; [apply emits_recorded|]. by intros [u|e] d' ->. }
    + intros [u|e] d' H; cbn in H; subst d'; cbn [app].
      * apply emits_defer; [apply quiet_quietly|]. apply emits_wrap. eapply emits_conseq; [apply hasLocks_emits|].
        intros r d' [Hd' Hr]. split; [by apply Forall_app|]. destruct r as [b|e]; [|done]. intros [= ->].
        destruct (Hr false eq_refl) as (l1 & l2 & -> & Hf). split; [apply Hno|]. right. right.
        exists l1, l2. split; [set_solver|]. split; [set_solver|done].
      * destruct (IsErrNoDocuments e) eqn:Ee; [apply emits_ret|apply emits_throw].
        -- rewrite app_nil_r. split; [apply Forall_app; by repeat constructor|]. intros _. split; [apply Hno|].
           right. left. set_solver.
        -- by rewrite !app_nil_r.
    + intros e d' H. cbn in H. subst d'. case_match; (split; [|done]); apply Forall_app; by repeat constructor.
  - intros e d [Hd _]. by split.
Qed.
Lemma disableBalancer_emits cr : emits (disableBalancer cr : M unit) (λ _, Forall check_event).
Proof.
  unfold disableBalancer. case_match; [by apply emits_ret|].
  apply emits_quiet_bind; [solve_quiet| |done]. intros [ms|e]; [|case_match; [by apply emits_ret|by apply emits_throw]].
  case_match; [by apply emits_ret|].
  eapply emits_wrap_bind with (Q1 := λ r d, d = [] ∧ ∀ C, r = Ok C → ∃ C0, C = traced_client "" C0).
  - unfold mongosClientWithRole. cbn [mp_Mongos traced_provider]. unfold connected.
    apply emits_quiet_bind; [apply quiet_quietly| |done]. intros C. apply emits_ret. split; [done|].
    intros C' [= <-]. by exists C.
  - intros C d [-> HC]. destruct (HC C eq_refl) as [C0 ->]. cbn [app].
    apply emits_defer; [apply quiet_quietly|].
    apply emits_quiet_bind; [apply quiet_wrap, quiet_quietly| |done]. intros [|]; [|by apply emits_ret].
    apply emits_wrap. eapply emits_conseq; [apply emits_recorded|]. intros r d ->. by apply Forall_singleton.
  - by intros e d [-> _].
Qed.

Lemma checks_no_deletion d q : Forall check_event d → Deleted q ∉ d.
Proof. intros Hd Hin. rewrite Forall_forall in Hd. by apply Hd in Hin. Qed.

(** What holds when something is disrupted in an initialised replica set *)
Definition cleared cr sfs (d1 : list event) : Prop :=
  IsPVCShrinkInProgress cr = false ∧ no_backup_running cr d1 ∧
  (is_Some (sts_Annotations sfs !! AnnotationRestoreInProgress) ∨ bc_State cr = AppStateError ∨
   no_restore_active cr d1 ∧ no_pbm_job cr d1).
(** A deletion, a step-down, a resize in place or another patch of a pod *)
Definition touches (e : event) : bool :=
  match e with Deleted _ | SteppedDown _ _ | Patched _ => true | _ => false end.
Definition guarded cr sfs (d : list event) : Prop :=
  ∀ d1 e d2, d = d1 ++ e :: d2 → touches e = true → cleared cr sfs d1.

Lemma cleared_app cr sfs d1 d2 : cleared cr sfs d1 → cleared cr sfs (d1 ++ d2).
Proof.
  intros (Hp & (l & Hl & Hb) & Hr). split; [done|]. split; [exists l; set_solver|].
  destruct Hr as [Hr|[Hr|[(l' & Hl' & Hr) Hp']]]; [auto..|]. right. right. split; [exists l'; set_solver|].
  destruct Hp' as [?|[?|(l1 & l2 & H1 & H2 & Hf)]]; [by left|right; left; set_solver|].
  right. right. exists l1, l2. set_solver.
Qed.
Lemma guarded_calm cr sfs d : Forall check_event d → guarded cr sfs d.
Proof.
  intros Hd d1 e d2 ->. apply Forall_app in Hd as [_ Hd]. apply Forall_cons in Hd as [He _]. by destruct e.
Qed.
Lemma guarded_after cr sfs d d' : Forall check_event d → cleared cr sfs d → guarded cr sfs (d ++ d').
Proof.
  intros Hd Hc d1 e d2 Ed He. apply app_eq_inv in Ed as [(k & -> & Ed)|(k & -> & Ed)].
  - destruct k as [|x k]; [by rewrite app_nil_r in Hc|]. injection Ed as <- ->.
    apply Forall_app in Hd as [_ Hd]. apply Forall_cons in Hd as [Hx _]. by destruct e.
  - by apply cleared_app.
Qed.
Lemma primary_last_after cr sfs rs pods d d' :
  (∀ q, Deleted q ∉ d) → primary_last cr sfs rs pods d' → primary_last cr sfs rs pods (d ++ d').
Proof.
  intros Hd H d1 p d2 Ed. apply app_eq_inv in Ed as [(k & -> & Ed)|(k & -> & Ed)].
  - destruct k as [|x k].
    + destruct (H [] p d2 (eq_sym Ed)) as [(q & h & Hq & Hs & Hh & Ha)|(q & h & d0 & f & _ & _ & _ & _ & E0 & _)];
        [set_solver|by destruct d0].
    + injection Ed as <- ->. destruct (Hd p). set_solver.
  - destruct (H k p d2 Ed) as [(q & h & Hq & Hs & Hh & Ha)|(q & h & d0 & f & Hq & Hs & Hh & Ha & -> & Hall & Hno)].
    + left. exists q, h. set_solver.
    + right. exists q, h, (d ++ d0), f. split; [done|]. split; [done|]. split; [done|].
      split; [set_solver|]. split; [by rewrite app_assoc|]. split; [|done].
      intros x Hx. by apply handled_app_r, Hall.
Qed.

Definition safe_rollout cr sfs rs pods (ok : bool) (d : list event) : Prop :=
  careful ok d ∧ primary_last cr sfs rs pods d ∧ guarded cr sfs d.
Lemma checks_safe cr sfs rs pods ok d : Forall check_event d → safe_rollout cr sfs rs pods ok d.
Proof.
  intros Hd. split; [by apply no_deletion_careful; intros q; apply checks_no_deletion|].
  split; [|by apply guarded_calm]. intros d1 p d2 ->. destruct (checks_no_deletion _ p Hd). set_solver.
Qed.

Lemma update_initialized_emits cr sfs replset pods :
  emits (update_initialized cr sfs replset pods : M unit) (λ r, safe_rollout cr sfs replset pods (is_ok r)).
Proof.
  unfold update_initialized. destruct (IsPVCShrinkInProgress cr) eqn:Ep; [by apply emits_ret, checks_safe|].
  eapply emits_wrap_bind; [apply isBackupRunning_emits| |by intros e d [Hd _]; apply checks_safe].
  intros running d1 [Hd1 Hrun]. destruct running; [apply emits_ret; rewrite app_nil_r; by apply checks_safe|].
  specialize (Hrun eq_refl).
  eapply emits_bind with (Q1 := λ r d, Forall check_event d ∧ (r = Ok (Ok false) → no_restore_active cr d ∧ no_pbm_job cr d)).
  { apply emits_catch. eapply emits_conseq; [apply smart_jobs_emits|]. intros [b|e] d [Hd Hr].
    - split; [done|]. intros [= ->]. auto.
    - split; by split. }
  2:{ intros e d [Hd _]. apply checks_safe. by apply Forall_app. }
  intros r d2 [Hd2 Hr].
  assert (Forall check_event (d1 ++ d2)) as Hd12 by by apply Forall_app.
  eapply emits_bind with (Q1 := λ x d, d = [] ∧
    (x = Ok false → r = Ok false ∨ bc_State cr = AppStateError)).
  { destruct r as [b|e]; [apply emits_ret; split; [done|intros [= ->]; by left]|].
    case_bool_decide; [apply emits_ret|apply emits_throw]; (split; [done|]); [by right|done]. }
  2:{ intros e d [-> _]. rewrite app_nil_r. by apply checks_safe. }
  intros active d [-> Hact]. cbn [app].
  destruct (negb _ && active) eqn:Eg; [apply emits_ret; rewrite app_nil_r; by apply checks_safe|].
  assert (cleared cr sfs (d1 ++ d2)) as Hclear.
  { split; [done|]. split; [destruct Hrun as (l & Hl & Hb); exists l; set_solver|].
    apply andb_false_iff in Eg as [Eg| ->].
    - left. by apply negb_false_iff, bool_decide_eq_true in Eg.
    - right. destruct (Hact eq_refl) as [->|]; [right|by left].
      destruct (Hr eq_refl) as [(l & Hl & Hb) Hp]. split; [exists l; set_solver|].
      destruct Hp as [?|[?|(l1 & l2 & H1 & H2 & Hf)]]; [by left|right; left; set_solver|].
      right. right. exists l1, l2. set_solver. }
  eapply emits_bind with (Q1 := λ _, Forall check_event).
  { destruct (bool_decide (sts_Name sfs = _)); [|by apply emits_ret]. apply emits_wrap, disableBalancer_emits. }
  2:{ intros e d Hd. rewrite app_assoc. apply checks_safe. by apply Forall_app. }
  intros u d3 Hd3. eapply emits_conseq; [apply update_members_emits|]. intros r' d4 [Hc Hl].
  rewrite !app_assoc. assert (Forall check_event ((d1 ++ d2) ++ d3)) as Hd by by apply Forall_app.
  pose proof (λ q, checks_no_deletion _ q Hd) as Hno.
  split; [apply careful_app; [by apply no_deletion_careful|done]|].
  split; [by apply primary_last_after|]. apply guarded_after; [done|]. by apply cleared_app.
Qed.

(** A pod that is no member of the replica set is updated alone. *)
Definition outside (members : gmap string ReplsetMemberStatus) (e : event) : Prop :=
  match e with
  | Deleted p | Patched p => members !! pod_Name p = None
  | SteppedDown _ _ => False
  | _ => True
  end.
Definition rolled_out cr sfs rs pods (members : gmap string ReplsetMemberStatus) (ok : bool) (d : list event) : Prop :=
  careful ok d ∧ (Forall (outside members) d ∨ primary_last cr sfs rs pods d ∧ guarded cr sfs d).

Lemma update_pods_emits cr sfs replset pods :
  emits (update_pods cr sfs replset pods : M unit) (λ r d, careful (is_ok r) d ∧
    ∀ rst, st_Replsets (bc_Status cr) !! rs_Name replset = Some rst → rst_Initialized rst = true →
      rolled_out cr sfs replset pods (rst_Members rst) (is_ok r) d).
Proof.
  assert (∀ pod, emits (updatePod cr sfs replset pod : M unit) (λ r, careful (is_ok r))) as Hcareful.
  { intros pod. eapply emits_conseq; [apply updatePod_emits|]. by intros r d (rev & _ & Hc & _). }
  unfold update_pods. destruct (st_Replsets _ !! _) as [rst|] eqn:Est.
  2:{ eapply emits_conseq; [by apply careful_mapM|]. by intros. }
  destruct (rst_Initialized rst) eqn:Ei; cbn [negb].
  2:{ eapply emits_conseq; [by apply careful_mapM|]. intros r d Hc. split; [done|]. intros ? [= <-]. congruence. }
  case_bool_decide.
  { apply emits_ret. split; [apply careful_nil|]. intros ? _ _. split; [apply careful_nil|]. by left. }
  destruct (list_find _ pods) as [[i pod]|] eqn:Ef.
  - apply list_find_Some in Ef as (_ & Hnot & _). eapply emits_conseq; [apply updatePod_emits|].
    intros r d (rev & _ & Hc & Hev & _). split; [done|]. intros ? [= <-] _. split; [done|]. left.
    apply (Forall_impl _ _ _ Hev). unfold pod_not_member in Hnot. apply negb_true_iff, bool_decide_eq_false in Hnot.
    by intros []; cbn; try done; intros [-> _]; apply eq_None_not_Some.
  - eapply emits_conseq; [apply update_initialized_emits|]. intros r d (Hc & Hl & Hg). split; [done|].
    intros ? [= <-] _. split; [done|]. by right.
Qed.

(** ** The whole smart update *)
Lemma quiet_setUpdateMongosFirst cr : quiet (setUpdateMongosFirst cr : M _).
Proof. unfold setUpdateMongosFirst. solve_quiet. Qed.
Lemma quiet_unsetUpdateMongosFirst cr : quiet (unsetUpdateMongosFirst cr : M _).
Proof. unfold unsetUpdateMongosFirst. solve_quiet. Qed.
Hint Resolve quiet_setUpdateMongosFirst quiet_unsetUpdateMongosFirst : quiet.

(** The cluster resource is left alone, or from then on asks for mongos first. *)
Lemma tls_outdated_cr cr sfs :
  ensures (updateMongosFirstIfTLSOutdated cr sfs : M _) (λ cr', cr' = cr ∨ shouldUpdateMongosFirst cr' = true).
Proof.
  unfold updateMongosFirstIfTLSOutdated. apply ensures_then. intros [|]; cbn [negb]; [|by apply ensures_ret; left].
  apply ensures_then. intros pods. case_match; [|by apply ensures_ret; left].
  unfold setUpdateMongosFirst. destruct (cr_ShardingEnabled cr) eqn:Es; [|by apply ensures_ret; left].
  case_bool_decide; [by apply ensures_ret; left|]. apply ensures_then. intros _. apply ensures_ret. right.
  unfold shouldUpdateMongosFirst, with_sc_Annotations. cbn. rewrite Es. cbn.
  rewrite lookup_insert_eq. by apply bool_decide_eq_true_2.
Qed.

(** What was found in order when the smart update reaches the pods *)
Definition update_due cr sfs replset pods : Prop :=
  bc_Pause cr = false ∧ rs_Size replset ≠ 0%Z ∧
  sc_UpdateStrategy cr = SmartUpdateStatefulSetStrategyType ∧
  HasStatefulSetChanged sfs pods = true ∧ shouldUpdateMongosFirst cr = false ∧
  (sts_Replicas sfs ≤ sts_ReadyReplicas sfs)%Z.

Lemma smartUpdate_emits cr sfs replset :
  emits (smartUpdate cr sfs replset : M unit) (λ r d, d = [] ∨
    ∃ pods, update_due cr sfs replset pods ∧ careful (is_ok r) d ∧
      ∀ rst, st_Replsets (bc_Status cr) !! rs_Name replset = Some rst → rst_Initialized rst = true →
        rolled_out cr sfs replset pods (rst_Members rst) (is_ok r) d).
Proof.
  unfold smartUpdate.
  destruct (bc_Pause cr) eqn:Ep; [by apply emits_ret; left|].
  destruct (rs_Size replset =? 0)%Z eqn:Es; [by apply emits_ret; left|]. apply Z.eqb_neq in Es.
  case_bool_decide as Hst; cbn [negb]; [|by apply emits_ret; left]. cbv zeta.
  apply emits_quiet_bind; [solve_quiet| |by left]. intros [pods|e]; [|by apply emits_throw; left].
  destruct (HasStatefulSetChanged sfs pods) eqn:Eh; cbn [negb]; [|by apply emits_ret; left].
  case_match; [by apply emits_ret; left|].
  assert (quiet (updateMongosFirstIfTLSOutdated cr sfs : M _)) as Hq.
  { unfold updateMongosFirstIfTLSOutdated, getMongosPods. solve_quiet. }
  eapply emits_wrap_bind; [apply (emits_ensures _ _ _ Hq (tls_outdated_cr cr sfs))| |by intros e d [-> _]; left].
  intros cr' d [-> Hcr]. cbn [app].
  destruct (shouldUpdateMongosFirst cr') eqn:Em; [by apply emits_ret; left|].
  destruct Hcr as [->|]; [|congruence].
  apply emits_quiet_bind; [unfold config_outdated; solve_quiet| |by left].
  intros [|]; [by apply emits_ret; left|].
  destruct (sts_ReadyReplicas sfs <? sts_Replicas sfs)%Z eqn:Er; [by apply emits_ret; left|].
  apply Z.ltb_ge in Er. eapply emits_conseq; [apply update_pods_emits|]. intros r d [Hc Hr]. right.
  exists pods. done.
Qed.

Lemma smartMongosUpdate_emits cr sts :
  emits (smartMongosUpdate cr sts : M unit) (λ r, careful (is_ok r)).
Proof.
  unfold smartMongosUpdate. case_match; [apply careful_quiet; solve_quiet|].
  apply careful_bind; [apply careful_quiet; unfold getMongosPods; solve_quiet|]. intros pods.
  case_match; [apply careful_quiet; solve_quiet|]. case_match; [apply careful_quiet; solve_quiet|].
  assert (∀ (A : Type) (r : result A) d, Forall check_event d → careful (is_ok r) d) as Hcheck.
  { intros A r d Hd. apply no_deletion_careful. intros q. by apply checks_no_deletion. }
  apply careful_bind.
  { apply careful_wrap. eapply emits_conseq; [apply isBackupRunning_emits|]. intros r d [Hd _]. by apply Hcheck. }
  intros [|]; [apply careful_quiet; solve_quiet|]. apply careful_bind.
  { apply careful_wrap. eapply emits_conseq; [apply smart_jobs_emits|]. intros r d [Hd _]. by apply Hcheck. }
  intros [|]; [apply careful_quiet; solve_quiet|].
  apply careful_bind; [|intros _; apply careful_quiet; solve_quiet].
  apply careful_mapM. intros pod. apply careful_wrap. eapply emits_conseq; [apply applyNWait_emits|].
  by intros r d [Hc _].
Qed.
End pods.

(** * Theorems *)
Section theorems.
Context {W : Type} {K : K8sClient W} {Q : PodClient W} {QL : PodClientLaws Q} {P : MongoClientProvider W}.
Context {E : ClusterEnv W} {KB : BackupClient W} {PB : PBM W} {SU : StatusUpdater W} {CC : ClusterClient W}.
Context {Y : Yaml} {V : Versions} {KV : KubeVersion} {G : GoSort} {R : GoRetryOn} {RL : GoRetryOnLaws R}.
Context {GL : GoSortLaws G}.
Implicit Types (cr : SmartCluster) (replset : SmartReplset) (sfs : StatefulSet).
Abbreviation M := (GoM (list event * W)).

(** C3: At most one pod is down at a time.  In the trace of a smart update, of
    a replica set or of mongos, between the deletion of a pod and the next
    deletion or step-down that pod was read back running a revision it did not
    run before, with its database container ready; so an error or a timeout
    while a pod is down ends the update. *)
Theorem one_pod_at_a_time cr sfs replset t w :
  (∃ d, (smartUpdate cr sfs replset (t, w) : result unit * (list event * W)).2.1 = t ++ d ∧ orderly d) ∧
  (∃ d, (smartMongosUpdate cr sfs (t, w) : result unit * (list event * W)).2.1 = t ++ d ∧ orderly d).
Proof.
  split.
  - destruct (smartUpdate_emits cr sfs replset t w) as (d & Hd & Hr). exists d. split; [done|].
    destruct Hr as [->|(pods & _ & [Ho _] & _)]; [by intros ?|done].
  - destruct (smartMongosUpdate_emits cr sfs t w) as (d & Hd & [Ho _]). by exists d.
Qed.


End theorems.

(** * A replica set of three pods, its primary the pod 0 *)
Definition live_pod (ns rev name index : string) : Pod :=
  {| pod_Name := name; pod_Namespace := ns;
     pod_Labels := {[ LabelComponent := "mongod"; revision_label := rev; PodIndexLabel := index ]};
     pod_Annotations := ∅; pod_Deleting := false; pod_NodeName := "node";
     pod_InitContainers := [];
     pod_Containers := [{| ctr_Name := "mongod"; ctr_Image := "mongod"; ctr_Ports := []; ctr_Resources := noResources |}];
     pod_Phase := PodRunning; pod_HostIP := "";
     pod_ContainerStatuses := [{| cs_Name := "mongod"; cs_Running := true; cs_Waiting := None;
                                  cs_Ready := true; cs_Resources := None |}];
     pod_Conditions := [] |}.
Definition old_pods : list Pod :=
  [live_pod "ns" "old" "c-rs0-0" "0"; live_pod "ns" "old" "c-rs0-1" "1"; live_pod "ns" "old" "c-rs0-2" "2"].
(** Every pod read is one that came back. *)
Definition prompt_pods : PodClient unit := {|
  pod_get := λ ns n, mret (live_pod ns "new" n "");
  pod_delete := λ _, mret tt; pod_patch := λ _ p, mret p; pod_resize := λ _ p, mret p;
  revision_template := λ _ _, notFound; poll_tick := mret PollNext; ctx_err := mret None
|}.
Lemma prompt_pods_laws : PodClientLaws prompt_pods.
Proof. split; intros * Hg; vm_compute in Hg; by inversion Hg. Qed.
Definition primary_is (host : string) : MongoClientProvider unit :=
  let client h :=
    let base := fixed_client unit demo_rsconfig (demo_status []) in
    {| cSetDefaultRWConcern := cSetDefaultRWConcern (Client := base); cReadConfig := cReadConfig (Client := base);
       cCreateRole := cCreateRole (Client := base); cUpdateRole := cUpdateRole (Client := base);
       cGetRole := cGetRole (Client := base); cCreateUser := cCreateUser (Client := base);
       cAddShard := cAddShard (Client := base); cWriteConfig := cWriteConfig (Client := base);
       cRSStatus := cRSStatus (Client := base); cStartBalancer := cStartBalancer (Client := base);
       cStopBalancer := cStopBalancer (Client := base); cIsBalancerRunning := cIsBalancerRunning (Client := base);
       cGetFCV := cGetFCV (Client := base); cSetFCV := cSetFCV (Client := base); cListDBs := cListDBs (Client := base);
       cListShard := cListShard (Client := base); cRemoveShard := cRemoveShard (Client := base);
       cRSBuildInfo := cRSBuildInfo (Client := base); cStepDown := cStepDown (Client := base);
       cFreeze := cFreeze (Client := base);
       cIsMaster := mret {| IsMaster := bool_decide (h = host); IsArbiter := false; IM_Msg := "";
                            IM_OK := {| Errmsg := ""; OK := 1 |} |};
       cGetUserInfo := cGetUserInfo (Client := base); cUpdateUserRoles := cUpdateUserRoles (Client := base);
       cUpdateUserPass := cUpdateUserPass (Client := base); cUpdateUser := cUpdateUser (Client := base);
       cRunCommand := cRunCommand (Client := base) |} in
  {| mp_Mongo := λ _ _ _ _, mret (client ""); mp_Mongos := λ _ _, mret (client "");
     mp_Standalone := λ _ _ h _, mret (client h); mp_Disconnect := mret tt |}.
Definition no_env : ClusterEnv unit := {|
  ce_exec := λ _ _ _ _, mret ("", "", None); ce_now := mret 0%Z; ce_list_restores := λ _, mret [] |}.
Definition pods_k8s : K8sClient unit :=
  let base := emptyK8s unit in
  {| k8s_get_service := k8s_get_service (K8sClient := base);
     k8s_get_node_labels := k8s_get_node_labels (K8sClient := base);
     k8s_get_service_import := k8s_get_service_import (K8sClient := base);
     k8s_list_service_exports := k8s_list_service_exports (K8sClient := base);
     k8s_get_sts := k8s_get_sts (K8sClient := base); k8s_get_secret := k8s_get_secret (K8sClient := base);
     k8s_list_sts := k8s_list_sts (K8sClient := base); k8s_list_pods := λ _ _, mret old_pods;
     go_sleep := go_sleep (K8sClient := base); go_tick := go_tick (K8sClient := base) |}.
Definition a_member (n : string) : ReplsetMemberStatus := {| rms_Name := n; rms_State := 1; rms_StateStr := "" |}.
Definition demo_rs_status : ReplsetStatus := {|
  rst_Members := {[ "c-rs0-0" := a_member "0"; "c-rs0-1" := a_member "1"; "c-rs0-2" := a_member "2" ]};
  rst_Initialized := true; rst_AddedAsShard := None; rst_Size := 3; rst_Ready := 3; rst_Status := "ready";
  rst_Message := "" |}.
Definition demo_smart : SmartCluster := {|
  sc_bc := {| bc_cr := a_cluster [a_replset "rs0" 3];
              bc_Backup := bc_Backup a_backup_cluster;
              bc_Status := set_StatusState AppStateReady
                (set_Counts 3 3 (with_Replsets (λ _, {[ "rs0" := demo_rs_status ]}) emptyStatus));
              bc_Pause := false; bc_SecretsSSE := ""; bc_UnsafeConf := false;
              bc_BackupIfUnhealthy := false |};
  sc_UpdateStrategy := SmartUpdateStatefulSetStrategyType; sc_VPA := None; sc_MongosDelay := 1;
  sc_BalancerEnabled := None; sc_TLS := None; sc_Deleting := false |}.
Definition demo_smart_rs : SmartReplset :=
  {| sr_rs := a_replset "rs0" 3; sr_LivenessDelay := 2; sr_Storage := None |}.
Definition demo_sts : StatefulSet :=
  {| sts_Name := "c-rs0"; sts_Labels := {[ LabelComponent := "mongod" ]}; sts_Annotations := ∅; sts_Generation := 1;
     sts_Controller := None; sts_Deleting := false; sts_SpecReplicas := Some 3%Z; sts_Selector := None;
     sts_TemplateLabels := ∅; sts_TemplateAnnotations := ∅;
     sts_TemplateInitContainers := []; sts_TemplateContainers := [];
     sts_UpdateRevision := "new"; sts_ObservedGeneration := 1; sts_Replicas := 3; sts_ReadyReplicas := 3;
     sts_UpdatedReplicas := 0 |}.
Definition no_version : KubeVersion := {| serverVersion := None; version_AtLeast := λ _ _ _, None |}.

Definition show (e : event) : string :=
  match e with
  | Deleted p => "deleted " +:+ pod_Name p | Got p => "got " +:+ pod_Name p
  | Patched p => "patched " +:+ pod_Name p
  | Asked h b => (if b then "primary " else "secondary ") +:+ h
  | SteppedDown f _ => if f then "forced step down" else "step down"
  | Balancer b => if b then "balancer on" else "balancer off"
  | Backups _ => "backups" | Restores _ => "restores" | Restoring _ => "restoring"
  | PbmLocks _ => "locks" | PbmOpLocks _ => "op locks" | NoPbm => "no PBM"
  | Claims _ => "claims" | ClaimWritten c => "claim written " +:+ Volumes.pvc_Name c
  | ClaimDeleted c => "claim deleted " +:+ Volumes.pvc_Name c
  | StsDeleted n => "deleted stateful set " +:+ n
  end.
Section demo.
Local Existing Instances pods_k8s prompt_pods no_env emptyYaml.
Local Instance demo_provider : MongoClientProvider unit :=
  primary_is "c-rs0-0.c-rs0.ns.svc.cluster.local:27017".
Local Instance demo_backups : BackupClient unit := emptyBackups unit.
Local Instance demo_pbm : PBM unit := emptyPBM unit.
Local Instance demo_status_updater : StatusUpdater unit := λ _ _ _, mret tt.
Local Instance demo_cluster_client : ClusterClient unit :=
  {| cr_get := λ _ _, notFound; cr_update := λ _, mret tt |}.
Local Instance demo_versions : Versions := λ _ _, 1%Z.
Local Existing Instances no_version steps_retry prompt_pods_laws steps_retry_laws.

Definition demo_run : result unit * (list event * unit) := smartUpdate demo_smart demo_sts demo_smart_rs ([], tt).

Example demo_trace : demo_run.1 = Ok tt ∧ show <$> demo_run.2.1 =
  ["backups"; "restores"; "locks"; "op locks";
   "secondary c-rs0-2.c-rs0.ns.svc.cluster.local:27017"; "deleted c-rs0-2"; "got c-rs0-2";
   "secondary c-rs0-1.c-rs0.ns.svc.cluster.local:27017"; "deleted c-rs0-1"; "got c-rs0-1";
   "primary c-rs0-0.c-rs0.ns.svc.cluster.local:27017"; "step down"; "deleted c-rs0-0"; "got c-rs0-0"].
Proof. vm_compute. split; reflexivity. Qed.

Lemma one_pod_at_a_time_witness :
  orderly demo_run.2.1 ∧ length (filter (λ e, disruptive e = true) demo_run.2.1) = 4.
Proof.
  split; [|vm_compute; reflexivity].
  destruct (one_pod_at_a_time demo_smart demo_sts demo_smart_rs [] tt) as [(d & Hd & Ho) _].
  unfold demo_run. rewrite Hd. exact Ho.
Defined.

Definition demo_pods_run : result unit * (list event * unit) :=
  update_pods demo_smart demo_sts demo_smart_rs old_pods ([], tt).

End demo.
