(* ===== verification/VolumeTrace.v ===== *)
(** Shrinking volumes as a state machine: every run of the handler takes at most
    one step of an abstract machine on the shrink state kept in the status, and
    what it did in that step is in the trace. *)
From S2P Require Import Prelude Trace KubeTrace ReplsetModels MongoClient Api GoSort Kube Hosts SystemUsers Cluster.
From S2P Require Import BackupApi BackupSchedule BackupExec BackupController SmartUpdate Volumes SmartTrace.

(** * Handlers over memory and traces

    [runs s m Q]: started with the memory [s], whatever the world and the trace,
    [m] only appends to the trace, and what it returns, leaves in memory and
    appends satisfies [Q]. *)
Section runs.
Context {S Ev W : Type}.
Abbreviation T := (S * (list Ev * W))%type.

Definition runs {A} (s : S) (m : GoM T A) (Q : result A → S → list Ev → Prop) : Prop :=
  ∀ t w, ∃ d, (m (s, (t, w))).2.2.1 = t ++ d ∧ Q (m (s, (t, w))).1 (m (s, (t, w))).2.1 d.

Lemma runs_conseq {A} s (m : GoM T A) (Q Q' : result A → S → list Ev → Prop) :
  runs s m Q → (∀ r s' d, Q r s' d → Q' r s' d) → runs s m Q'.
Proof. intros Hm HQ t w. destruct (Hm t w) as (d & Hd & Hr). exists d. auto. Qed.
Lemma runs_ret {A} s (a : A) (Q : result A → S → list Ev → Prop) : Q (Ok a) s [] → runs s (mret a) Q.
Proof. intros HQ t w. exists []. by rewrite app_nil_r. Qed.
Lemma runs_throw {A} s e (Q : result A → S → list Ev → Prop) : Q (Err e) s [] → runs s (throw e) Q.
Proof. intros HQ t w. exists []. by rewrite app_nil_r. Qed.
Lemma runs_lift {A} s (r : result A) (Q : result A → S → list Ev → Prop) : Q r s [] → runs s (liftR r) Q.
Proof. intros HQ t w. exists []. by rewrite app_nil_r. Qed.
Lemma runs_bind {A B} s (m : GoM T A) (f : A → GoM T B) Q1 (Q : result B → S → list Ev → Prop) :
  runs s m Q1 →
  (∀ a s' d, Q1 (Ok a) s' d → runs s' (f a) (λ r s'' d', Q r s'' (d ++ d'))) →
  (∀ e s' d, Q1 (Err e) s' d → Q (Err e) s' d) →
  runs s (m ≫= f) Q.
Proof.
  intros Hm Hf He t w. destruct (Hm t w) as (d & Hd & H1). unfold mbind, gom_bind.
  destruct (m (s, (t, w))) as [[a|e] [s' [t' w']]]; cbn in *; subst t'.
  - destruct (Hf a s' d H1 (t ++ d) w') as (d' & Hd' & H2). exists (d ++ d'). by rewrite Hd', app_assoc.
  - exists d. split; [done|]. by apply He.
Qed.
Lemma runs_try {A} s (m : GoM T A) (Q : result (result A) → S → list Ev → Prop) :
  runs s m (λ r, Q (Ok r)) → runs s (tryM m) Q.
Proof.
  intros Hm t w. destruct (Hm t w) as (d & Hd & Hr). unfold tryM.
  destruct (m (s, (t, w))) as [r [s' [t' w']]]. by exists d.
Qed.
Lemma runs_catch {A} s (m : GoM T A) (Q : result (result A) → S → list Ev → Prop) :
  runs s m (λ r s' d, match r with Ok a => Q (Ok (Ok a)) s' d | Err e => Q (Ok (Err e)) s' d ∧ Q (Err e) s' d end) →
  runs s (catchM m) Q.
Proof.
  intros Hm t w. destruct (Hm t w) as (d & Hd & Hr). unfold catchM.
  destruct (m (s, (t, w))) as [[a|e] [s' [t' w']]]; cbn in *; exists d; [done|].
  split; [done|]. destruct (is_panic e); by destruct Hr.
Qed.
Lemma runs_wrap {A} s msg (m : GoM T A) (Q : result A → S → list Ev → Prop) :
  runs s m (λ r, Q (wrap_err msg r)) → runs s (wrapM msg m) Q.
Proof.
  intros Hm t w. destruct (Hm t w) as (d & Hd & Hr). unfold wrapM.
  destruct (m (s, (t, w))) as [r [s' [t' w']]]. by exists d.
Qed.
Lemma runs_defer {A B} s (c : GoM T B) (m : GoM T A) Q :
  (∀ s', runs s' c (λ _ s'' d, s'' = s' ∧ d = [])) → runs s m Q → runs s (deferM c m) Q.
Proof.
  intros Hc Hm t w. destruct (Hm t w) as (d & Hd & Hr). unfold deferM.
  destruct (m (s, (t, w))) as [r [s' [t' w']]]; cbn in *; subst t'.
  destruct (Hc s' (t ++ d) w') as (d' & Hd' & -> & ->). exists d. by rewrite Hd', app_nil_r.
Qed.
End runs.

Section traced_volumes.
Context {W : Type} {VC : VolumeClient W} {CC : ClusterClient W}.
#[export] Instance traced_volumes : VolumeClient (list event * W) := {|
  pvc_list := λ a b, recorded (λ r, match r with Ok l => [Claims l] | Err _ => [] end) (pvc_list a b);
  pvc_get := λ a b, quietly (pvc_get a b);
  pvc_update := λ c, recorded (λ _, [ClaimWritten c]) (pvc_update c);
  pvc_patch := λ o c, quietly (pvc_patch o c);
  pvc_delete := λ c, recorded (λ _, [ClaimDeleted c]) (pvc_delete c);
  event_list := λ a b, quietly (event_list a b);
  vsts_get := λ a b, quietly (vsts_get a b);
  vsts_patch := λ o s, quietly (vsts_patch o s);
  vsts_delete_orphan := λ s, recorded (λ _, [StsDeleted (sts_Name s)]) (vsts_delete_orphan s);
  vcr_patch := λ o c, quietly (vcr_patch o c);
  cr_patch := λ o c, quietly (cr_patch o c)
|}.
End traced_volumes.

(** Documented behaviour of the API server: a read by name returns the object of
    that name. *)
Class VolumeClientLaws {W} (VC : VolumeClient W) :=
  vsts_get_named ns n w s w' : vsts_get ns n w = (Ok s, w') → sts_Name s = n.

(** * The abstract machine *)
Definition harmless (e : event) : Prop :=
  match e with ClaimDeleted _ | Deleted _ => False | _ => True end.
Definition no_restoring (cr : SmartCluster) (d : list event) : Prop :=
  ∃ l, Restoring l ∈ d ∧ existsb (Cluster.restore_active (cr_Name cr)) l = false.

Section steps.
Context `{Quantities} (cr : SmartCluster) (sts : StatefulSet) (claimName : string).

(** A listed claim of the pod asks for no more than the target. *)
Definition replaced (target : Z) (d : list event) (pod : string) : Prop :=
  ∃ l c, Claims l ∈ d ∧ c ∈ l ∧ validatePVCName claimName c sts = true ∧ claim_pod claimName c = pod ∧
    (storage_of (pvc_Requests c) ≤ target)%Z.
(** Pods that are found done are added to the processed ones. *)
Definition with_Processed (l : list string) (s : PVCShrinkState) : PVCShrinkState :=
  {| shr_TargetSize := shr_TargetSize s; shr_StartedAt := shr_StartedAt s; shr_Phase := shr_Phase s;
     shr_ProcessedPods := shr_ProcessedPods s ++ l; shr_PrimaryPod := shr_PrimaryPod s |}.

(** The pods of a phase: the tracked primary, or the others. *)
Definition phase_of (primary : bool) : string := if primary then phase_primary else phase_secondaries.
(** Every pod of the phase that the stateful set asks for is processed. *)
Definition phase_done (primary : bool) (s : PVCShrinkState) (l : list string) : Prop :=
  ∀ n i, sts_SpecReplicas sts = Some n → (Z.of_nat i < n)%Z →
    let name := sts_Name sts +:+ "-" +:+ itoa (Z.of_nat i) in
    in_phase primary (shr_PrimaryPod s) name = true → name ∈ shr_ProcessedPods s ++ l.
(** Why the primary may be replaced: it stepped down, it said it is no primary,
    there is none, or it could not be found. *)
Definition handed_over (s : PVCShrinkState) (d : list event) : Prop :=
  (sts_Labels sts !! LabelComponent ≠ Some ComponentMongod ∧
   sts_Labels sts !! LabelComponent ≠ Some ComponentConfigSrv) ∨
  shr_PrimaryPod s = "" ∨ SteppedDown false true ∈ d ∨ (∃ h, Asked h false ∈ d) ∨ d = [].
Definition undisturbed (d : list event) : Prop := no_backup_running cr d ∧ no_restoring cr d.

Inductive shrink_step : option PVCShrinkState → list event → option PVCShrinkState → Prop :=
| step_none s d : Forall harmless d → shrink_step s d s
| step_start s d target now primary :
    (∀ s0, s = Some s0 → shr_Phase s0 = "") → Forall harmless d → undisturbed d →
    StsDeleted (sts_Name sts) ∈ d → (primary ≠ "" → ∃ h, Asked h true ∈ d) →
    shrink_step s d (Some {| shr_TargetSize := quantity_String target; shr_StartedAt := now;
                             shr_Phase := phase_secondaries; shr_ProcessedPods := [];
                             shr_PrimaryPod := primary |})
| step_replace b s target d c e :
    shr_Phase s = phase_of b → ParseQuantity (shr_TargetSize s) = Some target →
    Forall harmless d → undisturbed d →
    to_process b s (claim_pod claimName c) = true → (target < storage_of (pvc_Requests c))%Z →
    (e = [] ∨ ∃ pod, pod_Name pod = claim_pod claimName c ∧ e = [Deleted pod]) →
    shrink_step (Some s) (d ++ ClaimDeleted c :: e) (Some s)
| step_reelect s target d l h p :
    shr_Phase s = phase_secondaries → ParseQuantity (shr_TargetSize s) = Some target →
    Forall harmless d → Forall (replaced target d) (p :: l) →
    p ≠ shr_PrimaryPod s → Asked h true ∈ d →
    shrink_step (Some s) d (Some (with_PrimaryPod p (with_Processed l s)))
| step_secondaries_done s target d l :
    shr_Phase s = phase_secondaries → ParseQuantity (shr_TargetSize s) = Some target →
    Forall harmless d → Forall (replaced target d) l → phase_done false s l →
    shrink_step (Some s) d (Some (with_Phase phase_stepdown (with_Processed l s)))
| step_stepdown s d :
    shr_Phase s = phase_stepdown → Forall harmless d → handed_over s d →
    shrink_step (Some s) d (Some (with_Phase phase_primary s))
| step_done s target d l :
    shr_Phase s = phase_primary → ParseQuantity (shr_TargetSize s) = Some target →
    Forall harmless d → Forall (replaced target d) l → phase_done true s l →
    shrink_step (Some s) d None.
End steps.

(** * Handlers that do not touch the shrink *)
Create HintDb still discriminated.
Section still.
Context {W : Type} {K : K8sClient W} {Q : PodClient W} {P : MongoClientProvider W} {E : ClusterEnv W}.
Context {KB : BackupClient W} {PB : PBM W} {SU : StatusUpdater W} {CC : ClusterClient W} {VC : VolumeClient W}.
Context {Y : Yaml} {V : Versions} {KV : KubeVersion} {G : GoSort} {R : GoRetryOn} {RL : GoRetryOnLaws R}.
Context {O : MapOrder} {QT : Quantities} {TP : TimeParser}.
Abbreviation M := (GoM (VolMem * (list event * W))).

Definition same (s s' : VolMem) : Prop :=
  vc_sc (vm_cr s') = vc_sc (vm_cr s) ∧ vs_sts (vm_sts s') = vs_sts (vm_sts s).
#[export] Instance same_equiv : Equivalence same.
Proof. unfold same. split; [by intros ?|by intros ?? [??]|intros ??? [??] [??]; split; congruence]. Qed.
Definition still {A} (m : M A) : Prop := ∀ s, runs s m (λ _ s' d, same s s' ∧ Forall harmless d).

Lemma still_ret {A} (a : A) : still (mret a).
Proof. intros s. by apply runs_ret. Qed.
Lemma still_throw {A} e : still (throw (A := A) e).
Proof. intros s. by apply runs_throw. Qed.
Lemma still_lift {A} (r : result A) : still (liftR r).
Proof. intros s. by apply runs_lift. Qed.
Lemma still_bind {A B} (m : M A) (f : A → M B) : still m → (∀ a, still (f a)) → still (m ≫= f).
Proof.
  intros Hm Hf s. eapply runs_bind; [apply Hm| |done]. intros a s' d [Hs Hd].
  eapply runs_conseq; [apply Hf|]. intros r s'' d' [Hs' Hd']. split; [by transitivity s'|]. by apply Forall_app.
Qed.
Lemma still_wrap {A} msg (m : M A) : still m → still (wrapM msg m).
Proof. intros Hm s. by apply runs_wrap. Qed.
Lemma still_try {A} (m : M A) : still m → still (tryM m).
Proof. intros Hm s. by apply runs_try. Qed.
Lemma still_catch {A} (m : M A) : still m → still (catchM m).
Proof. intros Hm s. apply runs_catch. eapply runs_conseq; [apply Hm|]. by intros [] ?? ?. Qed.
Lemma still_getCR : still getCR.
Proof. intros s t w. exists []. by rewrite app_nil_r. Qed.
Lemma still_getSts : still getSts.
Proof. intros s t w. exists []. by rewrite app_nil_r. Qed.
Lemma still_setCR f : (∀ c, vc_sc (f c) = vc_sc c) → still (setCR f).
Proof. intros Hf s t w. exists []. rewrite app_nil_r. by repeat split; cbn. Qed.
Lemma still_setSts f : (∀ c, vs_sts (f c) = vs_sts c) → still (setSts f).
Proof. intros Hf s t w. exists []. rewrite app_nil_r. by repeat split; cbn. Qed.

(** A call of the world, whose events may be known more precisely *)
Lemma runs_onV {A} s (m : GoM (list event * W) A) (Q1 : result A → list event → Prop) :
  emits m Q1 → runs s (onV m) (λ r s' d, s' = s ∧ Q1 r d).
Proof.
  intros Hm t w. destruct (Hm t w) as (d & Hd & Hr). exists d. unfold onV. cbn.
  by destruct (m (t, w)) as [r [t' w']].
Qed.
Lemma still_onV {A} (m : GoM (list event * W) A) : emits m (λ _, Forall harmless) → still (onV m).
Proof.
  intros Hm s. eapply runs_conseq; [by apply runs_onV|]. intros r s' d [-> Hd]. by split.
Qed.
Lemma quiet_harmless {A} (m : GoM (list event * W) A) : quiet m → emits m (λ _, Forall harmless).
Proof. intros Hm. by apply (quiet_emits _ _ Hm). Qed.
Lemma checks_harmless d : Forall check_event d → Forall harmless d.
Proof. intros Hd. apply (Forall_impl _ _ _ Hd). by intros []. Qed.
Lemma still_quiet {A} (m : GoM (list event * W) A) : quiet m → still (onV m).
Proof. intros Hm. by apply still_onV, quiet_harmless. Qed.
Lemma still_recorded {A} ev (m : GoM W A) : (∀ r, Forall harmless (ev r)) → still (onV (recorded ev m)).
Proof. intros Hev. apply still_onV. eapply emits_conseq; [apply emits_recorded|]. by intros r d ->. Qed.

(** Goes through a handler of still calls. *)
Ltac still_step := first
  [ done | assumption | solve [auto 1 with still nocore]
  | apply still_ret | apply still_throw | apply still_lift | apply still_getCR | apply still_getSts
  | apply still_setCR; intros ?; done | apply still_setSts; intros ?; done
  | apply still_quiet; solve [solve_quiet] | apply still_recorded; intros [?|?]; by repeat constructor
  | apply still_bind; [|intros ?] | apply still_wrap | apply still_try | apply still_catch ].
Ltac solve_still := repeat first [still_step | progress (cbv beta zeta) | case_match].

Lemma still_annotate_sts sts a : still (annotate_sts sts a : M unit).
Proof. unfold annotate_sts, AnnotateObject. apply still_quiet. cbn. solve_quiet. Qed.
Lemma still_deannotate_sts sts a : still (deannotate_sts sts a : M unit).
Proof. unfold deannotate_sts, DeannotateObject. apply still_quiet. cbn. solve_quiet. Qed.
Lemma still_annotate_cr cr a : still (annotate_cr cr a : M unit).
Proof. unfold annotate_cr, AnnotateObject. apply still_quiet. cbn. solve_quiet. Qed.
Hint Resolve still_annotate_sts still_deannotate_sts still_annotate_cr : still.
Lemma still_revert sts q : still (revertVolumeTemplate sts q : M unit).
Proof. unfold revertVolumeTemplate. solve_still. Qed.
Hint Resolve still_revert : still.
Lemma still_failure sts q : still (handlePVCResizeFailure sts q : M unit).
Proof. unfold handlePVCResizeFailure. solve_still. Qed.
Hint Resolve still_failure : still.
Lemma still_delete_sts sts : still (deleteStatefulSetForResize sts : M unit).
Proof. unfold deleteStatefulSetForResize. solve_still. Qed.
Hint Resolve still_delete_sts : still.
Lemma still_count sts q c t pvcs n : still (count_resized sts q c t pvcs n : M nat).
Proof. revert n; induction pvcs as [|p l IH]; intros n; cbn [count_resized]; solve_still. Qed.
Hint Resolve still_count : still.
Lemma still_spec_requests key : still (spec_requests key : M _).
Proof. unfold spec_requests. solve_still. Qed.
Hint Resolve still_spec_requests : still.
Lemma still_spec_request key : still (spec_request key : M _).
Proof. unfold spec_request. solve_still. Qed.
Lemma still_write_spec key q : still (write_spec_request key q : M _).
Proof. unfold write_spec_request. solve_still. Qed.
Lemma still_align name q : still (align_template name q : M _).
Proof. unfold align_template. solve_still. Qed.
Lemma still_update_claims sts q c pvcs : still (update_claims sts q c pvcs : M _).
Proof. induction pvcs as [|p l IH]; cbn [update_claims]; solve_still. Qed.
Hint Resolve still_spec_request still_write_spec still_align still_update_claims : still.
Lemma still_start_resize sts q c l : still (start_resize sts q c l : M _).
Proof. unfold start_resize. solve_still. Qed.
Lemma still_progress sts q c l : still (resize_progress sts q c l : M _).
Proof. unfold resize_progress. solve_still. Qed.
Hint Resolve still_start_resize still_progress : still.

Lemma quiet_usage pod name container path :
  quiet (getPVCUsageFromMetrics pod name container path : GoM (list event * W) PVCUsage).
Proof.
  intros t w. exists []. rewrite app_nil_r. split; [|done]. unfold getPVCUsageFromMetrics. cbv zeta.
  match goal with |- context [retry_on ?n ?p ?f ?x] =>
    pose proof (retry_on_attempts _ n p f x) as Ha; destruct (retry_on n p f x) as [r [o [t' w']]] end.
  assert (∀ c p (y : string * (list event * W)), y.2.1 = t → (df_once pod c p y).2.2.1 = t) as Hf.
  { intros c p [o' [t1 w1]] Ht. cbn in Ht. subst t1. unfold df_once. cbn.
    unfold quietly, recorded. cbn. destruct (ce_exec _ _ _ _ w1) as [[[[??] [?|]]|?] ?]; cbn; by rewrite app_nil_r. }
  destruct (attempts_inv _ _ _ _ _ (λ y, y.2.1 = t) Ha eq_refl (Hf _ _)) as (y & Hy & Ey).
  apply (f_equal (λ z, z.2.2.1)) in Ey. rewrite Hf in Ey by done. cbn in Ey. subst t'. by destruct r.
Qed.
Lemma still_usage pod name container path : still (onV (getPVCUsageFromMetrics pod name container path) : M _).
Proof. apply still_quiet, quiet_usage. Qed.
Hint Resolve still_usage : still.
Lemma still_usage_fits sx sts q a pods : still (usage_fits sx sts q a pods : M _).
Proof. induction pods as [|p l IH]; cbn [usage_fits]; solve_still. Qed.

Lemma emits_primary cr pod (replset : ReplsetSpec) :
  emits (isPodPrimary cr pod replset : GoM (list event * W) bool) (λ r d,
    match r with Ok b => ∃ h, d = [Asked h b] | Err _ => d = [] end).
Proof. eapply emits_conseq; [apply isPodPrimary_emits|]. intros [b|e] d; [|done]. intros (h & _ & ->). by exists h. Qed.
Lemma primary_harmless cr pod (replset : ReplsetSpec) :
  emits (isPodPrimary cr pod replset : GoM (list event * W) bool) (λ _, Forall harmless).
Proof.
  eapply emits_conseq; [apply emits_primary|]. intros [b|e] d.
  - intros [h ->]. by apply Forall_singleton.
  - by intros ->.
Qed.
Lemma emits_step_down cr pod (replset : ReplsetSpec) n :
  emits (stepDownPod cr replset pod n : GoM (list event * W) unit) (λ r d,
    Forall harmless d ∧ (r = Ok tt → SteppedDown false true ∈ d)).
Proof.
  unfold stepDownPod. eapply emits_wrap_bind; [apply standalone_emits| |].
  - intros C d [-> HC]. destruct (HC C eq_refl) as (h & C0 & Hh & ->). cbn [app].
    apply emits_defer; [apply quiet_quietly|]. apply emits_wrap.
    eapply emits_conseq; [apply emits_recorded|]. intros r d ->. split; [by apply Forall_singleton|].
    destruct r as [[]|e]; [|done]. intros _. set_solver.
  - intros e d [-> _]. by split.
Qed.
Lemma emits_restoring cr :
  emits (isRestoreRunning cr : GoM (list event * W) bool) (λ r d,
    Forall harmless d ∧ (r = Ok false → ∃ l, Restoring l ∈ d ∧ existsb (Cluster.restore_active (cr_Name cr)) l = false)).
Proof.
  unfold isRestoreRunning. eapply emits_bind with (Q1 := λ r d, Forall harmless d ∧
    match r with
    | Ok (Ok l) => Restoring l ∈ d
    | Ok (Err e) => IsNotFound e = true → Restoring [] ∈ d
    | Err _ => True
    end).
  - apply emits_try. eapply emits_conseq; [apply emits_recorded|]. intros [l|e] d ->; cbn.
    + split; [by apply Forall_singleton|set_solver].
    + case_match; [split; [by apply Forall_singleton|set_solver]|done].
  - intros [l|e] d [Hd Hl].
    + apply emits_ret. rewrite app_nil_r. split; [done|]. intros [= Hr]. by exists l.
    + case_match; [apply emits_ret|apply emits_throw]; rewrite app_nil_r; (split; [done|]); [|done].
      intros _. exists []. auto.
  - intros e d [Hd _]. by split.
Qed.

(** ** Starting a shrink *)
Lemma no_backup_app_r (cr : SmartCluster) d1 d2 : no_backup_running cr d2 → no_backup_running cr (d1 ++ d2).
Proof. intros (l & Hl & H). exists l. set_solver. Qed.
Lemma no_backup_app_l (cr : SmartCluster) d1 d2 : no_backup_running cr d1 → no_backup_running cr (d1 ++ d2).
Proof. intros (l & Hl & H). exists l. set_solver. Qed.
Lemma no_restoring_app_r (cr : SmartCluster) d1 d2 : no_restoring cr d2 → no_restoring cr (d1 ++ d2).
Proof. intros (l & Hl & H). exists l. set_solver. Qed.
Lemma no_restoring_app_l (cr : SmartCluster) d1 d2 : no_restoring cr d1 → no_restoring cr (d1 ++ d2).
Proof. intros (l & Hl & H). exists l. set_solver. Qed.
Lemma undisturbed_app cr d1 d2 : undisturbed cr d2 → undisturbed cr (d1 ++ d2).
Proof. intros [??]. split; [by apply no_backup_app_r|by apply no_restoring_app_r]. Qed.
Lemma undisturbed_app_l cr d1 d2 : undisturbed cr d1 → undisturbed cr (d1 ++ d2).
Proof. intros [??]. split; [by apply no_backup_app_l|by apply no_restoring_app_l]. Qed.

Definition shrink_map (s : VolMem) : gmap string PVCShrinkState := bc_PVCShrink (vm_cr s).
Lemma same_map s s' : same s s' → shrink_map s' = shrink_map s.
Proof. unfold shrink_map. by intros [-> _]. Qed.

(** What the last part of the preflight may do: nothing to the shrink, or start
    it. *)
Definition started name (target : Z) (s s' : VolMem) (d : list event) : Prop :=
  ∃ now primary, shrink_map s' = <[name :=
      {| shr_TargetSize := quantity_String target; shr_StartedAt := now; shr_Phase := phase_secondaries;
         shr_ProcessedPods := []; shr_PrimaryPod := primary |}]> (shrink_map s) ∧
    StsDeleted name ∈ d ∧ (primary ≠ "" → ∃ h, Asked h true ∈ d).
Definition may_start name (target : Z) (s : VolMem) (_ : result unit) (s' : VolMem) (d : list event) : Prop :=
  Forall harmless d ∧ (same s s' ∨ started name target s s' d).
Lemma may_start_calm name target s (r : result unit) s' d :
  same s s' ∧ Forall harmless d → may_start name target s r s' d.
Proof. intros [Hs Hd]. split; [done|by left]. Qed.
Lemma may_start_app name target s s' (r r' : result unit) s'' d d' :
  same s s' → Forall harmless d → may_start name target s' r s'' d' → may_start name target s r' s'' (d ++ d').
Proof.
  intros Hs Hd [Hd' Ho]. split; [by apply Forall_app|]. destruct Ho as [Ho|(now & p & Hm & Hx & Hp)].
  - left. by transitivity s'.
  - right. exists now, p. rewrite Hm, (same_map _ _ Hs). split; [done|]. split; [set_solver|].
    intros Hne. destruct (Hp Hne) as [h Hh]. exists h. set_solver.
Qed.
Lemma may_start_bind {A} name target s (m : M A) (f : A → M unit) :
  still m → (∀ a s, runs s (f a) (may_start name target s)) → runs s (m ≫= f) (may_start name target s).
Proof.
  intros Hm Hf. eapply runs_bind; [apply Hm| |].
  - intros a s' d [Hs Hd]. eapply runs_conseq; [apply Hf|]. intros r s'' d'. by apply may_start_app.
  - intros e s' d H. by apply may_start_calm.
Qed.
Lemma may_start_of_calm name target s (m : M unit) : still m → runs s m (may_start name target s).
Proof. intros Hm. eapply runs_conseq; [apply Hm|]. intros r s' d H. by apply may_start_calm. Qed.

Lemma runs_find_primary s replset pods :
  runs s (find_primary replset pods : M string) (λ r s' d, same s s' ∧ Forall harmless d ∧
    ∀ p, r = Ok p → p ≠ "" → ∃ h, Asked h true ∈ d).
Proof.
  induction pods as [|pod l IH]; cbn [find_primary].
  { apply runs_ret. split; [done|]. split; [done|]. by intros p [= <-]. }
  eapply runs_bind with (Q1 := λ (r : result VolCluster) s' d, s' = s ∧ d = []).
  { intros t w. exists []. by rewrite app_nil_r. }
  2: by intros e s' d [-> ->].
  intros cr s' d [-> ->]. cbn [app].
  eapply runs_bind with (Q1 := λ r s' d, s' = s ∧ Forall harmless d ∧ (r = Ok (Ok true) → ∃ h, Asked h true ∈ d)).
  - apply runs_catch. eapply runs_conseq; [apply runs_onV, emits_primary|].
    intros [b|e] s' d [-> Hd]; [|subst d; by repeat split].
    destruct Hd as [h ->]. split; [done|]. split; [by apply Forall_singleton|]. intros [= ->]. exists h. set_solver.
  - intros r s' d (-> & Hd & Hr).
    assert (runs s (find_primary replset l : M string) (λ r s' d', same s s' ∧ Forall harmless (d ++ d') ∧
      ∀ p, r = Ok p → p ≠ "" → ∃ h, Asked h true ∈ d ++ d')) as Hrest.
    { eapply runs_conseq; [apply IH|]. intros r' s' d' (Hs & Hd' & Hp). split; [done|].
      split; [by apply Forall_app|]. intros p Ep Hne. destruct (Hp p Ep Hne) as [h Hh]. exists h. set_solver. }
    destruct r as [[|]|e]; [|done|done]. apply runs_ret. rewrite app_nil_r. split; [done|]. split; [done|]. auto.
  - intros e s' d (-> & Hd & _). by repeat split.
Qed.

Lemma still_balancer cr : still (onV (disableBalancer cr) : M unit).
Proof.
  apply still_onV. eapply emits_conseq; [apply disableBalancer_emits|]. intros r d. apply checks_harmless.
Qed.
Hint Resolve still_balancer : still.
Lemma delete_sts_runs sts s :
  runs s (deleteStatefulSetForResize sts : M unit) (λ r s' d,
    same s s' ∧ Forall harmless d ∧ (r = Ok tt → StsDeleted (sts_Name sts) ∈ d)).
Proof.
  unfold deleteStatefulSetForResize. eapply runs_bind; [apply still_getCR| |].
  2: { intros e s' d [Hs Hd]. done. }
  intros cr s1 d1 [Hs1 Hd1].
  eapply runs_bind with (Q1 := λ _ s' d, same s1 s' ∧ Forall harmless d).
  { case_match; [|apply still_ret]. eapply still_bind; [solve_still|intros ?; apply still_ret]. }
  2: { intros e s' d [Hs Hd]. split; [by transitivity s1|]. split; [by apply Forall_app|done]. }
  intros _ s2 d2 [Hs2 Hd2].
  eapply runs_bind with (Q1 := λ (_ : result (result unit)) s' d, s' = s2 ∧ d = [StsDeleted (sts_Name sts)]).
  { apply runs_try. eapply runs_conseq; [apply runs_onV, emits_recorded|]. by intros r s' d [-> ->]. }
  2: { intros e s' d [-> ->]. split; [by transitivity s1|]. split; [|done].
       repeat apply Forall_app_2; try done. by apply Forall_singleton. }
  intros r s' d [-> ->].
  assert (∀ r' : result unit, same s s2 ∧ Forall harmless (d1 ++ d2 ++ [StsDeleted (sts_Name sts)] ++ []) ∧
    (r' = Ok tt → StsDeleted (sts_Name sts) ∈ d1 ++ d2 ++ [StsDeleted (sts_Name sts)] ++ [])) as Hend.
  { intros r'. split; [by transitivity s1|]. split; [|set_solver].
    repeat apply Forall_app_2; try done. by apply Forall_singleton. }
  destruct r as [[]|e]; [by apply runs_ret|]. case_match; [by apply runs_ret|by apply runs_throw].
Qed.
Lemma shrink_start_runs sx sts q a pods s :
  runs s (shrink_start sx sts q a pods : M unit) (may_start (sts_Name sts) q s).
Proof.
  unfold shrink_start. apply may_start_bind; [apply still_getCR|]. intros cr s1.
  apply may_start_bind; [solve_still|]. intros _ s2.
  eapply runs_bind with (Q1 := λ r s' d, same s2 s' ∧ Forall harmless d ∧
    ∀ p, r = Ok p → p ≠ "" → ∃ h, Asked h true ∈ d).
  { destruct (sx_names_primary sx); [apply runs_find_primary|]. apply runs_ret.
    split; [done|]. split; [done|]. by intros p [= <-]. }
  2: { intros e s' d (Hs & Hd & _). by apply may_start_calm. }
  intros p s3 d (Hs & Hd & Hp). specialize (Hp p eq_refl). case_match.
  { eapply runs_conseq; [apply (may_start_of_calm (sts_Name sts) q), still_align|]. intros r s' d'.
    by apply may_start_app. }
  eapply runs_bind with (Q1 := λ r s' d, same s3 s' ∧ Forall harmless d ∧ (r = Ok tt → StsDeleted (sts_Name sts) ∈ d)).
  - apply runs_wrap. eapply runs_conseq; [apply delete_sts_runs|]. intros [[]|e] s' d' (H1 & H2 & Hx);
      (split; [exact H1|split; [exact H2|]]); [exact Hx|done].
  - intros [] s4 d' (Hs' & Hd' & Hx). specialize (Hx eq_refl).
    eapply runs_bind with (Q1 := λ (_ : result time) s' d, s' = s4 ∧ d = []).
    { eapply runs_conseq; [apply runs_onV; apply quiet_quietly|]. by intros r s' d'' [-> ->]. }
    2: { intros e s' d'' [-> ->]. apply may_start_calm. rewrite app_nil_r.
         split; [by transitivity s3|by apply Forall_app]. }
    intros now s' d'' [-> ->]. intros t w. exists []. rewrite app_nil_r. split; [done|]. cbn.
    split; [by rewrite !Forall_app|]. right. exists (rfc3339 now), p. split.
    { assert (shrink_map s4 = shrink_map s2) as <-; [|done]. by rewrite (same_map _ _ Hs'), (same_map _ _ Hs). }
    split; [set_solver|]. intros Hne. destruct (Hp Hne) as [h Hh]. exists h. set_solver.
  - intros e s' d' (Hs' & Hd' & _). apply may_start_calm. split; [by transitivity s3|by apply Forall_app].
Qed.

Lemma emits_mongo cr (replset : ReplsetSpec) role b :
  emits (mp_Mongo cr replset role b : GoM (list event * W) _) (λ r d, d = [] ∧
    ∀ C, r = Ok C → ∃ C0, C = traced_client "" C0).
Proof.
  cbn [mp_Mongo traced_provider]. unfold connected.
  apply emits_quiet_bind; [apply quiet_quietly| |done]. intros C. apply emits_ret. split; [done|].
  intros C' [= <-]. by exists C.
Qed.
Lemma shrink_healthy_runs sx a name q s (k : M unit) :
  (∀ s, runs s k (may_start name q s)) → runs s (shrink_healthy sx a k) (may_start name q s).
Proof.
  intros Hk. unfold shrink_healthy. destruct (sx_names_primary sx) as [replset|]; [|done].
  apply may_start_bind; [apply still_getCR|]. intros cr s1.
  eapply runs_bind with (Q1 := λ r s' d, s' = s1 ∧ d = [] ∧
    match r with Ok (Ok C) => ∃ C0, C = traced_client "" C0 | _ => True end).
  { apply runs_catch. eapply runs_conseq; [apply runs_onV, emits_mongo|].
    intros [C|e] s' d (-> & -> & HC); [|done]. split; [done|]. split; [done|]. by apply HC. }
  2: { intros e s' d (-> & -> & _). by apply may_start_calm. }
  intros r s' d (-> & -> & HC). cbn [app]. destruct r as [C|e]; [|apply may_start_of_calm, still_align].
  destruct HC as [C0 ->]. apply runs_defer.
  { intros s'. eapply runs_conseq; [apply runs_onV, quiet_quietly|]. by intros r s'' d [-> ->]. }
  apply may_start_bind; [apply still_catch, still_quiet, quiet_quietly|]. intros [st|e] s2.
  - case_match; [apply Hk|apply may_start_of_calm, still_align].
  - apply may_start_of_calm, still_align.
Qed.

(** What the whole preflight may do *)
Definition may_start_undisturbed (cr : SmartCluster) name (target : Z) (s : VolMem) (r : result unit)
    (s' : VolMem) (d : list event) : Prop :=
  Forall harmless d ∧ (same s s' ∨ started name target s s' d ∧ undisturbed cr d).
Lemma shrinkPreflight_runs sx q a s :
  runs s (shrinkPreflight sx q a : M unit) (may_start_undisturbed (vm_cr s) (sts_Name (vm_sts s)) q s).
Proof.
  set (Q0 := may_start_undisturbed _ _ _ _).
  assert (∀ s1 (m : M unit) d0, same s s1 → Forall harmless d0 → still m →
    runs s1 m (λ r s' d, Q0 r s' (d0 ++ d))) as Hcalm.
  { intros s1 m d0 Hs0 Hd0 Hm. eapply runs_conseq; [apply Hm|]. intros r s' d [Hs Hd].
    split; [by apply Forall_app|]. left. by transitivity s1. }
  assert (∀ s' d (r : result unit), same s s' → Forall harmless d → Q0 r s' d) as Hstop.
  { intros s' d r Hs Hd. split; [done|by left]. }
  unfold shrinkPreflight. cbv zeta.
  eapply runs_bind with (Q1 := λ r s' d, s' = s ∧ d = [] ∧ r = Ok (vm_cr s)).
  { intros t w. exists []. by rewrite app_nil_r. }
  2: by intros e s' d (-> & -> & ?).
  intros cr s' d (-> & -> & [= ->]). cbn [app].
  eapply runs_bind with (Q1 := λ r s' d, s' = s ∧ d = [] ∧ r = Ok (vm_sts s)).
  { intros t w. exists []. by rewrite app_nil_r. }
  2: by intros e s' d (-> & -> & ?).
  intros sts s' d (-> & -> & [= ->]). cbn [app].
  case_match; [by apply (Hcalm _ _ []); [..|apply still_align]|].
  eapply runs_bind with (Q1 := λ r s' d, s' = s ∧ Forall harmless d ∧
    (r = Ok false → no_backup_running (vm_cr s) d)).
  { apply runs_wrap. eapply runs_conseq; [apply runs_onV, isBackupRunning_emits|].
    intros [b|e] s' d (-> & Hd & Hb); (split; [done|]); (split; [by apply checks_harmless|done]). }
  2: { intros e s' d (-> & Hd & _). by apply Hstop. }
  intros b s' d1 (-> & Hd1 & Hb). destruct b; [by apply Hcalm; [..|apply still_align]|]. specialize (Hb eq_refl).
  eapply runs_bind with (Q1 := λ r s' d, s' = s ∧ Forall harmless d ∧ (r = Ok false → no_restoring (vm_cr s) d)).
  { apply runs_wrap. eapply runs_conseq; [apply runs_onV, emits_restoring|].
    by intros [b|e] s' d (-> & Hd & Hr). }
  2: { intros e s' d (-> & Hd & _). apply Hstop; [done|by apply Forall_app]. }
  intros b s' d2 (-> & Hd2 & Hr).
  assert (Forall harmless (d1 ++ d2)) as Hd12 by by apply Forall_app.
  assert (∀ m : M unit, runs s m (may_start (sts_Name (vm_sts s)) q s) →
    no_restoring (vm_cr s) d2 → runs s m (λ r s' d, Q0 r s' (d1 ++ d2 ++ d))) as Hlast.
  { intros m Hm Hnr. eapply runs_conseq; [apply Hm|]. intros r s' d [Hd Ho].
    rewrite app_assoc. split; [by apply Forall_app|]. destruct Ho as [Ho|Ho]; [by left|]. right. split.
    - destruct Ho as (now & p & Hm' & Hx & Hp). exists now, p. split; [done|]. split; [set_solver|].
      intros Hne. destruct (Hp Hne) as [h Hh]. exists h. set_solver.
    - apply undisturbed_app_l. split; [by apply no_backup_app_l|by apply no_restoring_app_r]. }
  destruct b.
  { eapply runs_conseq; [apply still_align|]. intros r s' d [Hs Hd]. rewrite app_assoc.
    apply Hstop; [done|]. by apply Forall_app. }
  apply Hlast; [|by apply Hr]. clear Hlast Hcalm Hstop.
  apply may_start_bind.
  { apply still_wrap, still_onV. eapply emits_conseq; [apply smart_jobs_emits|].
    intros r d [Hd _]. by apply checks_harmless. }
  intros jobs s1. case_match; [apply may_start_of_calm, still_align|].
  case_match; [apply may_start_of_calm; solve_still|].
  apply may_start_bind; [solve_still|]. intros pods s2.
  apply may_start_bind; [apply still_usage_fits|]. intros fits s3.
  destruct fits; cbn [negb]; [|apply may_start_of_calm, still_ret].
  apply shrink_healthy_runs. intros s4. apply shrink_start_runs.
Qed.

(** ** The pods *)
Section pods.
Context (b : bool) (target : Z) (byPod : gmap string PersistentVolumeClaim).
Implicit Types (state : PVCShrinkState).

Definition found (p : string) : Prop :=
  ∃ c, byPod !! p = Some c ∧ (storage_of (pvc_Requests c) ≤ target)%Z.
(** All pods were found done. *)
Definition all_found (pods : list Pod) state (r : result (option PVCShrinkState)) (d : list event) : Prop :=
  ∃ l, r = Ok (Some (with_Processed l state)) ∧ Forall harmless d ∧ Forall found l ∧
    ∀ pod, pod ∈ pods → to_process b state (pod_Name pod) = true → pod_Name pod ∈ l.
(** A claim was deleted, and its pod. *)
Definition one_deleted state (d : list event) : Prop :=
  ∃ d0 pod c e, d = d0 ++ ClaimDeleted c :: e ∧ Forall harmless d0 ∧ byPod !! pod_Name pod = Some c ∧
    to_process b state (pod_Name pod) = true ∧ (target < storage_of (pvc_Requests c))%Z ∧
    (e = [] ∨ e = [Deleted pod]).
(** A pod has become primary. *)
Definition reelected s state (s' : VolMem) (d : list event) : Prop :=
  b = false ∧ ∃ l p h, Forall harmless d ∧ Forall found (p :: l) ∧ to_process b state p = true ∧
    Asked h true ∈ d ∧
    shrink_map s' = <[sts_Name (vm_sts s) := with_PrimaryPod p (with_Processed l state)]> (shrink_map s).
Definition processed s (pods : list Pod) state (r : result (option PVCShrinkState)) (s' : VolMem) (d : list event)
    : Prop :=
  (s' = s ∧ all_found pods state r d) ∨
  (∀ x, r ≠ Ok (Some x)) ∧ (s' = s ∧ (Forall harmless d ∨ one_deleted state d) ∨ reelected s state s' d).

Lemma with_Processed_nil state : with_Processed [] state = state.
Proof. destruct state. unfold with_Processed. cbn. by rewrite app_nil_r. Qed.
Lemma with_Processed_cons p l state : with_Processed l (add_Processed p state) = with_Processed (p :: l) state.
Proof. unfold with_Processed, add_Processed. cbn. by rewrite <- app_assoc. Qed.
Lemma to_process_add p q state :
  to_process b (add_Processed p state) q = to_process b state q && negb (bool_decide (q = p)).
Proof.
  unfold to_process. cbn. destruct (in_phase _ _ _); [|done]. cbn.
  repeat case_bool_decide; set_solver.
Qed.

(** One more pod was found done. *)
Lemma processed_cons s pod pods state d0 r s' d :
  found (pod_Name pod) → Forall harmless d0 → to_process b state (pod_Name pod) = true →
  processed s pods (add_Processed (pod_Name pod) state) r s' d → processed s (pod :: pods) state r s' (d0 ++ d).
Proof.
  intros Hf Hd0 Hp [[-> (l & -> & Hd & Hl & Hall)]|[Hr Ho]]; [left|right].
  - split; [done|]. exists (pod_Name pod :: l). rewrite with_Processed_cons. split; [done|].
    split; [by apply Forall_app|]. split; [by constructor|]. intros q [->|Hq]%elem_of_cons Hpq; [set_solver|].
    destruct (decide (pod_Name q = pod_Name pod)) as [->|Hne]; [set_solver|]. apply elem_of_cons. right.
    apply Hall; [done|]. rewrite to_process_add, Hpq. by rewrite bool_decide_eq_false_2.
  - split; [done|]. destruct Ho as [[-> Ho]|(Hb & l & p & h & Hd & Hl & Htp & Ha & Hm)]; [left|right].
    + split; [done|]. destruct Ho as [Hd|(d1 & q & c & e & -> & Hd & Hq & Htp & H)]; [left; by apply Forall_app|right].
      exists (d0 ++ d1), q, c, e. rewrite <- app_assoc. split; [done|]. split; [by apply Forall_app|].
      rewrite to_process_add in Htp. apply andb_prop in Htp as [Htp _]. done.
    + split; [done|]. exists (pod_Name pod :: l), p, h. rewrite <- with_Processed_cons.
      split; [by apply Forall_app|]. rewrite to_process_add in Htp. apply andb_prop in Htp as [Htp _].
      apply Forall_cons in Hl as [Hp' Hl]. split; [by repeat constructor|]. split; [done|]. split; [set_solver|done].
Qed.
Lemma processed_skip s pod pods state r s' d :
  to_process b state (pod_Name pod) = false → processed s pods state r s' d → processed s (pod :: pods) state r s' d.
Proof.
  intros Hf [[-> (l & -> & Hd & Hl & Hall)]|H]; [left|by right]. split; [done|]. exists l. split_and!; try done.
  intros q [->|Hq]%elem_of_cons Hpq; [congruence|auto].
Qed.
Lemma processed_stop s pods state (r : result (option PVCShrinkState)) d :
  (∀ x, r ≠ Ok (Some x)) → Forall harmless d → processed s pods state r s d.
Proof. intros Hr Hd. right. split; [done|]. left. auto. Qed.

Lemma runs_ignore_deleted s msg ev (m : GoM W unit) :
  runs s (IgnoreDeleted msg (onV (recorded (λ _, [ev]) m)) : M unit) (λ _ s' d, s' = s ∧ d = [ev]).
Proof.
  unfold IgnoreDeleted. eapply runs_bind with (Q1 := λ (_ : result (result unit)) s' d, s' = s ∧ d = [ev]).
  - apply runs_try. eapply runs_conseq; [apply runs_onV, emits_recorded|]. by intros r s' d [-> ->].
  - intros [[]|e] s' d [-> ->]; [by apply runs_ret|]. case_match; [by apply runs_ret|by apply runs_throw].
  - by intros e s' d [-> ->].
Qed.

Lemma replace_runs s pod pods state c msg1 msg2 :
  byPod !! pod_Name pod = Some c → to_process b state (pod_Name pod) = true →
  (target < storage_of (pvc_Requests c))%Z →
  runs s (IgnoreDeleted msg1 (onV (pvc_delete c));; IgnoreDeleted msg2 (onV (pod_delete pod));; mret None : M _)
    (processed s (pod :: pods) state).
Proof.
  intros Hc Hp Ht.
  assert (∀ (r : result (option PVCShrinkState)) e, (∀ x, r ≠ Ok (Some x)) → e = [] ∨ e = [Deleted pod] →
    processed s (pod :: pods) state r s (ClaimDeleted c :: e)) as Hend.
  { intros r e Hr He. right. split; [done|]. left. split; [done|]. right. by exists [], pod, c, e. }
  eapply runs_bind; [apply runs_ignore_deleted| |].
  - intros [] s' d [-> ->]. eapply runs_bind; [apply runs_ignore_deleted| |].
    + intros [] s' d [-> ->]. apply runs_ret. apply Hend; auto.
    + intros e s' d [-> ->]. apply Hend; auto.
  - intros e s' d [-> ->]. apply Hend; auto.
Qed.

(** The tracked primary becomes another pod, unless it is the primary's turn. *)
Lemma reelect_runs s pod pods state d0 h :
  found (pod_Name pod) → to_process b state (pod_Name pod) = true → Forall harmless d0 → Asked h true ∈ d0 →
  runs s ((if b then mret tt
           else sts ← getSts;
                setCR (SetPVCShrinkState (sts_Name (sts : VolStatefulSet)) (with_PrimaryPod (pod_Name pod) state)));;
          mret None : M _)
    (λ r s' d, processed s (pod :: pods) state r s' (d0 ++ d)).
Proof.
  intros Hf Hp Hd0 Hh t w. exists []. rewrite !app_nil_r. destruct b eqn:Hb.
  - split; [cbn; by rewrite ?app_nil_r|]. right. split; [done|]. left. auto.
  - split; [cbn; by rewrite ?app_nil_r|]. right. split; [done|]. right. split; [done|].
    rewrite Hb. exists [], (pod_Name pod), h. rewrite with_Processed_nil.
    split; [done|]. split; [by apply Forall_singleton|]. done.
Qed.

Lemma process_pods_runs sx s pods state :
  runs s (process_pods sx b target byPod state pods : M _) (processed s pods state).
Proof.
  revert state; induction pods as [|pod pods IH]; intros state; cbn [process_pods].
  { apply runs_ret. left. split; [done|]. exists []. rewrite with_Processed_nil. split_and!; try done. set_solver. }
  destruct (to_process b state (pod_Name pod)) eqn:Hp; cbn [negb].
  2: { eapply runs_conseq; [apply IH|]. intros r s' d. by apply processed_skip. }
  destruct (byPod !! pod_Name pod) as [c|] eqn:Hc; [|apply runs_ret; by apply processed_stop].
  destruct (_ <? _)%Z eqn:Ht; [apply replace_runs; [done|done|by apply Z.ltb_lt]|]. apply Z.ltb_ge in Ht.
  assert (found (pod_Name pod)) as Hf by by exists c.
  destruct (isPodReady pod); cbn [negb]; [|apply runs_ret; by apply processed_stop].
  assert (∀ d0, Forall harmless d0 →
    runs s (process_pods sx b target byPod (add_Processed (pod_Name pod) state) pods : M _)
      (λ r s' d, processed s (pod :: pods) state r s' (d0 ++ d))) as Hnext.
  { intros d0 Hd0. eapply runs_conseq; [apply IH|]. intros r s' d. by apply processed_cons. }
  cbv zeta. destruct (sx_names_primary sx) as [replset|]; [|by apply (Hnext [])].
  eapply runs_bind with (Q1 := λ (r : result VolCluster) s' d, s' = s ∧ d = []).
  { intros t w. exists []. by rewrite app_nil_r. }
  2: { intros e s' d [-> ->]. by apply processed_stop. }
  intros cr s' d [-> ->]. cbn [app].
  eapply runs_bind with (Q1 := λ r s' d, s' = s ∧ Forall harmless d ∧ (r = Ok (Ok true) → ∃ h, Asked h true ∈ d)).
  { apply runs_catch. eapply runs_conseq; [apply runs_onV, emits_primary|].
    intros [x|e] s' d [-> Hd]; [|subst d; by repeat split].
    destruct Hd as [h ->]. split; [done|]. split; [by apply Forall_singleton|]. intros [= ->]. exists h. set_solver. }
  2: { intros e s' d (-> & Hd & _). by apply processed_stop. }
  intros r s' d (-> & Hd & Hr).
  assert (runs s (mret None : M (option PVCShrinkState)) (λ r s' d', processed s (pod :: pods) state r s' (d ++ d'))) as Hstop.
  { apply runs_ret. rewrite app_nil_r. by apply processed_stop. }
  destruct r as [[|]|e]; [|by apply Hnext|done]. destruct (Hr eq_refl) as [h Hh].
  by eapply reelect_runs.
Qed.
End pods.

(** ** One step of the machine *)
Definition stepped claimName (s : VolMem) (s' : VolMem) (d : list event) : Prop :=
  let name := sts_Name (vm_sts s) in
  ∃ s1, shrink_map s' = partial_alter (λ _, s1) name (shrink_map s) ∧
    shrink_step (vm_cr s) (vm_sts s) claimName (shrink_map s !! name) d s1.

Lemma stepped_same claimName s s' d : same s s' → Forall harmless d → stepped claimName s s' d.
Proof.
  intros Hs Hd. eexists. split; [|by apply step_none]. by rewrite partial_alter_self, (same_map _ _ Hs).
Qed.
Lemma stepped_self claimName s d : Forall harmless d → stepped claimName s s d.
Proof. by apply stepped_same. Qed.

Lemma claim_found claimName sts pvcs target d p l :
  found target (go_map_of (claim_by_pod claimName sts) pvcs) p → Claims pvcs ∈ d →
  replaced sts claimName target (d ++ l) p.
Proof.
  intros (c & Hc & Ht) Hd. apply go_map_of_Some in Hc as (x & Hx & Ex). unfold claim_by_pod in Ex.
  destruct (validatePVCName claimName x sts) eqn:Hv; [|done]. injection Ex as <- <-.
  exists pvcs, x. set_solver.
Qed.
Lemma none_missing b state (sts : VolStatefulSet) replicas pods l :
  missing_pod b state sts replicas pods = false → (∀ n, sts_SpecReplicas sts = Some n → n = replicas) →
  (∀ pod, pod ∈ pods → to_process b state (pod_Name pod) = true → pod_Name pod ∈ l) →
  phase_done sts b state l.
Proof.
  intros Hm Hn Hall n i Hn' Hi name Hin. apply Hn in Hn' as ->.
  destruct (decide (name ∈ shr_ProcessedPods state)) as [?|Hnp]; [set_solver|].
  assert (to_process b state name = true) as Ht.
  { unfold to_process. rewrite Hin. by rewrite bool_decide_eq_false_2. }
  destruct (decide (name ∈ pod_Name <$> pods)) as [Hp|Hp].
  - apply list_elem_of_fmap in Hp as (pod & -> & Hp). apply elem_of_app. right. by apply Hall.
  - exfalso. assert (missing_pod b state sts replicas pods = true) as Hx; [|congruence].
    unfold missing_pod. apply existsb_exists. exists i. split.
    + apply in_seq. lia.
    + cbv zeta. fold name. by rewrite Ht, bool_decide_eq_false_2.
Qed.

(** A run of the pods' loop is a step: [d0] is what happened before it. *)
Lemma processed_step b claimName s target pvcs pods state r s' d0 d :
  shrink_map s !! sts_Name (vm_sts s) = Some state → shr_Phase state = phase_of b →
  ParseQuantity (shr_TargetSize state) = Some target →
  Forall harmless d0 → undisturbed (vm_cr s) d0 → Claims pvcs ∈ d0 → (∀ x, r ≠ Ok (Some x)) →
  processed b target (go_map_of (claim_by_pod claimName (vm_sts s)) pvcs) s pods state r s' d →
  stepped claimName s s' (d0 ++ d).
Proof.
  intros Hst Hph Ht Hd0 Hu Hc Hr [[-> (l & -> & _)]|[_ Ho]]; [by destruct (Hr (with_Processed l state))|].
  destruct Ho as [[-> [Hd|(d1 & pod & c & e & -> & Hd1 & Hp & Htp & Hlt & He)]]|(-> & l & p & h & Hd & Hf & Htp & Ha & Hm)].
  - apply stepped_self. by apply Forall_app.
  - exists (Some state). split; [rewrite <- Hst; by rewrite partial_alter_self|]. rewrite Hst.
    apply go_map_of_Some in Hp as (x & Hx & Ex). unfold claim_by_pod in Ex. case_match; [|done].
    injection Ex as Ex <-. rewrite app_assoc. eapply (step_replace _ _ _ b); try done.
    + by apply Forall_app.
    + by apply undisturbed_app_l.
    + by rewrite Ex.
    + destruct He as [->| ->]; [by left|right]. by exists pod.
  - eexists. split; [exact Hm|]. rewrite Hst. eapply step_reelect with (h := h); try done.
    + by apply Forall_app.
    + apply (Forall_impl _ _ _ Hf). intros q Hq. by eapply claim_found.
    + intros ->. unfold to_process, in_phase in Htp. by rewrite bool_decide_eq_true_2 in Htp.
    + set_solver.
Qed.

Lemma runs_getCR s : runs s (getCR : M _) (λ r s' d, s' = s ∧ d = [] ∧ r = Ok (vm_cr s)).
Proof. intros t w. exists []. by rewrite app_nil_r. Qed.
Lemma runs_getSts s : runs s (getSts : M _) (λ r s' d, s' = s ∧ d = [] ∧ r = Ok (vm_sts s)).
Proof. intros t w. exists []. by rewrite app_nil_r. Qed.

(** Continues after a call of the world that leaves memory alone; [φ] is what
    is known of its answer and of all that happened so far. *)
Lemma stepped_call {A} claimName s d0 (m : GoM (list event * W) A) msg (f : A → M unit) (φ : A → list event → Prop) :
  emits m (λ r d, Forall harmless d ∧ ∀ a, r = Ok a → φ a d) → Forall harmless d0 →
  (∀ a d, Forall harmless d → φ a d → runs s (f a) (λ r s' d', stepped claimName s s' (d0 ++ d ++ d'))) →
  runs s (wrapM msg (onV m) ≫= f) (λ r s' d, stepped claimName s s' (d0 ++ d)).
Proof.
  intros Hm Hd0 Hf. eapply runs_bind with (Q1 := λ r s' d, s' = s ∧ Forall harmless d ∧ ∀ a, r = Ok a → φ a d).
  - apply runs_wrap. eapply runs_conseq; [apply runs_onV, Hm|]. intros [a|e] s' d (-> & Hd & Ha); split_and!; try done.
  - intros a s' d (-> & Hd & Ha). apply Hf; auto.
  - intros e s' d (-> & Hd & _). apply stepped_self. by apply Forall_app.
Qed.

Lemma shrinkProcessPods_runs sx b state s :
  shrink_map s !! sts_Name (vm_sts s) = Some state → shr_Phase state = phase_of b →
  runs s (shrinkProcessPods sx state b : M unit) (λ r s' d, stepped (sx_claimName sx) s s' d).
Proof.
  intros Hst Hph. unfold shrinkProcessPods.
  eapply runs_bind; [apply runs_getCR| |by intros e s' d (-> & -> & ?)].
  intros cr s' d (-> & -> & [= ->]). cbn [app].
  eapply runs_bind; [apply runs_getSts| |by intros e s' d (-> & -> & ?)].
  intros sts s' d (-> & -> & [= ->]). cbn [app].
  apply (stepped_call _ _ [] _ _ _ (λ b d, b = false → no_backup_running (vm_cr s) d)); [|done|].
  { eapply emits_conseq; [apply isBackupRunning_emits|]. intros r d [Hd Hb]. split; [by apply checks_harmless|].
    intros a -> ->. by apply Hb. }
  intros [|] d1 Hd1 Hb; [apply runs_ret; rewrite app_nil_r; by apply stepped_self|]. cbn [app].
  specialize (Hb eq_refl).
  apply (stepped_call _ _ d1 _ _ _ (λ b d, b = false → no_restoring (vm_cr s) d)); [|done|].
  { eapply emits_conseq; [apply emits_restoring|]. intros r d [Hd Hr]. split; [done|]. intros a -> ->. by apply Hr. }
  intros [|] d2 Hd2 Hr.
  { apply runs_ret; rewrite app_nil_r. apply stepped_self. by apply Forall_app. }
  assert (undisturbed (vm_cr s) (d1 ++ d2)) as Hu.
  { split; [by apply no_backup_app_l|]. apply no_restoring_app_r. by apply Hr. }
  assert (Forall harmless (d1 ++ d2)) as Hd12 by by apply Forall_app.
  destruct (ParseQuantity _) as [target|] eqn:Ht.
  2: { apply runs_throw. rewrite app_nil_r. by apply stepped_self. }
  eapply runs_conseq; [|intros r s' d H; rewrite app_assoc; exact H].
  apply (stepped_call _ _ _ _ _ _ (λ _ _, True)); [|done|].
  { apply (quiet_emits _ _ (quiet_quietly _)). by intros r. }
  intros podList d3 Hd3 _. cbv zeta. generalize (sortPodsByOrdinal Z.gtb podList). intros pods. clear podList.
  eapply runs_conseq; [|intros r s' d H; rewrite app_assoc; exact H].
  apply (stepped_call _ _ _ _ _ _ (λ l d, Claims l ∈ d)); [|by apply Forall_app|].
  { eapply emits_conseq; [apply emits_recorded|]. intros [l|e] d ->; [|done].
    split; [by apply Forall_singleton|]. intros a [= ->]. set_solver. }
  intros pvcs d4 Hd4 Hc. set (d0 := ((d1 ++ d2) ++ d3) ++ d4).
  eapply runs_conseq; [|intros r s' d H; rewrite app_assoc; exact H]. fold d0.
  assert (Forall harmless d0) as Hd0 by (unfold d0; by rewrite !Forall_app).
  assert (undisturbed (vm_cr s) d0) as Hu0 by (unfold d0; by do 2 apply undisturbed_app_l).
  assert (Claims pvcs ∈ d0) as Hc0 by (unfold d0; set_solver).
  assert (runs s (mret tt : M unit) (λ r s' d, stepped (sx_claimName sx) s s' (d0 ++ d))) as Hstop.
  { apply runs_ret. rewrite app_nil_r. by apply stepped_self. }
  destruct (sts_replicas sx (vm_sts s)) as [replicas|] eqn:Hn; [|done].
  destruct (missing_pod _ _ _ _ _) eqn:Hm; [done|].
  eapply runs_bind; [apply process_pods_runs| |].
  - intros done s' d Hp. destruct done as [state'|].
    + destruct Hp as [[-> (l & [= ->] & Hd & Hf & Hall)]|[Hno _]]; [|by destruct (Hno state')].
      assert (Forall (replaced (vm_sts s) (sx_claimName sx) target (d0 ++ d)) l) as Hrep.
      { apply (Forall_impl _ _ _ Hf). intros q Hq. by eapply claim_found. }
      assert (phase_done (vm_sts s) b state l) as Hdone.
      { eapply none_missing; [done| |done]. unfold sts_replicas in Hn. intros n En. rewrite En in Hn. by injection Hn. }
      assert (Forall harmless (d0 ++ d)) as Hd0d by by apply Forall_app.
      intros t w. destruct b; exists []; rewrite !app_nil_r; (split; [done|]).
      * exists None. split; [done|]. rewrite Hst. by eapply step_done.
      * eexists. split; [done|]. rewrite Hst. by eapply step_secondaries_done.
    + apply runs_ret. rewrite app_nil_r. by refine (processed_step _ _ _ _ _ _ _ _ _ _ _ Hst Hph Ht Hd0 Hu0 Hc0 _ Hp).
  - intros e s' d Hp. by refine (processed_step _ _ _ _ _ _ _ _ _ _ _ Hst Hph Ht Hd0 Hu0 Hc0 _ Hp).
Qed.

Lemma advance_runs s state claimName d0 :
  shrink_map s !! sts_Name (vm_sts s) = Some state → shr_Phase state = phase_stepdown →
  Forall harmless d0 → handed_over (vm_sts s) state d0 →
  runs s (setCR (SetPVCShrinkState (sts_Name (vm_sts s)) (with_Phase phase_primary state)) : M unit)
    (λ r s' d, stepped claimName s s' (d0 ++ d)).
Proof.
  intros Hst Hph Hd Hh t w. exists []. rewrite !app_nil_r. split; [done|]. eexists. split; [done|].
  rewrite Hst. by eapply step_stepdown.
Qed.

Lemma shrinkStepdown_runs sx state s :
  shrink_map s !! sts_Name (vm_sts s) = Some state → shr_Phase state = phase_stepdown →
  (sx_needsStepdown sx = false → sts_Labels (vm_sts s) !! LabelComponent ≠ Some ComponentMongod ∧
     sts_Labels (vm_sts s) !! LabelComponent ≠ Some ComponentConfigSrv) →
  runs s (shrinkStepdown sx state : M unit) (λ r s' d, stepped (sx_claimName sx) s s' d).
Proof.
  intros Hst Hph Hsx. unfold shrinkStepdown.
  eapply runs_bind; [apply runs_getCR| |by intros e s' d (-> & -> & ?)].
  intros cr s' d (-> & -> & [= ->]). cbn [app].
  eapply runs_bind; [apply runs_getSts| |by intros e s' d (-> & -> & ?)].
  intros sts s' d (-> & -> & [= ->]). cbn [app]. cbv zeta.
  pose proof (λ d0, advance_runs s state (sx_claimName sx) d0 Hst Hph) as Hadv.
  destruct (negb _ || _) eqn:Hskip.
  { apply (Hadv []); [done|]. apply orb_prop in Hskip as [Hn|Hp].
    - left. apply Hsx. by destruct (sx_needsStepdown sx).
    - right. left. by apply bool_decide_eq_true in Hp. }
  eapply runs_bind with (Q1 := λ r s' d, s' = s ∧ Forall harmless d ∧ (∀ e, r = Ok (Err e) → d = [])).
  { apply runs_try. eapply runs_conseq; [apply runs_onV, emits_recorded|]. intros [p|e] s' d [-> ->]; cbn.
    - split; [done|]. split; [by apply Forall_singleton|done].
    - by repeat split. }
  2: { intros e s' d (-> & Hd & _). by apply stepped_self. }
  intros r s' d0 (-> & Hd0 & He). destruct r as [pod|e].
  2: { rewrite (He e eq_refl). case_match; [|apply runs_throw; by apply stepped_self].
       apply (Hadv []); [done|]. unfold handed_over. auto. }
  destruct (sx_replset sx) as [replset|]; [|apply runs_throw; rewrite app_nil_r; by apply stepped_self].
  eapply runs_bind with (Q1 := λ r s' d, s' = s ∧ Forall harmless d ∧ (∀ b, r = Ok (Ok b) → ∃ h, d = [Asked h b])).
  { apply runs_catch. eapply runs_conseq; [apply runs_onV, emits_primary|].
    intros [b|e] s' d [-> Hd]; [|subst d; by repeat split]. destruct Hd as [h ->]. split; [done|].
    split; [by apply Forall_singleton|]. intros b' [= <-]. by exists h. }
  2: { intros e s' d (-> & Hd & _). apply stepped_self. by apply Forall_app. }
  intros r s' d1 (-> & Hd1 & Hb). assert (Forall harmless (d0 ++ d1)) as Hd01 by by apply Forall_app.
  destruct r as [b|e]; [|apply runs_ret; rewrite app_nil_r; by apply stepped_self].
  destruct (Hb b eq_refl) as [h ->]. clear Hb.
  eapply runs_bind with (Q1 := λ r s' d, s' = s ∧ Forall harmless d ∧
    (r = Ok tt → b = false ∨ SteppedDown false true ∈ d)).
  { destruct b; [|apply runs_ret; repeat split; auto]. apply runs_wrap.
    eapply runs_conseq; [apply runs_onV, emits_step_down|]. intros [[]|e] s' d (-> & Hd & Hs);
      (split; [done|]); (split; [done|]); [intros _; right; by apply Hs|done]. }
  2: { intros e s' d (-> & Hd & _). apply stepped_self. rewrite app_assoc. by apply Forall_app. }
  intros [] s' d2 (-> & Hd2 & Hs).
  eapply runs_conseq; [apply (Hadv (d0 ++ [Asked h b] ++ d2))|].
  - rewrite app_assoc. by apply Forall_app.
  - unfold handed_over. destruct (Hs eq_refl) as [->|Hsd]; [|set_solver]. do 3 right. left. exists h. set_solver.
  - intros r s' d. cbv beta. by rewrite <- !app_assoc.
Qed.

Lemma may_start_stepped claimName q s (r : result unit) s' d :
  (∀ s0, shrink_map s !! sts_Name (vm_sts s) = Some s0 → shr_Phase s0 = "") →
  may_start_undisturbed (vm_cr s) (sts_Name (vm_sts s)) q s r s' d → stepped claimName s s' d.
Proof.
  intros Hph [Hd [Hs|[(now & p & Hm & Hx & Hp) Hu]]]; [by apply stepped_same|].
  eexists. split; [exact Hm|]. by apply step_start.
Qed.

Lemma shrinkVolumes_runs ls claimName key state s :
  (shrink_map s !! sts_Name (vm_sts s) = Some state ∨
   shrink_map s !! sts_Name (vm_sts s) = None ∧ shr_Phase state = "") →
  runs s (shrinkVolumesIfNeeded ls claimName key state : M unit) (λ r s' d, stepped claimName s s' d).
Proof.
  intros Hst. unfold shrinkVolumesIfNeeded.
  eapply runs_bind; [apply runs_getCR| |by intros e s' d (-> & -> & ?)].
  intros cr s' d (-> & -> & [= ->]). cbn [app].
  eapply runs_bind; [apply runs_getSts| |by intros e s' d (-> & -> & ?)].
  intros sts s' d (-> & -> & [= ->]). cbn [app].
  destruct (shrink_context _ _ _ _ _) as [sx|e] eqn:Hsx.
  2: { eapply runs_bind; [by apply (runs_lift _ _ (λ r s' d, s' = s ∧ d = [] ∧ r = Err e))|by intros ? ? ? (?&?&?)|].
       intros e' s' d (-> & -> & _). by apply stepped_self. }
  eapply runs_bind; [by apply (runs_lift _ _ (λ r s' d, s' = s ∧ d = [] ∧ r = Ok sx))| |by intros ? ? ? (?&?&?)].
  intros sx' s' d (-> & -> & [= ->]). cbn [app].
  unfold shrink_context, sts_set_label in Hsx. destruct (sts_Labels (vm_sts s) !! LabelComponent) as [comp|] eqn:Hl;
    cbn in Hsx; [|done]. injection Hsx as Hsx.
  assert (sx_claimName sx = claimName) as Hcn by by rewrite <- Hsx.
  assert (sx_needsStepdown sx = false → Some comp ≠ Some ComponentMongod ∧ Some comp ≠ Some ComponentConfigSrv) as Hns.
  { rewrite <- Hsx. cbn. intros Hn.
    apply orb_false_elim in Hn as [H1%bool_decide_eq_false H2%bool_decide_eq_false]. split; congruence. }
  clear Hsx.
  assert (shr_Phase state ≠ "" → shrink_map s !! sts_Name (vm_sts s) = Some state) as Hst'.
  { by destruct Hst as [?|[_ ?]]. }
  case_bool_decide as Hph.
  - apply (stepped_call _ _ [] _ _ _ (λ _ _, True)); [|done|].
    { eapply emits_conseq; [apply emits_recorded|]. intros [l|e] d ->; (split; [|done]); [by apply Forall_singleton|done]. }
    intros pvcs d Hd _. cbn [app]. case_match; [apply runs_ret; rewrite app_nil_r; by apply stepped_self|].
    cbv zeta. eapply runs_bind with (Q1 := λ r s' d, s' = s ∧ d = []).
    { unfold spec_request, spec_requests. intros t w. exists []. rewrite app_nil_r. gom. cbn.
      destruct (vc_Claims _ !! key) as [ps|]; [destruct (ps_Requests ps)|]; done. }
    2: { intros e s' d' [-> ->]. apply stepped_self. by apply Forall_app. }
    intros q s' d' [-> ->]. cbn [app]. eapply runs_conseq; [apply shrinkPreflight_runs|].
    intros r s' d' [Hd' Ho]. eapply (may_start_stepped _ q _ r).
    { intros s0 Hs0. destruct Hst as [Hst|[Hst _]]; congruence. }
    split; [by apply Forall_app|]. destruct Ho as [Ho|[Ho Hu]]; [by left|right]. split.
    + destruct Ho as (now & p & Hm & Hx & Hp). exists now, p. split; [done|]. split; [set_solver|].
      intros Hne. destruct (Hp Hne) as [h Hh]. exists h. set_solver.
    + by apply undisturbed_app.
  - specialize (Hst' Hph). rewrite <- Hcn. case_bool_decide; [by apply shrinkProcessPods_runs|].
    case_bool_decide.
    + apply shrinkStepdown_runs; [done|done|]. by rewrite Hl.
    + case_bool_decide; [by apply shrinkProcessPods_runs|]. apply runs_throw. by apply stepped_self.
Qed.

(** ** When no shrink is in progress *)
Lemma shrink_step_prefix (cr : SmartCluster) (sts sts' : StatefulSet) claimName d0 d s1 :
  Forall harmless d0 → sts_Name sts = sts_Name sts' →
  shrink_step cr sts claimName None d s1 → shrink_step cr sts' claimName None (d0 ++ d) s1.
Proof.
  intros Hd0 Hn Hstep. remember None as s0 eqn:E0. destruct Hstep; try done; subst.
  - apply step_none. by apply Forall_app.
  - apply step_start; [done|by apply Forall_app|by apply undisturbed_app|rewrite <- Hn; apply elem_of_app; by right|].
    intros Hne. destruct (H3 Hne) as [h Hh]. exists h. set_solver.
Qed.
Lemma stepped_prefix claimName s s1 s2 d0 d :
  shrink_map s !! sts_Name (vm_sts s) = None → vc_sc (vm_cr s1) = vc_sc (vm_cr s) →
  sts_Name (vm_sts s1) = sts_Name (vm_sts s) →
  Forall harmless d0 → stepped claimName s1 s2 d → stepped claimName s s2 (d0 ++ d).
Proof.
  intros Hno Hc Hn Hd0 (x & Hm & Hstep). unfold shrink_map in *.
  rewrite Hc, Hn in Hm, Hstep. exists x. split; [exact Hm|]. unfold shrink_map. rewrite Hno in Hstep |- *.
  by eapply shrink_step_prefix.
Qed.
Lemma stepped_suffix claimName s s1 s2 d0 d :
  shrink_map s !! sts_Name (vm_sts s) = None → same s1 s2 → Forall harmless d →
  stepped claimName s s1 d0 → stepped claimName s s2 (d0 ++ d).
Proof.
  intros Hno Hs Hd (x & Hm & Hstep). exists x. split; [by rewrite (same_map _ _ Hs)|].
  rewrite Hno in Hstep |- *. remember None as s0 eqn:E0. destruct Hstep; try done; subst.
  - apply step_none. by apply Forall_app.
  - apply step_start; [done|by apply Forall_app|by apply undisturbed_app_l|set_solver|].
    intros Hne. destruct (H3 Hne) as [h Hh]. exists h. set_solver.
Qed.

Lemma runs_on_copy {A} s (sts : VolStatefulSet) (m : M A) (Q0 : result A → VolMem → list event → Prop) :
  runs (with_vm_sts (λ _, sts) s) m Q0 →
  runs s (on_copy sts m) (λ r s' d, ∃ s1, Q0 r s1 d ∧ s' = with_vm_sts (λ _, vm_sts s) s1).
Proof.
  intros Hm t w. destruct (Hm t w) as (d & Hd & Hr). exists d. unfold on_copy. cbn.
  destruct (m _) as [r [mem [t' w']]]. cbn in *. split; [done|]. by exists mem.
Qed.

Lemma resize_claims_runs ls claimName key (current : VolStatefulSet) actual pvcs s :
  shrink_map s !! sts_Name (vm_sts s) = None → sts_Name current = sts_Name (vm_sts s) →
  runs s (resize_claims ls claimName key current actual pvcs : M unit) (λ r s' d, stepped claimName s s' d).
Proof.
  intros Hno Hname.
  assert (∀ (m : M unit), still m → runs s m (λ r s' d, stepped claimName s s' d)) as Hcalm.
  { intros m Hm. eapply runs_conseq; [apply Hm|]. intros r s' d [Hs Hd]. by apply stepped_same. }
  assert (∀ {A} (m : M A) (f : A → M unit), still m →
    (∀ a s1 d, same s s1 → Forall harmless d →
       runs s1 (f a) (λ r s' d', stepped claimName s s' (d ++ d'))) →
    runs s (m ≫= f) (λ r s' d, stepped claimName s s' d)) as Hbind.
  { intros A m f Hm Hf. eapply runs_bind; [apply Hm| |].
    - intros a s1 d [Hs Hd]. by apply Hf.
    - intros e s1 d [Hs Hd]. by apply stepped_same. }
  assert (∀ s1 d (m : M unit), same s s1 → Forall harmless d → still m →
    runs s1 m (λ r s' d', stepped claimName s s' (d ++ d'))) as Hend.
  { intros s1 d m Hs Hd Hm. eapply runs_conseq; [apply Hm|]. intros r s' d' [Hs' Hd'].
    apply stepped_same; [by transitivity s1|by apply Forall_app]. }
  unfold resize_claims. eapply runs_bind; [apply runs_getCR| |by intros e s' d (-> & -> & ?)].
  intros cr s' d (-> & -> & [= ->]). cbn [app].
  apply Hbind; [apply still_spec_request|]. intros q s1 d1 Hs1 Hd1. cbv zeta.
  eapply runs_bind; [apply still_progress| |].
  2: { intros e s2 d2 [Hs2 Hd2]. apply stepped_same; [by transitivity s1|by apply Forall_app]. }
  intros done s2 d2 [Hs2 Hd2]. assert (same s s2) as Hs by by transitivity s1.
  assert (Forall harmless (d1 ++ d2)) as Hd by by apply Forall_app.
  eapply runs_conseq; [|intros r s' d H; rewrite app_assoc; exact H]. revert Hs Hd.
  generalize (d1 ++ d2). clear dependent d1 d2 s1. intros d1 Hs Hd1.
  destruct done; [apply Hend; [done|done|apply still_ret]|].
  destruct (q ?= actual)%Z; [apply Hend; [done|done|solve_still]| |apply Hend; [done|done|solve_still]].
  destruct (IsVolumeShrinkEnabled _); [|apply Hend; [done|done|solve_still]].
  eapply runs_bind with (Q1 := λ _ s' d, stepped claimName s s' (d1 ++ d)).
  - apply runs_try. eapply runs_conseq; [apply runs_on_copy, shrinkVolumes_runs|].
    + right. split; [|done]. cbn. rewrite Hname. change (shrink_map s2 !! sts_Name (vm_sts s) = None).
      by rewrite (same_map _ _ Hs).
    + intros r s' d (s3 & Hst & ->).
      eapply (stepped_prefix _ _ (with_vm_sts (λ _, current) s2)) in Hst; [| |by apply Hs| |]; try done.
  - intros r s3 d Hst.
    eapply runs_conseq; [apply (still_bind (align_template claimName actual) (λ _, liftR r)); solve_still|].
    intros r' s' d' [Hs' Hd']. rewrite app_assoc. by eapply stepped_suffix.
  - done.
Qed.

Context {VL : VolumeClientLaws VC}.
Lemma resize_runs ls claimName key s :
  runs s (resizeVolumesIfNeeded ls claimName key : M unit) (λ r s' d, stepped claimName s s' d).
Proof.
  unfold resizeVolumesIfNeeded.
  eapply runs_bind; [apply runs_getCR| |by intros e s' d (-> & -> & ?)].
  intros cr s' d (-> & -> & [= ->]). cbn [app].
  eapply runs_bind; [apply runs_getSts| |by intros e s' d (-> & -> & ?)].
  intros sts s' d (-> & -> & [= ->]). cbn [app].
  case_match; [apply runs_ret; by apply stepped_self|].
  unfold GetPVCShrinkState. change (bc_PVCShrink (vm_cr s)) with (shrink_map s).
  destruct (shrink_map s !! _) as [state|] eqn:Hst; [apply shrinkVolumes_runs; by left|].
  apply (stepped_call _ _ [] _ _ _ (λ _ _, True)); [|done|].
  { eapply emits_conseq; [apply emits_recorded|]. intros [l|e] d ->; (split; [|done]); [by apply Forall_singleton|done]. }
  intros pvcs d1 Hd1 _. cbn [app]. case_match; [apply runs_ret; rewrite app_nil_r; by apply stepped_self|].
  apply (stepped_call _ _ _ _ _ _ (λ _ _, True)); [|done|].
  { apply (quiet_emits _ _ (quiet_quietly _)). by intros r. }
  intros pods d2 Hd2 _. cbv zeta. assert (Forall harmless (d1 ++ d2)) as Hd by by apply Forall_app.
  case_match; [apply runs_ret; rewrite app_nil_r; by apply stepped_self|].
  eapply runs_bind with (Q1 := λ r s' d, s' = s ∧ d = [] ∧
    ∀ current : VolStatefulSet, r = Ok (Ok current) → sts_Name current = sts_Name (vm_sts s)).
  - apply runs_try. intros t w. exists []. rewrite app_nil_r. unfold onV. cbn. unfold quietly, recorded. cbn.
    destruct (vsts_get _ _ w) as [r w'] eqn:Eg. cbn. rewrite app_nil_r. split_and!; try done.
    intros c [= ->]. by apply vsts_get_named in Eg.
  - intros r s' d (-> & -> & Hn). cbn [app]. destruct r as [current|e].
    + eapply runs_conseq; [apply resize_claims_runs; [done|by apply Hn]|]. intros r s' d Hs. rewrite app_assoc.
      by eapply stepped_prefix.
    + case_match; [apply runs_ret|apply runs_throw]; rewrite app_nil_r; by apply stepped_self.
  - intros e s' d (-> & -> & _). rewrite app_nil_r. by apply stepped_self.
Qed.

(** C2: whatever the outside answers, a run of the handler is one step of the
    shrink machine: it changes the state of its own stateful set only, from
    idle over the secondaries and the step-down to the primary and back; it
    deletes at most one claim, of a pod of the current phase that is larger than
    the target, and after it that pod; a phase ends when every pod asked for is
    processed; nothing starts and nothing is deleted while a backup or a restore
    runs. *)
Theorem shrink_refines ls claimName key mem t w :
  ∃ d s1, let '(_, (mem', (t', _))) := (resizeVolumesIfNeeded ls claimName key : M unit) (mem, (t, w)) in
    let name := sts_Name (vm_sts mem) in
    t' = t ++ d ∧
    bc_PVCShrink (vm_cr mem') = partial_alter (λ _, s1) name (bc_PVCShrink (vm_cr mem)) ∧
    shrink_step (vm_cr mem) (vm_sts mem) claimName (bc_PVCShrink (vm_cr mem) !! name) d s1.
Proof.
  destruct (resize_runs ls claimName key mem t w) as (d & Hd & s1 & Hm & Hs). exists d, s1.
  destruct (resizeVolumesIfNeeded _ _ _ _) as [r [mem' [t' w']]]. cbn in *. by split_and!.
Qed.
End still.

(** * A replica set of three pods whose secondaries are being shrunk to 5 *)
Definition a_claim (name : string) (request : Z) : PersistentVolumeClaim :=
  {| pvc_Name := name; pvc_Namespace := "ns"; pvc_Labels := ∅; pvc_Annotations := ∅;
     pvc_Requests := Some {[ ResourceStorage := request ]}; pvc_Capacity := Some {[ ResourceStorage := request ]};
     pvc_Conditions := [] |}.
Definition demo_shrink : PVCShrinkState :=
  {| shr_TargetSize := "5"; shr_StartedAt := ""; shr_Phase := phase_secondaries; shr_ProcessedPods := ["c-rs0-2"];
     shr_PrimaryPod := "c-rs0-0" |}.
Definition demo_vol_sts : VolStatefulSet :=
  {| vs_sts := demo_sts; vs_Namespace := "ns"; vs_ClaimTemplates := []; vs_Mounts := [("mongod", [("mongod-data", "/data/db")])] |}.
Definition demo_vol_cluster : VolCluster :=
  SetPVCShrinkState "c-rs0" demo_shrink
  {| vc_sc := demo_smart; vc_StorageScaling := None; vc_EnableExternalVolumeAutoscaling := false;
     vc_VolumeExpansionEnabled := true; vc_Claims := ∅; vc_Autoscaling := ∅ |}.
Definition demo_volumes : VolumeClient unit := {|
  pvc_list := λ _ _, mret [a_claim "mongod-data-c-rs0-0" 10; a_claim "mongod-data-c-rs0-1" 10;
                           a_claim "mongod-data-c-rs0-2" 5];
  pvc_get := λ _ _, notFound; pvc_update := λ _, mret tt; pvc_patch := λ _ _, mret tt; pvc_delete := λ _, mret tt;
  event_list := λ _ _, mret []; vsts_get := λ _ _, notFound; vsts_patch := λ _ _, mret tt;
  vsts_delete_orphan := λ _, mret tt; vcr_patch := λ _ _, mret tt; cr_patch := λ _ _, mret tt |}.
Lemma demo_volumes_laws : VolumeClientLaws demo_volumes.
Proof. intros ns n w s w' Hg. vm_compute in Hg. discriminate Hg. Qed.
Definition plain_quantities : Quantities := {| quantity_String := itoa; ParseQuantity := atoi |}.
Definition no_times : TimeParser := λ _, None.

Section demo.
Local Existing Instances pods_k8s prompt_pods no_env emptyYaml.
Local Instance demo_provider : MongoClientProvider unit :=
  primary_is "c-rs0-0.c-rs0.ns.svc.cluster.local:27017".
Local Instance demo_backups : BackupClient unit := emptyBackups unit.
Local Instance demo_pbm : PBM unit := emptyPBM unit.
Local Instance demo_cluster_client : ClusterClient unit :=
  {| cr_get := λ _ _, notFound; cr_update := λ _, mret tt |}.
Local Instance demo_versions : Versions := λ _ _, 1%Z.
Local Existing Instances steps_retry steps_retry_laws demo_volumes demo_volumes_laws plain_quantities no_times.

Definition demo_vol_run : result unit * (VolMem * (list event * unit)) :=
  resizeVolumesIfNeeded ∅ "mongod-data" (ComponentMongod, "rs0")
    ({| vm_cr := demo_vol_cluster; vm_sts := demo_vol_sts |}, ([], tt)).
Example demo_vol_trace : demo_vol_run.1 = Ok tt ∧ show <$> demo_vol_run.2.2.1 =
  ["backups"; "restoring"; "claims"; "claim deleted mongod-data-c-rs0-1"; "deleted c-rs0-1"].
Proof. vm_compute. split; reflexivity. Qed.

(** The run above is the step that replaces the claim of a secondary. *)
Lemma shrink_refines_witness : ∃ d s1, demo_vol_run.2.2.1 = d ∧ s1 = Some demo_shrink ∧
  shrink_step demo_vol_cluster demo_sts "mongod-data" (Some demo_shrink) d s1.
Proof.
  destruct (shrink_refines ∅ "mongod-data" (ComponentMongod, "rs0")
    {| vm_cr := demo_vol_cluster; vm_sts := demo_vol_sts |} [] tt) as (d & s1 & Hr).
  exists demo_vol_run.2.2.1, (Some demo_shrink). split; [reflexivity|]. split; [reflexivity|].
  change (resizeVolumesIfNeeded _ _ _ _) with demo_vol_run in Hr.
  assert (demo_vol_run = (Ok tt, (demo_vol_run.2.1, (demo_vol_run.2.2.1, tt)))) as E by (vm_compute; reflexivity).
  rewrite E in Hr. destruct Hr as (Hd & Hm & Hs). cbn [app] in Hd. subst d.
  assert (s1 = Some demo_shrink) as ->; [|exact Hs].
  apply (f_equal (λ m, m !! "c-rs0")) in Hm.
  change (sts_Name (vm_sts {| vm_cr := demo_vol_cluster; vm_sts := demo_vol_sts |})) with "c-rs0" in Hm.
  rewrite lookup_partial_alter_eq in Hm. rewrite <- Hm. vm_compute. reflexivity.
Defined.
End demo.
