(* ===== verification/Autoscale.v ===== *)
(** Storage autoscaling only ever asks for more, and never for more than the
    maximum. *)
From S2P Require Import Prelude ReplsetModels MongoClient Api GoSort Kube Hosts SystemUsers Cluster.
From S2P Require Import BackupApi SmartUpdate Volumes.
From S2P Require Defaults.

(** * What autoscaling may change in memory *)
Definition claim_request (key : claim_key) (cr : VolCluster) : option Z :=
  ps ← vc_Claims cr !! key; r ← ps_Requests ps; m ← r; m !! ResourceStorage.
(** From [r0]: the request grew, but not over the maximum; no other claim
    specification changed. *)
Definition grown (config : Defaults.AutoscalingSpec) (key : claim_key) (cr0 cr : VolCluster) (r0 : Z) : Prop :=
  ∃ r, claim_request key cr = Some r ∧ (r0 ≤ r)%Z ∧
    (Defaults.as_MaxSize config ≠ 0%Z → (r ≤ Z.max r0 (Defaults.as_MaxSize config))%Z) ∧
    ∀ k, k ≠ key → vc_Claims cr !! k = vc_Claims cr0 !! k.

Section growth.
Context {W : Type} {K : K8sClient W} {E : ClusterEnv W} {KB : BackupClient W} {VC : VolumeClient W}.
Context {R : GoRetryOn} {QT : Quantities}.
Context (config : Defaults.AutoscalingSpec) (key : claim_key) (cr0 : VolCluster) (r0 : Z).
Abbreviation M := (GoM (VolMem * W)).
Abbreviation I := (λ s : VolMem, grown config key cr0 (vm_cr s) r0).
Abbreviation keeps m := (hoare I m (λ _, I)).

Lemma onV_keeps {A} (m : GoM W A) P : hoare P (onV m : M A) (λ _, P).
Proof. intros s w Hs. unfold onV. cbn. by destruct (m w). Qed.
Lemma catch_keeps {A} (m : M A) : keeps m → keeps (catchM m).
Proof. intros Hm s w Hs. specialize (Hm s w Hs). unfold catchM. by destruct (m (s, w)) as [[] [??]]. Qed.

Lemma calculateNewSize_max pvc :
  Defaults.as_MaxSize config ≠ 0%Z → (calculateNewSize config pvc ≤ Defaults.as_MaxSize config)%Z.
Proof.
  intros Hm. unfold calculateNewSize. cbv zeta. rewrite (proj2 (Z.eqb_neq _ _) Hm). cbn.
  case_match eqn:Hlt; [lia|]. by apply Z.ltb_ge in Hlt.
Qed.

Lemma status_keeps name usage err : keeps (updateAutoscalingStatus name usage err : M unit).
Proof.
  unfold updateAutoscalingStatus. case_bool_decide; [by apply hoare_ret|].
  apply hoare_step; [apply onV_keeps|]. intros now s w Hs. exact Hs.
Qed.

(** [triggerResize] with a size above the request *)
Lemma trigger_keeps newSize r :
  (Defaults.as_MaxSize config ≠ 0%Z → (newSize ≤ Defaults.as_MaxSize config)%Z) → (r < newSize)%Z →
  hoare (λ s, grown config key cr0 (vm_cr s) r0 ∧ claim_request key (vm_cr s) = Some r)
    (triggerResize newSize key : M unit) (λ _, I).
Proof.
  intros Hmax Hlt s w [(r' & Hr & Hle & Hm & Hk) Hr']. rewrite Hr in Hr'. injection Hr' as ->.
  pose proof Hr as Hcr. unfold claim_request in Hcr.
  destruct (vc_Claims (vm_cr s) !! key) as [ps|] eqn:Hps; [|done]. cbn in Hcr.
  destruct (ps_Requests ps) as [[m|]|] eqn:Hreq; try done. cbn in Hcr.
  unfold triggerResize, getCR, write_spec_request. gom. cbn.
  rewrite Hps, Hreq. cbn. unfold tryM, onV. gom. cbn. destruct (vcr_patch _ _ w) as [[[]|e] w']; cbn.
  - exists newSize. unfold claim_request. cbn. rewrite lookup_insert_eq. cbn. rewrite Hreq. cbn. rewrite lookup_insert_eq.
    split; [done|]. split; [lia|]. split; [intros Hne; specialize (Hmax Hne); lia|].
    intros k Hne. rewrite lookup_insert_ne by done. auto.
  - exists r. split; [exact Hr|]. auto.
Qed.
Lemma check_keeps pvc pod container path : keeps (checkAndResizePVC config pvc pod key container path : M unit).
Proof.
  unfold checkAndResizePVC. case_match; [by apply hoare_ret|].
  apply hoare_step; [apply hoare_wrap, onV_keeps|]. intros usage.
  apply hoare_step; [apply status_keeps|]. intros _. case_match; [by apply hoare_ret|]. cbv zeta.
  eapply hoare_bind with (R := λ m s, I s ∧ claim_request key (vm_cr s) = m !! ResourceStorage).
  { intros s w Hs. unfold spec_requests, getCR. gom. cbn. pose proof Hs as (r & Hr & _). unfold claim_request in *.
    destruct (vc_Claims (vm_cr s) !! key) as [ps|] eqn:Hps; [|done]. cbn in *.
    destruct (ps_Requests ps) as [[m|]|] eqn:Hreq; try done.
    split; [exact Hs|]. change (vm_cr _) with (vm_cr s). rewrite Hps. cbn. by rewrite Hreq. }
  intros m s w [Hs Hm]. pose proof Hs as (r & Hr & _). rewrite Hr in Hm. rewrite <- Hm.
  destruct (_ <=? r)%Z eqn:Hle; [done|]. apply Z.leb_gt in Hle.
  apply (trigger_keeps (calculateNewSize config pvc) r); [apply calculateNewSize_max|lia|done].
Qed.
Lemma autoscale_keeps claimName sts container path pods pvcs :
  keeps (autoscale_claims config claimName key sts container path pods pvcs : M unit).
Proof.
  induction pvcs as [|pvc pvcs IH]; cbn [autoscale_claims]; [by apply hoare_ret|].
  apply hoare_step; [|intros _; exact IH]. case_match; [by apply hoare_ret|]. case_match; [|by apply hoare_ret].
  apply hoare_step; [apply catch_keeps, check_keeps|]. intros [u|e]; [by apply hoare_ret|apply status_keeps].
Qed.
End growth.

Section theorems.
Context {W : Type} {K : K8sClient W} {E : ClusterEnv W} {KB : BackupClient W} {VC : VolumeClient W}.
Context {R : GoRetryOn} {QT : Quantities}.
(** Storage autoscaling never lowers the request of the claim, never raises
    it over the maximum (unless it was over it before), and changes no other
    claim specification, whatever the disks report and whether or not the server
    accepts the change. *)
Theorem autoscaling_grows claimName key ls mem w r0 :
  claim_request key (vm_cr mem) = Some r0 →
  let mem' := ((reconcileStorageAutoscaling claimName key ls : GoM (VolMem * W) unit) (mem, w)).2.1 in
  ∃ r, claim_request key (vm_cr mem') = Some r ∧ (r0 ≤ r)%Z ∧
    (∀ config, StorageAutoscaling (vm_cr mem) = Some config → Defaults.as_MaxSize config ≠ 0%Z →
       (r ≤ Z.max r0 (Defaults.as_MaxSize config))%Z) ∧
    ∀ k, k ≠ key → vc_Claims (vm_cr mem') !! k = vc_Claims (vm_cr mem) !! k.
Proof.
  intros Hr. unfold reconcileStorageAutoscaling. cbn zeta.
  rewrite (bind_ok _ _ (mem, w) (vm_cr mem) (mem, w)) by done.
  rewrite (bind_ok _ _ (mem, w) (vm_sts mem) (mem, w)) by done.
  destruct (StorageAutoscaling (vm_cr mem)) as [config|] eqn:Hc.
  2: { exists r0. split; [exact Hr|]. split; [lia|]. split; [intros ? [=]|intros k Hk; reflexivity]. }
  assert (hoare (λ s, grown config key (vm_cr mem) (vm_cr s) r0)
    (if negb (Defaults.as_Enabled config) || IsExternalVolumeAutoscalingEnabled (vm_cr mem)
        || negb (IsVolumeExpansionEnabled (vm_cr mem))
        || bool_decide (vc_Claims (vm_cr mem) !! key ≫= ps_Requests = None)
        || bool_decide (is_Some (sts_Annotations (vm_sts mem) !! AnnotationPVCResizeInProgress))
        || bool_decide (is_Some (GetPVCShrinkState (sts_Name (vm_sts mem)) (vm_cr mem)))
     then mret tt
     else match volumeMount (vm_sts mem) claimName with
          | None => mret tt
          | Some (container, mountPath) =>
              pvcs ← wrapM "list PVCs for autoscaling" (onV (pvc_list (cr_Namespace (vm_cr mem)) ls));
              pods ← wrapM "list pods for autoscaling"
                (onV (k8s_list_pods (cr_Namespace (vm_cr mem)) (SelectorFromSet ls)));
              autoscale_claims config claimName key (vm_sts mem) container mountPath pods pvcs
          end : GoM (VolMem * W) unit)
    (λ _ s, grown config key (vm_cr mem) (vm_cr s) r0)) as Hh.
  { case_match; [by apply hoare_ret|]. case_match; [|by apply hoare_ret]. case_match.
    apply hoare_step; [apply hoare_wrap, onV_keeps|]. intros pvcs.
    apply hoare_step; [apply hoare_wrap, onV_keeps|]. intros pods. apply autoscale_keeps. }
  destruct (Hh mem w) as (r & Hr' & Hle & Hmax & Hk).
  { exists r0. split; [exact Hr|]. split; [lia|]. split; [lia|done]. }
  exists r. split; [exact Hr'|]. split; [done|]. split; [|exact Hk]. by intros config' [= <-].
Qed.
End theorems.

(** * A claim of 100 bytes, 95 of them in use, that may grow to 105 *)
Section demo.
Definition bytes (n : Z) : Z := n * 1000000000.
Definition demo_config : Defaults.AutoscalingSpec := {|
  Defaults.as_Enabled := true; Defaults.as_TriggerThresholdPercent := 80;
  Defaults.as_GrowthStep := bytes 10; Defaults.as_MaxSize := bytes 105 |}.
Definition demo_key : claim_key := (ComponentMongod, "rs0").
Definition full_pod : Pod := a_pod "c-rs0-0" "mongod".
Definition full_claim : PersistentVolumeClaim :=
  {| pvc_Name := "mongod-data-c-rs0-0"; pvc_Namespace := "ns"; pvc_Labels := ∅; pvc_Annotations := ∅;
     pvc_Requests := Some {[ ResourceStorage := bytes 100 ]}; pvc_Capacity := Some {[ ResourceStorage := bytes 100 ]};
     pvc_Conditions := [] |}.
Definition demo_mem : VolMem := {|
  vm_cr := {| vc_sc := {| sc_bc := a_backup_cluster; sc_UpdateStrategy := ""; sc_VPA := None; sc_MongosDelay := 1;
                          sc_BalancerEnabled := None; sc_TLS := None; sc_Deleting := false |};
              vc_StorageScaling := Some {| ss_EnableVolumeScaling := true; ss_EnableExternalAutoscaling := false;
                ss_EnableVolumeShrink := false; ss_MaxDiskUsagePercent := None; ss_Autoscaling := Some demo_config |};
              vc_EnableExternalVolumeAutoscaling := false; vc_VolumeExpansionEnabled := false;
              vc_Claims := {[ demo_key := {| ps_Labels := ∅; ps_Annotations := ∅;
                                             ps_Requests := Some (Some {[ ResourceStorage := bytes 100 ]}) |} ]};
              vc_Autoscaling := ∅ |};
  vm_sts := {| vs_sts := a_sts "c-rs0"; vs_Namespace := "ns"; vs_ClaimTemplates := [];
               vs_Mounts := [("mongod", [("mongod-data", "/data/db")])] |} |}.
Definition df_output : string :=
  "Filesystem 1B-blocks Used Available Use% Mounted on" +:+ String newline
  "/dev/sdb 100 95 5 95% /data/db".
Local Instance df_env : ClusterEnv unit := {|
  ce_exec := λ _ _ _ _, mret (df_output, "", None); ce_now := mret 0%Z; ce_list_restores := λ _, mret [] |}.
Local Instance one_pod : K8sClient unit :=
  let base := emptyK8s unit in
  {| k8s_get_service := k8s_get_service (K8sClient := base);
     k8s_get_node_labels := k8s_get_node_labels (K8sClient := base);
     k8s_get_service_import := k8s_get_service_import (K8sClient := base);
     k8s_list_service_exports := k8s_list_service_exports (K8sClient := base);
     k8s_get_sts := k8s_get_sts (K8sClient := base); k8s_get_secret := k8s_get_secret (K8sClient := base);
     k8s_list_sts := k8s_list_sts (K8sClient := base); k8s_list_pods := λ _ _, mret [full_pod];
     go_sleep := go_sleep (K8sClient := base); go_tick := go_tick (K8sClient := base) |}.
Local Instance one_claim : VolumeClient unit := {|
  pvc_list := λ _ _, mret [full_claim]; pvc_get := λ _ _, notFound; pvc_update := λ _, mret tt;
  pvc_patch := λ _ _, mret tt; pvc_delete := λ _, mret tt; event_list := λ _ _, mret [];
  vsts_get := λ _ _, notFound; vsts_patch := λ _ _, mret tt; vsts_delete_orphan := λ _, mret tt;
  vcr_patch := λ _ _, mret tt; cr_patch := λ _ _, mret tt |}.
Local Instance demo_backups : BackupClient unit := emptyBackups unit.
Local Instance demo_quantities : Quantities := {| quantity_String := itoa; ParseQuantity := atoi |}.
Local Existing Instance steps_retry.

Definition demo_autoscaled : VolMem :=
  ((reconcileStorageAutoscaling "mongod-data" demo_key ∅ : GoM (VolMem * unit) unit) (demo_mem, tt)).2.1.
Lemma autoscaling_grows_witness :
  claim_request demo_key (vm_cr demo_mem) = Some (bytes 100) ∧
  claim_request demo_key (vm_cr demo_autoscaled) = Some (bytes 105) ∧
  ∃ r, claim_request demo_key (vm_cr demo_autoscaled) = Some r ∧ (bytes 100 ≤ r)%Z.
Proof.
  assert (claim_request demo_key (vm_cr demo_mem) = Some (bytes 100)) as Hr by (vm_compute; reflexivity).
  split; [exact Hr|]. split; [vm_compute; reflexivity|].
  destruct (autoscaling_grows "mongod-data" demo_key ∅ demo_mem tt (bytes 100) Hr) as (r & H1 & H2 & _).
  exists r. split; [exact H1|exact H2].
Defined.
End demo.
