(* ===== verification/Status.v ===== *)
(** The status of a cluster: pkg/controller/perconaservermongodb/status.go and
    searchStatus of search.go.

    The handlers change the status of the cluster resource in memory as they go
    and write it at the end, so they run over that resource and the world. *)
From S2P Require Import Prelude ReplsetModels MongoClient Api GoSort Kube Hosts SystemUsers Shell Cluster.
From S2P Require Import BackupApi BackupSchedule Lease BackupExec BackupController SmartUpdate Volumes.

(** What PBM knows of an agent (topo.AgentStat); each part is whether it is
    fine and its error. *)
Record AgentStat := {
  ag_PBMStatus : bool * string;
  ag_StorageStatus : bool * string;
  ag_NodeStatus : bool * string;
  ag_Err : string
}.

(** The calls that only these handlers make.  [LabelSelectorAsSelector] fails on
    an expression that is no selector; [ssel_list_pods] lists by a selector. *)
Class StatusClient (W : Type) := {
  scr_get : string → string → GoM W SmartCluster;            (* client.Get *)
  scr_update_status : SmartCluster → GoM W unit;              (* Status().Update *)
  selector_error : LabelSelector → option error;
  ssel_list_pods : string → LabelSelector → GoM W (list Pod);
  pbm_AgentStatuses : list string → GoM W (list AgentStat)
}.

Definition ConditionTypePendingSmartUpdate : string := "pendingSmartUpdate".
Definition ConditionTypeImageUpgradeInProgress : string := "ImageUpgradeInProgress".
Definition ConditionTypePBMReady : string := "PBMReady".
Definition PodFailed : string := "Failed".
Definition PodSucceeded : string := "Succeeded".
Definition ContainersReady : string := "ContainersReady".
Definition PodScheduled : string := "PodScheduled".
Definition PodReasonUnschedulable : string := "Unschedulable".
Definition Minute : Z := 60 * 1000000000.
Definition writeStatusSteps : nat := 6.

Definition with_status (f : ClusterStatus → ClusterStatus) (cr : SmartCluster) : SmartCluster :=
  with_sc_bc (with_bc_Status f cr) cr.

(** * Names *)
Definition MongodStatefulSetName (cr : PerconaServerMongoDB) (rs : ReplsetSpec) : string :=
  cr_Name cr +:+ "-" +:+ rs_Name rs.
Definition MongosStatefulSetName (cr : PerconaServerMongoDB) : string := cr_Name cr +:+ "-" +:+ ComponentMongos.
Definition SearchStatefulSetName (cr : PerconaServerMongoDB) (rs : ReplsetSpec) : string :=
  cr_Name cr +:+ "-" +:+ rs_Name rs +:+ "-" +:+ ComponentSearch.
Definition SearchLabels (cr : PerconaServerMongoDB) (rs : ReplsetSpec) : gmap string string :=
  <[LabelComponent := ComponentSearch]> (RSLabels cr (Some rs)).

(** * Images *)
Definition outdated (desired : gmap string string) (c : Container) : bool :=
  if bool_decide (ctr_Image c = "") then false
  else match desired !! ctr_Name c with
       | Some want => negb (bool_decide (ctr_Image c = want))
       | None => false
       end.
(** The set of names a loop over the containers collects *)
Definition outdated_in (desired : gmap string string) (containers : list Container) : gset string :=
  list_to_set (ctr_Name <$> filter (λ c, outdated desired c = true) containers).
Definition outdated_set (pod : Pod) (desired : gmap string string) : gset string :=
  let present : gset string := list_to_set (ctr_Name <$> pod_InitContainers pod ++ pod_Containers pod) in
  outdated_in desired (pod_InitContainers pod) ∪ outdated_in desired (pod_Containers pod)
  ∪ (dom desired ∖ present).
(** [slices.Sorted(maps.Keys(set))] *)
Definition sorted_keys `{GoSort} (s : gset string) : list string := sort_slice String.ltb (elements s).
Definition outdatedContainerNames `{GoSort} (pod : Pod) (desired : gmap string string) : list string :=
  sorted_keys (outdated_set pod desired).
Definition image_entry (c : Container) : option (string * string) :=
  if bool_decide (ctr_Image c = "") then None else Some (ctr_Name c, ctr_Image c).
Definition containerImages (initContainers containers : list Container) : gmap string string :=
  go_map_of image_entry (initContainers ++ containers).
Definition imageUpgradeMessage (containers : list string) : string :=
  "Image upgrade is in progress for container(s) " +:+ join ", " containers.

(** * Counting pods

    The loop over the pods is the same in three places of the source: the counter
    is an int32 or an int, and an unschedulable pod is an error or only a
    message. *)
Record PodCount := { pn_Ready : Z; pn_Status : string; pn_Message : string }.
Definition waiting_message (msg : string) (cs : ContainerStatus) : string :=
  match cs_Waiting cs with
  | Some (_, m) => if bool_decide (m = "") then msg else msg +:+ cs_Name cs +:+ ": " +:+ m +:+ "; "
  | None => msg
  end.
Definition dead_pod (pod : Pod) : bool :=
  pod_Deleting pod || bool_decide (pod_Phase pod = PodFailed) || bool_decide (pod_Phase pod = PodSucceeded).
Definition phase_of (pause all_ready : bool) (n : PodCount) : string :=
  if pause && (0 <? pn_Ready n)%Z then AppStateStopping
  else if pause then AppStatePaused
  else if (0 <? pn_Ready n)%Z && all_ready then AppStateReady
  else pn_Status n.

(** * The status of one part of the cluster *)
Section parts.
Context {W : Type} {K : K8sClient W} {E : ClusterEnv W} {KB : BackupClient W} {PB : PBM W}.
Context {SC : StatusClient W} {Y : Yaml} {V : Versions} {G : GoSort}.
Abbreviation M := (GoM W).
Implicit Types (cr : SmartCluster) (rs : ReplsetSpec) (pod : Pod).

Definition count_condition (inc : Z → Z) (fails : bool) (n : PodCount) (cond : PodCondition) : M PodCount :=
  if bool_decide (pc_Type cond = ContainersReady) then
    mret (if bool_decide (pc_Status cond = "True")
          then {| pn_Ready := inc (pn_Ready n); pn_Status := pn_Status n; pn_Message := pn_Message n |} else n)
  else if bool_decide (pc_Type cond = PodScheduled) && bool_decide (pc_Reason cond = PodReasonUnschedulable) then
    now ← go_now;
    mret (if (pc_LastTransitionTime cond <? now - Minute)%Z
          then {| pn_Ready := pn_Ready n; pn_Status := if fails then AppStateError else pn_Status n;
                  pn_Message := pc_Message cond |} else n)
  else mret n.
Fixpoint count_conditions inc fails n (l : list PodCondition) : M PodCount :=
  match l with
  | [] => mret n
  | cond :: l' => n' ← count_condition inc fails n cond; count_conditions inc fails n' l'
  end.
Fixpoint count_pods (inc : Z → Z) (fails : bool) (n : PodCount) (pods : list Pod) : M PodCount :=
  match pods with
  | [] => mret n
  | pod :: pods' =>
      if dead_pod pod then count_pods inc fails n pods'
      else
        let msg := foldl waiting_message (pn_Message n) (pod_ContainerStatuses pod) in
        n' ← count_conditions inc fails {| pn_Ready := pn_Ready n; pn_Status := pn_Status n; pn_Message := msg |}
               (pod_Conditions pod);
        count_pods inc fails n' pods'
  end.
Definition no_pods : PodCount := {| pn_Ready := 0; pn_Status := AppStateInit; pn_Message := "" |}.
Definition inc32 (z : Z) : Z := wrap32 (z + 1).
Definition inc64 (z : Z) : Z := wrap64 (z + 1).

Definition rs_of_state (state : string) : ReplsetStatus :=
  {| rst_Members := ∅; rst_Initialized := false; rst_AddedAsShard := None; rst_Size := 0; rst_Ready := 0;
     rst_Status := state; rst_Message := "" |}.

Definition rsStatus cr rs : M ReplsetStatus :=
  got ← tryM (k8s_get_sts (cr_Namespace cr) (cr_Name cr +:+ "-" +:+ rs_Name rs));
  match got with
  | Err e => if IsNotFound e then mret zeroReplsetStatus else throw e
  | Ok sts =>
      if negb (bool_decide (default "" (sts_Annotations sts !! AnnotationPVCResizeInProgress) = ""))
      then mret (rs_of_state AppStateInit)
      else if bool_decide (is_Some (GetPVCShrinkState (sts_Name sts) cr)) then mret (rs_of_state AppStateInit)
      else
        got ← tryM (GetRSPods (cr : SmartCluster) (rs_Name rs));
        match got with
        | Err e => throw (ENew ("get list: " +:+ err_string e))
        | Ok list =>
            n ← count_pods inc32 true no_pods list;
            mret {| rst_Members := ∅; rst_Initialized := false; rst_AddedAsShard := None;
                    rst_Size := rs_GetSize rs; rst_Ready := pn_Ready n;
                    rst_Status := phase_of (bc_Pause cr) (rs_GetSize rs =? pn_Ready n)%Z n;
                    rst_Message := pn_Message n |}
        end
  end.

Definition mongosStatus cr : M MongosStatus :=
  got ← tryM (k8s_get_sts (cr_Namespace cr) (MongosStatefulSetName cr));
  match got with
  | Err e =>
      if IsNotFound e
      then mret {| mgs_Size := 0; mgs_Ready := 0; mgs_Status := AppStateInit; mgs_Message := "" |}
      else throw (EWrap e ("get statefulset " +:+ MongosStatefulSetName cr))
  | Ok _ =>
      got ← tryM (getMongosPods (cr : SmartCluster));
      match got with
      | Err e => throw (ENew ("get list: " +:+ err_string e))
      | Ok list =>
          n ← count_pods inc64 false no_pods list;
          let sz := Z.of_nat (length list) in
          mret {| mgs_Size := sz; mgs_Ready := pn_Ready n;
                  mgs_Status := phase_of (bc_Pause cr) ((sz =? pn_Ready n) && (sz =? cr_MongosSize cr))%Z n;
                  mgs_Message := pn_Message n |}
      end
  end.

Definition searchStatus cr rs : M SearchStatus :=
  let name := SearchStatefulSetName cr rs in
  got ← tryM (k8s_get_sts (cr_Namespace cr) name);
  match got with
  | Err e =>
      if IsNotFound e
      then mret {| srs_Size := 0; srs_Ready := 0; srs_Status := AppStateInit; srs_Message := "" |}
      else throw (EWrap e ("get statefulset " +:+ name))
  | Ok sts =>
      pods ← wrapM ("list pods for " +:+ name)
               (k8s_list_pods (cr_Namespace cr) (SelectorFromSet (SearchLabels cr rs)));
      match sts_SpecReplicas sts with
      | None => throw nil_panic
      | Some size =>
          n ← count_pods inc32 true no_pods pods;
          let ready := if (size <? pn_Ready n)%Z then size else pn_Ready n in
          let n := {| pn_Ready := ready; pn_Status := pn_Status n; pn_Message := pn_Message n |} in
          mret {| srs_Size := size; srs_Ready := ready;
                  srs_Status := phase_of (bc_Pause cr) (size =? ready)%Z n; srs_Message := pn_Message n |}
      end
  end.

Definition upgradeInProgress cr (rsName : string) : M bool :=
  got ← tryM (k8s_get_sts (cr_Namespace cr) (cr_Name cr +:+ "-" +:+ rsName));
  match got with
  | Err e => if IsNotFound e then mret false else throw e
  | Ok sfs => mret (sts_UpdatedReplicas sfs <? sts_Replicas sfs)%Z
  end.

(** ** PBM *)
(** A missing config replica set is a nil pointer in the slice. *)
Definition GetReplsets (cr : PerconaServerMongoDB) : list (option ReplsetSpec) :=
  (Some <$> cr_Replsets cr) ++ (if cr_ShardingEnabled cr then [cr_ConfigsvrReplSet cr] else []).
Fixpoint any_overrides (l : list (option ReplsetSpec)) : result bool :=
  match l with
  | [] => Ok false
  | None :: _ => Err nil_panic
  | Some rs :: l' => if (0 <? size (rs_Overrides rs))%nat then Ok true else any_overrides l'
  end.
Definition replsetOverridesUsed (cr : PerconaServerMongoDB) : result bool := any_overrides (GetReplsets cr).

Fixpoint pods_by_replset (cr : PerconaServerMongoDB) (pods : gmap string (list Pod))
    (l : list (option ReplsetSpec)) : M (gmap string (list Pod)) :=
  match l with
  | [] => mret pods
  | None :: _ => throw nil_panic
  | Some rs :: l' =>
      items ← wrapM ("get replset/" +:+ rs_Name rs +:+ " pods") (GetRSPods cr (rs_Name rs));
      pods_by_replset cr (<[rs_Name rs := items]> pods) l'
  end.
Fixpoint hosts_of_pods (cr : PerconaServerMongoDB) rs (pods : list Pod) : M (list string) :=
  match pods with
  | [] => mret []
  | pod :: pods' =>
      host ← wrapM ("get host for " +:+ pod_Name pod)
               (MongoHost cr (cr_DNSMode cr) rs (rs_ExposeEnabled rs) pod);
      hosts ← hosts_of_pods cr rs pods';
      mret (host :: hosts)
  end.
Fixpoint hosts_of_replsets (cr : PerconaServerMongoDB) (pods : gmap string (list Pod))
    (l : list (option ReplsetSpec)) : M (list string) :=
  match l with
  | [] => mret []
  | None :: _ => throw nil_panic
  | Some rs :: l' =>
      hosts ← hosts_of_pods cr rs (default [] (pods !! rs_Name rs));
      rest ← hosts_of_replsets cr pods l';
      mret (hosts ++ rest)
  end.
Definition pbmAgentHosts (cr : PerconaServerMongoDB) : M (list string) :=
  pods ← pods_by_replset cr ∅ (GetReplsets cr);
  hosts_of_replsets cr pods (GetReplsets cr).

Definition agent_error (a : AgentStat) : string :=
  if negb (ag_PBMStatus a).1 then (ag_PBMStatus a).2
  else if negb (ag_StorageStatus a).1 then (ag_StorageStatus a).2
  else if negb (ag_NodeStatus a).1 then (ag_NodeStatus a).2
  else ag_Err a.
Definition agents_ok (l : list AgentStat) : bool := forallb (λ a, bool_decide (agent_error a = "")) l.

(** Whatever fails here makes the state an error. *)
Definition pbmStatus cr : M string :=
  if negb (b_Enabled (bc_Backup cr)) then mret AppStateReady
  else if bc_Pause cr then mret AppStatePaused
  else if bool_decide (bc_BackupVersion cr = "") then mret AppStateInit
  else if (size (b_Storages (bc_Backup cr)) <? 1)%nat then mret AppStateReady
  else if bool_decide (bc_BackupConfigHash cr = "") then mret AppStateInit
  else
    isRestoring ← wrapM "check if restore is running" (isRestoreRunning cr);
    if isRestoring : bool then mret AppStateInit
    else
      wrapM "new pbm connection" (newPBM cr);;
      deferM pbm_Close (
        used ← liftR (replsetOverridesUsed cr);
        hosts ← (if used : bool then wrapM "get pbm agent hosts" (pbmAgentHosts cr) else mret []);
        agents ← wrapM "get agent statuses" (pbm_AgentStatuses hosts);
        mret (if agents_ok agents then AppStateReady else AppStateInit)).

(** ** The host *)
Definition sort_Strings (l : list string) : list string := sort_slice String.ltb l.
Definition connectionEndpoint cr : M string :=
  if cr_ShardingEnabled cr then
    addrs ← wrapM "get mongos addresses" (GetMongosAddrs cr false (cr_MongosServicePerPod cr));
    mret (join "," (sort_Strings addrs))
  else
    match cr_Replsets cr with
    | [] => throw index_panic
    | rs :: _ =>
        if rs_ExposeEnabled rs && (bool_decide (rs_ExposeType rs = ServiceTypeLoadBalancer)
                                   || bool_decide (rs_ExposeType rs = ServiceTypeClusterIP)) then
          pods ← wrapM "list psmdb pods"
                   (k8s_list_pods (cr_Namespace cr) (SelectorFromSet (RSLabels cr (Some rs))));
          let dnsMode := if bool_decide (rs_ExposeType rs = ServiceTypeLoadBalancer)
                         then DNSModeExternal else DNSModeInternal in
          got ← catchM (GetReplsetAddrs cr dnsMode rs (rs_ExposeEnabled rs) pods);
          match got with
          | Ok addrs => mret (join "," (sort_Strings addrs))
          | Err e =>
              if bool_decide (err_cause e = ErrNoIngressPoints) || bool_decide (err_cause e = ErrServiceNotExists)
              then mret "" else throw (EWrap e "get replset addresses")
          end
        else mret (cr_Name cr +:+ "-" +:+ rs_Name rs +:+ "." +:+ cr_Namespace cr +:+ "." +:+ cr_DNSSuffix cr)
    end.

(** ** Images and revisions *)
Fixpoint pending_images (ns : string) (pending : gset string) (l : list StatefulSet) : M (gset string) :=
  match l with
  | [] => mret pending
  | sts :: l' =>
      match sts_Selector sts with
      | None => pending_images ns pending l'
      | Some sel =>
          match selector_error sel with
          | Some e => throw (EWrap e ("parse selector for statefulset " +:+ sts_Name sts))
          | None =>
              if bool_decide (MatchLabels sel = ∅) && bool_decide (MatchExpressions sel = [])
              then pending_images ns pending l'
              else
                pods ← wrapM ("list pods for statefulset " +:+ sts_Name sts) (ssel_list_pods ns sel);
                let desired := containerImages (sts_TemplateInitContainers sts) (sts_TemplateContainers sts) in
                let names : gset string := ⋃ ((λ pod, list_to_set (outdatedContainerNames pod desired)) <$> pods) in
                pending_images ns (pending ∪ names) l'
          end
      end
  end.
Definition imageUpgradeInProgress cr : M (list string) :=
  stsList ← wrapM "list statefulsets"
              (k8s_list_sts (cr_Namespace cr) (SelectorFromSet {[ LabelInstance := cr_Name cr ]}));
  pending ← pending_images (cr_Namespace cr) ∅ stsList;
  mret (sorted_keys pending).

Fixpoint awaiting_in (ns : string) (updated : Z) (stsChanged : bool) (names : list string) : M bool :=
  match names with
  | [] => mret (stsChanged && (updated =? 0)%Z)
  | name :: names' =>
      got ← tryM (k8s_get_sts ns name);
      match got with
      | Err e => if IsNotFound e then mret false else throw e
      | Ok sts =>
          match sts_Selector sts with
          | None => throw nil_panic
          | Some sel =>
              pods ← wrapM "get pod list" (k8s_list_pods ns (SelectorFromSet (MatchLabels sel)));
              if HasStatefulSetChanged sts pods
              then awaiting_in ns (wrap32 (updated + sts_UpdatedReplicas sts)) true names'
              else awaiting_in ns updated stsChanged names'
          end
      end
  end.
Definition isAwaitingSmartUpdate cr : M bool :=
  if negb (bool_decide (sc_UpdateStrategy cr = SmartUpdateStatefulSetStrategyType)) then mret false
  else
    let names := MongodStatefulSetName cr <$> cr_Replsets cr in
    if cr_ShardingEnabled cr then
      match cr_ConfigsvrReplSet cr with
      | None => throw nil_panic
      | Some cfg => awaiting_in (cr_Namespace cr) 0 false
                      (names ++ [MongodStatefulSetName cr cfg; MongosStatefulSetName cr])
      end
    else awaiting_in (cr_Namespace cr) 0 false names.

(** ** Writing the status

    The cluster may have been deleted and created again under the same name. *)
Definition write_once cr : M unit :=
  c ← scr_get (cr_Namespace cr) (cr_Name cr);
  if negb (bool_decide (cr_UID (c : SmartCluster) = cr_UID cr)) then mret tt
  else scr_update_status (with_status (λ _, bc_Status cr) c).
Definition writeStatus `{GoRetryOn} cr : M unit :=
  got ← tryM (retry_on writeStatusSteps (is_kind KConflict) (write_once cr));
  match got with
  | Ok _ => mret tt
  | Err e => if IsNotFound e then mret tt else throw (EWrap e "write status")
  end.
End parts.

(** * updateStatus *)
(** What the loop over the replica sets counts *)
Record Tally := { ta_ready : nat; ta_stopping : nat; ta_paused : nat; ta_inProgress : bool }.
Definition zeroTally : Tally := {| ta_ready := 0; ta_stopping := 0; ta_paused := 0; ta_inProgress := false |}.
Definition tally (state : string) (t : Tally) : Tally :=
  let one s := if bool_decide (state = s) then 1 else 0 in
  {| ta_ready := ta_ready t + one AppStateReady; ta_stopping := ta_stopping t + one AppStateStopping;
     ta_paused := ta_paused t + one AppStatePaused; ta_inProgress := ta_inProgress t |}.
Definition set_inProgress (b : bool) (t : Tally) : Tally :=
  {| ta_ready := ta_ready t; ta_stopping := ta_stopping t; ta_paused := ta_paused t; ta_inProgress := b |}.

(** The replica sets whose status is shown: [repls] *)
Definition shown_replsets (cr : PerconaServerMongoDB) : list ReplsetSpec :=
  match cr_ShardingEnabled cr, cr_ConfigsvrReplSet cr with
  | true, Some cfg => cr_Replsets cr ++ [cfg]
  | _, _ => cr_Replsets cr
  end.
Definition is_configsvr (rs : ReplsetSpec) : bool := bool_decide (rs_ClusterRole rs = Defaults.ClusterRoleConfigSvr).

(** Of a map, what belongs to the given replica sets *)
Definition kept {V} (m : gmap string V) (repls : list ReplsetSpec) : gmap string V :=
  go_map_of (λ rs, (λ v, (rs_Name rs, v)) <$> m !! rs_Name rs) repls.

Definition prune_replsets (cr : PerconaServerMongoDB) (m : gmap string ReplsetStatus) : gmap string ReplsetStatus :=
  let m := match cr_ShardingEnabled cr, cr_ConfigsvrReplSet cr with
           | true, Some _ => m
           | _, _ => set_AddedAsShard None <$> delete ConfigReplSetName m
           end in
  kept m (shown_replsets cr).
Definition prune_search (cr : PerconaServerMongoDB) (m : gmap string SearchStatus) : gmap string SearchStatus :=
  if negb (cr_SearchEnabled cr) then ∅
  else kept m (filter (λ rs, is_configsvr rs = false) (shown_replsets cr)).

(** The condition of a part that changes its state *)
Definition part_condition (now : Z) (state prefix : string) (name : option string) : ClusterCondition :=
  {| cc_Type := state; cc_Status := ConditionTrue; 
     cc_Reason := if bool_decide (state = AppStateReady) then prefix +:+ "Ready"
                  else if bool_decide (state = AppStateStopping) then prefix +:+ "Stopping"
                  else if bool_decide (state = AppStatePaused) then prefix +:+ "Paused" else "";
     cc_Message :=
       match name with
       | Some n => if bool_decide (state ∈ [AppStateReady; AppStateStopping; AppStatePaused])
                   then n +:+ ": " +:+ state else ""
       | None => ""
       end;
     cc_LastTransitionTime := Some now |}.

(** Of the status found now: what is kept from the one before, and the ready
    count that a downscale makes too large. *)
Definition carry (old new : ReplsetStatus) : ReplsetStatus :=
  {| rst_Members := rst_Members old; rst_Initialized := rst_Initialized old;
     rst_AddedAsShard := rst_AddedAsShard old; rst_Size := rst_Size new;
     rst_Ready := if (rst_Size new <? rst_Ready new)%Z then rst_Size new else rst_Ready new;
     rst_Status := rst_Status new; rst_Message := rst_Message new |}.
Definition cap_mongos (s : MongosStatus) : MongosStatus :=
  {| mgs_Size := mgs_Size s; mgs_Ready := if (mgs_Size s <? mgs_Ready s)%Z then mgs_Size s else mgs_Ready s;
     mgs_Status := mgs_Status s; mgs_Message := mgs_Message s |}.
Definition add_counts (size ready : Z) (s : ClusterStatus) : ClusterStatus :=
  set_Counts (wrap32 (st_Size s + size)) (wrap32 (st_Ready s + ready)) s.

(** The state of the cluster from the states of its parts *)
Definition overall_state `{MapOrder} (cr : SmartCluster) (clusterState pbm : string) (n : nat) (t : Tally) : string :=
  let st := bc_Status cr in
  let mongos := default "" (mgs_Status <$> st_Mongos st) in
  if (0 <? ta_stopping t)%nat || (cr_ShardingEnabled cr && bool_decide (mongos = AppStateStopping))
     || sc_Deleting cr then AppStateStopping
  else if (ta_paused t =? n)%nat then
    if cr_ShardingEnabled cr && negb (bool_decide (mongos = AppStatePaused)) then AppStateStopping
    else AppStatePaused
  else if bool_decide (clusterState = AppStateReady) && (ta_ready t =? n)%nat
          && bool_decide (pbm = AppStateReady) && negb (ta_inProgress t)
          && negb (bool_decide (st_Host st = "")) then
    let state := if cr_ShardingEnabled cr && negb (bool_decide (mongos = AppStateReady)) then mongos
                 else AppStateReady in
    if cr_SearchEnabled cr then
      match list_find (λ p : string * SearchStatus, srs_Status p.2 ≠ AppStateReady) (map_order (st_Search st)) with
      | Some (_, (_, s)) => srs_Status s
      | None => state
      end
    else state
  else AppStateInit.

Section update_status.
Context {W : Type} {K : K8sClient W} {E : ClusterEnv W} {KB : BackupClient W} {PB : PBM W}.
Context {SC : StatusClient W} {Y : Yaml} {V : Versions} {G : GoSort} {R : GoRetryOn} {O : MapOrder}.
Abbreviation M := (GoM (SmartCluster * W)).

Definition setStatus (f : ClusterStatus → ClusterStatus) : M unit := mod_mem (with_status f).
Definition addCondition (c : Z → ClusterCondition) : M unit :=
  now ← on_world go_now;
  setStatus (AddCondition now (c now)).
(** A condition without a time of its own *)
Definition plain_condition (ty reason msg : string) (_ : Z) : ClusterCondition :=
  {| cc_Type := ty; cc_Status := ConditionTrue; cc_Reason := reason; cc_Message := msg;
     cc_LastTransitionTime := None |}.

Definition updateImageUpgradeCondition : M unit :=
  cr ← get_mem;
  containers ← on_world (imageUpgradeInProgress cr);
  if (0 <? length containers)%nat then
    addCondition (plain_condition ConditionTypeImageUpgradeInProgress "ImageUpgrade"
                    (imageUpgradeMessage containers))
  else if IsStatusConditionTrue (bc_Status (cr : SmartCluster)) ConditionTypeImageUpgradeInProgress
          && negb (bool_decide (bc_State (cr : SmartCluster) = AppStateReady)) then
    addCondition (plain_condition ConditionTypeImageUpgradeInProgress "ImageUpgrade"
                    "Image upgrade is waiting for the cluster to be ready")
  else setStatus (RemoveCondition ConditionTypeImageUpgradeInProgress).

Definition replset_part (rs : ReplsetSpec) (t : Tally) : M Tally :=
  cr ← get_mem;
  status ← wrapM ("get replset " +:+ rs_Name rs +:+ " status") (on_world (rsStatus cr rs));
  let current := default zeroReplsetStatus (st_Replsets (bc_Status (cr : SmartCluster)) !! rs_Name rs) in
  let t := tally (rst_Status status) t in
  (if negb (bool_decide (rst_Status status = rst_Status current))
   then addCondition (λ now, part_condition now (rst_Status status) "RS" (Some (rs_Name rs))) else mret tt);;
  let status := carry current status in
  setStatus (λ s, add_counts (rst_Size status) (rst_Ready status) (with_Replsets <[rs_Name rs := status]> s));;
  inProgress ← (if ta_inProgress t then mret true
                else wrapM "set upgradeInProgres" (on_world (upgradeInProgress cr (rs_Name rs))));
  (if cr_SearchEnabled cr && negb (is_configsvr rs) then
     search ← wrapM ("get search " +:+ rs_Name rs +:+ " status") (on_world (searchStatus cr rs));
     setStatus (with_Search <[rs_Name rs := search]>)
   else mret tt);;
  mret (set_inProgress inProgress t).
Fixpoint replsets_part (repls : list ReplsetSpec) (t : Tally) : M Tally :=
  match repls with
  | [] => mret t
  | rs :: repls' => t' ← replset_part rs t; replsets_part repls' t'
  end.

Definition mongos_part (t : Tally) : M Tally :=
  cr ← get_mem;
  if negb (cr_ShardingEnabled (cr : SmartCluster)) then setStatus (set_Mongos None);; mret t
  else
    status ← wrapM "get mongos status" (on_world (mongosStatus cr));
    let current := default "" (mgs_Status <$> st_Mongos (bc_Status (cr : SmartCluster))) in
    (if negb (bool_decide (mgs_Status status = current))
     then addCondition (λ now, part_condition now (mgs_Status status) "Mongos" None) else mret tt);;
    let status := cap_mongos status in
    setStatus (λ s, add_counts (wrap32 (mgs_Size status)) (wrap32 (mgs_Ready status)) (set_Mongos (Some status) s));;
    inProgress ← (if (0 <=? CompareVersion (cr : SmartCluster) "1.12.0")%Z && negb (ta_inProgress t)
                  then wrapM "set upgradeInProgres" (on_world (upgradeInProgress cr "mongos"))
                  else mret (ta_inProgress t));
    mret (set_inProgress inProgress t).

(** The status after an error of the reconciliation: it is written whatever the
    images are. *)
Definition errorStatus (e : error) : M unit :=
  cr ← get_mem;
  (if negb (bool_decide (bc_State (cr : SmartCluster) = AppStateError)) then
     addCondition (λ now, {| cc_Type := AppStateError; cc_Status := ConditionTrue; cc_Reason := "ErrorReconcile";
                             cc_Message := err_string e; cc_LastTransitionTime := Some now |})
   else mret tt);;
  setStatus (λ s, set_StatusState AppStateError (set_StatusMessage ("Error: " +:+ err_string e) s));;
  _ ← catchM updateImageUpgradeCondition;
  cr ← get_mem;
  on_world (writeStatus (cr : SmartCluster)).

Definition pending_update : M unit :=
  setStatus (RemoveCondition ConditionTypePendingSmartUpdate);;
  cr ← get_mem;
  awaiting ← wrapM "cannot check if awaiting smart update" (on_world (isAwaitingSmartUpdate cr));
  if (st_Ready (bc_Status (cr : SmartCluster)) =? st_Size (bc_Status (cr : SmartCluster)))%Z && awaiting then
    addCondition (plain_condition ConditionTypePendingSmartUpdate ""
                    "Smart update is pending but has not yet started")
  else mret tt.

(** Host and state, once the parts are known *)
Definition state_part (clusterState : string) (t : Tally) : M string :=
  cr ← get_mem;
  host ← catchM (on_world (connectionEndpoint cr));
  setStatus (set_StatusHost (match host with Ok h => h | Err _ => "" end));;
  pbm ← catchM (on_world (pbmStatus cr));
  cr ← get_mem;
  mret (overall_state cr clusterState (match pbm with Ok s => s | Err _ => AppStateError end)
          (length (shown_replsets (cr : SmartCluster))) t).

Definition updateStatus (reconcileErr : option error) (clusterState : string) : M unit :=
  let clusterState := if bool_decide (clusterState = "") then AppStateInit else clusterState in
  start ← on_world go_now;
  match reconcileErr with
  | Some e => errorStatus e
  | None =>
      setStatus (set_StatusMessage "");;
      cr ← get_mem;
      setStatus (λ s, set_Counts 0 0 (with_Search (prune_search cr) (with_Replsets (prune_replsets cr) s)));;
      t ← replsets_part (shown_replsets (cr : SmartCluster)) zeroTally;
      t ← mongos_part t;
      state ← state_part clusterState t;
      setStatus (set_StatusState state);;
      addCondition (λ _, {| cc_Type := state; cc_Status := ConditionTrue; cc_Reason := ""; cc_Message := "";
                            cc_LastTransitionTime := Some start |});;
      pending_update;;
      wrapM "update image upgrade condition" updateImageUpgradeCondition;;
      setStatus (set_ObservedGeneration (cr_Generation (cr : SmartCluster)));;
      cr ← get_mem;
      on_world (writeStatus (cr : SmartCluster))
  end.

(** [updateCondition] (conditions.go) *)
Definition updateCondition (c : ClusterCondition) : M unit :=
  addCondition (λ _, c);;
  cr ← get_mem;
  on_world (writeStatus (cr : SmartCluster)).

(** What the waiting loop of the smart update calls in every round *)
Definition status_updater : StatusUpdater W := λ cr reconcileErr clusterState w,
  let '(r, (_, w')) := updateStatus reconcileErr clusterState (cr, w) in (r, w').
End update_status.
