(* ===== verification/StatusFacts.v ===== *)
(** What the status of a cluster means: a cluster is shown ready only when its
    pods were seen ready, an error is always shown, the condition on images
    stays until the cluster is ready, and the status of a cluster is never
    written over the status of another of the same name. *)
From S2P Require Import Prelude Trace ReplsetModels MongoClient Api GoSort Kube Hosts SystemUsers Shell Cluster.
From S2P Require Import BackupApi BackupSchedule Lease BackupExec BackupController SmartUpdate Volumes Status.

(** * Pods *)
Definition says_ready (c : PodCondition) : bool :=
  bool_decide (pc_Type c = ContainersReady) && bool_decide (pc_Status c = "True").
(** The conditions of live pods that say their containers are ready *)
Definition ready_pods (pods : list Pod) : nat :=
  sum_list ((λ pod, count says_ready (pod_Conditions pod)) <$> filter (λ pod, dead_pod pod = false) pods).

Lemma ready_pods_cons pod pods :
  ready_pods (pod :: pods) =
    (if dead_pod pod then 0 else count says_ready (pod_Conditions pod)) + ready_pods pods.
Proof.
  unfold ready_pods. rewrite filter_cons. destruct (dead_pod pod); case_decide; try done.
Qed.

Lemma wrap32_step x k : wrap32 (wrap32 x + k) = wrap32 (x + k).
Proof.
  unfold wrap32. f_equal. replace ((x + 2 ^ 31) mod 2 ^ 32 - 2 ^ 31 + k + 2 ^ 31)%Z with
    ((x + 2 ^ 31) mod 2 ^ 32 + k)%Z by lia.
  rewrite Zplus_mod_idemp_l. f_equal. lia.
Qed.
Lemma wrap64_step x k : wrap64 (wrap64 x + k) = wrap64 (x + k).
Proof.
  unfold wrap64. f_equal. replace ((x + 2 ^ 63) mod 2 ^ 64 - 2 ^ 63 + k + 2 ^ 63)%Z with
    ((x + 2 ^ 63) mod 2 ^ 64 + k)%Z by lia.
  rewrite Zplus_mod_idemp_l. f_equal. lia.
Qed.

Section counting.
Context {W : Type} {KB : BackupClient W}.
Context (wrap : Z → Z) (Hwrap : ∀ x k, wrap (wrap x + k)%Z = wrap (x + k)%Z).
Abbreviation inc := (λ z : Z, wrap (z + 1)).
(** [k] ready conditions have been counted. *)
Definition counted (k : nat) (n : PodCount) : Prop :=
  pn_Ready n = wrap (Z.of_nat k) ∧ pn_Status n ∈ [AppStateInit; AppStateError].

Lemma count_condition_ensures fails k n cond :
  counted k n →
  ensures (count_condition inc fails n cond : GoM W _) (counted (k + if says_ready cond then 1 else 0)).
Proof using Hwrap.
  intros [Hk Hs]. unfold count_condition, says_ready. case_bool_decide as Ht; cbn [andb].
  - apply ensures_ret. case_bool_decide; (split; [cbn|done]).
    + rewrite Hk, Hwrap. f_equal. lia.
    + rewrite Hk. f_equal. lia.
  - rewrite Nat.add_0_r. destruct (_ && _); [|by apply ensures_ret].
    apply ensures_then. intros now. apply ensures_ret. destruct (_ <? _)%Z; [|done].
    split; [done|]. cbn. destruct fails; set_solver.
Qed.
Lemma count_conditions_ensures fails l k n :
  counted k n → ensures (count_conditions inc fails n l : GoM W _) (counted (k + count says_ready l)).
Proof using Hwrap.
  revert k n. induction l as [|c l IH]; intros k n Hn; cbn [count_conditions count].
  - rewrite Nat.add_0_r. by apply ensures_ret.
  - eapply ensures_bind; [by apply count_condition_ensures|]. intros n' Hn'.
    rewrite Nat.add_assoc. by apply IH.
Qed.
Lemma count_pods_ensures fails pods k n :
  counted k n → ensures (count_pods inc fails n pods : GoM W _) (counted (k + ready_pods pods)).
Proof using Hwrap.
  revert k n. induction pods as [|pod pods IH]; intros k n Hn; cbn [count_pods].
  - rewrite Nat.add_0_r. by apply ensures_ret.
  - rewrite ready_pods_cons. destruct (dead_pod pod); [by apply IH|]. cbv zeta.
    eapply ensures_bind; [apply count_conditions_ensures; exact Hn|]. intros n' Hn'.
    rewrite Nat.add_assoc. by apply IH.
Qed.
Lemma phase_ready pause all k n :
  counted k n → phase_of pause all n = AppStateReady → pause = false ∧ all = true ∧ (0 < pn_Ready n)%Z.
Proof.
  intros [_ Hs]. assert (pn_Status n ≠ AppStateReady) as Hne.
  { intros E. rewrite E, !elem_of_cons, elem_of_nil in Hs. by destruct Hs as [|[|]]. }
  unfold phase_of. destruct pause; cbn [andb]; [by case_match|].
  destruct (0 <? pn_Ready n)%Z eqn:E; [|done]. destruct all; [|done]. intros _. by apply Z.ltb_lt in E.
Qed.
End counting.

(** * Which pods were seen *)
Section seen.
Context {W : Type} {K : K8sClient W} {E : ClusterEnv W} {KB : BackupClient W} {PB : PBM W}.
Context {SC : StatusClient W} {Y : Yaml} {V : Versions} {G : GoSort}.
Implicit Types (cr : SmartCluster) (rs : ReplsetSpec).

(** The API listed as many ready pods as the replica set is to have. *)
Definition seen_ready cr rs : Prop :=
  bc_Pause cr = false ∧ (0 < rs_GetSize rs)%Z ∧
  ∃ pods w w', GetRSPods cr (rs_Name rs) w = (Ok pods, w') ∧
               rs_GetSize rs = wrap32 (Z.of_nat (ready_pods pods)).
Definition mongos_seen_ready cr : Prop :=
  (0 < cr_MongosSize cr)%Z ∧
  ∃ pods w w', getMongosPods cr w = (Ok pods, w') ∧
               Z.of_nat (length pods) = cr_MongosSize cr ∧
               cr_MongosSize cr = wrap64 (Z.of_nat (ready_pods pods)).

Lemma ensures_seen {A B} (m : GoM W A) (f : A → GoM W B) (Q : B → Prop) :
  (∀ a w w', m w = (Ok a, w') → ensures (f a) Q) → ensures (m ≫= f) Q.
Proof.
  intros Hf. eapply ensures_bind with (R := λ a, ∃ w w', m w = (Ok a, w')).
  - intros w. destruct (m w) as [[a|e] w'] eqn:Em; cbn; [|done]. by exists w, w'.
  - intros a (w & w' & Ha). by eapply Hf.
Qed.
Lemma ensures_try_seen {A B} (m : GoM W A) (f : result A → GoM W B) (Q : B → Prop) :
  (∀ r w w', m w = (r, w') → ensures (f r) Q) → ensures (tryM m ≫= f) Q.
Proof.
  intros Hf. apply ensures_seen. intros r w w' Hr. unfold tryM in Hr. destruct (m w) as [r0 w0] eqn:Em.
  injection Hr as <- <-. by eapply Hf.
Qed.

Lemma no_pods_counted wrap : wrap 0%Z = 0%Z → counted wrap 0 no_pods.
Proof. intros Hw. split; [by cbn|]. cbn. set_solver. Qed.

Lemma rsStatus_ready cr rs :
  ensures (rsStatus cr rs) (λ s, rst_Status s = AppStateReady →
    seen_ready cr rs ∧ rst_Size s = rs_GetSize rs ∧ rst_Ready s = rst_Size s).
Proof.
  unfold rsStatus. apply ensures_try_seen. intros [sts|e] _ _ _.
  2: { case_match; [by apply ensures_ret|apply ensures_throw]. }
  case_match; [by apply ensures_ret|]. case_match; [by apply ensures_ret|].
  apply ensures_try_seen. intros [pods|e] w w' Hp; [|apply ensures_throw].
  eapply ensures_bind; [apply (count_pods_ensures wrap32 wrap32_step), (no_pods_counted wrap32); done|].
  intros n Hn. apply ensures_ret. cbn. intros Hr.
  destruct (phase_ready _ _ _ _ _ Hn Hr) as (Hpause & Hall & Hpos). apply Z.eqb_eq in Hall.
  destruct Hn as [Hn _]. split; [|done]. split; [done|]. split; [by rewrite Hall|].
  exists pods, w, w'. split; [done|]. by rewrite Hall, Hn.
Qed.
Lemma mongosStatus_ready cr :
  ensures (mongosStatus cr) (λ s, mgs_Status s = AppStateReady →
    mongos_seen_ready cr ∧ mgs_Size s = cr_MongosSize cr ∧ mgs_Ready s = mgs_Size s).
Proof.
  unfold mongosStatus. apply ensures_try_seen. intros [sts|e] _ _ _.
  2: { case_match; [by apply ensures_ret|apply ensures_throw]. }
  apply ensures_try_seen. intros [pods|e] w w' Hp; [|apply ensures_throw].
  eapply ensures_bind; [apply (count_pods_ensures wrap64 wrap64_step), (no_pods_counted wrap64); done|].
  intros n Hn. apply ensures_ret. cbn. intros Hr.
  destruct (phase_ready _ _ _ _ _ Hn Hr) as (_ & [Hall Hsz]%andb_prop & Hpos).
  apply Z.eqb_eq in Hall. apply Z.eqb_eq in Hsz. destruct Hn as [Hn _].
  split; [|by rewrite <- Hsz]. split; [by rewrite <- Hsz, Hall|].
  exists pods, w, w'. split; [done|]. split; [done|]. by rewrite <- Hsz, Hall, Hn.
Qed.
End seen.

(** * The status as the handlers build it

    [at_ cr0 I]: the cluster in memory is [cr0] but for its status, which
    satisfies [I]. *)
Definition at_ (cr0 : SmartCluster) (I : ClusterStatus → Prop) (s : SmartCluster) : Prop :=
  ∃ st, s = with_status (λ _, st) cr0 ∧ I st.
(** What is known after a handler that did not fail *)
Definition on_ok {A} (Q : A → SmartCluster → Prop) (r : result A) (s : SmartCluster) : Prop :=
  match r with Ok a => Q a s | Err _ => True end.

Section memory.
Context {W : Type} {KB : BackupClient W}.
Context (cr0 : SmartCluster).
Abbreviation M := (GoM (SmartCluster * W)).
Abbreviation at0 := (at_ cr0).
Implicit Types (I : ClusterStatus → Prop).

Lemma ok_bind {A B} P (m : M A) (R : A → SmartCluster → Prop) (f : A → M B) Q :
  hoare P m (on_ok R) → (∀ a, hoare (R a) (f a) (on_ok Q)) → hoare P (m ≫= f) (on_ok Q).
Proof. intros Hm Hf. eapply hoare_bind; [|exact Hf]. eapply hoare_conseq; [exact Hm|done|by intros []]. Qed.
Lemma ok_ret {A} P (a : A) (Q : A → SmartCluster → Prop) : (∀ s, P s → Q a s) → hoare P (mret a : M A) (on_ok Q).
Proof. intros H. by apply hoare_ret. Qed.
Lemma ok_pure {A} (φ : Prop) P (m : M A) Q : (φ → hoare P m Q) → hoare (λ s, φ ∧ P s) m Q.
Proof. intros H s w [Hφ Hs]. by apply H. Qed.
Lemma ok_get {B} I (f : SmartCluster → M B) Q :
  (∀ st, I st → hoare (λ s, s = with_status (λ _, st) cr0) (f (with_status (λ _, st) cr0)) Q) →
  hoare (at0 I) (get_mem ≫= f) Q.
Proof. intros H. apply hoare_get. intros s0 (st & -> & Hst). by apply H. Qed.
(** What a call returns, from a known memory *)
Lemma ok_world {A} st (m : GoM W A) (R : A → Prop) :
  ensures m R → hoare (λ s, s = with_status (λ _, st) cr0) (on_world m : M A)
                  (on_ok (λ a s, R a ∧ s = with_status (λ _, st) cr0)).
Proof.
  intros Hm. apply hoare_world. intros r w w' s -> Hr. specialize (Hm w). rewrite Hr in Hm. by destruct r.
Qed.
Lemma ok_wrap {A} P msg (m : M A) (R : A → SmartCluster → Prop) : hoare P m (on_ok R) → hoare P (wrapM msg m) (on_ok R).
Proof. intros Hm. apply hoare_wrap. eapply hoare_conseq; [exact Hm|done|by intros []]. Qed.
Lemma ok_set I J f : (∀ st, I st → J (f st)) → hoare (at0 I) (setStatus f : M unit) (on_ok (λ _, at0 J)).
Proof. intros H. apply hoare_mod. intros s (st & -> & Hst). exists (f st). split; [done|]. by apply H. Qed.
Lemma ok_from {A} I st (m : M A) Q : I st → hoare (at0 I) m Q → hoare (λ s, s = with_status (λ _, st) cr0) m Q.
Proof. intros Hst Hm. eapply hoare_conseq; [exact Hm| |done]. intros s ->. by exists st. Qed.

(** A property that does not read the conditions *)
Definition ignores_conditions I : Prop := ∀ cs st, I st → I (set_Conditions cs st).
Lemma add_ignored I now c st : ignores_conditions I → I st → I (AddCondition now c st).
Proof. intros Hi Hst. unfold AddCondition. case_match; by apply Hi. Qed.
Lemma remove_ignored I ty st : ignores_conditions I → I st → I (RemoveCondition ty st).
Proof. intros Hi Hst. unfold RemoveCondition. case_match; [by apply Hi|done]. Qed.
Lemma ok_add I c : ignores_conditions I → hoare (at0 I) (addCondition c : M unit) (on_ok (λ _, at0 I)).
Proof.
  intros Hi. unfold addCondition. eapply (ok_bind _ _ (λ _, at0 I)).
  - apply hoare_world. intros [now|e] w w' s Hs _; [exact Hs|done].
  - intros now. apply ok_set. intros st Hst. by apply add_ignored.
Qed.
End memory.

(** * The parts *)
Section parts_ready.
Context {W : Type} {K : K8sClient W} {E : ClusterEnv W} {KB : BackupClient W} {PB : PBM W}.
Context {SC : StatusClient W} {Y : Yaml} {V : Versions} {G : GoSort} {R : GoRetryOn} {O : MapOrder}.
Context (cr0 : SmartCluster).
Abbreviation M := (GoM (SmartCluster * W)).

Definition entry_ready (st : ClusterStatus) (name : string) : Prop :=
  ∃ e, st_Replsets st !! name = Some e ∧ rst_Status e = AppStateReady ∧ rst_Ready e = rst_Size e.
Definition parts_ok (done : list ReplsetSpec) (st : ClusterStatus) : Prop :=
  (∀ rs, rs ∈ done → seen_ready cr0 rs ∧ entry_ready st (rs_Name rs)) ∧ st_Ready st = st_Size st.
Definition search_shown (done : list ReplsetSpec) (st : ClusterStatus) : Prop :=
  cr_SearchEnabled cr0 = true → ∀ rs, rs ∈ done → is_configsvr rs = false → is_Some (st_Search st !! rs_Name rs).
Definition loop_inv (done : list ReplsetSpec) (t : Tally) (st : ClusterStatus) : Prop :=
  ta_ready t ≤ length done ∧ (ta_ready t = length done → parts_ok done st) ∧ search_shown done st.

Lemma loop_ignores done t : ignores_conditions (loop_inv done t).
Proof. intros cs st Hst. exact Hst. Qed.

(** What the counters and the entries are after one more replica set *)
Definition entered (done : list ReplsetSpec) (rs : ReplsetSpec) (t' : Tally) (st : ClusterStatus) : Prop :=
  ta_ready t' ≤ length (done ++ [rs]) ∧ (ta_ready t' = length (done ++ [rs]) → parts_ok (done ++ [rs]) st) ∧
  search_shown done st.

Lemma entered_step done rs t st status current :
  loop_inv done t st →
  (rst_Status status = AppStateReady →
     seen_ready cr0 rs ∧ rst_Size status = rs_GetSize rs ∧ rst_Ready status = rst_Size status) →
  let e := carry current status in
  entered done rs (tally (rst_Status status) t)
    (add_counts (rst_Size e) (rst_Ready e) (with_Replsets <[rs_Name rs := e]> st)).
Proof.
  intros (Hle & Hok & Hse) Hst e. unfold entered. rewrite length_app. cbn [length tally ta_ready].
  case_bool_decide as Hr; [|split; [lia|]; split; [lia|exact Hse]].
  destruct (Hst Hr) as (Hseen & Hsz & Hrd). split; [lia|]. split; [|exact Hse].
  intros Hn. destruct Hok as [Hok Hcnt]; [lia|].
  assert (rst_Ready e = rst_Size e ∧ rst_Status e = AppStateReady) as [He Hes].
  { cbn. split; [|done]. by rewrite Hrd, Z.ltb_irrefl. }
  split.
  - intros rs' [Hin| ->%list_elem_of_singleton]%elem_of_app.
    + destruct (Hok rs' Hin) as [Hs' (e' & He' & Hst')]. split; [done|]. unfold entry_ready. cbn.
      destruct (decide (rs_Name rs = rs_Name rs')) as [->|Hne].
      * rewrite lookup_insert_eq. by exists e.
      * rewrite lookup_insert_ne by done. by exists e'.
    + split; [done|]. exists e. cbn. by rewrite lookup_insert_eq.
  - cbn -[e]. by rewrite Hcnt, He.
Qed.

Lemma search_step done rs st s :
  search_shown done st → search_shown (done ++ [rs]) (with_Search <[rs_Name rs := s]> st).
Proof.
  intros Hse Hen rs' [Hin| ->%list_elem_of_singleton]%elem_of_app Hc; cbn.
  - destruct (decide (rs_Name rs = rs_Name rs')) as [->|Hne]; [by rewrite lookup_insert_eq|].
    rewrite lookup_insert_ne by done. by apply Hse.
  - by rewrite lookup_insert_eq.
Qed.

Lemma replset_part_ok done rs t :
  hoare (at_ cr0 (loop_inv done t)) (replset_part rs t : M Tally)
    (on_ok (λ t', at_ cr0 (loop_inv (done ++ [rs]) t'))).
Proof.
  unfold replset_part. apply ok_get. intros st Hst.
  eapply ok_bind; [apply ok_wrap, ok_world, rsStatus_ready|]. cbv beta. intros status.
  apply ok_pure. intros Hready. apply (ok_from cr0 (loop_inv done t)); [exact Hst|].
  eapply (ok_bind _ _ (λ _, at_ cr0 (loop_inv done t))).
  { destruct (negb _); [apply ok_add, loop_ignores|]. by apply ok_ret. }
  intros _. set (e := carry _ status). set (t' := tally (rst_Status status) t).
  eapply (ok_bind _ _ (λ _, at_ cr0 (entered done rs t'))).
  { apply ok_set. intros st' Hst'. by apply entered_step. }
  intros _. eapply (ok_bind _ _ (λ _, at_ cr0 (entered done rs t'))).
  { destruct (ta_inProgress t'); [by apply ok_ret|]. apply ok_wrap, hoare_world. by intros []. }
  intros inProgress. eapply (ok_bind _ _ (λ _, at_ cr0 (loop_inv (done ++ [rs]) t'))).
  { destruct (cr_SearchEnabled _) eqn:Hen; cbn [andb].
    - destruct (is_configsvr rs) eqn:Hc; cbn [negb].
      + apply ok_ret. intros s (st' & -> & Hl & Hp & Hse). exists st'. split; [done|]. split; [done|]. split; [done|].
        intros _ rs' [Hin| ->%list_elem_of_singleton]%elem_of_app Hc'; [by apply Hse|congruence].
      + eapply (ok_bind _ _ (λ _, at_ cr0 (entered done rs t'))); [apply ok_wrap, hoare_world; by intros []|].
        intros search. apply ok_set. intros st' (Hl & Hp & Hse). split; [done|]. split; [exact Hp|]. by apply search_step.
    - apply ok_ret. intros s (st' & -> & Hl & Hp & Hse). exists st'. split; [done|]. split; [done|]. split; [done|].
      intros Hen'. change (cr_SearchEnabled cr0 = false) in Hen. congruence. }
  intros _. apply ok_ret. intros s Hs. exact Hs.
Qed.

Lemma replsets_part_ok repls done t :
  hoare (at_ cr0 (loop_inv done t)) (replsets_part repls t : M Tally)
    (on_ok (λ t', at_ cr0 (loop_inv (done ++ repls) t'))).
Proof.
  revert done t. induction repls as [|rs repls IH]; intros done t; cbn [replsets_part].
  - rewrite app_nil_r. by apply ok_ret.
  - eapply ok_bind; [apply (replset_part_ok done)|]. intros t'. cbv beta.
    replace (done ++ rs :: repls) with ((done ++ [rs]) ++ repls) by (by rewrite <- app_assoc). apply IH.
Qed.

(** After mongos *)
Definition parts_inv (t : Tally) (st : ClusterStatus) : Prop :=
  let repls := shown_replsets cr0 in
  let all := ta_ready t = length repls in
  (all → ∀ rs, rs ∈ repls → seen_ready cr0 rs ∧ entry_ready st (rs_Name rs)) ∧
  search_shown repls st ∧
  if cr_ShardingEnabled cr0
  then ∃ m, st_Mongos st = Some m ∧
         (mgs_Status m = AppStateReady → mongos_seen_ready cr0 ∧ mgs_Ready m = mgs_Size m ∧
            (all → st_Ready st = st_Size st))
  else all → st_Ready st = st_Size st.

Lemma mongos_part_ok t :
  hoare (at_ cr0 (loop_inv (shown_replsets cr0) t)) (mongos_part t : M Tally)
    (on_ok (λ t', at_ cr0 (parts_inv t'))).
Proof.
  unfold mongos_part. apply ok_get. intros st Hst.
  change (cr_ShardingEnabled (with_status _ cr0)) with (cr_ShardingEnabled cr0).
  destruct (cr_ShardingEnabled cr0) eqn:Hsh; cbn [negb].
  2: { apply (ok_from cr0 (loop_inv (shown_replsets cr0) t)); [exact Hst|].
       eapply (ok_bind _ _ (λ _, at_ cr0 (parts_inv t))); [|by intros ?; apply ok_ret].
       apply ok_set. intros st' (_ & Hp & Hse). unfold parts_inv. rewrite Hsh.
       split; [intros Ha; apply (Hp Ha)|]. split; [exact Hse|]. intros Ha. apply (Hp Ha). }
  eapply ok_bind; [apply ok_wrap, ok_world, mongosStatus_ready|]. cbv beta. intros status.
  apply ok_pure. intros Hready. apply (ok_from cr0 (loop_inv (shown_replsets cr0) t)); [exact Hst|].
  eapply (ok_bind _ _ (λ _, at_ cr0 (loop_inv (shown_replsets cr0) t))).
  { destruct (negb _); [apply ok_add, loop_ignores|]. by apply ok_ret. }
  intros _. eapply (ok_bind _ _ (λ _, at_ cr0 (parts_inv t))).
  { apply ok_set. intros st' (_ & Hp & Hse). unfold parts_inv. rewrite Hsh.
    split; [intros Ha; apply (Hp Ha)|]. split; [exact Hse|]. exists (cap_mongos status). split; [done|].
    intros Hr. destruct (Hready Hr) as (Hseen & Hsz & Hrd). split; [done|].
    assert (mgs_Ready (cap_mongos status) = mgs_Size (cap_mongos status)) as Hc.
    { cbn. by rewrite Hrd, Z.ltb_irrefl. }
    split; [done|]. intros Ha. destruct (Hp Ha) as [_ Hcnt].
    cbn [add_counts set_Counts st_Ready st_Size set_Mongos]. by rewrite Hc, Hcnt. }
  intros _. eapply (ok_bind _ _ (λ _, at_ cr0 (parts_inv t))).
  { destruct (_ && _); [|by apply ok_ret]. apply ok_wrap, hoare_world. by intros []. }
  intros inProgress. apply ok_ret. intros s Hs. exact Hs.
Qed.
End parts_ready.

(** * The whole *)
Section whole.
Context {W : Type} {K : K8sClient W} {E : ClusterEnv W} {KB : BackupClient W} {PB : PBM W}.
Context {SC : StatusClient W} {Y : Yaml} {V : Versions} {G : GoSort} {R : GoRetryOn} {O : MapOrder}.
Abbreviation M := (GoM (SmartCluster * W)).

Definition search_ready (st : ClusterStatus) : Prop :=
  ∀ name s, st_Search st !! name = Some s → srs_Status s = AppStateReady.

Lemma overall_state_ready `{!MapOrderLaws O} (cr : SmartCluster) clusterState pbm n t :
  overall_state cr clusterState pbm n t = AppStateReady →
  clusterState = AppStateReady ∧ ta_ready t = n ∧ sc_Deleting cr = false ∧ pbm = AppStateReady ∧
  ta_inProgress t = false ∧ st_Host (bc_Status cr) ≠ "" ∧
  (cr_ShardingEnabled cr = true → mgs_Status <$> st_Mongos (bc_Status cr) = Some AppStateReady) ∧
  (cr_SearchEnabled cr = true → search_ready (bc_Status cr)).
Proof.
  unfold overall_state. cbv zeta. destruct (_ || sc_Deleting cr) eqn:Hstop; [done|].
  apply orb_false_iff in Hstop as [Hstop Hdel].
  destruct (ta_paused t =? n)%nat; [by case_match|]. destruct (_ && negb (bool_decide (st_Host _ = ""))) eqn:Hc; [|done].
  rewrite !andb_true_iff, !negb_true_iff, !bool_decide_eq_true, bool_decide_eq_false, Nat.eqb_eq in Hc.
  destruct Hc as ((((-> & ->) & ->) & Hprog) & Hhost). intros Hst.
  assert ((if cr_ShardingEnabled cr && negb (bool_decide (default "" (mgs_Status <$> st_Mongos (bc_Status cr)) = AppStateReady))
           then default "" (mgs_Status <$> st_Mongos (bc_Status cr)) else AppStateReady) = AppStateReady ∧
          (cr_SearchEnabled cr = true → search_ready (bc_Status cr))) as [Hm Hs].
  { destruct (cr_SearchEnabled cr); [|done].
    destruct (list_find _ _) as [[i [k s]]|] eqn:Hf.
    - apply list_find_Some in Hf as (_ & Hne & _). by destruct Hne.
    - split; [done|]. intros _ name s Hl. destruct (decide (srs_Status s = AppStateReady)) as [|Hne]; [done|].
      apply list_find_None in Hf. rewrite Forall_forall in Hf. destruct (Hf (name, s)); [|done].
      rewrite map_order_perm. by apply elem_of_map_to_list. }
  split_and!; try done. intros Hsh. rewrite Hsh in Hm. cbn [andb] in Hm.
  case_bool_decide as Hd; cbn [negb] in Hm; [|done].
  destruct (st_Mongos (bc_Status cr)) as [m|]; cbn in *; [by rewrite Hd|done].
Qed.

(** What a cluster that is shown ready satisfies *)
Definition truly_ready (cr0 : SmartCluster) (clusterState : string) (st : ClusterStatus) : Prop :=
  clusterState = AppStateReady ∧ sc_Deleting cr0 = false ∧ st_Host st ≠ "" ∧
  (∀ rs, rs ∈ shown_replsets cr0 → seen_ready cr0 rs ∧ entry_ready st (rs_Name rs)) ∧
  (cr_ShardingEnabled cr0 = true → mongos_seen_ready cr0) ∧
  (cr_SearchEnabled cr0 = true → ∀ rs, rs ∈ shown_replsets cr0 → is_configsvr rs = false →
     ∃ s, st_Search st !! rs_Name rs = Some s ∧ srs_Status s = AppStateReady) ∧
  st_Ready st = st_Size st.

Lemma truly_ignores cr0 x : ignores_conditions (truly_ready cr0 x).
Proof. intros cs st Hst. exact Hst. Qed.

Lemma parts_truly `{!MapOrderLaws O} cr0 st clusterState pbm t :
  parts_inv cr0 t st →
  overall_state (with_status (λ _, st) cr0) clusterState pbm (length (shown_replsets cr0)) t = AppStateReady →
  truly_ready cr0 clusterState st.
Proof.
  intros (Hall & Hsearch & Hm) Hst. apply overall_state_ready in Hst as (-> & Ht & Hdel & _ & _ & Hhost & Hsh & Hse).
  split_and!; try done.
  - by apply Hall.
  - intros Es. rewrite Es in Hm. destruct Hm as (m & Hmo & Hm). specialize (Hsh Es). cbn in Hsh. rewrite Hmo in Hsh.
    injection Hsh as Hr. by apply Hm.
  - intros Es rs Hrs Hc. destruct (Hsearch Es rs Hrs Hc) as [s Hs]. exists s. split; [done|]. by eapply (Hse Es).
  - destruct (cr_ShardingEnabled cr0) eqn:Es; [|by apply Hm].
    destruct Hm as (m & Hmo & Hm). specialize (Hsh Es). cbn in Hsh. rewrite Hmo in Hsh. injection Hsh as Hr. by apply Hm.
Qed.

Lemma state_part_ok `{!MapOrderLaws O} cr0 clusterState t :
  hoare (at_ cr0 (parts_inv cr0 t)) (state_part clusterState t : M string)
    (on_ok (λ state, at_ cr0 (λ st, state = AppStateReady → truly_ready cr0 clusterState st))).
Proof.
  unfold state_part. apply ok_get. intros st Hst. apply (ok_from cr0 (parts_inv cr0 t)); [exact Hst|].
  eapply (ok_bind _ _ (λ _, at_ cr0 (parts_inv cr0 t))).
  { apply hoare_catch, hoare_world. intros [h|e] w w' s Hs _; [exact Hs|]. by split. }
  intros host. eapply (ok_bind _ _ (λ _, at_ cr0 (parts_inv cr0 t))); [by apply ok_set|].
  intros _. eapply (ok_bind _ _ (λ _, at_ cr0 (parts_inv cr0 t))).
  { apply hoare_catch, hoare_world. intros [h|e] w w' s Hs _; [exact Hs|]. by split. }
  intros pbm. apply ok_get. intros st' Hst'. apply ok_ret. intros s ->. exists st'. split; [done|].
  intros Hr. eapply (parts_truly cr0); [exact Hst'|exact Hr].
Qed.

Lemma pending_ok cr0 I : ignores_conditions I → hoare (at_ cr0 I) (pending_update : M unit) (on_ok (λ _, at_ cr0 I)).
Proof.
  intros Hi. unfold pending_update. eapply (ok_bind _ _ (λ _, at_ cr0 I)).
  { apply ok_set. intros st Hst. by apply remove_ignored. }
  intros _. apply ok_get. intros st Hst. apply (ok_from cr0 I); [done|].
  eapply (ok_bind _ _ (λ _, at_ cr0 I)); [apply ok_wrap, hoare_world; by intros []|].
  intros awaiting. destruct (_ && _); [by apply ok_add|]. by apply ok_ret.
Qed.
Lemma image_ok cr0 I :
  ignores_conditions I → hoare (at_ cr0 I) (updateImageUpgradeCondition : M unit) (on_ok (λ _, at_ cr0 I)).
Proof.
  intros Hi. unfold updateImageUpgradeCondition. apply ok_get. intros st Hst. apply (ok_from cr0 I); [done|].
  eapply (ok_bind _ _ (λ _, at_ cr0 I)); [apply hoare_world; by intros []|]. intros containers.
  destruct (0 <? _)%nat; [by apply ok_add|]. destruct (_ && _); [by apply ok_add|].
  apply ok_set. intros st' Hst'. by apply remove_ignored.
Qed.

(** C14: when updateStatus ends without an error and the cluster is shown ready, it
    is ready: the reconciliation said so, the cluster is not being deleted, of
    every replica set the API listed as many pods with ready containers as it
    is to have, of mongos too when there is sharding, every search group is
    ready, there is a host to connect to, and the totals agree. *)
Theorem updateStatus_ready_truthful `{!MapOrderLaws O} (cr0 cr : SmartCluster) clusterState (w w' : W) :
  updateStatus None clusterState (cr0, w) = (Ok tt, (cr, w')) →
  bc_State cr = AppStateReady →
  truly_ready cr0 clusterState (bc_Status cr) ∧ st_ObservedGeneration (bc_Status cr) = cr_Generation cr0.
Proof.
  assert (∃ st, cr0 = with_status (λ _, st) cr0 ∧ True) as Hcr0.
  { exists (bc_Status cr0). by destruct cr0 as [[]]. }
  assert (hoare (at_ cr0 (λ _, True)) (updateStatus None clusterState : M unit)
    (on_ok (λ _, at_ cr0 (λ st, (st_State st = AppStateReady →
       truly_ready cr0 clusterState st) ∧ st_ObservedGeneration st = cr_Generation cr0)))) as H.
  2: { intros Hrun Hst. specialize (H cr0 w Hcr0). rewrite Hrun in H. cbn [fst snd on_ok] in H. destruct H as (st & -> & Hr & Hg).
       split; [by apply Hr|exact Hg]. }
  unfold updateStatus. eapply (ok_bind _ _ (λ _, at_ cr0 (λ _, True))); [apply hoare_world; by intros []|]. intros start.
  eapply (ok_bind _ _ (λ _, at_ cr0 (λ _, True))); [by apply ok_set|]. intros _. apply ok_get. intros st0 _.
  apply (ok_from cr0 (λ _, True)); [done|].
  eapply (ok_bind _ _ (λ _, at_ cr0 (loop_inv cr0 [] zeroTally))).
  { apply ok_set. intros st _. split; [cbn; lia|]. split; [|intros _ rs Hrs; set_solver].
    intros _. split; [set_solver|done]. }
  intros _. eapply ok_bind; [apply (replsets_part_ok cr0)|]. intros t. cbv beta.
  eapply ok_bind; [apply (mongos_part_ok cr0)|]. intros t'. cbv beta.
  eapply ok_bind; [apply state_part_ok|]. intros state. cbv beta.
  assert (∀ st, truly_ready cr0 (if bool_decide (clusterState = "") then AppStateInit else clusterState) st →
    truly_ready cr0 clusterState st) as Hcs by (intros st; case_bool_decide; [by intros [? _]|done]).
  pose (J := λ st, st_State st = AppStateReady → truly_ready cr0 clusterState st).
  assert (ignores_conditions J) as HJ by (intros cs st Hst; exact Hst).
  eapply (ok_bind _ _ (λ _, at_ cr0 J)).
  { apply ok_set. intros st Hst Hr. apply Hcs. by apply (Hst Hr). }
  intros _. eapply (ok_bind _ _ (λ _, at_ cr0 J)); [by apply ok_add|].
  intros _. eapply (ok_bind _ _ (λ _, at_ cr0 J)); [by apply pending_ok|].
  intros _. eapply (ok_bind _ _ (λ _, at_ cr0 J)); [by apply ok_wrap, image_ok|].
  intros _. eapply ok_bind; [by apply (ok_set cr0 J (λ st, J st ∧ st_ObservedGeneration st = cr_Generation cr0))|].
  intros ?. cbv beta. apply ok_get. intros st Hst. apply hoare_world. intros [u|e] w1 w2 s -> _; [|done].
  by exists st.
Qed.
End whole.

(** * Errors are shown *)
Section errors.
Context {W : Type} {K : K8sClient W} {E : ClusterEnv W} {KB : BackupClient W} {PB : PBM W}.
Context {SC : StatusClient W} {Y : Yaml} {V : Versions} {G : GoSort} {R : GoRetryOn} {O : MapOrder}.
Context (clock : ∀ w : W, ∃ t w', go_now w = (Ok t, w')).
Abbreviation M := (GoM (SmartCluster * W)).

(** The cluster is [cr0] but for the conditions in its status. *)
Definition but_conditions (cr0 cr : SmartCluster) : Prop := ∃ cs, cr = with_status (set_Conditions cs) cr0.
Lemma but_conditions_refl cr : but_conditions cr cr.
Proof. exists (st_Conditions (bc_Status cr)). by destruct cr as [[? ? []]]. Qed.
Lemma but_conditions_trans cr1 cr2 cr3 : but_conditions cr1 cr2 → but_conditions cr2 cr3 → but_conditions cr1 cr3.
Proof. intros [cs ->] [cs' ->]. by exists cs'. Qed.

Lemma only_conditions f (cr : SmartCluster) : (∃ cs, f (bc_Status cr) = set_Conditions cs (bc_Status cr)) → but_conditions cr (with_status f cr).
Proof. intros [cs Hf]. exists cs. unfold with_status, with_bc_Status. by rewrite Hf. Qed.
Lemma add_only c cr0 : hoare (λ s, s = cr0) (addCondition c : M unit) (λ r s, r = Ok tt ∧ but_conditions cr0 s).
Proof using clock.
  intros s w ->. unfold addCondition, on_world. gom. cbn. destruct (clock w) as (t & w' & ->). cbn. split; [done|].
  apply only_conditions. unfold AddCondition. case_match; by eexists.
Qed.
Lemma remove_only ty (cr0 : SmartCluster) : but_conditions cr0 (with_status (RemoveCondition ty) cr0).
Proof.
  apply only_conditions. unfold RemoveCondition. destruct (FindCondition _ _); [by eexists|].
  exists (st_Conditions (bc_Status cr0)). by destruct (bc_Status cr0).
Qed.
Lemma image_only cr0 :
  hoare (λ s, s = cr0) (updateImageUpgradeCondition : M unit) (λ _ s, but_conditions cr0 s).
Proof using clock.
  unfold updateImageUpgradeCondition. apply hoare_get. intros s0 ->.
  eapply hoare_bind with (R := λ _ s, s = cr0).
  - apply hoare_world. intros [l|e] w w' s -> _; [done|apply but_conditions_refl].
  - intros l. destruct (0 <? _)%nat; [|destruct (_ && _)].
    1,2: eapply hoare_conseq; [apply add_only|intros s Hs; exact Hs|by intros r s []].
    apply hoare_mod. intros s ->. apply remove_only.
Qed.
(** The condition of an error, when it is a new one *)
Definition error_condition (cr : SmartCluster) (e : error) : M unit :=
  if negb (bool_decide (bc_State cr = AppStateError)) then
    addCondition (λ now, {| cc_Type := AppStateError; cc_Status := ConditionTrue; cc_Reason := "ErrorReconcile";
                            cc_Message := err_string e; cc_LastTransitionTime := Some now |})
  else mret tt.
Lemma error_condition_run cr e w :
  ∃ cs w', error_condition cr e (cr, w) = (Ok tt, (with_status (set_Conditions cs) cr, w')).
Proof using clock.
  assert (hoare (λ s, s = cr) (error_condition cr e) (λ r s, r = Ok tt ∧ but_conditions cr s)) as H.
  { unfold error_condition. destruct (negb _); [apply add_only|]. apply hoare_ret.
    intros s ->. split; [done|]. apply but_conditions_refl. }
  specialize (H cr w eq_refl). destruct (error_condition cr e (cr, w)) as [r [s w']].
  cbn in H. destruct H as [-> [cs ->]]. by exists cs, w'.
Qed.

(** C26: after an error of the reconciliation the cluster in memory has the state
    error and the message of that error, and differs from the one before in
    nothing else but the conditions of its status; and writing this status is
    the last thing done, whatever looking at the images came to, unless that
    panics. *)
Theorem updateStatus_error e clusterState (cr0 cr : SmartCluster) (w w' : W) r :
  updateStatus (Some e) clusterState (cr0, w) = (r, (cr, w')) →
  but_conditions (with_status (λ st, set_StatusState AppStateError
                    (set_StatusMessage ("Error: " +:+ err_string e) st)) cr0) cr ∧
  ((∃ w1, writeStatus cr w1 = (r, w')) ∨ ∃ p, r = Err p ∧ is_panic p = true).
Proof using clock.
  intros Hrun. unfold updateStatus in Hrun.
  destruct (clock w) as (t & w0 & Ht). rewrite (bind_ok _ _ (cr0, w) t (cr0, w0)) in Hrun
    by (unfold on_world; cbn; by rewrite Ht).
  unfold errorStatus in Hrun. rewrite (bind_ok _ _ (cr0, w0) cr0 (cr0, w0)) in Hrun by done.
  destruct (error_condition_run cr0 e w0) as (cs & w1 & Hc).
  unfold error_condition in Hc. rewrite (bind_ok _ _ _ _ _ Hc) in Hrun.
  match type of Hrun with (setStatus ?f ≫= ?k) ?s = _ =>
    change (k tt (with_status f s.1, s.2) = (r, (cr, w'))) in Hrun end.
  cbn [fst snd] in Hrun. set (s1 := with_status _ (with_status _ cr0)) in Hrun.
  assert (but_conditions (with_status (λ st, set_StatusState AppStateError
            (set_StatusMessage ("Error: " +:+ err_string e) st)) cr0) s1) as Hs1 by by exists cs.
  pose proof (image_only s1 s1 w1 eq_refl) as Hi. unfold catchM, mbind, gom_bind in Hrun.
  destruct (updateImageUpgradeCondition (s1, w1)) as [[u|p] [cr2 w2]] eqn:Eu; cbn in Hi, Hrun.
  2: destruct (is_panic p) eqn:Ep.
  2: { injection Hrun as <- <- <-. split; [exact (but_conditions_trans _ _ _ Hs1 Hi)|]. right. by exists p. }
  all: unfold on_world in Hrun; cbn in Hrun; destruct (writeStatus cr2 w2) as [r3 w3] eqn:Ew; injection Hrun as <- <- <-;
    (split; [exact (but_conditions_trans _ _ _ Hs1 Hi)|left; by exists w2]).
Qed.
End errors.

(** * Writing *)
Inductive event :=
| ClusterRead (r : result SmartCluster)
| StatusWritten (cr : SmartCluster) (r : result unit).
Definition traced_status {W} (SC : StatusClient W) : StatusClient (list event * W) := {|
  scr_get := λ ns n, recorded (λ r, [ClusterRead r]) (scr_get ns n);
  scr_update_status := λ cr, recorded (λ r, [StatusWritten cr r]) (scr_update_status cr);
  selector_error := selector_error;
  ssel_list_pods := λ ns l, quietly (ssel_list_pods ns l);
  pbm_AgentStatuses := λ hosts, quietly (pbm_AgentStatuses hosts)
|}.

(** One round of [writeStatus]: the cluster is read, and unless it is another
    one its status, and nothing else, is replaced. *)
Inductive round (cr : SmartCluster) : list event → result unit → Prop :=
| round_unread e : round cr [ClusterRead (Err e)] (Err e)
| round_other (c : SmartCluster) : cr_UID c ≠ cr_UID cr → round cr [ClusterRead (Ok c)] (Ok tt)
| round_written (c : SmartCluster) r : cr_UID c = cr_UID cr →
    round cr [ClusterRead (Ok c); StatusWritten (with_status (λ _, bc_Status cr) c) r] r.
(** Rounds that end in a conflict, and a last one *)
Inductive rounds (cr : SmartCluster) : list event → result unit → Prop :=
| rounds_last d r : round cr d r → rounds cr d r
| rounds_conflict d e d' r : round cr d (Err e) → is_kind KConflict e = true → rounds cr d' r → rounds cr (d ++ d') r.

Section writing.
Context {W : Type} {SC : StatusClient W} {R : GoRetryOn} {RL : GoRetryOnLaws R}.
#[local] Existing Instance traced_status.
Abbreviation T := (list event * W)%type.
Implicit Types cr : SmartCluster.

Lemma write_once_round cr : emits (write_once cr : GoM T unit) (λ r d, round cr d r).
Proof using.
  unfold write_once. eapply emits_bind; [apply (emits_recorded (λ r, [ClusterRead r]))| |].
  - intros c d ->. cbv beta. case_bool_decide as Hu; cbn [negb].
    + eapply emits_conseq; [apply (emits_recorded (λ r, [StatusWritten _ r]))|]. intros r d ->. by apply round_written.
    + apply emits_ret. by apply round_other.
  - intros e d ->. apply round_unread.
Qed.

(** C15: the status is only ever written to the very cluster that was reconciled
    (the same UID, not only the same name), onto the object as it was just
    read and leaving everything but the status alone; a conflict starts another
    round, and nothing else does; no error is returned exactly when the last
    round wrote the status, met another cluster, or found none. *)
Theorem writeStatus_rounds cr :
  emits (writeStatus cr : GoM T unit) (λ r d, ∃ last, rounds cr d last ∧
    r = match last with
        | Ok _ => Ok tt
        | Err e => if IsNotFound e then Ok tt else Err (EWrap e "write status")
        end).
Proof using RL.
  intros t w. unfold writeStatus, mbind, gom_bind, tryM.
  pose proof (retry_on_attempts _ writeStatusSteps (is_kind KConflict) (write_once cr : GoM T unit) (t, w)) as Ha.
  destruct (retry_on _ _ _ (t, w)) as [r [t' w']]. cbn [fst snd] in Ha.
  assert (∃ d, t' = t ++ d ∧ rounds cr d r) as (d & -> & Hd).
  { remember (t, w) as tw eqn:Etw. remember (t', w') as tw' eqn:Etw'. revert t w Etw t' w' Etw'.
    induction Ha as [tw r tw' Hf|tw e tw1 r tw2 Hf Hc _ IH]; intros t w -> t' w' ->.
    - destruct (write_once_round cr t w) as (d & Hd & Hr). rewrite Hf in Hd, Hr. exists d. split; [done|].
      by apply rounds_last.
    - destruct (write_once_round cr t w) as (d & Hd & Hr). rewrite Hf in Hd, Hr. destruct tw1 as [t1 w1].
      cbn in Hd. subst t1. destruct (IH _ _ eq_refl _ _ eq_refl) as (d' & -> & Hd'). exists (d ++ d').
      rewrite app_assoc. split; [done|]. by eapply rounds_conflict. }
  exists d. destruct r as [u|e]; cbn; [split; [done|]; by exists (Ok u)|].
  destruct (IsNotFound e) eqn:En; (split; [done|]); exists (Err e); by rewrite En.
Qed.
End writing.

(** * Images *)
Lemma sorted_keys_perm `{GoSortLaws} (s : gset string) : sorted_keys s ≡ₚ elements s.
Proof. apply sort_perm. Qed.

(** The containers that are out of date: those that run another image than the
    stateful set asks for, and those that it asks for and the pod does not
    have; each once, in the order of the names. *)
Theorem outdatedContainerNames_spec `{GoSortLaws} (pod : Pod) (desired : gmap string string) :
  let containers := pod_InitContainers pod ++ pod_Containers pod in
  (∀ n, n ∈ outdatedContainerNames pod desired ↔
     ∃ want, desired !! n = Some want ∧
       ((∃ c, c ∈ containers ∧ ctr_Name c = n ∧ ctr_Image c ≠ "" ∧ ctr_Image c ≠ want) ∨
        ∀ c, c ∈ containers → ctr_Name c ≠ n)) ∧
  NoDup (outdatedContainerNames pod desired) ∧
  go_sorted String.ltb (outdatedContainerNames pod desired).
Proof.
  intros containers. unfold outdatedContainerNames.
  assert (∀ l n, n ∈ outdated_in desired l ↔
    ∃ c want, c ∈ l ∧ ctr_Name c = n ∧ desired !! n = Some want ∧ ctr_Image c ≠ "" ∧ ctr_Image c ≠ want) as Hin.
  { intros l n. unfold outdated_in. rewrite elem_of_list_to_set, list_elem_of_fmap. split.
    - intros (c & -> & [Ho Hc]%list_elem_of_filter). unfold outdated in Ho. case_bool_decide; [done|].
      destruct (desired !! ctr_Name c) as [want|] eqn:Hd; [|done]. exists c, want. case_bool_decide; [done|]. done.
    - intros (c & want & Hc & <- & Hd & Hne & Hw). exists c. split; [done|]. apply list_elem_of_filter. split; [|done].
      unfold outdated. by rewrite bool_decide_eq_false_2, Hd, bool_decide_eq_false_2. }
  split_and!.
  - intros n. rewrite sorted_keys_perm, elem_of_elements. unfold outdated_set.
    rewrite !elem_of_union, !Hin, elem_of_difference, elem_of_dom, elem_of_list_to_set, list_elem_of_fmap. split.
    + intros [[(c & want & ? & ? & ? & ? & ?)|(c & want & ? & ? & ? & ? & ?)]|[[want Hw] Hn]].
      1,2: exists want; split; [done|]; left; exists c; subst containers; set_solver.
      exists want. split; [done|]. right. intros c Hc Hcn. apply Hn. by exists c.
    + intros (want & Hw & [(c & [Hc|Hc]%elem_of_app & Hn & Hi & Hne)|Hno]).
      { left; left. by exists c, want. }
      { left; right. by exists c, want. }
      right. split; [by exists want|]. intros (c & Hcn & Hc). by apply (Hno c Hc).
  - eapply NoDup_Permutation_proper; [apply sorted_keys_perm|]. apply NoDup_elements.
  - apply sort_sorted. apply (by_name_strict (λ s : string, s)).
Qed.

(** * Conditions *)
Definition condition_types (st : ClusterStatus) : list string := cc_Type <$> st_Conditions st.

Lemma FindCondition_Some cs ty i :
  FindCondition cs ty = Some i ↔ ∃ c, cs !! i = Some c ∧ cc_Type c = ty ∧ ∀ j d, j < i → cs !! j = Some d → cc_Type d ≠ ty.
Proof.
  revert i. induction cs as [|c cs IH]; intros i; cbn [FindCondition]; [split; [done|by intros (? & ? & _)]|].
  case_bool_decide as Hc.
  - split.
    + intros [= <-]. exists c. split; [done|]. split; [done|]. intros j d Hj. lia.
    + intros (d & Hd & Hty & Hlt). destruct i as [|i]; [done|]. by destruct (Hlt 0 c ltac:(lia) eq_refl).
  - destruct (FindCondition cs ty) as [k|] eqn:Ek; cbn.
    + split.
      * intros [= <-]. destruct (proj1 (IH k) eq_refl) as (d & Hd & Hty & Hlt). exists d. split; [done|]. split; [done|].
        intros [|j] d' Hj; [by intros [= <-]|]. apply Hlt. lia.
      * intros (d & Hd & Hty & Hlt). destruct i as [|i]; [cbn in Hd; congruence|]. f_equal. f_equal.
        cut (Some k = Some i); [by intros [=]|]. apply IH. exists d. split; [done|]. split; [done|].
        intros j d' Hj Hd'. apply (Hlt (S j) d'); [lia|done].
    + split; [done|]. intros (d & Hd & Hty & Hlt). destruct i as [|i]; [cbn in Hd; congruence|].
      cut (None = Some i); [done|]. apply IH. exists d. split; [done|]. split; [done|].
      intros j d' Hj Hd'. apply (Hlt (S j) d'); [lia|done].
Qed.
Lemma FindCondition_None cs ty : FindCondition cs ty = None ↔ ty ∉ cc_Type <$> cs.
Proof.
  induction cs as [|c cs IH]; cbn [FindCondition fmap list_fmap]; [set_solver|]. rewrite not_elem_of_cons.
  case_bool_decide as Hc; [split; [done|by intros [? _]]|]. fold (fmap cc_Type cs). rewrite <- IH.
  destruct (FindCondition cs ty); cbn; naive_solver.
Qed.

Lemma add_types now c st :
  condition_types (AddCondition now c st) =
    condition_types st ++ (if decide (cc_Type c ∈ condition_types st) then [] else [cc_Type c]).
Proof.
  unfold AddCondition, condition_types. destruct (FindCondition _ _) as [i|] eqn:Hf; cbn.
  - rewrite decide_True.
    + rewrite app_nil_r. apply list_eq. intros j. rewrite !list_lookup_fmap.
      destruct (decide (i = j)) as [->|Hne]; [rewrite list_lookup_alter_eq|by rewrite list_lookup_alter_ne].
      by destruct (_ !! j).
    + apply FindCondition_Some in Hf as (d & Hd & <- & _). apply list_elem_of_fmap. exists d. split; [done|].
      by eapply list_elem_of_lookup_2.
  - rewrite decide_False; [by rewrite fmap_app|by apply FindCondition_None].
Qed.
Lemma add_nodup now c st : NoDup (condition_types st) → NoDup (condition_types (AddCondition now c st)).
Proof.
  intros Hn. rewrite add_types. case_decide; [by rewrite app_nil_r|]. apply NoDup_app. split; [done|].
  split; [set_solver|apply NoDup_singleton].
Qed.
Lemma remove_types ty st :
  NoDup (condition_types st) →
  (ty ∉ condition_types (RemoveCondition ty st)) ∧ NoDup (condition_types (RemoveCondition ty st)).
Proof.
  intros Hn. unfold RemoveCondition, condition_types in *. destruct (FindCondition _ _) as [i|] eqn:Hf; cbn.
  - apply FindCondition_Some in Hf as (d & Hd & Hty & _).
    rewrite <- (take_drop_middle _ _ _ Hd) in Hn. rewrite fmap_app, fmap_cons, Hty in Hn.
    rewrite delete_take_drop, fmap_app. apply NoDup_app in Hn as (H1 & H2 & [H3 H4]%NoDup_cons).
    split; [|apply NoDup_app; set_solver]. rewrite not_elem_of_app. split; [|done].
    intros Hin. apply (H2 _ Hin). set_solver.
  - split; [by apply FindCondition_None|done].
Qed.
Lemma absent_not_true ty st : ty ∉ condition_types st → IsStatusConditionTrue st ty = false.
Proof. intros Hn. unfold IsStatusConditionTrue. apply FindCondition_None in Hn. by rewrite Hn. Qed.
Lemma added_true now c st : cc_Status c = ConditionTrue → IsStatusConditionTrue (AddCondition now c st) (cc_Type c) = true.
Proof.
  intros Hc. unfold AddCondition. destruct (FindCondition (st_Conditions st) (cc_Type c)) as [i|] eqn:Hf;
    unfold IsStatusConditionTrue; cbn [st_Conditions set_Conditions].
  - apply FindCondition_Some in Hf as (d & Hd & Hty & Hlt).
    match goal with |- context [alter ?f i ?l] => assert (FindCondition (alter f i l) (cc_Type c) = Some i) as -> end.
    { apply FindCondition_Some. eexists. rewrite list_lookup_alter_eq, Hd. split; [done|]. split; [done|].
      intros j d' Hj. rewrite list_lookup_alter_ne by lia. by apply Hlt. }
    rewrite list_lookup_alter_eq, Hd. cbn. by rewrite Hc.
  - match goal with |- context [st_Conditions st ++ [?x]] =>
      assert (FindCondition (st_Conditions st ++ [x]) (cc_Type c) = Some (length (st_Conditions st))) as -> end.
    { apply FindCondition_Some. eexists. rewrite lookup_app_r, Nat.sub_diag by lia. split; [done|]. split; [done|].
      intros j d Hj. rewrite lookup_app_l by done. intros Hd Hty.
      apply FindCondition_None in Hf. apply Hf. rewrite <- Hty. apply list_elem_of_fmap. exists d. split; [done|].
      by eapply list_elem_of_lookup_2. }
    rewrite lookup_app_r, Nat.sub_diag by lia. cbn. by rewrite Hc.
Qed.

Section conditions.
Context {W : Type} {K : K8sClient W} {E : ClusterEnv W} {KB : BackupClient W} {PB : PBM W}.
Context {SC : StatusClient W} {Y : Yaml} {V : Versions} {G : GoSort} {R : GoRetryOn} {O : MapOrder}.
Abbreviation M := (GoM (SmartCluster * W)).
Abbreviation distinct := (λ s : SmartCluster, NoDup (condition_types (bc_Status s))).
Abbreviation keeps m := (hoare distinct m (λ _, distinct)).

Lemma set_keeps f : (∀ st, st_Conditions (f st) = st_Conditions st) → keeps (setStatus f : M unit).
Proof. intros Hf. apply hoare_mod. intros s Hs. unfold condition_types. cbn. by rewrite Hf. Qed.
Lemma world_keeps {A} (m : GoM W A) : keeps (on_world m : M A).
Proof. apply hoare_world. by intros. Qed.
Lemma ret_keeps {A} (a : A) : keeps (mret a : M A).
Proof. by apply hoare_ret. Qed.
Lemma wrap_keeps {A} msg (m : M A) : keeps m → keeps (wrapM msg m).
Proof. intros Hm. by apply hoare_wrap. Qed.
Lemma catch_distinct {A} (m : M A) : keeps m → keeps (catchM m).
Proof. intros Hm. apply hoare_catch. eapply hoare_conseq; [exact Hm|done|]. intros [] s Hs; [done|by split]. Qed.
Lemma get_keeps {B} (f : SmartCluster → M B) : (∀ cr, keeps (f cr)) → keeps (get_mem ≫= f).
Proof. intros Hf. apply hoare_step; [|done]. by intros s w Hs. Qed.
Lemma add_keeps c : keeps (addCondition c : M unit).
Proof.
  unfold addCondition. apply hoare_step; [apply world_keeps|]. intros now. apply hoare_mod. intros s Hs. by apply add_nodup.
Qed.
Lemma remove_keeps ty : keeps (setStatus (RemoveCondition ty) : M unit).
Proof. apply hoare_mod. intros s Hs. by apply remove_types. Qed.
Create HintDb keeps.
#[local] Hint Extern 1 (∀ _, st_Conditions _ = _) => (intros; reflexivity) : keeps.
#[local] Hint Resolve set_keeps world_keeps ret_keeps wrap_keeps catch_distinct get_keeps add_keeps remove_keeps : keeps.
Ltac step := first [solve [eauto with keeps]|apply get_keeps; intros ?
                   |apply hoare_step; [solve [eauto with keeps]|intros ?]|case_match].

Lemma image_keeps : keeps (updateImageUpgradeCondition : M unit).
Proof. unfold updateImageUpgradeCondition. repeat step. Qed.
Lemma replset_part_keeps rs t : keeps (replset_part rs t : M Tally).
Proof.
  unfold replset_part. do 2 step.
  apply hoare_step; [by repeat step|]. intros _. repeat first [step|apply hoare_step; [by repeat step|intros ?]].
Qed.
Lemma replsets_part_keeps repls t : keeps (replsets_part repls t : M Tally).
Proof.
  revert t. induction repls as [|rs repls IH]; intros t; cbn [replsets_part]; [step|].
  apply hoare_step; [apply replset_part_keeps|done].
Qed.
Lemma mongos_part_keeps t : keeps (mongos_part t : M Tally).
Proof.
  unfold mongos_part. repeat first [step|apply hoare_step; [by repeat step|intros ?]].
Qed.
Lemma errorStatus_keeps e : keeps (errorStatus e : M unit).
Proof.
  unfold errorStatus. step. apply hoare_step; [by repeat step|]. intros _. step.
  apply hoare_step; [apply catch_distinct, image_keeps|]. intros ?. repeat step.
Qed.

(** The conditions of a cluster have distinct types before and after
    updateStatus, whatever the outcome. *)
Theorem updateStatus_conditions_distinct reconcileErr clusterState :
  keeps (updateStatus reconcileErr clusterState : M unit).
Proof.
  unfold updateStatus. step. destruct reconcileErr as [e|]; [apply errorStatus_keeps|].
  do 3 step. apply hoare_step; [apply replsets_part_keeps|]. intros ?.
  apply hoare_step; [apply mongos_part_keeps|]. intros ?.
  apply hoare_step; [unfold state_part; repeat step|]. intros ?. do 2 step.
  apply hoare_step; [unfold pending_update; repeat step|]. intros _.
  apply hoare_step; [apply wrap_keeps, image_keeps|]. intros _. repeat step.
Qed.
End conditions.

(** * The condition of an image upgrade *)
Section sticky.
Context {W : Type} {K : K8sClient W} {E : ClusterEnv W} {KB : BackupClient W} {PB : PBM W}.
Context {SC : StatusClient W} {Y : Yaml} {V : Versions} {G : GoSort} {R : GoRetryOn} {O : MapOrder}.
Abbreviation upgrading st := (IsStatusConditionTrue st ConditionTypeImageUpgradeInProgress).

(** The cluster says that an image upgrade is in progress exactly when some
    container is out of date, or it said so before and is not ready yet: once
    shown, the condition goes only when the cluster is ready and its containers
    are up to date. *)
Theorem image_condition_sticky (cr0 cr : SmartCluster) (w w' : W) :
  NoDup (condition_types (bc_Status cr0)) →
  updateImageUpgradeCondition (cr0, w) = (Ok tt, (cr, w')) →
  ∃ containers w1, imageUpgradeInProgress cr0 w = (Ok containers, w1) ∧
    (upgrading (bc_Status cr) = true ↔
       containers ≠ [] ∨ (upgrading (bc_Status cr0) = true ∧ bc_State cr0 ≠ AppStateReady)).
Proof.
  intros Hn Hrun. unfold updateImageUpgradeCondition in Hrun.
  rewrite (bind_ok _ _ (cr0, w) cr0 (cr0, w)) in Hrun by done. unfold mbind, gom_bind, on_world in Hrun. cbn [fst snd] in Hrun.
  destruct (imageUpgradeInProgress cr0 w) as [[containers|e] w1]; [|done]. exists containers, w1. split; [done|].
  destruct (0 <? length containers)%nat eqn:Hl; [|destruct (_ && _) eqn:Hw].
  3: { unfold setStatus, mod_mem in Hrun. injection Hrun as <- <-. cbn [bc_Status sc_bc with_status].
       rewrite absent_not_true by by apply remove_types. split; [done|]. intros [Hc|[Hu Hs]].
       - by destruct containers.
       - rewrite Hu, bool_decide_eq_false_2 in Hw by done. done. }
  all: unfold addCondition, on_world, setStatus, mod_mem in Hrun; gom; cbn in Hrun;
    destruct (go_now w1) as [[now|e] w2]; [|done]; injection Hrun as <- <-.
  - split; [|intros _; by apply (added_true now (plain_condition ConditionTypeImageUpgradeInProgress _ _ _))].
    intros _. left. by destruct containers.
  - apply andb_prop in Hw as [Hu Hs]. apply negb_true_iff, bool_decide_eq_false in Hs.
    split; [by right|]. intros _. by apply (added_true now (plain_condition ConditionTypeImageUpgradeInProgress _ _ _)).
Qed.
End sticky.

(** Conditions are only ever added with the status True and never set to False,
    so a condition that comes back keeps the time it had the first time. *)
Lemma stale_transition_time now c st old i :
  FindCondition (st_Conditions st) (cc_Type c) = Some i → st_Conditions st !! i = Some old →
  cc_Status old = cc_Status c →
  ∃ new, st_Conditions (AddCondition now c st) !! i = Some new ∧ cc_LastTransitionTime new = cc_LastTransitionTime old.
Proof.
  intros Hf Ho Hs. unfold AddCondition. rewrite Hf. cbn. rewrite list_lookup_alter_eq, Ho. eexists. split; [done|].
  cbn. by rewrite bool_decide_eq_true_2.
Qed.

(** * A replica set of three ready pods *)
Section demo.
Definition ready_pod (name : string) : Pod :=
  let p := a_pod name "mongod" in
  {| pod_Name := name; pod_Namespace := "ns"; pod_Labels := pod_Labels p; pod_Annotations := ∅;
     pod_Deleting := false; pod_NodeName := "node"; pod_InitContainers := [];
     pod_Containers := pod_Containers p; pod_Phase := PodRunning; pod_HostIP := "";
     pod_ContainerStatuses := pod_ContainerStatuses p;
     pod_Conditions := [{| pc_Type := ContainersReady; pc_Status := "True"; pc_Reason := ""; pc_Message := "";
                           pc_LastTransitionTime := 0 |}] |}.
Definition three_pods : list Pod := [ready_pod "c-rs0-0"; ready_pod "c-rs0-1"; ready_pod "c-rs0-2"].
(** The stateful set asks for the image that the pods run, or for another. *)
Definition sts_of_image (image name : string) : StatefulSet :=
  {| sts_Name := name; sts_Labels := ∅; sts_Annotations := ∅; sts_Generation := 1;
     sts_Controller := None; sts_Deleting := false; sts_SpecReplicas := Some 3%Z;
     sts_Selector := Some {| MatchLabels := {[ "a" := "b" ]}; MatchExpressions := [] |};
     sts_TemplateLabels := ∅; sts_TemplateAnnotations := ∅; sts_TemplateInitContainers := [];
     sts_TemplateContainers := [{| ctr_Name := "mongod"; ctr_Image := image; ctr_Ports := []; ctr_Resources := noResources |}];
     sts_UpdateRevision := ""; sts_ObservedGeneration := 1; sts_Replicas := 3; sts_ReadyReplicas := 3;
     sts_UpdatedReplicas := 3 |}.
Definition ready_k8s (found : bool) (image : string) : K8sClient unit :=
  let base := emptyK8s unit in
  {| k8s_get_service := k8s_get_service (K8sClient := base);
     k8s_get_node_labels := k8s_get_node_labels (K8sClient := base);
     k8s_get_service_import := k8s_get_service_import (K8sClient := base);
     k8s_list_service_exports := k8s_list_service_exports (K8sClient := base);
     k8s_get_sts := λ _ n, if found then mret (sts_of_image image n) else notFound;
     k8s_get_secret := k8s_get_secret (K8sClient := base);
     k8s_list_sts := λ _ _, mret [sts_of_image image "c-rs0"]; k8s_list_pods := λ _ _, mret three_pods;
     go_sleep := go_sleep (K8sClient := base); go_tick := go_tick (K8sClient := base) |}.
Definition demo_cluster (before : string) : SmartCluster := {|
  sc_bc := {| bc_cr := a_cluster [a_replset "rs0" 3];
              bc_Backup := bc_Backup a_backup_cluster;
              bc_Status :=
                {| st_State := before; st_MongoVersion := ""; st_MongoImage := ""; st_Message := "";
                   st_Conditions := []; st_Replsets := {[ "rs0" := rs_of_state before ]}; st_Mongos := None;
                   st_ObservedGeneration := 0; st_BackupVersion := "2.12.0"; st_BackupImage := "pbm";
                   st_BackupConfigHash := "hash"; st_Host := ""; st_Size := 0; st_Ready := 0;
                   st_PVCShrink := ∅; st_Search := ∅ |};
              bc_Pause := false; bc_SecretsSSE := ""; bc_UnsafeConf := false;
              bc_BackupIfUnhealthy := false |};
  sc_UpdateStrategy := SmartUpdateStatefulSetStrategyType; sc_VPA := None; sc_MongosDelay := 1;
  sc_BalancerEnabled := None; sc_TLS := None; sc_Deleting := false |}.
Local Existing Instances emptyYaml insertion_GoSort steps_retry list_order list_order_laws.
Local Instance demo_env : ClusterEnv unit := {|
  ce_exec := λ _ _ _ _, mret ("", "", None); ce_now := mret 0%Z; ce_list_restores := λ _, mret [] |}.
Local Instance demo_backups : BackupClient unit := emptyBackups unit.
Local Instance demo_pbm : PBM unit := emptyPBM unit.
Local Instance demo_versions : Versions := λ _ _, 1%Z.
Local Instance demo_status_client : StatusClient unit := {|
  scr_get := λ _ _, mret (demo_cluster ""); scr_update_status := λ _, mret tt;
  selector_error := λ _, None; ssel_list_pods := λ _ _, mret three_pods; pbm_AgentStatuses := λ _, mret [] |}.

Definition status_run (found : bool) (image : string) (err : option error) (before clusterState : string)
    : result unit * (SmartCluster * unit) :=
  updateStatus (K := ready_k8s found image) err clusterState (demo_cluster before, tt).

Lemma updateStatus_ready_truthful_witness :
  let cr := (status_run true "mongod" None AppStateInit AppStateReady).2.1 in
  bc_State cr = AppStateReady ∧
  truly_ready (K := ready_k8s true "mongod") (demo_cluster AppStateInit) AppStateReady (bc_Status cr).
Proof.
  intros cr.
  assert (status_run true "mongod" None AppStateInit AppStateReady = (Ok tt, (cr, tt))) as Hr
    by (vm_compute; reflexivity).
  assert (bc_State cr = AppStateReady) as Hs by (vm_compute; reflexivity).
  split; [exact Hs|]. clearbody cr. unfold status_run in Hr.
  exact (proj1 (updateStatus_ready_truthful (K := ready_k8s true "mongod") _ _ _ tt tt Hr Hs)).
Defined.

Lemma updateStatus_error_witness :
  let e := ENew "boom" in
  let cr := (status_run true "mongod" (Some e) AppStateReady AppStateReady).2.1 in
  st_Message (bc_Status cr) = "Error: boom" ∧
  but_conditions (with_status (λ st, set_StatusState AppStateError
                    (set_StatusMessage ("Error: " +:+ err_string e) st)) (demo_cluster AppStateReady)) cr.
Proof.
  intros e cr.
  assert (status_run true "mongod" (Some e) AppStateReady AppStateReady = (Ok tt, (cr, tt))) as Hr
    by (vm_compute; reflexivity).
  split; [vm_compute; reflexivity|]. clearbody cr. unfold status_run in Hr.
  assert (∀ w : unit, ∃ t w', go_now w = (Ok t, w')) as Hclock by (intros w; eexists _, w; reflexivity).
  exact (proj1 (updateStatus_error (K := ready_k8s true "mongod") Hclock _ _ _ _ _ _ _ Hr)).
Defined.

Lemma image_condition_sticky_witness :
  let cr := (updateImageUpgradeCondition (K := ready_k8s true "mongod:8") (demo_cluster AppStateReady, tt)).2.1 in
  ∃ containers w1,
    imageUpgradeInProgress (K := ready_k8s true "mongod:8") (demo_cluster AppStateReady) tt = (Ok containers, w1) ∧
    (IsStatusConditionTrue (bc_Status cr) ConditionTypeImageUpgradeInProgress = true ↔
       containers ≠ [] ∨
       (IsStatusConditionTrue (bc_Status (demo_cluster AppStateReady)) ConditionTypeImageUpgradeInProgress = true ∧
        bc_State (demo_cluster AppStateReady) ≠ AppStateReady)).
Proof.
  intros cr.
  assert (NoDup (condition_types (bc_Status (demo_cluster AppStateReady)))) as Hn by (vm_compute; constructor).
  assert (updateImageUpgradeCondition (K := ready_k8s true "mongod:8") (demo_cluster AppStateReady, tt) =
    (Ok tt, (cr, tt))) as Hr by (vm_compute; reflexivity).
  clearbody cr. exact (image_condition_sticky (K := ready_k8s true "mongod:8") _ cr tt tt Hn Hr).
Defined.

(** A server that answers every write with a conflict: six rounds *)
Lemma writeStatus_rounds_witness :
  let other := {| sc_bc := {| bc_cr := a_cluster []; bc_Backup := bc_Backup a_backup_cluster;
                    bc_Status := emptyStatus; bc_Pause := false; bc_SecretsSSE := "";
                    bc_UnsafeConf := false; bc_BackupIfUnhealthy := false |};
                  sc_UpdateStrategy := ""; sc_VPA := None; sc_MongosDelay := 1;
                  sc_BalancerEnabled := None; sc_TLS := None; sc_Deleting := false |} in
  let client := {| scr_get := λ _ _, mret other; scr_update_status := λ _, throw (EExt KConflict "");
                   selector_error := λ _, None; ssel_list_pods := λ _ _, mret [];
                   pbm_AgentStatuses := λ _, mret [] |} : StatusClient unit in
  let run := writeStatus (SC := traced_status client) (demo_cluster "") ([], tt) in
  is_ok run.1 = false ∧ length run.2.1 = 12 ∧
  ∃ last, rounds (demo_cluster "") run.2.1 last ∧
    run.1 = match last with
            | Ok _ => Ok tt
            | Err e => if IsNotFound e then Ok tt else Err (EWrap e "write status")
            end.
Proof.
  intros other client run. split; [vm_compute; reflexivity|]. split; [vm_compute; reflexivity|].
  destruct (writeStatus_rounds (SC := client) (RL := steps_retry_laws) (demo_cluster "") [] tt) as (d & Hd & Hr).
  rewrite app_nil_l in Hd. unfold run. rewrite Hd. exact Hr.
Defined.

(** The stateful set of a replica set that was ready is gone: the status of the
    replica set becomes empty, and a condition with an empty type appears. *)
Example missing_stateful_set :
  let st := bc_Status (status_run false "mongod" None AppStateReady AppStateReady).2.1 in
  rst_Status <$> st_Replsets st !! "rs0" = Some "" ∧
  cc_Type <$> st_Conditions st = [""; AppStateInit].
Proof. vm_compute. done. Qed.
End demo.
