(* ===== verification/Controller.v ===== *)
(** The cluster as the controller's own handlers change it in memory, the calls
    they make, and the helpers they share: getters.go and DeleteIfExists
    (pkg/k8s/utils.go). *)
From S2P Require Import Prelude ReplsetModels MongoClient Api GoSort Kube Hosts SystemUsers Cluster.
From S2P Require Import BackupApi BackupExec SmartUpdate Volumes.

(** The cluster resource with what only these handlers read or write *)
Record CtlCluster := {
  ct_sc :> SmartCluster;
  ct_Finalizers : list string;
  ct_SearchSize : Z;                     (* Spec.Search.Size *)
  ct_SetFCV : bool                       (* Spec.UpgradeOptions.SetFCV *)
}.

(** ** Fields of the specification *)
Definition set_rs_sizes (size arbiter nonVoting hidden : Z) (search : option (option Z)) (r : ReplsetSpec) : ReplsetSpec :=
  let sized s z := {| sz_Enabled := sz_Enabled s; sz_Size := z |} in
  {| rs_Name := rs_Name r; rs_Size := size; rs_ClusterRole := rs_ClusterRole r;
     rs_Arbiter := sized (rs_Arbiter r) arbiter; rs_NonVoting := sized (rs_NonVoting r) nonVoting;
     rs_Hidden := sized (rs_Hidden r) hidden; rs_ExposeEnabled := rs_ExposeEnabled r;
     rs_ExposeType := rs_ExposeType r; rs_Configuration := rs_Configuration r;
     rs_ExternalNodes := rs_ExternalNodes r; rs_Horizons := rs_Horizons r; rs_Overrides := rs_Overrides r;
     rs_PrimaryPreferTagSelector := rs_PrimaryPreferTagSelector r;
     rs_TerminationGrace := rs_TerminationGrace r; rs_SearchSize := search |}.
Definition set_rs_Size (size : Z) (r : ReplsetSpec) : ReplsetSpec :=
  set_rs_sizes size (sz_Size (rs_Arbiter r)) (sz_Size (rs_NonVoting r)) (sz_Size (rs_Hidden r)) (rs_SearchSize r) r.
Definition set_search_size (size : Z) (r : ReplsetSpec) : ReplsetSpec :=
  set_rs_sizes (rs_Size r) (sz_Size (rs_Arbiter r)) (sz_Size (rs_NonVoting r)) (sz_Size (rs_Hidden r))
    (match rs_SearchSize r with Some _ => Some (Some size) | None => None end) r.
(** Arbiters, non-voting and hidden members go at once. *)
Definition zero_extras (r : ReplsetSpec) : ReplsetSpec :=
  let zero s := if sz_Enabled s then 0%Z else sz_Size s in
  set_rs_sizes (rs_Size r) (zero (rs_Arbiter r)) (zero (rs_NonVoting r)) (zero (rs_Hidden r)) (rs_SearchSize r) r.

Definition with_replsets (f : list ReplsetSpec → list ReplsetSpec) (cfg : option ReplsetSpec → option ReplsetSpec)
    (mongos : Z) (cr : PerconaServerMongoDB) : PerconaServerMongoDB :=
  {| cr_Name := cr_Name cr; cr_Namespace := cr_Namespace cr; cr_UID := cr_UID cr;
     cr_Generation := cr_Generation cr; cr_Annotations := cr_Annotations cr; cr_CRVersion := cr_CRVersion cr;
     cr_Unmanaged := cr_Unmanaged cr; cr_UnsafeReplsetSize := cr_UnsafeReplsetSize cr;
     cr_ShardingEnabled := cr_ShardingEnabled cr; cr_MongosSize := mongos;
     cr_MongosServicePerPod := cr_MongosServicePerPod cr; cr_MongosExposeType := cr_MongosExposeType cr;
     cr_ConfigsvrReplSet := cfg (cr_ConfigsvrReplSet cr); cr_Replsets := f (cr_Replsets cr);
     cr_DNSMode := cr_DNSMode cr; cr_DNSSuffix := cr_DNSSuffix cr; cr_MCSEnabled := cr_MCSEnabled cr;
     cr_MCSDNSSuffix := cr_MCSDNSSuffix cr; cr_TLSMode := cr_TLSMode cr;
     cr_DefaultRWConcern := cr_DefaultRWConcern cr; cr_SecretsUsers := cr_SecretsUsers cr;
     cr_SearchEnabled := cr_SearchEnabled cr |}.
Definition with_sc_cr (f : PerconaServerMongoDB → PerconaServerMongoDB) (cr : SmartCluster) : SmartCluster :=
  {| sc_bc := {| bc_cr := f cr; bc_Backup := bc_Backup cr; bc_Status := bc_Status cr; bc_Pause := bc_Pause cr;
                 bc_SecretsSSE := bc_SecretsSSE cr; bc_UnsafeConf := bc_UnsafeConf cr;
                 bc_BackupIfUnhealthy := bc_BackupIfUnhealthy cr |};
     sc_UpdateStrategy := sc_UpdateStrategy cr; sc_VPA := sc_VPA cr; sc_MongosDelay := sc_MongosDelay cr;
     sc_BalancerEnabled := sc_BalancerEnabled cr; sc_TLS := sc_TLS cr; sc_Deleting := sc_Deleting cr |}.
Definition with_ct_cr (f : PerconaServerMongoDB → PerconaServerMongoDB) (cr : CtlCluster) : CtlCluster :=
  {| ct_sc := with_sc_cr f cr; ct_Finalizers := ct_Finalizers cr; ct_SearchSize := ct_SearchSize cr;
     ct_SetFCV := ct_SetFCV cr |}.
Definition set_Finalizers (l : list string) (cr : CtlCluster) : CtlCluster :=
  {| ct_sc := ct_sc cr; ct_Finalizers := l; ct_SearchSize := ct_SearchSize cr; ct_SetFCV := ct_SetFCV cr |}.
Definition set_SearchSize (z : Z) (cr : CtlCluster) : CtlCluster :=
  {| ct_sc := ct_sc cr; ct_Finalizers := ct_Finalizers cr; ct_SearchSize := z; ct_SetFCV := ct_SetFCV cr |}.
Definition set_MongosSize (z : Z) (cr : CtlCluster) : CtlCluster := with_ct_cr (with_replsets id id z) cr.

Definition with_ct_bc (f : BackupCluster → BackupCluster) (cr : CtlCluster) : CtlCluster :=
  {| ct_sc :=
       {| sc_bc := f cr; sc_UpdateStrategy := sc_UpdateStrategy cr; sc_VPA := sc_VPA cr;
          sc_MongosDelay := sc_MongosDelay cr; sc_BalancerEnabled := sc_BalancerEnabled cr; sc_TLS := sc_TLS cr;
          sc_Deleting := sc_Deleting cr |};
     ct_Finalizers := ct_Finalizers cr; ct_SearchSize := ct_SearchSize cr; ct_SetFCV := ct_SetFCV cr |}.
Definition set_Pause (b : bool) : CtlCluster → CtlCluster := with_ct_bc (λ cr,
  {| bc_cr := bc_cr cr; bc_Backup := bc_Backup cr; bc_Status := bc_Status cr; bc_Pause := b;
     bc_SecretsSSE := bc_SecretsSSE cr; bc_UnsafeConf := bc_UnsafeConf cr;
     bc_BackupIfUnhealthy := bc_BackupIfUnhealthy cr |}).
Definition on_Status (f : ClusterStatus → ClusterStatus) : CtlCluster → CtlCluster := with_ct_bc (with_bc_Status f).
Definition set_Sharding (b : bool) : CtlCluster → CtlCluster := with_ct_cr (λ cr,
  {| cr_Name := cr_Name cr; cr_Namespace := cr_Namespace cr; cr_UID := cr_UID cr;
     cr_Generation := cr_Generation cr; cr_Annotations := cr_Annotations cr; cr_CRVersion := cr_CRVersion cr;
     cr_Unmanaged := cr_Unmanaged cr; cr_UnsafeReplsetSize := cr_UnsafeReplsetSize cr;
     cr_ShardingEnabled := b; cr_MongosSize := cr_MongosSize cr;
     cr_MongosServicePerPod := cr_MongosServicePerPod cr; cr_MongosExposeType := cr_MongosExposeType cr;
     cr_ConfigsvrReplSet := cr_ConfigsvrReplSet cr; cr_Replsets := cr_Replsets cr;
     cr_DNSMode := cr_DNSMode cr; cr_DNSSuffix := cr_DNSSuffix cr; cr_MCSEnabled := cr_MCSEnabled cr;
     cr_MCSDNSSuffix := cr_MCSDNSSuffix cr; cr_TLSMode := cr_TLSMode cr;
     cr_DefaultRWConcern := cr_DefaultRWConcern cr; cr_SecretsUsers := cr_SecretsUsers cr;
     cr_SearchEnabled := cr_SearchEnabled cr |}).
Definition set_CRVersion (v : string) : CtlCluster → CtlCluster := with_ct_cr (λ cr,
  {| cr_Name := cr_Name cr; cr_Namespace := cr_Namespace cr; cr_UID := cr_UID cr;
     cr_Generation := cr_Generation cr; cr_Annotations := cr_Annotations cr; cr_CRVersion := v;
     cr_Unmanaged := cr_Unmanaged cr; cr_UnsafeReplsetSize := cr_UnsafeReplsetSize cr;
     cr_ShardingEnabled := cr_ShardingEnabled cr; cr_MongosSize := cr_MongosSize cr;
     cr_MongosServicePerPod := cr_MongosServicePerPod cr; cr_MongosExposeType := cr_MongosExposeType cr;
     cr_ConfigsvrReplSet := cr_ConfigsvrReplSet cr; cr_Replsets := cr_Replsets cr;
     cr_DNSMode := cr_DNSMode cr; cr_DNSSuffix := cr_DNSSuffix cr; cr_MCSEnabled := cr_MCSEnabled cr;
     cr_MCSDNSSuffix := cr_MCSDNSSuffix cr; cr_TLSMode := cr_TLSMode cr;
     cr_DefaultRWConcern := cr_DefaultRWConcern cr; cr_SecretsUsers := cr_SecretsUsers cr;
     cr_SearchEnabled := cr_SearchEnabled cr |}).

(** ** A replica set of the specification, by reference

    The source holds a pointer to an element of [cr.Spec.Replsets], or the one
    of the config servers, and writes through it. *)
Inductive rs_ref := Shard (i : nat) | ConfigServers.
#[export] Instance rs_ref_eq_dec : EqDecision rs_ref.
Proof. solve_decision. Defined.
Definition rs_at (ref : rs_ref) (cr : CtlCluster) : option ReplsetSpec :=
  match ref with Shard i => cr_Replsets cr !! i | ConfigServers => cr_ConfigsvrReplSet cr end.
Definition upd_rs (ref : rs_ref) (f : ReplsetSpec → ReplsetSpec) (cr : CtlCluster) : CtlCluster :=
  match ref with
  | Shard i => with_ct_cr (with_replsets (alter f i) id (cr_MongosSize cr)) cr
  | ConfigServers => with_ct_cr (with_replsets id (fmap f) (cr_MongosSize cr)) cr
  end.
Definition shard_refs (cr : CtlCluster) : list rs_ref := Shard <$> seq 0 (length (cr_Replsets cr)).

(** ** The calls of these handlers alone

    Secrets and services are only listed, read to see whether they are there,
    and deleted. *)
Class CtlClient (W : Type) := {
  ctl_update : CtlCluster → GoM W unit;                 (* client.Update of the resource *)
  ctl_patch : CtlCluster → CtlCluster → GoM W CtlCluster;  (* client.Patch, and what it reads back *)
  sts_delete : StatefulSet → GoM W unit;
  secret_delete : string → string → GoM W unit;
  svc_list : string → gmap string string → GoM W (list Service);
  svc_delete : string → string → GoM W unit;
  configmap_delete : string → string → GoM W unit
}.

Definition MongodLabels (cr : PerconaServerMongoDB) (rs : option ReplsetSpec) : gmap string string :=
  <[LabelComponent := ComponentMongod]> (RSLabels cr rs).

Section getters.
Context {W : Type} {K : K8sClient W} {VC : VolumeClient W} {CL : CtlClient W}.
Abbreviation M := (GoM W).
Implicit Types (cr : PerconaServerMongoDB).

Definition getMongodPods cr : M (list Pod) :=
  k8s_list_pods (cr_Namespace cr) (SelectorFromSet (MongodLabels cr None)).
Definition getMongodStatefulsets cr : M (list StatefulSet) :=
  k8s_list_sts (cr_Namespace cr) (SelectorFromSet (MongodLabels cr None)).
Definition getStatefulsetsExceptMongos cr : M (list StatefulSet) :=
  k8s_list_sts (cr_Namespace cr)
    {| sel_In := ClusterLabels cr; sel_NotIn := [(LabelComponent, ComponentMongos)] |}.
Definition IsControlledBy (sts : StatefulSet) cr : bool := bool_decide (sts_Controller sts = Some (cr_UID cr)).
Definition getAllstatefulsets cr : M (list StatefulSet) :=
  l ← k8s_list_sts (cr_Namespace cr) (SelectorFromSet (ClusterLabels cr));
  mret (filter (λ sts, IsControlledBy sts cr = true) l).
Definition getCfgStatefulset cr : M StatefulSet :=
  k8s_get_sts (cr_Namespace cr) (cr_Name cr +:+ "-" +:+ ConfigReplSetName).
Definition getAllPVCs cr : M (list PersistentVolumeClaim) := pvc_list (cr_Namespace cr) (ClusterLabels cr).
Definition getMongodPVCs cr : M (list PersistentVolumeClaim) := pvc_list (cr_Namespace cr) (MongodLabels cr None).

(** [client.IgnoreNotFound(err)] *)
Definition ignore_NotFound (m : M unit) : M unit :=
  r ← tryM m;
  match r with Ok _ => mret tt | Err e => if IsNotFound e then mret tt else throw e end.

(** [DeleteIfExists] on an object of kind [kind] *)
Definition DeleteIfExists {A} (kind ns name : string) (get : M A) (deleting : A → bool) (del : A → M unit) : M unit :=
  got ← tryM get;
  match got with
  | Err e => if IsNotFound e then mret tt
             else throw (EWrap e ("failed to get " +:+ kind +:+ " " +:+ ns +:+ "/" +:+ name))
  | Ok obj =>
      if deleting obj then mret tt
      else wrapM ("failed to delete " +:+ kind +:+ " " +:+ ns +:+ "/" +:+ name) (ignore_NotFound (del obj))
  end.
Definition DeleteStsIfExists (ns name : string) : M unit :=
  DeleteIfExists "*v1.StatefulSet" ns name (k8s_get_sts ns name) sts_Deleting sts_delete.
Definition DeleteSvcIfExists (ns name : string) : M unit :=
  DeleteIfExists "*v1.Service" ns name (k8s_get_service ns name) svc_Deleting (λ _, svc_delete ns name).
End getters.
