(* ===== verification/Finalizers.v ===== *)
(** Deleting a cluster: pkg/controller/perconaservermongodb/finalizers.go.

    The handlers shrink the replica sets of the specification in memory; the
    reconciliation that follows resizes the stateful sets. *)
From S2P Require Import Prelude ReplsetModels MongoClient Api GoSort Kube Hosts SystemUsers Cluster.
From S2P Require Import BackupApi BackupSchedule Lease BackupExec BackupController SmartUpdate Volumes Controller.

Definition FinalizerDeletePITR : string := "percona.com/delete-pitr-chunks".
Definition FinalizerDeletePVC : string := "percona.com/delete-psmdb-pvc".
Definition FinalizerDeletePSMDBPodsInOrder : string := "percona.com/delete-psmdb-pods-in-order".
Definition errWaitingTermination : error := ENew "waiting pods to be deleted".
Definition errWaitingFirstPrimary : error := ENew "waiting first pod to become primary".
(** [errors.Is(err, target)] for these errors *)
Definition error_is (target e : error) : bool := bool_decide (err_cause e = target).

(** ** The order of the finalizers *)
(** Takes every [v] out of the list; how many there were. *)
Fixpoint take_out (v : string) (l : list string) : nat * list string :=
  match l with
  | [] => (0, [])
  | x :: l' => let '(n, rest) := take_out v l' in
               if bool_decide (v = x) then (S n, rest) else (n, x :: rest)
  end.
Fixpoint order_by (order l : list string) : list string :=
  match order with
  | [] => l
  | v :: order' => let '(n, rest) := take_out v l in replicate n v ++ order_by order' rest
  end.
Definition finalizer_order `{Versions} (cr : PerconaServerMongoDB) : list string :=
  if (CompareVersion cr "1.17.0" <? 0)%Z then ["delete-psmdb-pods-in-order"; "delete-psmdb-pvc"]
  else [FinalizerDeletePITR; FinalizerDeletePSMDBPodsInOrder; FinalizerDeletePVC].
Definition GetOrderedFinalizers `{Versions} (cr : CtlCluster) : list string :=
  order_by (finalizer_order cr) (ct_Finalizers cr).

Inductive finalizer_work := DeletePVCs | DeletePodsInOrder | DeletePITRChunks.
Definition work_of (f : string) : option finalizer_work :=
  if bool_decide (f ∈ ["delete-psmdb-pvc"; FinalizerDeletePVC]) then Some DeletePVCs
  else if bool_decide (f ∈ ["delete-psmdb-pods-in-order"; FinalizerDeletePSMDBPodsInOrder]) then Some DeletePodsInOrder
  else if bool_decide (f = FinalizerDeletePITR) then Some DeletePITRChunks
  else None.

Definition pod_name_less (a b : Pod) : bool := String.ltb (pod_Name a) (pod_Name b).

Section finalizers.
Context {W : Type} {K : K8sClient W} {Q : PodClient W} {P : MongoClientProvider W} {E : ClusterEnv W}.
Context {KB : BackupClient W} {PB : PBM W} {VC : VolumeClient W} {CL : CtlClient W}.
Context {Y : Yaml} {V : Versions} {G : GoSort}.
Abbreviation M := (GoM (CtlCluster * W)).

(** ** The pods of a replica set *)
Definition size_to (ref : rs_ref) (n : Z) : M unit := mod_mem (upd_rs ref (set_rs_Size n)).
Definition is_primary (ref : rs_ref) (rs : ReplsetSpec) (pod : Pod) : M bool :=
  cr ← get_mem;
  wrapM "is pod primary" (on_world (isPodPrimary (cr : CtlCluster) pod rs)).

(** One pod is left, or asked for. *)
Definition delete_last_pod (ref : rs_ref) (rs : ReplsetSpec) (pods : list Pod) : M unit :=
  size_to ref 1;;
  match pods with
  | [firstPod] =>
      (if isContainerAndPodRunning firstPod "mongod" && isPodReady firstPod then
         isPrimary ← is_primary ref rs firstPod;
         if negb isPrimary then throw errWaitingFirstPrimary else mret tt
       else mret tt);;
      size_to ref 0;;
      throw errWaitingTermination
  | _ => throw errWaitingTermination
  end.
(** All but the first pod are to go. *)
Definition delete_other_pods (ref : rs_ref) (rs : ReplsetSpec) (replicas : Z) (pods : list Pod) : M unit :=
  size_to ref replicas;;
  match pods with
  | [] => throw index_panic
  | firstPod :: _ =>
      isPrimary ← is_primary ref rs firstPod;
      if negb isPrimary then
        when negb (Z.of_nat (length pods) =? replicas)%Z raise errWaitingTermination;
        cr ← get_mem;
        wrapM "set primary" (on_world (setPrimary (cr : CtlCluster) rs firstPod));;
        throw errWaitingFirstPrimary
      else
        size_to ref 1;;
        throw errWaitingTermination
  end.
Definition deleteReplsetPods (ref : rs_ref) : M unit :=
  cr ← get_mem;
  match rs_at ref cr with
  | None => throw nil_panic
  | Some rs =>
      got ← tryM (on_world (getRsStatefulset (cr : CtlCluster) (rs_Name rs)));
      match got with
      | Err e => if IsNotFound e then mret tt else throw (EWrap e "get rs statefulset")
      | Ok sts =>
          got ← tryM (on_world (k8s_list_pods (cr_Namespace (cr : CtlCluster)) (SelectorFromSet (sts_TemplateLabels sts))));
          match got with
          | Err e => if IsNotFound e then mret tt else throw (EWrap e "get rs pods")
          | Ok items =>
              let pods := sort_slice pod_name_less items in
              match sts_SpecReplicas sts with
              | None => throw nil_panic
              | Some replicas =>
                  if (replicas =? 0)%Z then
                    size_to ref 0;;
                    (if bool_decide (pods = []) then mret tt else throw errWaitingTermination)
                  else if (replicas =? 1)%Z || (length pods =? 1)%nat then delete_last_pod ref rs pods
                  else delete_other_pods ref rs replicas pods
              end
          end
      end
  end.
Definition deleteReplset (ref : rs_ref) : M unit :=
  mod_mem (upd_rs ref zero_extras);;
  deleteReplsetPods ref.

(** ** All the pods *)
Fixpoint delete_replsets (rsDeleted : bool) (refs : list rs_ref) : M bool :=
  match refs with
  | [] => mret rsDeleted
  | ref :: refs' =>
      r ← catchM (deleteReplset ref);
      match r with
      | Ok _ => delete_replsets rsDeleted refs'
      | Err e =>
          if error_is errWaitingTermination e || error_is errWaitingFirstPrimary e
          then delete_replsets false refs' else throw e
      end
  end.
Definition zero_search (cr : CtlCluster) : CtlCluster :=
  set_SearchSize 0 (with_ct_cr (with_replsets (fmap (set_search_size 0)) id (cr_MongosSize cr)) cr).
Definition deletePSMDBPods : M unit :=
  cr ← get_mem;
  (if cr_ShardingEnabled (cr : CtlCluster) then
     mod_mem (set_MongosSize 0);;
     pods ← wrapM "get mongos pods" (on_world (getMongosPods (cr : CtlCluster)));
     if bool_decide (pods = []) then mret tt else throw errWaitingTermination
   else mret tt);;
  (if cr_SearchEnabled (cr : CtlCluster) then mod_mem zero_search else mret tt);;
  rsDeleted ← delete_replsets true (shard_refs cr);
  when negb rsDeleted raise errWaitingTermination;
  if cr_ShardingEnabled (cr : CtlCluster) && bool_decide (is_Some (cr_ConfigsvrReplSet (cr : CtlCluster)))
  then deleteReplset ConfigServers else mret tt.

(** ** Volumes, secrets and chunks *)
Fixpoint delete_each {A} (del : A → GoM W unit) (msg : A → string) (l : list A) : GoM W unit :=
  match l with
  | [] => mret tt
  | x :: l' => wrapM (msg x) (del x);; delete_each del msg l'
  end.
Definition deleteAllStatefulsets (cr : PerconaServerMongoDB) : GoM W unit :=
  l ← wrapM "failed to get StatefulSet list" (getAllstatefulsets cr);
  delete_each sts_delete (λ s, "failed to delete StatefulSet " +:+ sts_Name s) l.
Definition deleteAllPVC (cr : PerconaServerMongoDB) : GoM W unit :=
  l ← wrapM "failed to get PVC list" (getAllPVCs cr);
  delete_each pvc_delete (λ p, "failed to delete PVC " +:+ pvc_Name p) l.
Definition cluster_secrets (cr : PerconaServerMongoDB) : list string :=
  [cr_SecretsUsers cr; "internal-" +:+ cr_Name cr; "internal-" +:+ cr_Name cr +:+ "-users";
   cr_Name cr +:+ "-mongodb-encryption-key"].
Fixpoint delete_secrets (cr : PerconaServerMongoDB) (names : list string) : GoM W unit :=
  match names with
  | [] => mret tt
  | name :: names' =>
      got ← tryM (k8s_get_secret (cr_Namespace cr) name);
      match got with
      | Err e => if IsNotFound e then delete_secrets cr names' else throw (EWrap e "get secret")
      | Ok _ =>
          wrapM ("delete secret " +:+ name) (ignore_NotFound (secret_delete (cr_Namespace cr) name));;
          delete_secrets cr names'
      end
  end.
Definition deleteSecrets (cr : PerconaServerMongoDB) : GoM W unit := delete_secrets cr (cluster_secrets cr).
Definition deletePvcFinalizer (cr : PerconaServerMongoDB) : GoM W unit :=
  wrapM "failed to delete all StatefulSets" (deleteAllStatefulsets cr);;
  wrapM "failed to delete all PVCs" (deleteAllPVC cr);;
  wrapM "failed to delete secrets" (deleteSecrets cr).
(** [uint32(time.Now().Unix())] *)
Definition unix32 (now : time) : Z := ((now / 1000000000) mod 2 ^ 32)%Z.
Definition deleteAllPITRChunks (cr : BackupCluster) : GoM W unit :=
  wrapM "new pbm" (newPBM cr);;
  deferM pbm_Close
    (now ← go_now; wrapM "delete pitr chunks" (pbm_DeletePITRChunks (unix32 now))).

(** ** The finalizers *)
Definition run_work (wk : finalizer_work) : M unit :=
  cr ← get_mem;
  match wk with
  | DeletePVCs => on_world (deletePvcFinalizer (cr : CtlCluster))
  | DeletePodsInOrder => deletePSMDBPods
  | DeletePITRChunks => on_world (deleteAllPITRChunks (cr : CtlCluster))
  end.
(** The finalizers that stay, and whether to go on reconciling *)
Fixpoint finalizer_loop (stay : list string) (shouldReconcile : bool) (ordered : list string)
    : M (list string * bool) :=
  match ordered with
  | [] => mret (stay, shouldReconcile)
  | f :: ordered' =>
      match work_of f with
      | None => finalizer_loop (stay ++ [f]) shouldReconcile ordered'
      | Some wk =>
          r ← catchM (run_work wk);
          match r with
          | Ok _ =>
              finalizer_loop stay
                (shouldReconcile || match wk with DeletePodsInOrder => true | _ => false end) ordered'
          | Err _ =>
              cr ← get_mem;
              if bool_decide (bc_State (cr : CtlCluster) = AppStateError)
              then finalizer_loop stay shouldReconcile ordered'
              else mret (stay ++ f :: ordered', shouldReconcile)
          end
      end
  end.
Definition checkFinalizers : M bool :=
  cr ← get_mem;
  '(finalizers, shouldReconcile) ← finalizer_loop [] false (GetOrderedFinalizers cr);
  mod_mem (set_Finalizers finalizers);;
  cr ← get_mem;
  wrapM "update" (on_world (ctl_update cr));;
  mret shouldReconcile.
End finalizers.
