(* ===== verification/FinalizerFacts.v ===== *)
(** Deleting a cluster, proved: the finalizers go in order and only when their
    work is done; the primary of a replica set is its last pod; the config
    servers are the last replica set. *)
From S2P Require Import Prelude ReplsetModels MongoClient Api GoSort Kube Hosts SystemUsers Cluster.
From S2P Require Import BackupApi BackupSchedule Lease BackupExec BackupController SmartUpdate Volumes Controller Finalizers.
From S2P Require Import SmartTrace.

(** * The order of the finalizers *)
Lemma take_out_spec v l n rest :
  take_out v l = (n, rest) → l ≡ₚ replicate n v ++ rest ∧ (v ∉ rest) ∧ rest `sublist_of` l.
Proof.
  revert n rest. induction l as [|x l IH]; intros n rest; cbn [take_out].
  - intros [= <- <-]. split; [done|]. split; [set_solver|done].
  - destruct (take_out v l) as [m r] eqn:E. destruct (IH _ _ eq_refl) as (Hp & Hn & Hs).
    case_bool_decide as Hv; intros [= <- <-].
    + subst x. cbn [replicate app]. split; [by rewrite Hp at 1|]. split; [done|by constructor].
    + split; [by rewrite Hp at 1; rewrite Permutation_middle|]. split; [set_solver|by constructor].
Qed.
Lemma order_by_perm order l : order_by order l ≡ₚ l.
Proof.
  revert l. induction order as [|v order IH]; intros l; cbn [order_by]; [done|].
  destruct (take_out v l) as [n rest] eqn:E. apply take_out_spec in E as [Hp _]. by rewrite IH, <- Hp.
Qed.
Lemma replicate_split {A} n (u x : A) R before after :
  x ≠ u → replicate n u ++ R = before ++ x :: after → ∃ before', before = replicate n u ++ before' ∧ R = before' ++ x :: after.
Proof.
  intros Hx. revert before. induction n as [|n IH]; intros before; cbn [replicate app]; [by eauto|].
  destruct before as [|y before]; intros [= <- H]; [done|]. destruct (IH _ H) as (before' & -> & HR). by exists before'.
Qed.
(** What comes before [x] in the order is before every [x] in the list. *)
Lemma order_by_before o1 v o2 x l before after :
  x ∉ o1 → x ≠ v → order_by (o1 ++ v :: o2) l = before ++ x :: after → v ∉ after.
Proof.
  revert l before. induction o1 as [|u o1 IH]; intros l before Ho Hx; cbn [app order_by].
  - destruct (take_out v l) as [n rest] eqn:E. apply take_out_spec in E as (_ & Hv & _). intros H.
    apply replicate_split in H as (before' & -> & HR); [|done].
    assert (v ∉ order_by o2 rest) as Hv' by by rewrite order_by_perm. rewrite HR in Hv'. set_solver.
  - destruct (take_out u l) as [n rest]. intros H.
    apply replicate_split in H as (before' & -> & HR); [|set_solver]. eapply IH; [set_solver|done|exact HR].
Qed.

(** * Runs of a sequence *)
Lemma bind_run {W A B} (m : GoM W A) (f : A → GoM W B) w r w' :
  (m ≫= f) w = (r, w') → (∃ e, m w = (Err e, w') ∧ r = Err e) ∨ ∃ a w1, m w = (Ok a, w1) ∧ f a w1 = (r, w').
Proof. unfold mbind, gom_bind. destruct (m w) as [[a|e] w1]; [by eauto|]. intros [= <- <-]. eauto. Qed.

(** * The replica set a reference names *)
Lemma rs_at_upd ref f cr : rs_at ref (upd_rs ref f cr) = f <$> rs_at ref cr.
Proof.
  destruct ref as [i|]; cbn; [|done]. by rewrite list_lookup_alter_eq.
Qed.
Lemma rs_at_upd_ne ref ref' f cr : ref ≠ ref' → rs_at ref' (upd_rs ref f cr) = rs_at ref' cr.
Proof.
  destruct ref as [i|], ref' as [j|]; cbn; intros Hne; try done. rewrite list_lookup_alter_ne; congruence.
Qed.
Lemma set_rs_Size_twice a b rs : set_rs_Size a (set_rs_Size b rs) = set_rs_Size a rs.
Proof. done. Qed.
Lemma set_rs_Size_id rs : set_rs_Size (rs_Size rs) rs = rs.
Proof. by destruct rs as [? ? ? [] [] []]. Qed.

(** * One replica set *)
Section pods.
Context {W : Type} {K : K8sClient W} {P : MongoClientProvider W} {Y : Yaml} {V : Versions} {G : GoSort}.

(** From [w], the API returns a stateful set of [n] replicas and these pods,
    sorted by name; the world is then [w']. *)
Definition reads_pods (cr : CtlCluster) (rs : ReplsetSpec) (w : W) (n : Z) (pods : list Pod) (w' : W) : Prop :=
  ∃ sts items w1,
    getRsStatefulset cr (rs_Name rs) w = (Ok sts, w1) ∧ sts_SpecReplicas sts = Some n ∧
    k8s_list_pods (cr_Namespace cr) (SelectorFromSet (sts_TemplateLabels sts)) w1 = (Ok items, w') ∧
    pods = sort_slice pod_name_less items.
(** Asked from [w], the pod says that it is the primary. *)
Definition said_primary (rs : ReplsetSpec) (pod : Pod) (w : W) : Prop :=
  ∃ (cr : CtlCluster) w', isPodPrimary cr pod rs w = (Ok true, w').
Definition serves (p : Pod) : bool := isContainerAndPodRunning p "mongod" && isPodReady p.
(** The size asked next, for [n] replicas and these pods *)
Inductive next_size (rs : ReplsetSpec) (w : W) (n : Z) : list Pod → Z → Prop :=
| next_same pods : next_size rs w n pods n
| next_one p ps : said_primary rs p w → next_size rs w n (p :: ps) 1
| next_alone p : next_size rs w n [p] 1
| next_zero p : serves p = false ∨ said_primary rs p w → next_size rs w n [p] 0.
(** The cluster is [cr] but for the size of one replica set. *)
Definition sized (ref : rs_ref) (cr : CtlCluster) (rs : ReplsetSpec) (z : Z) (s : CtlCluster) : Prop :=
  rs_at ref s = Some (set_rs_Size z rs) ∧ ∀ ref', ref' ≠ ref → rs_at ref' s = rs_at ref' cr.

Lemma sized_again ref cr rs a z s : sized ref cr rs a s → sized ref cr rs z (upd_rs ref (set_rs_Size z) s).
Proof.
  intros [Hs Ho]. split; [by rewrite rs_at_upd, Hs|].
  intros ref' Hne. rewrite rs_at_upd_ne by done. by apply Ho.
Qed.
Lemma sized_first ref cr rs z : rs_at ref cr = Some rs → sized ref cr rs z (upd_rs ref (set_rs_Size z) cr).
Proof.
  intros Hrs. eapply (sized_again ref cr rs (rs_Size rs)). by split; [rewrite set_rs_Size_id|].
Qed.
Lemma size_to_run ref z (s : CtlCluster) (w : W) :
  size_to ref z (s, w) = (Ok tt, (upd_rs ref (set_rs_Size z) s, w)).
Proof. done. Qed.
Lemma is_primary_run ref rs pod (s : CtlCluster) (w : W) r s' w' :
  is_primary ref rs pod (s, w) = (r, (s', w')) → s' = s ∧ (r = Ok true → said_primary rs pod w).
Proof.
  unfold is_primary, mbind, gom_bind, get_mem, wrapM, on_world. cbn [fst snd].
  destruct (isPodPrimary s pod rs w) as [[b|e] w1] eqn:E; intros [= <- <- <-]; (split; [done|]); [|done].
  intros [= ->]. by exists s, w1.
Qed.

Ltac ask_primary H b Hp :=
  match type of H with context [is_primary ?ref ?rs ?p ?x] =>
    let E := fresh in
    destruct (is_primary ref rs p x) as [[b|?] [? ?]] eqn:E; apply is_primary_run in E as [-> Hp]
  end.

Section one.
Context (ref : rs_ref) (cr : CtlCluster) (rs : ReplsetSpec) (n : Z).
Context (Hrs : rs_at ref cr = Some rs).

Lemma delete_last_pod_run pods (w : W) r s' w' :
  n = 1%Z ∨ length pods = 1 → delete_last_pod ref rs pods (cr, w) = (r, (s', w')) →
  r ≠ Ok tt ∧ ∃ z, sized ref cr rs z s' ∧ next_size rs w n pods z.
Proof using Hrs.
  intros H1 Hrun. unfold delete_last_pod in Hrun. erewrite bind_ok in Hrun by apply size_to_run.
  pose proof (sized_first ref cr rs 1 Hrs) as Hone.
  assert (next_size rs w n pods 1) as Hnext.
  { destruct H1 as [->|Hl]; [apply next_same|]. destruct pods as [|p [|]]; try done. apply next_alone. }
  destruct pods as [|p [|q l]]; [injection Hrun as <- <- <-; eauto| |injection Hrun as <- <- <-; eauto].
  destruct (isContainerAndPodRunning p "mongod" && isPodReady p) eqn:Hs.
  2:{ injection Hrun as <- <- <-. split; [done|]. exists 0%Z. split; [by eapply sized_again|].
      apply next_zero. by left. }
  unfold mbind, gom_bind in Hrun. ask_primary Hrun b Hp.
  2:{ injection Hrun as <- <- <-; eauto. }
  destruct b; injection Hrun as <- <- <-; [|by eauto]. split; [done|]. exists 0%Z.
  split; [by eapply sized_again|]. apply next_zero. auto.
Qed.
Lemma delete_other_pods_run pods (w : W) r s' w' :
  delete_other_pods ref rs n pods (cr, w) = (r, (s', w')) →
  r ≠ Ok tt ∧ ∃ z, sized ref cr rs z s' ∧ next_size rs w n pods z.
Proof using Hrs.
  intros Hrun. unfold delete_other_pods in Hrun. erewrite bind_ok in Hrun by apply size_to_run.
  pose proof (sized_first ref cr rs n Hrs) as Hn. pose proof (next_same rs w n pods) as Hsame.
  destruct pods as [|p ps]; [injection Hrun as <- <- <-; eauto|].
  unfold mbind, gom_bind in Hrun. ask_primary Hrun b Hp.
  2:{ injection Hrun as <- <- <-; eauto. }
  destruct b; cbn [negb] in Hrun.
  - injection Hrun as <- <- <-. split; [done|]. exists 1%Z. split; [by eapply sized_again|].
    apply next_one. auto.
  - destruct (negb _); [injection Hrun as <- <- <-; eauto|].
    unfold get_mem, wrapM, on_world in Hrun. cbn [fst snd] in Hrun.
    destruct (setPrimary _ rs p _) as [[?|?] ?]; injection Hrun as <- <- <-; eauto.
Qed.
End one.
End pods.

(** * The whole cluster *)
Section cluster.
Context {W : Type} {K : K8sClient W} {Q : PodClient W} {P : MongoClientProvider W} {E : ClusterEnv W}.
Context {KB : BackupClient W} {PB : PBM W} {VC : VolumeClient W} {CL : CtlClient W}.
Context {Y : Yaml} {V : Versions} {G : GoSort}.

(** The stateful set, or its pods, were not found. *)
Definition set_gone (cr : CtlCluster) (rs : ReplsetSpec) (w : W) : Prop :=
  (∃ e w1, getRsStatefulset cr (rs_Name rs) w = (Err e, w1) ∧ IsNotFound e = true) ∨
  (∃ sts e w1 w2, getRsStatefulset cr (rs_Name rs) w = (Ok sts, w1) ∧ IsNotFound e = true ∧
     k8s_list_pods (cr_Namespace cr) (SelectorFromSet (sts_TemplateLabels sts)) w1 = (Err e, w2)).

(** C17: One step of the deletion of a replica set of the cluster changes at
    most the size of this replica set in the specification: to one pod only
    when the first pod said it is the primary or is the only one left, to none
    only when it is the only one left and said it is the primary or does not
    serve; else the size is that of the stateful set. The set is reported
    deleted only when the stateful set was not found (its pods are then not
    looked at), when listing its pods answered that they were not found, or
    when it asks for no replicas and the list of its pods was empty; and in
    this last case always. *)
Theorem deleteReplsetPods_primary_last ref (cr : CtlCluster) rs (w : W) r s' w' :
  rs_at ref cr = Some rs → deleteReplsetPods ref (cr, w) = (r, (s', w')) →
  s' = cr ∧ (r = Ok tt → set_gone cr rs w) ∨
  ∃ n pods w1 z, reads_pods cr rs w n pods w1 ∧ sized ref cr rs z s' ∧ next_size rs w1 n pods z ∧
    (r = Ok tt ↔ n = 0%Z ∧ pods = []).
Proof.
  intros Hrs Hrun. unfold deleteReplsetPods in Hrun.
  unfold mbind, gom_bind, get_mem, tryM, on_world, mret, gom_ret, throw in Hrun.
  cbn [fst snd] in Hrun. rewrite Hrs in Hrun.
  match type of Hrun with context [getRsStatefulset ?c ?n ?v] =>
    destruct (getRsStatefulset c n v) as [[sts|e] w1] eqn:Ests end; cbn in Hrun.
  2:{ left. destruct (IsNotFound e) eqn:Ee; injection Hrun as <- <- <-; (split; [done|]); [|done].
      intros _. left. eauto. }
  destruct (k8s_list_pods _ _ w1) as [[items|e] w2] eqn:El; cbn in Hrun.
  2:{ left. destruct (IsNotFound e) eqn:Ee; injection Hrun as <- <- <-; (split; [done|]); [|done].
      intros _. right. by exists sts, e, w1, w2. }
  remember (sort_slice pod_name_less items) as pods eqn:Epods.
  destruct (sts_SpecReplicas sts) as [n|] eqn:En; [|left; by injection Hrun as <- <- <-].
  right. exists n, pods, w2.
  assert (reads_pods cr rs w n pods w2) as Hread by by exists sts, items, w1.
  destruct (Z.eqb_spec n 0) as [->|Hn].
  - exists 0%Z. split; [done|].
    assert (sized ref cr rs 0 (upd_rs ref (set_rs_Size 0) cr)) by by apply sized_first.
    destruct pods as [|p ps]; injection Hrun as <- <- <-; (split_and!; [done|constructor|]); [done|].
    split; [done|]. by intros [_ ?].
  - assert (r ≠ Ok tt ∧ ∃ z, sized ref cr rs z s' ∧ next_size rs w2 n pods z) as (Hr & z & Hz & Hnext).
    { destruct ((n =? 1)%Z || _) eqn:E1.
      - eapply delete_last_pod_run; [done| |exact Hrun].
        apply orb_prop in E1 as [?%Z.eqb_eq|?%Nat.eqb_eq]; auto.
      - by eapply delete_other_pods_run. }
    exists z. split_and!; try done. split; [done|]. by intros [].
Qed.

(** ** What deleting replica sets leaves as it is *)
Section keeps.
Context {X : Type} (part : CtlCluster → X) (x : X).
Abbreviation keeps m := (hoare (W := W) (λ s : CtlCluster, part s = x) m (λ _ s, part s = x)).
Definition apart (ref : rs_ref) : Prop := ∀ f s, part (upd_rs ref f s) = part s.
Ltac keep :=
  first [ apply hoare_ret; done | apply hoare_throw; done
        | apply hoare_world; by intros | apply hoare_mod; intros ? <-; done
        | apply hoare_wrap; keep | apply hoare_step; [keep|intros ?; keep] ].

Lemma get_part {B} (f : CtlCluster → GoM (CtlCluster * W) B) :
  (∀ s, keeps (f s)) → keeps (get_mem ≫= f).
Proof. intros Hf. apply hoare_get. intros s Hs. eapply hoare_conseq; [apply Hf|by intros ? ->|done]. Qed.
Lemma catch_part {A} (m : GoM (CtlCluster * W) A) : keeps m → keeps (catchM m).
Proof. intros Hm. apply hoare_catch. eapply hoare_conseq; [exact Hm|done|by intros [] ?]. Qed.
Lemma size_to_keeps ref n : apart ref → keeps (size_to ref n).
Proof. intros Ha. apply hoare_mod. intros s <-. apply Ha. Qed.
Lemma is_primary_keeps ref rs pod : keeps (is_primary ref rs pod).
Proof. apply get_part. intros s. keep. Qed.
Lemma deleteReplset_keeps ref : apart ref → keeps (deleteReplset ref).
Proof.
  intros Ha. assert (∀ z, keeps (size_to ref z)) by (intros; by apply size_to_keeps).
  assert (∀ rs p, keeps (is_primary ref rs p)) by apply is_primary_keeps.
  unfold deleteReplset. apply hoare_step; [apply hoare_mod; intros s <-; apply Ha|intros _].
  unfold deleteReplsetPods. apply get_part. intros cr. destruct (rs_at ref cr) as [rs|]; [|keep].
  apply hoare_step; [apply hoare_try; keep|]. intros [sts|e]; [|destruct (IsNotFound e); keep].
  apply hoare_step; [apply hoare_try; keep|]. intros [items|e]; [|destruct (IsNotFound e); keep].
  destruct (sts_SpecReplicas sts) as [n|]; [|keep]. cbv zeta.
  destruct (n =? 0)%Z; [|destruct ((n =? 1)%Z || _)].
  - apply hoare_step; [done|intros _]. case_bool_decide; keep.
  - unfold delete_last_pod. apply hoare_step; [done|intros _].
    destruct (sort_slice _ _) as [|p [|]]; [keep| |keep].
    apply hoare_step; [|intros _; apply hoare_step; [done|intros _; keep]].
    destruct (_ && _); [|keep]. apply hoare_step; [done|intros []; keep].
  - unfold delete_other_pods. apply hoare_step; [done|intros _].
    destruct (sort_slice _ _) as [|p ?]; [keep|]. apply hoare_step; [done|intros []; cbn [negb]].
    + apply hoare_step; [done|intros _; keep].
    + destruct (negb _); [keep|]. apply get_part. intros s. keep.
Qed.
Lemma delete_replsets_keeps b refs : Forall apart refs → keeps (delete_replsets b refs).
Proof.
  intros Ha. revert b. induction Ha as [|ref refs Ha _ IH]; intros b; cbn [delete_replsets]; [keep|].
  apply hoare_step; [by apply catch_part, deleteReplset_keeps|].
  intros [a|e]; [apply IH|]. destruct (_ || _); [apply IH|keep].
Qed.
End keeps.

(** The status is none of their business. *)
Lemma status_apart ref : apart (λ s, bc_Status (s : CtlCluster)) ref.
Proof. by destruct ref. Qed.
Lemma run_work_status st wk :
  hoare (W := W) (λ s : CtlCluster, bc_Status s = st) (run_work wk) (λ _ s, bc_Status s = st).
Proof.
  assert (∀ b refs, hoare (W := W) (λ s : CtlCluster, bc_Status s = st) (delete_replsets b refs) (λ _ s, bc_Status s = st)) as Hall.
  { intros. apply (delete_replsets_keeps (λ s : CtlCluster, bc_Status s)), Forall_forall. intros. apply status_apart. }
  apply (get_part (λ s : CtlCluster, bc_Status s)). intros cr. destruct wk; [by apply hoare_world| |by apply hoare_world].
  apply (get_part (λ s : CtlCluster, bc_Status s)). intros s. apply hoare_step; [|intros _; apply hoare_step; [|intros _]].
  - destruct (cr_ShardingEnabled _); [|by apply hoare_ret]. apply hoare_step; [by apply hoare_mod|intros _].
    apply hoare_step; [by apply hoare_wrap, hoare_world|]. intros pods.
    case_bool_decide; [by apply hoare_ret|by apply hoare_throw].
  - destruct (cr_SearchEnabled _); [by apply hoare_mod|by apply hoare_ret].
  - apply hoare_step; [apply Hall|]. intros b. destruct (negb b); [by apply hoare_throw|].
    destruct (_ && _); [|by apply hoare_ret]. apply (deleteReplset_keeps (λ s : CtlCluster, bc_Status s)), status_apart.
Qed.

(** ** The finalizers *)
Fixpoint run_all (l : list string) : GoM (CtlCluster * W) unit :=
  match l with
  | [] => mret tt
  | f :: l' => match work_of f with Some wk => run_work wk;; run_all l' | None => run_all l' end
  end.
Lemma run_all_app l k s : run_all (l ++ k) s = (run_all l;; run_all k) s.
Proof.
  revert s. induction l as [|f l IH]; intros s; cbn [app run_all]; [done|]. destruct (work_of f) as [wk|]; [|apply IH].
  unfold mbind, gom_bind. destruct (run_work wk s) as [[?|?] ?]; [|done]. apply IH.
Qed.
(** Some finalizers have run, the next one failed. *)
Definition stops_at (rest : list string) (s1 s2 : CtlCluster * W) : Prop :=
  match rest with
  | [] => s2 = s1
  | f :: _ => ∃ wk e, work_of f = Some wk ∧ run_work wk s1 = (Err e, s2)
  end.
Definition unknown (l : list string) : list string := filter (λ f, work_of f = None) l.

Lemma finalizer_loop_run ordered stay b (s : CtlCluster * W) out b' s2 :
  bc_State s.1 ≠ AppStateError → finalizer_loop stay b ordered s = (Ok (out, b'), s2) →
  ∃ ran rest s1, ordered = ran ++ rest ∧ run_all ran s = (Ok tt, s1) ∧ out = stay ++ unknown ran ++ rest ∧
    stops_at rest s1 s2.
Proof.
  revert stay b s. induction ordered as [|f l IH]; intros stay b s Hst Hrun; cbn [finalizer_loop] in Hrun.
  { injection Hrun as <- <- <-. exists [], [], s. by rewrite !app_nil_r. }
  destruct (work_of f) as [wk|] eqn:Ef.
  2:{ destruct (IH _ _ _ Hst Hrun) as (ran & rest & s1 & -> & Hran & -> & Hend).
      exists (f :: ran), rest, s1. split; [done|]. cbn [run_all]. rewrite Ef. split; [done|]. split; [|done].
      unfold unknown. rewrite filter_cons_True by done. by rewrite <- !app_assoc. }
  unfold mbind at 1, gom_bind at 1, catchM in Hrun.
  pose proof (run_work_status (bc_Status s.1) wk s.1 s.2 eq_refl) as Hkeep. rewrite <- surjective_pairing in Hkeep.
  destruct (run_work wk s) as [[[]|e] s1] eqn:Er; cbn [fst snd] in Hkeep.
  - apply IH in Hrun as (ran & rest & s1' & -> & Hran & -> & Hend); [|unfold bc_State; by rewrite Hkeep].
    exists (f :: ran), rest, s1'. split; [done|]. cbn [run_all]. rewrite Ef. erewrite bind_ok by done. split; [done|].
    split; [|done]. unfold unknown. rewrite filter_cons_False; [done|congruence].
  - destruct (is_panic e); [done|]. unfold mbind, gom_bind, get_mem in Hrun.
    rewrite bool_decide_eq_false_2 in Hrun by (unfold bc_State; by rewrite Hkeep).
    injection Hrun as <- <- <-. exists [], (f :: l), s. split_and!; [done..|]. cbn. by exists wk, e.
Qed.

(** C16: A finalizer leaves a cluster that is not in an error state only when
    its work ended without an error, after the work of every finalizer before
    it in the order, which is an order of all finalizers of the cluster. From
    version 1.17 on, the finalizer that deletes the data comes after those that
    delete the chunks of the oplog and the pods, where the cluster has them,
    all three under their names with the prefix percona.com/ (the deprecated
    names are not covered by this order). *)
Theorem checkFinalizers_removed (cr cr' : CtlCluster) (w w' : W) b f :
  bc_State cr ≠ AppStateError → checkFinalizers (cr, w) = (Ok b, (cr', w')) →
  f ∈ ct_Finalizers cr → f ∉ ct_Finalizers cr' →
  ∃ before after wk s1 s2,
    GetOrderedFinalizers cr = before ++ f :: after ∧ GetOrderedFinalizers cr ≡ₚ ct_Finalizers cr ∧
    run_all before (cr, w) = (Ok tt, s1) ∧ work_of f = Some wk ∧ run_work wk s1 = (Ok tt, s2) ∧
    ((CompareVersion cr "1.17.0" <? 0)%Z = false → f = FinalizerDeletePVC →
     ∀ g, g = FinalizerDeletePITR ∨ g = FinalizerDeletePSMDBPodsInOrder → g ∈ ct_Finalizers cr → g ∈ before).
Proof.
  intros Hst Hrun Hin Hout. unfold checkFinalizers in Hrun.
  unfold mbind at 1 2, gom_bind at 1 2, get_mem at 1 in Hrun. cbn [fst snd] in Hrun.
  destruct (finalizer_loop _ _ _ (cr, w)) as [[[out b']|e] [cr1 w1]] eqn:El; [|done].
  apply finalizer_loop_run in El as (ran & rest & s1 & Hord & Hran & Hres & _); [|done].
  assert (ct_Finalizers cr' = out) as Hfin.
  { unfold mbind, gom_bind, get_mem, mod_mem, wrapM, on_world in Hrun. cbn in Hrun.
    destruct (ctl_update _ w1) as [[?|?] ?]; by injection Hrun as _ <- _. }
  rewrite Hfin, Hres in Hout. pose proof (order_by_perm (finalizer_order cr) (ct_Finalizers cr)) as Hperm.
  assert (f ∈ ran ∧ is_Some (work_of f)) as [Hf [wk Hwk]].
  { assert (f ∈ GetOrderedFinalizers cr) as Hf by (unfold GetOrderedFinalizers; by rewrite Hperm).
    rewrite Hord, elem_of_app in Hf. destruct Hf as [Hf|]; [|set_solver]. split; [done|].
    destruct (work_of f) eqn:Ef; [done|]. destruct Hout. apply elem_of_app. right. apply elem_of_app. left.
    by apply list_elem_of_filter. }
  apply list_elem_of_split in Hf as (before & after & ->). rewrite run_all_app in Hran. unfold mbind, gom_bind in Hran.
  destruct (run_all before (cr, w)) as [[[]|?] s0] eqn:Eb; [|done]. cbn [run_all] in Hran. rewrite Hwk in Hran.
  unfold mbind, gom_bind in Hran. destruct (run_work wk s0) as [[[]|?] s2] eqn:Er; [|done].
  rewrite <- app_assoc in Hord. cbn [app] in Hord.
  exists before, (after ++ rest), wk, s0, s2. split_and!; try done. intros Hv -> g Hg Hgin.
  assert (g ∈ GetOrderedFinalizers cr) as Hg' by (unfold GetOrderedFinalizers; by rewrite Hperm).
  unfold GetOrderedFinalizers, finalizer_order in Hord, Hg'. rewrite Hv in Hord, Hg'.
  assert (g ∉ after ++ rest) as Hna.
  { destruct Hg as [-> | ->]; [eapply (order_by_before []) in Hord|eapply (order_by_before [_]) in Hord];
      try exact Hord; try done; set_solver. }
  rewrite Hord, elem_of_app, elem_of_cons in Hg'. destruct Hg' as [|[->|]]; [done| |done]. by destruct Hg.
Qed.

(** ** The config servers *)
Lemma delete_replsets_all b refs s s' :
  delete_replsets b refs s = (Ok true, s') → mapM_list deleteReplset refs s = (Ok tt, s').
Proof.
  assert (∀ refs s s', delete_replsets false refs s ≠ (Ok true, s')) as Hfalse.
  { clear. induction refs as [|ref refs IH]; intros s s'; cbn [delete_replsets]; [by intros [=]|].
    unfold mbind, gom_bind, catchM. destruct (deleteReplset ref s) as [[a|e] s1]; [apply IH|].
    destruct (is_panic e); [by intros [=]|]. destruct (_ || _); [apply IH|by intros [=]]. }
  revert s. induction refs as [|ref refs IH]; intros s; cbn [delete_replsets mapM_list]; [by intros [= -> ->]|].
  unfold mbind, gom_bind, catchM. destruct (deleteReplset ref s) as [[a|e] s1]; [apply IH|].
  destruct (is_panic e); [by intros [=]|]. destruct (_ || _); [|by intros [=]]. by intros H%Hfalse.
Qed.
(** The shards and the search are asked to go after the routers. *)
Definition without_routers (cr : CtlCluster) : CtlCluster :=
  let cr1 := set_MongosSize 0 cr in if cr_SearchEnabled cr then zero_search cr1 else cr1.
Lemma config_apart ref : ref ≠ ConfigServers → apart (rs_at ConfigServers) ref.
Proof. by destruct ref. Qed.
Lemma shards_apart cr : Forall (apart (rs_at ConfigServers)) (shard_refs cr).
Proof.
  apply Forall_forall. intros ref Href. apply config_apart. intros ->.
  by apply list_elem_of_fmap in Href as (? & ? & _).
Qed.

(** C22: when a finalizer deletes the pods of a cluster in order, the config servers
    go last: either their specification stays as it was, or the cluster is
    sharded, mongos has been set to no replicas and the list of its pods, read
    first in this run, was empty, the deletion of every shard, run one after
    the other right after that, reported it deleted (see the rules for one
    set), and what the run does besides is one step of the deletion of the
    config servers. *)
Theorem deletePSMDBPods_config_last (cr cr' : CtlCluster) (w w' : W) r :
  deletePSMDBPods (cr, w) = (r, (cr', w')) →
  rs_at ConfigServers cr' = rs_at ConfigServers cr ∨
  cr_ShardingEnabled cr = true ∧ ∃ w1 s1,
    getMongosPods cr w = (Ok [], w1) ∧
    mapM_list deleteReplset (shard_refs cr) (without_routers cr, w1) = (Ok tt, s1) ∧
    deleteReplset ConfigServers s1 = (r, (cr', w')).
Proof.
  intros Hrun. unfold deletePSMDBPods in Hrun. erewrite bind_ok in Hrun by done. cbn [fst snd] in Hrun.
  assert (∀ b s v s2 v2, rs_at ConfigServers s = rs_at ConfigServers cr →
    delete_replsets true (shard_refs cr) (s, v) = (b, (s2, v2)) → rs_at ConfigServers s2 = rs_at ConfigServers cr) as Hshards.
  { intros b s v s2 v2 Hs Hd.
    pose proof (delete_replsets_keeps (rs_at ConfigServers) _ true _ (shards_apart cr) s v Hs) as Hk. by rewrite Hd in Hk. }
  apply bind_run in Hrun as [(e & Hm & ->)|([] & [s1 w1] & Hm & Hrun)].
  { left. destruct (cr_ShardingEnabled cr); [|done]. erewrite bind_ok in Hm by done.
    apply bind_run in Hm as [(e' & Hm & _)|(pods & [s1 w1] & Hm & Hrun)].
    all: unfold wrapM, on_world in Hm; cbn [fst snd] in Hm; destruct (getMongosPods cr w) as [[?|?] ?]; try done.
    - by injection Hm as _ <- _.
    - case_bool_decide; [done|]. injection Hrun as _ <- _. by injection Hm as _ <- _. }
  assert (cr_ShardingEnabled cr = true ∧ getMongosPods cr w = (Ok [], w1) ∧ s1 = set_MongosSize 0 cr ∨
          cr_ShardingEnabled cr = false ∧ s1 = cr) as Hs1.
  { destruct (cr_ShardingEnabled cr); [left|right; by injection Hm as <- _]. erewrite bind_ok in Hm by done.
    apply bind_run in Hm as [(? & _ & ?)|(pods & [s2 w2] & Hp & Hm)]; [done|].
    unfold wrapM, on_world in Hp. cbn [fst snd] in Hp. destruct (getMongosPods cr w) as [[?|?] ?]; [|done].
    injection Hp as -> <- <-. case_bool_decide; [|done]. injection Hm as <- <-. by subst pods. }
  apply bind_run in Hrun as [(e & He & _)|([] & [s2 w2] & Hz & Hrun)]; [by destruct (cr_SearchEnabled cr)|].
  assert (w2 = w1 ∧ s2 = if cr_SearchEnabled cr then zero_search s1 else s1) as [-> Hs2]
    by (destruct (cr_SearchEnabled cr); by injection Hz as <- <-).
  assert (rs_at ConfigServers s2 = rs_at ConfigServers cr) as Hcfg
    by (rewrite Hs2; destruct (cr_SearchEnabled cr), Hs1 as [(_ & _ & ->)|[_ ->]]; done).
  apply bind_run in Hrun as [(e & He & _)|(b & [s3 w3] & Hd & Hrun)]; [left; by eapply Hshards|].
  destruct b; cbn [negb] in Hrun; [|left; injection Hrun as _ <- _; by eapply Hshards].
  destruct Hs1 as [(Esh & Hmongos & ->)|[Esh ->]]; rewrite Esh in Hrun; cbn [andb] in Hrun.
  2:{ left. injection Hrun as _ <- _. by eapply Hshards. }
  case_bool_decide; [|left; injection Hrun as _ <- _; by eapply Hshards].
  right. split; [done|]. exists w1, (s3, w3). split; [done|]. split; [|done].
  apply delete_replsets_all in Hd. by rewrite Hs2 in Hd.
Qed.
End cluster.

(** * A sharded cluster that is being deleted *)
Definition dying (fins : list string) (arbiters : Z) (rss : list ReplsetSpec) : CtlCluster :=
  let cfg := set_rs_sizes 3 arbiters 0 0 None
    {| rs_Name := "cfg"; rs_Size := 3; rs_ClusterRole := "configsvr";
       rs_Arbiter := {| sz_Enabled := true; sz_Size := 1 |}; rs_NonVoting := {| sz_Enabled := false; sz_Size := 0 |};
       rs_Hidden := {| sz_Enabled := false; sz_Size := 0 |}; rs_ExposeEnabled := false; rs_ExposeType := "";
       rs_Configuration := ""; rs_ExternalNodes := []; rs_Horizons := ∅; rs_Overrides := ∅;
       rs_PrimaryPreferTagSelector := ∅; rs_TerminationGrace := None; rs_SearchSize := None |} in
  {| ct_sc := {| sc_bc := {| bc_cr :=
        {| cr_Name := "c"; cr_Namespace := "ns"; cr_UID := "uid-c"; cr_Generation := 1; cr_Annotations := ∅;
           cr_CRVersion := "1.21.0"; cr_Unmanaged := false; cr_UnsafeReplsetSize := false; cr_ShardingEnabled := true;
           cr_MongosSize := 3; cr_MongosServicePerPod := false; cr_MongosExposeType := "ClusterIP";
           cr_ConfigsvrReplSet := Some cfg; cr_Replsets := rss; cr_DNSMode := DNSModeInternal;
           cr_DNSSuffix := "svc.cluster.local"; cr_MCSEnabled := false; cr_MCSDNSSuffix := ""; cr_TLSMode := None;
           cr_DefaultRWConcern := None; cr_SecretsUsers := "secrets"; cr_SearchEnabled := false |};
        bc_Backup := bc_Backup a_backup_cluster; bc_Status := set_StatusState AppStateReady emptyStatus;
        bc_Pause := false; bc_SecretsSSE := ""; bc_UnsafeConf := false; bc_BackupIfUnhealthy := false |};
      sc_UpdateStrategy := ""; sc_VPA := None; sc_MongosDelay := 1; sc_BalancerEnabled := None; sc_TLS := None;
      sc_Deleting := true |};
     ct_Finalizers := fins; ct_SearchSize := 0; ct_SetFCV := false |}.
(** Stateful sets of three replicas and these pods, or none at all *)
Definition sets_k8s (there : bool) (pods : list Pod) : K8sClient unit :=
  let base := emptyK8s unit in
  {| k8s_get_service := k8s_get_service (K8sClient := base);
     k8s_get_node_labels := k8s_get_node_labels (K8sClient := base);
     k8s_get_service_import := k8s_get_service_import (K8sClient := base);
     k8s_list_service_exports := k8s_list_service_exports (K8sClient := base);
     k8s_get_sts := λ _ _, if there then mret demo_sts else notFound;
     k8s_get_secret := k8s_get_secret (K8sClient := base);
     k8s_list_sts := k8s_list_sts (K8sClient := base); k8s_list_pods := λ _ _, mret pods;
     go_sleep := go_sleep (K8sClient := base); go_tick := go_tick (K8sClient := base) |}.

Section demo.
Local Existing Instances prompt_pods no_env emptyYaml insertion_GoSort.
Local Instance fin_provider : MongoClientProvider unit := primary_is "c-rs0-0.c-rs0.ns.svc.cluster.local:27017".
Local Instance fin_backups : BackupClient unit := emptyBackups unit.
Local Instance fin_pbm : PBM unit := emptyPBM unit.
Local Instance fin_versions : Versions := λ _ _, 1%Z.
Local Instance fin_volumes : VolumeClient unit := {|
  pvc_list := λ _ _, mret []; pvc_get := λ _ _, notFound; pvc_update := λ _, mret tt; pvc_patch := λ _ _, mret tt;
  pvc_delete := λ _, mret tt; event_list := λ _ _, mret []; vsts_get := λ _ _, notFound; vsts_patch := λ _ _, mret tt;
  vsts_delete_orphan := λ _, mret tt; vcr_patch := λ _ _, mret tt; cr_patch := λ _ _, mret tt |}.
Local Instance fin_client : CtlClient unit := {|
  ctl_update := λ _, mret tt; ctl_patch := λ _ c, mret c; sts_delete := λ _, mret tt; secret_delete := λ _ _, mret tt;
  svc_list := λ _ _, mret []; svc_delete := λ _ _, mret tt; configmap_delete := λ _ _, mret tt |}.

Definition three_pods : list Pod :=
  [live_pod "ns" "" "c-rs0-2" ""; live_pod "ns" "" "c-rs0-0" ""; live_pod "ns" "" "c-rs0-1" ""].
Definition fin_cluster : CtlCluster := dying [] 1 [a_replset "rs0" 3].
Definition shrink_run := deleteReplsetPods (K := sets_k8s true three_pods) (Shard 0) (fin_cluster, tt).
Lemma deleteReplsetPods_primary_last_witness :
  rs_Size <$> rs_at (Shard 0) shrink_run.2.1 = Some 1%Z ∧
  ∃ n pods w1 z, reads_pods (K := sets_k8s true three_pods) fin_cluster (a_replset "rs0" 3) tt n pods w1 ∧
    sized (Shard 0) fin_cluster (a_replset "rs0" 3) z shrink_run.2.1 ∧
    next_size (K := sets_k8s true three_pods) (a_replset "rs0" 3) w1 n pods z ∧ (shrink_run.1 = Ok tt ↔ n = 0%Z ∧ pods = []).
Proof.
  split; [vm_compute; reflexivity|].
  assert (rs_at (Shard 0) fin_cluster = Some (a_replset "rs0" 3)) as Hrs by (vm_compute; reflexivity).
  assert (rs_Size <$> rs_at (Shard 0) shrink_run.2.1 ≠ rs_Size <$> rs_at (Shard 0) fin_cluster) as Hne
    by (vm_compute; discriminate).
  assert (deleteReplsetPods (K := sets_k8s true three_pods) (Shard 0) (fin_cluster, tt) =
    (shrink_run.1, (shrink_run.2.1, shrink_run.2.2))) as Hrun by reflexivity.
  destruct (deleteReplsetPods_primary_last (K := sets_k8s true three_pods) (Shard 0) fin_cluster (a_replset "rs0" 3) tt
    _ _ _ Hrs Hrun) as [[Hs _]|H]; [|exact H].
  exfalso. apply Hne. rewrite Hs. reflexivity.
Defined.

Definition pvc_cluster : CtlCluster :=
  dying [FinalizerDeletePVC; FinalizerDeletePSMDBPodsInOrder; "other"] 1 [a_replset "rs0" 3].
Definition fin_run := checkFinalizers (K := sets_k8s false []) (pvc_cluster, tt).
Lemma checkFinalizers_removed_witness :
  fin_run.1 = Ok true ∧ ct_Finalizers fin_run.2.1 = ["other"] ∧
  ∃ before after wk s1 s2,
    GetOrderedFinalizers pvc_cluster = before ++ FinalizerDeletePVC :: after ∧
    run_all (K := sets_k8s false []) before (pvc_cluster, tt) = (Ok tt, s1) ∧
    work_of FinalizerDeletePVC = Some wk ∧ run_work (K := sets_k8s false []) wk s1 = (Ok tt, s2) ∧
    FinalizerDeletePSMDBPodsInOrder ∈ before.
Proof.
  assert (fin_run.1 = Ok true) as Hok by (vm_compute; reflexivity).
  assert (ct_Finalizers fin_run.2.1 = ["other"]) as Hf by (vm_compute; reflexivity).
  split; [exact Hok|]. split; [exact Hf|].
  assert (bc_State pvc_cluster ≠ AppStateError) as Hst by (vm_compute; discriminate).
  assert (FinalizerDeletePVC ∈ ct_Finalizers pvc_cluster) as Hin by left.
  assert (FinalizerDeletePVC ∉ ct_Finalizers fin_run.2.1) as Hout
    by (rewrite Hf; apply (bool_decide_unpack _); vm_compute; reflexivity).
  assert (checkFinalizers (K := sets_k8s false []) (pvc_cluster, tt) = (Ok true, (fin_run.2.1, fin_run.2.2))) as Hrun
    by (rewrite <- Hok; reflexivity).
  destruct (checkFinalizers_removed (K := sets_k8s false []) _ _ _ _ _ _ Hst Hrun Hin Hout)
    as (before & after & wk & s1 & s2 & Ho & _ & Hran & Hw & Hr & Hb).
  exists before, after, wk, s1, s2. split_and!; try done.
  apply Hb; [vm_compute; reflexivity|reflexivity|right; reflexivity|right; left].
Defined.

Definition last_run := deletePSMDBPods (K := sets_k8s false []) (fin_cluster, tt).
Lemma deletePSMDBPods_config_last_witness :
  (λ rs, sz_Size (rs_Arbiter rs)) <$> rs_at ConfigServers last_run.2.1 = Some 0%Z ∧
  ∃ s1, mapM_list (deleteReplset (K := sets_k8s false [])) (shard_refs fin_cluster) (without_routers fin_cluster, tt) = (Ok tt, s1) ∧
    deleteReplset (K := sets_k8s false []) ConfigServers s1 = (last_run.1, (last_run.2.1, last_run.2.2)).
Proof.
  assert ((λ rs, sz_Size (rs_Arbiter rs)) <$> rs_at ConfigServers last_run.2.1 = Some 0%Z) as Hz by (vm_compute; reflexivity).
  split; [exact Hz|].
  assert (deletePSMDBPods (K := sets_k8s false []) (fin_cluster, tt) = (last_run.1, (last_run.2.1, last_run.2.2))) as Hrun
    by reflexivity.
  destruct (deletePSMDBPods_config_last (K := sets_k8s false []) _ _ _ _ _ Hrun) as [H|(_ & [] & s1 & _ & Hs & Hd)].
  - exfalso. rewrite H in Hz. vm_compute in Hz. discriminate Hz.
  - exists s1. split; [exact Hs|exact Hd].
Defined.

(** Between the pods' deletion and their recreation the API may return no pod of
    a stateful set that asks for several: the handler panics. *)
Example no_pods_panics :
  (deleteReplsetPods (K := sets_k8s true []) (Shard 0) (fin_cluster, tt)).1 = Err index_panic.
Proof. vm_compute. done. Qed.
End demo.
