(* ===== verification/Decommission.v ===== *)
(** Parts of a cluster that are no longer asked for, and the feature
    compatibility version: psmdb_controller.go and fcv.go of
    pkg/controller/perconaservermongodb, and pkg/versionservice/upgrade.go.

    The handlers that write the specification in memory run over it and the
    world; the others over the world alone. *)
From S2P Require Import Prelude ReplsetModels MongoClient Api GoSort Kube Hosts SystemUsers Cluster.
From S2P Require Import BackupApi BackupExec SmartUpdate Volumes Controller Finalizers.

Definition MongodDataVolClaimName : string := "mongod-data".

(** gopkg.in/yaml.v2 writing [{net: {port: p}}] *)
Class PortYaml := yaml_of_port : Z → string.
(** hashicorp/go-version: the numbers of a version, if it is one *)
Class Semver := NewSemver : string → option (list Z).

(** * Versions *)
Definition upgrade_path : list (string * string) :=
  [("3.6", "4.0"); ("4.0", "4.2"); ("4.2", "4.4"); ("4.4", "5.0"); ("5.0", "6.0"); ("6.0", "7.0"); ("7.0", "8.0");
   ("8.0", "8.3")].
Definition CanUpgradeVersion (fcv target : string) : bool :=
  if negb (String.ltb fcv target) then false
  else match list_find (λ p, p.1 = fcv) upgrade_path with
       | Some (_, (_, next)) => bool_decide (target = next)
       | None => false
       end.
Definition MajorMinor (segments : list Z) : result string :=
  match segments with
  | [] => Err index_panic
  | [a] => Ok (itoa a +:+ "." +:+ itoa 0)
  | a :: b :: _ => Ok (itoa a +:+ "." +:+ itoa b)
  end.

(** * A replica set that is only a name and a port *)
Definition SetPort `{PortYaml} `{Yaml} (conf : string) (port : Z) : result string :=
  if negb (bool_decide (conf = "")) then Err (ENew "configuration is not empty; refusing to overwrite")
  else match yaml_net_port conf with
       | None => Err (ENew "error unmarshalling configuration")
       | Some _ => Ok (yaml_of_port port)
       end.
Definition named_replset (name conf : string) : ReplsetSpec :=
  {| rs_Name := name; rs_Size := 0; rs_ClusterRole := "";
     rs_Arbiter := {| sz_Enabled := false; sz_Size := 0 |}; rs_NonVoting := {| sz_Enabled := false; sz_Size := 0 |};
     rs_Hidden := {| sz_Enabled := false; sz_Size := 0 |}; rs_ExposeEnabled := false; rs_ExposeType := "";
     rs_Configuration := conf; rs_ExternalNodes := []; rs_Horizons := ∅; rs_Overrides := ∅;
     rs_PrimaryPreferTagSelector := ∅; rs_TerminationGrace := None; rs_SearchSize := None |}.

(** * Stateful sets to delete *)
Record RemovedSts := { rem_sts : StatefulSet; rem_rsName : string; rem_rsPort : Z }.

Fixpoint component_port (componentName : string) (l : list Container) : result Z :=
  match l with
  | [] => if negb (bool_decide (componentName = "mongod")) then Ok DefaultMongoPort
          else Err (ENew ("container not found: " +:+ componentName))
  | container :: l' =>
      if bool_decide (ctr_Name container = componentName) then
        match ctr_Ports container with
        | port :: _ => Ok port
        | [] => Err (ENew ("no ports found for container " +:+ componentName))
        end
      else component_port componentName l'
  end.
Definition getComponentPortFromSTS (sts : StatefulSet) (componentName : string) : result Z :=
  component_port componentName (sts_TemplateContainers sts).

(** Not mongos, not the config servers, and of a replica set that is not in
    the specification *)
Definition is_leftover (cr : PerconaServerMongoDB) (sts : StatefulSet) : bool :=
  negb (bool_decide (sts_label LabelComponent sts = "mongos")
        || bool_decide (sts_Name sts = cr_Name cr +:+ "-" +:+ ConfigReplSetName))
  && negb (bool_decide (sts_label LabelReplset sts ∈ rs_Name <$> cr_Replsets cr)).
Fixpoint leftovers (cr : PerconaServerMongoDB) (l : list StatefulSet) : result (list RemovedSts) :=
  match l with
  | [] => Ok []
  | sts :: l' =>
      if negb (is_leftover cr sts) then leftovers cr l'
      else match getComponentPortFromSTS sts (sts_label LabelComponent sts) with
           | Err e => Err (EWrap e "get component port from sts")
           | Ok port =>
               removed ← leftovers cr l';
               Ok ({| rem_sts := sts; rem_rsName := sts_label LabelReplset sts; rem_rsPort := port |} :: removed)
           end
  end.
Definition later_name (a b : RemovedSts) : bool := String.ltb (sts_Name (rem_sts b)) (sts_Name (rem_sts a)).

Section decommission.
Context {W : Type} {K : K8sClient W} {Q : PodClient W} {P : MongoClientProvider W} {E : ClusterEnv W}.
Context {VC : VolumeClient W} {CL : CtlClient W}.
Context {Y : Yaml} {PY : PortYaml} {V : Versions} {SV : Semver} {G : GoSort}.
Abbreviation M := (GoM W).
Implicit Types (cr : CtlCluster).

Definition getSTSForDeletionWithTheirRSDetails cr : M (list RemovedSts) :=
  existing ← wrapM "failed to get statefulset list"
    (k8s_list_sts (cr_Namespace cr) (SelectorFromSet {[ LabelInstance := cr_Name cr ]}));
  removed ← liftR (leftovers cr existing);
  mret (sort_slice later_name removed).

Definition systemDBs : list string := ["local"; "admin"; "config"].
Definition checkIfUserDataExistInRS cr (rsName : string) (port : Z) : M unit :=
  conf ← liftR (wrap_err "failed to set port" (SetPort "" port));
  mc ← wrapM "dial:" (mp_Mongo cr (named_replset rsName conf) RoleClusterAdmin false);
  deferM mp_Disconnect
    (list ← wrapM ("list databases for rs " +:+ rsName) cListDBs;
     match filter (λ db, db ∉ systemDBs) (DBs list) with
     | [] => mret tt
     | db :: _ => throw (ENew ("non system db found: " +:+ db))
     end).

(** One stateful set of the loop of [Reconcile]; [fuel] bounds the calls that
    remove a shard, [None] when it runs out. *)
Definition delete_leftover (fuel : nat) cr (rr : RemovedSts) : M (option unit) :=
  wrapM ("check remove posibility for rs " +:+ rem_rsName rr)
    (checkIfUserDataExistInRS cr (rem_rsName rr) (rem_rsPort rr));;
  ended ← (if bool_decide (sts_label LabelComponent (rem_sts rr) = "mongod") then
             wrapM ("failed to remove rs " +:+ rem_rsName rr) (removeRSFromShard fuel cr (rem_rsName rr))
           else mret (Some tt));
  match ended with
  | None => mret None
  | Some _ =>
      wrapM ("failed to remove rs " +:+ rem_rsName rr) (sts_delete (rem_sts rr));;
      mret (Some tt)
  end.
Fixpoint delete_leftovers (fuel : nat) cr (l : list RemovedSts) : M (option unit) :=
  match l with
  | [] => mret (Some tt)
  | rr :: l' =>
      ended ← delete_leftover fuel cr rr;
      match ended with None => mret None | Some _ => delete_leftovers fuel cr l' end
  end.
Definition remove_replsets (fuel : nat) cr : M (option unit) :=
  stsForDeletion ← getSTSForDeletionWithTheirRSDetails cr;
  delete_leftovers fuel cr stsForDeletion.

(** * Without sharding *)
Definition deleteCfgIfNeeded cr : M unit :=
  if cr_ShardingEnabled cr then mret tt
  else
    upToDate ← wrapM "failed to check is all sfs up to date" (isAllSfsUpToDate cr);
    if negb upToDate then mret tt
    else
      let name := cr_Name cr +:+ "-" +:+ ConfigReplSetName in
      wrapM ("failed to delete sfs: " +:+ name) (DeleteStsIfExists (cr_Namespace cr) name);;
      wrapM ("failed to delete config service: " +:+ name) (DeleteSvcIfExists (cr_Namespace cr) name).

Definition GetMongosServices cr : M (list Service) :=
  wrapM "failed to list mongos services" (svc_list (cr_Namespace cr) (MongosLabels cr)).
Fixpoint delete_services cr (l : list Service) : M unit :=
  match l with
  | [] => mret tt
  | svc :: l' =>
      wrapM "failed to delete mongos services" (ignore_NotFound (svc_delete (cr_Namespace cr) (svc_Name svc)));;
      delete_services cr l'
  end.
Definition deleteMongosIfNeeded cr : M unit :=
  if cr_ShardingEnabled cr then mret tt
  else
    upToDate ← wrapM "failed to check is all sfs up to date" (isAllSfsUpToDate cr);
    if negb upToDate then mret tt
    else
      ss ← wrapM "failed to list mongos services" (GetMongosServices cr);
      delete_services cr ss;;
      wrapM "failed to delete mongos statefulset" (DeleteStsIfExists (cr_Namespace cr) (cr_Name cr +:+ "-mongos")).

(** * The feature compatibility version *)
Definition first_replset cr : result ReplsetSpec :=
  match cr_Replsets cr with rs :: _ => Ok rs | [] => Err index_panic end.
Definition getFCV cr : M string :=
  rs ← liftR (first_replset cr);
  c ← wrapM "failed to get connection" (mp_Mongo cr rs RoleClusterAdmin false);
  deferM mp_Disconnect cGetFCV.
Definition setFCV cr (version : string) : M unit :=
  when bool_decide (version = "") raise ENew "empty version";
  match NewSemver version with
  | None => throw (EWrap (ENew "malformed version") "failed to get go semver")
  | Some v =>
      c ← wrapM "failed to get connection"
        (if cr_ShardingEnabled cr then mp_Mongos cr RoleClusterAdmin
         else rs ← liftR (first_replset cr); mp_Mongo cr rs RoleClusterAdmin false);
      deferM mp_Disconnect (mm ← liftR (MajorMinor v); cSetFCV mm)
  end.
Definition upgradeFCVIfNeeded cr (newFCV : string) : M unit :=
  if negb (ct_SetFCV cr) || bool_decide (newFCV = "") then mret tt
  else
    up ← wrapM "failed to check is all sfs up to date" (isAllSfsUpToDate cr);
    if negb up then mret tt
    else
      match NewSemver newFCV with
      | None => throw (EWrap (ENew "malformed version") "invalid version")
      | Some fcvsv =>
          fcv ← wrapM "failed to get FCV" (getFCV cr);
          mm ← liftR (MajorMinor fcvsv);
          if negb (CanUpgradeVersion fcv mm) then mret tt
          else wrapM "failed to set FCV" (setFCV cr newFCV)
      end.

(** * Claims without a pod *)
(** [strings.CutPrefix] *)
Definition CutPrefix (s p : string) : option string :=
  if has_prefix p s then Some (String.substring (String.length p) (String.length s - String.length p) s) else None.
Definition is_orphan (podNames : list string) (pvc : PersistentVolumeClaim) : bool :=
  match CutPrefix (pvc_Name pvc) (MongodDataVolClaimName +:+ "-") with
  | Some podName => negb (bool_decide (podName ∈ podNames))
  | None => false
  end.
Definition delete_orphans cr : M unit :=
  mongodPVCs ← getMongodPVCs cr;
  mongodPods ← getMongodPods cr;
  delete_each pvc_delete (λ pvc, "failed to delete PVC " +:+ pvc_Name pvc)
    (filter (λ pvc, is_orphan (pod_Name <$> mongodPods) pvc = true) mongodPVCs).
Fixpoint delete_orphans_for cr (finalizers : list string) : M unit :=
  match finalizers with
  | [] => mret tt
  | f :: l => match work_of f with Some DeletePVCs => delete_orphans cr | _ => mret tt end;; delete_orphans_for cr l
  end.
Definition deleteOrphanPVCs cr : M unit := delete_orphans_for cr (ct_Finalizers cr).
End decommission.
