(* ===== verification/DecommissionFacts.v ===== *)
(** Removing what is no longer asked for, proved: a replica set goes only when
    it holds no user data and its shard was drained, its voting members last;
    the feature compatibility version goes up one release at a time; a replica
    set shrinks by one pod at a time. *)
From S2P Require Import Prelude Trace KubeTrace ReplsetModels MongoClient Api GoSort Kube Hosts SystemUsers Cluster.
From S2P Require Import BackupApi BackupExec SmartUpdate Volumes Controller Finalizers Decommission.
From S2P Require SmartTrace FinalizerFacts.

(** * What a removal leaves in the trace *)
Inductive removal :=
| Listed (sets : list StatefulSet)             (* the API listed the stateful sets *)
| Databases (rs : string) (dbs : list string)  (* a replica set listed its databases *)
| Draining (rs : string) (state : string)      (* mongos answered to removeShard *)
| Has (fcv : string)                           (* the feature compatibility version read *)
| Raised (fcv : string)                        (* the one set, tried *)
| SetGone (sts : StatefulSet).                 (* a deletion, tried *)

Section traced.
Context {W : Type} {K : K8sClient W} {P : MongoClientProvider W} {CL : CtlClient W}.
Context {Y : Yaml} {PY : PortYaml} {G : GoSort}.
Abbreviation T := (list removal * W)%type.

Definition removal_client (rs : string) (C : Client W) : Client T := {|
  cSetDefaultRWConcern := λ a b c, quietly (cSetDefaultRWConcern a b c);
  cReadConfig := quietly cReadConfig;
  cCreateRole := λ a b, quietly (cCreateRole a b);
  cUpdateRole := λ a b, quietly (cUpdateRole a b);
  cGetRole := λ a b, quietly (cGetRole a b);
  cCreateUser := λ a b c d, quietly (cCreateUser a b c d);
  cAddShard := λ a b, quietly (cAddShard a b);
  cWriteConfig := λ c f, quietly (cWriteConfig c f);
  cRSStatus := quietly cRSStatus;
  cStartBalancer := quietly cStartBalancer;
  cStopBalancer := quietly cStopBalancer;
  cIsBalancerRunning := quietly cIsBalancerRunning;
  cGetFCV := recorded (λ r, match r with Ok v => [Has v] | Err _ => [] end) cGetFCV;
  cSetFCV := λ a, recorded (λ _, [Raised a]) (cSetFCV a);
  cListDBs := recorded (λ r, match r with Ok l => [Databases rs (DBs l)] | Err _ => [] end) cListDBs;
  cListShard := quietly cListShard;
  cRemoveShard := λ a, recorded (λ r, match r with Ok s => [Draining a (SRR_State s)] | Err _ => [] end) (cRemoveShard a);
  cRSBuildInfo := quietly cRSBuildInfo;
  cStepDown := λ a f, quietly (cStepDown a f);
  cFreeze := λ a, quietly (cFreeze a);
  cIsMaster := quietly cIsMaster;
  cGetUserInfo := λ a b, quietly (cGetUserInfo a b);
  cUpdateUserRoles := λ a b c, quietly (cUpdateUserRoles a b c);
  cUpdateUserPass := λ a b c, quietly (cUpdateUserPass a b c);
  cUpdateUser := λ a b c, quietly (cUpdateUser a b c);
  cRunCommand := λ a b, quietly (cRunCommand a b)
|}.
Definition reached (rs : string) (m : GoM W (Client W)) : GoM T (Client T) :=
  C ← quietly m; mret (removal_client rs C).
Definition removal_provider : MongoClientProvider T := {|
  mp_Mongo := λ a rs c d, reached (rs_Name rs) (mp_Mongo a rs c d);
  mp_Mongos := λ a b, reached "" (mp_Mongos a b);
  mp_Standalone := λ a b h d, reached "" (mp_Standalone a b h d);
  mp_Disconnect := quietly mp_Disconnect
|}.
Definition removal_k8s : K8sClient T := {|
  k8s_get_service := λ a b, quietly (k8s_get_service a b);
  k8s_get_node_labels := λ a, quietly (k8s_get_node_labels a);
  k8s_get_service_import := λ a b, quietly (k8s_get_service_import a b);
  k8s_list_service_exports := λ a b, quietly (k8s_list_service_exports a b);
  k8s_get_sts := λ a b, quietly (k8s_get_sts a b);
  k8s_get_secret := λ a b, quietly (k8s_get_secret a b);
  k8s_list_sts := λ a b, recorded (λ r, match r with Ok l => [Listed l] | Err _ => [] end) (k8s_list_sts a b);
  k8s_list_pods := λ a b, quietly (k8s_list_pods a b);
  go_sleep := λ z, quietly (go_sleep z);
  go_tick := quietly go_tick
|}.
Definition removal_ctl : CtlClient T := {|
  ctl_update := λ c, quietly (ctl_update c);
  ctl_patch := λ a b, quietly (ctl_patch a b);
  sts_delete := λ s, recorded (λ _, [SetGone s]) (sts_delete s);
  secret_delete := λ a b, quietly (secret_delete a b);
  svc_list := λ a b, quietly (svc_list a b);
  svc_delete := λ a b, quietly (svc_delete a b);
  configmap_delete := λ a b, quietly (configmap_delete a b)
|}.
Local Existing Instances removal_provider removal_k8s removal_ctl.
Abbreviation M := (GoM T).

Definition no_set_gone (d : list removal) : Prop := ∀ s, SetGone s ∉ d.
Definition system_only (dbs : list string) : Prop := Forall (λ db, db ∈ systemDBs) dbs.
Definition draining (rs : string) (e : removal) : Prop := ∃ st, e = Draining rs st.

Lemma no_gone_nil : no_set_gone [].
Proof. intros s. apply not_elem_of_nil. Qed.
Lemma no_gone_Forall d : Forall (λ e, ∀ s, e ≠ SetGone s) d → no_set_gone d.
Proof. intros Hd s Hin. by eapply (proj1 (Forall_forall _ _) Hd _ Hin). Qed.
Hint Resolve no_gone_nil : core.
Lemma reached_emits rs (m : GoM W (Client W)) :
  emits (reached rs m) (λ r d, d = [] ∧ match r with Ok C => ∃ C0, C = removal_client rs C0 | Err _ => True end).
Proof.
  unfold reached. apply emits_quiet_bind; [apply quiet_quietly| |done]. intros C. apply emits_ret. by eauto.
Qed.
(** A step that leaves nothing and gives a client. *)
Lemma reached_bind {B} rs msg (m : GoM W (Client W)) (f : Client T → GoM T B) (Q : result B → list removal → Prop) :
  (∀ C, emits (f (removal_client rs C)) Q) → (∀ e, Q (Err e) []) → emits (wrapM msg (reached rs m) ≫= f) Q.
Proof.
  intros Hf He. eapply emits_wrap_bind; [apply reached_emits| |by intros e d [-> _]].
  intros ? d [-> [C ->]]. apply Hf.
Qed.

Lemma check_emits cr rs port :
  emits (checkIfUserDataExistInRS cr rs port : M unit) (λ r d,
    no_set_gone d ∧ (r = Ok tt → ∃ dbs, d = [Databases rs dbs] ∧ system_only dbs)).
Proof.
  unfold checkIfUserDataExistInRS. apply emits_quiet_bind; [apply quiet_lift| |done]. intros conf.
  cbn [mp_Mongo removal_provider rs_Name named_replset]. apply reached_bind; [|done]. intros C.
  apply emits_defer; [apply quiet_quietly|]. cbn [cListDBs removal_client].
  eapply emits_wrap_bind; [apply emits_recorded| |by intros e d ->].
  intros l d ->. destruct (filter _ (DBs l)) as [|db ?] eqn:El.
  - apply emits_ret. split; [apply no_gone_Forall; by constructor|]. intros _. exists (DBs l). split; [done|].
    apply Forall_forall. intros db Hdb. apply dec_stable. intros Hn.
    apply (not_elem_of_nil db). rewrite <- El. by apply list_elem_of_filter.
  - apply emits_throw. split; [|done]. apply no_gone_Forall. by constructor.
Qed.

(** Mongos says that the shard is gone, last. *)
Definition drained (rs : string) (d : list removal) : Prop := last d = Some (Draining rs ShardRemoveCompleted).
Lemma remove_loop_emits fuel C rs :
  emits (removeShard_loop fuel (removal_client "" C) rs : M (option unit)) (λ r d,
    Forall (draining rs) d ∧ (r = Ok (Some tt) → drained rs d)).
Proof.
  induction fuel as [|fuel IH]; cbn [removeShard_loop]; [by apply emits_ret|]. cbn [cRemoveShard removal_client].
  eapply emits_wrap_bind; [apply emits_recorded| |by intros e d ->]. intros resp d ->.
  case_bool_decide as Hs.
  - apply emits_ret. rewrite Hs. split; [|done]. constructor; [by eexists|done].
  - apply emits_quiet_bind; [apply quiet_quietly| |]; intros.
    + eapply emits_conseq; [apply IH|]. intros r d [Hd Hr]. split; [constructor; [by eexists|done]|].
      intros Hok. specialize (Hr Hok). unfold drained in *. cbn [app]. by rewrite last_cons, Hr.
    + split; [|done]. constructor; [by eexists|done].
Qed.
Lemma remove_emits fuel (cr : CtlCluster) rs :
  emits (removeRSFromShard fuel cr rs : M (option unit)) (λ r d,
    Forall (draining rs) d ∧ (r = Ok (Some tt) → cr_ShardingEnabled cr = true → drained rs d)).
Proof.
  unfold removeRSFromShard. destruct (cr_ShardingEnabled cr); cbn [negb]; [|by apply emits_ret].
  cbn [mp_Mongos removal_provider].
  eapply emits_bind with (Q1 := λ r d, d = [] ∧ match r with Ok (Ok C) => ∃ C0, C = removal_client "" C0 | _ => True end).
  - apply emits_try. eapply emits_conseq; [apply reached_emits|]. by intros [C|e] d [-> H].
  - intros [C|e] d [-> H]; [|by apply emits_throw]. destruct H as [C0 ->].
    apply emits_defer; [apply quiet_quietly|]. eapply emits_conseq; [apply remove_loop_emits|].
    intros r d [Hd Hr]. split; [done|]. auto.
  - intros e d [-> _]. done.
Qed.

(** What stands before a deletion *)
Definition block (cr : CtlCluster) (rr : RemovedSts) (d : list removal) : Prop :=
  ∃ dbs drains, d = Databases (rem_rsName rr) dbs :: drains ++ [SetGone (rem_sts rr)] ∧ system_only dbs ∧
    Forall (draining (rem_rsName rr)) drains ∧
    (sts_label LabelComponent (rem_sts rr) = "mongod" → cr_ShardingEnabled cr = true → drained (rem_rsName rr) drains).
Lemma delete_leftover_emits fuel cr rr :
  emits (delete_leftover fuel cr rr : M (option unit)) (λ r d,
    no_set_gone d ∧ r ≠ Ok (Some tt) ∨ block cr rr d).
Proof.
  unfold delete_leftover. eapply emits_wrap_bind; [apply check_emits| |by intros e d [Hd _]; left].
  intros [] d [_ Hd]. destruct (Hd eq_refl) as (dbs & -> & Hsys). clear Hd.
  eapply emits_bind with (Q1 := λ r d, Forall (draining (rem_rsName rr)) d ∧ (r = Ok (Some tt) →
    sts_label LabelComponent (rem_sts rr) = "mongod" → cr_ShardingEnabled cr = true → drained (rem_rsName rr) d)).
  - case_bool_decide as Hc; [|by apply emits_ret].
    apply emits_wrap. eapply emits_conseq; [apply remove_emits|]. intros r d [Hd Hr]. split; [done|].
    intros Hok _. apply Hr. by destruct r.
  - assert (∀ d, Forall (draining (rem_rsName rr)) d → no_set_gone ([Databases (rem_rsName rr) dbs] ++ d)) as Hn.
    { intros d Hd. apply no_gone_Forall. constructor; [done|]. eapply Forall_impl; [exact Hd|]. by intros ? [? ->]. }
    intros [[]|] d [Hd Hr].
    + assert (block cr rr ([Databases (rem_rsName rr) dbs] ++ d ++ [SetGone (rem_sts rr)])) as Hb.
      { exists dbs, d. split_and!; auto. }
      cbn [sts_delete removal_ctl]. eapply emits_wrap_bind; [apply emits_recorded| |].
      * intros [] ? ->. apply emits_ret. right. by rewrite app_nil_r.
      * intros e ? ->. by right.
    + apply emits_ret. left. rewrite app_nil_r. split; [by apply Hn|done].
  - intros e d [Hd _]. left. split; [|done]. apply no_gone_Forall. constructor; [done|].
    eapply Forall_impl; [exact Hd|]. by intros ? [? ->].
Qed.
(** The blocks of the first ones, and then an attempt that deleted nothing *)
Definition blocks (cr : CtlCluster) (l : list RemovedSts) (d : list removal) : Prop :=
  ∃ done bs rest, done `prefix_of` l ∧ d = concat bs ++ rest ∧ Forall2 (block cr) done bs ∧ no_set_gone rest.
Lemma delete_leftovers_emits fuel cr l : emits (delete_leftovers fuel cr l : M (option unit)) (λ _ d, blocks cr l d).
Proof.
  induction l as [|rr l IH]; cbn [delete_leftovers].
  { apply emits_ret. exists [], [], []. by split_and!. }
  assert (∀ d, block cr rr d → blocks cr (rr :: l) d) as Hone.
  { intros d Hb. exists [rr], [d], []. split_and!; [by apply prefix_cons, prefix_nil| |by repeat constructor|done].
    cbn. by rewrite !app_nil_r. }
  assert (∀ d, no_set_gone d → blocks cr (rr :: l) d) as Hnone.
  { intros d Hn. exists [], [], d. split_and!; [apply prefix_nil|done|constructor|done]. }
  eapply emits_bind; [apply delete_leftover_emits| |].
  - intros [[]|] d Hd; [|by apply emits_ret; rewrite app_nil_r; destruct Hd as [[? _]|]; auto].
    destruct Hd as [[_ []]|Hb]; [done|]. eapply emits_conseq; [exact IH|].
    intros _ d' (dn & bs & rest & Hp & -> & HF & Hr). exists (rr :: dn), (d :: bs), rest.
    split_and!; [by apply prefix_cons|by cbn; rewrite app_assoc|by constructor|done].
  - intros e d [[Hn _]|Hb]; auto.
Qed.

(** Where a deletion stands in such a trace *)
Lemma gone_in_block cr rr b d1 s d2 X :
  block cr rr b → b ++ X = d1 ++ SetGone s :: d2 →
  (s = rem_sts rr ∧ b = d1 ++ [SetGone s]) ∨ ∃ d1', d1 = b ++ d1' ∧ X = d1' ++ SetGone s :: d2.
Proof.
  intros (dbs & drains & -> & _ & Hd & _) H. apply app_eq_inv in H as [(k & Hb & Hk)|(k & -> & HX)]; [|right; by eauto].
  destruct k as [|x k]; [right; exists []; rewrite app_nil_r in *; done|]. injection Hk as <- _. left.
  assert (∀ l k', drains ++ [SetGone (rem_sts rr)] = l ++ SetGone s :: k' → s = rem_sts rr ∧ k' = []) as Hlast.
  { clear -Hd. induction Hd as [|e drains [st ->] Hd IH]; intros l k'; cbn [app].
    - destruct l as [|? [|]]; cbn [app]; try done. by intros [= <- <-].
    - destruct l as [|? l]; cbn [app]; [done|]. intros [= _ H]. by eapply IH. }
  destruct d1 as [|x d1]; cbn [app] in Hb; [done|]. injection Hb as <- Hb.
  destruct (Hlast _ _ Hb) as [-> ->]. split; [done|]. by rewrite Hb.
Qed.
Lemma gone_in_blocks cr dn bs rest d1 s d2 :
  Forall2 (block cr) dn bs → no_set_gone rest → concat bs ++ rest = d1 ++ SetGone s :: d2 →
  ∃ k rr b, dn !! k = Some rr ∧ rem_sts rr = s ∧ block cr rr (b ++ [SetGone s]) ∧ d1 = concat (take k bs) ++ b.
Proof.
  intros HF Hr. revert d1. induction HF as [|rr b dn bs Hb HF IH]; intros d1 H; cbn [concat app] in H.
  - destruct (Hr s). rewrite H. set_solver.
  - rewrite <- app_assoc in H. destruct (gone_in_block _ _ _ _ _ _ _ Hb H) as [[-> ->]|(d1' & -> & HX)].
    + exists 0, rr, d1. by split_and!.
    + destruct (IH _ HX) as (k & rr' & b' & Hk & Hs & Hb' & ->). exists (S k), rr', b'. cbn [lookup take concat].
      by rewrite app_assoc.
Qed.
Lemma block_gone cr rr b : block cr rr b → SetGone (rem_sts rr) ∈ b.
Proof. intros (dbs & drains & -> & _). set_solver. Qed.
Lemma Forall2_take_in cr dn bs k j rr :
  Forall2 (block cr) dn bs → dn !! j = Some rr → j < k → SetGone (rem_sts rr) ∈ concat (take k bs).
Proof.
  intros HF Hj Hk. destruct (Forall2_lookup_l _ _ _ _ _ HF Hj) as (b & Hb & Hblock).
  assert (b ∈ take k bs) as Hin by (apply list_elem_of_lookup; exists j; by rewrite lookup_take_lt).
  apply block_gone in Hblock. clear -Hin Hblock. induction Hin; cbn [concat]; set_solver.
Qed.
End traced.

(** * The sets that are left over *)
Lemma leftovers_spec cr l rem : leftovers cr l = Ok rem →
  rem_sts <$> rem = filter (λ s, is_leftover cr s = true) l ∧
  Forall (λ r, rem_rsName r = sts_label LabelReplset (rem_sts r)) rem.
Proof.
  revert rem. induction l as [|s l IH]; intros rem; cbn [leftovers]; [by intros [= <-]|].
  destruct (is_leftover cr s) eqn:Es; cbn [negb].
  - destruct (getComponentPortFromSTS _ _) as [port|e]; [|done].
    destruct (leftovers cr l) as [rem'|e]; [|done]. intros [= <-]. destruct (IH _ eq_refl) as [Hf Hn].
    rewrite filter_cons_True by done. rewrite fmap_cons, Hf. split; [done|]. by constructor.
  - intros H. rewrite filter_cons_False by congruence. by apply IH.
Qed.
Lemma later_name_strict : strict_weak later_name.
Proof.
  pose proof (by_name_strict (λ r, sts_Name (rem_sts r))) as [Ha Hn]. unfold later_name.
  split; [intros x y; apply Ha|]. intros x y z Hxy Hyz. by apply (Hn z y x).
Qed.
Lemma ltb_extension s suf : suf ≠ "" → String.ltb s (s +:+ suf) = true.
Proof.
  intros Hs. apply ltb_true. induction s as [|a s IH].
  - destruct suf; [done|]. constructor.
  - rewrite str_app_cons. by constructor.
Qed.
Lemma longer_name_first `{GoSortLaws} l i j a b suf :
  sort_slice later_name l !! i = Some a → sort_slice later_name l !! j = Some b →
  sts_Name (rem_sts a) = sts_Name (rem_sts b) +:+ suf → suf ≠ "" → i < j.
Proof.
  intros Hi Hj Hn Hs.
  assert (later_name a b = true) as Hlt by (unfold later_name; rewrite Hn; by apply ltb_extension).
  destruct (Nat.lt_trichotomy i j) as [|[->|Hij]]; [done| |].
  - rewrite Hi in Hj. injection Hj as ->. by rewrite (less_asym _ later_name_strict _ _ Hlt) in Hlt.
  - set (k := sort_slice later_name l) in *.
    assert (later_name a b = false) as Hf; [|by rewrite Hf in Hlt].
    apply (go_sorted_split later_name (take i k) (drop i k) b a later_name_strict).
    + rewrite take_drop. apply sort_sorted, later_name_strict.
    + apply list_elem_of_lookup. exists j. by rewrite lookup_take_lt.
    + apply list_elem_of_lookup. exists 0. by rewrite lookup_drop, Nat.add_0_r.
Qed.

(** * The upgrade path *)
Lemma can_upgrade_path fcv target : CanUpgradeVersion fcv target = true ↔ (fcv, target) ∈ upgrade_path.
Proof.
  unfold CanUpgradeVersion. split.
  - destruct (negb _); [done|]. destruct (list_find _ _) as [[i [f next]]|] eqn:El; [|done].
    apply list_find_Some in El as (Hi & Hf & _). cbn in Hf. subst f.
    intros ->%bool_decide_eq_true. by eapply list_elem_of_lookup_2.
  - intros H. apply list_elem_of_In in H. repeat destruct H as [[= <- <-]|H]; by vm_compute.
Qed.

(** * Removing replica sets *)
Section removal.
Context {W : Type} {K : K8sClient W} {P : MongoClientProvider W} {CL : CtlClient W}.
Context {Y : Yaml} {PY : PortYaml} {G : GoSort} {GL : GoSortLaws G}.

(** What has happened when a deletion is tried *)
Definition may_go (cr : CtlCluster) (s : StatefulSet) (d1 : list removal) : Prop :=
  ∃ sets d0 dbs drains,
    d1 = Listed sets :: d0 ++ Databases (sts_label LabelReplset s) dbs :: drains ∧
    s ∈ sets ∧ is_leftover cr s = true ∧ system_only dbs ∧ Forall (draining (sts_label LabelReplset s)) drains ∧
    (sts_label LabelComponent s = "mongod" → cr_ShardingEnabled cr = true → drained (sts_label LabelReplset s) drains) ∧
    ∀ a suf, a ∈ sets → is_leftover cr a = true → sts_Name a = sts_Name s +:+ suf → suf ≠ "" → SetGone a ∈ d1.

(** C23: a stateful set is only deleted when the API listed it, its replica set is
    not in the specification and it is neither mongos nor the config servers;
    when its replica set has just listed no databases but those of the system;
    for the voting members of a sharded cluster, when mongos has since said that
    the shard is gone; and after the sets of the same replica set whose names
    extend its own. *)
Theorem remove_replsets_safe fuel (cr : CtlCluster) t (w : W) :
  ∃ d, (remove_replsets (K := removal_k8s) (P := removal_provider) (CL := removal_ctl) fuel cr (t, w)).2.1 = t ++ d ∧
    ∀ d1 s d2, d = d1 ++ SetGone s :: d2 → may_go cr s d1.
Proof.
  revert t w. change (emits (remove_replsets (K := removal_k8s) (P := removal_provider) (CL := removal_ctl) fuel cr
    : GoM (list removal * W) _) (λ _ d, ∀ d1 s d2, d = d1 ++ SetGone s :: d2 → may_go cr s d1)).
  assert (∀ d, no_set_gone d → ∀ d1 s d2, d = d1 ++ SetGone s :: d2 → may_go cr s d1) as Hnone.
  { intros d Hd d1 s d2 ->. destruct (Hd s). set_solver. }
  unfold remove_replsets, getSTSForDeletionWithTheirRSDetails.
  eapply emits_bind with (Q1 := λ r d, match r with
    | Ok l => ∃ sets rem, d = [Listed sets] ∧ leftovers cr sets = Ok rem ∧ l = sort_slice later_name rem
    | Err _ => no_set_gone d end); [|intros l d (sets & rem & -> & Hrem & ->)|intros e d Hd; by apply Hnone].
  - eapply emits_wrap_bind; [apply emits_recorded| |intros e d ->; apply no_gone_nil]. intros sets d ->.
    eapply emits_bind with (Q1 := λ r d, d = [] ∧ r = leftovers cr sets).
    + intros t w. exists []. by rewrite app_nil_r.
    + intros rem d [-> Hr]. apply emits_ret. exists sets, rem. by rewrite <- Hr.
    + intros e d [-> _]. apply no_gone_Forall. by constructor.
  - eapply emits_conseq; [apply delete_leftovers_emits|].
    intros _ d (dn & bs & rest & Hp & -> & HF & Hr) d1 s d2 Hd.
    destruct (leftovers_spec _ _ _ Hrem) as [Hsets Hnames].
    destruct d1 as [|x d1]; [done|]. cbn [app] in Hd. injection Hd as <- Hd.
    destruct (gone_in_blocks _ _ _ _ _ _ _ HF Hr Hd) as (k & rr & b & Hk & <- & Hb & ->).
    pose proof (prefix_lookup_Some _ _ _ _ Hk Hp) as Hk'.
    assert (rr ∈ rem) as Hrr by (rewrite <- (sort_perm later_name rem); by eapply list_elem_of_lookup_2).
    assert (rem_rsName rr = sts_label LabelReplset (rem_sts rr)) as Hn by (by eapply Forall_forall in Hnames).
    assert (∀ a, a ∈ sets → is_leftover cr a = true → ∃ ra, rem_sts ra = a ∧ ra ∈ rem) as Hall.
    { intros a Ha Hl. assert (a ∈ rem_sts <$> rem) as Hin by (rewrite Hsets; by apply list_elem_of_filter).
      apply list_elem_of_fmap in Hin as (ra & -> & ?). by exists ra. }
    assert (rem_sts rr ∈ filter (λ s, is_leftover cr s = true) sets) as Hin
      by (rewrite <- Hsets; by apply list_elem_of_fmap_2).
    apply list_elem_of_filter in Hin as [Hleft Hin].
    destruct Hb as (dbs & drains & Hb & Hsys & Hdr & Hend). rewrite Hn in *.
    rewrite app_comm_cons in Hb. apply app_inj_tail in Hb as [-> _].
    exists sets, (concat (take k bs)), dbs, drains. split_and!; try done.
    intros a suf Ha Hl Hname Hsuf. destruct (Hall a Ha Hl) as (ra & <- & Hra).
    assert (ra ∈ sort_slice later_name rem) as Hra' by by rewrite sort_perm.
    apply list_elem_of_lookup in Hra' as [j Hj]. pose proof (longer_name_first _ _ _ _ _ _ Hj Hk' Hname Hsuf) as Hlt.
    assert (dn !! j = Some ra) as Hjd.
    { destruct Hp as [l' Hp]. rewrite Hp in Hj. rewrite lookup_app_l in Hj; [done|].
      apply lookup_lt_Some in Hk. lia. }
    apply elem_of_cons. right. apply elem_of_app. left. by eapply Forall2_take_in.
Qed.

(** ** The feature compatibility version *)
Ltac raises_nothing := repeat (apply Forall_cons; split; [done|]); apply Forall_nil.
Context {SV : Semver}.
Local Existing Instances removal_provider removal_k8s.
Abbreviation M := (GoM (list removal * W)).

Definition updated (s : StatefulSet) : Prop := (sts_Replicas s ≤ sts_UpdatedReplicas s)%Z.
Lemma up_to_date_emits (cr : SmartCluster) :
  emits (isAllSfsUpToDate cr : M bool) (λ r d,
    r = Ok true ∧ (∃ sets, d = [Listed sets] ∧ Forall updated sets) ∨ r ≠ Ok true ∧ Forall (λ e, ∀ v, e ≠ Raised v) d).
Proof.
  unfold isAllSfsUpToDate. eapply emits_wrap_bind; [apply emits_recorded| |intros e d ->; right; split; [done|constructor]].
  intros sets d ->.
  assert (emits (isStsListUpToDate cr sets : M bool) (λ r d, d = [] ∧ (r = Ok true → Forall updated sets))) as Hl.
  { induction sets as [|s sets IH]; cbn [isStsListUpToDate]; [by apply emits_ret|].
    apply emits_quiet_bind; [apply quiet_try, quiet_quietly| |done]. intros [pods|e]; [|by apply emits_throw].
    destruct (_ <? _)%Z eqn:Eu; cbn [orb]; [by apply emits_ret|]. case_match; [by apply emits_ret|].
    eapply emits_conseq; [exact IH|]. intros r d [-> Hr]. split; [done|]. intros Hok. constructor; [|auto].
    apply Z.ltb_ge in Eu. exact Eu. }
  eapply emits_conseq; [exact Hl|]. intros r d [-> Hr]. destruct (decide (r = Ok true)) as [->|Hn].
  - left. split; [done|]. exists sets. split; [done|auto].
  - right. split; [done|]. by raises_nothing.
Qed.
Lemma getFCV_emits (cr : CtlCluster) :
  emits (getFCV cr : M string) (λ r d, match r with Ok v => d = [Has v] | Err _ => d = [] end).
Proof.
  unfold getFCV. apply emits_quiet_bind; [apply quiet_lift| |done]. intros rs. apply reached_bind; [|done]. intros C.
  apply emits_defer; [apply quiet_quietly|]. eapply emits_conseq; [apply emits_recorded|]. by intros [] d ->.
Qed.
Lemma setFCV_emits (cr : CtlCluster) version v mm :
  NewSemver version = Some v → MajorMinor v = Ok mm →
  emits (setFCV cr version : M unit) (λ _ d, d = [] ∨ d = [Raised mm]).
Proof.
  intros Hv Hmm. unfold setFCV. case_bool_decide; [apply emits_throw; by left|]. rewrite Hv.
  assert (∀ rs (C : Client W), emits (deferM (mp_Disconnect (MongoClientProvider := removal_provider))
    (liftR (MajorMinor v) ≫= λ mm, cSetFCV (Client := removal_client rs C) mm) : M unit) (λ _ d, d = [] ∨ d = [Raised mm])) as Hset.
  { intros rs C. apply emits_defer; [apply quiet_quietly|]. rewrite Hmm.
    apply (emits_conseq _ (λ _ d, d = [Raised mm])); [apply emits_recorded|by right]. }
  eapply emits_wrap_bind with (Q1 := λ r d, d = [] ∧ match r with Ok C => ∃ rs C0, C = removal_client rs C0 | Err _ => True end).
  - destruct (cr_ShardingEnabled cr); [eapply emits_conseq; [apply reached_emits|]; intros [C|e] d [-> Hr]; naive_solver|].
    apply emits_quiet_bind; [apply quiet_lift| |done]. intros rs.
    eapply emits_conseq; [apply reached_emits|]; intros [C|e] d [-> Hr]; naive_solver.
  - intros ? d [-> (rs & C & ->)]. apply Hset.
  - intros e d [-> _]. by left.
Qed.

(** C25: the feature compatibility version is only raised where the cluster asks
    for it, once every stateful set has been seen up to date, and by exactly one
    release of the upgrade path from the version just read. *)
Theorem upgradeFCV_one_release (cr : CtlCluster) newFCV t (w : W) :
  ∃ d, (upgradeFCVIfNeeded (K := removal_k8s) (P := removal_provider) cr newFCV (t, w)).2.1 = t ++ d ∧
    ∀ d1 v d2, d = d1 ++ Raised v :: d2 →
      ct_SetFCV cr = true ∧ d2 = [] ∧
      ∃ sets fcv, d1 = [Listed sets; Has fcv] ∧ Forall updated sets ∧ (fcv, v) ∈ upgrade_path.
Proof.
  revert t w. change (emits (upgradeFCVIfNeeded (K := removal_k8s) (P := removal_provider) cr newFCV : M unit)
    (λ _ d, ∀ d1 v d2, d = d1 ++ Raised v :: d2 → ct_SetFCV cr = true ∧ d2 = [] ∧
      ∃ sets fcv, d1 = [Listed sets; Has fcv] ∧ Forall updated sets ∧ (fcv, v) ∈ upgrade_path)).
  assert (∀ d, Forall (λ e, ∀ v, e ≠ Raised v) d → ∀ d1 v d2 (Q : Prop), d = d1 ++ Raised v :: d2 → Q) as Hnone.
  { intros d Hd d1 v d2 Q' ->. rewrite Forall_app, Forall_cons in Hd. destruct Hd as (_ & Hv & _). by destruct (Hv v). }
  unfold upgradeFCVIfNeeded. destruct (ct_SetFCV cr); cbn [negb orb]; [|apply emits_ret; by destruct d1].
  case_bool_decide; [apply emits_ret; by destruct d1|].
  eapply emits_wrap_bind; [apply up_to_date_emits| |].
  2:{ intros e d [[? _]|[_ Hd]] d1 v d2; [done|]. by apply Hnone. }
  intros up d [[[= ->] (sets & -> & Hsets)]|[Hup Hd]]; cbn [negb].
  2:{ destruct up; [done|]. apply emits_ret. intros d1 v d2. rewrite app_nil_r. by apply Hnone. }
  assert (∀ e, Forall (λ e, ∀ v, e ≠ Raised v) [Listed sets; Has e]) as Hn by (intros; by raises_nothing).
  destruct (NewSemver newFCV) as [segs|] eqn:Ev.
  2:{ apply emits_throw. intros d1 v d2. apply Hnone. by raises_nothing. }
  eapply emits_wrap_bind; [apply getFCV_emits| |intros e d -> d1 v d2; apply Hnone; by raises_nothing].
  intros fcv d ->.
  eapply emits_bind with (Q1 := λ r d, d = [] ∧ r = MajorMinor segs); [intros t w; exists []; by rewrite app_nil_r| |].
  2:{ intros e d [-> _] d1 v d2. apply Hnone, Hn. }
  intros mm d [-> Hmm]. destruct (CanUpgradeVersion fcv mm) eqn:Ecan; cbn [negb].
  2:{ apply emits_ret. intros d1 v d2. apply Hnone, Hn. }
  apply emits_wrap. eapply emits_conseq; [by apply (setFCV_emits cr newFCV segs mm)|].
  intros r d [->| ->] d1 v d2 Hd; [by eapply Hnone in Hd; [exact Hd|apply Hn]|].
  split; [done|]. destruct d1 as [|? [|? [|? [|]]]]; cbn in Hd; try done. injection Hd as <- <- <- <-.
  split; [done|]. exists sets, fcv. split_and!; [done..|]. by apply can_upgrade_path.
Qed.
End removal.

(** * A shard that is taken out of the specification *)
Definition a_set (name component replset : string) : StatefulSet :=
  {| sts_Name := name; sts_Labels := {[ LabelComponent := component; LabelReplset := replset ]}; sts_Annotations := ∅;
     sts_Generation := 1; sts_Controller := None; sts_Deleting := false; sts_SpecReplicas := Some 3%Z;
     sts_Selector := None; sts_TemplateLabels := ∅; sts_TemplateAnnotations := ∅; sts_TemplateInitContainers := [];
     sts_TemplateContainers := [{| ctr_Name := "mongod"; ctr_Image := ""; ctr_Ports := [27017%Z];
                                   ctr_Resources := noResources |}];
     sts_UpdateRevision := ""; sts_ObservedGeneration := 1; sts_Replicas := 3; sts_ReadyReplicas := 3;
     sts_UpdatedReplicas := 3 |}.
Section demo.
Local Existing Instances emptyYaml insertion_GoSort.
Local Instance demo_port_yaml : PortYaml := itoa.
Local Instance demo_semver : Semver := λ s, if bool_decide (s = "8.0.4-1") then Some [8%Z; 0%Z; 4%Z] else None.
Local Instance four_sets : K8sClient unit :=
  let base := emptyK8s unit in
  {| k8s_get_service := k8s_get_service (K8sClient := base);
     k8s_get_node_labels := k8s_get_node_labels (K8sClient := base);
     k8s_get_service_import := k8s_get_service_import (K8sClient := base);
     k8s_list_service_exports := k8s_list_service_exports (K8sClient := base);
     k8s_get_sts := k8s_get_sts (K8sClient := base);
     k8s_get_secret := k8s_get_secret (K8sClient := base);
     k8s_list_sts := λ _ _, mret [a_set "c-rs0" "mongod" "rs0"; a_set "c-rs1" "mongod" "rs1";
                                  a_set "c-rs1-arbiter" "arbiter" "rs1"; a_set "c-cfg" "cfg" "cfg"];
     k8s_list_pods := k8s_list_pods (K8sClient := base);
     go_sleep := go_sleep (K8sClient := base); go_tick := go_tick (K8sClient := base) |}.
Local Instance demo_ctl : CtlClient unit := {|
  ctl_update := λ _, mret tt; ctl_patch := λ _ c, mret c; sts_delete := λ _, mret tt; secret_delete := λ _ _, mret tt;
  svc_list := λ _ _, mret []; svc_delete := λ _ _, mret tt; configmap_delete := λ _ _, mret tt |}.
Local Instance demo_prov : MongoClientProvider unit := SmartTrace.primary_is "".
Definition rem_cluster : CtlCluster :=
  let c := FinalizerFacts.dying [] 1 [a_replset "rs0" 3] in
  {| ct_sc := ct_sc c; ct_Finalizers := []; ct_SearchSize := 0; ct_SetFCV := true |}.
Definition rem_run : result (option unit) * (list removal * unit) :=
  remove_replsets (K := removal_k8s) (P := removal_provider) (CL := removal_ctl) 1 rem_cluster ([], tt).
Definition removal_name (e : removal) : string :=
  match e with
  | Listed _ => "listed" | Databases rs _ => "databases of " +:+ rs | Draining rs st => rs +:+ " " +:+ st
  | Has v => v | Raised v => "to " +:+ v | SetGone s => "deleted " +:+ sts_Name s
  end.
Example removal_trace : rem_run.1 = Ok (Some tt) ∧ removal_name <$> rem_run.2.1 =
  ["listed"; "databases of rs1"; "deleted c-rs1-arbiter"; "databases of rs1"; "rs1 completed"; "deleted c-rs1"].
Proof. vm_compute. split; reflexivity. Qed.
Lemma remove_replsets_safe_witness : ∃ d1, rem_run.2.1 = d1 ++ [SetGone (a_set "c-rs1" "mongod" "rs1")] ∧
  may_go rem_cluster (a_set "c-rs1" "mongod" "rs1") d1.
Proof.
  destruct (remove_replsets_safe 1 rem_cluster [] tt) as (d & Hd & Hsafe).
  assert (rem_run.2.1 = d) as Ed by exact Hd.
  assert (rem_run.2.1 = take 5 rem_run.2.1 ++ [SetGone (a_set "c-rs1" "mongod" "rs1")]) as Et by (vm_compute; reflexivity).
  exists (take 5 rem_run.2.1). split; [exact Et|]. apply (Hsafe _ _ []). rewrite <- Ed. exact Et.
Defined.

Definition fcv_run : result unit * (list removal * unit) :=
  upgradeFCVIfNeeded (K := removal_k8s) (P := removal_provider) rem_cluster "8.0.4-1" ([], tt).
Lemma upgradeFCV_one_release_witness : fcv_run.1 = Ok tt ∧
  ∃ sets fcv, fcv_run.2.1 = [Listed sets; Has fcv; Raised "8.0"] ∧ Forall updated sets ∧ (fcv, "8.0") ∈ upgrade_path.
Proof.
  split; [vm_compute; reflexivity|].
  destruct (upgradeFCV_one_release rem_cluster "8.0.4-1" [] tt) as (d & Hd & Hone).
  assert (fcv_run.2.1 = d) as Ed by exact Hd.
  assert (fcv_run.2.1 = take 2 fcv_run.2.1 ++ [Raised "8.0"]) as Et by (vm_compute; reflexivity).
  destruct (Hone (take 2 fcv_run.2.1) "8.0" []) as (_ & _ & sets & fcv & Ht & Hs & Hp).
  - rewrite <- Ed. exact Et.
  - exists sets, fcv. split; [rewrite Et, Ht; reflexivity|]. split; [exact Hs|exact Hp].
Defined.
End demo.
