(* ===== verification/Pause.v ===== *)
(** Pausing a cluster, switching sharding on and off, and shrinking replica
    sets pod by pod: the start of [Reconcile] in
    pkg/controller/perconaservermongodb/psmdb_controller.go.

    The handlers run over the cluster in memory and the world.
    [CheckNSetDefaults], which they call again after they have changed the
    specification, is modelled on the whole specification in Defaults; here it
    is an operation on the cluster of the controller. *)
From S2P Require Import Prelude ReplsetModels MongoClient Api GoSort Kube Hosts SystemUsers Cluster.
From S2P Require Import BackupApi BackupSchedule BackupExec SmartUpdate Volumes Status Controller Finalizers.

Definition AppStateSharding : string := "sharding".
Definition ConditionFalse : string := "False".
Definition operatorVersion : string := "1.24.0".
Definition errShardingConditionNotInCache : error := ENew "sharding condition is not in the cache yet".

Class CheckDefaults := check_defaults : CtlCluster → result unit * CtlCluster.

Definition set_BackupConfigHash (h : string) (s : ClusterStatus) : ClusterStatus :=
  {| st_State := st_State s; st_MongoVersion := st_MongoVersion s; st_MongoImage := st_MongoImage s;
     st_Message := st_Message s; st_Conditions := st_Conditions s; st_Replsets := st_Replsets s;
     st_Mongos := st_Mongos s; st_ObservedGeneration := st_ObservedGeneration s;
     st_BackupVersion := st_BackupVersion s; st_BackupImage := st_BackupImage s;
     st_BackupConfigHash := h; st_Host := st_Host s; st_Size := st_Size s;
     st_Ready := st_Ready s; st_PVCShrink := st_PVCShrink s; st_Search := st_Search s |}.
(** Through the pointer that [FindCondition] returned *)
Definition set_condition_at (i : nat) (status : string) (now : Z) (s : ClusterStatus) : ClusterStatus :=
  set_Conditions (alter (λ c, {| cc_Type := cc_Type c; cc_Status := status; cc_Reason := cc_Reason c;
                                 cc_Message := cc_Message c; cc_LastTransitionTime := Some now |}) i (st_Conditions s)) s.
(** Arbiters, non-voting and hidden members off *)
Definition disable_extras (r : ReplsetSpec) : ReplsetSpec :=
  let off s := {| sz_Enabled := false; sz_Size := sz_Size s |} in
  {| rs_Name := rs_Name r; rs_Size := rs_Size r; rs_ClusterRole := rs_ClusterRole r;
     rs_Arbiter := off (rs_Arbiter r); rs_NonVoting := off (rs_NonVoting r); rs_Hidden := off (rs_Hidden r);
     rs_ExposeEnabled := rs_ExposeEnabled r; rs_ExposeType := rs_ExposeType r;
     rs_Configuration := rs_Configuration r; rs_ExternalNodes := rs_ExternalNodes r; rs_Horizons := rs_Horizons r;
     rs_Overrides := rs_Overrides r; rs_PrimaryPreferTagSelector := rs_PrimaryPreferTagSelector r;
     rs_TerminationGrace := rs_TerminationGrace r; rs_SearchSize := rs_SearchSize r |}.

Section pause.
Context {W : Type} {K : K8sClient W} {Q : PodClient W} {P : MongoClientProvider W} {E : ClusterEnv W}.
Context {KB : BackupClient W} {VC : VolumeClient W} {SC : StatusClient W} {CL : CtlClient W}.
Context {Y : Yaml} {V : Versions} {G : GoSort} {R : GoRetryOn} {CD : CheckDefaults}.
Abbreviation M := (GoM (CtlCluster * W)).

Definition defaultsM : M unit := λ s, let '(r, cr) := check_defaults s.1 in (r, (cr, s.2)).

Definition setCRVersion : M unit :=
  cr ← get_mem;
  if negb (bool_decide (cr_CRVersion (cr : CtlCluster) = "")) then mret tt
  else
    mod_mem (set_CRVersion operatorVersion);;
    cr' ← wrapM "patch CR" (on_world (ctl_patch cr (set_CRVersion operatorVersion cr)));
    mod_mem (λ _, cr').

(** ** Sharding switched on or off *)
Definition getShardingStatus (cr : CtlCluster) : string :=
  if cr_ShardingEnabled cr then ConditionTrue else ConditionFalse.
Definition toggleShardingStatus (s : string) : bool := negb (bool_decide (s = ConditionTrue)).
(** The condition of type sharding, and where it is *)
Definition sharding_condition (st : ClusterStatus) : option (nat * ClusterCondition) :=
  i ← FindCondition (st_Conditions st) AppStateSharding; c ← st_Conditions st !! i; Some (i, c).
Definition condition_in_cache (status : string) (cr : CtlCluster) : GoM W unit :=
  c ← (wrapM "get cluster" (scr_get (cr_Namespace cr) (cr_Name cr)) : GoM W SmartCluster);
  match sharding_condition (bc_Status (c : SmartCluster)) with
  | Some (_, cond) => if bool_decide (cc_Status cond = status) then mret tt else throw errShardingConditionNotInCache
  | None => throw errShardingConditionNotInCache
  end.
(** All pods are gone: the cluster starts again, the other way. *)
Definition finish_toggle (i : nat) (on : bool) : M unit :=
  mod_mem (set_Sharding on);;
  mod_mem (set_Pause false);;
  mod_mem (on_Status (set_BackupConfigHash ""));;
  wrapM "check and set defaults" defaultsM;;
  now ← on_world go_now;
  mod_mem (λ cr, on_Status (set_condition_at i (getShardingStatus cr) now) cr);;
  cr ← get_mem;
  wrapM "write status" (on_world (writeStatus (cr : CtlCluster)));;
  on_world (retry_on DefaultBackoffSteps (error_is errShardingConditionNotInCache)
              (condition_in_cache (getShardingStatus cr) cr)).
Definition handleShardingToggle : M unit :=
  cr ← get_mem;
  if bc_Pause (cr : CtlCluster) || negb (b_Enabled (bc_Backup (cr : CtlCluster))) then mret tt
  else
    match sharding_condition (bc_Status (cr : CtlCluster)) with
    | None =>
        now ← on_world go_now;
        mod_mem (on_Status (AddCondition now
          {| cc_Type := AppStateSharding; cc_Status := getShardingStatus cr; cc_Reason := ""; cc_Message := "";
             cc_LastTransitionTime := Some now |}))
    | Some (i, c) =>
        if bool_decide (cc_Status c = getShardingStatus cr) then mret tt
        else
          let on := toggleShardingStatus (cc_Status c) in
          mod_mem (set_Sharding on);;
          mod_mem (set_Pause true);;
          wrapM "check and set defaults" defaultsM;;
          cr ← get_mem;
          mongodPods ← wrapM "get mongod pods" (on_world (getMongodPods (cr : CtlCluster)));
          mongosPods ← wrapM "get mongos pods" (on_world (getMongosPods (cr : CtlCluster)));
          if negb (bool_decide (mongodPods = [] ∧ mongosPods = [])) then mret tt
          else finish_toggle i on
    end.

(** ** Pausing *)
Definition reconcilePause : M unit :=
  wrapM "handle sharding toggle" handleShardingToggle;;
  cr ← get_mem;
  if negb (bc_Pause (cr : CtlCluster)) || sc_Deleting (cr : CtlCluster) then mret tt
  else
    backupRunning ← wrapM "check if backup is running" (on_world (isBackupRunning (cr : CtlCluster)));
    if backupRunning : bool then
      mod_mem (set_Pause false);;
      wrapM "failed to set defaults" defaultsM
    else
      mod_mem (with_ct_cr (λ c, with_replsets (fmap disable_extras) id (cr_MongosSize c) c));;
      r ← catchM deletePSMDBPods;
      match r with
      | Ok _ => mret tt
      | Err e => if error_is errWaitingTermination e then mret tt else throw (EWrap e "delete psmdb pods")
      end.

(** ** Checks of the topology *)
Definition checkConfiguration (cr : CtlCluster) : GoM W unit :=
  cfg ← tryM (getCfgStatefulset cr);
  _ ← (match cfg with
       | Err e => if IsNotFound e then mret tt else throw (EWrap e "failed to get cfg replset")
       | Ok _ => mret tt
       end);
  rs ← tryM (getMongodStatefulsets cr);
  items ← (match rs with
           | Err e => if IsNotFound e then mret [] else throw (EWrap e "failed to get all replsets")
           | Ok l => mret l
           end);
  if cr_ShardingEnabled cr then mret tt
  else if is_ok cfg && (1 <? length items)%nat
  then throw (ENew ("failed to disable sharding with " +:+ itoa (Z.of_nat (length items)) +:+ " active replsets"))
  else if (1 <? length (cr_Replsets cr))%nat
  then throw (ENew "running multiple replsets without sharding is prohibited")
  else mret tt.

(** ** Shrinking *)
Fixpoint downscale (isDownscale : bool) (refs : list rs_ref) : M bool :=
  match refs with
  | [] => mret isDownscale
  | ref :: refs' =>
      cr ← get_mem;
      match rs_at ref cr with
      | None => throw nil_panic
      | Some rs =>
          got ← tryM (on_world (getRsStatefulset (cr : CtlCluster) (rs_Name rs)));
          match got with
          | Err e => if IsNotFound e then downscale isDownscale refs' else throw (EWrap e "get rs statefulset")
          | Ok sf =>
              match sts_SpecReplicas sf with
              | None => throw nil_panic
              | Some replicas =>
                  if (1 <? wrap32 (replicas - rs_Size rs))%Z
                  then size_to ref (wrap32 (replicas - 1));; downscale true refs'
                  else downscale isDownscale refs'
              end
          end
      end
  end.
Definition safeDownscale : M bool := cr ← get_mem; downscale false (shard_refs cr).
End pause.
