(* ===== verification/PauseFacts.v ===== *)
(** The start of a reconciliation, proved: replica sets shrink by one pod at a
    time; a running backup holds a pause back; sharding is switched only when no
    pods are left. *)
From S2P Require Import Prelude ReplsetModels MongoClient Api GoSort Kube Hosts SystemUsers Cluster.
From S2P Require Import BackupApi BackupSchedule BackupExec SmartUpdate Volumes Status Controller Finalizers Pause.
From S2P Require Import Trace FinalizerFacts SmartTrace.

(** * Shrinking *)
Section downscale.
Context {W : Type} {K : K8sClient W}.

(** The reference: read the replicas of every stateful set, ... *)
Fixpoint read_replicas (cr : SmartCluster) (rss : list ReplsetSpec) : GoM W (list (option Z)) :=
  match rss with
  | [] => mret []
  | rs :: rss' =>
      got ← tryM (getRsStatefulset cr (rs_Name rs));
      n ← (match got with
           | Err e => if IsNotFound e then mret None else throw (EWrap e "get rs statefulset")
           | Ok sf => match sts_SpecReplicas sf with Some n => mret (Some n) | None => throw nil_panic end
           end);
      ns ← read_replicas cr rss';
      mret (n :: ns)
  end.
(** ... then take one pod from those that have more than one too many. *)
Definition shrinks (size : Z) (n : option Z) : bool :=
  match n with Some n => (1 <? wrap32 (n - size))%Z | None => false end.
Definition next_rs (rs : ReplsetSpec) (n : option Z) : ReplsetSpec :=
  match n with
  | Some n => if shrinks (rs_Size rs) (Some n) then set_rs_Size (wrap32 (n - 1)) rs else rs
  | None => rs
  end.
Definition shards_to (l : list ReplsetSpec) (cr : CtlCluster) : CtlCluster :=
  with_ct_cr (with_replsets (λ _, l) id (cr_MongosSize cr)) cr.

Lemma shards_to_same (cr : CtlCluster) : shards_to (cr_Replsets cr) cr = cr.
Proof. by destruct cr as [[[[] ? ? ? ? ? ?] ? ? ? ? ? ?] ? ? ?]. Qed.
Lemma upd_shard i f l cr : upd_rs (Shard i) f (shards_to l cr) = shards_to (alter f i l) cr.
Proof. done. Qed.

Lemma downscale_run (cr : CtlCluster) l k b (w : W) :
  match downscale b (Shard <$> seq (length l) (length k)) (shards_to (l ++ k) cr, w), read_replicas cr k w with
  | (r, (s', w')), (Ok ns, w1) =>
      r = Ok (b || existsb id (zip_with (λ rs n, shrinks (rs_Size rs) n) k ns)) ∧
      s' = shards_to (l ++ zip_with next_rs k ns) cr ∧ w' = w1
  | (r, (_, w')), (Err e, w1) => r = Err e ∧ w' = w1
  end.
Proof.
  revert l b w. induction k as [|rs k IH]; intros l b w; cbn [length seq fmap list_fmap downscale read_replicas].
  { cbn. by rewrite orb_false_r. }
  unfold mbind at 1, gom_bind at 1, get_mem. cbn [fst snd].
  assert (rs_at (Shard (length l)) (shards_to (l ++ rs :: k) cr) = Some rs) as -> by (cbn; by apply list_lookup_middle).
  unfold mbind, gom_bind, tryM, on_world. cbn [fst snd].
  change (getRsStatefulset (shards_to (l ++ rs :: k) cr) (rs_Name rs) w) with (getRsStatefulset cr (rs_Name rs) w).
  assert (∀ rs' b' w1 n, b' = b || shrinks (rs_Size rs) n → rs' = next_rs rs n →
    match downscale b' (Shard <$> seq (S (length l)) (length k)) (shards_to (l ++ rs' :: k) cr, w1),
      (let (r, w') := read_replicas cr k w1 in match r with Ok ns => (Ok (n :: ns), w') | Err e => (Err e, w') end) with
    | (r, (s', w')), (Ok ns, w1) =>
        r = Ok (b || existsb id (zip_with (λ rs n, shrinks (rs_Size rs) n) (rs :: k) ns)) ∧
        s' = shards_to (l ++ zip_with next_rs (rs :: k) ns) cr ∧ w' = w1
    | (r, (_, w')), (Err e, w1) => r = Err e ∧ w' = w1
    end) as Hnext.
  { intros rs' b' w1 n -> ->. specialize (IH (l ++ [next_rs rs n]) (b || shrinks (rs_Size rs) n) w1).
    rewrite length_app in IH. cbn [length] in IH. rewrite Nat.add_1_r, <- app_assoc in IH. cbn [app] in IH.
    destruct (downscale _ _ _) as [r [s' w']]. destruct (read_replicas cr k w1) as [[ns|e] w2]; [|done].
    destruct IH as (-> & -> & ->). cbn [zip_with existsb]. by rewrite <- app_assoc, orb_assoc. }
  destruct (getRsStatefulset cr (rs_Name rs) w) as [[sf|e] w1] eqn:Eg; cbn [fst snd].
  - destruct (sts_SpecReplicas sf) as [n|] eqn:En; [|done].
    destruct (1 <? wrap32 (n - rs_Size rs))%Z eqn:Es.
    + rewrite size_to_run, upd_shard, alter_app_r_alt, Nat.sub_diag by lia. cbn [alter list_alter]. apply Hnext; cbn; by rewrite Es, ?orb_true_r.
    + apply Hnext; cbn; by rewrite Es, ?orb_false_r.
  - destruct (IsNotFound e); [|done]. apply Hnext; cbn; by rewrite ?orb_false_r.
Qed.

(** Shrinking the replica sets is reading the replicas of all of them and
    taking one pod from each that has more than one too many. *)
Theorem safeDownscale_spec (cr : CtlCluster) (w : W) :
  match safeDownscale (cr, w), read_replicas cr (cr_Replsets cr) w with
  | (r, (cr', w')), (Ok ns, w1) =>
      r = Ok (existsb id (zip_with (λ rs n, shrinks (rs_Size rs) n) (cr_Replsets cr) ns)) ∧
      cr' = shards_to (zip_with next_rs (cr_Replsets cr) ns) cr ∧ w' = w1
  | (r, (_, w')), (Err e, w1) => r = Err e ∧ w' = w1
  end.
Proof.
  pose proof (downscale_run cr [] (cr_Replsets cr) false w) as H. cbn [app length] in H.
  by rewrite shards_to_same in H.
Qed.
End downscale.

(** The size asked for with [n] replicas, when [size] are wanted: one less at a
    time, until there are as many as wanted. *)
Lemma shrink_by_one rs n : int32_ok (n - rs_Size rs) → int32_ok (n - 1) → (rs_Size rs < n)%Z →
  rs_Size (next_rs rs (Some n)) = (n - 1)%Z.
Proof.
  intros H1 H2 Hlt. unfold next_rs, shrinks. rewrite !wrap32_id by done. destruct (Z.ltb_spec 1 (n - rs_Size rs)); [done|lia].
Qed.
(** A replica set that grows, or stays, is not touched. *)
Lemma no_shrink rs n : int32_ok (n - rs_Size rs) → (n ≤ rs_Size rs)%Z → next_rs rs (Some n) = rs.
Proof.
  intros H1 Hle. unfold next_rs, shrinks. rewrite wrap32_id by done. destruct (Z.ltb_spec 1 (n - rs_Size rs)); [lia|done].
Qed.
(** One pod too many is taken away at once, and is not reported. *)
Example last_pod_not_reported : shrinks 3 (Some 4%Z) = false.
Proof. reflexivity. Qed.

(** * Switching sharding *)
Class CheckDefaultsLaws (CD : CheckDefaults) := {
  (* the defaults touch the map of replica sets of the status at most *)
  defaults_conditions cr : st_Conditions (bc_Status (check_defaults cr).2) = st_Conditions (bc_Status cr);
  defaults_name cr : cr_Name (check_defaults cr).2 = cr_Name cr;
  defaults_namespace cr : cr_Namespace (check_defaults cr).2 = cr_Namespace cr
}.

Section toggle.
Context {W : Type} {K : K8sClient W} {E : ClusterEnv W} {KB : BackupClient W} {VC : VolumeClient W}.
Context {SC : StatusClient W} {R : GoRetryOn} {RL : GoRetryOnLaws R} {CD : CheckDefaults} {CDL : CheckDefaultsLaws CD}.

(** The API server, read from [w], has the condition with this status. *)
Definition cached (cr : CtlCluster) (status : string) (w : W) : Prop :=
  ∃ c w' i cond, scr_get (cr_Namespace cr) (cr_Name cr) w = (Ok c, w') ∧
    sharding_condition (bc_Status (c : SmartCluster)) = Some (i, cond) ∧ cc_Status cond = status.
Lemma condition_in_cache_ok status (cr : CtlCluster) (w w' : W) :
  condition_in_cache status cr w = (Ok tt, w') → cached cr status w.
Proof.
  unfold condition_in_cache, mbind, gom_bind, wrapM. destruct (scr_get _ _ w) as [[c|e] w1] eqn:Eg; cbn; [|done].
  destruct (sharding_condition (bc_Status c)) as [[i cond]|] eqn:Ec; [|done]. case_bool_decide as Hs; [|done].
  intros _. by exists c, w1, i, cond.
Qed.
Lemma defaults_run (s : CtlCluster) (w : W) r s' w' :
  wrapM "check and set defaults" defaultsM (s, w) = (r, (s', w')) → s' = (check_defaults s).2 ∧ w' = w.
Proof. unfold wrapM, defaultsM. cbn. destruct (check_defaults s) as [[[]|e] s1]; by intros [= _ <- <-]. Qed.

Lemma finish_toggle_ok i on (s : CtlCluster) (w : W) s' w' :
  finish_toggle i on (s, w) = (Ok tt, (s', w')) → ∃ w1, cached s' (getShardingStatus s') w1.
Proof using RL.
  unfold finish_toggle. intros Hrun. do 3 (erewrite bind_ok in Hrun by done).
  apply bind_run in Hrun as [(? & _ & [=])|([] & [s1 w1] & _ & Hrun)].
  apply bind_run in Hrun as [(? & _ & [=])|(now & [s2 w2] & _ & Hrun)].
  do 2 (erewrite bind_ok in Hrun by done). cbn [fst snd] in Hrun.
  apply bind_run in Hrun as [(? & _ & [=])|([] & [s3 w3] & Hw & Hrun)].
  unfold wrapM, on_world in Hw, Hrun. cbn [fst snd] in Hw, Hrun.
  destruct (writeStatus _ w2) as [[[]|?] w4]; [|done]. injection Hw as <- <-.
  match type of Hrun with context [retry_on ?n ?p ?f ?v] => pose proof (retry_on_attempts _ n p f v) as Ha;
    destruct (retry_on n p f v) as [r' w5] end.
  injection Hrun as -> <- <-. cbn [fst snd] in Ha.
  destruct (attempts_inv _ _ _ _ _ (λ _, True) Ha I (λ _ _, I)) as (v & _ & Hv). exists v.
  by apply condition_in_cache_ok in Hv.
Qed.

Lemma pods_of_named (a b : CtlCluster) : cr_Name a = cr_Name b → cr_Namespace a = cr_Namespace b →
  getMongodPods (W := W) a = getMongodPods b ∧ getMongosPods (W := W) a = getMongosPods b.
Proof.
  intros Hn Hs. unfold getMongodPods, getMongosPods, MongodLabels, MongosLabels, RSLabels, ClusterLabels.
  by rewrite Hn, Hs.
Qed.

(** C24: the condition on sharding of a cluster changes only in a run that has found
    no pod of mongod and none of mongos; that run ends without an error only when
    the API server shows the new condition, so that the next one does not pause
    the cluster again. *)
Theorem sharding_toggle_safe (cr cr' : CtlCluster) (w w' : W) r i c :
  sharding_condition (bc_Status cr) = Some (i, c) →
  handleShardingToggle (cr, w) = (r, (cr', w')) →
  st_Conditions (bc_Status cr') = st_Conditions (bc_Status cr) ∨
  ∃ w1 w2, getMongodPods cr w = (Ok [], w1) ∧ getMongosPods cr w1 = (Ok [], w2) ∧
    cc_Status c ≠ getShardingStatus cr ∧ (r = Ok tt → ∃ w3, cached cr' (getShardingStatus cr') w3).
Proof.
  intros Hc Hrun. unfold handleShardingToggle in Hrun. erewrite bind_ok in Hrun by done. cbn [fst snd] in Hrun.
  destruct (bc_Pause cr || _); [left; by injection Hrun as _ <- _|]. rewrite Hc in Hrun.
  case_bool_decide as Hs; [left; by injection Hrun as _ <- _|].
  do 2 (erewrite bind_ok in Hrun by done). cbn [fst snd] in Hrun.
  set (cr1 := set_Pause true (set_Sharding (toggleShardingStatus (cc_Status c)) cr)) in *.
  apply bind_run in Hrun as [(e & Hd & _)|([] & [s1 w1] & Hd & Hrun)]; apply defaults_run in Hd as [-> ->].
  { left. by rewrite defaults_conditions. }
  destruct (pods_of_named (check_defaults cr1).2 cr) as [Hmongod Hmongos];
    [by rewrite defaults_name|by rewrite defaults_namespace|].
  erewrite bind_ok in Hrun by done. cbn [fst snd] in Hrun.
  unfold wrapM, on_world in Hrun. rewrite Hmongod, Hmongos in Hrun.
  assert (st_Conditions (bc_Status (check_defaults cr1).2) = st_Conditions (bc_Status cr)) as Hsame
    by by rewrite defaults_conditions.
  apply bind_run in Hrun as [(e & Hp & _)|(pods & [s2 w2] & Hp & Hrun)]; cbn [fst snd] in Hp;
    destruct (getMongodPods cr w) as [[l|e'] w2'] eqn:El; try done; injection Hp as <- <- <-; [by left|].
  apply bind_run in Hrun as [(e & Hp & _)|(pods' & [s3 w3] & Hp & Hrun)]; cbn [fst snd] in Hp;
    destruct (getMongosPods cr w2') as [[l'|e'] w3'] eqn:El'; try done; injection Hp as <- <- <-; [by left|].
  case_bool_decide as Hnone; cbn [negb] in Hrun; [|left; by injection Hrun as _ <- _].
  destruct Hnone as [-> ->]. right. exists w2', w3'. split_and!; try done. intros ->.
  by eapply finish_toggle_ok.
Qed.
End toggle.

(** * Runs *)
(** The stateful set of the config servers is there, with its pods; nothing else. *)
Definition cfg_k8s : K8sClient unit :=
  let base := emptyK8s unit in
  {| k8s_get_service := k8s_get_service (K8sClient := base);
     k8s_get_node_labels := k8s_get_node_labels (K8sClient := base);
     k8s_get_service_import := k8s_get_service_import (K8sClient := base);
     k8s_list_service_exports := k8s_list_service_exports (K8sClient := base);
     k8s_get_sts := λ _ n, if bool_decide (n = "c-cfg") then mret demo_sts else notFound;
     k8s_get_secret := k8s_get_secret (K8sClient := base);
     k8s_list_sts := k8s_list_sts (K8sClient := base);
     k8s_list_pods := λ _ s, if bool_decide (sel_In s !! LabelComponent = Some ComponentMongos) then mret []
                             else mret old_pods;
     go_sleep := go_sleep (K8sClient := base); go_tick := go_tick (K8sClient := base) |}.
Definition with_sharding_condition (status : string) (pause : bool) (grace : option Z) (cr : CtlCluster) : CtlCluster :=
  set_Pause pause (on_Status (AddCondition 0
    {| cc_Type := AppStateSharding; cc_Status := status; cc_Reason := ""; cc_Message := ""; cc_LastTransitionTime := None |})
  (with_ct_bc (λ b, {| bc_cr := with_replsets id (fmap (λ r,
      {| rs_Name := rs_Name r; rs_Size := rs_Size r; rs_ClusterRole := rs_ClusterRole r; rs_Arbiter := rs_Arbiter r;
         rs_NonVoting := rs_NonVoting r; rs_Hidden := rs_Hidden r; rs_ExposeEnabled := rs_ExposeEnabled r;
         rs_ExposeType := rs_ExposeType r; rs_Configuration := rs_Configuration r;
         rs_ExternalNodes := rs_ExternalNodes r; rs_Horizons := rs_Horizons r; rs_Overrides := rs_Overrides r;
         rs_PrimaryPreferTagSelector := rs_PrimaryPreferTagSelector r; rs_TerminationGrace := grace;
         rs_SearchSize := rs_SearchSize r |})) (cr_MongosSize b) b;
    bc_Backup := {| b_Enabled := true; b_Image := ""; b_Storages := ∅; b_Tasks := []; b_PITR := b_PITR (bc_Backup b);
                    b_BackupOptions := None; b_RestoreOptions := None; b_StartingDeadlineSeconds := None |};
    bc_Status := bc_Status b; bc_Pause := pause; bc_SecretsSSE := ""; bc_UnsafeConf := false;
    bc_BackupIfUnhealthy := false |}) cr)).
Definition alive (cr : CtlCluster) : CtlCluster :=
  {| ct_sc := {| sc_bc := sc_bc cr; sc_UpdateStrategy := sc_UpdateStrategy cr; sc_VPA := sc_VPA cr;
                 sc_MongosDelay := sc_MongosDelay cr; sc_BalancerEnabled := sc_BalancerEnabled cr; sc_TLS := sc_TLS cr;
                 sc_Deleting := false |};
     ct_Finalizers := []; ct_SearchSize := 0; ct_SetFCV := false |}.
Definition same_defaults : CheckDefaults := λ cr, (Ok tt, cr).
Lemma same_defaults_laws : CheckDefaultsLaws same_defaults.
Proof. by split. Qed.

Section demo.
Local Existing Instances prompt_pods no_env emptyYaml insertion_GoSort steps_retry steps_retry_laws.
Local Existing Instances same_defaults same_defaults_laws.
Local Instance pause_provider : MongoClientProvider unit := primary_is "nowhere".
Local Instance pause_backups : BackupClient unit :=
  let base := emptyBackups unit in
  {| api_get_cluster := api_get_cluster (BackupClient := base); api_read_cluster := api_read_cluster (BackupClient := base);
     api_get_backup := api_get_backup (BackupClient := base); api_read_backup := api_read_backup (BackupClient := base);
     api_list_backups := api_list_backups (BackupClient := base);
     api_list_restores := api_list_restores (BackupClient := base);
     api_create_backup := api_create_backup (BackupClient := base);
     api_delete_backup := api_delete_backup (BackupClient := base);
     api_update_backup_status := api_update_backup_status (BackupClient := base);
     api_update_backup := api_update_backup (BackupClient := base);
     api_patch_finalizers := api_patch_finalizers (BackupClient := base);
     go_now := mret 7%Z; go_stamp := go_stamp (BackupClient := base) |}.
Local Instance pause_versions : Versions := λ _ _, 1%Z.
Local Instance pause_volumes : VolumeClient unit := {|
  pvc_list := λ _ _, mret []; pvc_get := λ _ _, notFound; pvc_update := λ _, mret tt; pvc_patch := λ _ _, mret tt;
  pvc_delete := λ _, mret tt; event_list := λ _ _, mret []; vsts_get := λ _ _, notFound; vsts_patch := λ _ _, mret tt;
  vsts_delete_orphan := λ _, mret tt; vcr_patch := λ _ _, mret tt; cr_patch := λ _ _, mret tt |}.
(** An API server that shows sharding as on. *)
Definition on_cluster : CtlCluster := with_sharding_condition ConditionTrue false None (dying [] 1 [a_replset "rs0" 3]).
Local Instance pause_status : StatusClient unit :=
  {| scr_get := λ _ _, mret (ct_sc on_cluster); scr_update_status := λ _, mret tt; selector_error := λ _, None;
     ssel_list_pods := λ _ _, mret []; pbm_AgentStatuses := λ _, mret [] |}.

Definition off_cluster : CtlCluster := with_sharding_condition ConditionFalse false None (dying [] 1 [a_replset "rs0" 3]).
Definition toggle_run := handleShardingToggle (K := emptyK8s unit) (off_cluster, tt).
Lemma sharding_toggle_safe_witness :
  toggle_run.1 = Ok tt ∧ cc_Status <$> st_Conditions (bc_Status toggle_run.2.1) = [ConditionTrue] ∧
  ∃ w1 w2, getMongodPods (K := emptyK8s unit) off_cluster tt = (Ok [], w1) ∧
    getMongosPods (K := emptyK8s unit) off_cluster w1 = (Ok [], w2) ∧
    ∃ w3, cached toggle_run.2.1 (getShardingStatus toggle_run.2.1) w3.
Proof.
  assert (toggle_run.1 = Ok tt) as Hok by (vm_compute; reflexivity).
  assert (cc_Status <$> st_Conditions (bc_Status toggle_run.2.1) = [ConditionTrue]) as Hst by (vm_compute; reflexivity).
  split; [exact Hok|]. split; [exact Hst|].
  assert (∃ c, sharding_condition (bc_Status off_cluster) = Some (0, c)) as [c Hc] by (eexists; vm_compute; reflexivity).
  assert (handleShardingToggle (K := emptyK8s unit) (off_cluster, tt) =
    (toggle_run.1, (toggle_run.2.1, toggle_run.2.2))) as Hrun by reflexivity.
  destruct (sharding_toggle_safe (K := emptyK8s unit) _ _ _ _ _ _ _ Hc Hrun) as [H|(w1 & w2 & H1 & H2 & _ & H3)].
  - exfalso. rewrite H in Hst. vm_compute in Hst. discriminate Hst.
  - exists w1, w2. split; [exact H1|]. split; [exact H2|]. exact (H3 Hok).
Defined.

(** A paused cluster whose shards are gone and whose config servers have yet to
    elect their first pod: what deletion takes as a reason to wait is an error
    of the pause. *)
Example pause_waits_with_an_error :
  (reconcilePause (K := cfg_k8s) (alive (with_sharding_condition ConditionTrue true (Some 30%Z)
     (dying [] 1 [a_replset "rs0" 3])), tt)).1 = Err (EWrap errWaitingFirstPrimary "delete psmdb pods").
Proof. vm_compute. reflexivity. Qed.
End demo.
