(* ===== verification/RestoreApi.v ===== *)
(** The restore resource: PerconaServerMongoDBRestore with its specification,
    status and checks (perconaservermongodbrestore_types.go), the conditions of
    its status, and the objects that only restores read or write. *)
From S2P Require Import Prelude ReplsetModels Api Kube Hosts GoSort BackupApi BackupExec.
From Stdlib Require Import Ascii.

(** * The specification *)
Record SelectiveRestoreOpts := {
  sel_WithUsersAndRoles : bool;
  sel_Namespaces : list string;
  sel_NamespaceFrom : string;
  sel_NamespaceTo : string
}.
Definition GetNamespaces (s : option SelectiveRestoreOpts) : list string :=
  match s with Some s => sel_Namespaces s | None => [] end.
Definition GetWithUsersAndRoles (s : option SelectiveRestoreOpts) : bool :=
  match s with Some s => sel_WithUsersAndRoles s | None => false end.
Definition GetNamespaceFrom (s : option SelectiveRestoreOpts) : string :=
  match s with Some s => sel_NamespaceFrom s | None => "" end.
Definition GetNamespaceTo (s : option SelectiveRestoreOpts) : string :=
  match s with Some s => sel_NamespaceTo s | None => "" end.

(** A backup that has no resource: where it is.  Several storages may be given. *)
Record BackupSource := {
  src_Type : string;
  src_Destination : string;
  src_S3 : option BackupStorageS3Spec;
  src_Minio : option BackupStorageMinioSpec;
  src_GCS : option BackupStorageGCSSpec;
  src_Azure : option BucketSpec;
  src_OSS : option BackupStorageOSSSpec;
  src_OCI : option BackupStorageOCISpec;
  src_Filesystem : option BackupStorageFilesystemSpec;
  src_Snapshots : list SnapshotInfo
}.
Definition PITRestoreTypeDate : string := "date".
Definition PITRestoreTypeLatest : string := "latest".
Record PITRestoreSpec := { pit_Type : string; pit_Date : option time }.

Record RestoreSpec := {
  rsp_ClusterName : string;
  rsp_BackupName : string;
  rsp_BackupSource : option BackupSource;
  rsp_StorageName : string;
  rsp_PITR : option PITRestoreSpec;
  rsp_Selective : option SelectiveRestoreOpts;
  rsp_RSMap : option (gmap string string)
}.

(** * The status *)
Inductive RestoreWaitingReason :=
| RestoreNotWaiting                                     (* "" *)
| RestoreWaitingReasonBackupLease | RestoreWaitingReasonClusterSync
| RestoreWaitingReasonPBMAgent | RestoreWaitingReasonPBMResync
| RestoreWaitingReasonPITR | RestoreWaitingReasonPreparation
| RestoreWaitingReasonRestoreLock | RestoreWaitingReasonStatefulSets
| RestoreWaitingReasonMongosPods.
#[export] Instance RestoreWaitingReason_eq_dec : EqDecision RestoreWaitingReason.
Proof. solve_decision. Defined.

(** [metav1.Condition] *)
Record Condition := {
  cd_Type : string;
  cd_Status : string;
  cd_Reason : string;
  cd_Message : string;
  cd_LastTransitionTime : time
}.
#[export] Instance Condition_eq_dec : EqDecision Condition.
Proof. solve_decision. Defined.
Definition ConditionFalse : string := "False".
Definition ConditionClusterSyncActive : string := "ClusterSyncActive".
Definition ConditionPBMAgentConfiguredForSnapshot : string := "PBMAgentConfiguredForSnapshot".
Definition ConditionReplsetPVCsRestoredFromSnapshot : string := "ReplsetPVCsRestoredFromSnapshot".
Definition ConditionPBMAgentAwaitingRestoreFinish : string := "PBMAgentAwaitingRestoreFinish".
Definition ConditionPBMRestoreFinishing : string := "PBMRestoreFinishing".
Definition ConditionPBMRestoreFinished : string := "PBMRestoreFinished".

Record RestoreStatus := {
  rst_State : RestoreState;
  rst_WaitingReason : RestoreWaitingReason;
  rst_PBMname : string;
  rst_PITRTarget : string;
  rst_Error : string;
  rst_CompletedAt : option time;
  rst_LastTransition : option time;
  rst_Conditions : list Condition
}.
Definition zeroRestoreStatus : RestoreStatus :=
  {| rst_State := RestoreStateNew; rst_WaitingReason := RestoreNotWaiting; rst_PBMname := "";
     rst_PITRTarget := ""; rst_Error := ""; rst_CompletedAt := None; rst_LastTransition := None;
     rst_Conditions := [] |}.
(** Assignments to single fields *)
Definition to_State (v : RestoreState) (s : RestoreStatus) : RestoreStatus :=
  {| rst_State := v; rst_WaitingReason := rst_WaitingReason s; rst_PBMname := rst_PBMname s;
     rst_PITRTarget := rst_PITRTarget s; rst_Error := rst_Error s; rst_CompletedAt :=
     rst_CompletedAt s; rst_LastTransition := rst_LastTransition s; rst_Conditions := rst_Conditions
     s |}.
Definition to_WaitingReason (v : RestoreWaitingReason) (s : RestoreStatus) : RestoreStatus :=
  {| rst_State := rst_State s; rst_WaitingReason := v; rst_PBMname := rst_PBMname s; rst_PITRTarget
     := rst_PITRTarget s; rst_Error := rst_Error s; rst_CompletedAt := rst_CompletedAt s;
     rst_LastTransition := rst_LastTransition s; rst_Conditions := rst_Conditions s |}.
Definition to_PBMname (v : string) (s : RestoreStatus) : RestoreStatus :=
  {| rst_State := rst_State s; rst_WaitingReason := rst_WaitingReason s; rst_PBMname := v;
     rst_PITRTarget := rst_PITRTarget s; rst_Error := rst_Error s; rst_CompletedAt :=
     rst_CompletedAt s; rst_LastTransition := rst_LastTransition s; rst_Conditions := rst_Conditions
     s |}.
Definition to_PITRTarget (v : string) (s : RestoreStatus) : RestoreStatus :=
  {| rst_State := rst_State s; rst_WaitingReason := rst_WaitingReason s; rst_PBMname := rst_PBMname
     s; rst_PITRTarget := v; rst_Error := rst_Error s; rst_CompletedAt := rst_CompletedAt s;
     rst_LastTransition := rst_LastTransition s; rst_Conditions := rst_Conditions s |}.
Definition to_Error (v : string) (s : RestoreStatus) : RestoreStatus :=
  {| rst_State := rst_State s; rst_WaitingReason := rst_WaitingReason s; rst_PBMname := rst_PBMname
     s; rst_PITRTarget := rst_PITRTarget s; rst_Error := v; rst_CompletedAt := rst_CompletedAt s;
     rst_LastTransition := rst_LastTransition s; rst_Conditions := rst_Conditions s |}.
Definition to_CompletedAt (v : option time) (s : RestoreStatus) : RestoreStatus :=
  {| rst_State := rst_State s; rst_WaitingReason := rst_WaitingReason s; rst_PBMname := rst_PBMname
     s; rst_PITRTarget := rst_PITRTarget s; rst_Error := rst_Error s; rst_CompletedAt := v;
     rst_LastTransition := rst_LastTransition s; rst_Conditions := rst_Conditions s |}.
Definition to_Conditions (v : list Condition) (s : RestoreStatus) : RestoreStatus :=
  {| rst_State := rst_State s; rst_WaitingReason := rst_WaitingReason s; rst_PBMname := rst_PBMname
     s; rst_PITRTarget := rst_PITRTarget s; rst_Error := rst_Error s; rst_CompletedAt :=
     rst_CompletedAt s; rst_LastTransition := rst_LastTransition s; rst_Conditions := v |}.

Record RestoreCR := {
  ro_Name : string;
  ro_Namespace : string;
  ro_Spec : RestoreSpec;
  ro_Status : RestoreStatus
}.
Definition ro_State (cr : RestoreCR) : RestoreState := rst_State (ro_Status cr).
Definition with_ro_Status (s : RestoreStatus) (cr : RestoreCR) : RestoreCR :=
  {| ro_Name := ro_Name cr; ro_Namespace := ro_Namespace cr; ro_Spec := ro_Spec cr; ro_Status := s |}.
Definition with_source (f : BackupSource → BackupSource) (cr : RestoreCR) : RestoreCR :=
  {| ro_Name := ro_Name cr; ro_Namespace := ro_Namespace cr;
     ro_Spec :=
       {| rsp_ClusterName := rsp_ClusterName (ro_Spec cr); rsp_BackupName := rsp_BackupName (ro_Spec cr);
          rsp_BackupSource := f <$> rsp_BackupSource (ro_Spec cr); rsp_StorageName := rsp_StorageName (ro_Spec cr);
          rsp_PITR := rsp_PITR (ro_Spec cr); rsp_Selective := rsp_Selective (ro_Spec cr);
          rsp_RSMap := rsp_RSMap (ro_Spec cr) |};
     ro_Status := ro_Status cr |}.

(** ** Conditions: [meta.FindStatusCondition] and its users *)
Definition find_condition (l : list Condition) (ty : string) : option Condition :=
  snd <$> list_find (λ c, cd_Type c = ty) l.
Definition condition_is (l : list Condition) (ty status : string) : bool :=
  match find_condition l ty with Some c => bool_decide (cd_Status c = status) | None => false end.
(** [IsStatusConditionTrue] *)
Definition condition_true (l : list Condition) (ty : string) : bool := condition_is l ty ConditionTrue.
(** [SetStatusCondition]: the time moves only when the status does. *)
Definition SetStatusCondition (now : time) (ty status reason message : string) (l : list Condition)
    : list Condition :=
  match list_find (λ c, cd_Type c = ty) l with
  | None => l ++ [{| cd_Type := ty; cd_Status := status; cd_Reason := reason; cd_Message := message;
                     cd_LastTransitionTime := now |}]
  | Some (i, old) =>
      <[i := {| cd_Type := ty; cd_Status := status; cd_Reason := reason; cd_Message := message;
                cd_LastTransitionTime :=
                  if bool_decide (cd_Status old = status) then cd_LastTransitionTime old else now |}]> l
  end.
(** [RemoveStatusCondition] *)
Definition RemoveStatusCondition (ty : string) : list Condition → list Condition :=
  filter (λ c, cd_Type c ≠ ty).

Definition ConditionsEqual (status other : RestoreStatus) : bool :=
  if negb (bool_decide (length (rst_Conditions status) = length (rst_Conditions other))) then false
  else forallb (λ c, condition_is (rst_Conditions other) (cd_Type c) (cd_Status c)) (rst_Conditions status).

Definition shouldUpdateStatus (current desired : RestoreStatus) : bool :=
  negb (bool_decide (rst_State current = rst_State desired))
  || negb (bool_decide (rst_Error current = rst_Error desired))
  || negb (bool_decide (rst_WaitingReason current = rst_WaitingReason desired))
  || negb (ConditionsEqual current desired).

(** ** Checks and defaults *)
Definition IsCloningNamespace (r : RestoreCR) : bool :=
  match rsp_Selective (ro_Spec r) with
  | Some s => negb (bool_decide (sel_NamespaceFrom s = ""))
  | None => false
  end.

Definition is_none {A} (o : option A) : bool := match o with None => true | Some _ => false end.

(** The source names no storage of its own. *)
Definition no_storage (s : BackupSource) : bool :=
  is_none (src_S3 s) && is_none (src_GCS s) && is_none (src_Azure s) && is_none (src_Minio s)
  && is_none (src_OSS s) && is_none (src_OCI s) && is_none (src_Filesystem s).

Definition check_source (backupType storageName : string) (s : BackupSource) : result unit :=
  if negb (bool_decide (src_Type s = ExternalBackup)) && bool_decide (src_Destination s = "") then
    Err (ENew "backupSource destination is required")
  else if negb (is_none (src_S3 s)) && negb (has_prefix "s3://" (src_Destination s)) then
    Err (ENew "backupSource destination should use s3 protocol format")
  else if match src_S3 s with Some s3 => str_contains "storage.googleapis.com" (bu_EndpointURL s3) | None => false end then
    Err (ENew "S3 compatibility for Google Cloud Storage is not supported, use backupSource.gcs instead")
  else if negb (is_none (src_OSS s)) && negb (has_prefix "oss://" (src_Destination s)) then
    Err (ENew "backupSource destination should use oss protocol format")
  else if negb (bool_decide (backupType = ExternalBackup)) && bool_decide (storageName = "") && no_storage s then
    Err (ENew ("one of storageName, backupSource.minio, backupSource.s3, backupSource.gcs, backupSource.azure, " +:+
               "backupSource.oss, backupSource.oci or backupSource.filesystem is required"))
  else Ok tt.

Definition check_pitr (p : PITRestoreSpec) : result unit :=
  if bool_decide (pit_Type p = PITRestoreTypeDate) then
    (if is_none (pit_Date p) then Err (ENew "date is required for pitr restore by date") else Ok tt)
  else if bool_decide (pit_Type p = PITRestoreTypeLatest) then Ok tt
  else Err (ENew ("undefined pitr restore type: " +:+ pit_Type p)).

Definition restore_CheckFields (backupType : string) (r : RestoreCR) : result unit :=
  let s := ro_Spec r in
  if bool_decide (rsp_ClusterName s = "") then Err (ENew "spec clusterName field is empty")
  else if bool_decide (rsp_BackupName s = "") && is_none (rsp_BackupSource s) then
    Err (ENew "one of backupName or backupSource is required")
  else if negb (bool_decide (backupType = LogicalBackup)) && IsCloningNamespace r then
    Err (ENew "nsFrom and nsTo are only available for logical backups")
  else
    _ ← match rsp_BackupSource s with Some src => check_source backupType (rsp_StorageName s) src | None => Ok tt end;
    match rsp_PITR s with Some p => check_pitr p | None => Ok tt end.

Definition default_type (s : BackupSource) : BackupSource :=
  if bool_decide (src_Type s = "") then
    {| src_Type := LogicalBackup; src_Destination := src_Destination s; src_S3 := src_S3 s; src_Minio := src_Minio s;
       src_GCS := src_GCS s; src_Azure := src_Azure s; src_OSS := src_OSS s; src_OCI := src_OCI s;
       src_Filesystem := src_Filesystem s; src_Snapshots := src_Snapshots s |}
  else s.
Definition restore_SetDefaults (r : RestoreCR) : RestoreCR := with_source default_type r.

Definition BackupSourceProfileName (restore : RestoreCR) : string := ro_Name restore +:+ "-backup-source".

(** ** A point in time *)
Fixpoint trim_zeros (n : nat) (z : Z) : string :=
  match n with
  | O => ""
  | S n' => if bool_decide (z mod 10 = 0)%Z then trim_zeros n' (z / 10)
            else (let pad := String.concat "" (replicate (n - String.length (itoa z)) "0") in pad +:+ itoa z)
  end.
(** [t.Format("2006-01-02T15:04:05")] in UTC, for the years 1000 to 9999 *)
Definition date_time (t : time) : string :=
  let s := (t / second)%Z in
  let '(y, m, d) := civil (s / 86400) in
  let r := (s mod 86400)%Z in
  itoa y +:+ "-" +:+ two_digits m +:+ "-" +:+ two_digits d +:+ "T" +:+
  two_digits (r / 3600) +:+ ":" +:+ two_digits (r / 60 mod 60) +:+ ":" +:+ two_digits (r mod 60).
(** [t.UTC().Format(time.RFC3339Nano)]: the zeros at the end are left out. *)
Definition rfc3339nano (t : time) : string :=
  let n := (t mod second)%Z in
  date_time t +:+ (if bool_decide (n = 0)%Z then "" else "." +:+ trim_zeros 9 n) +:+ "Z".
(** A date of the specification is in the zone of the operator: what to add to
    UTC at a time. *)
Class TimeZone := zone_offset : time → Z.

Example rfc3339nano_test : rfc3339nano 1709210096000450000 = "2024-02-29T12:34:56.00045Z".
Proof. reflexivity. Qed.

(** * The cluster, as restores see it *)
Record VolumeMount := { vm_Name : string; vm_MountPath : string; vm_ReadOnly : bool }.
Record RestoreCluster := {
  rc_bc :> BackupCluster;
  rc_ImagePullPolicy : string;
  rc_InitSecurityContext : option string;         (* Spec.InitContainerSecurityContext, as text *)
  rc_BackupVolumeMounts : list VolumeMount;
  rc_SecretsSSL : string;
  rc_SecretsSSLPBM : string;
  rc_AllowInvalidCertificates : option bool;
  rc_Engines : gmap string string;                (* Storage.Engine of the replica sets, by name *)
  rc_CABundles : gmap string (string * string)    (* Minio.CABundle of the storages: its name and key *)
}.
Definition AnnotationResyncPBM : string := "percona.com/resync-pbm".
Definition AnnotationResyncInProgress : string := "percona.com/resync-in-progress".
Definition annotated (cr : PerconaServerMongoDB) (a : string) : bool :=
  match cr_Annotations cr !! a with Some v => negb (bool_decide (v = "")) | None => false end.
Definition PBMResyncNeeded (cr : PerconaServerMongoDB) : bool := annotated cr AnnotationResyncPBM.
Definition PBMResyncInProgress (cr : PerconaServerMongoDB) : bool := annotated cr AnnotationResyncInProgress.

Definition CanRestore (cr : PerconaServerMongoDB) (restore : RestoreCR) : result unit :=
  if cr_Unmanaged cr then Err (ENew "can't run restore in an unmanaged cluster")
  else if cr_ShardingEnabled cr && IsCloningNamespace restore then
    Err (ENew "namespace cloning is not supported in sharded clusters")
  else Ok tt.

Definition GetAllReplsets (cr : PerconaServerMongoDB) : list ReplsetSpec :=
  cr_Replsets cr ++ (if cr_ShardingEnabled cr then option_list (cr_ConfigsvrReplSet cr) else []).
Definition IsPITREnabled (b : BackupSpec) : bool :=
  b_Enabled b && bool_decide (size (b_Storages b) = 1) && pitr_Enabled (b_PITR b).
Definition GetSnapshotInfo (s : list SnapshotInfo) (replsetName : string) : option SnapshotInfo :=
  snd <$> list_find (λ i, sn_ReplsetName i = replsetName) s.

(** ** Names *)
Definition ComponentNonVotingShort : string := "nv".
Definition NonVotingStatefulSetName (cr : PerconaServerMongoDB) (rs : ReplsetSpec) : string :=
  cr_Name cr +:+ "-" +:+ rs_Name rs +:+ "-" +:+ ComponentNonVotingShort.
Definition HiddenStatefulSetName (cr : PerconaServerMongoDB) (rs : ReplsetSpec) : string :=
  cr_Name cr +:+ "-" +:+ rs_Name rs +:+ "-" +:+ ComponentHidden.
Definition ArbiterStatefulSetName (cr : PerconaServerMongoDB) (rs : ReplsetSpec) : string :=
  cr_Name cr +:+ "-" +:+ rs_Name rs +:+ "-" +:+ ComponentArbiter.
Definition PodName (cr : PerconaServerMongoDB) (rs : ReplsetSpec) (idx : Z) : string :=
  cr_Name cr +:+ "-" +:+ rs_Name rs +:+ "-" +:+ itoa idx.
Definition NonVotingPodName (cr : PerconaServerMongoDB) (rs : ReplsetSpec) (idx : Z) : string :=
  NonVotingStatefulSetName cr rs +:+ "-" +:+ itoa idx.
Definition HiddenPodName (cr : PerconaServerMongoDB) (rs : ReplsetSpec) (idx : Z) : string :=
  HiddenStatefulSetName cr rs +:+ "-" +:+ itoa idx.
Definition PVCLabels (component replsetName instanceName : string) : gmap string string :=
  <[LabelInstance := instanceName]> (<[LabelReplset := replsetName]> (<[LabelComponent := component]> Labels)).

(** * Locks of PBM *)
Definition IsPITRLock (l : Lock) : bool := bool_decide (lock_Type l = CmdPITR).
Definition IsBackupOrRestoreLock (l : Lock) : bool :=
  bool_decide (lock_Type l = CmdBackup) || bool_decide (lock_Type l = CmdRestore).
Definition HasLocks {W} {P : PBM W} (allowed : Lock → bool) : GoM W bool := hasLocks false allowed.

(** * The status and an error

    A function of the source that returns a status and an error returns both. *)
Abbreviation restore_outcome := (RestoreStatus * option error)%type.
(** [if err != nil { return status, wrap(err) }]; a panic goes through. *)
Definition orelse {W A} (st : RestoreStatus) (wrap : error → error) (m : GoM W A)
    (k : A → GoM W restore_outcome) : GoM W restore_outcome :=
  r ← catchM m;
  match r with
  | Ok a => k a
  | Err e => mret (st, Some (wrap e))
  end.
Definition wrapped (msg : string) (e : error) : error := EWrap e msg.
Definition as_is (e : error) : error := e.

(** * A restore of a logical backup from its source, and a cluster, for concrete runs *)
Definition restore_source : BackupSource :=
  {| src_Type := LogicalBackup; src_Destination := "/backups/2026-01-01T00:00:00Z"; src_S3 := None; src_Minio := None;
     src_GCS := None; src_Azure := None; src_OSS := None; src_OCI := None;
     src_Filesystem := Some {| fs_Path := "/backups" |}; src_Snapshots := [] |}.
Definition a_restore (st : RestoreState) : RestoreCR :=
  {| ro_Name := "r"; ro_Namespace := "ns";
     ro_Spec := {| rsp_ClusterName := "c"; rsp_BackupName := ""; rsp_BackupSource := Some restore_source;
                   rsp_StorageName := ""; rsp_PITR := None; rsp_Selective := None; rsp_RSMap := None |};
     ro_Status := to_State st zeroRestoreStatus |}.
Definition a_restore_cluster (rss : list ReplsetSpec) : RestoreCluster :=
  {| rc_bc := {| bc_cr := a_cluster rss; bc_Backup := bc_Backup a_backup_cluster; bc_Status := bc_Status a_backup_cluster;
                 bc_Pause := false; bc_SecretsSSE := ""; bc_UnsafeConf := false; bc_BackupIfUnhealthy := false |};
     rc_ImagePullPolicy := ""; rc_InitSecurityContext := None; rc_BackupVolumeMounts := [];
     rc_SecretsSSL := ""; rc_SecretsSSLPBM := ""; rc_AllowInvalidCertificates := None; rc_Engines := ∅; rc_CABundles := ∅ |}.
