(* ===== verification/RestoreLogical.v ===== *)
(** A restore up to its start, and logical restores: the backup and the storage
    of a restore, the leases and locks it waits for, resynchronisation, what is
    checked before it starts (validate.go), and logical.go. *)
From S2P Require Import Prelude ReplsetModels MongoClient Api Kube Hosts GoSort BackupApi Lease BackupExec PbmConfig.
From S2P Require Import BackupController.
From S2P Require Export RestoreApi.
From Stdlib Require Import Ascii.

(** * The outside *)
Record RestoreMeta := {
  rmeta_Name : string;
  rmeta_Status : PBMStatus;
  rmeta_Error : string;
  rmeta_LastTransitionTS : Z
}.
Record RestoreCmd := {
  rcmd_Name : string;
  rcmd_BackupName : string;
  rcmd_RSMap : option (gmap string string);
  rcmd_Namespaces : list string;
  rcmd_UsersAndRoles : bool;
  rcmd_NamespaceFrom : string;
  rcmd_NamespaceTo : string;
  rcmd_OplogTS : Z                          (* its T *)
}.
(** What a restore asks of PBM beyond a backup.  [rpbm_CheckStorage] opens the
    storage and looks for the files of a backup. *)
Class RestorePBM (W : Type) := {
  rpbm_SetConfigVar : string → string → GoM W unit;
  rpbm_GetRestoreMeta : string → GoM W (option RestoreMeta);
  rpbm_SendCmd : RestoreCmd → GoM W unit;
  rpbm_GetPITRChunkContains : Z → option (gmap string string) → GoM W unit;
  rpbm_GetTimelinesPITR : option (gmap string string) → GoM W (list (Z * Z));   (* Start, End *)
  rpbm_CheckStorage : PBMConfig → string → GoM W unit;
  rpbm_ResyncMainStorageAndWait : GoM W unit;
  rpbm_ResyncProfileAndWait : string → GoM W unit
}.
Class RestoreClient (W : Type) := {
  rapi_get : string → string → GoM W RestoreCR;                        (* client.Get *)
  rapi_update_status : RestoreCR → GoM W unit;                        (* Status().Update *)
  rapi_get_cluster : string → string → GoM W RestoreCluster;
  rapi_patch_cluster : RestoreCluster → RestoreCluster → GoM W unit;  (* Patch, from the first *)
  rapi_CheckNSetDefaults : RestoreCluster → string → result RestoreCluster;
  rapi_get_snapshot : string → string → GoM W unit                    (* whether a VolumeSnapshot is there *)
}.

Definition errWaitingPBM : error := ENew "waiting for pbm-agent".
Definition ErrNoOplogsForPITR : error := ENew "there is no oplogs that can cover the date/time or no oplogs at all".

Section logical.
Context {W : Type} {KB : BackupClient W} {P : PBM W} {E : BackupEnv W} {L : LeaseClient W} {K : K8sClient W}.
Context {RP : RestorePBM W} {RC : RestoreClient W} {C : MongoByCredentials W} {PS : PbmStore W}.
Context {V : Versions} {VP : VersionParser} {O : MapOrder} {Y : Yaml}.
Abbreviation M := (GoM W).
Implicit Types (cr : RestoreCR) (bcp : PerconaServerMongoDBBackup) (cluster : RestoreCluster).

(** * The backup and its storage *)

(** [s[len(s)-1]] of [strings.Split(s, "/")] *)
Definition last_component (s : string) : string := default "" (last (split_char "/" s)).

(** The first storage that is given, in the order of [getStorage] *)
Definition source_ref (s : BackupSource) : option StorageRef :=
  match src_Azure s, src_S3 s, src_Minio s, src_GCS s, src_Filesystem s, src_OSS s, src_OCI s with
  | Some x, _, _, _, _, _, _ => Some (RefAzure x)
  | _, Some x, _, _, _, _, _ => Some (RefS3 x)
  | _, _, Some x, _, _, _, _ => Some (RefMinio x)
  | _, _, _, Some x, _, _, _ => Some (RefGCS x)
  | _, _, _, _, Some x, _, _ => Some (RefFilesystem x)
  | _, _, _, _, _, Some x, _ => Some (RefOSS x)
  | _, _, _, _, _, _, Some x => Some (RefOCI x)
  | _, _, _, _, _, _, _ => None
  end.

(** The backup that a source stands for.  Of its storages, which nothing reads,
    the first is kept. *)
Definition source_backup cr (s : BackupSource) : PerconaServerMongoDBBackup :=
  {| bk_Name := ro_Name cr; bk_GenerateName := ""; bk_Namespace := ro_Namespace cr; bk_UID := ""; bk_Labels := ∅;
     bk_Annotations := ∅; bk_Finalizers := []; bk_Deleting := false; bk_CreationTimestamp := zeroTime;
     bk_Spec :=
       {| bsp_ClusterName := rsp_ClusterName (ro_Spec cr); bsp_StorageName := rsp_StorageName (ro_Spec cr);
          bsp_Compression := ""; bsp_CompressionLevel := None; bsp_Type := src_Type s;
          bsp_VolumeSnapshotClass := None; bsp_StartingDeadlineSeconds := None |};
     bk_Status :=
       {| bs_Type := src_Type s; bs_State := BackupStateReady; bs_WaitingReason := NotWaiting;
          bs_Destination := src_Destination s; bs_StorageName := rsp_StorageName (ro_Spec cr);
          bs_Storage := source_ref s; bs_ReplsetNames := []; bs_PBMname := last_component (src_Destination s);
          bs_Size := ""; bs_Snapshots := src_Snapshots s; bs_PBMPod := ""; bs_PBMPods := ∅; bs_Error := "";
          bs_StartAt := None; bs_CompletedAt := None; bs_LastWriteAt := None; bs_LastTransition := None;
          bs_LatestRestorableTime := None |} |}.

Definition getBackup cr : M PerconaServerMongoDBBackup :=
  match rsp_BackupSource (ro_Spec cr) with
  | Some s =>
      if bool_decide (rsp_BackupName (ro_Spec cr) = "") then mret (source_backup cr s)
      else api_get_backup (ro_Namespace cr) (rsp_BackupName (ro_Spec cr))
  | None => api_get_backup (ro_Namespace cr) (rsp_BackupName (ro_Spec cr))
  end.

(** Specifications that are not given are zero. *)
Definition zeroBucket : BucketSpec :=
  {| bu_Bucket := ""; bu_Prefix := ""; bu_EndpointURL := ""; bu_CredentialsSecret := "" |}.
Definition zeroStorage (ty : BackupStorageType) : BackupStorageSpec := {|
  stg_Type := ty; stg_Main := false;
  stg_S3 := {| s3_bucket := zeroBucket; s3_Region := ""; s3_UploadPartSize := 0; s3_MaxUploadParts := 0;
    s3_StorageClass := ""; s3_InsecureSkipTLSVerify := false; s3_ForcePathStyle := None; s3_Retryer := None;
    s3_SSE := {| SSEAlgorithm := ""; SSE_KMSKeyID := ""; SSECustomerAlgorithm := ""; SSE_CustomerKey := "" |} |};
  stg_Minio := {| mio_bucket := zeroBucket; mio_Region := ""; mio_PartSize := 0; mio_InsecureSkipTLSVerify := false;
    mio_CABundle := false; mio_ForcePathStyle := None; mio_DebugTrace := false; mio_Retryer := None;
    mio_Secure := false |};
  stg_GCS := {| gcs_bucket := zeroBucket; gcs_ChunkSize := 0; gcs_Retryer := None |};
  stg_Azure := zeroBucket;
  stg_OSS := {| oss_bucket := zeroBucket; oss_Region := ""; oss_ConnectTimeout := 0; oss_UploadPartSize := 0;
    oss_MaxUploadParts := 0; oss_Retryer := None;
    oss_SSE := {| osse_SecretName := ""; osse_EncryptionMethod := ""; osse_EncryptionAlgorithm := "";
      osse_EncryptionKeyID := "" |} |};
  stg_Filesystem := {| fs_Path := "" |};
  stg_OCI := {| oci_bucket := zeroBucket; oci_Region := ""; oci_Namespace := ""; oci_AuthType := AuthTypeUserPrincipal;
    oci_Retryer := None; oci_SSE_KmsKeyID := ""; oci_SSE_SecretName := ""; oci_UploadPartSize := 0;
    oci_MaxObjSizeGB := None; oci_UploadConcurrency := 0 |} |}.
Definition ref_storage (r : StorageRef) : BackupStorageSpec :=
  let o := zeroStorage BackupStorageS3 in
  let stg ty s3 mio gcs az oss f oci :=
    {| stg_Type := ty; stg_Main := false; stg_S3 := s3; stg_Minio := mio; stg_GCS := gcs; stg_Azure := az;
       stg_OSS := oss; stg_Filesystem := f; stg_OCI := oci |} in
  match r with
  | RefAzure s => stg BackupStorageAzure (stg_S3 o) (stg_Minio o) (stg_GCS o) s (stg_OSS o) (stg_Filesystem o) (stg_OCI o)
  | RefS3 s => stg BackupStorageS3 s (stg_Minio o) (stg_GCS o) (stg_Azure o) (stg_OSS o) (stg_Filesystem o) (stg_OCI o)
  | RefMinio s => stg BackupStorageMinio (stg_S3 o) s (stg_GCS o) (stg_Azure o) (stg_OSS o) (stg_Filesystem o) (stg_OCI o)
  | RefGCS s => stg BackupStorageGCS (stg_S3 o) (stg_Minio o) s (stg_Azure o) (stg_OSS o) (stg_Filesystem o) (stg_OCI o)
  | RefFilesystem s => stg BackupStorageFilesystem (stg_S3 o) (stg_Minio o) (stg_GCS o) (stg_Azure o) (stg_OSS o) s (stg_OCI o)
  | RefOSS s => stg BackupStorageOSS (stg_S3 o) (stg_Minio o) (stg_GCS o) (stg_Azure o) s (stg_Filesystem o) (stg_OCI o)
  | RefOCI s => stg BackupStorageOCI (stg_S3 o) (stg_Minio o) (stg_GCS o) (stg_Azure o) (stg_OSS o) (stg_Filesystem o) s
  end.

(** A storage without a type, where the source gives none, is [None]. *)
Definition getStorage cr cluster (storageName : string) : result (option BackupStorageSpec) :=
  if negb (bool_decide (storageName = "")) then
    match b_Storages (bc_Backup cluster) !! storageName with
    | Some storage => Ok (Some storage)
    | None => Err (ENew ("unable to get storage '" +:+ storageName +:+ "'"))
    end
  else match rsp_BackupSource (ro_Spec cr) with
       | None => Err nil_panic
       | Some s => Ok (ref_storage <$> source_ref s)
       end.

(** PBM's configuration for such a storage *)
Definition no_storage_type {A} cluster : M A :=
  wrapM "compare pbm-agent version" (liftR (ComparePBMAgentVersion cluster MinPBMVersionOSS));;
  throw (ENew "unsupported backup storage type").
Definition pbm_config cluster (stg : option BackupStorageSpec) : M PBMConfig :=
  match stg with
  | Some stg => GetPBMConfig cluster stg
  | None =>
      (match b_BackupOptions (bc_Backup cluster) with
       | Some opts => if is_none (bo_Priority opts) then wrapM "get priorities" (GetPriorities cluster);; mret tt
                      else mret tt
       | None => mret tt
       end);;
      wrapM "get storage config" (no_storage_type cluster)
  end.
Definition add_profile cluster (name : string) (stg : option BackupStorageSpec) : M unit :=
  match stg with
  | Some stg => AddProfile cluster name stg
  | None => wrapM "get profile" (wrapM "get external storage config" (no_storage_type cluster))
  end.

(** * What a restore waits for *)
Definition checkClusterSyncLease cr cluster : M bool :=
  csActive ← wrapM "check clustersync lease"
    (IsLeaseActive (ClusterSyncLeaseName (cr_Name cluster)) (cr_Namespace cluster));
  if negb csActive then mret false
  else
    (if condition_true (rst_Conditions (ro_Status cr)) ConditionClusterSyncActive then mret tt
     else be_event "ClusterSyncActive");;
    mret true.

(** The error of [Close] is only logged. *)
Definition checkRestoreLocks cluster : M RestoreWaitingReason :=
  leaseActive ← wrapM "check backup lease" (IsLeaseActive (BackupLeaseName (cr_Name cluster)) (cr_Namespace cluster));
  if leaseActive : bool then mret RestoreWaitingReasonBackupLease
  else
    n ← catchM (newPBM cluster);
    match n with
    | Err _ => mret RestoreWaitingReasonPBMAgent
    | Ok _ =>
        r ← catchM (HasLocks IsBackupOrRestoreLock);
        _ ← catchM pbm_Close;
        held ← wrapM "checking pbm locks" (liftR r);
        mret (if held : bool then RestoreWaitingReasonRestoreLock else RestoreNotWaiting)
    end.

(** * Before the start: validate.go *)
Definition GetLatestTimelinePITR (rsMap : option (gmap string string)) : M (Z * Z) :=
  timelines ← rpbm_GetTimelinesPITR rsMap;
  match last timelines with
  | None => throw ErrNoOplogsForPITR
  | Some tl => if bool_decide (tl.1 = 0)%Z || bool_decide (tl.2 = 0)%Z then throw ErrNoOplogsForPITR else mret tl
  end.

Definition ValidateBackup (cfg : PBMConfig) bcp : M unit :=
  wrapM "validate backup in metadata" (wrapM "get backup meta" (pbm_GetBackupMeta (bs_PBMname (bk_Status bcp))));;
  wrapM "validate backup in storage"
    (match pc_Storage cfg with
     | ConfFilesystem _ => mret tt
     | _ => rpbm_CheckStorage cfg (bs_PBMname (bk_Status bcp))
     end).

(** [cfg.Storage.Minio.InsecureSkipTLSVerify = true] *)
Definition skip_tls_verify (c : StorageConf) : StorageConf :=
  match c with
  | ConfMinio m =>
      ConfMinio {| mioc_Region := mioc_Region m; mioc_Endpoint := mioc_Endpoint m; mioc_Bucket := mioc_Bucket m;
        mioc_Prefix := mioc_Prefix m; mioc_PartSize := mioc_PartSize m; mioc_InsecureSkipTLSVerify := true;
        mioc_ForcePathStyle := mioc_ForcePathStyle m; mioc_DebugTrace := mioc_DebugTrace m;
        mioc_Credentials := mioc_Credentials m; mioc_Retryer := mioc_Retryer m; mioc_Secure := mioc_Secure m |}
  | c => c
  end.
Definition validation_config (storage : option BackupStorageSpec) (cfg : PBMConfig) : PBMConfig :=
  match storage with
  | Some s =>
      if bool_decide (stg_Type s = BackupStorageMinio) && mio_CABundle (stg_Minio s) then
        {| pc_Name := pc_Name cfg; pc_IsProfile := pc_IsProfile cfg; pc_Storage := skip_tls_verify (pc_Storage cfg);
           pc_PITR := pc_PITR cfg; pc_Backup := pc_Backup cfg; pc_Restore := pc_Restore cfg |}
      else cfg
  | None => cfg
  end.

Fixpoint snapshots_exist (ns : string) (l : list SnapshotInfo) : M unit :=
  match l with
  | [] => mret tt
  | info :: l' =>
      wrapM ("get volume snapshot " +:+ sn_SnapshotName info) (rapi_get_snapshot ns (sn_SnapshotName info));;
      snapshots_exist ns l'
  end.
Definition validateSnapshotExistence bcp : M unit :=
  snapshots_exist (bk_Namespace bcp) (bs_Snapshots (bk_Status bcp)).

Definition validateExternalBackup cluster bcp : M unit :=
  if negb (bool_decide (bsp_Type (bk_Spec bcp) = ExternalBackup)) then mret tt
  else if bool_decide (bs_Snapshots (bk_Status bcp) = []) then mret tt
  else
    match find (λ rs, is_none (GetSnapshotInfo (bs_Snapshots (bk_Status bcp)) (MongoReplsetName rs)))
            (GetAllReplsets cluster) with
    | Some rs => throw (ENew ("no snapshot info found for replset " +:+ rs_Name rs))
    | None => wrapM "validate snapshot existence" (validateSnapshotExistence bcp)
    end.

(** The target time of a point-in-time restore *)
Definition validate_pitr cr bcp (pitr : PITRestoreSpec) : M unit :=
  match pit_Date pitr with
  | Some date =>
      if bool_decide (pit_Type pitr = PITRestoreTypeDate) then
        (match bs_LastWriteAt (bk_Status bcp) with
         | Some lastWrite =>
             if bool_decide (date = lastWrite) then throw (ENew "backup's last write is equal to target time")
             else if Before date lastWrite then throw (ENew "backup's last write is later than target time")
             else mret tt
         | None => mret tt
         end);;
        rpbm_GetPITRChunkContains (date / second)%Z (rsp_RSMap (ro_Spec cr))
      else if bool_decide (pit_Type pitr = PITRestoreTypeLatest) then
        GetLatestTimelinePITR (rsp_RSMap (ro_Spec cr));; mret tt
      else mret tt
  | None =>
      if bool_decide (pit_Type pitr = PITRestoreTypeLatest) then
        GetLatestTimelinePITR (rsp_RSMap (ro_Spec cr));; mret tt
      else mret tt
  end.

Definition validate_in_pbm cr cluster bcp (storage : option BackupStorageSpec) : M unit :=
  cfg ← wrapM "get pbm config" (pbm_config cluster storage);
  wrapM "failed to validate backup" (ValidateBackup (validation_config storage cfg) bcp);;
  match rsp_PITR (ro_Spec cr) with
  | None => mret tt
  | Some pitr => validate_pitr cr bcp pitr
  end.

Definition validate cr cluster : M unit :=
  when cr_Unmanaged cluster raise ENew "cluster is unmanaged";
  bcp ← wrapM "get backup" (getBackup cr);
  if bool_decide (bsp_Type (bk_Spec bcp) = ExternalBackup) then
    wrapM "validate external backup" (validateExternalBackup cluster bcp)
  else if negb (bool_decide (bs_Type (bk_Status bcp) = LogicalBackup)) && negb (is_none (rsp_Selective (ro_Spec cr))) then
    throw (ENew "`.spec.selective` field is supported only for logical backups")
  else
    storage ← wrapM "get storage" (liftR (getStorage cr cluster (bsp_StorageName (bk_Spec bcp))));
    n ← catchM (newPBM cluster);
    match n with
    | Err _ => throw errWaitingPBM
    | Ok _ => deferM pbm_Close (validate_in_pbm cr cluster bcp storage)
    end.

(** * Resynchronisation, when PBM does not know the backup *)
Definition resync_source cr cluster : M unit :=
  stg ← wrapM "get storage" (liftR (getStorage cr cluster ""));
  let profileName := BackupSourceProfileName cr in
  got ← catchM config_GetConfig;
  empty ← (match got with
           | Ok _ => mret false
           | Err e => if IsErrNoDocuments e then mret true else throw (EWrap e "get config")
           end);
  if negb (is_none (rsp_PITR (ro_Spec cr))) || empty then
    cfg ← wrapM "get PBM config" (pbm_config cluster stg);
    wrapM "set PBM config" (wrapM "set config" (config_SetConfig cfg));;
    wrapM "start resync" rpbm_ResyncMainStorageAndWait
  else
    wrapM "add backup source as profile" (add_profile cluster profileName stg);;
    wrapM "start profile resync" (rpbm_ResyncProfileAndWait profileName).

Definition resync_backup cr cluster : M unit :=
  bcp ← wrapM "get backup" (getBackup cr);
  if (CompareVersion cluster "1.20.0" <? 0)%Z then wrapM "start config resync" rpbm_ResyncMainStorageAndWait
  else
    main ← wrapM "get main storage" (liftR (MainStorage (bc_Backup cluster)));
    if bool_decide (bs_StorageName (bk_Status bcp) = main.1) then
      wrapM "start config resync" rpbm_ResyncMainStorageAndWait
    else wrapM "start profile resync" (rpbm_ResyncProfileAndWait (bs_StorageName (bk_Status bcp))).

Definition resyncStorage cr cluster : M unit :=
  wrapM "new PBM connection" (newPBM cluster);;
  deferM pbm_Close
    (if bool_decide (rsp_BackupName (ro_Spec cr) = "") then resync_source cr cluster else resync_backup cr cluster).

(** * A logical restore: logical.go *)
Definition reEnablePITR (b : BackupSpec) : M unit :=
  if negb (IsPITREnabled b) then mret tt else rpbm_SetConfigVar "pitr.enabled" "true".

Definition restore_cmd cr (restoreName backupName : string) (ts : Z) : RestoreCmd :=
  let s := rsp_Selective (ro_Spec cr) in
  {| rcmd_Name := restoreName; rcmd_BackupName := backupName; rcmd_RSMap := rsp_RSMap (ro_Spec cr);
     rcmd_Namespaces := GetNamespaces s; rcmd_UsersAndRoles := GetWithUsersAndRoles s;
     rcmd_NamespaceFrom := GetNamespaceFrom s; rcmd_NamespaceTo := GetNamespaceTo s; rcmd_OplogTS := ts |}.

Definition getRestoreCmd cr (restoreName backupName : string) : M RestoreCmd :=
  match rsp_PITR (ro_Spec cr) with
  | None => mret (restore_cmd cr restoreName backupName 0)
  | Some pitr =>
      if bool_decide (pit_Type pitr = PITRestoreTypeDate) then
        match pit_Date pitr with
        | None => throw nil_panic
        | Some date =>
            let ts := (date / second)%Z in
            rpbm_GetPITRChunkContains ts (rsp_RSMap (ro_Spec cr));;
            mret (restore_cmd cr restoreName backupName (ts mod 2 ^ 32)%Z)
        end
      else if bool_decide (pit_Type pitr = PITRestoreTypeLatest) then
        tl ← GetLatestTimelinePITR (rsp_RSMap (ro_Spec cr));
        mret (restore_cmd cr restoreName backupName tl.2)
      else mret (restore_cmd cr restoreName backupName 0)
  end.

Definition runRestore (backupName : string) cr : M string :=
  now ← go_now;
  let restoreName := rfc3339nano now in
  cmd ← getRestoreCmd cr restoreName backupName;
  wrapM "send restore cmd" (rpbm_SendCmd cmd);;
  mret restoreName.

(** The start: PITR is switched off, and must have let go of its lock. *)
Definition start_logical cr (backupName : string) : M restore_outcome :=
  let status := ro_Status cr in
  orelse status (wrapped "disable pitr") (rpbm_SetConfigVar "pitr.enabled" "false") (λ _,
  orelse status (wrapped "checking pbm pitr locks") (HasLocks IsPITRLock) (λ isBlockedByPITR,
  if isBlockedByPITR : bool then
    mret (to_WaitingReason RestoreWaitingReasonPITR (to_State RestoreStateWaiting status), None)
  else
    r ← catchM (runRestore backupName cr);
    mret (match r with
          | Ok name => (to_State RestoreStateRequested (to_PBMname name status), None)
          | Err e => (to_State RestoreStateRequested (to_PBMname "" status), Some e)
          end))).

Definition follow_logical cr cluster : M restore_outcome :=
  let status := ro_Status cr in
  let enable st := orelse st as_is (reEnablePITR (bc_Backup cluster)) (λ _, mret (st, None)) in
  got ← catchM (rpbm_GetRestoreMeta (rst_PBMname status));
  match got with
  | Err e => if IsPBMNotFound e then mret (status, None) else mret (status, Some (EWrap e "get pbm metadata"))
  | Ok None => mret (status, None)
  | Ok (Some meta) =>
      if bool_decide (rmeta_Name meta = "") then mret (status, None)
      else match rmeta_Status meta with
           | StatusError => enable (to_Error (rmeta_Error meta) (to_State RestoreStateError status))
           | StatusDone =>
               enable (to_CompletedAt (Some (unix (rmeta_LastTransitionTS meta))) (to_State RestoreStateReady status))
           | StatusStarting | StatusRunning => mret (to_State RestoreStateRunning status, None)
           | _ => mret (status, None)
           end
  end.

Definition fresh_restore (s : RestoreState) : bool :=
  bool_decide (s = RestoreStateNew) || bool_decide (s = RestoreStateWaiting).

Definition reconcileLogicalRestore cr bcp cluster : M restore_outcome :=
  n ← catchM (newPBM cluster);
  match n with
  | Err _ => mret (to_WaitingReason RestoreWaitingReasonPBMAgent (to_State RestoreStateWaiting (ro_Status cr)), None)
  | Ok _ =>
      deferM pbm_Close
        (if fresh_restore (ro_State cr) then start_logical cr (bs_PBMname (bk_Status bcp))
         else follow_logical cr cluster)
  end.
End logical.
