(* ===== verification/SnapshotRestore.v ===== *)
(** Restores from volume snapshots (snapshots.go): as a physical restore up to
    the start of PBM; then the stateful sets go down, their claims are made again
    from the snapshots, the sets come up with PBM alone in them, PBM finishes the
    restore, and the sets are deleted.

    The steps that are done are conditions of the status, so that a run goes on
    where the last one stopped. *)
From S2P Require Import Prelude ReplsetModels MongoClient Api Kube Hosts GoSort SystemUsers Shell BackupApi Lease BackupExec.
From S2P Require Import PbmConfig InPlace SmartUpdate Status RestoreLogical PhysicalRestore.
From S2P Require Defaults.

(** A claim as it stands in the API server *)
Record RestoreClaim := {
  clm_Name : string;
  clm_Namespace : string;
  clm_Labels : gmap string string;
  clm_Annotations : gmap string string;
  clm_Deleting : bool;
  clm_Spec : ClaimSpec
}.
Class ClaimClient (W : Type) := {
  claim_get : string → string → GoM W RestoreClaim;
  claim_create : RestoreClaim → GoM W unit;
  claim_delete : RestoreClaim → GoM W unit
}.

Section snapshots.
Context {W : Type} {KB : BackupClient W} {P : PBM W} {K : K8sClient W} {Q : PodClient W} {RK : RestoreK8s W}.
Context {RC : RestoreClient W} {PS : PbmStore W} {CD : RestoreCodec} {CC : ClaimClient W}.
Context {V : Versions} {VP : VersionParser} {O : MapOrder} {G : GoSort} {Y : Yaml} {R : GoRetryOn}.
Abbreviation M := (GoM W).
Implicit Types (cr : RestoreCR) (bcp : PerconaServerMongoDBBackup) (cluster : RestoreCluster) (rs : ReplsetSpec).

Definition dbConfigSecretName cluster rs : string := cr_Name cluster +:+ "-" +:+ rs_Name rs +:+ "-pbm-db-config".
Definition encryption_enabled cluster rs : result bool :=
  Defaults.rs_IsEncryptionEnabled (default "" (rc_Engines cluster !! rs_Name rs)) (rs_Configuration rs).

(** * The configuration of the mongod that PBM starts *)
Definition vault_token (sec : gmap string yval) : gmap string yval :=
  match sec !! "vault" with
  | Some (YMap vault) => <["vault" := YMap (<["tokenFile" := YStr "/tmp/vault-token"]> vault)]> sec
  | _ => sec
  end.
Definition security_conf cluster rs : result (option (gmap string yval)) :=
  if VaultEnabled (rs_Configuration rs) then
    sec ← wrap_err ("get security config for replset " +:+ rs_Name rs) (GetOptions (rs_Configuration rs) "security");
    mret (match sec with Some sec => Some (vault_token sec) | None => None end)
  else
    enabled ← wrap_err ("check encryption for replset " +:+ rs_Name rs) (encryption_enabled cluster rs);
    mret (if enabled : bool
        then Some {[ "enableEncryption" := YBool true; "encryptionKeyFile" := YStr ("/tmp/" +:+ EncryptionKeyName) ]}
        else None).
Definition db_config_secret cluster rs (text : string) : Secret :=
  {| secret_Name := dbConfigSecretName cluster rs; secret_Namespace := cr_Namespace cluster;
     secret_Labels := ClusterLabels cluster; secret_Annotations := ∅; secret_ResourceVersion := "";
     secret_Data := {[ "db_config.yaml" := text ]} |}.
Fixpoint db_config_secrets cluster (l : list ReplsetSpec) : M unit :=
  match l with
  | [] => mret tt
  | rs :: l' =>
      conf ← liftR (security_conf cluster rs);
      (match conf with
       | None => mret tt
       | Some conf =>
           match yaml_marshal {[ "security" := YMap conf ]} with
           | None => throw (EWrap (EExt KOther "yaml") ("marshal db config to yaml for replset " +:+ rs_Name rs))
           | Some text =>
               wrapM ("create db config secret for replset " +:+ rs_Name rs) (Apply (db_config_secret cluster rs text))
           end
       end);;
      db_config_secrets cluster l'
  end.
Definition createOrUpdateDBConfigSecret cluster : M unit := db_config_secrets cluster (GetAllReplsets cluster).
Fixpoint delete_db_secrets cluster (l : list ReplsetSpec) : M unit :=
  match l with
  | [] => mret tt
  | rs :: l' =>
      r ← catchM (rsecret_delete (cr_Namespace cluster) (dbConfigSecretName cluster rs));
      (match r with
       | Err e => if IsNotFound e then mret tt else throw (EWrap e ("delete db config secret for replset " +:+ rs_Name rs))
       | Ok _ => mret tt
       end);;
      delete_db_secrets cluster l'
  end.
Definition deleteDBConfigSecrets cluster : M unit := delete_db_secrets cluster (GetAllReplsets cluster).

(** * The first runs: New, Waiting, Requested *)
Definition reconcileSnapshotNew cr cluster : M restore_outcome :=
  let status := ro_Status cr in
  orelse status (wrapped "update PBM config secret") (updatePBMConfigSecret cluster) (λ _,
  mret (to_WaitingReason RestoreWaitingReasonPreparation (to_State RestoreStateWaiting status), None)).

Definition snapshot_command cluster : list string :=
  ["/opt/percona/pbm"; "restore"; "--external"; "--out"; "json"] ++ agent_yes cluster.
Definition reconcileSnapshotWaiting cr cluster : M restore_outcome :=
  let status := ro_Status cr in
  orelse status (wrapped "create db config secret") (createOrUpdateDBConfigSecret cluster) (λ _,
  orelse status (wrapped "prepare statefulsets for physical restore")
    (prepareStatefulSetsForPhysicalRestore cluster) (λ ready,
  if negb ready then mret (status, None)
  else
    orelse status (wrapped "check if statefulsets are ready for physical restore")
      (checkIfStatefulSetsAreReadyForPhysicalRestore cluster) (λ sfsReady,
    if negb sfsReady then mret (to_WaitingReason RestoreWaitingReasonStatefulSets status, None)
    else
      orelse status (wrapped "get pod") (first_pod cluster (GetAllReplsets cluster)) (λ pod,
      orelse status as_is
        (retry_value anotherOpBackoff start_again ""
           (exec_out (quoting "start restore") pod "mongod" (snapshot_command cluster))) (λ out,
      started status (λ _ e, EWrap e "unmarshal PBM restore output") out))))).

(** [describe-restore] with its answer decoded in the retried function *)
Definition described_once cluster (pbmName : string) : GoM (DescribeMeta * W) unit := λ s,
  match describe_once cluster pbmName ("", s.2) with
  | (Ok _, (out, w')) =>
      match json_describe_restore out with
      | Ok meta => (Ok tt, (meta, w'))
      | Err e => (Err (EWrap e "unmarshal PBM describe-restore output"), (s.1, w'))
      end
  | (Err e, (_, w')) => (Err e, (s.1, w'))
  end.
Definition zeroDescribe : DescribeMeta := {| dm_Status := StatusOther ""; dm_Err := ""; dm_Replsets := [] |}.
Definition snapshot_again (e : error) : bool :=
  isContainerUnavailableError e || says "error dialing backend: No agent available" e
  || says "unable to upgrade connection" e || says "unmarshal PBM describe-restore output" e.

Definition reconcileSnapshotRequested cr cluster : M restore_outcome :=
  let status := ro_Status cr in
  orelse status as_is
    (retry_value DefaultBackoff snapshot_again zeroDescribe (described_once cluster (rst_PBMname status))) (λ meta,
  mret (if negb (bool_decide (dm_Status meta = StatusCopyReady)) then status else to_State RestoreStateRunning status,
        None)).

(** * Running: a step that is done is a condition *)
Definition done (status : RestoreStatus) (ty : string) : bool := condition_true (rst_Conditions status) ty.
Definition on_conditions (f : list Condition → list Condition) (status : RestoreStatus) : RestoreStatus :=
  to_Conditions (f (rst_Conditions status)) status.
(** [meta.SetStatusCondition(&status.Conditions, ...)] *)
Definition mark (ty reason message : string) (status : RestoreStatus) : M RestoreStatus :=
  now ← go_now;
  mret (on_conditions (SetStatusCondition now ty ConditionTrue reason message) status).

(** ** Down *)
Definition isEncrypted cluster rs : result bool :=
  if VaultEnabled (rs_Configuration rs) then Ok true
  else wrap_err "failed to check if encryption is enabled" (encryption_enabled cluster rs).
Definition finish_args cluster rs (pbmName : string) : list string :=
  ["restore-finish"; pbmName; "-c"; "/etc/pbm/pbm_config.yaml"; "--rs"; "$(MONGODB_REPLSET)"; "--node";
   GetAddr cluster "$(POD_NAME)" (rs_Name rs) (rs_GetPort rs)].
Definition key_paths rs : string * string :=
  if VaultEnabled (rs_Configuration rs) then ("/etc/mongodb-vault/token", "/tmp/vault-token")
  else (MongodRESTencryptDir +:+ "/" +:+ EncryptionKeyName, "/tmp/" +:+ EncryptionKeyName).
Definition quoted_args : string := String (Ascii.ascii_of_nat 34) ("$@" +:+ String (Ascii.ascii_of_nat 34) "").
Definition encrypted_command rs : list string :=
  let '(src, dst) := key_paths rs in
  ["bash"; "-c"; "cp " +:+ src +:+ " " +:+ dst +:+ " && chmod 0600 " +:+ dst +:+ " && exec /opt/percona/pbm-agent "
                 +:+ quoted_args; "--"].
Definition finish_sts cluster rs (pbmName : string) (sfs : RestoreSts) : result RestoreSts :=
  let sfs := set_replicas 0 sfs in
  sfs ← on_first (set_command ["/opt/percona/pbm-agent"]) sfs;
  enc ← wrap_err "failed to check if encryption is enabled" (isEncrypted cluster rs);
  let args := finish_args cluster rs pbmName in
  if enc : bool then
    let sfs := add_volume {| vol_Name := "pbm-db-config"; vol_Secret := Some (dbConfigSecretName cluster rs, None) |} sfs in
    on_first (λ c, drop_probes (set_args (args ++ ["--db-config"; "/etc/pbm-db-config/db_config.yaml"])
      (set_command (encrypted_command rs)
        (add_mounts [{| vm_Name := "pbm-db-config"; vm_MountPath := "/etc/pbm-db-config/"; vm_ReadOnly := true |}] c)))) sfs
  else on_first (λ c, drop_probes (set_args args c)) sfs.

Definition scale_down_once cluster rs (pbmName name : string) : GoM (bool * W) unit :=
  sfs ← on_world (rts_get (cr_Namespace cluster) name);
  (if (0 <? sts_ReadyReplicas (sfs : RestoreSts))%Z then mod_mem (λ _, false) else mret tt);;
  if bool_decide (sts_SpecReplicas (sfs : RestoreSts) = Some 0%Z) then mret tt
  else
    sfs' ← liftR (finish_sts cluster rs pbmName sfs);
    on_world (rts_patch sfs sfs');;
    on_world (terminateStatefulSetPods (rts_Namespace sfs') (sts_Name (sfs' : RestoreSts)) true);;
    mret tt.
Fixpoint scale_down cluster (pbmName : string) (l : list (ReplsetSpec * string)) (ok : bool) : M bool :=
  match l with
  | [] => mret ok
  | (rs, name) :: l' =>
      ok ← wrapM ("prepare statefulset " +:+ name +:+ " for snapshot restore")
             (retry_value DefaultBackoff isConflict ok (scale_down_once cluster rs pbmName name));
      scale_down cluster pbmName l' ok
  end.
Definition sets_of cluster : list (ReplsetSpec * string) :=
  rs ← GetAllReplsets cluster; map (λ p, (rs, p.2)) (data_sets cluster rs).
Definition scaleDownStatefulSetsForSnapshotRestore cluster (status : RestoreStatus) : M (bool * RestoreStatus) :=
  if done status ConditionPBMAgentConfiguredForSnapshot then mret (true, status)
  else
    ok ← scale_down cluster (rst_PBMname status) (sets_of cluster) true;
    status ← (if ok : bool then
                mark ConditionPBMAgentConfiguredForSnapshot "AllStatefulSetsScaledDown"
                  "All statefulsets have been scaled down" status
              else mret status);
    mret (ok, status).

(** ** The claims *)
Record pvcInfo := {
  pvi_pvcName : string;
  pvi_snapshotName : string;
  pvi_template : ClaimSpec;
  pvi_labels : gmap string string
}.
Definition getVolumeClaimTemplate cluster (sfsName : string) : M ClaimSpec :=
  sfs ← wrapM ("get statefulset " +:+ sfsName) (rts_get (cr_Namespace cluster) sfsName);
  if bool_decide (map fst (rts_ClaimTemplates sfs) = []) then
    throw (ENew ("no volume claim templates found for statefulset " +:+ sfsName))
  else match find (λ t, bool_decide (t.1 = MongodDataVolClaimName)) (rts_ClaimTemplates sfs) with
       | Some t => mret t.2
       | None => throw (ENew ("volume claim template " +:+ MongodDataVolClaimName +:+ " not found"))
       end.

(** [for i := 0; i < size; i++] *)
Definition pod_claims (size : Z) (podName : Z → string) (vct : ClaimSpec) (snapshot : string) (labels : gmap string string)
    : list pvcInfo :=
  map (λ i, {| pvi_pvcName := MongodDataVolClaimName +:+ "-" +:+ podName (Z.of_nat i); pvi_snapshotName := snapshot;
               pvi_template := vct; pvi_labels := labels |}) (seq 0 (Z.to_nat size)).
Definition template_of cluster (name : string) : M ClaimSpec :=
  wrapM ("get volume claim template for statefulset " +:+ name) (getVolumeClaimTemplate cluster name).
Definition replset_claims cluster (snapshots : list SnapshotInfo) rs : M (list pvcInfo) :=
  match GetSnapshotInfo snapshots (MongoReplsetName rs) with
  | None => throw (ENew ("no snapshots found for replset " +:+ rs_Name rs))
  | Some snapshot =>
      let sn := sn_SnapshotName snapshot in
      vct ← template_of cluster (MongodStatefulSetName cluster rs);
      let labels := if bool_decide (rs_ClusterRole rs = "configsvr")
                    then PVCLabels ConfigReplSetName ConfigReplSetName (cr_Name cluster)
                    else PVCLabels ComponentMongod (rs_Name rs) (cr_Name cluster) in
      let mongod := pod_claims (rs_Size rs) (PodName cluster rs) vct sn labels in
      nv ← (if sz_Enabled (rs_NonVoting rs) then
              vct ← template_of cluster (NonVotingStatefulSetName cluster rs);
              mret (pod_claims (sz_Size (rs_NonVoting rs)) (NonVotingPodName cluster rs) vct sn
                      (PVCLabels ComponentNonVoting (rs_Name rs) (cr_Name cluster)))
            else mret []);
      hidden ← (if sz_Enabled (rs_Hidden rs) then
                  vct ← template_of cluster (HiddenStatefulSetName cluster rs);
                  mret (pod_claims (sz_Size (rs_Hidden rs)) (HiddenPodName cluster rs) vct sn
                          (PVCLabels ComponentHidden (rs_Name rs) (cr_Name cluster)))
                else mret []);
      mret (mongod ++ nv ++ hidden)
  end.
Fixpoint all_claims cluster (snapshots : list SnapshotInfo) (l : list ReplsetSpec) : M (list (list pvcInfo)) :=
  match l with
  | [] => mret []
  | rs :: l' =>
      infos ← replset_claims cluster snapshots rs;
      rest ← all_claims cluster snapshots l';
      mret (infos :: rest)
  end.

Definition AnnotationRestoreName : string := "percona.com/restore-name".
Definition generatePVCFromSnapshot (name namespace : string) (labels : gmap string string) (spec : ClaimSpec)
    (snapshotName restoreName : string) : RestoreClaim :=
  {| clm_Name := name; clm_Namespace := namespace; clm_Labels := labels;
     clm_Annotations := {[ AnnotationRestoreName := restoreName ]}; clm_Deleting := false;
     clm_Spec := {| cl_StorageClass := cl_StorageClass spec; cl_Requests := cl_Requests spec;
                    cl_DataSource := Some ("snapshot.storage.k8s.io", "VolumeSnapshot", snapshotName) |} |}.
(** Whether the claim is made from the snapshot by now *)
Definition restorePVC cr (info : pvcInfo) : M bool :=
  let pvcName := pvi_pvcName info in
  got ← catchM (claim_get (ro_Namespace cr) pvcName);
  match got with
  | Err e =>
      if IsNotFound e then
        wrapM ("create pvc " +:+ pvcName)
          (claim_create (generatePVCFromSnapshot pvcName (ro_Namespace cr) (pvi_labels info) (pvi_template info)
                           (pvi_snapshotName info) (ro_Name cr)));;
        mret true
      else throw (EWrap e ("get observed pvc " +:+ pvcName))
  | Ok observed =>
      if bool_decide (clm_Annotations (observed : RestoreClaim) !! AnnotationRestoreName = Some (ro_Name cr)) then mret true
      else if clm_Deleting observed then mret false
      else wrapM ("delete pvc " +:+ pvcName) (claim_delete observed);; mret false
  end.
(** The claims of a replica set, one after the other: the rest waits for the
    first that is not ready. *)
Fixpoint restore_claims cr (l : list pvcInfo) : M bool :=
  match l with
  | [] => mret true
  | info :: l' =>
      ready ← wrapM ("reconcile pvc " +:+ pvi_pvcName info +:+ " for snapshot restore") (restorePVC cr info);
      if negb ready then mret false else restore_claims cr l'
  end.
Fixpoint restore_replsets cr (l : list (list pvcInfo)) (ok : bool) : M bool :=
  match l with
  | [] => mret ok
  | infos :: l' => ready ← restore_claims cr infos; restore_replsets cr l' (ok && ready)
  end.
Definition rolloutRestoredPVCs cluster cr bcp (status : RestoreStatus) : M (bool * RestoreStatus) :=
  if done status ConditionReplsetPVCsRestoredFromSnapshot then mret (true, status)
  else
    infos ← all_claims cluster (bs_Snapshots (bk_Status bcp)) (GetAllReplsets cluster);
    ok ← restore_replsets cr infos true;
    status ← (if ok : bool then
                mark ConditionReplsetPVCsRestoredFromSnapshot "AllPVCsRestoredFromSnapshot"
                  "All pvcs have been restored from snapshot" status
              else mret status);
    mret (ok, status).

(** ** Up *)
Definition replicas_of cluster rs : list (string * Z) :=
  (MongodStatefulSetName cluster rs, rs_Size rs)
  :: (if sz_Enabled (rs_NonVoting rs) then [(NonVotingStatefulSetName cluster rs, sz_Size (rs_NonVoting rs))] else [])
  ++ (if sz_Enabled (rs_Hidden rs) then [(HiddenStatefulSetName cluster rs, sz_Size (rs_Hidden rs))] else []).
Definition wanted_replicas cluster : gmap string Z :=
  go_map_of Some (rs ← GetAllReplsets cluster; replicas_of cluster rs).
Definition scale_up_once cluster (name : string) (replicas : Z) : GoM (bool * W) unit :=
  sfs ← on_world (rts_get (cr_Namespace cluster) name);
  (if bool_decide (sts_ReadyReplicas (sfs : RestoreSts) = replicas) then mret tt else mod_mem (λ _, false));;
  if bool_decide (sts_SpecReplicas (sfs : RestoreSts) = Some replicas) then mret tt
  else on_world (rts_patch sfs (set_replicas replicas sfs)).
Fixpoint scale_up cluster (l : list (string * Z)) (ok : bool) : M bool :=
  match l with
  | [] => mret ok
  | (name, replicas) :: l' =>
      ok ← wrapM ("prepare statefulset " +:+ name +:+ " for snapshot restore")
             (retry_value DefaultBackoff isConflict ok (scale_up_once cluster name replicas));
      scale_up cluster l' ok
  end.
Definition scaleUpStatefulSetsForSnapshotRestore cluster (status : RestoreStatus) : M (bool * RestoreStatus) :=
  if done status ConditionPBMAgentAwaitingRestoreFinish then mret (true, status)
  else
    ok ← scale_up cluster (map_order (wanted_replicas cluster)) true;
    status ← (if ok : bool then
                mark ConditionPBMAgentAwaitingRestoreFinish "AllStatefulSetsScaledUp"
                  "All statefulsets have been scaled up" status
              else mret status);
    mret (ok, status).

(** ** The end *)
Definition finish_command (pbmName : string) : list string :=
  ["/opt/percona/pbm"; "restore-finish"; pbmName; "-c"; "/etc/pbm/pbm_config.yaml"].
Definition runPBMRestoreFinish cluster (status : RestoreStatus) : M RestoreStatus :=
  if done status ConditionPBMRestoreFinishing || done status ConditionPBMRestoreFinished then mret status
  else
    pod ← wrapM "get pod" (first_pod cluster (GetAllReplsets cluster));
    wrapM "failed to finish restore"
      (retry_value anotherOpBackoff start_again ""
         (exec_out (quoting "restore-finish") pod "mongod" (finish_command (rst_PBMname status))));;
    mark ConditionPBMRestoreFinishing "PBMRestoreFinishing" "PBM restore is finishing" status.
Definition awaitPBMRestoreFinish cluster (status : RestoreStatus) : M (bool * RestoreStatus) :=
  if done status ConditionPBMRestoreFinished then mret (true, status)
  else
    meta ← retry_value anotherOpBackoff snapshot_again zeroDescribe (described_once cluster (rst_PBMname status));
    if bool_decide (dm_Status meta = StatusError) then throw (ENew ("restore failed: " +:+ dm_Err meta))
    else if negb (bool_decide (dm_Status meta = StatusDone)) then mret (false, status)
    else
      status ← mark ConditionPBMRestoreFinished "PBMRestoreFinished" "PBM restore finished" status;
      mret (true, on_conditions (RemoveStatusCondition ConditionPBMRestoreFinishing) status).

Definition restored_sets cluster rs : list string :=
  MongodStatefulSetName cluster rs
  :: (if sz_Enabled (rs_NonVoting rs) then [NonVotingStatefulSetName cluster rs] else [])
  ++ (if sz_Enabled (rs_Hidden rs) then [HiddenStatefulSetName cluster rs] else [])
  ++ (if sz_Enabled (rs_Arbiter rs) then [ArbiterStatefulSetName cluster rs] else []).
Fixpoint delete_all cluster (l : list string) : M unit :=
  match l with
  | [] => mret tt
  | name :: l' =>
      r ← catchM (rts_delete (cr_Namespace cluster) name);
      (match r with
       | Err e => if IsNotFound e then mret tt else throw (EWrap e ("delete statefulset " +:+ name))
       | Ok _ => mret tt
       end);;
      delete_all cluster l'
  end.
Definition deleteStatefulSetsForSnapshotRestore cluster : M unit :=
  delete_all cluster (rs ← GetAllReplsets cluster; restored_sets cluster rs).
Definition ensureResyncPBMStorage cluster : M unit := wrapM "failed to resync PBM storage" (ask_resync cluster).

(** A step's status is kept; a step that is not done ends the run. *)
Definition step (status : RestoreStatus) (msg : string) (m : M (bool * RestoreStatus))
    (k : RestoreStatus → M restore_outcome) : M restore_outcome :=
  orelse status (wrapped msg) m (λ r, if negb r.1 then mret (r.2, None) else k r.2).
Definition finish_snapshot cluster (status : RestoreStatus) : M restore_outcome :=
  orelse status (wrapped "delete statefulsets for snapshot restore") (deleteStatefulSetsForSnapshotRestore cluster) (λ _,
  orelse status (wrapped "ensure resync PBM storage") (ensureResyncPBMStorage cluster) (λ _,
  orelse status (wrapped "delete db config secrets") (deleteDBConfigSecrets cluster) (λ _,
  now ← go_now;
  mret (to_CompletedAt (Some now) (to_State RestoreStateReady status), None)))).
Definition reconcileSnapshotRunning cr bcp cluster : M restore_outcome :=
  step (ro_Status cr) "prepare statefulsets for snapshot restore"
    (scaleDownStatefulSetsForSnapshotRestore cluster (ro_Status cr)) (λ status,
  step status "reconcile pvcs for snapshot restore" (rolloutRestoredPVCs cluster cr bcp status) (λ status,
  step status "scale up statefulsets for snapshot restore" (scaleUpStatefulSetsForSnapshotRestore cluster status) (λ status,
  orelse status (wrapped "run PBM restore finish") (runPBMRestoreFinish cluster status) (λ status,
  step status "await PBM restore finish" (awaitPBMRestoreFinish cluster status) (λ status,
  finish_snapshot cluster status))))).

Definition reconcileExternalSnapshotRestore cr bcp cluster : M restore_outcome :=
  match ro_State cr with
  | RestoreStateNew => reconcileSnapshotNew cr cluster
  | RestoreStateWaiting => reconcileSnapshotWaiting cr cluster
  | RestoreStateRequested => reconcileSnapshotRequested cr cluster
  | RestoreStateRunning => reconcileSnapshotRunning cr bcp cluster
  | _ => mret (ro_Status cr, None)
  end.
End snapshots.
