(* ===== verification/Restore.v ===== *)
(** The controller of PerconaServerMongoDBRestore resources
    (psmdb_restore_controller.go of pkg/controller/perconaservermongodbrestore):
    one run of [Reconcile], with the deferred function that writes the status.

    The variables that the deferred function reads are a memory beside the world:
    it runs on what they hold when the body returns, or panics.  The error of an
    inner scope hides the outer variable of the same name, which alone the
    deferred function sees: [attempt] assigns the outer one, [inner] does not. *)
From S2P Require Import Prelude ReplsetModels MongoClient Api Kube Hosts GoSort BackupApi Lease BackupExec PbmConfig.
From S2P Require Import BackupController InPlace Status RestoreLogical PhysicalRestore SnapshotRestore.

Record RestoreRun := {
  run_cr : RestoreCR;
  run_status : RestoreStatus;
  run_err : option error;
  run_clusterSync : option bool       (* clusterSyncChecked and clusterSyncActive *)
}.
Definition set_err (e : option error) (m : RestoreRun) : RestoreRun :=
  {| run_cr := run_cr m; run_status := run_status m; run_err := e; run_clusterSync := run_clusterSync m |}.
Definition set_cr (cr : RestoreCR) (m : RestoreRun) : RestoreRun :=
  {| run_cr := cr; run_status := run_status m; run_err := run_err m; run_clusterSync := run_clusterSync m |}.
Definition on_status (f : RestoreStatus → RestoreStatus) (m : RestoreRun) : RestoreRun :=
  {| run_cr := run_cr m; run_status := f (run_status m); run_err := run_err m; run_clusterSync := run_clusterSync m |}.
Definition set_clusterSync (active : bool) (m : RestoreRun) : RestoreRun :=
  {| run_cr := run_cr m; run_status := run_status m; run_err := run_err m; run_clusterSync := Some active |}.

Definition statusSteps : nat := 5.
Definition validateSteps : nat := 5.

Section controller.
Context {W : Type} {KB : BackupClient W} {P : PBM W} {E : BackupEnv W} {L : LeaseClient W} {K : K8sClient W}.
Context {Q : PodClient W} {RK : RestoreK8s W} {RP : RestorePBM W} {RC : RestoreClient W} {CC : ClaimClient W}.
Context {C : MongoByCredentials W} {PS : PbmStore W} {CD : RestoreCodec} {TZ : TimeZone}.
Context {V : Versions} {VP : VersionParser} {O : MapOrder} {G : GoSort} {Y : Yaml} {R : GoRetryOn}.
Context (reconcileIn : Z).
Abbreviation M := (GoM W).
Abbreviation B := (GoM (RestoreRun * W)).
Implicit Types (cr : RestoreCR) (bcp : PerconaServerMongoDBBackup) (cluster : RestoreCluster).

Definition rr : Result := {| RequeueAfter := reconcileIn |}.

(** [x, err = m(); if err != nil { return res, wrap(err) }] *)
Definition attempt {A} (res : Result) (wrap : error → error) (m : M A) (k : A → B reply) : B reply :=
  r ← on_world (catchM m);
  match r with
  | Ok a => mod_mem (set_err None);; k a
  | Err e => mod_mem (set_err (Some e));; mret (res, Some (wrap e))
  end.
(** [x, err := m(); if err != nil { return res, wrap(err) }] in an inner scope;
    a step there ends the run with a reply, or lets it go on. *)
Definition inner {A} (res : Result) (wrap : error → error) (m : M A) (k : A → B (option reply)) : B (option reply) :=
  r ← on_world (catchM m);
  match r with
  | Ok a => k a
  | Err e => mret (Some (res, Some (wrap e)))
  end.
(** Nothing more to do in this run *)
Definition later : B (option reply) := mret (Some (rr, None)).
Definition waits (reason : RestoreWaitingReason) : RestoreStatus → RestoreStatus :=
  λ s, to_WaitingReason reason (to_State RestoreStateWaiting s).
(** [if status.State == RestoreStateWaiting { status.WaitingReason = reason }] *)
Definition explains (reason : RestoreWaitingReason) (s : RestoreStatus) : RestoreStatus :=
  if bool_decide (rst_State s = RestoreStateWaiting) then to_WaitingReason reason s else s.
Definition wait_for (reason : RestoreWaitingReason) : B (option reply) := mod_mem (on_status (waits reason));; later.
Definition later_for (reason : RestoreWaitingReason) : B (option reply) := mod_mem (on_status (explains reason));; later.

(** * The status is written *)
Definition write_once cr : M unit :=
  c ← rapi_get (ro_Namespace cr) (ro_Name cr);
  rapi_update_status (with_ro_Status (ro_Status cr) c);;
  c ← rapi_get (ro_Namespace cr) (ro_Name cr);
  if bool_decide (ro_State c = ro_State cr) then mret tt else throw (ENew "status not updated").
Definition updateStatus cr : M unit :=
  r ← catchM (retry_on statusSteps any_error (write_once cr));
  match r with
  | Ok _ => mret tt
  | Err e => if IsNotFound e then mret tt else throw (EWrap e "write status")
  end.

Definition lease_condition (active : bool) (now : time) : list Condition → list Condition :=
  SetStatusCondition now ConditionClusterSyncActive
    (if active then ConditionTrue else ConditionFalse)
    (if active then "LeaseActive" else "LeaseReleased")
    (if active then "ClusterSync is blocking this restore." else "ClusterSync is not blocking this restore.").
(** What the deferred function makes of the status, but for the condition *)
Definition final_status (m : RestoreRun) : RestoreStatus :=
  let status := match run_err m with
                | Some e => to_Error (err_string e) (to_State RestoreStateError (run_status m))
                | None => run_status m
                end in
  if bool_decide (rst_State status = RestoreStateWaiting) then status else to_WaitingReason RestoreNotWaiting status.
(** The conditions of the status and those of the restore are one slice: a
    condition that is there is changed in both, a new one is added to the first. *)
Definition seen_conditions (before after : list Condition) : list Condition :=
  if is_none (find_condition before ConditionClusterSyncActive) then before else after.
Definition write_status : B unit :=
  m ← get_mem;
  let current := ro_Status (run_cr m) in
  let status := final_status m in
  x ← (match run_clusterSync m with
       | Some active =>
           now ← on_world go_now;
           let after := lease_condition active now (rst_Conditions status) in
           mret (to_Conditions (seen_conditions (rst_Conditions status) after) current, to_Conditions after status)
       | None => mret (current, status)
       end);
  if shouldUpdateStatus x.1 x.2 then
    _ ← on_world (catchM (updateStatus (with_ro_Status x.2 (run_cr m)))); mret tt
  else mret tt.

(** * Before the start *)
(** Mongos goes first: its stateful set, then its pods. *)
Definition stop_mongos cluster : B (option reply) :=
  got ← on_world (catchM (k8s_get_sts (cr_Namespace cluster) (MongosStatefulSetName cluster)));
  match got with
  | Err e =>
      if negb (IsNotFound e) then mret (Some (rr, Some (EWrap e "get mongos statefulset")))
      else
        inner rr (wrapped "get mongos pods")
          (k8s_list_pods (cr_Namespace cluster) (SelectorFromSet (MongosLabels cluster))) (λ pods,
        match pods with
        | [] => mret None
        | _ :: _ => later_for RestoreWaitingReasonMongosPods
        end)
  | Ok _ =>
      del ← on_world (catchM (rts_delete (cr_Namespace cluster) (MongosStatefulSetName cluster)));
      match del with
      | Err e => if IsNotFound e then later_for RestoreWaitingReasonMongosPods
                 else mret (Some (rr, Some (EWrap e "failed to delete mongos statefulset")))
      | Ok _ => later_for RestoreWaitingReasonMongosPods
      end
  end.

(** The backup is looked for in PBM's metadata, once more after resynchronising it;
    what the second look says is not used. *)
Definition not_valid cr cluster (e : error) : B (option reply) :=
  if bool_decide (err_cause e = errWaitingPBM) then later_for RestoreWaitingReasonPBMAgent
  else if IsPBMNotFound e then
    inner noRequeue (wrapped "resync storage") (resyncStorage cr cluster) (λ _,
    mod_mem (on_status (explains RestoreWaitingReasonPBMResync));;
    _ ← on_world (catchM (retry_on validateSteps IsPBMNotFound (validate cr cluster)));
    later)
  else mret (Some (noRequeue, Some (EWrap e "failed to validate restore"))).

Definition before_start cr cluster : B (option reply) :=
  inner rr (wrapped "check clustersync lease") (checkClusterSyncLease cr cluster) (λ blocked,
  mod_mem (set_clusterSync blocked);;
  if blocked then wait_for RestoreWaitingReasonClusterSync
  else
    inner rr (wrapped "check restore locks") (checkRestoreLocks cluster) (λ reason,
    if negb (bool_decide (reason = RestoreNotWaiting)) then wait_for reason
    else
      v ← on_world (catchM (validate cr cluster));
      match v with
      | Err e => not_valid cr cluster e
      | Ok _ => if cr_ShardingEnabled cluster then stop_mongos cluster else mret None
      end)).

(** * The restore itself, by the type of its backup *)
Definition runs (msg : string) (m : M restore_outcome) : B reply :=
  o ← on_world m;
  mod_mem (λ s, set_err o.2 (on_status (λ _, o.1) s));;
  mret (rr, wrapped msg <$> o.2).
Definition run_restore cr bcp cluster : B reply :=
  let ty := PBMBackupType bcp in
  if bool_decide (ty = "") || bool_decide (ty = LogicalBackup) then
    runs "reconcile logical restore" (reconcileLogicalRestore cr bcp cluster)
  else if bool_decide (ty = "physical") || bool_decide (ty = IncrementalBackup) then
    runs "reconcile physical restore" (reconcilePhysicalRestore cr bcp cluster)
  else if bool_decide (ty = ExternalBackup) then
    runs "reconcile external snapshot restore" (reconcileExternalSnapshotRestore cr bcp cluster)
  else mret (rr, None).

Definition start_or_follow cr bcp cluster : B reply :=
  if fresh_restore (ro_State cr) then
    r ← before_start cr cluster;
    match r with Some reply => mret reply | None => run_restore cr bcp cluster end
  else run_restore cr bcp cluster.

(** The body after the restore was read *)
Definition with_cluster cr bcp cluster : B reply :=
  attempt noRequeue (wrapped "can cluster restore") (liftR (CanRestore cluster cr)) (λ _,
  if PBMResyncNeeded cluster || PBMResyncInProgress cluster then
    mod_mem (on_status (explains RestoreWaitingReasonPBMResync));; mret (rr, None)
  else
    attempt rr (wrapped "fetch server version") be_platform (λ platform,
    attempt rr (wrapped ("set defaults for " +:+ cr_Namespace cluster +:+ "/" +:+ cr_Name cluster))
      (liftR (rapi_CheckNSetDefaults cluster platform)) (λ cluster,
    match bk_State bcp with
    | BackupStateError => mod_mem (set_err (Some (ENew "backup is in error state")));; mret (rr, None)
    | BackupStateCanceled => mod_mem (set_err (Some (ENew "backup is in canceled state")));; mret (rr, None)
    | BackupStateReady => start_or_follow cr bcp cluster
    | _ => mret (noRequeue, Some (ENew "backup is not ready"))
    end))).
Definition terminal (s : RestoreState) : bool :=
  bool_decide (s = RestoreStateReady) || bool_decide (s = RestoreStateError).
Definition body cr : B reply :=
  attempt rr (wrapped "get backup") (getBackup cr) (λ bcp,
  attempt noRequeue (wrapped "fields check") (liftR (restore_CheckFields (PBMBackupType bcp) cr)) (λ _,
  let cr := restore_SetDefaults cr in
  mod_mem (set_cr cr);;
  if terminal (ro_State cr) then mret (noRequeue, None)
  else
    let name := rsp_ClusterName (ro_Spec cr) in
    attempt rr (wrapped ("get cluster " +:+ ro_Namespace cr +:+ "/" +:+ name))
      (rapi_get_cluster (ro_Namespace cr) name) (λ cluster,
    with_cluster cr bcp cluster))).

Definition first_run cr : RestoreRun :=
  {| run_cr := cr; run_status := to_WaitingReason RestoreNotWaiting (ro_Status cr); run_err := None;
     run_clusterSync := None |}.
(** The memory goes with the run. *)
Definition in_run {A} (m : RestoreRun) (b : B A) : M A := λ w, let '(r, (_, w')) := b (m, w) in (r, w').
Definition Reconcile (namespace name : string) : M reply :=
  got ← catchM (rapi_get namespace name);
  match got with
  | Err e => if IsNotFound e then mret (rr, None) else mret (rr, Some e)
  | Ok cr => in_run (first_run cr) (deferM write_status (body cr))
  end.
End controller.
