(* ===== verification/RestoreTrace.v ===== *)
(** What a run of the restore controller does, as a trace: PBM is told to start a
    restore only in a run that found the cluster's leases free and no backup or
    restore holding PBM's lock. *)
From S2P Require Import Prelude Trace KubeTrace ReplsetModels MongoClient Api Kube Hosts GoSort BackupApi Lease BackupExec.
From S2P Require Import PbmConfig InPlace Status RestoreLogical PhysicalRestore SnapshotRestore BackupController Restore.

(** * Traces *)
Inductive restore_event :=
| ReadRestore (cr : RestoreCR)                 (* the restore, from the API server *)
| LeaseLook (name : string) (free : bool)      (* a lease looked at: not there, or without a holder *)
| LocksSeen (l : list Lock)                    (* PBM's locks, read *)
| OpLocksSeen (l : list Lock)
| PitrOff                                      (* point-in-time recovery, switched off *)
| SentRestore (cmd : RestoreCmd)               (* a restore, sent to PBM *)
| RanRestore (cmd : list string).              (* a restore, started with PBM's program *)

(** The program is asked to start a restore. *)
Definition starts_restore (cmd : list string) : bool :=
  match cmd with _ :: verb :: _ => bool_decide (verb = "restore") | _ => false end.
Definition lease_free (r : result Lease) : bool :=
  match r with Ok l => is_none (lease_holder l) | Err e => IsNotFound e end.

Section traced.
Context {W : Type} {KB : BackupClient W} {P : PBM W} {E : BackupEnv W} {L : LeaseClient W} {K : K8sClient W}.
Context {Q : PodClient W} {RK : RestoreK8s W} {RP : RestorePBM W} {RC : RestoreClient W} {CC : ClaimClient W}.
Context {C : MongoByCredentials W} {PS : PbmStore W}.
Abbreviation T := (list restore_event * W)%type.

#[export] Instance rt_backups : BackupClient T := {|
  api_get_cluster := λ a b, quietly (api_get_cluster a b);
  api_read_cluster := λ a b, quietly (api_read_cluster a b);
  api_get_backup := λ a b, quietly (api_get_backup a b);
  api_read_backup := λ a b, quietly (api_read_backup a b);
  api_list_backups := λ a b, quietly (api_list_backups a b);
  api_list_restores := λ a, quietly (api_list_restores a);
  api_create_backup := λ b, quietly (api_create_backup b);
  api_delete_backup := λ b, quietly (api_delete_backup b);
  api_update_backup_status := λ b, quietly (api_update_backup_status b);
  api_update_backup := λ b, quietly (api_update_backup b);
  api_patch_finalizers := λ b f, quietly (api_patch_finalizers b f);
  go_now := quietly go_now;
  go_stamp := quietly go_stamp
|}.
#[export] Instance rt_PBM : PBM T := {|
  newPBM := λ c, quietly (newPBM c);
  pbm_Close := quietly pbm_Close;
  pbm_SendCmd := λ c, quietly (pbm_SendCmd c);
  pbm_GetBackupMeta := λ n, quietly (pbm_GetBackupMeta n);
  pbm_Node := quietly pbm_Node;
  pbm_FinishBackup := λ n, quietly (pbm_FinishBackup n);
  pbm_CancelBackup := λ n, quietly (pbm_CancelBackup n);
  pbm_DeleteBackup := λ n, quietly (pbm_DeleteBackup n);
  pbm_DeleteBackupMeta := λ n, quietly (pbm_DeleteBackupMeta n);
  pbm_DeletePITRChunks := λ u, quietly (pbm_DeletePITRChunks u);
  pbm_GetNSetConfigLegacy := λ c s, quietly (pbm_GetNSetConfigLegacy c s);
  pbm_GetLocks := recorded (λ r, match r with Ok l => [LocksSeen l] | Err _ => [] end) pbm_GetLocks;
  pbm_GetOpLocks := recorded (λ r, match r with Ok l => [OpLocksSeen l] | Err _ => [] end) pbm_GetOpLocks;
  pbm_ClusterTime := quietly pbm_ClusterTime;
  pbm_StaleFrameSec := pbm_StaleFrameSec;
  pbm_PrettySize := pbm_PrettySize
|}.
#[export] Instance rt_env : BackupEnv T := {|
  be_platform := quietly be_platform;
  be_CheckNSetDefaults := be_CheckNSetDefaults;
  be_event := λ s, quietly (be_event s)
|}.
#[export] Instance rt_leases : LeaseClient T := {|
  lease_get := λ n ns, recorded (λ r, [LeaseLook n (lease_free r)]) (lease_get n ns);
  lease_create_or_update := λ l f tw,
    quietly (lease_create_or_update l (λ x w, let '(r, tw') := f x (tw.1, w) in (r, tw'.2))) tw;
  lease_delete := λ l, quietly (lease_delete l);
  lease_now := quietly lease_now
|}.
#[export] Instance rt_pods : PodClient T := {|
  pod_get := λ a b, quietly (pod_get a b);
  pod_delete := λ p, quietly (pod_delete p);
  pod_patch := λ a b, quietly (pod_patch a b);
  pod_resize := λ a b, quietly (pod_resize a b);
  revision_template := λ a b, quietly (revision_template a b);
  poll_tick := quietly poll_tick;
  ctx_err := quietly ctx_err
|}.
#[export] Instance rt_k8s : RestoreK8s T := {|
  rts_get := λ a b, quietly (rts_get a b);
  rts_update := λ s, quietly (rts_update s);
  rts_patch := λ a b, quietly (rts_patch a b);
  rts_delete := λ a b, quietly (rts_delete a b);
  rsecret_get := λ a b, quietly (rsecret_get a b);
  rsecret_create := λ s, quietly (rsecret_create s);
  rsecret_update := λ s, quietly (rsecret_update s);
  rsecret_delete := λ a b, quietly (rsecret_delete a b);
  rexec := λ p c cmd, recorded (λ _, if starts_restore cmd then [RanRestore cmd] else []) (rexec p c cmd)
|}.
#[export] Instance rt_rpbm : RestorePBM T := {|
  rpbm_SetConfigVar := λ k v,
    recorded (λ r, if is_ok r && bool_decide (k = "pitr.enabled") && bool_decide (v = "false") then [PitrOff] else [])
      (rpbm_SetConfigVar k v);
  rpbm_GetRestoreMeta := λ n, quietly (rpbm_GetRestoreMeta n);
  rpbm_SendCmd := λ c, recorded (λ _, [SentRestore c]) (rpbm_SendCmd c);
  rpbm_GetPITRChunkContains := λ a b, quietly (rpbm_GetPITRChunkContains a b);
  rpbm_GetTimelinesPITR := λ m, quietly (rpbm_GetTimelinesPITR m);
  rpbm_CheckStorage := λ a b, quietly (rpbm_CheckStorage a b);
  rpbm_ResyncMainStorageAndWait := quietly rpbm_ResyncMainStorageAndWait;
  rpbm_ResyncProfileAndWait := λ n, quietly (rpbm_ResyncProfileAndWait n)
|}.
#[export] Instance rt_client : RestoreClient T := {|
  rapi_get := λ a b, recorded (λ r, match r with Ok cr => [ReadRestore cr] | Err _ => [] end) (rapi_get a b);
  rapi_update_status := λ r, quietly (rapi_update_status r);
  rapi_get_cluster := λ a b, quietly (rapi_get_cluster a b);
  rapi_patch_cluster := λ a b, quietly (rapi_patch_cluster a b);
  rapi_CheckNSetDefaults := rapi_CheckNSetDefaults;
  rapi_get_snapshot := λ a b, quietly (rapi_get_snapshot a b)
|}.
#[export] Instance rt_claims : ClaimClient T := {|
  claim_get := λ a b, quietly (claim_get a b);
  claim_create := λ c, quietly (claim_create c);
  claim_delete := λ c, quietly (claim_delete c)
|}.
#[export] Instance rt_mongo : MongoByCredentials T := {|
  mongo_with_credentials := λ a b u p, C ← quietly (mongo_with_credentials a b u p); mret (quiet_client C);
  mongo_disconnect := quietly mongo_disconnect
|}.
#[export] Instance rt_store : PbmStore T := {|
  config_SetConfig := λ c, quietly (config_SetConfig c);
  config_GetConfig := quietly config_GetConfig;
  config_AddProfile := λ c, quietly (config_AddProfile c);
  config_GetProfile := λ n, quietly (config_GetProfile n);
  config_RemoveProfile := λ n, quietly (config_RemoveProfile n)
|}.
End traced.

(** [orelse] of the executors *)
Lemma quiet_orelse {Ev W A} st wrap (m : GoM (list Ev * W) A) k :
  quiet m → (∀ a, quiet (k a)) → quiet (orelse st wrap m k).
Proof.
  intros Hm Hk. apply quiet_bind; [by apply quiet_catch|]. intros [a|e]; [apply Hk|apply quiet_ret].
Qed.
Lemma emits_orelse {Ev W A} st wrap (m : GoM (list Ev * W) A) k (Q : result restore_outcome → list Ev → Prop) :
  quiet m → (∀ a, emits (k a) Q) → (∀ r, Q r []) → emits (orelse st wrap m k) Q.
Proof.
  intros Hm Hk HQ. apply emits_quiet_bind; [by apply quiet_catch| |by intros].
  intros [a|e]; [apply Hk|by apply emits_ret].
Qed.
Ltac quiet_extra ::= apply quiet_orelse; [|intros ?].

(** * Steps that start nothing and look at nothing *)
Section quiet_steps.
Context {W : Type} {KB : BackupClient W} {P : PBM W} {E : BackupEnv W} {L : LeaseClient W} {K : K8sClient W}.
Context {Q : PodClient W} {RK : RestoreK8s W} {RP : RestorePBM W} {RC : RestoreClient W} {CC : ClaimClient W}.
Context {C : MongoByCredentials W} {PS : PbmStore W} {CD : RestoreCodec} {TZ : TimeZone}.
Context {V : Versions} {VP : VersionParser} {O : MapOrder} {G : GoSort} {Y : Yaml} {R : GoRetryOn} {RL : GoRetryOnLaws R}.
Abbreviation T := (list restore_event * W)%type.
Abbreviation M := (GoM T).
Implicit Types (cr : RestoreCR) (bcp : PerconaServerMongoDBBackup) (cluster : RestoreCluster).

Lemma quiet_getSecret ns name : quiet (getSecret ns name : M _).
Proof. unfold getSecret. solve_quiet. Qed.
Hint Resolve quiet_getSecret : quiet.
Lemma quiet_mongo {A} msg (a : PerconaServerMongoDB) b u p (f : Client T → GoM T A) :
  (∀ C, quiet (f (quiet_client C))) → quiet (wrapM msg (mongo_with_credentials a b u p) ≫= f).
Proof.
  intros Hf. cbn. eapply emits_wrap_bind with (Q1 := λ r d, d = [] ∧ ∀ c, r = Ok c → ∃ C, c = quiet_client C).
  - apply emits_quiet_bind; [apply quiet_quietly| |done]. intros c. apply emits_ret. split; [done|]. intros ? [= <-]. eauto.
  - intros c d [-> Hc]. destruct (Hc c eq_refl) as [C0 ->]. apply Hf.
  - by intros e d [-> _].
Qed.
Lemma quiet_priorities (c : BackupCluster) u p l m : quiet (replset_priorities c u p l m : M _).
Proof.
  revert m. induction l as [|rs l IH]; intros m; cbn [replset_priorities]; [solve_quiet|].
  apply quiet_mongo. intros c0. unfold GetPrimaryPod. solve_quiet.
Qed.
Hint Resolve quiet_priorities : quiet.
Lemma quiet_GetPriorities (c : BackupCluster) : quiet (GetPriorities c : M _).
Proof. unfold GetPriorities. solve_quiet. Qed.
Hint Resolve quiet_GetPriorities : quiet.
Lemma quiet_need m k msg : quiet (need m k msg : M _).
Proof. unfold need. solve_quiet. Qed.
Hint Resolve quiet_need : quiet.
Lemma quiet_storage_config (c : BackupCluster) stg : quiet (GetPBMStorageConfig c stg : M _).
Proof.
  unfold GetPBMStorageConfig, GetPBMStorageS3CompatibleOSSConfig, GetPBMStorageS3Config, GetPBMStorageMinioConfig,
    GetPBMStorageGCSConfig, GetPBMStorageAzureConfig, GetPBMStorageOSSConfig, GetPBMStorageOCIConfig,
    s3_sse, oss_sse, oci_user_principal. solve_quiet.
Qed.
Hint Resolve quiet_storage_config : quiet.
Lemma quiet_pbm_config cluster stg : quiet (pbm_config cluster stg : M _).
Proof. unfold pbm_config, GetPBMConfig, no_storage_type. solve_quiet. Qed.
Lemma quiet_add_profile cluster name stg : quiet (add_profile cluster name stg : M _).
Proof. unfold add_profile, AddProfile, GetPBMProfile, no_storage_type. solve_quiet. Qed.
Lemma quiet_getBackup cr : quiet (getBackup cr : M _).
Proof. unfold getBackup. solve_quiet. Qed.
Hint Resolve quiet_pbm_config quiet_add_profile quiet_getBackup : quiet.
Lemma quiet_timeline m : quiet (GetLatestTimelinePITR m : M _).
Proof. unfold GetLatestTimelinePITR. solve_quiet. Qed.
Hint Resolve quiet_timeline : quiet.
Lemma quiet_snapshots_exist ns l : quiet (snapshots_exist ns l : M _).
Proof. induction l; cbn [snapshots_exist]; solve_quiet. Qed.
Hint Resolve quiet_snapshots_exist : quiet.
Lemma quiet_validate cr cluster : quiet (validate cr cluster : M _).
Proof.
  unfold validate, validateExternalBackup, validateSnapshotExistence, validate_in_pbm, ValidateBackup, validate_pitr.
  solve_quiet.
Qed.
Lemma quiet_resyncStorage cr cluster : quiet (resyncStorage cr cluster : M _).
Proof. unfold resyncStorage, resync_source, resync_backup. solve_quiet. Qed.
Hint Resolve quiet_validate quiet_resyncStorage : quiet.
Lemma quiet_getRestoreCmd cr a b : quiet (getRestoreCmd cr a b : M _).
Proof. unfold getRestoreCmd. solve_quiet. Qed.
Lemma quiet_reEnablePITR b : quiet (reEnablePITR b : M _).
Proof.
  unfold reEnablePITR. case_match; [solve_quiet|]. cbn [rpbm_SetConfigVar rt_rpbm].
  eapply emits_conseq; [apply emits_recorded|]. intros r d ->. by rewrite andb_false_r.
Qed.
Hint Resolve quiet_getRestoreCmd quiet_reEnablePITR : quiet.
Lemma quiet_follow_logical cr cluster : quiet (follow_logical cr cluster : M _).
Proof. unfold follow_logical. solve_quiet. Qed.
Hint Resolve quiet_follow_logical : quiet.

(** ** Retried functions with a value beside the world *)
Definition kept {A B} (fn : GoM (A * T) B) : Prop := ∀ a t w, (fn (a, (t, w))).2.2.1 = t.
Lemma kept_bind {A B X} (m : GoM (A * T) B) (f : B → GoM (A * T) X) : kept m → (∀ b, kept (f b)) → kept (m ≫= f).
Proof.
  intros Hm Hf a t w. specialize (Hm a t w). unfold mbind, gom_bind.
  destruct (m (a, (t, w))) as [[b|e] [a' [t' w']]]; cbn in *; [|done]. subst t'. apply Hf.
Qed.
Lemma kept_world {A B} (m : M B) : quiet m → kept (A := A) (on_world m).
Proof.
  intros Hm a t w. destruct (Hm t w) as (d & Hd & ->). rewrite app_nil_r in Hd. unfold on_world. cbn.
  destruct (m (t, w)) as [r tw']. done.
Qed.
Lemma kept_wrap {A B} msg (m : GoM (A * T) B) : kept m → kept (wrapM msg m).
Proof. intros Hm a t w. specialize (Hm a t w). unfold wrapM. by destruct (m (a, (t, w))). Qed.
Lemma kept_ret {A B} (b : B) : kept (A := A) (mret b).
Proof. done. Qed.
Lemma kept_throw {A B} e : kept (A := A) (B := B) (throw e).
Proof. done. Qed.
Lemma kept_lift {A B} (r : result B) : kept (A := A) (liftR r).
Proof. done. Qed.
Lemma kept_mod {A} (f : A → A) : kept (mod_mem f).
Proof. done. Qed.
Lemma quiet_retry_value {A} n p (a : A) (fn : GoM (A * T) unit) : kept fn → quiet (retry_value n p a fn).
Proof using RL.
  intros Hf t w. exists []. rewrite app_nil_r. split; [|done]. unfold retry_value.
  pose proof (retry_on_attempts _ n p fn (a, (t, w))) as Ha.
  destruct (attempts_inv _ _ _ _ _ (λ x, x.2.1 = t) Ha eq_refl) as ([a' [t' w']] & Ht & Ey).
  { intros [a1 [t1 w1]] Ht. cbn in Ht. subst t1. apply Hf. }
  cbn in Ht. subst t'. specialize (Hf a' t w'). rewrite Ey in Hf.
  destruct (retry_on n p fn (a, (t, w))) as [[x|e] [a2 tw2]]; by cbn in *.
Qed.
Ltac solve_kept := repeat first
  [ apply kept_ret | apply kept_throw | apply kept_lift | apply kept_mod | apply kept_wrap
  | apply kept_world; [solve_quiet] | apply kept_bind; [|intros ?] | progress (cbv beta zeta) | case_match ].

(** ** Physical restores and snapshots, but for their start *)
Lemma quiet_exec p c cmd : starts_restore cmd = false → quiet (rexec p c cmd : M _).
Proof. intros Hc. cbn [rexec rt_k8s]. rewrite Hc. apply quiet_quietly. Qed.
Lemma kept_exec_out wrap p c cmd : starts_restore cmd = false → kept (exec_out wrap p c cmd : GoM (string * T) unit).
Proof. intros Hc. unfold exec_out. apply kept_bind; [by apply kept_world, quiet_exec|]. intros [[o e] err]. solve_kept. Qed.
Lemma quiet_first_pod cluster l : quiet (first_pod cluster l : M _).
Proof. unfold first_pod. solve_quiet. Qed.
Hint Resolve quiet_first_pod : quiet.
Lemma quiet_updateSts cluster name port : quiet (updateStatefulSetForPhysicalRestore cluster name port : M _).
Proof using RL. unfold updateStatefulSetForPhysicalRestore. solve_quiet. Qed.
Lemma quiet_delete_pods l : quiet (delete_pods l : M _).
Proof. induction l; cbn [delete_pods]; solve_quiet. Qed.
Hint Resolve quiet_updateSts quiet_delete_pods : quiet.
Lemma quiet_terminate ns name force : quiet (terminateStatefulSetPods ns name force : M _).
Proof using RL. apply quiet_retry_value. unfold terminate_once. solve_kept. Qed.
Hint Resolve quiet_terminate : quiet.
Lemma quiet_shutdown ns name : quiet (shutdownStatefulSetForRestore ns name : M _).
Proof using RL. unfold shutdownStatefulSetForRestore. solve_quiet. Qed.
Hint Resolve quiet_shutdown : quiet.
Lemma quiet_prepare cluster l b : quiet (prepare_replsets cluster l b : M _).
Proof using RL.
  revert b. induction l as [|rs l IH]; intros b; cbn [prepare_replsets]; unfold prepare_sts, shutdown_sts, unless; solve_quiet; apply IH.
Qed.
Lemma quiet_prepareSets cluster : quiet (prepareStatefulSetsForPhysicalRestore cluster : M _).
Proof using RL. apply quiet_prepare. Qed.
Lemma quiet_pods_ready rev l : quiet (pods_ready rev l : M _).
Proof. induction l; cbn [pods_ready]; solve_quiet. Qed.
Hint Resolve quiet_pods_ready quiet_prepareSets : quiet.
Lemma quiet_sets_ready cluster l : quiet (sets_ready cluster l : M _).
Proof.
  induction l as [|[rn [c n]] l IH]; cbn [sets_ready]; unfold checkStatefulSetForPhysicalRestore; solve_quiet; apply IH.
Qed.
Hint Resolve quiet_sets_ready : quiet.
Lemma quiet_sets_checked cluster : quiet (checkIfStatefulSetsAreReadyForPhysicalRestore cluster : M _).
Proof.
  unfold checkIfStatefulSetsAreReadyForPhysicalRestore. induction (spec_replsets cluster) as [|[rs|] l IH];
    cbn [check_replsets]; solve_quiet; apply IH.
Qed.
Hint Resolve quiet_sets_checked : quiet.
Lemma not_start_binary pod verb args : verb ≠ "restore" →
  starts_restore ((getPBMBinaryAndContainerForExec pod).2 :: verb :: args) = false.
Proof. intros Hv. by apply bool_decide_eq_false_2. Qed.
Lemma quiet_agents cluster : quiet (checkIfPBMAgentsReadyForPhysicalRestore cluster : M _).
Proof using RL.
  unfold checkIfPBMAgentsReadyForPhysicalRestore. apply quiet_bind; [|intros out; solve_quiet].
  apply quiet_retry_value. unfold status_once. apply kept_bind; [solve_kept|]. intros pod.
  destruct (getPBMBinaryAndContainerForExec pod). by apply kept_exec_out.
Qed.
Lemma quiet_disablePITR pod : quiet (disablePITR pod : M _).
Proof.
  unfold disablePITR. destruct (getPBMBinaryAndContainerForExec pod). apply quiet_bind; [by apply quiet_exec|].
  intros [[o e] err]. solve_quiet.
Qed.
Lemma quiet_Apply s : quiet (Apply s : M _).
Proof. unfold Apply. solve_quiet. Qed.
Hint Resolve quiet_agents quiet_disablePITR quiet_Apply : quiet.
Lemma quiet_updateSecret cluster : quiet (updatePBMConfigSecret cluster : M _).
Proof.
  unfold updatePBMConfigSecret, getPBMConfigFromPod, write_config_secret. solve_quiet; try (by apply quiet_exec).
Qed.
Hint Resolve quiet_updateSecret : quiet.
Lemma kept_describe cluster name : kept (describe_once cluster name : GoM (string * T) unit).
Proof. unfold describe_once. apply kept_bind; [solve_kept|]. intros pod. by apply kept_exec_out. Qed.
Lemma kept_described cluster name : kept (described_once cluster name : GoM (DescribeMeta * T) unit).
Proof.
  intros a t w. unfold described_once. cbn. pose proof (kept_describe cluster name "" t w) as Hk.
  destruct (describe_once cluster name ("", (t, w))) as [[[]|e] [out [t' w']]]; cbn in *; [|done].
  by destruct (json_describe_restore out).
Qed.
Lemma quiet_ask_resync cluster : quiet (ask_resync cluster : M _).
Proof using RL. unfold ask_resync. solve_quiet. Qed.
Hint Resolve quiet_ask_resync : quiet.
Lemma quiet_delete_restored cluster l : quiet (delete_restored cluster l : M _).
Proof.
  induction l as [|[rs|] l IH]; cbn [delete_restored]; [solve_quiet| |solve_quiet].
  apply quiet_bind; [|by intros].
  induction (sets_to_delete cluster rs) as [|n l' IH']; cbn [delete_sets]; solve_quiet; apply IH'.
Qed.
Hint Resolve quiet_delete_restored : quiet.
Lemma quiet_physical_follow cr cluster st : quiet (physical_follow cr cluster st : M _).
Proof using RL.
  unfold physical_follow. apply quiet_orelse; [apply quiet_retry_value, kept_describe|]. intros out. solve_quiet.
Qed.
Lemma quiet_physical_new cr cluster (k : RestoreStatus → M _) :
  (∀ st, quiet (k st)) → quiet (physical_new cr cluster k).
Proof using RL.
  intros Hk. unfold physical_new, pitr_target, getLatestChunkTS. solve_quiet; apply Hk.
Qed.
Hint Resolve quiet_physical_follow : quiet.
Lemma quiet_db_secrets cluster l : quiet (db_config_secrets cluster l : M _).
Proof. induction l; cbn [db_config_secrets]; solve_quiet. Qed.
Lemma quiet_delete_db cluster l : quiet (delete_db_secrets cluster l : M _).
Proof. induction l; cbn [delete_db_secrets]; solve_quiet. Qed.
Hint Resolve quiet_db_secrets quiet_delete_db : quiet.
Lemma quiet_scale_down cluster name l b : quiet (scale_down cluster name l b : M _).
Proof using RL.
  revert b. induction l as [|[rs n] l IH]; intros b; cbn [scale_down]; [solve_quiet|].
  apply quiet_bind; [|intros; apply IH]. apply quiet_wrap, quiet_retry_value. unfold scale_down_once. solve_kept.
Qed.
Lemma quiet_scale_up cluster l b : quiet (scale_up cluster l b : M _).
Proof using RL.
  revert b. induction l as [|[n z] l IH]; intros b; cbn [scale_up]; [solve_quiet|].
  apply quiet_bind; [|intros; apply IH]. apply quiet_wrap, quiet_retry_value. unfold scale_up_once. solve_kept.
Qed.
Hint Resolve quiet_scale_down quiet_scale_up : quiet.
Lemma quiet_all_claims cluster ss l : quiet (all_claims cluster ss l : M _).
Proof.
  induction l as [|rs l IH]; cbn [all_claims]; unfold replset_claims, template_of, getVolumeClaimTemplate; solve_quiet; apply IH.
Qed.
Lemma quiet_restore_claims cr l : quiet (restore_claims cr l : M _).
Proof. induction l; cbn [restore_claims]; unfold restorePVC; solve_quiet. Qed.
Hint Resolve quiet_all_claims quiet_restore_claims : quiet.
Lemma quiet_restore_replsets cr l b : quiet (restore_replsets cr l b : M _).
Proof. revert b. induction l as [|i l IH]; intros b; cbn [restore_replsets]; solve_quiet; apply IH. Qed.
Hint Resolve quiet_restore_replsets : quiet.
Lemma quiet_delete_all cluster l : quiet (delete_all cluster l : M _).
Proof. induction l; cbn [delete_all]; solve_quiet. Qed.
Hint Resolve quiet_delete_all : quiet.
Lemma quiet_mark ty a b st : quiet (mark ty a b st : M _).
Proof. unfold mark. solve_quiet. Qed.
Hint Resolve quiet_mark : quiet.
Lemma quiet_runFinish cluster st : quiet (runPBMRestoreFinish cluster st : M _).
Proof using RL.
  unfold runPBMRestoreFinish. case_match; [solve_quiet|]. apply quiet_bind; [solve_quiet|]. intros pod.
  apply quiet_bind; [|intros; solve_quiet]. apply quiet_wrap, quiet_retry_value. by apply kept_exec_out.
Qed.
Lemma quiet_await cluster st : quiet (awaitPBMRestoreFinish cluster st : M _).
Proof using RL.
  unfold awaitPBMRestoreFinish. case_match; [solve_quiet|].
  apply quiet_bind; [apply quiet_retry_value, kept_described|]. intros meta. solve_quiet.
Qed.
Hint Resolve quiet_runFinish quiet_await : quiet.
Lemma quiet_snapshot_step st msg (m : M (bool * RestoreStatus)) k :
  quiet m → (∀ s, quiet (k s)) → quiet (step st msg m k).
Proof. intros Hm Hk. unfold step. apply quiet_orelse; [done|]. intros [b s]. case_match; [solve_quiet|apply Hk]. Qed.
Lemma quiet_snapshot_running cr bcp cluster : quiet (reconcileSnapshotRunning cr bcp cluster : M _).
Proof using RL.
  unfold reconcileSnapshotRunning, scaleDownStatefulSetsForSnapshotRestore, rolloutRestoredPVCs,
    scaleUpStatefulSetsForSnapshotRestore, finish_snapshot, deleteStatefulSetsForSnapshotRestore,
    ensureResyncPBMStorage, deleteDBConfigSecrets.
  repeat first [apply quiet_snapshot_step; [|intros ?] | apply quiet_orelse; [|intros ?]]; solve_quiet.
Qed.
Lemma quiet_snapshot_requested cr cluster : quiet (reconcileSnapshotRequested cr cluster : M _).
Proof using RL.
  unfold reconcileSnapshotRequested. apply quiet_orelse; [apply quiet_retry_value, kept_described|intros; solve_quiet].
Qed.

(** * What starts a restore *)
Definition is_start (e : restore_event) : bool :=
  match e with SentRestore _ | RanRestore _ => true | _ => false end.
Definition ran (e : restore_event) : Prop := ∃ cmd, e = RanRestore cmd.

Lemma retry_value_ran {A} n p (a : A) (fn : GoM (A * T) unit) :
  (∀ a t w, ∃ d, (fn (a, (t, w))).2.2.1 = t ++ d ∧ Forall ran d) →
  emits (retry_value n p a fn) (λ _, Forall ran).
Proof using RL.
  intros Hf t w. unfold retry_value. pose proof (retry_on_attempts _ n p fn (a, (t, w))) as Ha.
  destruct (attempts_inv _ _ _ _ _ (λ x, ∃ d, x.2.1 = t ++ d ∧ Forall ran d) Ha) as ([a' [t' w']] & (d & Ht & Hd) & Ey).
  - exists []. by rewrite app_nil_r.
  - intros [a1 [t1 w1]] (d & Ht & Hd). cbn in Ht. subst t1. destruct (Hf a1 (t ++ d) w1) as (d' & -> & Hd').
    exists (d ++ d'). rewrite app_assoc. split; [done|]. by apply Forall_app.
  - cbn in Ht. subst t'. destruct (Hf a' (t ++ d) w') as (d' & Ht' & Hd'). rewrite Ey in Ht'. cbn in Ht'.
    exists (d ++ d'). rewrite app_assoc. split; [|by apply Forall_app].
    destruct (retry_on n p fn (a, (t, w))) as [[x|e] [a2 tw2]]; by cbn in *.
Qed.
Lemma exec_out_ran wrap p c cmd a t (w : W) :
  ∃ d, (exec_out wrap p c cmd (a, (t, w)) : result unit * (string * T)).2.2.1 = t ++ d ∧ Forall ran d.
Proof.
  exists (if starts_restore cmd then [RanRestore cmd] else []). unfold exec_out, mbind, gom_bind, on_world. cbn.
  unfold recorded. cbn. destruct (rexec p c cmd w) as [[[[o e] err]|err] w']; cbn.
  - split; [by destruct err|]. case_match; [|done]. constructor; [by eexists|done].
  - split; [done|]. case_match; [|done]. constructor; [by eexists|done].
Qed.

Lemma physical_runs cr bcp cluster :
  emits (reconcilePhysicalRestore cr bcp cluster : M _) (λ _ d, Forall ran d ∧ (d = [] ∨ ro_State cr = RestoreStateWaiting)).
Proof using RL.
  unfold reconcilePhysicalRestore.
  set (rest := λ status : RestoreStatus, orelse status _ _ _).
  assert (∀ st, ro_State cr ≠ RestoreStateWaiting → quiet (rest st)) as Hq.
  { intros st Hw. unfold rest. apply quiet_orelse; [solve_quiet|]. intros ok. case_match; [solve_quiet|].
    apply quiet_orelse; [solve_quiet|]. intros ready. case_match; [solve_quiet|].
    rewrite bool_decide_eq_false_2 by done. solve_quiet. }
  case_bool_decide as Hnew.
  { apply quiet_emits; [|by auto]. apply quiet_physical_new. intros st. apply Hq. by rewrite Hnew. }
  destruct (decide (ro_State cr = RestoreStateWaiting)) as [Hw|Hw]; [|by apply quiet_emits; [apply Hq|auto]].
  assert (∀ (m : M restore_outcome), emits m (λ _, Forall ran) →
    emits m (λ _ d, Forall ran d ∧ (d = [] ∨ ro_State cr = RestoreStateWaiting))) as Hran.
  { intros m Hm. eapply emits_conseq; [exact Hm|]. by auto. }
  apply Hran. unfold rest. apply emits_orelse; [solve_quiet| |done]. intros ok.
  case_match; [by apply emits_ret|]. apply emits_orelse; [solve_quiet| |done]. intros ready.
  case_match; [by apply emits_ret|]. rewrite bool_decide_eq_true_2 by done. unfold physical_start.
  apply emits_orelse; [solve_quiet| |done]. intros agents. case_match; [by apply emits_ret|].
  apply emits_orelse; [solve_quiet| |done]. intros pod. unfold orelse.
  eapply emits_bind with (Q1 := λ _, Forall ran).
  - apply emits_catch. eapply emits_conseq; [apply retry_value_ran|by intros []]. intros. apply exec_out_ran.
  - intros [out|e] d Hd; apply emits_ret; by rewrite app_nil_r.
  - done.
Qed.

Lemma snapshot_runs cr bcp cluster :
  emits (reconcileExternalSnapshotRestore cr bcp cluster : M _)
    (λ _ d, Forall ran d ∧ (d = [] ∨ ro_State cr = RestoreStateWaiting)).
Proof using RL.
  unfold reconcileExternalSnapshotRestore. destruct (ro_State cr) eqn:Es.
  2: { eapply emits_conseq with (Q := λ _, Forall ran); [|by auto]. unfold reconcileSnapshotWaiting, createOrUpdateDBConfigSecret.
    apply emits_orelse; [solve_quiet| |done]. intros _. apply emits_orelse; [solve_quiet| |done]. intros ready.
    case_match; [by apply emits_ret|]. apply emits_orelse; [solve_quiet| |done]. intros ok.
    case_match; [by apply emits_ret|]. apply emits_orelse; [solve_quiet| |done]. intros pod. unfold orelse.
    eapply emits_bind with (Q1 := λ _, Forall ran).
    - apply emits_catch. eapply emits_conseq; [apply retry_value_ran|by intros []]. intros. apply exec_out_ran.
    - intros [out|e] d Hd; apply emits_ret; by rewrite app_nil_r.
    - done. }
  all: apply quiet_emits; [|by auto].
  1: unfold reconcileSnapshotNew.
  all: try apply quiet_snapshot_requested; try apply quiet_snapshot_running; solve_quiet.
Qed.
End quiet_steps.
