(* ===== verification/SnapshotFacts.v ===== *)
(** The claims of a restore from volume snapshots: a run deletes a claim only when
    it has just read it and it is not one of this restore, and claims that are made
    are made from the snapshots of their replica sets; when a run says that the
    claims are restored, it saw, or made, each of them. *)
From S2P Require Import Prelude Trace ReplsetModels Api Kube Hosts GoSort BackupApi BackupExec PbmConfig.
From S2P Require Import InPlace Status RestoreLogical PhysicalRestore SnapshotRestore.

(** * Traces *)
Inductive claim_event :=
| ClaimSeen (name : string) (r : result RestoreClaim)      (* asked for, and what came *)
| ClaimMade (c : RestoreClaim) (ok : bool)
| ClaimGone (c : RestoreClaim).

Section traced.
Context {W : Type} {CC : ClaimClient W} {RK : RestoreK8s W} {KB : BackupClient W}.
Abbreviation T := (list claim_event * W)%type.
#[export] Instance traced_claims : ClaimClient T := {|
  claim_get := λ ns n, recorded (λ r, [ClaimSeen n r]) (claim_get ns n);
  claim_create := λ c, recorded (λ r, [ClaimMade c (is_ok r)]) (claim_create c);
  claim_delete := λ c, recorded (λ _, [ClaimGone c]) (claim_delete c)
|}.
#[export] Instance unseen_k8s : RestoreK8s T := {|
  rts_get := λ a b, quietly (rts_get a b);
  rts_update := λ s, quietly (rts_update s);
  rts_patch := λ a b, quietly (rts_patch a b);
  rts_delete := λ a b, quietly (rts_delete a b);
  rsecret_get := λ a b, quietly (rsecret_get a b);
  rsecret_create := λ s, quietly (rsecret_create s);
  rsecret_update := λ s, quietly (rsecret_update s);
  rsecret_delete := λ a b, quietly (rsecret_delete a b);
  rexec := λ p c cmd, quietly (rexec p c cmd)
|}.
#[export] Instance unseen_backups : BackupClient T := {|
  api_get_cluster := λ a b, quietly (api_get_cluster a b);
  api_read_cluster := λ a b, quietly (api_read_cluster a b);
  api_get_backup := λ a b, quietly (api_get_backup a b);
  api_read_backup := λ a b, quietly (api_read_backup a b);
  api_list_backups := λ a b, quietly (api_list_backups a b);
  api_list_restores := λ a, quietly (api_list_restores a);
  api_create_backup := λ b, quietly (api_create_backup b);
  api_delete_backup := λ b, quietly (api_delete_backup b);
  api_update_backup_status := λ b, quietly (api_update_backup_status b);
  api_update_backup := λ b, quietly (api_update_backup b);
  api_patch_finalizers := λ b f, quietly (api_patch_finalizers b f);
  go_now := quietly go_now;
  go_stamp := quietly go_stamp
|}.
End traced.

(** * What a run may do to claims *)
Definition made_by (cr : RestoreCR) (c : RestoreClaim) : Prop :=
  clm_Annotations c !! AnnotationRestoreName = Some (ro_Name cr).
(** The claim is one of the restore: seen so, or made by this run. *)
Definition restored (cr : RestoreCR) (t : list claim_event) (name : string) : Prop :=
  (∃ c, ClaimSeen name (Ok c) ∈ t ∧ made_by cr c) ∨ (∃ c, ClaimMade c true ∈ t ∧ clm_Name c = name).
(** Every deletion directly follows a read of that very claim, which is not the
    restore's and is not going yet; every claim made follows a read that found no
    claim of its name, and is a [wanted] one. *)
Inductive lawful (cr : RestoreCR) (wanted : RestoreClaim → Prop) : list claim_event → Prop :=
| lawful_nil : lawful cr wanted []
| lawful_seen n r t : lawful cr wanted t → lawful cr wanted (ClaimSeen n r :: t)
| lawful_gone n c t : ¬ made_by cr c → clm_Deleting c = false → lawful cr wanted t →
    lawful cr wanted (ClaimSeen n (Ok c) :: ClaimGone c :: t)
| lawful_made c e ok t : IsNotFound e = true → made_by cr c → wanted c → lawful cr wanted t →
    lawful cr wanted (ClaimSeen (clm_Name c) (Err e) :: ClaimMade c ok :: t).
Lemma lawful_app cr wanted t1 t2 : lawful cr wanted t1 → lawful cr wanted t2 → lawful cr wanted (t1 ++ t2).
Proof. intros H1 H2. induction H1; cbn; [done|by constructor..]. Qed.
Lemma lawful_weaken cr (P Q : RestoreClaim → Prop) t : (∀ c, P c → Q c) → lawful cr P t → lawful cr Q t.
Proof.
  intros HPQ. induction 1; [apply lawful_nil|by apply lawful_seen|by apply lawful_gone|apply lawful_made; auto].
Qed.
Lemma restored_mono cr t1 t2 t3 name : restored cr t2 name → restored cr (t1 ++ t2 ++ t3) name.
Proof. intros [(c & H1 & H2)|(c & H1 & H2)]; [left|right]; exists c; (split; [set_solver|done]). Qed.

(** The claims of the pods of a replica set that hold data *)
Definition claim_names (cluster : RestoreCluster) (rs : ReplsetSpec) : list string :=
  let pods (n : Z) (f : Z → string) := map (λ i, "mongod-data-" +:+ f (Z.of_nat i)) (seq 0 (Z.to_nat n)) in
  pods (rs_Size rs) (PodName cluster rs)
  ++ (if sz_Enabled (rs_NonVoting rs) then pods (sz_Size (rs_NonVoting rs)) (NonVotingPodName cluster rs) else [])
  ++ (if sz_Enabled (rs_Hidden rs) then pods (sz_Size (rs_Hidden rs)) (HiddenPodName cluster rs) else []).
(** A claim of [rs], made from its snapshot *)
Definition from_snapshot {Y : Yaml} (cluster : RestoreCluster) (bcp : PerconaServerMongoDBBackup) (c : RestoreClaim) : Prop :=
  ∃ rs s, rs ∈ GetAllReplsets cluster ∧ clm_Name c ∈ claim_names cluster rs ∧
    GetSnapshotInfo (bs_Snapshots (bk_Status bcp)) (MongoReplsetName rs) = Some s ∧
    cl_DataSource (clm_Spec c) = Some ("snapshot.storage.k8s.io", "VolumeSnapshot", sn_SnapshotName s).

Section rollout.
Context {W : Type} {CC : ClaimClient W} {RK : RestoreK8s W} {KB : BackupClient W}.
Abbreviation T := (list claim_event * W)%type.
Abbreviation M := (GoM T).
Implicit Types (cr : RestoreCR) (bcp : PerconaServerMongoDBBackup) (cluster : RestoreCluster) (rs : ReplsetSpec).

(** ** One claim, those of a replica set, all *)
Definition wanted_of cr (l : list pvcInfo) (c : RestoreClaim) : Prop :=
  ∃ info, info ∈ l ∧ c = generatePVCFromSnapshot (pvi_pvcName info) (ro_Namespace cr) (pvi_labels info)
                           (pvi_template info) (pvi_snapshotName info) (ro_Name cr).
Lemma emits_restorePVC cr (info : pvcInfo) (l : list pvcInfo) : info ∈ l →
  emits (restorePVC cr info : M bool) (λ r d, lawful cr (wanted_of cr l) d ∧
    (r = Ok true → restored cr d (pvi_pvcName info))).
Proof.
  intros Hl. unfold restorePVC. cbn [claim_get traced_claims].
  eapply emits_bind with (Q1 := λ rr d, ∃ r, d = [ClaimSeen (pvi_pvcName info) r] ∧ (∀ r', rr = Ok r' → r' = r)).
  - apply emits_catch. eapply emits_conseq; [apply emits_recorded|]. intros [c|e] d ->.
    + exists (Ok c). split; [done|]. by intros r' [= <-].
    + split; exists (Err e); (split; [done|]); by intros r' [= <-].
  - intros r d (r' & -> & Hr). rewrite <-(Hr r eq_refl). destruct r as [c|e].
    + case_bool_decide as Ha.
      { apply emits_ret. cbn. split; [by repeat constructor|]. intros _. left. exists c. split; [set_solver|done]. }
      destruct (clm_Deleting c) eqn:Ed.
      { apply emits_ret. cbn. split; [by repeat constructor|done]. }
      eapply emits_wrap_bind; [apply emits_recorded| |intros e d ->; cbn; split; [by repeat constructor|done]].
      intros u d ->. apply emits_ret. cbn. split; [by repeat constructor|done].
    + destruct (IsNotFound e) eqn:Ee; [|apply emits_throw; cbn; split; [by repeat constructor|done]].
      set (c := generatePVCFromSnapshot _ _ _ _ _ _).
      assert (∀ ok, lawful cr (wanted_of cr l) [ClaimSeen (pvi_pvcName info) (Err e); ClaimMade c ok]) as Hm.
      { intros ok. apply (lawful_made cr _ c e ok []); [done|apply lookup_singleton_eq|by exists info|constructor]. }
      eapply emits_wrap_bind; [apply emits_recorded| |intros e' d ->; cbn; by split].
      intros u d ->. apply emits_ret. cbn. split; [done|]. intros _. right. exists c. split; [set_solver|done].
  - intros e d (r & -> & _). split; [by repeat constructor|done].
Qed.

Lemma emits_restore_claims cr (l all : list pvcInfo) : l ⊆ all →
  emits (restore_claims cr l : M bool) (λ r d, lawful cr (wanted_of cr all) d ∧
    (r = Ok true → ∀ info, info ∈ l → restored cr d (pvi_pvcName info))).
Proof.
  induction l as [|info l IH]; intros Hl; cbn [restore_claims].
  { apply emits_ret. split; [constructor|]. intros _ info Hin. by apply elem_of_nil in Hin. }
  eapply emits_wrap_bind; [apply (emits_restorePVC cr info all); set_solver| |by intros e d [Hd _]].
  intros [|] d [Hd Hr]; cbn [negb]; [|apply emits_ret; by rewrite app_nil_r].
  eapply emits_conseq; [apply IH; set_solver|]. intros r d' [Hd' Hr']. split; [by apply lawful_app|].
  intros -> info' [->|Hin]%elem_of_cons.
  - by apply (restored_mono cr [] d d'), Hr.
  - specialize (Hr' eq_refl info' Hin). apply (restored_mono cr d d' []) in Hr'. by rewrite app_nil_r in Hr'.
Qed.
Lemma emits_restore_replsets cr (ls : list (list pvcInfo)) (all : list pvcInfo) ok : concat ls ⊆ all →
  emits (restore_replsets cr ls ok : M bool) (λ r d, lawful cr (wanted_of cr all) d ∧
    (r = Ok true → ok = true ∧ ∀ info, info ∈ concat ls → restored cr d (pvi_pvcName info))).
Proof.
  revert ok. induction ls as [|l ls IH]; intros ok Hl; cbn [restore_replsets].
  { apply emits_ret. split; [constructor|]. intros [= ->]. split; [done|]. intros info Hin. by apply elem_of_nil in Hin. }
  cbn in Hl. eapply emits_bind; [apply (emits_restore_claims cr l all); set_solver| |by intros e d [Hd _]].
  intros ready d [Hd Hr]. eapply emits_conseq; [apply IH; set_solver|]. intros r d' [Hd' Hr'].
  split; [by apply lawful_app|]. intros ->. destruct (Hr' eq_refl) as [[-> ->]%andb_prop Hr2]. split; [done|].
  intros info [Hin|Hin]%elem_of_app.
  - by apply (restored_mono cr [] d d'), Hr.
  - specialize (Hr2 info Hin). apply (restored_mono cr d d' []) in Hr2. by rewrite app_nil_r in Hr2.
Qed.

(** ** Which claims *)
Context {Y : Yaml}.
Definition claims_of cluster (snapshots : list SnapshotInfo) rs (l : list pvcInfo) : Prop :=
  map pvi_pvcName l = claim_names cluster rs ∧
  ∃ s, GetSnapshotInfo snapshots (MongoReplsetName rs) = Some s ∧ ∀ info, info ∈ l → pvi_snapshotName info = sn_SnapshotName s.
Lemma pod_claims_names n f vct sn labels :
  map pvi_pvcName (pod_claims n f vct sn labels) = map (λ i, "mongod-data-" +:+ f (Z.of_nat i)) (seq 0 (Z.to_nat n)).
Proof. unfold pod_claims. rewrite map_map. by apply map_ext. Qed.
Lemma pod_claims_snapshot n f vct sn labels info : info ∈ pod_claims n f vct sn labels → pvi_snapshotName info = sn.
Proof. unfold pod_claims. intros (i & -> & _)%list_elem_of_fmap. done. Qed.
Lemma ensures_replset_claims cluster snapshots rs :
  ensures (replset_claims cluster snapshots rs : M (list pvcInfo)) (claims_of cluster snapshots rs).
Proof.
  unfold replset_claims. destruct (GetSnapshotInfo snapshots _) as [s|] eqn:Es; [|apply ensures_throw].
  apply ensures_then. intros vct.
  assert (∀ (b : bool) n f (name : string) labels, ensures ((if b then
      vct ← template_of cluster name; mret (pod_claims n f vct (sn_SnapshotName s) labels) else mret []) : M (list pvcInfo))
    (λ l, map pvi_pvcName l = (if b then map (λ i, "mongod-data-" +:+ f (Z.of_nat i)) (seq 0 (Z.to_nat n)) else [])
          ∧ ∀ info, info ∈ l → pvi_snapshotName info = sn_SnapshotName s)) as Hc.
  { intros [] n f name labels; [apply ensures_then; intros v|]; apply ensures_ret.
    - split; [apply pod_claims_names|]. intros info. apply pod_claims_snapshot.
    - split; [done|]. intros info Hin. by apply elem_of_nil in Hin. }
  eapply ensures_bind; [apply Hc|]. intros nv [Hn1 Hn2].
  eapply ensures_bind; [apply Hc|]. intros hidden [Hh1 Hh2]. apply ensures_ret. split.
  - rewrite !map_app, pod_claims_names, Hn1, Hh1. done.
  - exists s. split; [done|]. intros info [Hin|[Hin|Hin]%elem_of_app]%elem_of_app; [|by apply Hn2|by apply Hh2].
    by eapply pod_claims_snapshot.
Qed.
Lemma ensures_all_claims cluster snapshots l :
  ensures (all_claims cluster snapshots l : M _) (λ ls, Forall2 (claims_of cluster snapshots) l ls).
Proof.
  induction l as [|rs l IH]; cbn [all_claims]; [apply ensures_ret; constructor|].
  eapply ensures_bind; [apply ensures_replset_claims|]. intros infos Hi.
  eapply ensures_bind; [apply IH|]. intros rest Hr. apply ensures_ret. by constructor.
Qed.
Lemma quiet_claims_of cluster ss l : quiet (all_claims cluster ss l : M _).
Proof.
  induction l as [|rs l IH]; cbn [all_claims]; unfold replset_claims, template_of, getVolumeClaimTemplate; solve_quiet; apply IH.
Qed.

(** C19: The rollout of the claims of a snapshot restore: every claim deleted was
    read just before, is not one of this restore and was not yet going; every claim
    made was not there just before, bears the name of the restore, and is one of a
    replica set's, its data from that replica set's snapshot in the backup; and when
    the rollout reports that it is done, for the first time, every claim of every
    mongod, non-voting and hidden pod of every replica set, the config servers' of a
    sharded cluster among them, was seen as one of this restore, or made. *)
Theorem rollout_safe cluster cr bcp status w r t w' :
  rolloutRestoredPVCs cluster cr bcp status ([], w) = (r, (t, w')) →
  lawful cr (from_snapshot cluster bcp) t ∧
  (∀ st, r = Ok (true, st) → done status ConditionReplsetPVCsRestoredFromSnapshot = false →
   ∀ rs name, rs ∈ GetAllReplsets cluster → name ∈ claim_names cluster rs → restored cr t name).
Proof.
  intros Hrun.
  assert (emits (rolloutRestoredPVCs cluster cr bcp status : M _) (λ r d, lawful cr (from_snapshot cluster bcp) d ∧
    (∀ st, r = Ok (true, st) → done status ConditionReplsetPVCsRestoredFromSnapshot = false →
     ∀ rs name, rs ∈ GetAllReplsets cluster → name ∈ claim_names cluster rs → restored cr d name))) as He.
  2: { destruct (He [] w) as (d & Hd & HQ). rewrite Hrun in Hd, HQ. cbn in Hd. by subst t. }
  unfold rolloutRestoredPVCs. destruct (done _ _) eqn:Hdone; [apply emits_ret; split; [constructor|done]|].
  eapply emits_bind; [apply emits_ensures; [apply quiet_claims_of|apply ensures_all_claims]| |].
  2: { intros e d [-> _]. split; [constructor|done]. }
  intros ls d [-> Hls]. cbn in Hls.
  assert (∀ c, wanted_of cr (concat ls) c → from_snapshot cluster bcp c) as Hw.
  { intros c (info & Hin & ->). apply list_elem_of_In, in_concat in Hin as (l & Hl%list_elem_of_In & Hin%list_elem_of_In).
    apply list_elem_of_lookup in Hl as [i Hi]. destruct (Forall2_lookup_r _ _ _ _ _ Hls Hi) as (rs & Hrs & Hn & s & Hs & Hsn).
    exists rs, s. split; [by eapply list_elem_of_lookup_2|]. split; [rewrite <-Hn; apply list_elem_of_fmap; eauto|].
    split; [done|]. cbn. by rewrite (Hsn info Hin). }
  assert (∀ d, lawful cr (wanted_of cr (concat ls)) d → lawful cr (from_snapshot cluster bcp) d) as Hlaw.
  { intros d. by apply lawful_weaken. }
  eapply emits_bind; [apply (emits_restore_replsets cr ls (concat ls) true); done| |].
  2: { intros e d [Hd _]. split; [by apply Hlaw|done]. }
  intros ok d [Hd Hr]. cbn.
  assert (quiet ((if ok then mark ConditionReplsetPVCsRestoredFromSnapshot "AllPVCsRestoredFromSnapshot"
    "All pvcs have been restored from snapshot" status else mret status) : M _)) as Hq by (unfold mark; solve_quiet).
  apply emits_quiet_bind; [exact Hq| |intros e; rewrite app_nil_r; split; [by apply Hlaw|done]].
  intros st. apply emits_ret. rewrite app_nil_r. split; [by apply Hlaw|].
  intros st' [= -> ->] _ rs name Hrs Hname. destruct (Hr eq_refl) as [_ Hall].
  apply list_elem_of_lookup in Hrs as [i Hi]. destruct (Forall2_lookup_l _ _ _ _ _ Hls Hi) as (l & Hl & Hn & _).
  change (name ∈ claim_names cluster rs) in Hname. rewrite <-Hn in Hname. apply list_elem_of_fmap in Hname as (info & -> & Hin). apply Hall.
  apply list_elem_of_In, in_concat. exists l. split; apply list_elem_of_In; [by eapply list_elem_of_lookup_2|done].
Qed.
End rollout.

(** * Three pods: a claim of another day, one of this restore, none *)
Section demo.
Local Existing Instance emptyYaml.
Local Instance demo_backups : BackupClient unit := emptyBackups unit.
Definition data_template : ClaimSpec := {| cl_StorageClass := None; cl_Requests := ∅; cl_DataSource := None |}.
Definition data_sts : RestoreSts :=
  {| rts_sts :=
       {| sts_Name := "c-rs0"; sts_Labels := ∅; sts_Annotations := ∅; sts_Generation := 1; sts_Controller := None;
          sts_Deleting := false; sts_SpecReplicas := Some 0%Z; sts_Selector := None; sts_TemplateLabels := ∅;
          sts_TemplateAnnotations := ∅; sts_TemplateInitContainers := []; sts_TemplateContainers := [];
          sts_UpdateRevision := ""; sts_ObservedGeneration := 1; sts_Replicas := 0; sts_ReadyReplicas := 0;
          sts_UpdatedReplicas := 0 |};
     rts_Namespace := "ns"; rts_InitContainers := []; rts_Containers := []; rts_Volumes := [];
     rts_ClaimTemplates := [("mongod-data", data_template)] |}.
Local Instance demo_k8s : RestoreK8s unit := {|
  rts_get := λ _ _, mret data_sts; rts_update := λ _, mret tt; rts_patch := λ _ _, mret tt; rts_delete := λ _ _, mret tt;
  rsecret_get := λ _ _, notFound; rsecret_create := λ _, mret tt; rsecret_update := λ _, mret tt;
  rsecret_delete := λ _ _, mret tt; rexec := λ _ _ _, mret ("", "", None) |}.
Definition claim_there (name : string) (annotations : gmap string string) : RestoreClaim :=
  {| clm_Name := name; clm_Namespace := "ns"; clm_Labels := ∅; clm_Annotations := annotations; clm_Deleting := false;
     clm_Spec := data_template |}.
(** The claim of pod 0 is the restore's; that of pod 1 is [second], that of pod 2 is not there. *)
Definition claims (second : gmap string string) : ClaimClient unit := {|
  claim_get := λ _ n,
    if bool_decide (n = "mongod-data-c-rs0-0") then mret (claim_there n {[ AnnotationRestoreName := "r" ]})
    else if bool_decide (n = "mongod-data-c-rs0-1") then mret (claim_there n second)
    else notFound;
  claim_create := λ _, mret tt; claim_delete := λ _, mret tt |}.
Definition a_snapshot_backup : PerconaServerMongoDBBackup :=
  BackupApi.with_status (let st := bk_Status (a_backup "b" BackupStateReady 0) in
    {| bs_Type := ExternalBackup; bs_State := bs_State st; bs_WaitingReason := bs_WaitingReason st;
       bs_Destination := ""; bs_StorageName := bs_StorageName st; bs_Storage := None; bs_ReplsetNames := [];
       bs_PBMname := ""; bs_Size := ""; bs_Snapshots := [{| sn_ReplsetName := "rs0"; sn_SnapshotName := "snap" |}];
       bs_PBMPod := ""; bs_PBMPods := ∅; bs_Error := ""; bs_StartAt := None; bs_CompletedAt := None;
       bs_LastWriteAt := None; bs_LastTransition := None; bs_LatestRestorableTime := None |})
    (a_backup "b" BackupStateReady 0).
Definition claims_run (second : gmap string string) :=
  rolloutRestoredPVCs (CC := traced_claims (CC := claims second)) (a_restore_cluster [a_replset "rs0" 3])
    (a_restore RestoreStateRunning) a_snapshot_backup zeroRestoreStatus ([], tt).
Lemma rollout_safe_witness :
  let cr := a_restore RestoreStateRunning in
  let cluster := a_restore_cluster [a_replset "rs0" 3] in
  let run := claims_run ∅ in
  let last_run := claims_run {[ AnnotationRestoreName := "r" ]} in
  run.2.1 = [ClaimSeen "mongod-data-c-rs0-0" (Ok (claim_there "mongod-data-c-rs0-0" {[ AnnotationRestoreName := "r" ]}));
             ClaimSeen "mongod-data-c-rs0-1" (Ok (claim_there "mongod-data-c-rs0-1" ∅));
             ClaimGone (claim_there "mongod-data-c-rs0-1" ∅)] ∧
  lawful cr (from_snapshot cluster a_snapshot_backup) run.2.1 ∧ restored cr last_run.2.1 "mongod-data-c-rs0-2".
Proof.
  intros cr cluster run last_run. split; [vm_compute; reflexivity|].
  assert (run = (run.1, (run.2.1, run.2.2))) as Hr by (vm_compute; reflexivity).
  assert (∃ st, last_run = (Ok (true, st), (last_run.2.1, last_run.2.2))) as [st Hl] by (eexists; vm_compute; reflexivity).
  split.
  - exact (proj1 (rollout_safe (CC := claims ∅) cluster cr a_snapshot_backup zeroRestoreStatus tt _ _ _ Hr)).
  - refine (proj2 (rollout_safe (CC := claims _) cluster cr a_snapshot_backup zeroRestoreStatus tt _ _ _ Hl) st eq_refl
      eq_refl (a_replset "rs0" 3) "mongod-data-c-rs0-2" _ _); vm_compute; [by left|by right; right; left].
Defined.
End demo.
