(* ===== verification/RestoreFacts.v ===== *)
(** A run of the restore controller tells PBM to start a restore only when nothing
    else works on the cluster: the leases of its cluster were looked at in this run
    and are free, and PBM's locks, read in this run, are not those of a backup or a
    restore. *)
From S2P Require Import Prelude Trace KubeTrace ReplsetModels MongoClient Api Kube Hosts GoSort BackupApi Lease BackupExec.
From S2P Require Import PbmConfig InPlace Status BackupController RestoreLogical PhysicalRestore SnapshotRestore Restore.
From S2P Require Import RestoreTrace.

(** * What a run finds before it starts a restore *)
Definition none_locked (p : Lock → bool) (l1 l2 : list Lock) : Prop := existsb p (l1 ++ l2) = false.
(** The leases of cluster [n] are free, and no backup or restore holds a lock of PBM. *)
Definition unblocked (n : string) (d : list restore_event) : Prop :=
  LeaseLook (ClusterSyncLeaseName n) true ∈ d ∧ LeaseLook (BackupLeaseName n) true ∈ d ∧
  ∃ l1 l2, LocksSeen l1 ∈ d ∧ OpLocksSeen l2 ∈ d ∧ none_locked IsBackupOrRestoreLock l1 l2.
(** Point-in-time recovery was just switched off, and has let go of its locks. *)
Definition pitr_stopped (d : list restore_event) : Prop :=
  ∃ d0 l1 l2, d = d0 ++ [PitrOff; LocksSeen l1; OpLocksSeen l2] ∧ none_locked IsPITRLock l1 l2.
Definition no_start (d : list restore_event) : Prop := Forall (λ e, is_start e = false) d.

Ltac no_start := unfold no_start in *;
  repeat first [assumption | apply Forall_nil; exact I | apply Forall_cons; split; [reflexivity|] | apply Forall_app; split].

(** The steps of a restore that start it *)
Definition start_steps (d : list restore_event) : Prop :=
  Forall ran d ∨ ∃ d0 cmd, d = d0 ++ [SentRestore cmd] ∧ no_start d0 ∧ pitr_stopped d0.
(** A run up to there: [pre] is what it finds, [st] how it starts the restore. *)
Definition run_shape (cr : RestoreCR) (n : string) (d : list restore_event) : Prop :=
  ∃ pre st post, d = pre ++ st ++ post ∧ no_start pre ∧ no_start post ∧
    (st = [] ∨ (fresh_restore (ro_State cr) = true ∧ unblocked n pre ∧ start_steps st)).

Lemma no_start_shape cr n d : no_start d → run_shape cr n d.
Proof. intros Hd. exists d, [], []. rewrite !app_nil_r. repeat split; [done|by constructor|by left]. Qed.
Lemma run_shape_after cr n d0 d : no_start d0 → run_shape cr n d → run_shape cr n (d0 ++ d).
Proof.
  intros H0 (pre & st & post & -> & Hp & Hq & Hs). exists (d0 ++ pre), st, post. rewrite app_assoc.
  repeat split; [by apply Forall_app|done|]. destruct Hs as [->|(Hf & (H1 & H2 & l1 & l2 & H3 & H4 & H5) & Hs)]; [by left|right].
  split; [done|]. split; [|done]. unfold unblocked.
  split; [set_solver|]. split; [set_solver|]. exists l1, l2. split; [set_solver|]. split; [set_solver|done].
Qed.
Lemma run_shape_then cr n d post : run_shape cr n d → no_start post → run_shape cr n (d ++ post).
Proof.
  intros (pre & st & q & -> & Hp & Hq & Hs) Hpost. exists pre, st, (q ++ post). rewrite <-!app_assoc.
  repeat split; [done|by apply Forall_app|done].
Qed.

(** The API server returns the cluster that is asked for, and defaults do not rename it. *)
Class RestoreClientLaws {W} (RC : RestoreClient W) := {
  rapi_get_cluster_name ns name (w : W) c w' : rapi_get_cluster ns name w = (Ok c, w') → cr_Name c = name;
  rapi_CheckNSetDefaults_name c platform c' : rapi_CheckNSetDefaults c platform = Ok c' → cr_Name c' = cr_Name c
}.

Section starts.
Context {W : Type} {KB : BackupClient W} {P : PBM W} {E : BackupEnv W} {L : LeaseClient W} {K : K8sClient W}.
Context {Q : PodClient W} {RK : RestoreK8s W} {RP : RestorePBM W} {RC : RestoreClient W} {CC : ClaimClient W}.
Context {C : MongoByCredentials W} {PS : PbmStore W} {CD : RestoreCodec} {TZ : TimeZone}.
Context {V : Versions} {VP : VersionParser} {O : MapOrder} {G : GoSort} {Y : Yaml} {R : GoRetryOn} {RL : GoRetryOnLaws R}.
Abbreviation T := (list restore_event * W)%type.
Abbreviation M := (GoM T).
Abbreviation B := (GoM (RestoreRun * T)).
Implicit Types (cr : RestoreCR) (bcp : PerconaServerMongoDBBackup) (cluster : RestoreCluster).
Hint Resolve quiet_validate quiet_resyncStorage quiet_getRestoreCmd quiet_follow_logical quiet_getBackup : quiet.

(** ** What is asked of PBM *)
Lemma emits_hasLocks (p : Lock → bool) :
  emits (HasLocks p : M bool) (λ r d, no_start d ∧
    ∀ b, r = Ok b → ∃ l1 l2, d = [LocksSeen l1; OpLocksSeen l2] ∧ b = existsb p (l1 ++ l2)).
Proof.
  unfold HasLocks, hasLocks. eapply emits_wrap_bind; [apply emits_recorded| |by intros e d ->; split; [constructor|]].
  intros l1 d ->. eapply emits_wrap_bind; [apply emits_recorded| |].
  - intros l2 d ->. apply emits_ret. cbn. split; [no_start|].
    intros b [= <-]. exists l1, l2. by split.
  - intros e d ->. split; [no_start|done].
Qed.

Lemma emits_lease (name ns : string) :
  emits (IsLeaseActive name ns : M bool) (λ r d, no_start d ∧ ∀ b, r = Ok b → d = [LeaseLook name (negb b)]).
Proof.
  unfold IsLeaseActive. cbn [lease_get rt_leases]. eapply emits_bind with
    (Q1 := λ rr d, ∃ r, rr = Ok r ∧ d = [LeaseLook name (lease_free r)]); [| |by intros e d (r & [=] & _)].
  { apply emits_try. eapply emits_conseq; [apply emits_recorded|]. intros r d ->. by exists r. }
  intros r0 d (r & [= ->] & ->). destruct r as [l|e].
  - apply emits_ret. rewrite ?app_nil_r. split; [no_start|]. intros b [= <-]. cbn. by destruct (lease_holder l).
  - destruct (IsNotFound e) eqn:Ee; [apply emits_ret|apply emits_throw]; rewrite ?app_nil_r; (split; [no_start|]); [|done].
    intros b [= <-]. cbn. by rewrite Ee.
Qed.

Lemma emits_clusterSync cr cluster :
  emits (checkClusterSyncLease cr cluster : M bool) (λ r d, no_start d ∧
    (r = Ok false → LeaseLook (ClusterSyncLeaseName (cr_Name cluster)) true ∈ d)).
Proof.
  unfold checkClusterSyncLease. eapply emits_wrap_bind; [apply emits_lease| |by intros e d [Hd _]].
  intros a d [Hd Hr]. specialize (Hr a eq_refl) as ->. destruct a; cbn.
  - apply emits_quiet_bind; [solve_quiet| |done]. intros _. apply emits_ret. by rewrite ?app_nil_r.
  - apply emits_ret. rewrite ?app_nil_r. split; [done|]. set_solver.
Qed.

Lemma emits_restoreLocks cluster :
  emits (checkRestoreLocks cluster : M RestoreWaitingReason) (λ r d, no_start d ∧
    (r = Ok RestoreNotWaiting → LeaseLook (BackupLeaseName (cr_Name cluster)) true ∈ d ∧
      ∃ l1 l2, LocksSeen l1 ∈ d ∧ OpLocksSeen l2 ∈ d ∧ none_locked IsBackupOrRestoreLock l1 l2)).
Proof.
  unfold checkRestoreLocks. eapply emits_wrap_bind; [apply emits_lease| |by intros e d [Hd _]].
  intros a d [Hd Hr]. specialize (Hr a eq_refl) as ->. destruct a; cbn; [by apply emits_ret; rewrite ?app_nil_r|].
  eapply emits_quiet_bind; [solve_quiet| |by rewrite ?app_nil_r]. intros [u|e]; [|by apply emits_ret; rewrite ?app_nil_r].
  eapply emits_bind; [apply emits_catch; eapply emits_conseq; [apply (emits_hasLocks IsBackupOrRestoreLock)|]| |].
  - instantiate (1 := λ rr d', match rr with Err _ => no_start d' | Ok r => no_start d' ∧
      ∀ b, r = Ok b → ∃ l1 l2, d' = [LocksSeen l1; OpLocksSeen l2] ∧ b = existsb IsBackupOrRestoreLock (l1 ++ l2) end).
    intros [b|e] d' H; [done|]. cbn. by destruct H.
  - intros r d' [Hd' Hb]. eapply emits_quiet_bind; [solve_quiet| |intros; split; [no_start|done]].
    intros _. destruct r as [b|e]; cbn.
    + apply emits_ret. rewrite ?app_nil_r. split; [no_start|]. destruct b; [done|]. intros _.
      destruct (Hb false eq_refl) as (l1 & l2 & -> & Hl). split; [set_solver|]. exists l1, l2. split; [set_solver|].
      split; [set_solver|done].
    + apply emits_throw. rewrite ?app_nil_r. split; [no_start|done].
  - intros e d' Hd'. split; [no_start|done].
Qed.

(** ** The start of a logical restore *)
Lemma emits_runRestore backupName cr :
  emits (runRestore backupName cr : M string) (λ _ d, no_start d ∨ ∃ cmd, d = [SentRestore cmd]).
Proof.
  unfold runRestore. apply emits_quiet_bind; [solve_quiet| |left; no_start]. intros now.
  apply emits_quiet_bind; [solve_quiet| |left; no_start]. intros cmd.
  eapply emits_wrap_bind; [apply emits_recorded| |by intros e d ->; right; exists cmd].
  intros u d ->. apply emits_ret. right. by exists cmd.
Qed.

Lemma start_logical_starts cr backupName :
  emits (start_logical cr backupName : M _) (λ _ d, no_start d ∨ start_steps d).
Proof.
  unfold start_logical, orelse. cbn [rpbm_SetConfigVar rt_rpbm].
  eapply emits_bind; [apply emits_catch; eapply emits_conseq; [apply emits_recorded|]| |].
  - instantiate (1 := λ rr d, match rr with Ok (Ok _) => d = [PitrOff] | _ => d = [] end).
    intros [[]|e] d ->; [done|]. by split.
  - intros [[]|e] d ->; [|apply emits_ret; left; no_start].
    eapply emits_bind; [apply emits_catch; eapply emits_conseq; [apply (emits_hasLocks IsPITRLock)|]| |].
    + instantiate (1 := λ rr d', match rr with Err _ => no_start d' | Ok r => no_start d' ∧
        ∀ b, r = Ok b → ∃ l1 l2, d' = [LocksSeen l1; OpLocksSeen l2] ∧ b = existsb IsPITRLock (l1 ++ l2) end).
      intros [b|e] d' H; [done|]. cbn. by destruct H.
    + intros r d [Hd Hb]. destruct r as [b|e].
      * destruct (Hb b eq_refl) as (l1 & l2 & -> & ->). destruct (existsb _ _) eqn:El.
        { apply emits_ret. left. no_start. }
        eapply emits_bind; [apply emits_catch; eapply emits_conseq; [apply emits_runRestore|]| |].
        -- instantiate (1 := λ _ d, no_start d ∨ ∃ cmd, d = [SentRestore cmd]). by intros [] d' H.
        -- intros r d [Hn|[cmd ->]]; apply emits_ret.
           ++ left. cbn. rewrite ?app_nil_r. no_start.
           ++ right. right. exists [PitrOff; LocksSeen l1; OpLocksSeen l2], cmd. split; [done|].
              split; [no_start|]. by exists [], l1, l2.
        -- intros e d [Hn|[cmd ->]]; [left; no_start|]. right. right.
           exists [PitrOff; LocksSeen l1; OpLocksSeen l2], cmd. split; [done|].
           split; [no_start|]. by exists [], l1, l2.
      * apply emits_ret. left. rewrite ?app_nil_r. no_start.
    + intros e d Hd. left. no_start.
  - intros e d ->. left. no_start.
Qed.

Lemma restore_steps_start ri cr bcp cluster msg (m : M restore_outcome) :
  m = reconcileLogicalRestore cr bcp cluster ∨ m = reconcilePhysicalRestore cr bcp cluster ∨
    m = reconcileExternalSnapshotRestore cr bcp cluster →
  leaves (runs ri msg m : B reply) (λ _ d, no_start d ∨ (fresh_restore (ro_State cr) = true ∧ start_steps d)).
Proof using RL.
  intros Hm. assert (emits m (λ _ d, no_start d ∨ (fresh_restore (ro_State cr) = true ∧ start_steps d))) as He.
  { assert (∀ d, Forall ran d ∧ (d = [] ∨ ro_State cr = RestoreStateWaiting) →
      no_start d ∨ (fresh_restore (ro_State cr) = true ∧ start_steps d)) as Hran.
    { intros d [Hd [->|Hw]]; [left; no_start|]. right. unfold fresh_restore. rewrite Hw. split; [done|by left]. }
    destruct Hm as [->|[->| ->]].
    - unfold reconcileLogicalRestore. apply emits_quiet_bind; [solve_quiet| |left; no_start].
      intros [u|e]; [|apply emits_ret; left; no_start]. apply emits_defer; [solve_quiet|].
      destruct (fresh_restore (ro_State cr)) eqn:Ef; [|apply quiet_emits; [solve_quiet|left; no_start]].
      eapply emits_conseq; [apply start_logical_starts|]. intros r d [H|H]; [by left|by right].
    - eapply emits_conseq; [apply physical_runs|]. intros r d H. by apply Hran.
    - eapply emits_conseq; [apply snapshot_runs|]. intros r d H. by apply Hran. }
  unfold runs. eapply leaves_bind; [by apply leaves_world| |done].
  intros o d Hd. apply leaves_mod_bind, leaves_ret. by rewrite ?app_nil_r.
Qed.

(** ** Before the start *)
Context (ri : Z).
Lemma leaves_inner {A} res wrap (m : M A) (k : A → B (option reply)) Qm (QQ : result (option reply) → list restore_event → Prop) :
  emits m Qm → (∀ a d, Qm (Ok a) d → leaves (k a) (λ r d', QQ r (d ++ d'))) →
  (∀ e d, Qm (Err e) d → QQ (Err e) d ∧ ∀ e', QQ (Ok (Some (res, Some e'))) d) →
  leaves (inner res wrap m k) QQ.
Proof.
  intros Hm Hk He. unfold inner.
  eapply leaves_bind with (Q1 := λ rr d, match rr with Ok r => Qm r d | Err e => Qm (Err e) d end).
  - apply leaves_world, emits_catch. eapply emits_conseq; [exact Hm|]. by intros [].
  - intros [a|e] d Hd; [by apply Hk|]. apply leaves_ret. rewrite app_nil_r. destruct (He e d Hd) as [_ H]. apply H.
  - intros e d Hd. by apply He.
Qed.
Lemma leaves_attempt {A} res wrap (m : M A) (Ra : A → Prop) (k : A → B reply) (QQ : result reply → list restore_event → Prop) :
  emits m (λ r d, d = [] ∧ ∀ a, r = Ok a → Ra a) → (∀ a, Ra a → leaves (k a) QQ) → (∀ r, QQ r []) →
  leaves (attempt res wrap m k) QQ.
Proof.
  intros Hm Hk HQ. unfold attempt.
  eapply leaves_bind with (Q1 := λ rr d, d = [] ∧ ∀ a, rr = Ok (Ok a) → Ra a).
  - apply leaves_world, emits_catch. eapply emits_conseq; [exact Hm|].
    intros [a|e] d [-> Ha]; [|by repeat split]. split; [done|]. intros a' [= ->]. by apply Ha.
  - intros [a|e] d [-> Ha]; apply leaves_mod_bind; [by apply Hk, Ha|by apply leaves_ret].
  - by intros e d [-> _].
Qed.
Lemma quiet_any {A} (m : M A) : quiet m → emits m (λ r d, d = [] ∧ ∀ a, r = Ok a → True).
Proof. intros Hm. eapply emits_conseq; [exact Hm|done]. Qed.
Lemma emits_lift {A} (r : result A) (Ra : A → Prop) :
  (∀ a, r = Ok a → Ra a) → emits (liftR r : M A) (λ r d, d = [] ∧ ∀ a, r = Ok a → Ra a).
Proof. intros Hr t w. exists []. by rewrite app_nil_r. Qed.
Lemma leaves_later_for reason (QQ : result (option reply) → list restore_event → Prop) :
  QQ (Ok (Some (rr ri, None))) [] → leaves (later_for ri reason : B _) QQ.
Proof. intros HQ. unfold later_for, later. by apply leaves_mod_bind, leaves_ret. Qed.

Lemma leaves_stop_mongos cluster : leaves (stop_mongos ri cluster : B _) (λ _ d, d = []).
Proof.
  unfold stop_mongos. apply leaves_quiet; [solve_quiet| |done]. intros [s|e].
  - apply leaves_quiet; [solve_quiet| |done]. intros [u|e]; [by apply leaves_later_for|].
    case_match; [by apply leaves_later_for|by apply leaves_ret].
  - case_match; [by apply leaves_ret|]. eapply leaves_inner; [apply quiet_emits; [solve_quiet|]| |].
    + intros r. instantiate (1 := λ _ d, d = []). done.
    + intros pods d ->. case_match; [by apply leaves_ret|by apply leaves_later_for].
    + by intros e' d ->.
Qed.
Lemma leaves_not_valid cr cluster e : leaves (not_valid ri cr cluster e : B _) (λ r d, d = [] ∧ r ≠ Ok None).
Proof using RL.
  unfold not_valid. case_match; [by apply leaves_later_for|]. case_match; [|by apply leaves_ret].
  eapply leaves_inner; [apply quiet_emits; [solve_quiet|]| |].
  - intros r. instantiate (1 := λ _ d, d = []). done.
  - intros u d ->. apply leaves_mod_bind. apply leaves_quiet; [apply quiet_catch, quiet_retry; solve_quiet| |done].
    intros _. by apply leaves_ret.
  - by intros e' d ->.
Qed.

Lemma leaves_before_start cr cluster :
  leaves (before_start ri cr cluster : B _) (λ r d, no_start d ∧ (r = Ok None → unblocked (cr_Name cluster) d)).
Proof using RL.
  unfold before_start. eapply leaves_inner; [apply emits_clusterSync| |by intros e d [Hd _]].
  intros blocked d [Hd Hb]. apply leaves_mod_bind.
  destruct blocked; [apply leaves_mod_bind, leaves_ret; by rewrite app_nil_r|]. specialize (Hb eq_refl).
  eapply leaves_inner; [apply emits_restoreLocks| |].
  2: { intros e d' [Hd' _]. assert (no_start (d ++ d')) by no_start. by repeat split. }
  intros reason d' [Hd' Hl]. case_bool_decide as Hr; cbn [negb].
  2: { apply leaves_mod_bind, leaves_ret. rewrite app_nil_r. split; [no_start|done]. }
  subst reason. destruct (Hl eq_refl) as (H1 & l1 & l2 & H2 & H3 & H4).
  assert (∀ d'', d'' = [] → no_start (d ++ d' ++ d'') ∧ unblocked (cr_Name cluster) (d ++ d' ++ d'')) as Hend.
  { intros ? ->. rewrite app_nil_r. split; [no_start|]. split; [set_solver|]. split; [set_solver|].
    exists l1, l2. split; [set_solver|]. split; [set_solver|done]. }
  apply leaves_quiet; [solve_quiet| |intros; split; [apply (Hend [] eq_refl)|done]].
  intros [u|e].
  - case_match; [|apply leaves_ret; split; [apply (Hend [] eq_refl)|intros _; apply (Hend [] eq_refl)]].
    eapply leaves_conseq; [apply leaves_stop_mongos|]. intros r d'' ->. split; [apply (Hend [] eq_refl)|intros _; apply (Hend [] eq_refl)].
  - eapply leaves_conseq; [apply leaves_not_valid|]. intros r d'' [-> Hn]. split; [apply (Hend [] eq_refl)|done].
Qed.

(** ** The body, and the status *)
Lemma leaves_run_restore cr bcp cluster :
  leaves (run_restore ri cr bcp cluster : B _) (λ _ d, no_start d ∨ (fresh_restore (ro_State cr) = true ∧ start_steps d)).
Proof using RL.
  unfold run_restore. repeat case_match; try (apply (restore_steps_start ri cr bcp cluster); tauto).
  apply leaves_ret. left. no_start.
Qed.
Lemma leaves_start_or_follow cr bcp cluster :
  leaves (start_or_follow ri cr bcp cluster : B _) (λ _, run_shape cr (cr_Name cluster)).
Proof using RL.
  unfold start_or_follow. destruct (fresh_restore _) eqn:Ef.
  - eapply leaves_bind; [apply leaves_before_start| |by intros e d [Hd _]; apply no_start_shape].
    intros [r|] d [Hd Hu]; [apply leaves_ret; rewrite app_nil_r; by apply no_start_shape|]. specialize (Hu eq_refl).
    eapply leaves_conseq; [apply leaves_run_restore|]. intros r d' [Hn|[_ Hs]].
    + apply no_start_shape. no_start.
    + exists d, d', []. rewrite app_nil_r. repeat split; [done|no_start|by right].
  - eapply leaves_conseq; [apply leaves_run_restore|]. intros r d [Hn|[? _]]; [by apply no_start_shape|congruence].
Qed.

Lemma leaves_write_status : leaves (write_status : B _) (λ _, no_start).
Proof using RL.
  assert (∀ m x, leaves ((if shouldUpdateStatus x.1 x.2
    then _ ← on_world (catchM (updateStatus (with_ro_Status x.2 (run_cr m)))); mret tt else mret tt) : B unit) (λ _, no_start)) as Hw.
  { intros m x. case_match; [|apply leaves_ret; no_start].
    eapply leaves_bind with (Q1 := λ _, no_start).
    - apply leaves_world, emits_catch. eapply emits_conseq with (Q := λ _, no_start); [|by intros []].
      unfold updateStatus. eapply emits_bind with (Q1 := λ _, no_start).
      + apply emits_catch. eapply emits_conseq;
          [apply (emits_retry (λ e, is_start e = false) (λ _ _, True))|by intros [] d [Hd _]].
        * unfold write_once. eapply emits_bind with (Q1 := λ _, no_start).
          -- eapply emits_conseq; [apply emits_recorded|]. intros [] d ->; no_start.
          -- intros c d Hd. eapply emits_quiet_bind; [solve_quiet| |intros e; rewrite app_nil_r; by split].
             intros _. eapply emits_bind with (Q1 := λ _, no_start).
             ++ eapply emits_conseq; [apply emits_recorded|]. intros [] d' ->; no_start.
             ++ intros c' d' Hd'. case_match; [apply emits_ret|apply emits_throw]; rewrite app_nil_r; (split; [no_start|done]).
             ++ intros e d' Hd'. split; [no_start|done].
          -- by intros e d Hd.
        * done.
      + intros [] d Hd; [apply emits_ret; by rewrite app_nil_r|].
        case_match; [apply emits_ret|apply emits_throw]; by rewrite app_nil_r.
      + done.
    - intros a d Hd. apply leaves_ret. by rewrite app_nil_r.
    - done. }
  unfold write_status. apply leaves_get_bind. intros m. destruct (run_clusterSync m) as [active|].
  - eapply leaves_bind with (Q1 := λ _ d, d = []); [|intros st d ->; apply Hw|intros e d ->; no_start].
    apply leaves_quiet; [solve_quiet|intros now; by apply leaves_ret|done].
  - eapply leaves_bind with (Q1 := λ _ d, d = []); [by apply leaves_ret|intros st d ->; apply Hw|intros e d ->; no_start].
Qed.

(** ** The whole run *)
Context {RCL : RestoreClientLaws RC}.
Lemma emits_get_cluster ns name :
  emits (rapi_get_cluster ns name : M _) (λ r d, d = [] ∧ ∀ c, r = Ok c → cr_Name c = name).
Proof using RCL.
  intros t w. cbn [rapi_get_cluster rt_client]. unfold quietly, recorded. cbn.
  destruct (rapi_get_cluster ns name w) as [r w'] eqn:Eg. exists []. split; [done|]. split; [done|].
  intros c Hr. cbn in Hr. subst r. by eapply rapi_get_cluster_name.
Qed.
Lemma leaves_with_cluster cr bcp cluster :
  leaves (with_cluster ri cr bcp cluster : B _) (λ _, run_shape cr (cr_Name cluster)).
Proof using RL RCL.
  assert (∀ r, r = [] → run_shape cr (cr_Name cluster) r) as Hnil by (intros ? ->; apply no_start_shape; no_start).
  unfold with_cluster. eapply leaves_attempt; [apply quiet_any; solve_quiet| |by auto]. intros _ _.
  case_match; [apply leaves_mod_bind, leaves_ret; by auto|].
  eapply leaves_attempt; [apply quiet_any; solve_quiet| |by auto]. intros platform _.
  eapply leaves_attempt; [apply emits_lift; intros c; apply (rapi_CheckNSetDefaults_name (RC := RC) cluster platform)| |by auto]. intros c Hc.
  destruct (bk_State bcp); try (apply leaves_ret; by auto); try (apply leaves_mod_bind, leaves_ret; by auto).
  rewrite <-Hc. apply leaves_start_or_follow.
Qed.
Lemma defaults_keep_cluster cr : rsp_ClusterName (ro_Spec (restore_SetDefaults cr)) = rsp_ClusterName (ro_Spec cr).
Proof. done. Qed.
Lemma leaves_body cr : leaves (body ri cr : B _) (λ _, run_shape cr (rsp_ClusterName (ro_Spec cr))).
Proof using RL RCL.
  assert (∀ r, r = [] → run_shape cr (rsp_ClusterName (ro_Spec cr)) r) as Hnil by (intros ? ->; apply no_start_shape; no_start).
  unfold body. eapply leaves_attempt; [apply quiet_any; solve_quiet| |by auto]. intros bcp _.
  eapply leaves_attempt; [apply quiet_any; solve_quiet| |by auto]. intros _ _. apply leaves_mod_bind.
  case_match; [apply leaves_ret; by auto|].
  eapply leaves_attempt; [apply emits_get_cluster| |by auto]. intros c Hc. rewrite <-(defaults_keep_cluster cr), <-Hc.
  apply (leaves_with_cluster (restore_SetDefaults cr)).
Qed.

Lemma start_elem d e : no_start d → is_start e = true → e ∉ d.
Proof. intros Hd He Hin. unfold no_start in Hd. rewrite Forall_forall in Hd. by rewrite (Hd e Hin) in He. Qed.
Lemma shape_start cr n d d1 e d2 :
  run_shape cr n d → d = d1 ++ e :: d2 → is_start e = true →
  fresh_restore (ro_State cr) = true ∧ unblocked n d1 ∧ ∀ cmd, e = SentRestore cmd → pitr_stopped d1.
Proof.
  intros (pre & st & post & -> & Hp & Hq & Hs) Hd He.
  destruct (app_split _ _ _ _ _ Hd) as [Hin|(d0 & -> & Hd0)]; [by destruct (start_elem pre e Hp He)|].
  destruct Hs as [->|(Hf & (H1 & H2 & l1 & l2 & H3 & H4 & H5) & Hs)].
  { cbn in Hd0. subst post. destruct (start_elem _ e Hq He). set_solver. }
  split; [done|]. split.
  { split; [set_solver|]. split; [set_solver|]. exists l1, l2. split; [set_solver|]. split; [set_solver|done]. }
  intros cmd ->. destruct Hs as [Hr|(d3 & cmd' & -> & Hn & d4 & l3 & l4 & -> & Hl)].
  - destruct (app_split _ _ _ _ _ Hd0) as [Hin|(d3 & -> & ->)].
    + rewrite Forall_forall in Hr. by destruct (Hr _ Hin).
    + destruct (start_elem _ _ Hq He). set_solver.
  - rewrite <-app_assoc in Hd0. destruct (app_split _ _ _ _ _ Hd0) as [Hin|([|x d5] & -> & Hd5)].
    + by destruct (start_elem _ _ Hn He).
    + rewrite app_nil_r. exists (pre ++ d4), l3, l4. by rewrite app_assoc.
    + cbn in Hd5. injection Hd5 as <- ->. destruct (start_elem _ _ Hq He). set_solver.
Qed.

(** C18: A run of the restore controller tells PBM to start a restore, by a command
    in PBM's queue or by PBM's program in a pod, only for a restore that it read as
    new or waiting, after it found in the same run both leases of that restore's
    cluster free (the backup lease and the cluster synchronisation lease) and PBM's
    locks without a lock of a backup or of a restore; the command of a logical
    restore goes out right after point-in-time recovery was switched off and PBM's
    locks were read once more without a lock of it. *)
Theorem restore_starts_unblocked ns name w d1 e d2 :
  (Reconcile ri ns name ([], w) : result reply * T).2.1 = d1 ++ e :: d2 → is_start e = true →
  ∃ cr d, d1 = ReadRestore cr :: d ∧ fresh_restore (ro_State cr) = true ∧ unblocked (rsp_ClusterName (ro_Spec cr)) d ∧
    ∀ cmd, e = SentRestore cmd → pitr_stopped d.
Proof using RL RCL.
  intros Hd He.
  assert (emits (Reconcile ri ns name : M reply) (λ _ d, d = [] ∨
    ∃ cr d', d = ReadRestore cr :: d' ∧ run_shape cr (rsp_ClusterName (ro_Spec cr)) d')) as Hm.
  { unfold Reconcile. eapply emits_bind with (Q1 := λ r d, match r with Ok (Ok cr) => d = [ReadRestore cr] | _ => d = [] end).
    - apply emits_catch. eapply emits_conseq; [apply emits_recorded|]. by intros [] d ->.
    - intros [cr|e'] d ->; [|case_match; apply emits_ret; by left].
      intros t w0. unfold in_run.
      assert (leaves (deferM write_status (body ri cr) : B reply) (λ _, run_shape cr (rsp_ClusterName (ro_Spec cr)))) as Hb.
      { eapply leaves_defer; [apply leaves_write_status|apply leaves_body|]. intros. by apply run_shape_then. }
      destruct (Hb (first_run cr) t w0) as (d & Hd' & Hr).
      exists d. destruct (deferM _ _ _) as [r [s' [t' w']]]. cbn in *. split; [done|]. right. by exists cr, d.
    - intros e' d ->. by left. }
  destruct (Hm [] w) as (d & Hd' & Hr). rewrite Hd in Hd'. cbn in Hd'.
  destruct Hr as [->|(cr & d' & -> & Hs)]; [by destruct d1|].
  destruct d1 as [|x d1]; cbn in Hd'; simplify_eq.
  exists cr, d1. split; [done|]. by eapply shape_start.
Qed.
End starts.

(** * What is written of a restore *)
(** Types are told apart, as the API server requires of a list of conditions. *)
Definition distinct_types (l : list Condition) : Prop := NoDup (map cd_Type l).
Lemma find_condition_head c l : find_condition (c :: l) (cd_Type c) = Some c.
Proof. unfold find_condition. cbn. by rewrite decide_True. Qed.
Lemma find_condition_elem l c : distinct_types l → c ∈ l → find_condition l (cd_Type c) = Some c.
Proof.
  intros Hd Hin. induction Hin as [c l|c c' l Hin IH]; [apply find_condition_head|].
  apply NoDup_cons in Hd as [Hn Hd]. specialize (IH Hd). unfold find_condition in *. cbn.
  rewrite decide_False; [|intros E; apply Hn; rewrite E; apply list_elem_of_fmap; eauto].
  destruct (list_find _ l) as [[i x]|]; cbn in *; congruence.
Qed.
Lemma ConditionsEqual_refl st : distinct_types (rst_Conditions st) → ConditionsEqual st st = true.
Proof.
  intros Hd. unfold ConditionsEqual. rewrite bool_decide_eq_true_2 by done. cbn. apply forallb_forall.
  intros c Hc%list_elem_of_In. unfold condition_is. rewrite (find_condition_elem _ c) by done. by rewrite bool_decide_eq_true_2.
Qed.

Section written.
Context {W : Type} {KB : BackupClient W} {P : PBM W} {E : BackupEnv W} {L : LeaseClient W} {K : K8sClient W}.
Context {Q : PodClient W} {RK : RestoreK8s W} {RP : RestorePBM W} {RC : RestoreClient W} {CC : ClaimClient W}.
Context {C : MongoByCredentials W} {PS : PbmStore W} {CD : RestoreCodec} {TZ : TimeZone}.
Context {V : Versions} {VP : VersionParser} {O : MapOrder} {G : GoSort} {Y : Yaml} {R : GoRetryOn}.
Context (ri : Z).
Implicit Types (cr : RestoreCR) (bcp : PerconaServerMongoDBBackup) (cluster : RestoreCluster).

Definition failed (e : error) (st : RestoreStatus) : RestoreStatus :=
  to_WaitingReason RestoreNotWaiting (to_Error (err_string e) (to_State RestoreStateError st)).

Lemma catch_ok {A} (m : GoM W A) w a w' : m w = (Ok a, w') → catchM m w = (Ok (Ok a), w').
Proof. intros Hm. unfold catchM. by rewrite Hm. Qed.
Lemma catch_err {A} (m : GoM W A) w e w' : m w = (Err e, w') → is_panic e = false → catchM m w = (Ok (Err e), w').
Proof. intros Hm He. unfold catchM. by rewrite Hm, He. Qed.
Lemma attempt_ok {A} res wrap (m : GoM W A) k s w a w' :
  m w = (Ok a, w') → attempt res wrap m k (s, w) = k a (set_err None s, w').
Proof.
  intros Hm. unfold attempt. erewrite bind_ok; [|unfold on_world; cbn; by rewrite (catch_ok _ _ _ _ Hm)]. done.
Qed.
Lemma attempt_err {A} res wrap (m : GoM W A) k s w e w' :
  m w = (Err e, w') → is_panic e = false →
  attempt res wrap m k (s, w) = (Ok (res, Some (wrap e)), (set_err (Some e) s, w')).
Proof.
  intros Hm He. unfold attempt. erewrite bind_ok; [|unfold on_world; cbn; by rewrite (catch_err _ _ _ _ Hm He)]. done.
Qed.
Lemma same_status cr st : distinct_types (rst_Conditions st) → rst_WaitingReason st = RestoreNotWaiting →
  ro_Status cr = st → shouldUpdateStatus (ro_Status cr) (to_WaitingReason RestoreNotWaiting st) = false.
Proof.
  intros Hd Hr ->. unfold shouldUpdateStatus. cbn. rewrite Hr, !bool_decide_eq_true_2 by done.
  assert (ConditionsEqual st (to_WaitingReason RestoreNotWaiting st) = ConditionsEqual st st) as -> by done.
  by rewrite ConditionsEqual_refl.
Qed.

Lemma write_status_run m w : run_clusterSync m = None →
  (write_status (m, w)).2 =
    (m, if shouldUpdateStatus (ro_Status (run_cr m)) (final_status m)
        then (catchM (updateStatus (with_ro_Status (final_status m) (run_cr m))) w).2 else w).
Proof.
  intros Hm. unfold write_status, get_mem, mbind, gom_bind. cbn. rewrite Hm. cbn. case_match; [|done].
  unfold on_world. cbn. by destruct (catchM _ w) as [[]].
Qed.

Lemma final_terminal cr : terminal (ro_State cr) = true → rst_WaitingReason (ro_Status cr) = RestoreNotWaiting →
  final_status (set_cr (restore_SetDefaults cr) (set_err None (set_err None (first_run cr)))) =
    to_WaitingReason RestoreNotWaiting (ro_Status cr).
Proof.
  intros Ht Hr. unfold final_status. cbn. rewrite bool_decide_eq_false_2; [done|].
  unfold terminal, ro_State in Ht. intros Hw. by rewrite Hw in Ht.
Qed.


(** ** Errors of the checks *)
(** The status [st'] is not one of a restore that ended since [st]. *)
Definition not_failed (st st' : RestoreStatus) : Prop :=
  rst_Error st' = rst_Error st ∧ (rst_State st' = rst_State st ∨ rst_State st' = RestoreStateWaiting).
Definition not_ended (st : RestoreStatus) (m : RestoreRun) : Prop :=
  run_err m = None ∧ not_failed st (run_status m).
Lemma keep_inner {A} I res wrap (m : GoM W A) (k : A → GoM (RestoreRun * W) (option reply)) :
  (∀ a, hoare I (k a) (λ _, I)) → hoare I (inner res wrap m k) (λ _, I).
Proof.
  intros Hk. apply hoare_step; [by apply hoare_world|]. intros [a|e]; [apply Hk|by apply hoare_ret].
Qed.
Lemma keep_status st (f : RestoreStatus → RestoreStatus) :
  (∀ s, rst_Error (f s) = rst_Error s ∧ (rst_State (f s) = rst_State s ∨ rst_State (f s) = RestoreStateWaiting)) →
  hoare (W := W) (not_ended st) (mod_mem (on_status f)) (λ _, not_ended st).
Proof.
  intros Hf. apply hoare_mod. intros m (H1 & H2 & H3). destruct (Hf (run_status m)) as [Hf1 Hf2].
  split; [done|]. unfold not_failed. cbn. rewrite Hf1. split; [done|]. destruct Hf2 as [->| ->]; [done|by right].
Qed.
Lemma explains_keeps reason s :
  rst_Error (explains reason s) = rst_Error s ∧
  (rst_State (explains reason s) = rst_State s ∨ rst_State (explains reason s) = RestoreStateWaiting).
Proof. unfold explains. case_bool_decide; split; by try left. Qed.
Lemma keep_later_for st reason : hoare (W := W) (not_ended st) (later_for ri reason) (λ _, not_ended st).
Proof. apply hoare_step; [apply keep_status, explains_keeps|]. intros _. by apply hoare_ret. Qed.
Lemma keep_wait_for st reason : hoare (W := W) (not_ended st) (wait_for ri reason) (λ _, not_ended st).
Proof.
  apply hoare_step; [apply keep_status; intros s; split; [done|by right]|]. intros _. by apply hoare_ret.
Qed.
Lemma keep_stop_mongos st cluster : hoare (not_ended st) (stop_mongos ri cluster) (λ _, not_ended st).
Proof.
  unfold stop_mongos. apply hoare_step; [by apply hoare_world|]. intros [sts|e].
  - apply hoare_step; [by apply hoare_world|]. intros [u|e]; [apply keep_later_for|].
    case_match; [apply keep_later_for|by apply hoare_ret].
  - case_match; [by apply hoare_ret|]. apply keep_inner. intros [|p l]; [by apply hoare_ret|apply keep_later_for].
Qed.
Lemma keep_not_valid st cr cluster e : hoare (not_ended st) (not_valid ri cr cluster e) (λ _, not_ended st).
Proof.
  unfold not_valid. case_match; [apply keep_later_for|]. case_match; [|by apply hoare_ret].
  apply keep_inner. intros _. apply hoare_step; [apply keep_status, explains_keeps|]. intros _.
  apply hoare_step; [by apply hoare_world|]. intros _. by apply hoare_ret.
Qed.
Lemma keep_before_start st cr cluster : hoare (not_ended st) (before_start ri cr cluster) (λ _, not_ended st).
Proof.
  unfold before_start. apply keep_inner. intros blocked.
  apply hoare_step; [by apply hoare_mod|]. intros _. case_match; [apply keep_wait_for|].
  apply keep_inner. intros reason. case_match; [apply keep_wait_for|].
  apply hoare_step; [by apply hoare_world|]. intros [u|e]; [|apply keep_not_valid].
  case_match; [apply keep_stop_mongos|by apply hoare_ret].
Qed.

(** No error of the checks that a run of the restore controller makes before it
    starts a restore (the leases, PBM's locks, the validation of the restore and of
    its backup, the resynchronisation, the end of mongos) becomes the error of the
    restore: whatever they end with, the outer error is unset, and the status that
    the run writes has the error it had, and its state or Waiting. *)
Theorem check_errors_unwritten cr cluster m w r m' w' :
  before_start ri cr cluster (m, w) = (r, (m', w')) → run_err m = None →
  run_err m' = None ∧ not_failed (run_status m) (final_status m').
Proof.
  intros Hb Hm. assert (not_ended (run_status m) m) as H0 by (split; [done|split; [done|by left]]).
  pose proof (keep_before_start (run_status m) cr cluster m w H0) as H. rewrite Hb in H. cbn in H.
  destruct H as (He & H1 & H2). split; [done|]. unfold final_status. rewrite He. by case_bool_decide.
Qed.
End written.

(** * A restore from a source, whose cluster is free *)
Section demo.
Local Existing Instances emptyYaml insertion_GoSort steps_retry steps_retry_laws.
Local Instance demo_order : MapOrder := λ V m, map_to_list m.
Local Instance demo_kube : K8sClient unit := emptyK8s unit.
Local Instance demo_pods : PodClient unit := {|
  pod_get := λ _ _, notFound; pod_delete := λ _, mret tt; pod_patch := λ _ p, mret p; pod_resize := λ _ p, mret p;
  revision_template := λ _ _, notFound; poll_tick := mret PollNext; ctx_err := mret None |}.
Local Instance demo_leases : LeaseClient unit := {|
  lease_get := λ _ _, notFound; lease_create_or_update := λ l f, f l;
  lease_delete := λ _, mret tt; lease_now := mret 0%Z |}.
Definition pbm_locked (locks : list Lock) : PBM unit :=
  let base := emptyPBM unit in {|
  newPBM := newPBM (PBM := base); pbm_Close := pbm_Close (PBM := base); pbm_SendCmd := pbm_SendCmd (PBM := base);
  pbm_GetBackupMeta := λ _, mret None; pbm_Node := pbm_Node (PBM := base);
  pbm_FinishBackup := pbm_FinishBackup (PBM := base); pbm_CancelBackup := pbm_CancelBackup (PBM := base);
  pbm_DeleteBackup := pbm_DeleteBackup (PBM := base); pbm_DeleteBackupMeta := pbm_DeleteBackupMeta (PBM := base);
  pbm_DeletePITRChunks := pbm_DeletePITRChunks (PBM := base);
  pbm_GetNSetConfigLegacy := pbm_GetNSetConfigLegacy (PBM := base);
  pbm_GetLocks := mret locks;
  pbm_GetOpLocks := pbm_GetOpLocks (PBM := base); pbm_ClusterTime := pbm_ClusterTime (PBM := base);
  pbm_StaleFrameSec := 30%Z; pbm_PrettySize := itoa |}.
Local Instance demo_backups : BackupClient unit := emptyBackups unit.
Local Instance demo_env : BackupEnv unit := plainEnv unit.
Local Instance demo_rpbm : RestorePBM unit := {|
  rpbm_SetConfigVar := λ _ _, mret tt; rpbm_GetRestoreMeta := λ _, mret None; rpbm_SendCmd := λ _, mret tt;
  rpbm_GetPITRChunkContains := λ _ _, mret tt; rpbm_GetTimelinesPITR := λ _, mret []; rpbm_CheckStorage := λ _ _, mret tt;
  rpbm_ResyncMainStorageAndWait := mret tt; rpbm_ResyncProfileAndWait := λ _, mret tt |}.
Local Instance demo_client : RestoreClient unit := {|
  rapi_get := λ _ _, mret (a_restore RestoreStateNew); rapi_update_status := λ _, mret tt;
  rapi_get_cluster := λ _ name, if bool_decide (name = "c") then mret (a_restore_cluster []) else notFound;
  rapi_patch_cluster := λ _ _, mret tt; rapi_CheckNSetDefaults := λ c _, Ok c; rapi_get_snapshot := λ _ _, mret tt |}.
Local Instance demo_client_laws : RestoreClientLaws demo_client.
Proof.
  split.
  - intros ns name w c w' Hg. cbn in Hg. case_bool_decide; [|done]. subst name. by injection Hg as <- <-.
  - by intros c p c' [= <-].
Qed.
Local Instance demo_k8s : RestoreK8s unit := {|
  rts_get := λ _ _, notFound; rts_update := λ _, mret tt; rts_patch := λ _ _, mret tt; rts_delete := λ _ _, notFound;
  rsecret_get := λ _ _, notFound; rsecret_create := λ _, mret tt; rsecret_update := λ _, mret tt;
  rsecret_delete := λ _ _, notFound; rexec := λ _ _ _, mret ("", "", None) |}.
Local Instance demo_claims : ClaimClient unit :=
  {| claim_get := λ _ _, notFound; claim_create := λ _, mret tt; claim_delete := λ _, mret tt |}.
Local Instance demo_mongo : MongoByCredentials unit :=
  {| mongo_with_credentials := λ _ _ _ _, notFound; mongo_disconnect := mret tt |}.
Local Instance demo_store : PbmStore unit := {|
  config_SetConfig := λ _, mret tt; config_GetConfig := notFound; config_AddProfile := λ _, mret tt;
  config_GetProfile := λ _, notFound; config_RemoveProfile := λ _, mret tt |}.
Local Instance demo_codec : RestoreCodec := {|
  json_restore_name := λ _, Err nil_panic; json_describe_restore := λ _, Err nil_panic; json_pbm_status := λ _, Err nil_panic;
  json_secret_data := λ _, Err nil_panic; bson_config := λ _, Err nil_panic; yaml3_marshal := λ _, Err nil_panic;
  yaml3_map := λ _, Err nil_panic |}.
Local Instance demo_zone : TimeZone := λ _, 0%Z.
Local Instance demo_versions : Versions := λ _ _, 1%Z.
Local Instance demo_parser : VersionParser := λ _, true.
Definition restore_run (locks : list Lock) : result reply * (list restore_event * unit) :=
  Reconcile (P := rt_PBM (P := pbm_locked locks)) 5 "ns" "r" ([], tt).
Definition sent : RestoreCmd :=
  {| rcmd_Name := "2023-11-14T22:13:20Z"; rcmd_BackupName := "2026-01-01T00:00:00Z"; rcmd_RSMap := None;
     rcmd_Namespaces := []; rcmd_UsersAndRoles := false; rcmd_NamespaceFrom := ""; rcmd_NamespaceTo := "";
     rcmd_OplogTS := 0 |}.

Lemma restore_starts_unblocked_witness :
  let trace := (restore_run []).2.1 in
  trace = take 8 trace ++ SentRestore sent :: drop 9 trace ∧
  ∃ cr d, take 8 trace = ReadRestore cr :: d ∧ fresh_restore (ro_State cr) = true ∧
    unblocked (rsp_ClusterName (ro_Spec cr)) d ∧ pitr_stopped d.
Proof.
  intros trace.
  assert (trace = take 8 trace ++ SentRestore sent :: drop 9 trace) as Ht by (vm_compute; reflexivity).
  split; [exact Ht|].
  destruct (restore_starts_unblocked (P := pbm_locked []) 5 "ns" "r" tt _ _ _ Ht eq_refl) as (cr & d & Hd & Hf & Hu & Hp).
  exists cr, d. split; [exact Hd|]. split; [exact Hf|]. split; [exact Hu|]. exact (Hp sent eq_refl).
Defined.

(** Point-in-time recovery has yet to let go: nothing is sent. *)
Example restore_waits_for_pitr :
  existsb is_start (restore_run [{| lock_Type := CmdPITR; lock_OPID := "op"; lock_Heartbeat := 1 |}]).2.1 = false.
Proof. vm_compute. reflexivity. Qed.

(** A restore that is ready, and a backup that is gone *)
Definition ready_of (backup : string) : RestoreCR :=
  let r := a_restore RestoreStateReady in
  {| ro_Name := ro_Name r; ro_Namespace := ro_Namespace r;
     ro_Spec := {| rsp_ClusterName := "c"; rsp_BackupName := backup; rsp_BackupSource := rsp_BackupSource (ro_Spec r);
                   rsp_StorageName := ""; rsp_PITR := None; rsp_Selective := None; rsp_RSMap := None |};
     ro_Status := ro_Status r |}.
Definition client_of (cr : RestoreCR) : RestoreClient unit :=
  let base := demo_client in {|
  rapi_get := λ _ _, mret cr; rapi_update_status := rapi_update_status (RestoreClient := base);
  rapi_get_cluster := rapi_get_cluster (RestoreClient := base);
  rapi_patch_cluster := rapi_patch_cluster (RestoreClient := base);
  rapi_CheckNSetDefaults := rapi_CheckNSetDefaults (RestoreClient := base);
  rapi_get_snapshot := rapi_get_snapshot (RestoreClient := base) |}.

(** The API server does not answer: the run fails, and a new restore stays new. *)
Definition deaf_leases : LeaseClient unit := {|
  lease_get := λ _ _, throw (EExt KOther "no answer"); lease_create_or_update := λ l f, f l;
  lease_delete := λ _, mret tt; lease_now := mret 0%Z |}.
Lemma check_errors_unwritten_witness :
  let run := before_start (P := pbm_locked []) (L := deaf_leases) 5 (a_restore RestoreStateNew) (a_restore_cluster [])
               (first_run (a_restore RestoreStateNew), tt) in
  (∃ e, run.1 = Ok (Some (rr 5, Some e))) ∧ rst_Error (final_status run.2.1) = "".
Proof.
  intros run. split; [eexists; vm_compute; reflexivity|].
  assert (run = (run.1, (run.2.1, run.2.2))) as Hr by reflexivity.
  exact (proj1 (proj2 (check_errors_unwritten (P := pbm_locked []) (L := deaf_leases) 5
    (a_restore RestoreStateNew) (a_restore_cluster []) _ _ _ _ _ Hr eq_refl))).
Defined.
End demo.
