(* ===== verification/Apply.v ===== *)
(** Writing an object that the operator owns: [ApplyIf] and [Apply]
    (pkg/util/apply.go), [DeleteIfExists] (pkg/k8s/utils.go) and
    controller-runtime's [SetControllerReference], over any kind of object.

    An object is whatever has a name, labels, annotations and a version
    ([K8sObject]); the API server is a class, and JSON in base64, by which an
    object is told apart from what was applied before, a function.  Of a service
    [ApplyIf] also keeps the address; no service is applied here. *)
From S2P Require Import Prelude Kube GoSort BackupApi Lease BackupExec BackupController PhysicalRestore.

Class K8sObject (O : Type) := {
  ob_Name : O → string;
  ob_Namespace : O → string;
  ob_Labels : O → gmap string string;
  ob_Annotations : O → gmap string string;
  ob_ResourceVersion : O → string;
  ob_Deleting : O → bool;                          (* DeletionTimestamp != nil *)
  ob_Controller : O → option string;               (* the UID of the owner that controls it *)
  ob_with_Annotations : gmap string string → O → O;
  ob_with_ResourceVersion : string → O → O;
  ob_with_Controller : option string → O → O
}.
Class ObjectClient (W O : Type) := {
  ob_get : string → string → GoM W O;
  ob_create : O → GoM W unit;
  ob_update : O → GoM W unit;
  ob_delete : O → GoM W unit
}.
(** [getObjectHash]: the specification, the data or all of the object *)
Class ObjectHash (O : Type) := getObjectHash : O → result string.

Inductive ApplyStatus := ApplyStatusCreated | ApplyStatusUpdated | ApplyStatusUnchanged.

Section apply.
Context {W O : Type} {KO : K8sObject O} {OC : ObjectClient W O} {OH : ObjectHash O} {MO : MapOrder}.
Abbreviation M := (GoM W).
Implicit Types (obj old : O).

(** The object in the API server, or the one just created *)
Definition create_or_read obj : M (option O) :=
  let get : M O := ob_get (ob_Namespace obj) (ob_Name obj) in
  got ← catchM get;
  match got with
  | Ok old => mret (Some old)
  | Err e =>
      if negb (IsNotFound e) then throw (EWrap e "get object")
      else
        created ← catchM (ob_create obj);
        match created with
        | Ok _ => mret None
        | Err e => if negb (is_kind KAlreadyExists e) then throw e
                   else old ← wrapM "get object" get; mret (Some old)
        end
  end.
Definition outdated hash old obj : bool :=
  negb (bool_decide (default "" (ob_Annotations old !! LastConfigHash) = hash))
  || negb (MapEqual (ob_Labels old) (ob_Labels obj))
  || negb (MapEqual (ob_Annotations old) (ob_Annotations obj)).

Definition ApplyIf obj (canWrite : option (O → bool)) : M ApplyStatus :=
  let obj := ob_with_Annotations (delete LastConfigHash (ob_Annotations obj)) obj in
  hash ← wrapM "calculate object hash" (liftR (getObjectHash obj));
  let obj := ob_with_Annotations (<[LastConfigHash := hash]> (ob_Annotations obj)) obj in
  r ← create_or_read obj;
  match r with
  | None => mret ApplyStatusCreated
  | Some old =>
      let refused := match canWrite with Some ok => negb (ok old) | None => false end in
      if refused then mret ApplyStatusUnchanged
      else if outdated hash old obj then
        ob_update (ob_with_ResourceVersion (ob_ResourceVersion old) obj);; mret ApplyStatusUpdated
      else mret ApplyStatusUnchanged
  end.
Definition ApplyObject obj : M ApplyStatus := ApplyIf obj None.

Definition DeleteIfExists obj : M unit :=
  got ← catchM (ob_get (ob_Namespace obj) (ob_Name obj));
  match got with
  | Err e => if IsNotFound e then mret tt else throw (EWrap e "failed to get object")
  | Ok obj =>
      if ob_Deleting obj then mret tt
      else
        r ← catchM (ob_delete obj);
        match r with
        | Err e => if IsNotFound e then mret tt else throw (EWrap e "failed to delete object")
        | Ok _ => mret tt
        end
  end.

(** An object has one controller; another can't take it. *)
Definition SetControllerReference (owner : string) obj : result O :=
  match ob_Controller obj with
  | Some u => if bool_decide (u = owner) then Ok obj
              else Err (ENew "Object is already owned by another controller")
  | None => Ok (ob_with_Controller (Some owner) obj)
  end.
Definition IsControlledBy (owner : string) obj : bool := bool_decide (ob_Controller obj = Some owner).
End apply.
