(* ===== verification/SyncApi.v ===== *)
(** Cluster synchronisation: the resource PerconaServerMongoDBClusterSync
    (perconaservermongodbclustersync_types.go), and the objects made from it by
    pkg/psmdb/clustersync: the deployment of PCSM, the program that copies a
    source cluster to a target one, its container, and its disruption budget. *)
From S2P Require Import Prelude Defaults.
From S2P Require Import ReplsetModels Api Kube Hosts GoSort BackupApi BackupExec PhysicalRestore SmartUpdate RestoreLogical Apply.

(** * The resource *)
Abbreviation ClusterSyncMode := string (only parsing).
Definition ClusterSyncModePaused : string := "paused".
Definition ClusterSyncModeRunning : string := "running".
Definition ClusterSyncModeFinalized : string := "finalized".

(** The state is what PCSM says it is. *)
Abbreviation ClusterSyncState := string (only parsing).
Definition ClusterSyncStateRunning : string := "running".
Definition ClusterSyncStatePaused : string := "paused".
Definition ClusterSyncStateFinalizing : string := "finalizing".
Definition ClusterSyncStateFinalized : string := "finalized".
Definition ClusterSyncStateFailed : string := "failed".

Record ClusterSyncSource := { so_URI : string; so_CredentialsSecret : string }.
Record ClusterSyncPCSMConfig := { pcf_LogLevel : string; pcf_LogJSON : option bool }.
(** A container's security context: whether the root file system is read-only,
    and the rest as text *)
Record ContainerSecurity := { csec_ReadOnlyRootFilesystem : option bool; csec_rest : string }.

Record ClusterSyncSpec := {
  sps_ClusterName : string;
  sps_Image : string;
  sps_Size : Z;
  sps_ImagePullPolicy : string;
  sps_ImagePullSecrets : list string;
  sps_Resources : ResourceRequirements;
  sps_NodeSelector : gmap string string;
  sps_Tolerations : list string;                    (* as texts *)
  sps_Affinity : option PodAffinity;
  sps_Annotations : gmap string string;
  sps_Labels : gmap string string;
  sps_RuntimeClassName : option string;
  sps_ContainerSecurityContext : option ContainerSecurity;
  sps_PodSecurityContext : option string;
  sps_LivenessProbe : option Probe;
  sps_ReadinessProbe : option Probe;
  sps_PodDisruptionBudget : option PodDisruptionBudgetSpec;
  sps_Source : ClusterSyncSource;
  sps_ExcludeNamespaces : list string;
  sps_Mode : ClusterSyncMode;
  sps_PCSMConfig : ClusterSyncPCSMConfig;
  sps_Env : list EnvVar
}.

Definition ConditionClusterSyncRunning : string := "Running".
Definition ConditionClusterSyncFinalized : string := "Finalized".
(** A condition with the generation of the resource it was seen for *)
Record SyncCondition := { syc_Condition : Condition; syc_ObservedGeneration : Z }.
#[export] Instance SyncCondition_eq_dec : EqDecision SyncCondition.
Proof. solve_decision. Defined.

Record ClusterSyncStatus := {
  sst_Mode : ClusterSyncMode;
  sst_State : ClusterSyncState;
  sst_LagTimeSeconds : Z;
  sst_Error : string;
  sst_Size : Z;
  sst_ReadyReplicas : Z;
  sst_ActiveInstance : string;
  sst_StartedAt : option time;
  sst_Conditions : list SyncCondition
}.
#[export] Instance ClusterSyncStatus_eq_dec : EqDecision ClusterSyncStatus.
Proof. solve_decision. Defined.

Record ClusterSyncCR := {
  sy_Name : string;
  sy_Namespace : string;
  sy_UID : string;
  sy_Generation : Z;
  sy_Finalizers : list string;
  sy_Deleting : bool;                               (* DeletionTimestamp is not zero *)
  sy_Spec : ClusterSyncSpec;
  sy_Status : ClusterSyncStatus
}.
Definition with_sy_Finalizers (l : list string) (cr : ClusterSyncCR) : ClusterSyncCR :=
  {| sy_Name := sy_Name cr; sy_Namespace := sy_Namespace cr; sy_UID := sy_UID cr; sy_Generation := sy_Generation cr;
     sy_Finalizers := l; sy_Deleting := sy_Deleting cr; sy_Spec := sy_Spec cr; sy_Status := sy_Status cr |}.
Definition with_sy_Status (s : ClusterSyncStatus) (cr : ClusterSyncCR) : ClusterSyncCR :=
  {| sy_Name := sy_Name cr; sy_Namespace := sy_Namespace cr; sy_UID := sy_UID cr; sy_Generation := sy_Generation cr;
     sy_Finalizers := sy_Finalizers cr; sy_Deleting := sy_Deleting cr; sy_Spec := sy_Spec cr; sy_Status := s |}.

(** ** Assignments to single fields of a status *)
Definition put_Mode (v : ClusterSyncMode) (s : ClusterSyncStatus) : ClusterSyncStatus :=
  {| sst_Mode := v; sst_State := sst_State s; sst_LagTimeSeconds := sst_LagTimeSeconds s; sst_Error := sst_Error s;
     sst_Size := sst_Size s; sst_ReadyReplicas := sst_ReadyReplicas s; sst_ActiveInstance := sst_ActiveInstance s;
     sst_StartedAt := sst_StartedAt s; sst_Conditions := sst_Conditions s |}.
Definition put_Error (v : string) (s : ClusterSyncStatus) : ClusterSyncStatus :=
  {| sst_Mode := sst_Mode s; sst_State := sst_State s; sst_LagTimeSeconds := sst_LagTimeSeconds s; sst_Error := v;
     sst_Size := sst_Size s; sst_ReadyReplicas := sst_ReadyReplicas s; sst_ActiveInstance := sst_ActiveInstance s;
     sst_StartedAt := sst_StartedAt s; sst_Conditions := sst_Conditions s |}.
Definition put_Replicas (size ready : Z) (s : ClusterSyncStatus) : ClusterSyncStatus :=
  {| sst_Mode := sst_Mode s; sst_State := sst_State s; sst_LagTimeSeconds := sst_LagTimeSeconds s; sst_Error := sst_Error s;
     sst_Size := size; sst_ReadyReplicas := ready; sst_ActiveInstance := sst_ActiveInstance s;
     sst_StartedAt := sst_StartedAt s; sst_Conditions := sst_Conditions s |}.
Definition put_ActiveInstance (v : string) (s : ClusterSyncStatus) : ClusterSyncStatus :=
  {| sst_Mode := sst_Mode s; sst_State := sst_State s; sst_LagTimeSeconds := sst_LagTimeSeconds s; sst_Error := sst_Error s;
     sst_Size := sst_Size s; sst_ReadyReplicas := sst_ReadyReplicas s; sst_ActiveInstance := v;
     sst_StartedAt := sst_StartedAt s; sst_Conditions := sst_Conditions s |}.
Definition put_Observed (state err : string) (lag : Z) (started : option time) (conds : list SyncCondition)
    (s : ClusterSyncStatus) : ClusterSyncStatus :=
  {| sst_Mode := sst_Mode s; sst_State := state; sst_LagTimeSeconds := lag; sst_Error := err;
     sst_Size := sst_Size s; sst_ReadyReplicas := sst_ReadyReplicas s; sst_ActiveInstance := sst_ActiveInstance s;
     sst_StartedAt := started; sst_Conditions := conds |}.

(** [meta.SetStatusCondition]: the time moves only when the status does. *)
Definition SetSyncCondition (now : time) (ty status reason message : string) (generation : Z) (l : list SyncCondition)
    : list SyncCondition :=
  let new t := {| syc_Condition := {| cd_Type := ty; cd_Status := status; cd_Reason := reason; cd_Message := message;
                                      cd_LastTransitionTime := t |};
                  syc_ObservedGeneration := generation |} in
  match list_find (λ c, cd_Type (syc_Condition c) = ty) l with
  | None => l ++ [new now]
  | Some (i, old) =>
      <[i := new (if bool_decide (cd_Status (syc_Condition old) = status)
                  then cd_LastTransitionTime (syc_Condition old) else now)]> l
  end.

(** * The target cluster, as far as a synchronisation looks at it *)
Record SyncTarget := {
  tg_rc :> RestoreCluster;
  tg_MongosConfiguration : string;                  (* Sharding.Mongos *)
  tg_MongosPort : Z
}.
Definition mongos_GetPort `{Yaml} (conf : string) (port : Z) : Z :=
  match conf_GetPort conf with
  | Ok p => if (0 <? p)%Z then p else if (port =? 0)%Z then DefaultMongoPort else port
  | Err _ => if (port =? 0)%Z then DefaultMongoPort else port
  end.

(** * Names (pkg/naming/clustersync.go, pkg/psmdb/clustersync/deployment.go) *)
Definition ClusterSyncHolderId (cr : ClusterSyncCR) : string := sy_Name cr +:+ "-" +:+ sy_UID cr.
Definition DeploymentName (cr : ClusterSyncCR) : string := sy_Name cr +:+ "-pcsm".
Definition TargetUserSecretName (cr : ClusterSyncCR) : string := sy_Name cr +:+ "-pcsm-target-user".
Definition URISecretName (cr : ClusterSyncCR) : string := sy_Name cr +:+ "-pcsm-secret".
Definition ComponentPCSM : string := "pcsm".
Definition ContainerName : string := "pcsm".
Definition URISecretSourceKey : string := "source-uri".
Definition URISecretTargetKey : string := "target-uri".
Definition sync_Labels (cr : ClusterSyncCR) : gmap string string :=
  <[LabelComponent := ComponentPCSM]> (<[LabelInstance := sy_Name cr]> Labels).
(** The size of objects that were stored before the field existed is 0. *)
Definition Size (cr : ClusterSyncCR) : Z := if (sps_Size (sy_Spec cr) <? 1)%Z then 1 else sps_Size (sy_Spec cr).
Definition GroupName (cr : ClusterSyncCR) : string := sy_Namespace cr +:+ "-" +:+ sy_Name cr.

Record TLS := { tls_SecretName : string; tls_Hash : string }.
Definition tls_Enabled (t : TLS) : bool := negb (bool_decide (tls_SecretName t = "")).
Definition SSLDir : string := "/etc/mongodb-ssl".
Definition TLSPEMFile : string := "/tmp/tls.pem".
Definition TLSCAFile : string := "/etc/mongodb-ssl/ca.crt".

(** * The container (container.go) *)
Record PcsmContainer := {
  pcn_Name : string;
  pcn_Image : string;
  pcn_ImagePullPolicy : string;
  pcn_Command : list string;
  pcn_Args : list string;
  pcn_Port : string * Z;
  pcn_Env : list EnvVar;
  pcn_Resources : ResourceRequirements;
  pcn_SecurityContext : option ContainerSecurity;
  pcn_LivenessProbe : Probe;
  pcn_ReadinessProbe : Probe;
  pcn_VolumeMounts : list VolumeMount
}.
Definition HTTPPortName : string := "pcsm-http".
Definition HTTPPort : Z := 2242.
Definition MetricsPath : string := "/metrics".
Definition StatusPath : string := "/status".
Definition imageEntrypoint : string := "/pcsm-entry.sh".
Definition newline : string := String (Ascii.ascii_of_nat 10) EmptyString.
Definition quote_mark : string := String (Ascii.ascii_of_nat 34) EmptyString.

Definition sync_command (tls : TLS) : list string :=
  if negb (tls_Enabled tls) then []
  else ["/bin/bash"; "-c";
        "cat " +:+ SSLDir +:+ "/tls.key " +:+ SSLDir +:+ "/tls.crt > " +:+ TLSPEMFile +:+ newline +:+
        "exec " +:+ imageEntrypoint +:+ " pcsm " +:+ quote_mark +:+ "$@" +:+ quote_mark; "--"].

Definition readOnlyRootFilesystemEnabled (sc : option ContainerSecurity) : bool :=
  match sc with Some s => default false (csec_ReadOnlyRootFilesystem s) | None => false end.
Definition sslVolumeName : string := "ssl".
Definition tmpVolumeName : string := "tmp".
Definition tmpMountPath : string := "/tmp".
Definition volumeMounts (cr : ClusterSyncCR) (tls : TLS) : list VolumeMount :=
  if negb (tls_Enabled tls) then []
  else {| vm_Name := sslVolumeName; vm_MountPath := SSLDir; vm_ReadOnly := true |} ::
       (if readOnlyRootFilesystemEnabled (sps_ContainerSecurityContext (sy_Spec cr))
        then [{| vm_Name := tmpVolumeName; vm_MountPath := tmpMountPath; vm_ReadOnly := false |}] else []).

Definition ReservedEnv : gset string := {[ "PCSM_SOURCE_URI"; "PCSM_TARGET_URI"; "PCSM_GROUP_NAME" ]}.
Definition uriEnvSource (secretName key : string) : EnvSource := EnvSecret key secretName None.

Definition pcsmArgs (cr : ClusterSyncCR) : list string :=
  let c := sps_PCSMConfig (sy_Spec cr) in
  (if bool_decide (pcf_LogLevel c = "") then [] else ["--log-level=" +:+ pcf_LogLevel c]) ++
  (if default false (pcf_LogJSON c) then ["--log-json"] else []).

(** A probe runs curl in the container. *)
Definition loopbackProbe (path : string) (timeoutSeconds : Z) : list string :=
  let maxTime := if (1 <? timeoutSeconds)%Z then (timeoutSeconds - 1)%Z else timeoutSeconds in
  let connectTimeout := Z.min 1 maxTime in
  ["curl"; "-fsS"; "--connect-timeout"; itoa connectTimeout; "--max-time"; itoa maxTime;
   "http://127.0.0.1:" +:+ itoa HTTPPort +:+ path].
Definition loopback (initialDelay failures : Z) (path : string) : Probe :=
  {| pr_Exec := Some (loopbackProbe path 5); pr_TCPSocket := None; pr_InitialDelaySeconds := initialDelay;
     pr_TimeoutSeconds := 5; pr_PeriodSeconds := 10; pr_SuccessThreshold := 0; pr_FailureThreshold := failures |}.
Definition livenessProbe : string → Probe := loopback 30 5.
Definition readinessProbe : string → Probe := loopback 5 3.

Inductive Affinity :=
| AffinityGiven (text : string)                                              (* the user's *)
| PreferredAntiAffinity (weight : Z) (labels : gmap string string) (topologyKey : string)
| RequiredAntiAffinity (labels : gmap string string) (topologyKey : string).
Inductive PcsmVolume := VolumeOfSecret (name secretName : string) (mode : Z) | VolumeEmptyDir (name : string).

Record PcsmTemplate := {
  ptm_Labels : gmap string string;
  ptm_Annotations : gmap string string;
  ptm_Containers : list PcsmContainer;
  ptm_Volumes : list PcsmVolume;
  ptm_ImagePullSecrets : list string;
  ptm_NodeSelector : gmap string string;
  ptm_Tolerations : list string;
  ptm_Affinity : option Affinity;
  ptm_RuntimeClassName : option string;
  ptm_SecurityContext : option string
}.
Inductive Strategy := Recreate | RollingUpdate (maxUnavailable maxSurge : Z).
Record DeploymentSpec := {
  dsp_Replicas : Z;
  dsp_Strategy : Strategy;
  dsp_Selector : gmap string string;
  dsp_Template : PcsmTemplate
}.
(** A deployment that is not in the API server yet has no specification. *)
Record Deployment := {
  dep_Name : string;
  dep_Namespace : string;
  dep_Labels : gmap string string;
  dep_Annotations : gmap string string;
  dep_Controller : option string;
  dep_ResourceVersion : string;
  dep_Deleting : bool;
  dep_Generation : Z;
  dep_ObservedGeneration : Z;                       (* Status *)
  dep_ReadyReplicas : Z;
  dep_Spec : option DeploymentSpec
}.
Record Budget := {
  bud_Name : string;
  bud_Namespace : string;
  bud_Labels : gmap string string;
  bud_Annotations : gmap string string;
  bud_Controller : option string;
  bud_ResourceVersion : string;
  bud_Deleting : bool;
  bud_MinAvailable : option (Z + string);
  bud_MaxUnavailable : option (Z + string);
  bud_Selector : gmap string string
}.
Record OwnedSecret := { os_secret :> Secret; os_Controller : option string; os_Deleting : bool }.

#[export] Instance deployment_object : K8sObject Deployment := {|
  ob_Name := dep_Name; ob_Namespace := dep_Namespace; ob_Labels := dep_Labels; ob_Annotations := dep_Annotations;
  ob_ResourceVersion := dep_ResourceVersion; ob_Deleting := dep_Deleting; ob_Controller := dep_Controller;
  ob_with_Annotations := λ a d,
    {| dep_Name := dep_Name d; dep_Namespace := dep_Namespace d; dep_Labels := dep_Labels d; dep_Annotations := a;
       dep_Controller := dep_Controller d; dep_ResourceVersion := dep_ResourceVersion d; dep_Deleting := dep_Deleting d;
       dep_Generation := dep_Generation d; dep_ObservedGeneration := dep_ObservedGeneration d;
       dep_ReadyReplicas := dep_ReadyReplicas d; dep_Spec := dep_Spec d |};
  ob_with_ResourceVersion := λ v d,
    {| dep_Name := dep_Name d; dep_Namespace := dep_Namespace d; dep_Labels := dep_Labels d;
       dep_Annotations := dep_Annotations d; dep_Controller := dep_Controller d; dep_ResourceVersion := v;
       dep_Deleting := dep_Deleting d; dep_Generation := dep_Generation d;
       dep_ObservedGeneration := dep_ObservedGeneration d; dep_ReadyReplicas := dep_ReadyReplicas d; dep_Spec := dep_Spec d |};
  ob_with_Controller := λ c d,
    {| dep_Name := dep_Name d; dep_Namespace := dep_Namespace d; dep_Labels := dep_Labels d;
       dep_Annotations := dep_Annotations d; dep_Controller := c; dep_ResourceVersion := dep_ResourceVersion d;
       dep_Deleting := dep_Deleting d; dep_Generation := dep_Generation d;
       dep_ObservedGeneration := dep_ObservedGeneration d; dep_ReadyReplicas := dep_ReadyReplicas d; dep_Spec := dep_Spec d |}
|}.
Definition set_deployment (labels : gmap string string) (spec : DeploymentSpec) (d : Deployment) : Deployment :=
  {| dep_Name := dep_Name d; dep_Namespace := dep_Namespace d; dep_Labels := labels; dep_Annotations := dep_Annotations d;
     dep_Controller := dep_Controller d; dep_ResourceVersion := dep_ResourceVersion d; dep_Deleting := dep_Deleting d;
     dep_Generation := dep_Generation d; dep_ObservedGeneration := dep_ObservedGeneration d;
     dep_ReadyReplicas := dep_ReadyReplicas d; dep_Spec := Some spec |}.
#[export] Instance budget_object : K8sObject Budget := {|
  ob_Name := bud_Name; ob_Namespace := bud_Namespace; ob_Labels := bud_Labels; ob_Annotations := bud_Annotations;
  ob_ResourceVersion := bud_ResourceVersion; ob_Deleting := bud_Deleting; ob_Controller := bud_Controller;
  ob_with_Annotations := λ a b,
    {| bud_Name := bud_Name b; bud_Namespace := bud_Namespace b; bud_Labels := bud_Labels b; bud_Annotations := a;
       bud_Controller := bud_Controller b; bud_ResourceVersion := bud_ResourceVersion b; bud_Deleting := bud_Deleting b;
       bud_MinAvailable := bud_MinAvailable b; bud_MaxUnavailable := bud_MaxUnavailable b; bud_Selector := bud_Selector b |};
  ob_with_ResourceVersion := λ v b,
    {| bud_Name := bud_Name b; bud_Namespace := bud_Namespace b; bud_Labels := bud_Labels b;
       bud_Annotations := bud_Annotations b; bud_Controller := bud_Controller b; bud_ResourceVersion := v;
       bud_Deleting := bud_Deleting b; bud_MinAvailable := bud_MinAvailable b; bud_MaxUnavailable := bud_MaxUnavailable b;
       bud_Selector := bud_Selector b |};
  ob_with_Controller := λ c b,
    {| bud_Name := bud_Name b; bud_Namespace := bud_Namespace b; bud_Labels := bud_Labels b;
       bud_Annotations := bud_Annotations b; bud_Controller := c; bud_ResourceVersion := bud_ResourceVersion b;
       bud_Deleting := bud_Deleting b; bud_MinAvailable := bud_MinAvailable b; bud_MaxUnavailable := bud_MaxUnavailable b;
       bud_Selector := bud_Selector b |}
|}.
#[export] Instance secret_object : K8sObject OwnedSecret := {|
  ob_Name := λ s : OwnedSecret, secret_Name s; ob_Namespace := λ s, secret_Namespace s;
  ob_Labels := λ s, secret_Labels s; ob_Annotations := λ s, secret_Annotations s;
  ob_ResourceVersion := λ s, secret_ResourceVersion s; ob_Deleting := os_Deleting; ob_Controller := os_Controller;
  ob_with_Annotations := λ a s,
    {| os_secret := with_secret_meta a (secret_ResourceVersion s) s; os_Controller := os_Controller s; os_Deleting := os_Deleting s |};
  ob_with_ResourceVersion := λ v s,
    {| os_secret := with_secret_meta (secret_Annotations s) v s; os_Controller := os_Controller s; os_Deleting := os_Deleting s |};
  ob_with_Controller := λ c s, {| os_secret := os_secret s; os_Controller := c; os_Deleting := os_Deleting s |}
|}.

Section builders.
Context {V : Versions}.
Implicit Types (cr : ClusterSyncCR) (cluster : option RestoreCluster) (tls : TLS).

(** [cluster != nil && cluster.CompareVersion("1.24.0") >= 0] *)
Definition since_1_24 cluster : bool :=
  match cluster with Some c => (0 <=? CompareVersion c "1.24.0")%Z | None => false end.
Definition groupNameEnabled cr cluster : bool := if (1 <? Size cr)%Z then true else since_1_24 cluster.
Definition pcsmEnv cr cluster : list EnvVar :=
  [{| env_Name := "PCSM_SOURCE_URI"; env_Source := uriEnvSource (URISecretName cr) URISecretSourceKey |};
   {| env_Name := "PCSM_TARGET_URI"; env_Source := uriEnvSource (URISecretName cr) URISecretTargetKey |}] ++
  (if groupNameEnabled cr cluster then [env "PCSM_GROUP_NAME" (GroupName cr)] else []) ++
  filter (λ e, env_Name e ∉ ReservedEnv) (sps_Env (sy_Spec cr)).

Definition probePath cluster : string := if since_1_24 cluster then MetricsPath else StatusPath.
Definition probeOrDefault cluster (override : option Probe) (def : string → Probe) : Probe :=
  match override with Some p => p | None => def (probePath cluster) end.

Definition PcsmContainer_of cr cluster tls : PcsmContainer :=
  let s := sy_Spec cr in
  {| pcn_Name := ContainerName; pcn_Image := sps_Image s; pcn_ImagePullPolicy := sps_ImagePullPolicy s;
     pcn_Command := sync_command tls; pcn_Args := pcsmArgs cr; pcn_Port := (HTTPPortName, HTTPPort);
     pcn_Env := pcsmEnv cr cluster; pcn_Resources := sps_Resources s;
     pcn_SecurityContext := sps_ContainerSecurityContext s;
     pcn_LivenessProbe := probeOrDefault cluster (sps_LivenessProbe s) livenessProbe;
     pcn_ReadinessProbe := probeOrDefault cluster (sps_ReadinessProbe s) readinessProbe;
     pcn_VolumeMounts := volumeMounts cr tls |}.

(** * The deployment (deployment.go) *)
Definition secretFileMode : Z := 292.
Definition sync_volumes cr tls : list PcsmVolume :=
  if negb (tls_Enabled tls) then []
  else VolumeOfSecret sslVolumeName (tls_SecretName tls) secretFileMode ::
       (if readOnlyRootFilesystemEnabled (sps_ContainerSecurityContext (sy_Spec cr)) then [VolumeEmptyDir tmpVolumeName] else []).

Definition AffinityOff : string := "none".
Definition defaultTopologyKey : string := "kubernetes.io/hostname".
Definition podAffinity cluster (af : option PodAffinity) (labels : gmap string string) : option Affinity :=
  match af with
  | None => if since_1_24 cluster then Some (PreferredAntiAffinity 100 labels defaultTopologyKey) else None
  | Some af =>
      match pa_Advanced af, pa_TopologyKey af with
      | Some a, _ => Some (AffinityGiven a)
      | None, Some key => if bool_decide (key = AffinityOff) then None else Some (RequiredAntiAffinity labels key)
      | None, None => None
      end
  end.

Definition PodTemplateSpec_of cr cluster tls : PcsmTemplate :=
  let s := sy_Spec cr in
  {| ptm_Labels := sync_Labels cr ∪ sps_Labels s;
     ptm_Annotations := if tls_Enabled tls then <[AnnotationSSLHash := tls_Hash tls]> (sps_Annotations s) else sps_Annotations s;
     ptm_Containers := [PcsmContainer_of cr cluster tls];
     ptm_Volumes := sync_volumes cr tls;
     ptm_ImagePullSecrets := sps_ImagePullSecrets s;
     ptm_NodeSelector := sps_NodeSelector s;
     ptm_Tolerations := sps_Tolerations s;
     ptm_Affinity := podAffinity cluster (sps_Affinity s) (sync_Labels cr);
     ptm_RuntimeClassName := sps_RuntimeClassName s;
     ptm_SecurityContext := sps_PodSecurityContext s |}.

Definition deploymentStrategy (size : Z) : Strategy := if (size <? 2)%Z then Recreate else RollingUpdate 1 0.
Definition DeploymentSpec_of cr (template : PcsmTemplate) : DeploymentSpec :=
  {| dsp_Replicas := Size cr; dsp_Strategy := deploymentStrategy (Size cr); dsp_Selector := sync_Labels cr;
     dsp_Template := template |}.
Definition Deployment_of cr : Deployment :=
  {| dep_Name := DeploymentName cr; dep_Namespace := sy_Namespace cr; dep_Labels := sync_Labels cr; dep_Annotations := ∅;
     dep_Controller := None; dep_ResourceVersion := ""; dep_Deleting := false; dep_Generation := 0;
     dep_ObservedGeneration := 0; dep_ReadyReplicas := 0; dep_Spec := None |}.

(** * The disruption budget (pdb.go) *)
Definition PodDisruptionBudget_of cr : option Budget :=
  if (Size cr <? 2)%Z then None
  else
    let spec := default {| pdb_MinAvailable := None; pdb_MaxUnavailable := Some (inl 1%Z) |}
                  (sps_PodDisruptionBudget (sy_Spec cr)) in
    Some {| bud_Name := DeploymentName cr; bud_Namespace := sy_Namespace cr; bud_Labels := sync_Labels cr;
            bud_Annotations := ∅; bud_Controller := None; bud_ResourceVersion := ""; bud_Deleting := false;
            bud_MinAvailable := pdb_MinAvailable spec; bud_MaxUnavailable := pdb_MaxUnavailable spec;
            bud_Selector := sync_Labels cr |}.

(** ** What the builders keep *)

(** The size changes the number of replicas and their strategy, but not the
    pods, on a cluster since 1.24.0 or above one pod: scaling restarts nobody. *)
Definition resized (n : Z) cr : ClusterSyncCR :=
  let s := sy_Spec cr in
  {| sy_Name := sy_Name cr; sy_Namespace := sy_Namespace cr; sy_UID := sy_UID cr; sy_Generation := sy_Generation cr;
     sy_Finalizers := sy_Finalizers cr; sy_Deleting := sy_Deleting cr;
     sy_Spec :=
       {| sps_ClusterName := sps_ClusterName s; sps_Image := sps_Image s; sps_Size := n;
          sps_ImagePullPolicy := sps_ImagePullPolicy s; sps_ImagePullSecrets := sps_ImagePullSecrets s;
          sps_Resources := sps_Resources s; sps_NodeSelector := sps_NodeSelector s; sps_Tolerations := sps_Tolerations s;
          sps_Affinity := sps_Affinity s; sps_Annotations := sps_Annotations s; sps_Labels := sps_Labels s;
          sps_RuntimeClassName := sps_RuntimeClassName s; sps_ContainerSecurityContext := sps_ContainerSecurityContext s;
          sps_PodSecurityContext := sps_PodSecurityContext s; sps_LivenessProbe := sps_LivenessProbe s;
          sps_ReadinessProbe := sps_ReadinessProbe s; sps_PodDisruptionBudget := sps_PodDisruptionBudget s;
          sps_Source := sps_Source s; sps_ExcludeNamespaces := sps_ExcludeNamespaces s; sps_Mode := sps_Mode s;
          sps_PCSMConfig := sps_PCSMConfig s; sps_Env := sps_Env s |};
     sy_Status := sy_Status cr |}.
Lemma scaling_keeps_pods n cr cluster tls :
  since_1_24 cluster = true ∨ (1 < n ∧ 1 < Size cr)%Z →
  PodTemplateSpec_of (resized n cr) cluster tls = PodTemplateSpec_of cr cluster tls.
Proof.
  intros H. unfold PodTemplateSpec_of, PcsmContainer_of. cbn [resized sy_Spec]. do 2 f_equal.
  unfold pcsmEnv. do 3 f_equal. unfold groupNameEnabled. destruct H as [->|[Hn Hs]]; [by repeat case_match|].
  rewrite (proj2 (Z.ltb_lt 1 (Size cr))) by done. rewrite (proj2 (Z.ltb_lt 1 _)); [done|].
  unfold Size. cbn. case_match eqn:E; [|done]. apply Z.ltb_lt in E. lia.
Qed.

(** The names that belong to the operator have one value each, the operator's. *)
Lemma reserved_env_kept cr cluster e :
  e ∈ pcsmEnv cr cluster → env_Name e ∈ ReservedEnv →
  e = {| env_Name := "PCSM_SOURCE_URI"; env_Source := uriEnvSource (URISecretName cr) URISecretSourceKey |} ∨
  e = {| env_Name := "PCSM_TARGET_URI"; env_Source := uriEnvSource (URISecretName cr) URISecretTargetKey |} ∨
  e = env "PCSM_GROUP_NAME" (GroupName cr).
Proof.
  unfold pcsmEnv. rewrite !elem_of_app, !elem_of_cons, elem_of_nil, list_elem_of_filter.
  intros [[->|[->|[]]]|[H|[H _]]] He; [by left|by right; left| |done].
  case_match; [|by apply elem_of_nil in H]. apply list_elem_of_singleton in H as ->. by right; right.
Qed.

(** The pods of a deployment bear the labels it selects them by, whatever labels
    the user gives. *)
Lemma selector_matches cr cluster tls k v :
  dsp_Selector (DeploymentSpec_of cr (PodTemplateSpec_of cr cluster tls)) !! k = Some v →
  ptm_Labels (PodTemplateSpec_of cr cluster tls) !! k = Some v.
Proof. cbn. intros H. by apply lookup_union_Some_l. Qed.
End builders.

(** * A synchronisation of the given mode and size, and its target, for concrete runs *)
Definition a_sync (mode status : ClusterSyncMode) (size : Z) : ClusterSyncCR :=
  {| sy_Name := "s"; sy_Namespace := "ns"; sy_UID := "1"; sy_Generation := 1; sy_Finalizers := []; sy_Deleting := false;
     sy_Spec :=
       {| sps_ClusterName := "c"; sps_Image := "pcsm"; sps_Size := size; sps_ImagePullPolicy := ""; sps_ImagePullSecrets := [];
          sps_Resources := noResources; sps_NodeSelector := ∅; sps_Tolerations := []; sps_Affinity := None;
          sps_Annotations := ∅; sps_Labels := ∅; sps_RuntimeClassName := None; sps_ContainerSecurityContext := None;
          sps_PodSecurityContext := None; sps_LivenessProbe := None; sps_ReadinessProbe := None;
          sps_PodDisruptionBudget := None;
          sps_Source := {| so_URI := "mongodb://source:27017"; so_CredentialsSecret := "source" |};
          sps_ExcludeNamespaces := ["db.tmp"]; sps_Mode := mode;
          sps_PCSMConfig := {| pcf_LogLevel := ""; pcf_LogJSON := None |}; sps_Env := [] |};
     sy_Status :=
       {| sst_Mode := status; sst_State := ""; sst_LagTimeSeconds := 0; sst_Error := ""; sst_Size := size;
          sst_ReadyReplicas := 0; sst_ActiveInstance := ""; sst_StartedAt := None; sst_Conditions := [] |} |}.
Definition a_target : SyncTarget :=
  let c := a_cluster [a_replset "rs0" 3] in
  let r := a_restore_cluster [] in
  {| tg_rc :=
       {| rc_bc :=
            {| bc_cr :=
                 {| cr_Name := cr_Name c; cr_Namespace := cr_Namespace c; cr_UID := cr_UID c; cr_Generation := 1;
                    cr_Annotations := ∅; cr_CRVersion := "1.24.0"; cr_Unmanaged := false; cr_UnsafeReplsetSize := false;
                    cr_ShardingEnabled := false; cr_MongosSize := 0; cr_MongosServicePerPod := false;
                    cr_MongosExposeType := ""; cr_ConfigsvrReplSet := None; cr_Replsets := cr_Replsets c;
                    cr_DNSMode := DNSModeInternal; cr_DNSSuffix := ""; cr_MCSEnabled := false; cr_MCSDNSSuffix := "";
                    cr_TLSMode := Some TLSModeDisabled; cr_DefaultRWConcern := None; cr_SecretsUsers := "users";
                    cr_SearchEnabled := false |};
               bc_Backup := bc_Backup r; bc_Status := bc_Status r; bc_Pause := false; bc_SecretsSSE := "";
               bc_UnsafeConf := false; bc_BackupIfUnhealthy := false |};
          rc_ImagePullPolicy := ""; rc_InitSecurityContext := None; rc_BackupVolumeMounts := []; rc_SecretsSSL := "ssl";
          rc_SecretsSSLPBM := ""; rc_AllowInvalidCertificates := None; rc_Engines := ∅; rc_CABundles := ∅ |};
     tg_MongosConfiguration := ""; tg_MongosPort := 0 |}.
