(* ===== verification/SyncClient.v ===== *)
(** The client of PCSM (pkg/psmdb/clustersync/client): a command is run in a pod
    of the group with [exec]; only the active instance of the group obeys, the
    others refuse.

    A command that changes something must not be run twice: [run] goes on to the
    next pod only when a pod refused the command or, for a command that only
    reads, did not answer.  The client remembers the pod that answered last:
    a memory beside the world. *)
From S2P Require Import Prelude Defaults.
From S2P Require Import ReplsetModels Api Kube Hosts GoSort BackupApi BackupExec Shell PhysicalRestore Apply SyncApi.

Definition pcsmBinary : string := "pcsm".
Record PcsmStatus := {
  ps_State : string;
  ps_Info : string;
  ps_Error : string;
  ps_Role : string;
  ps_LagTimeSeconds : Z
}.
Record StartOptions := { so_IncludeNamespaces : list string; so_ExcludeNamespaces : list string }.

Definition ErrPCSMNotReady : error := ENew "no ready PCSM pod".
Definition ErrNoActivePCSM : error := ENew "no active PCSM instance".
Definition notActiveCode : string := "not_active".

(** encoding/json of PCSM's answers, into the three structures that are asked for:
    a status; an error; a state and an error *)
Class PcsmCodec := {
  json_pcsm_status : string → result PcsmStatus;
  json_pcsm_error : string → result string;
  json_pcsm_answer : string → result (string * string)
}.
(** [clientcmd.Exec] in the container of PCSM: what was written to the output and
    to the errors, and the error it ended with. *)
Class PcsmExec (W : Type) := pcsm_exec : Pod → list string → GoM W (string * string * option error).

Definition trimOutput (s : string) : string :=
  if (String.length s <=? 512)%nat then s else String.substring 0 512 s +:+ "...(truncated)".

Section client.
Context {W : Type} {K : K8sClient W} {X : PcsmExec W} {J : PcsmCodec} {G : GoSort}.
Abbreviation M := (GoM W).
Abbreviation B := (GoM (string * W)).
Implicit Types (cr : ClusterSyncCR).

(** A standby refused the command. *)
Definition notActive (stdout stderr : string) : bool :=
  match json_pcsm_error stdout with
  | Ok e => bool_decide (e = notActiveCode)
  | Err _ => str_contains notActiveCode stderr || str_contains notActiveCode stdout
  end.
(** PCSM replied. *)
Definition answered (stdout : string) : bool :=
  match json_pcsm_answer stdout with
  | Ok (state, e) => negb (bool_decide (state = "")) || negb (bool_decide (e = ""))
  | Err _ => false
  end.

Definition ready_pcsm (p : Pod) : bool :=
  negb (pod_Deleting p)
  && existsb (λ c, bool_decide (cs_Name c = ContainerName) && cs_Ready c) (pod_ContainerStatuses p).
(** The comparison is negative: the pod that was active first, then by name. *)
Definition pod_before (active : string) (a b : Pod) : bool :=
  if bool_decide (active = pod_Name a) then true
  else if bool_decide (active = pod_Name b) then false
  else String.ltb (pod_Name a) (pod_Name b).
Definition readyPods cr (active : string) : M (list Pod) :=
  pods ← wrapM "list pcsm pods"
    (k8s_list_pods (sy_Namespace cr)
       (SelectorFromSet {[ LabelInstance := sy_Name cr; LabelComponent := ComponentPCSM ]}));
  match filter (λ p, ready_pcsm p = true) pods with
  | [] => throw ErrPCSMNotReady
  | ready => mret (sort_slice (pod_before active) ready)
  end.

(** The loop of [run] over the pods: the output of the command, and its error;
    [transport] is the first error of a pod that did not answer. *)
Fixpoint run_pods (readOnly : bool) (args : list string) (transport : option error) (pods : list Pod)
    : B (string * option error) :=
  match pods with
  | [] => mret ("", Some (default ErrNoActivePCSM transport))
  | pod :: pods' =>
      r ← on_world (pcsm_exec pod (pcsmBinary :: args));
      let '(stdout, stderr, execErr) := r in
      match execErr with
      | None => mod_mem (λ _, pod_Name pod);; mret (stdout, None)
      | Some e =>
          if notActive stdout stderr then run_pods readOnly args transport pods'
          else
            let err := EWrap e ("exec pcsm " +:+ join " " args +:+ " on " +:+ pod_Name pod +:+ ": " +:+ trimOutput stderr) in
            if negb (answered stdout) then
              if readOnly then run_pods readOnly args (Some (default err transport)) pods'
              else mret (stdout, Some err)
            else mod_mem (λ _, pod_Name pod);; mret (stdout, Some err)
      end
  end.
Definition run cr (readOnly : bool) (args : list string) : B (string * option error) :=
  active ← get_mem;
  pods ← on_world (catchM (readyPods cr active));
  match pods with
  | Err e => mret ("", Some e)
  | Ok pods => run_pods readOnly args None pods
  end.

(** The status is read off the output even when the command failed. *)
Definition pcsm_Status cr : B PcsmStatus :=
  r ← run cr true ["status"];
  let '(raw, runErr) := r in
  match json_pcsm_status raw with
  | Err decodeErr =>
      match runErr with
      | Some e => throw e
      | None => throw (EWrap decodeErr ("decode pcsm status output: " +:+ raw))
      end
  | Ok s =>
      match runErr with
      | Some e => if bool_decide (ps_State s = "") then throw e else mret s
      | None => mret s
      end
  end.

(** The commands that change something *)
Definition run_command cr (args : list string) : B unit :=
  r ← run cr false args;
  match r.2 with Some e => throw e | None => mret tt end.
Definition start_args (opts : StartOptions) : list string :=
  ["start"] ++
  (match so_IncludeNamespaces opts with [] => [] | l => ["--include-namespaces=" +:+ join "," l] end) ++
  (match so_ExcludeNamespaces opts with [] => [] | l => ["--exclude-namespaces=" +:+ join "," l] end).
Definition pcsm_Start cr (opts : StartOptions) : B unit := run_command cr (start_args opts).
Definition pcsm_Pause cr : B unit := run_command cr ["pause"].
Definition pcsm_Resume cr (fromFailure : bool) : B unit :=
  run_command cr (["resume"] ++ if fromFailure then ["--from-failure"] else []).
Definition pcsm_Finalize cr : B unit := run_command cr ["finalize"].
Definition ActiveInstance : B string := get_mem.
End client.
