(* ===== verification/Uri.v ===== *)
(** net/url, as far as connection strings are built with it: escaping, a query of
    parameters, and the text of a URL that has a user. *)
From S2P Require Import Prelude GoSort Shell.
From Stdlib Require Import Ascii String.

(** * Escaping *)
Inductive encoding := encodeUserPassword | encodeHost | encodeQueryComponent.
#[export] Instance encoding_eq_dec : EqDecision encoding.
Proof. solve_decision. Defined.

Definition in_range (lo hi : nat) (a : ascii) : bool := (lo <=? nat_of_ascii a)%nat && (nat_of_ascii a <=? hi)%nat.
Definition alphanumeric (a : ascii) : bool := in_range 48 57 a || in_range 65 90 a || in_range 97 122 a.
Definition one_of (s : string) (a : ascii) : bool := bool_decide (a ∈ list_ascii_of_string s).
Definition quote_char : ascii := ascii_of_nat 34.
Definition shouldEscape (c : ascii) (mode : encoding) : bool :=
  if alphanumeric c then false
  else if bool_decide (mode = encodeHost) && (one_of "!$&'()*+,;=:[]<>" c || bool_decide (c = quote_char)) then false
  else if one_of "-_.~" c then false
  else if one_of "$&+,/:;=?@" c then
    match mode with
    | encodeUserPassword => one_of "@/?:" c
    | encodeQueryComponent | encodeHost => true
    end
  else true.

Definition upperhex (n : nat) : ascii := ascii_of_nat (if (n <? 10)%nat then 48 + n else 55 + n).
Definition escape_char (mode : encoding) (c : ascii) : string :=
  if negb (shouldEscape c mode) then String c EmptyString
  else if bool_decide (c = " "%char) && bool_decide (mode = encodeQueryComponent) then "+"
  else String "%" (String (upperhex (nat_of_ascii c / 16)) (String (upperhex (nat_of_ascii c mod 16)) EmptyString)).
Fixpoint escape (mode : encoding) (s : string) : string :=
  match s with
  | EmptyString => EmptyString
  | String c s' => escape_char mode c +:+ escape mode s'
  end.

(** * Queries: [url.Values] with a value each, and [Encode] *)
Section query.
Context {G : GoSort}.
Definition Encode (q : gmap string string) : string :=
  join "&" (map (λ k, escape encodeQueryComponent k +:+ "=" +:+ escape encodeQueryComponent (default "" (q !! k)))
              (sort_slice String.ltb (map fst (map_to_list q)))).
End query.

(** * A URL, with or without a user and a password

    What is escaped already is kept as it is: [EscapedPath] is what the method of
    the name returns; the path is empty if that is. *)
Record URL := {
  u_Scheme : string;
  u_Opaque : string;
  u_User : option (string * string);
  u_Host : string;
  u_EscapedPath : string;
  u_ForceQuery : bool;
  u_RawQuery : string;
  u_EscapedFragment : string
}.
Definition with_user (user : string * string) (u : URL) : URL :=
  {| u_Scheme := u_Scheme u; u_Opaque := u_Opaque u; u_User := Some user; u_Host := u_Host u;
     u_EscapedPath := u_EscapedPath u; u_ForceQuery := u_ForceQuery u; u_RawQuery := u_RawQuery u;
     u_EscapedFragment := u_EscapedFragment u |}.
Definition with_path (path : string) (u : URL) : URL :=
  {| u_Scheme := u_Scheme u; u_Opaque := u_Opaque u; u_User := u_User u; u_Host := u_Host u;
     u_EscapedPath := path; u_ForceQuery := u_ForceQuery u; u_RawQuery := u_RawQuery u;
     u_EscapedFragment := u_EscapedFragment u |}.
Definition userinfo (user : string * string) : string :=
  escape encodeUserPassword user.1 +:+ ":" +:+ escape encodeUserPassword user.2.
(** [String], of a URL that has a scheme *)
Definition URL_String (u : URL) : string :=
  (if bool_decide (u_Scheme u = "") then "" else u_Scheme u +:+ ":") +:+
  (if negb (bool_decide (u_Opaque u = "")) then u_Opaque u
   else (match u_User u with
         | Some user => "//" +:+ userinfo user +:+ "@"
         | None => if negb (bool_decide (u_Host u = "")) || negb (bool_decide (u_EscapedPath u = "")) then "//" else ""
         end) +:+ escape encodeHost (u_Host u) +:+
        (if negb (bool_decide (u_EscapedPath u = "")) && negb (has_prefix "/" (u_EscapedPath u))
            && negb (bool_decide (u_Host u = "")) then "/" else "") +:+ u_EscapedPath u) +:+
  (if u_ForceQuery u || negb (bool_decide (u_RawQuery u = "")) then "?" +:+ u_RawQuery u else "") +:+
  (if bool_decide (u_EscapedFragment u = "") then "" else "#" +:+ u_EscapedFragment u).
(** [url.Parse] reads a text into a URL. *)
Class UrlParser := url_Parse : string → result URL.
