(* ===== verification/Sync.v ===== *)
(** The controller of PerconaServerMongoDBClusterSync resources
    (pkg/controller/perconaservermongodbclustersync): [Reconcile], the lease by
    which a synchronisation announces itself to backups and restores, the user and
    the connection strings PCSM works with (target_user.go, uri.go), and the
    transitions between the modes of a synchronisation (mode.go).

    An error of [Reconcile] is the error of the monad; its result is then empty. *)
From S2P Require Import Prelude Defaults.
From S2P Require Import ReplsetModels MongoClient Api Kube Hosts GoSort SystemUsers Shell BackupApi Lease BackupExec PbmConfig.
From S2P Require Import BackupController SmartUpdate RestoreLogical PhysicalRestore Apply SyncApi SyncClient Uri.
From Stdlib Require Import Ascii.

(** * Transitions (mode.go) *)
Inductive modeAction := actionNone | actionStart | actionResume | actionPause | actionFinalize.
#[export] Instance modeAction_eq_dec : EqDecision modeAction.
Proof. solve_decision. Defined.
Definition action_string (a : modeAction) : string :=
  match a with
  | actionNone => ""
  | actionStart => "start"
  | actionResume => "resume"
  | actionPause => "pause"
  | actionFinalize => "finalize"
  end.

(** What is asked for is so already. *)
Definition skipAction (action : modeAction) (state : ClusterSyncState) : bool :=
  match action with
  | actionStart | actionResume => bool_decide (state = ClusterSyncStateRunning)
  | actionPause => bool_decide (state = ClusterSyncStatePaused)
  | actionFinalize => bool_decide (state = ClusterSyncStateFinalizing) || bool_decide (state = ClusterSyncStateFinalized)
  | actionNone => false
  end.

(** The action, and whether the mode of the status follows that of the
    specification. *)
Definition nextAction (statusMode specMode : ClusterSyncMode) (state : ClusterSyncState) (hasStarted : bool)
    : modeAction * bool :=
  if bool_decide (statusMode = ClusterSyncModeFinalized) then (actionNone, false)
  else if bool_decide (state = ClusterSyncStateFailed) && bool_decide (specMode = ClusterSyncModeRunning) && hasStarted
  then (actionResume, false)
  else if bool_decide (statusMode = specMode) then (actionNone, false)
  else
    let from := if bool_decide (statusMode = "") then ClusterSyncModePaused else statusMode in
    if bool_decide (specMode = ClusterSyncModePaused) then
      (if bool_decide (from = ClusterSyncModeRunning) then (actionPause, true) else (actionNone, true))
    else if bool_decide (specMode = ClusterSyncModeRunning) then
      (if bool_decide (from = ClusterSyncModePaused) then (if hasStarted then actionResume else actionStart, true)
       else (actionNone, false))
    else if bool_decide (specMode = ClusterSyncModeFinalized) then
      (if bool_decide (from = ClusterSyncModeRunning) then (actionFinalize, true)
       else if bool_decide (from = ClusterSyncModePaused) && hasStarted then (actionFinalize, true)
       else (actionNone, false))
    else (actionNone, false).
(** PCSM writes to the target after it. *)
Definition writeAction (a : modeAction) : bool := bool_decide (a = actionStart) || bool_decide (a = actionResume).

(** * The outside *)
Class SyncClient (W : Type) := {
  sapi_get : string → string → GoM W ClusterSyncCR;
  sapi_patch_finalizers : ClusterSyncCR → list string → GoM W unit;      (* Patch *)
  sapi_update_status : ClusterSyncCR → GoM W unit;                      (* Status().Update *)
  sapi_get_target : string → string → GoM W SyncTarget;
  sapi_CheckNSetDefaults : SyncTarget → string → result SyncTarget
}.
(** [psmdb.MongosClient] with a user name and a password *)
Class MongosByCredentials (W : Type) :=
  mongos_with_credentials : PerconaServerMongoDB → string → string → GoM W (Client W).
(** math/rand's [Intn] and crypto/rand's [Int]: a number below the bound *)
Class Random (W : Type) := { mrand_Intn : Z → GoM W Z; rand_Int : Z → GoM W Z }.
(** crypto: SHA-256, and HMAC with it from a key and a text, in hexadecimal *)
Class Sha256 := { sha256_hex : string → string; hmac_sha256_hex : string → string → string }.

Definition restoreInFlight (s : RestoreState) : bool :=
  match s with RestoreStateReady | RestoreStateError | RestoreStateRejected => false | _ => true end.
Definition restore_state_string (s : RestoreState) : string :=
  match s with
  | RestoreStateNew => ""
  | RestoreStateWaiting => "waiting"
  | RestoreStateRequested => "requested"
  | RestoreStateRejected => "rejected"
  | RestoreStateRunning => "running"
  | RestoreStateError => "error"
  | RestoreStateReady => "ready"
  end.
Definition quoted (s : string) : string := quote_mark +:+ s +:+ quote_mark.

(** ** Passwords (pkg/psmdb/secret) *)
Definition passwordMaxLen : Z := 20.
Definition passwordMinLen : Z := 16.
Definition passSymbols : string := "ABCDEFGHIJKLMNOPQRSTUVWXYZabcdefghijklmnopqrstuvwxyz0123456789".
Definition symbol (z : Z) : ascii := default "A"%char (String.get (Z.to_nat z) passSymbols).
Section password.
Context {W : Type} {RA : Random W}.
Fixpoint random_symbols (n : nat) : GoM W string :=
  match n with
  | O => mret ""
  | S n' =>
      z ← rand_Int (Z.of_nat (String.length passSymbols));
      s ← random_symbols n';
      mret (String (symbol z) s)
  end.
Definition GeneratePassword : GoM W string :=
  ln ← mrand_Intn (passwordMaxLen - passwordMinLen);
  random_symbols (Z.to_nat (ln + passwordMinLen)).
End password.

(** [fmt.Sprintln(data, b)] of a secret's data: bytes as numbers, keys in order *)
Definition byte_texts (s : string) : list string := map (λ a, itoa (Z.of_nat (nat_of_ascii a))) (String.list_ascii_of_string s).
Definition sprintln_data `{GoSort} (data : gmap string string) (b : bool) : string :=
  "map[" +:+
  join " " (map (λ k, k +:+ ":[" +:+ join " " (byte_texts (default "" (data !! k))) +:+ "]")
              (sort_slice String.ltb (map fst (map_to_list data)))) +:+
  "] " +:+ (if b then "true" else "false") +:+ newline.

(** * Connection strings (uri.go) *)
Section uris.
Context {W : Type} {K : K8sClient W} {V : Versions} {Y : Yaml} {G : GoSort} {U : UrlParser}.
Abbreviation M := (GoM W).
Implicit Types (cr : ClusterSyncCR) (target : SyncTarget).

Definition buildSourceURI cr : M string :=
  let s := sps_Source (sy_Spec cr) in
  secret ← wrapM "get source credentials secret" (k8s_get_secret (sy_Namespace cr) (so_CredentialsSecret s));
  let username := default "" (secret !! "username") in
  let password := default "" (secret !! "password") in
  when (bool_decide (username = "") || bool_decide (password = ""))
    raise ENew "source credentials secret missing username/password keys";
  u ← wrapM "parse source uri" (liftR (url_Parse (so_URI s)));
  let u := with_user (username, password) u in
  mret (URL_String (if bool_decide (u_EscapedPath u = "") then with_path "/" u else u)).

Definition pcsmTLSEnabled target : bool := TLSEnabled target && (0 <=? CompareVersion target "1.24.0")%Z.
Definition allowInvalidCerts target : bool :=
  match cr_TLSMode target with
  | None => DefaultAllowInvalidCertificates
  | Some _ => default DefaultAllowInvalidCertificates (rc_AllowInvalidCertificates target)
  end.

(** The host, and the replica set if there is no mongos *)
Definition target_host target : result (string * string) :=
  let dnsSuffix := if bool_decide (cr_DNSSuffix target = "") then DefaultDNSSuffix else cr_DNSSuffix target in
  if cr_ShardingEnabled target then
    Ok (cr_Name target +:+ "-mongos." +:+ cr_Namespace target +:+ "." +:+ dnsSuffix +:+ ":" +:+
        itoa (mongos_GetPort (tg_MongosConfiguration target) (tg_MongosPort target)), "")
  else match cr_Replsets target with
       | [] => Err (ENew ("target cluster " +:+ cr_Name target +:+ " has no replsets"))
       | rs :: _ =>
           Ok (cr_Name target +:+ "-" +:+ rs_Name rs +:+ "." +:+ cr_Namespace target +:+ "." +:+ dnsSuffix +:+ ":" +:+
               itoa (rs_GetPort rs), rs_Name rs)
       end.
Definition target_query target (rsName : string) : gmap string string :=
  let q := if bool_decide (rsName = "") then ∅ else {[ "replicaSet" := rsName ]} in
  if pcsmTLSEnabled target then
    let q := <["tlsCAFile" := TLSCAFile]> (<["tlsCertificateKeyFile" := TLSPEMFile]> (<["tls" := "true"]> q)) in
    if allowInvalidCerts target then <["tlsInsecure" := "true"]> q else q
  else q.
Definition buildTargetURI target (username password : string) : result string :=
  if bool_decide (username = "") || bool_decide (password = "") then
    Err (ENew "syncTargetUser credentials are empty")
  else
    h ← target_host target;
    Ok (URL_String {| u_Scheme := "mongodb"; u_Opaque := ""; u_User := Some (username, password); u_Host := h.1;
                      u_EscapedPath := "/"; u_ForceQuery := false; u_RawQuery := Encode (target_query target h.2);
                      u_EscapedFragment := "" |}).
End uris.

(** * The user of PCSM on the target (target_user.go) *)
Definition targetUserSecretUsernameKey : string := "username".
Definition targetUserSecretPasswordKey : string := "password".
Definition adminDBName : string := "admin".
Definition targetUserPasswordMACAnnotation : string := "psmdb.percona.com/target-user-password-mac".
Definition targetUserPasswordMACKey : string := "psmdb-target-user-password-annotation-v1".
Definition syncTargetUserRoles : list Role :=
  [admin_role "restore"; admin_role "clusterMonitor"; admin_role "clusterManager"; admin_role "readWriteAnyDatabase"].
(** The order by which lists of roles are sorted before they are compared *)
Definition role_before (a b : Role) : bool :=
  if negb (bool_decide (R_DB a = R_DB b)) then String.ltb (R_DB a) (R_DB b) else String.ltb (R_Role a) (R_Role b).
Definition same_roles `{GoSort} (x y : list Role) : bool :=
  bool_decide (sort_slice role_before x = sort_slice role_before y).
Definition syncTargetUsername (cr : ClusterSyncCR) : string := "clustersync-" +:+ sy_Name cr.
Definition secret_key (key : string) (sec : OwnedSecret) : string := default "" (secret_Data sec !! key).

Section target_user.
Context {W : Type} {K : K8sClient W} {RA : Random W} {SH : Sha256} {G : GoSort}.
Context {C : MongoByCredentials W} {MC : MongosByCredentials W} {OS : ObjectClient W OwnedSecret}.
Abbreviation M := (GoM W).
Implicit Types (cr : ClusterSyncCR) (target : SyncTarget) (sec : OwnedSecret).

Definition passwordAnnotationMAC (data : string) : string := hmac_sha256_hex targetUserPasswordMACKey data.
Definition setPasswordHashAnnotation (password : string) sec : OwnedSecret :=
  ob_with_Annotations (<[targetUserPasswordMACAnnotation := passwordAnnotationMAC password]> (ob_Annotations sec)) sec.

Definition ensureTargetUserSecret cr : M OwnedSecret :=
  got ← catchM (ob_get (sy_Namespace cr) (TargetUserSecretName cr));
  match got with
  | Ok existing =>
      when (bool_decide (secret_key targetUserSecretUsernameKey existing = ""))
        raise ENew "target user secret missing username key";
      when (bool_decide (secret_key targetUserSecretPasswordKey existing = ""))
        raise ENew "target user secret missing password key";
      mret existing
  | Err e =>
      if negb (IsNotFound e) then throw (EWrap e "get target user secret")
      else
        password ← wrapM "generate target user password" GeneratePassword;
        let newSecret :=
          {| os_secret :=
               {| secret_Name := TargetUserSecretName cr; secret_Namespace := sy_Namespace cr;
                  secret_Labels := sync_Labels cr; secret_Annotations := ∅; secret_ResourceVersion := "";
                  secret_Data := {[ targetUserSecretUsernameKey := syncTargetUsername cr;
                                    targetUserSecretPasswordKey := password ]} |};
             os_Controller := None; os_Deleting := false |} in
        newSecret ← wrapM "set owner reference on target user secret"
          (liftR (SetControllerReference (sy_UID cr) newSecret));
        wrapM "create target user secret" (ob_create newSecret);;
        mret newSecret
  end.

(** Whether the secret has changed, and what it has become *)
Definition ensureTargetMongoUser {cli : Client W} sec : M (bool * OwnedSecret) :=
  let username := secret_key targetUserSecretUsernameKey sec in
  let password := secret_key targetUserSecretPasswordKey sec in
  existing ← wrapM "look up target user" (cGetUserInfo username adminDBName);
  match existing with
  | None =>
      wrapM "create target user" (cCreateUser adminDBName username password syncTargetUserRoles);;
      mret (true, setPasswordHashAnnotation password sec)
  | Some existing =>
      m ← (if bool_decide (default "" (ob_Annotations sec !! targetUserPasswordMACAnnotation) = passwordAnnotationMAC password)
           then mret (false, sec)
           else
             wrapM "sync target user password" (cUpdateUserPass adminDBName username password);;
             mret (true, setPasswordHashAnnotation password sec));
      (if same_roles (U_Roles existing) syncTargetUserRoles then mret tt
       else wrapM "sync target user roles" (cUpdateUserRoles adminDBName username syncTargetUserRoles));;
      mret m
  end.

Definition defaultTargetMongoClient target : M (Client W) :=
  when (bool_decide (cr_SecretsUsers target = ""))
    raise ENew ("target cluster " +:+ cr_Name target +:+ " has no users secret configured");
  usersSecret ← wrapM "get target users secret" (k8s_get_secret (cr_Namespace target) (cr_SecretsUsers target));
  let username := default "" (usersSecret !! EnvKeyUsername RoleUserAdmin) in
  let password := default "" (usersSecret !! EnvKeyPassword RoleUserAdmin) in
  when (bool_decide (username = "") || bool_decide (password = ""))
    raise ENew "target users secret missing the keys of the user admin";
  if cr_ShardingEnabled target then mongos_with_credentials target username password
  else match cr_Replsets target with
       | [] => throw (ENew ("target cluster " +:+ cr_Name target +:+ " has no replsets"))
       | rs :: _ => mongo_with_credentials target rs username password
       end.

(** The user name and the password of PCSM *)
Definition ensureSyncTargetUser cr target : M (string * string) :=
  sec ← wrapM "ensure target user secret" (ensureTargetUserSecret cr);
  mc ← wrapM "connect to target cluster" (defaultTargetMongoClient target);
  deferM mongo_disconnect
    (m ← wrapM "ensure target mongo user" (ensureTargetMongoUser (cli := mc) sec);
     let '(mutated, sec) := m : bool * OwnedSecret in
     (if mutated then wrapM "update target user secret annotations" (ob_update sec) else mret tt);;
     mret (secret_key targetUserSecretUsernameKey sec, secret_key targetUserSecretPasswordKey sec)).
End target_user.

(** * The controller *)
Definition requeueInterval : Z := (5 * second)%Z.
Definition requeue : Result := {| RequeueAfter := requeueInterval |}.

Section controller.
Context {W : Type} {SY : SyncClient W} {KB : BackupClient W} {E : BackupEnv W} {L : LeaseClient W} {K : K8sClient W}.
Context {X : PcsmExec W} {C : MongoByCredentials W} {MC : MongosByCredentials W} {RA : Random W}.
Context {OS : ObjectClient W OwnedSecret} {OD : ObjectClient W Deployment} {OB : ObjectClient W Budget}.
Context {HS : ObjectHash OwnedSecret} {HD : ObjectHash Deployment} {HB : ObjectHash Budget}.
Context {J : PcsmCodec} {U : UrlParser} {SH : Sha256} {V : Versions} {O : MapOrder} {G : GoSort} {Y : Yaml} {R : GoRetryOn}.
Abbreviation M := (GoM W).
Abbreviation B := (GoM (string * W)).
Implicit Types (cr : ClusterSyncCR) (target : SyncTarget) (status : ClusterSyncStatus).

(** ** The status *)
Definition sync_writeStatus cr status : M unit :=
  r ← catchM (retry_on DefaultRetry isConflict
    (c ← sapi_get (sy_Namespace cr) (sy_Name cr);
     if bool_decide (sy_Status c = status) then mret tt else sapi_update_status (with_sy_Status status c)));
  match r with
  | Ok _ => mret tt
  | Err e => if IsNotFound e then mret tt else throw (EWrap e "write status")
  end.
Definition requeueWithStatusError cr (cause : error) : M Result :=
  sync_writeStatus cr (put_Error (err_string cause) (sy_Status cr));; mret requeue.
Definition alreadyReported cr (msg : string) : bool :=
  negb (bool_decide (msg = "")) && bool_decide (sst_Error (sy_Status cr) = msg).

(** ** The lease and the finalizer *)
Definition sync_lease cr : string := ClusterSyncLeaseName (sps_ClusterName (sy_Spec cr)).
Definition holder_name (lease : Lease) : string := default "<unknown>" (l_HolderIdentity lease).
(** The holder of the lease, if that is another *)
Definition acquireClusterSyncLease cr : M string :=
  r ← catchM (AcquireLease (sync_lease cr) (sy_Namespace cr) (ClusterSyncHolderId cr) None);
  match r with
  | Err e =>
      if bool_decide (err_cause e = ErrLeaseAlreadyHeld) then
        lease ← GetLease (sync_lease cr) (sy_Namespace cr); mret (holder_name lease)
      else throw e
  | Ok lease =>
      mret (if bool_decide (l_HolderIdentity lease = Some (ClusterSyncHolderId cr)) then "" else holder_name lease)
  end.
Definition releaseClusterSyncLease cr : M unit :=
  r ← catchM (ReleaseLease (sync_lease cr) (sy_Namespace cr) (ClusterSyncHolderId cr));
  match r with
  | Ok _ => mret tt
  | Err e => if IsNotFound e || bool_decide (err_cause e = ErrNotTheHolder) then mret tt else throw e
  end.
Definition sync_ensureReleaseLockFinalizer cr : M ClusterSyncCR :=
  if bool_decide (FinalizerReleaseLock ∈ sy_Finalizers cr) then mret cr
  else
    let finalizers := sy_Finalizers cr ++ [FinalizerReleaseLock] in
    wrapM "patch finalizers" (sapi_patch_finalizers cr finalizers);;
    mret (with_sy_Finalizers finalizers cr).
Definition handleDeletion cr : M Result :=
  if negb (bool_decide (FinalizerReleaseLock ∈ sy_Finalizers cr)) then mret noRequeue
  else
    r ← catchM (releaseClusterSyncLease cr);
    match r with
    | Err _ => mret requeue
    | Ok _ =>
        wrapM "remove release-lock finalizer"
          (sapi_patch_finalizers cr (filter (λ f, f ≠ FinalizerReleaseLock) (sy_Finalizers cr)));;
        mret noRequeue
    end.

(** ** What else works on the target *)
(** The reason to wait, if a backup or a restore is under way *)
Definition clusterBusyByBackupOrRestore cr : M (option string) :=
  let name := sps_ClusterName (sy_Spec cr) in
  active ← wrapM "check backup lease" (IsLeaseActive (BackupLeaseName name) (sy_Namespace cr));
  if active : bool then
    mret (Some ("backup is in progress on cluster " +:+ quoted name +:+ " (lease " +:+ BackupLeaseName name +:+ ")"))
  else
    restores ← wrapM "list restores" (api_list_restores (sy_Namespace cr));
    mret ((λ r, "restore " +:+ quoted (r_Name r) +:+ " is in progress on cluster " +:+ quoted name +:+
                " (state=" +:+ restore_state_string (r_State r) +:+ ")") <$>
          find (λ r, bool_decide (r_ClusterName r = name) && restoreInFlight (r_State r)) restores).

(** ** The objects *)
Definition targetTLS target : M TLS :=
  if negb (pcsmTLSEnabled target) then mret {| tls_SecretName := ""; tls_Hash := "" |}
  else
    data ← wrapM "get target ssl secret" (k8s_get_secret (cr_Namespace target) (rc_SecretsSSL target));
    match find (λ key, bool_decide (default "" (data !! key) = "")) ["ca.crt"; "tls.crt"; "tls.key"] with
    | Some key => throw (ENew ("target ssl secret is missing " +:+ key))
    | None => mret {| tls_SecretName := rc_SecretsSSL target;
                      tls_Hash := sha256_hex (sprintln_data data (allowInvalidCerts target)) |}
    end.
(** [client.IgnoreNotFound] of a read into an object that is made already *)
Definition get_or {A} (a : A) (msg : string) (m : M A) : M A :=
  r ← catchM m;
  match r with
  | Ok a' => mret a'
  | Err e => if IsNotFound e then mret a else throw (EWrap e msg)
  end.
Definition reconcileDeployment cr target tls : M unit :=
  let dep := Deployment_of cr in
  dep ← get_or dep "get clustersync deployment" (ob_get (dep_Namespace dep) (dep_Name dep));
  dep ← wrapM "set owner reference on clustersync deployment" (liftR (SetControllerReference (sy_UID cr) dep));
  let dep := set_deployment (sync_Labels cr) (DeploymentSpec_of cr (PodTemplateSpec_of cr (Some (target : RestoreCluster)) tls)) dep in
  wrapM "apply clustersync deployment" (ApplyObject dep);;
  mret tt.
Definition uri_secret cr (sourceURI targetURI : string) : OwnedSecret :=
  {| os_secret :=
       {| secret_Name := URISecretName cr; secret_Namespace := sy_Namespace cr; secret_Labels := sync_Labels cr;
          secret_Annotations := ∅; secret_ResourceVersion := "";
          secret_Data := {[ URISecretSourceKey := sourceURI; URISecretTargetKey := targetURI ]} |};
     os_Controller := None; os_Deleting := false |}.
Definition reconcileURISecret cr (sourceURI targetURI : string) : M unit :=
  s ← wrapM "set owner reference on clustersync uri secret"
    (liftR (SetControllerReference (sy_UID cr) (uri_secret cr sourceURI targetURI)));
  wrapM "apply clustersync uri secret" (ApplyObject s);;
  mret tt.
(** One instance that is ready is enough to drive PCSM. *)
Definition readyReplicas cr : M Z :=
  r ← catchM (ob_get (sy_Namespace cr) (DeploymentName cr));
  match r with
  | Err e => if IsNotFound e then mret 0%Z else throw e
  | Ok dep => mret (if bool_decide (dep_Generation dep = dep_ObservedGeneration dep) then dep_ReadyReplicas dep else 0%Z)
  end.
(** A budget that the synchronisation does not control is the user's. *)
Definition reconcilePDB cr : M unit :=
  let get : M Budget := ob_get (sy_Namespace cr) (DeploymentName cr) in
  match PodDisruptionBudget_of cr with
  | None =>
      r ← catchM get;
      match r with
      | Err e => if IsNotFound e then mret tt else throw (EWrap e "get clustersync pdb")
      | Ok stale => if negb (IsControlledBy (sy_UID cr) stale) then mret tt else DeleteIfExists stale
      end
  | Some pdb =>
      pdb ← wrapM "set owner reference on clustersync pdb" (liftR (SetControllerReference (sy_UID cr) pdb));
      r ← catchM get;
      match r with
      | Ok existing =>
          if negb (IsControlledBy (sy_UID cr) existing) then mret tt
          else wrapM "apply clustersync pdb" (ApplyIf pdb (Some (IsControlledBy (sy_UID cr))));; mret tt
      | Err e =>
          if IsNotFound e then wrapM "apply clustersync pdb" (ApplyIf pdb (Some (IsControlledBy (sy_UID cr))));; mret tt
          else throw (EWrap e "get clustersync pdb")
      end
  end.

(** ** The modes *)
(** Which pod is active is kept in the status; that it has changed is reported. *)
Definition recordActiveInstance status (active : string) : M ClusterSyncStatus :=
  if bool_decide (active = "") then mret status
  else
    let prev := sst_ActiveInstance status in
    (if negb (bool_decide (prev = "")) && negb (bool_decide (prev = active)) then be_event "PCSMFailover" else mret tt);;
    mret (put_ActiveInstance active status).
Definition isPCSMUnreachable (e : error) : bool :=
  bool_decide (err_cause e = ErrPCSMNotReady) || bool_decide (err_cause e = ErrNoActivePCSM).

Definition running_condition (generation : Z) (state : ClusterSyncState) (now : time) : list SyncCondition → list SyncCondition :=
  if bool_decide (state = ClusterSyncStateRunning)
  then SetSyncCondition now ConditionClusterSyncRunning ConditionTrue "PCSMRunning"
         "PCSM is replicating from source to target" generation
  else SetSyncCondition now ConditionClusterSyncRunning ConditionFalse "PCSMNotRunning" ("PCSM state: " +:+ state) generation.
Definition applyObservedStatus status (observed : PcsmStatus) (generation : Z) : M ClusterSyncStatus :=
  let state := ps_State observed in
  started ← (if is_none (sst_StartedAt status) && bool_decide (state = ClusterSyncStateRunning)
             then now ← go_now; mret (Some now) else mret (sst_StartedAt status));
  now ← go_now;
  let conditions := running_condition generation state now (sst_Conditions status) in
  conditions ← (if bool_decide (state = ClusterSyncStateFinalized) then
                  now ← go_now;
                  mret (SetSyncCondition now ConditionClusterSyncFinalized ConditionTrue "PCSMFinalized"
                          "PCSM finalize complete" generation conditions)
                else mret conditions);
  mret (put_Observed state (ps_Error observed) (ps_LagTimeSeconds observed) started conditions status).

Definition invokeAction (action : modeAction) cr (state : ClusterSyncState) : B unit :=
  match action with
  | actionStart =>
      pcsm_Start cr {| so_IncludeNamespaces := []; so_ExcludeNamespaces := sps_ExcludeNamespaces (sy_Spec cr) |}
  | actionResume => pcsm_Resume cr (bool_decide (state = ClusterSyncStateFailed))
  | actionPause => pcsm_Pause cr
  | actionFinalize => pcsm_Finalize cr
  | actionNone => mret tt
  end.

(** The action goes out, and the status is written. *)
Definition mirrored cr (mirror : bool) status : ClusterSyncStatus :=
  if mirror then put_Mode (sps_Mode (sy_Spec cr)) status else status.
Definition apply_action (action : modeAction) (mirror : bool) cr status : B unit :=
  r ← catchM (invokeAction action cr (sst_State status));
  match r with
  | Err e => on_world (sync_writeStatus cr (put_Error (err_string e) status))
  | Ok _ =>
      active ← ActiveInstance;
      status ← on_world (recordActiveInstance status active);
      on_world (sync_writeStatus cr (mirrored cr mirror status))
  end.
Definition hold cr (reason : string) status : M unit :=
  (if alreadyReported cr reason then mret tt else be_event "ClusterBusy");;
  sync_writeStatus cr (put_Error reason status).
(** The part of [reconcileMode] after the status of PCSM was looked at *)
Definition reconcile_action cr status : B unit :=
  let '(action, mirror) := nextAction (sst_Mode status) (sps_Mode (sy_Spec cr)) (sst_State status)
                             (negb (is_none (sst_StartedAt status))) in
  if bool_decide (action = actionNone) || skipAction action (sst_State status) then
    on_world (sync_writeStatus cr (mirrored cr mirror status))
  else if writeAction action then
    busy ← on_world (wrapM "check cluster busy by backup or restore" (clusterBusyByBackupOrRestore cr));
    match busy with
    | Some reason => on_world (hold cr reason status)
    | None => apply_action action mirror cr status
    end
  else apply_action action mirror cr status.

Definition reconcileMode cr (ready : Z) : B unit :=
  let status := put_Replicas (Size cr) ready (sy_Status cr) in
  observed ← catchM (pcsm_Status cr);
  active ← ActiveInstance;
  status ← on_world (recordActiveInstance status active);
  match observed with
  | Err e =>
      let status := put_Error (err_string e) status in
      if isPCSMUnreachable e then on_world (sync_writeStatus cr status) else reconcile_action cr status
  | Ok observed =>
      status ← on_world (applyObservedStatus status observed (sy_Generation cr));
      reconcile_action cr status
  end.
(** A client that starts with the pod that was active *)
Definition with_client {A} cr (m : B A) : M A := λ w, let '(r, (_, w')) := m (sst_ActiveInstance (sy_Status cr), w) in (r, w').

(** ** The run *)
Definition sync_finalized cr : bool :=
  bool_decide (sps_Mode (sy_Spec cr) = ClusterSyncModeFinalized)
  && bool_decide (sst_State (sy_Status cr) = ClusterSyncStateFinalized).
(** [if err != nil { return r.requeueWithStatusError(wrap(err)) }] *)
Definition or_report {A} cr (msg : string) (m : M A) (k : A → M Result) : M Result :=
  r ← catchM m;
  match r with
  | Ok a => k a
  | Err e => requeueWithStatusError cr (EWrap e msg)
  end.
Definition reconcile_objects cr target sourceURI : M Result :=
  or_report cr "ensure sync target user" (ensureSyncTargetUser cr target) (λ creds : string * string,
  targetURI ← wrapM "build target URI" (liftR (buildTargetURI target creds.1 creds.2));
  wrapM "reconcile uri secret" (reconcileURISecret cr sourceURI targetURI);;
  or_report cr "target tls" (targetTLS target) (λ tls,
  wrapM "reconcile deployment" (reconcileDeployment cr target tls);;
  wrapM "reconcile pod disruption budget" (reconcilePDB cr);;
  ready ← wrapM "check deployment readiness" (readyReplicas cr);
  if bool_decide (ready = 0)%Z then
    sync_writeStatus cr (put_Replicas (Size cr) 0 (sy_Status cr));; mret requeue
  else
    wrapM "reconcile mode" (with_client cr (reconcileMode cr ready));;
    (if sync_finalized cr then wrapM "release clustersync lease after finalize" (releaseClusterSyncLease cr) else mret tt);;
    mret requeue)).
Definition reconcile_held cr target : M Result :=
  platform ← wrapM "fetch server version" be_platform;
  target ← wrapM "apply defaults to target cluster" (liftR (sapi_CheckNSetDefaults target platform));
  got ← catchM (buildSourceURI cr);
  match got with
  | Err e => if IsNotFound e then requeueWithStatusError cr (EWrap e "source credentials secret not found")
             else throw (EWrap e "build source URI")
  | Ok sourceURI => reconcile_objects cr target sourceURI
  end.
Definition Reconcile (namespace name : string) : M Result :=
  got ← catchM (sapi_get namespace name);
  match got with
  | Err e => if IsNotFound e then mret noRequeue else throw e
  | Ok cr =>
      if sy_Deleting cr then handleDeletion cr
      else if sync_finalized cr then
        wrapM "release clustersync lease after finalize" (releaseClusterSyncLease cr);; mret noRequeue
      else
        got ← catchM (sapi_get_target (sy_Namespace cr) (sps_ClusterName (sy_Spec cr)));
        match got with
        | Err e => if IsNotFound e then requeueWithStatusError cr (EWrap e "target cluster not found")
                   else throw (EWrap e "get target cluster")
        | Ok target =>
            cr ← wrapM "ensure the finalizer" (sync_ensureReleaseLockFinalizer cr);
            foreignHolder ← wrapM "acquire clustersync lease" (acquireClusterSyncLease cr);
            if negb (bool_decide (foreignHolder = "")) then
              requeueWithStatusError cr (ENew ("clustersync lease " +:+ sync_lease cr +:+ " held by " +:+
                                               quoted foreignHolder +:+ ", not by this CR"))
            else reconcile_held cr target
        end
  end.
End controller.
