(* ===== verification/SyncTrace.v ===== *)
(** What a run of the cluster synchronisation's controller does, as a trace: the
    leases it takes and sees, the restores it is shown, and the commands it gives
    to PCSM, with their answers. *)
From S2P Require Import Prelude Trace KubeTrace Defaults.
From S2P Require Import ReplsetModels MongoClient Api Kube Hosts GoSort SystemUsers BackupApi Lease BackupExec PbmConfig.
From S2P Require Import BackupController RestoreLogical PhysicalRestore Apply SyncApi SyncClient Uri Sync.

Inductive sync_event :=
| ReadSync (cr : ClusterSyncCR)                             (* the resource, from the API server *)
| TookLease (name : string) (holder : option string)        (* a lease as it is after an attempt to take it *)
| SawLease (name : string) (holder : option string)         (* a lease that was read; without a holder if there is none *)
| SawRestores (l : list PerconaServerMongoDBRestore)
| SentPcsm (pod : Pod) (cmd : list string) (reply : result (string * string * option error)).

Definition lease_seen (name : string) (r : result Lease) : list sync_event :=
  match r with
  | Ok l => [SawLease name (l_HolderIdentity l)]
  | Err e => if IsNotFound e then [SawLease name None] else []
  end.
(** The command changes something in PCSM; it makes PCSM write to the target. *)
Definition is_command (e : sync_event) : bool :=
  match e with SentPcsm _ cmd _ => negb (bool_decide (cmd = [pcsmBinary; "status"])) | _ => false end.
Definition starts_writes (cmd : list string) : bool :=
  match cmd with _ :: verb :: _ => bool_decide (verb = "start") || bool_decide (verb = "resume") | _ => false end.

Section traced.
Context {W : Type} {SY : SyncClient W} {KB : BackupClient W} {E : BackupEnv W} {L : LeaseClient W}.
Context {X : PcsmExec W} {C : MongoByCredentials W} {MC : MongosByCredentials W} {RA : Random W}.
Abbreviation T := (list sync_event * W)%type.

#[export] Instance st_client : SyncClient T := {|
  sapi_get := λ a b, recorded (λ r, match r with Ok cr => [ReadSync cr] | Err _ => [] end) (sapi_get a b);
  sapi_patch_finalizers := λ a b, quietly (sapi_patch_finalizers a b);
  sapi_update_status := λ a, quietly (sapi_update_status a);
  sapi_get_target := λ a b, quietly (sapi_get_target a b);
  sapi_CheckNSetDefaults := sapi_CheckNSetDefaults
|}.
#[export] Instance st_backups : BackupClient T := {|
  api_get_cluster := λ a b, quietly (api_get_cluster a b);
  api_read_cluster := λ a b, quietly (api_read_cluster a b);
  api_get_backup := λ a b, quietly (api_get_backup a b);
  api_read_backup := λ a b, quietly (api_read_backup a b);
  api_list_backups := λ a b, quietly (api_list_backups a b);
  api_list_restores := λ a, recorded (λ r, match r with Ok l => [SawRestores l] | Err _ => [] end) (api_list_restores a);
  api_create_backup := λ b, quietly (api_create_backup b);
  api_delete_backup := λ b, quietly (api_delete_backup b);
  api_update_backup_status := λ b, quietly (api_update_backup_status b);
  api_update_backup := λ b, quietly (api_update_backup b);
  api_patch_finalizers := λ b f, quietly (api_patch_finalizers b f);
  go_now := quietly go_now;
  go_stamp := quietly go_stamp
|}.
#[export] Instance st_env : BackupEnv T := {|
  be_platform := quietly be_platform;
  be_CheckNSetDefaults := be_CheckNSetDefaults;
  be_event := λ s, quietly (be_event s)
|}.
#[export] Instance st_leases : LeaseClient T := {|
  lease_get := λ n ns, recorded (lease_seen n) (lease_get n ns);
  lease_create_or_update := λ l f tw,
    recorded (λ r, match r with Ok l' => [TookLease (l_Name l) (l_HolderIdentity l')] | Err _ => [] end)
      (lease_create_or_update l (λ x w, let '(r, tw') := f x (tw.1, w) in (r, tw'.2))) tw;
  lease_delete := λ l, quietly (lease_delete l);
  lease_now := quietly lease_now
|}.
#[export] Instance st_exec : PcsmExec T := λ p cmd, recorded (λ r, [SentPcsm p cmd r]) (pcsm_exec p cmd).
#[export] Instance st_mongo : MongoByCredentials T := {|
  mongo_with_credentials := λ a b u p, C ← quietly (mongo_with_credentials a b u p); mret (quiet_client C);
  mongo_disconnect := quietly mongo_disconnect
|}.
#[export] Instance st_mongos : MongosByCredentials T :=
  λ a u p, C ← quietly (mongos_with_credentials a u p); mret (quiet_client C).
#[export] Instance st_random : Random T := {| mrand_Intn := λ z, quietly (mrand_Intn z); rand_Int := λ z, quietly (rand_Int z) |}.
End traced.
(** Objects that are applied leave no event. *)
Definition st_objects {Ev W O} (OC : ObjectClient W O) : ObjectClient (list Ev * W) O := {|
  ob_get := λ a b, quietly (ob_get a b);
  ob_create := λ o, quietly (ob_create o);
  ob_update := λ o, quietly (ob_update o);
  ob_delete := λ o, quietly (ob_delete o)
|}.
#[export] Existing Instance st_objects.

(** * Steps that leave nothing *)
Section quiet_steps.
Context {W : Type} {SY : SyncClient W} {KB : BackupClient W} {E : BackupEnv W} {L : LeaseClient W} {K : K8sClient W}.
Context {X : PcsmExec W} {C : MongoByCredentials W} {MC : MongosByCredentials W} {RA : Random W}.
Context {OS : ObjectClient W OwnedSecret} {OD : ObjectClient W Deployment} {OB : ObjectClient W Budget}.
Context {HS : ObjectHash OwnedSecret} {HD : ObjectHash Deployment} {HB : ObjectHash Budget}.
Context {J : PcsmCodec} {U : UrlParser} {SH : Sha256} {V : Versions} {O : MapOrder} {G : GoSort} {Y : Yaml}.
Abbreviation T := (list sync_event * W)%type.
Abbreviation M := (GoM T).
Implicit Types (cr : ClusterSyncCR) (target : SyncTarget).

Lemma quiet_ApplyIf {A} `{K8sObject A, ObjectHash A} {OC : ObjectClient W A} (obj : A) p : quiet (ApplyIf obj p : M _).
Proof. unfold ApplyIf, create_or_read. solve_quiet. Qed.
Hint Resolve quiet_ApplyIf : quiet.
Lemma quiet_DeleteIfExists {A} `{K8sObject A} {OC : ObjectClient W A} (obj : A) : quiet (DeleteIfExists obj : M _).
Proof. unfold DeleteIfExists. solve_quiet. Qed.
Hint Resolve quiet_DeleteIfExists : quiet.
Lemma quiet_GeneratePassword : quiet (GeneratePassword : M _).
Proof.
  unfold GeneratePassword. apply quiet_bind; [solve_quiet|]. intros z. induction (Z.to_nat _); cbn [random_symbols]; solve_quiet.
Qed.
Hint Resolve quiet_GeneratePassword : quiet.
Lemma quiet_target_client target :
  emits (defaultTargetMongoClient target : M _) (λ r d, d = [] ∧ ∀ c, r = Ok c → ∃ C, c = quiet_client C).
Proof.
  assert (∀ m : GoM W (Client W), emits (C ← quietly m; mret (quiet_client C) : M (Client T))
    (λ r d, d = [] ∧ ∀ c, r = Ok c → ∃ C, c = quiet_client C)) as Hc.
  { intros m. apply emits_quiet_bind; [apply quiet_quietly| |done]. intros c. apply emits_ret. split; [done|].
    intros ? [= <-]. eauto. }
  unfold defaultTargetMongoClient. case_match; [by apply emits_throw|].
  apply emits_quiet_bind; [solve_quiet| |done]. intros s. case_match; [by apply emits_throw|].
  case_match; [apply Hc|]. case_match; [by apply emits_throw|apply Hc].
Qed.
Lemma quiet_ensureSyncTargetUser cr target : quiet (ensureSyncTargetUser cr target : M _).
Proof.
  unfold ensureSyncTargetUser. apply quiet_bind; [unfold ensureTargetUserSecret; solve_quiet|]. intros sec.
  eapply emits_wrap_bind; [apply quiet_target_client| |by intros e d [-> _]].
  intros c d [-> Hc]. destruct (Hc c eq_refl) as [C0 ->]. apply quiet_defer; [solve_quiet|].
  apply quiet_bind; [unfold ensureTargetMongoUser; solve_quiet|]. intros [mutated s]. solve_quiet.
Qed.
Lemma quiet_buildSourceURI cr : quiet (buildSourceURI cr : M _).
Proof. unfold buildSourceURI. solve_quiet. Qed.
Lemma quiet_targetTLS target : quiet (targetTLS target : M _).
Proof. unfold targetTLS. solve_quiet. Qed.
Lemma quiet_reconcileDeployment cr target tls : quiet (reconcileDeployment cr target tls : M _).
Proof. unfold reconcileDeployment, get_or, ApplyObject. solve_quiet. Qed.
Lemma quiet_reconcileURISecret cr a b : quiet (reconcileURISecret cr a b : M _).
Proof. unfold reconcileURISecret, ApplyObject. solve_quiet. Qed.
Lemma quiet_reconcilePDB cr : quiet (reconcilePDB cr : M _).
Proof. unfold reconcilePDB. solve_quiet. Qed.
Lemma quiet_readyReplicas cr : quiet (readyReplicas cr : M _).
Proof. unfold readyReplicas. solve_quiet. Qed.
Lemma quiet_recordActive s a : quiet (recordActiveInstance s a : M _).
Proof. unfold recordActiveInstance. solve_quiet. Qed.
Lemma quiet_applyObserved s o g : quiet (applyObservedStatus s o g : M _).
Proof. unfold applyObservedStatus. solve_quiet. Qed.
Lemma quiet_readyPods cr a : quiet (readyPods cr a : M _).
Proof. unfold readyPods. solve_quiet. Qed.
Lemma quiet_addFinalizer cr : quiet (sync_ensureReleaseLockFinalizer cr : M _).
Proof. unfold sync_ensureReleaseLockFinalizer. solve_quiet. Qed.
End quiet_steps.
#[export] Hint Resolve quiet_ensureSyncTargetUser quiet_buildSourceURI quiet_targetTLS quiet_reconcileDeployment
  quiet_reconcileURISecret quiet_reconcilePDB quiet_readyReplicas quiet_recordActive quiet_applyObserved
  quiet_readyPods quiet_addFinalizer : quiet.
