(* ===== verification/SyncFacts.v ===== *)
(** The controller of a cluster synchronisation gives PCSM at most one command per
    run, not twice, and lets PCSM write to the target only when the target is its
    own: it has the synchronisation lease, and saw no backup and no restore. *)
From S2P Require Import Prelude Trace KubeTrace Defaults.
From S2P Require Import ReplsetModels MongoClient Api Kube Hosts GoSort SystemUsers BackupApi Lease BackupExec PbmConfig.
From S2P Require Import ReplsetMembers BackupController RestoreLogical PhysicalRestore Apply SyncApi SyncClient Uri Sync SyncTrace.

(** * Commands *)
Section shapes.
Context {J : PcsmCodec}.
Definition idle (d : list sync_event) : Prop := Forall (λ e, is_command e = false) d.
(** A pod refused the command; the command was sent to it. *)
Definition refused_by (args : list string) (e : sync_event) : Prop :=
  ∃ pod out err x, e = SentPcsm pod (pcsmBinary :: args) (Ok (out, err, Some x)) ∧ notActive out err = true.
Definition sent (args : list string) (e : sync_event) : Prop := ∃ pod r, e = SentPcsm pod (pcsmBinary :: args) r.
(** The command was sent to pods that refused it, and to one more at most. *)
Definition one_command (args : list string) (d : list sync_event) : Prop :=
  ∃ refused last, d = refused ++ last ∧ Forall (refused_by args) refused ∧ Forall (sent args) last ∧ length last ≤ 1.
(** A run: before the command, [pre], it looks at what [safe] asks for. *)
Definition command_shape (safe : list string → list sync_event → Prop) (d : list sync_event) : Prop :=
  ∃ pre args cmds post, d = pre ++ cmds ++ post ∧ idle pre ∧ idle post ∧ args ≠ ["status"] ∧ one_command args cmds ∧
    (cmds = [] ∨ safe args pre).
End shapes.
Ltac idle := unfold idle in *;
  repeat first [assumption | apply Forall_nil; exact I | apply Forall_cons; split; [reflexivity|] | apply Forall_app; split].

Section shape_facts.
Context {J : PcsmCodec}.
Lemma one_command_nil args : one_command args [].
Proof. exists [], []. repeat split; cbn; [constructor|constructor|lia]. Qed.
Lemma one_command_sent args pod r : one_command args [SentPcsm pod (pcsmBinary :: args) r].
Proof. exists [], [SentPcsm pod (pcsmBinary :: args) r]. repeat split; [constructor| |cbn; lia]. constructor; [|constructor]. by exists pod, r. Qed.
Lemma one_command_refused args pod out err x d :
  notActive out err = true → one_command args d →
  one_command args (SentPcsm pod (pcsmBinary :: args) (Ok (out, err, Some x)) :: d).
Proof.
  intros Hn (refused & last & -> & Hr & Hl & Hs). eexists (_ :: refused), last. split; [done|]. split; [|done].
  constructor; [|done]. by exists pod, out, err, x.
Qed.
Lemma idle_shape safe d : idle d → command_shape safe d.
Proof.
  intros Hd. exists d, ["start"], [], []. rewrite !app_nil_r. split_and!; try done; [constructor|apply one_command_nil|by left].
Qed.
Lemma shape_after safe safe' d0 d :
  idle d0 → (∀ args pre, safe args pre → safe' args (d0 ++ pre)) → command_shape safe d → command_shape safe' (d0 ++ d).
Proof.
  intros H0 Hs (pre & args & cmds & post & -> & Hp & Hq & Ha & Hc & H).
  exists (d0 ++ pre), args, cmds, post. split_and!; try done; [by rewrite app_assoc|idle|].
  destruct H as [->|H]; [by left|right; by apply Hs].
Qed.
Lemma shape_then safe d d1 : command_shape safe d → idle d1 → command_shape safe (d ++ d1).
Proof.
  intros (pre & args & cmds & post & -> & Hp & Hq & Ha & Hc & H) H1.
  exists pre, args, cmds, (post ++ d1). split_and!; try done; [by rewrite <-!app_assoc|idle].
Qed.
Lemma one_command_commands args d : args ≠ ["status"] → one_command args d → filter (λ e, is_command e = true) d = d.
Proof.
  intros Ha (refused & last & -> & Hr & Hl & _).
  assert (Forall (sent args) (refused ++ last)) as Hs.
  { apply Forall_app. split; [|done]. eapply Forall_impl; [exact Hr|].
    intros e (pod & out & err & x & -> & _). by eexists _, _. }
  clear Hr Hl. induction Hs as [|e d (pod & r & ->) _ IH]; [done|]. rewrite filter_cons_True, IH; [done|].
  cbn. rewrite bool_decide_eq_false_2; [done|]. by intros [= ->].
Qed.
Lemma idle_commands d : idle d → filter (λ e, is_command e = true) d = [].
Proof. induction 1 as [|e d He _ IH]; [done|]. rewrite filter_cons_False; [done|]. by rewrite He. Qed.
(** Before a command of a run of this shape are the look and those that refused it. *)
Lemma one_command_split args refused last d1 e d2 :
  Forall (refused_by args) refused → Forall (sent args) last → length last ≤ 1 →
  refused ++ last = d1 ++ e :: d2 → Forall (refused_by args) d1 ∧ sent args e.
Proof.
  intros Hr Hl Hs Hd. apply app_eq_inv in Hd as [(k & -> & Hd)|(k & -> & Hd)].
  - apply Forall_app in Hr as [Hr1 Hr2]. split; [done|]. destruct k as [|x k]; cbn in Hd; simplify_eq.
    + apply Forall_cons in Hl. tauto.
    + apply Forall_cons in Hr2 as [(pod & out & err & y & E & _) _]. rewrite E. by eexists _, _.
  - subst last. rewrite length_app in Hs. cbn in Hs. destruct k; cbn in Hs; [|lia]. rewrite app_nil_r.
    apply Forall_cons in Hl. tauto.
Qed.
Lemma shape_command safe d d1 e d2 :
  command_shape safe d → d = d1 ++ e :: d2 → is_command e = true →
  ∃ pre args refused, d1 = pre ++ refused ∧ safe args pre ∧ Forall (refused_by args) refused ∧ sent args e.
Proof.
  intros (pre & args & cmds & post & -> & Hp & Hq & Ha & Hc & H) Hd He. unfold idle in *. rewrite Forall_forall in Hp, Hq.
  destruct (app_split _ _ _ _ _ Hd) as [Hin|(d0 & -> & Hd0)]; [by rewrite (Hp e Hin) in He|].
  destruct H as [->|H].
  { cbn in Hd0. subst post. by rewrite (Hq e) in He by set_solver. }
  exists pre, args, d0. split; [done|]. split; [done|]. destruct Hc as (refused & last & -> & Hr & Hl & Hs).
  apply app_eq_inv in Hd0 as [(k & Hk & Hd0)|(k & -> & Hd0)]; [|by rewrite (Hq e) in He by set_solver].
  destruct k as [|x k]; cbn in Hd0; simplify_eq; [by rewrite (Hq e) in He by set_solver|].
  by eapply (one_command_split args refused last).
Qed.
End shape_facts.

(** * What a run knows of the target *)
Definition nameless (h : option string) : Prop := h = None ∨ h = Some "".
(** The last two looks: the backup lease is free, and no restore of the cluster is
    under way. *)
Definition free_of_jobs (name : string) (d : list sync_event) : Prop :=
  ∃ d0 h l, d = d0 ++ [SawLease (BackupLeaseName name) h; SawRestores l] ∧ nameless h ∧
    ∀ r, r ∈ l → r_ClusterName r = name → restoreInFlight (r_State r) = false.
(** The lease is this synchronisation's; or its holder has an empty name, which the
    code does not tell from its own. *)
Definition holds_lease (cr : ClusterSyncCR) (d : list sync_event) : Prop :=
  TookLease (sync_lease cr) (Some (ClusterSyncHolderId cr)) ∈ d ∨
  TookLease (sync_lease cr) (Some "") ∈ d ∨ SawLease (sync_lease cr) (Some "") ∈ d.
Definition writes_allowed (cr : ClusterSyncCR) (args : list string) (d : list sync_event) : Prop :=
  starts_writes (pcsmBinary :: args) = true →
  sps_Mode (sy_Spec cr) = ClusterSyncModeRunning ∧ free_of_jobs (sps_ClusterName (sy_Spec cr)) d.
(** First the lease, then the looks *)
Definition writes_safe (cr : ClusterSyncCR) (args : list string) (d : list sync_event) : Prop :=
  ∃ taken looks, d = taken ++ looks ∧ holds_lease cr taken ∧ writes_allowed cr args looks.

Lemma free_of_jobs_app name d0 d : free_of_jobs name d → free_of_jobs name (d0 ++ d).
Proof. intros (d1 & h & l & -> & H). exists (d0 ++ d1), h, l. by rewrite app_assoc. Qed.
Lemma nextAction_writes from to state started :
  writeAction (nextAction from to state started).1 = true → to = ClusterSyncModeRunning.
Proof.
  unfold nextAction. case_bool_decide; [done|].
  case_bool_decide; cbn [andb]; [case_bool_decide as Hto; [destruct started; cbn; [done|]|]|]; cbn [andb];
    repeat case_bool_decide; cbn; try done; by destruct started.
Qed.

Section starts.
Context {W : Type} {SY : SyncClient W} {KB : BackupClient W} {E : BackupEnv W} {L : LeaseClient W} {K : K8sClient W}.
Context {X : PcsmExec W} {C : MongoByCredentials W} {MC : MongosByCredentials W} {RA : Random W}.
Context {OS : ObjectClient W OwnedSecret} {OD : ObjectClient W Deployment} {OB : ObjectClient W Budget}.
Context {HS : ObjectHash OwnedSecret} {HD : ObjectHash Deployment} {HB : ObjectHash Budget}.
Context {J : PcsmCodec} {U : UrlParser} {SH : Sha256} {V : Versions} {O : MapOrder} {G : GoSort} {Y : Yaml}.
Context {R : GoRetryOn} {RL : GoRetryOnLaws R}.
Abbreviation T := (list sync_event * W)%type.
Abbreviation M := (GoM T).
Abbreviation B := (GoM (string * T)).
Implicit Types (cr : ClusterSyncCR) (target : SyncTarget) (status : ClusterSyncStatus).

(** ** The client *)
Lemma leaves_exec {A} pod cmd (k : string * string * option error → B A) (Q : result A → list sync_event → Prop) :
  (∀ r, leaves (k r) (λ r' d, Q r' (SentPcsm pod cmd (Ok r) :: d))) →
  (∀ e, Q (Err e) [SentPcsm pod cmd (Err e)]) →
  leaves (on_world (pcsm_exec pod cmd) ≫= k) Q.
Proof.
  intros Hk He. eapply leaves_bind; [apply leaves_world, emits_recorded| |by intros e d ->].
  intros r d ->. apply Hk.
Qed.
Lemma run_pods_command args tr pods :
  leaves (run_pods false args tr pods : B _) (λ _ d, one_command args d).
Proof.
  revert tr. induction pods as [|pod pods IH]; intros tr; cbn [run_pods]; [apply leaves_ret, one_command_nil|].
  apply leaves_exec; [|intros; apply one_command_sent]. intros [[out err] [e|]]; [|apply leaves_mod_bind, leaves_ret, one_command_sent].
  destruct (notActive out err) eqn:En.
  - eapply leaves_conseq; [apply IH|]. intros r d Hd. by apply one_command_refused.
  - case_match; [apply leaves_ret, one_command_sent|apply leaves_mod_bind, leaves_ret, one_command_sent].
Qed.
Lemma run_pods_status tr pods : leaves (run_pods true ["status"] tr pods : B _) (λ _ d, idle d).
Proof.
  revert tr. induction pods as [|pod pods IH]; intros tr; cbn [run_pods]; [by apply leaves_ret; idle|].
  assert (∀ r, is_command (SentPcsm pod [pcsmBinary; "status"] r) = false) as Hc by done.
  apply leaves_exec; [|intros; by idle]. intros [[out err] [e|]]; [|apply leaves_mod_bind, leaves_ret; by idle].
  repeat case_match; try (apply leaves_mod_bind, leaves_ret; by idle);
    (eapply leaves_conseq; [apply IH|]); intros r d Hd; by idle.
Qed.
Lemma leaves_run cr ro args (Q : result (string * option error) → list sync_event → Prop) :
  (∀ pods, leaves (run_pods ro args None pods : B _) Q) → (∀ r, Q r []) → leaves (run cr ro args : B _) Q.
Proof.
  intros Hp Hn. unfold run. apply leaves_get_bind. intros active.
  apply leaves_quiet; [solve_quiet| |intros; apply Hn]. intros [pods|e]; [apply Hp|apply leaves_ret, Hn].
Qed.
Lemma leaves_status cr : leaves (pcsm_Status cr : B _) (λ _ d, idle d).
Proof.
  unfold pcsm_Status. eapply leaves_bind with (Q1 := λ _ d, idle d); [|intros [raw e] d Hd|done].
  - apply leaves_run; [apply run_pods_status|intros; by idle].
  - repeat case_match; first [apply leaves_ret|apply leaves_throw]; by rewrite app_nil_r.
Qed.
Lemma leaves_command cr args : leaves (run_command cr args : B _) (λ _ d, one_command args d).
Proof.
  unfold run_command. eapply leaves_bind with (Q1 := λ _ d, one_command args d); [|intros r d Hd|done].
  - apply leaves_run; [apply run_pods_command|intros; apply one_command_nil].
  - case_match; first [apply leaves_ret|apply leaves_throw]; by rewrite app_nil_r.
Qed.
Lemma leaves_action action cr state :
  leaves (invokeAction action cr state : B _) (λ _ d, ∃ args, args ≠ ["status"] ∧ one_command args d ∧
    (starts_writes (pcsmBinary :: args) = true → writeAction action = true)).
Proof.
  assert (∀ args, args ≠ ["status"] → (starts_writes (pcsmBinary :: args) = true → writeAction action = true) →
    leaves (run_command cr args : B _) (λ _ d, ∃ args, args ≠ ["status"] ∧ one_command args d ∧
    (starts_writes (pcsmBinary :: args) = true → writeAction action = true))) as Hc.
  { intros args Ha Hw. eapply leaves_conseq; [apply leaves_command|]. intros r d Hd. by exists args. }
  destruct action; cbn [invokeAction]; [|by apply Hc|by apply Hc; [destruct (bool_decide _)|]|by apply Hc|by apply Hc].
  apply leaves_ret. exists ["pause"]. split; [done|]. split; [apply one_command_nil|done].
Qed.

(** ** The status, and the looks at other jobs *)
Lemma emits_writeStatus cr status : emits (sync_writeStatus cr status : M _) (λ _ d, idle d).
Proof using RL.
  unfold sync_writeStatus. eapply emits_bind with (Q1 := λ _ d, idle d); [|intros [u|e] d Hd|done].
  - apply emits_catch. eapply emits_conseq with (Q := λ _ d, idle d); [|by intros []].
    eapply emits_conseq; [apply (emits_retry (λ e, is_command e = false) (λ _ _, True)); [|done]|by intros r d []].
    eapply emits_bind; [apply emits_recorded| |].
    + intros c d ->. case_match; [apply emits_ret|apply quiet_emits; [solve_quiet|]]; intros; split; try done; by repeat constructor.
    + intros e d ->. by repeat constructor.
  - apply emits_ret. by rewrite app_nil_r.
  - case_match; [apply emits_ret|apply emits_throw]; by rewrite app_nil_r.
Qed.
Lemma emits_report cr e : emits (requeueWithStatusError cr e : M _) (λ _ d, idle d).
Proof using RL.
  unfold requeueWithStatusError. eapply emits_bind; [apply emits_writeStatus| |done].
  intros u d Hd. apply emits_ret. by rewrite app_nil_r.
Qed.
Lemma emits_busy cr :
  emits (clusterBusyByBackupOrRestore cr : M _) (λ r d, idle d ∧
    (r = Ok None → free_of_jobs (sps_ClusterName (sy_Spec cr)) d)).
Proof.
  unfold clusterBusyByBackupOrRestore. set (name := sps_ClusterName (sy_Spec cr)).
  eapply emits_wrap_bind with (Q1 := λ r d, idle d ∧ (r = Ok false → ∃ h, d = [SawLease (BackupLeaseName name) h] ∧ nameless h)).
  - unfold IsLeaseActive. eapply emits_bind with
      (Q1 := λ rr d, ∃ r, rr = Ok r ∧ d = lease_seen (BackupLeaseName name) r); [| |by intros e d (r & [=] & _)].
    { apply emits_try. eapply emits_conseq; [apply emits_recorded|]. intros r d ->. by exists r. }
    intros r0 d (r & [= ->] & ->). unfold lease_seen. destruct r as [l|e].
    + apply emits_ret. rewrite app_nil_r. split; [idle|]. intros [= H]. exists (l_HolderIdentity l). split; [done|].
      unfold lease_holder in H. unfold nameless. destruct (l_HolderIdentity l); [|by left]. case_bool_decide; [right; by f_equal|done].
    + destruct (IsNotFound e); [apply emits_ret|apply emits_throw]; rewrite app_nil_r; (split; [idle|]); [|done].
      intros _. exists None. split; [done|by left].
  - intros a d [Hd Ha]. destruct a; [apply emits_ret; by rewrite app_nil_r|]. destruct (Ha eq_refl) as (h & Hh & Hn).
    eapply emits_wrap_bind; [apply emits_recorded| |intros e d' ->; split; [by rewrite app_nil_r|done]].
    intros l d' ->. apply emits_ret. split; [idle|]. intros [= Hf]. exists [], h, l. split; [by rewrite Hh|]. split; [done|]. intros r Hr Hname. apply fmap_None in Hf.
    pose proof (find_none _ _ Hf r (proj1 (list_elem_of_In _ _) Hr)) as Hb. cbn in Hb.
    by rewrite bool_decide_eq_true_2 in Hb.
  - intros e d [Hd _]. split; [done|done].
Qed.
Lemma emits_hold cr reason status : emits (hold cr reason status : M _) (λ _ d, idle d).
Proof using RL. unfold hold. apply emits_quiet_bind; [solve_quiet| |by idle]. intros _. apply emits_writeStatus. Qed.

(** ** The mode *)
Lemma leaves_apply action mirror cr status :
  leaves (apply_action action mirror cr status : B _)
    (λ _, command_shape (λ args pre, pre = [] ∧ (starts_writes (pcsmBinary :: args) = true → writeAction action = true))).
Proof using RL.
  assert (∀ d args, args ≠ ["status"] → one_command args d →
    (starts_writes (pcsmBinary :: args) = true → writeAction action = true) → ∀ d', idle d' →
    command_shape (λ args pre, pre = [] ∧ (starts_writes (pcsmBinary :: args) = true → writeAction action = true)) (d ++ d')) as Hsh.
  { intros d args Ha Hc Hw d' Hd'. exists [], args, d, d'. split_and!; try done; [constructor|by right]. }
  unfold apply_action. eapply leaves_bind; [apply leaves_catch; eapply leaves_conseq; [apply leaves_action|]| |].
  - instantiate (1 := λ _ d, ∃ args, args ≠ ["status"] ∧ one_command args d ∧
      (starts_writes (pcsmBinary :: args) = true → writeAction action = true)). by intros [].
  - intros [u|e] d (args & Ha & Hc & Hw).
    + apply leaves_get_bind. intros active. apply leaves_quiet; [solve_quiet| |intros; by eapply Hsh; [..|idle]].
      intros s. apply leaves_world. eapply emits_conseq; [apply emits_writeStatus|]. intros r d' Hd'. by eapply Hsh.
    + apply leaves_world. eapply emits_conseq; [apply emits_writeStatus|]. intros r d' Hd'. by eapply Hsh.
  - intros e d (args & Ha & Hc & Hw). rewrite <-(app_nil_r d). by eapply Hsh; [..|idle].
Qed.
Lemma leaves_reconcile_action cr status :
  leaves (reconcile_action cr status : B _) (λ _, command_shape (writes_allowed cr)).
Proof using RL.
  unfold reconcile_action. destruct (nextAction _ _ _ _) as [action mirror] eqn:En.
  assert (writeAction action = true → sps_Mode (sy_Spec cr) = ClusterSyncModeRunning) as Hto.
  { intros Hw. eapply nextAction_writes. by rewrite En. }
  case_match; [apply leaves_world; eapply emits_conseq; [apply emits_writeStatus|]; intros; by apply idle_shape|].
  destruct (writeAction action) eqn:Ew.
  - eapply leaves_bind with (Q1 := λ r d, idle d ∧ (r = Ok None → free_of_jobs (sps_ClusterName (sy_Spec cr)) d)).
    + apply leaves_world, emits_wrap. eapply emits_conseq; [apply emits_busy|]. intros [a|e] d [Hd Hf]; by split.
    + intros [reason|] d [Hd Hf].
      * apply leaves_world. eapply emits_conseq; [apply emits_hold|]. intros. by apply idle_shape; idle.
      * eapply leaves_conseq; [apply leaves_apply|]. intros r d' Hs. eapply shape_after; [done| |exact Hs].
        intros args pre [-> _] _. split; [by apply Hto|]. rewrite app_nil_r. by apply Hf.
    + intros e d [Hd _]. by apply idle_shape.
  - eapply leaves_conseq; [apply leaves_apply|]. intros r d Hs. rewrite Ew in Hs.
    eapply (shape_after _ _ []); [by idle| |exact Hs]. intros args pre [_ Hn] Hw. by specialize (Hn Hw).
Qed.
Lemma leaves_reconcileMode cr ready : leaves (reconcileMode cr ready : B _) (λ _, command_shape (writes_allowed cr)).
Proof using RL.
  unfold reconcileMode. eapply leaves_bind; [apply leaves_catch; eapply leaves_conseq; [apply leaves_status|]| |].
  - instantiate (1 := λ _ d, idle d). by intros [].
  - intros observed d Hd.
    assert (∀ r d', command_shape (writes_allowed cr) d' → (λ (_ : result unit) d', command_shape (writes_allowed cr) (d ++ d')) r d') as Hs.
    { intros r d' H'. eapply shape_after; [done| |exact H']. intros args pre Hn Hw. destruct (Hn Hw) as [Hm Hf].
      split; [done|]. by apply free_of_jobs_app. }
    apply leaves_get_bind. intros active. apply leaves_quiet; [solve_quiet| |intros; apply (Hs (Err nil_panic)), idle_shape; by idle].
    intros s. destruct observed as [o|e].
    + apply leaves_quiet; [solve_quiet| |intros; apply (Hs (Err nil_panic)), idle_shape; by idle]. intros s'.
      eapply leaves_conseq; [apply leaves_reconcile_action|]. apply Hs.
    + case_match.
      * apply leaves_world. eapply emits_conseq; [apply emits_writeStatus|]. intros r d' H'. by apply (Hs r), idle_shape.
      * eapply leaves_conseq; [apply leaves_reconcile_action|]. apply Hs.
  - intros e d Hd. by apply idle_shape.
Qed.

(** ** The run *)
Lemma emits_client {A} cr (m : B A) (Q : result A → list sync_event → Prop) : leaves m Q → emits (with_client cr m : M A) Q.
Proof.
  intros Hm t w. destruct (Hm (sst_ActiveInstance (sy_Status cr)) t w) as (d & Hd & Hr). unfold with_client.
  destruct (m _) as [r [s [t' w']]]. by exists d.
Qed.
Lemma emits_release cr : emits (releaseClusterSyncLease cr : M _) (λ _ d, idle d).
Proof.
  unfold releaseClusterSyncLease. eapply emits_bind with (Q1 := λ _ d, idle d); [|intros [u|e] d Hd|done].
  - apply emits_catch. eapply emits_conseq with (Q := λ _ d, idle d); [|by intros []]. unfold ReleaseLease, GetLease.
    eapply emits_bind with (Q1 := λ _ d, idle d); [apply emits_try; eapply emits_conseq; [apply emits_recorded|]| |done].
    + intros [l|e] d ->; cbn; [by idle|]. destruct (IsNotFound e); by idle.
    + intros r d Hd. apply quiet_emits; [solve_quiet|]. intros _. by rewrite app_nil_r.
  - apply emits_ret. by rewrite app_nil_r.
  - case_match; [apply emits_ret|apply emits_throw]; by rewrite app_nil_r.
Qed.
Lemma emits_acquire cr :
  emits (acquireClusterSyncLease cr : M _) (λ r d, idle d ∧ (r = Ok "" → holds_lease cr d)).
Proof.
  unfold acquireClusterSyncLease. eapply emits_bind with
    (Q1 := λ rr d, idle d ∧ ∀ l, rr = Ok (Ok l) → TookLease (sync_lease cr) (l_HolderIdentity l) ∈ d).
  - apply emits_catch. unfold AcquireLease. intros t w.
    destruct (emits_recorded (λ r : result Lease, match r with Ok l' => [TookLease (sync_lease cr) (l_HolderIdentity l')] | Err _ => [] end)
      (lease_create_or_update {| l_Name := sync_lease cr; l_Namespace := sy_Namespace cr; l_UID := "";
         l_ResourceVersion := 0; l_HolderIdentity := None; l_AcquireTime := None |}
         (λ x w, let '(r, tw') := acquire_mutate (ClusterSyncHolderId cr) None x (t, w) in (r, tw'.2))) t w) as (d & Hd & Hr).
    exists d. split; [exact Hd|]. cbn [lease_create_or_update st_leases]. cbn [fst] in *. cbn [l_Name].
    destruct (recorded _ _ _) as [[l|e] [t' w']]; cbn in *; subst d.
    + split; [by idle|]. intros l' [= ->]. set_solver.
    + split; split; by idle.
  - intros [l|e] d [Hd Ht].
    + apply emits_ret. rewrite app_nil_r. split; [done|]. specialize (Ht l eq_refl). case_bool_decide as Hh.
      * intros _. left. by rewrite Hh in Ht.
      * unfold holder_name. destruct (l_HolderIdentity l) as [h|]; cbn; [|done]. intros [= ->]. by right; left.
    + case_match; [|apply emits_throw; by rewrite app_nil_r]. eapply emits_bind; [apply emits_recorded| |].
      * intros l d' ->. apply emits_ret. split; [cbn; by idle|]. intros [= H0]. right; right.
        unfold holder_name in H0. cbn. destruct (l_HolderIdentity l); cbn in H0; [|done]. subst. set_solver.
      * intros e' d' ->. split; [|done]. cbn. destruct (IsNotFound e'); by idle.
  - by intros e d [Hd _].
Qed.

Lemma emits_or_report {A} cr msg (m : M A) k (Q : result Result → list sync_event → Prop) :
  quiet m → (∀ a, emits (k a) Q) → (∀ r d, idle d → Q r d) → emits (or_report cr msg m k) Q.
Proof using RL.
  intros Hm Hk HQ. unfold or_report. apply emits_quiet_bind; [by apply quiet_catch| |intros; apply HQ; by idle].
  intros [a|e]; [apply Hk|]. eapply emits_conseq; [apply emits_report|]. apply HQ.
Qed.
Lemma emits_reconcile_objects cr target uri :
  emits (reconcile_objects cr target uri : M _) (λ _, command_shape (writes_allowed cr)).
Proof using RL.
  assert (∀ (r : result Result) d, idle d → command_shape (writes_allowed cr) d) as Hidle by (intros; by apply idle_shape).
  assert (∀ e : error, command_shape (writes_allowed cr) []) as Hnil by (intros; apply idle_shape; by idle).
  unfold reconcile_objects. apply emits_or_report; [solve_quiet| |exact Hidle]. intros creds.
  apply emits_quiet_bind; [solve_quiet| |exact Hnil]. intros targetURI.
  apply emits_quiet_bind; [solve_quiet| |exact Hnil]. intros _.
  apply emits_or_report; [solve_quiet| |exact Hidle]. intros tls.
  apply emits_quiet_bind; [solve_quiet| |exact Hnil]. intros _.
  apply emits_quiet_bind; [solve_quiet| |exact Hnil]. intros _.
  apply emits_quiet_bind; [solve_quiet| |exact Hnil]. intros ready. case_match.
  - eapply emits_bind; [apply emits_writeStatus| |].
    + intros u d Hd. apply emits_ret. rewrite app_nil_r. by apply idle_shape.
    + intros e d Hd. by apply idle_shape.
  - eapply emits_wrap_bind; [apply emits_client, leaves_reconcileMode| |done]. intros u d Hs.
    eapply emits_bind with (Q1 := λ _ d', idle d').
    + case_match; [|by apply emits_ret; idle]. apply emits_wrap. apply emits_release.
    + intros u' d' Hd'. apply emits_ret. rewrite app_nil_r. by apply shape_then.
    + intros e d' Hd'. by apply shape_then.
Qed.
Lemma emits_reconcile_held cr target :
  emits (reconcile_held cr target : M _) (λ _, command_shape (writes_allowed cr)).
Proof using RL.
  assert (∀ e : error, command_shape (writes_allowed cr) []) as Hnil by (intros; apply idle_shape; by idle).
  unfold reconcile_held. apply emits_quiet_bind; [solve_quiet| |exact Hnil]. intros platform.
  apply emits_quiet_bind; [solve_quiet| |exact Hnil]. intros target'.
  apply emits_quiet_bind; [solve_quiet| |exact Hnil]. intros [uri|e]; [apply emits_reconcile_objects|].
  case_match; [|apply emits_throw, (Hnil e)]. eapply emits_conseq; [apply emits_report|]. intros. by apply idle_shape.
Qed.
Definition read_shape (d : list sync_event) : Prop :=
  idle d ∨ ∃ cr d', d = ReadSync cr :: d' ∧ sy_Deleting cr = false ∧ command_shape (writes_safe cr) d'.
(** The finalizer does not change what the synchronisation asks for. *)
Lemma finalizer_same cr :
  ensures (sync_ensureReleaseLockFinalizer cr : M _) (λ cr', ∃ l, cr' = with_sy_Finalizers l cr).
Proof.
  unfold sync_ensureReleaseLockFinalizer. case_match; [apply ensures_ret; exists (sy_Finalizers cr); by destruct cr|].
  apply ensures_then. intros _. apply ensures_ret. by eexists.
Qed.
Lemma emits_Reconcile ns name : emits (Reconcile ns name : M _) (λ _, read_shape).
Proof using RL.
  unfold Reconcile. eapply emits_bind with (Q1 := λ r d, match r with Ok (Ok cr) => d = [ReadSync cr] | _ => d = [] end).
  - apply emits_catch. eapply emits_conseq; [apply emits_recorded|]. by intros [] d ->.
  - intros [cr|e] d ->; [|case_match; [apply emits_ret|apply emits_throw]; left; by idle].
    destruct (sy_Deleting cr) eqn:Edel.
    { unfold handleDeletion. case_match; [apply emits_ret; left; cbn; by idle|].
      eapply emits_bind with (Q1 := λ _ d, idle d); [apply emits_catch; eapply emits_conseq; [apply emits_release|]; by intros []| |].
      - intros [u|e] d Hd; [|apply emits_ret; left; cbn; rewrite app_nil_r; by idle].
        apply quiet_emits; [solve_quiet|]. intros r. left. cbn. rewrite app_nil_r. by idle.
      - intros e d Hd. left. cbn. by idle. }
    case_match.
    { eapply emits_wrap_bind; [apply emits_release| |]; intros; [apply emits_ret|]; left; cbn; rewrite ?app_nil_r; by idle. }
    apply emits_quiet_bind; [solve_quiet| |intros; left; by idle]. intros [target|e].
    2: { case_match; [|apply emits_throw; left; by idle]. eapply emits_conseq; [apply emits_report|]. intros. left. cbn. by idle. }
    assert (∀ d, command_shape (writes_safe cr) d → read_shape (ReadSync cr :: d)) as Hread by (intros; right; by eexists _, _).
    eapply emits_wrap_bind; [apply (emits_ensures _ (λ _ d, d = []) _ (quiet_addFinalizer cr) (finalizer_same cr))| |].
    + intros cr' d [-> [l ->]]. eapply emits_wrap_bind; [apply emits_acquire| |].
      * intros h d [Hd Hh]. case_bool_decide as Eh; cbn [negb].
        -- subst h. eapply emits_conseq; [apply emits_reconcile_held|]. intros r d' Hs. apply Hread. cbn [app].
           eapply shape_after; [done| |exact Hs]. intros args pre Hw. exists d, pre. split; [done|]. split; [by apply Hh|done].
        -- eapply emits_conseq; [apply emits_report|]. intros r d' Hd'. apply Hread, idle_shape. cbn. by idle.
      * intros e d [Hd _]. by apply Hread, idle_shape.
    + intros e d [-> _]. apply Hread, idle_shape. by idle.
  - intros e d ->. left. by idle.
Qed.

(** C20: A run of the controller of a cluster synchronisation has PCSM write to
    the target, by start or resume in whatever pod, only for a synchronisation
    that it read, that is not being deleted and whose specification asks for it
    to run. In the same run it first took or kept the synchronisation lease of
    the target for this resource (a lease whose holder has an empty name counts
    as its own, as in the code), and then, right before the command but for
    pods that refused the same command, found the backup lease of the target
    absent or without a holder (or one with an empty name) and, in a list of
    the restores of the namespace, none of the target under way. *)
Theorem sync_starts_unblocked ns name w d1 pod cmd reply d2 :
  (Reconcile ns name ([], w) : result Result * T).2.1 = d1 ++ SentPcsm pod cmd reply :: d2 → starts_writes cmd = true →
  ∃ cr args taken mid h l refused,
    d1 = ReadSync cr :: taken ++ mid ++
         [SawLease (BackupLeaseName (sps_ClusterName (sy_Spec cr))) h; SawRestores l] ++ refused ∧
    sy_Deleting cr = false ∧ sps_Mode (sy_Spec cr) = ClusterSyncModeRunning ∧ holds_lease cr taken ∧
    nameless h ∧
    (∀ r, r ∈ l → r_ClusterName r = sps_ClusterName (sy_Spec cr) → restoreInFlight (r_State r) = false) ∧
    cmd = pcsmBinary :: args ∧ Forall (refused_by args) refused.
Proof using RL.
  intros Hd Hc. destruct (emits_Reconcile ns name [] w) as (d & Hd' & Hr). rewrite Hd in Hd'. cbn in Hd'.
  assert (is_command (SentPcsm pod cmd reply) = true) as He.
  { cbn. rewrite bool_decide_eq_false_2; [done|]. by intros ->. }
  destruct Hr as [Hi|(cr & d' & -> & Hdel & Hs)].
  { unfold idle in Hi. rewrite Forall_forall in Hi. by rewrite (Hi (SentPcsm pod cmd reply)) in He by set_solver. }
  destruct d1 as [|x d1]; cbn in Hd'; simplify_eq.
  destruct (shape_command _ _ _ _ _ Hs eq_refl He)
    as (pre & args & refused & -> & (taken & looks & -> & Hl & Hw) & Href & (pod' & r' & [= -> -> ->])).
  destruct (Hw Hc) as [Hm (mid & h & l & -> & Hn & Hf)]. exists cr, args, taken, mid, h, l, refused.
  split; [by rewrite <-!app_assoc|]. by split_and!.
Qed.

(** C21: the commands that a run gives to PCSM, other than to ask for its
    status, are one and the same command: it goes to pods that refuse it, as they
    are not the active instance of the group, and to one more at most.  So no pod
    that did not refuse a command gets it, or another one, a second time. *)
Theorem command_run_once ns name w :
  ∃ args, one_command args (filter (λ e, is_command e = true) (Reconcile ns name ([], w) : result Result * T).2.1).
Proof using RL.
  destruct (emits_Reconcile ns name [] w) as (d & -> & Hr). cbn [app].
  destruct Hr as [Hi|(cr & d' & -> & _ & (pre & args & cmds & post & -> & Hp & Hq & Ha & Hc & _))].
  { exists []. rewrite idle_commands by done. apply one_command_nil. }
  exists args. rewrite filter_cons_False by done. rewrite !filter_app, (idle_commands pre), (idle_commands post) by done.
  by rewrite (one_command_commands args), app_nil_r.
Qed.
End starts.

(** * A synchronisation of two pods, the first of which is a standby *)
Section demo.
Local Existing Instances emptyYaml insertion_GoSort steps_retry steps_retry_laws.
Local Instance demo_order : MapOrder := λ V m, map_to_list m.
Local Instance demo_versions : Versions := λ _ _, 0%Z.
Definition pcsm_pod (name : string) : Pod :=
  let p := a_pod name ComponentPCSM in
  {| pod_Name := name; pod_Namespace := "ns"; pod_Labels := ∅; pod_Annotations := ∅; pod_Deleting := false;
     pod_NodeName := ""; pod_InitContainers := []; pod_Containers := []; pod_Phase := PodRunning; pod_HostIP := "";
     pod_ContainerStatuses := [{| cs_Name := ContainerName; cs_Running := true; cs_Waiting := None; cs_Ready := true;
                                  cs_Resources := None |}];
     pod_Conditions := [] |}.
Definition demo_secrets : gmap string (gmap string string) :=
  {[ "source" := {[ "username" := "u"; "password" := "p" ]};
     "users" := {[ "MONGODB_USER_ADMIN_USER" := "admin"; "MONGODB_USER_ADMIN_PASSWORD" := "secret" ]} ]}.
Local Instance demo_kube : K8sClient unit :=
  let base := emptyK8s unit in {|
  k8s_get_service := k8s_get_service (K8sClient := base); k8s_get_node_labels := λ _, notFound;
  k8s_get_service_import := λ _ _, notFound; k8s_list_service_exports := λ _ _, mret []; k8s_get_sts := λ _ _, notFound;
  k8s_get_secret := λ _ n, match demo_secrets !! n with Some s => mret s | None => notFound end;
  k8s_list_sts := λ _ _, mret []; k8s_list_pods := λ _ _, mret [pcsm_pod "b"; pcsm_pod "a"];
  go_sleep := λ _, mret tt; go_tick := mret None |}.
Local Instance demo_leases : LeaseClient unit := {|
  lease_get := λ _ _, notFound; lease_create_or_update := λ l f, f l;
  lease_delete := λ _, mret tt; lease_now := mret 0%Z |}.
Local Instance demo_env : BackupEnv unit := plainEnv unit.
(** The pod named a is a standby; PCSM is idle. *)
Local Instance demo_exec : PcsmExec unit := λ p _, mret
  (if bool_decide (pod_Name p = "a") then ("standby", "not_active", Some (ENew "exit status 1")) else ("idle", "", None)).
Local Instance demo_codec : PcsmCodec := {|
  json_pcsm_status := λ s, if bool_decide (s = "idle") then
    Ok {| ps_State := "idle"; ps_Info := ""; ps_Error := ""; ps_Role := ""; ps_LagTimeSeconds := 0 |} else Err nil_panic;
  json_pcsm_error := λ _, Err nil_panic; json_pcsm_answer := λ _, Err nil_panic |}.
Definition demo_mongod : Client unit :=
  fixed_client unit
    {| RS_ID := ""; RS_Version := 1; Members := []; Configsvr := false; ProtocolVersion := 1; RS_Settings := zeroSettings;
       WriteConcernMajorityJournalDefault := false |} (demo_status []).
Local Instance demo_mongo : MongoByCredentials unit :=
  {| mongo_with_credentials := λ _ _ _ _, mret demo_mongod; mongo_disconnect := mret tt |}.
Local Instance demo_mongos : MongosByCredentials unit := λ _ _ _, notFound.
Local Instance demo_random : Random unit := {| mrand_Intn := λ _, mret 0%Z; rand_Int := λ _, mret 0%Z |}.
Local Instance demo_secret_client : ObjectClient unit OwnedSecret :=
  {| ob_get := λ _ _, notFound; ob_create := λ _, mret tt; ob_update := λ _, mret tt; ob_delete := λ _, mret tt |}.
Local Instance demo_budget_client : ObjectClient unit Budget :=
  {| ob_get := λ _ _, notFound; ob_create := λ _, mret tt; ob_update := λ _, mret tt; ob_delete := λ _, mret tt |}.
Definition demo_deployment (cr : ClusterSyncCR) : Deployment :=
  let d := Deployment_of cr in
  {| dep_Name := dep_Name d; dep_Namespace := dep_Namespace d; dep_Labels := dep_Labels d; dep_Annotations := ∅;
     dep_Controller := Some (sy_UID cr); dep_ResourceVersion := "7"; dep_Deleting := false; dep_Generation := 3;
     dep_ObservedGeneration := 3; dep_ReadyReplicas := 2; dep_Spec := None |}.
Local Instance demo_deployment_client : ObjectClient unit Deployment :=
  {| ob_get := λ _ _, mret (demo_deployment (a_sync ClusterSyncModeRunning "" 2)); ob_create := λ _, mret tt;
     ob_update := λ _, mret tt; ob_delete := λ _, mret tt |}.
Local Instance demo_hash_secret : ObjectHash OwnedSecret := λ _, Ok "hash".
Local Instance demo_hash_deployment : ObjectHash Deployment := λ _, Ok "hash".
Local Instance demo_hash_budget : ObjectHash Budget := λ _, Ok "hash".
Local Instance demo_parser : UrlParser := λ _, Ok
  {| u_Scheme := "mongodb"; u_Opaque := ""; u_User := None; u_Host := "source:27017"; u_EscapedPath := "";
     u_ForceQuery := false; u_RawQuery := ""; u_EscapedFragment := "" |}.
Local Instance demo_sha : Sha256 := {| sha256_hex := λ _, "sha"; hmac_sha256_hex := λ _ _, "mac" |}.
Definition demo_client (cr : ClusterSyncCR) : SyncClient unit := {|
  sapi_get := λ _ _, mret cr; sapi_patch_finalizers := λ _ _, mret tt; sapi_update_status := λ _, mret tt;
  sapi_get_target := λ _ _, mret a_target; sapi_CheckNSetDefaults := λ c _, Ok c |}.
(** The restores that are there *)
Definition demo_restores (l : list PerconaServerMongoDBRestore) : BackupClient unit :=
  let base := emptyBackups unit in {|
  api_get_cluster := λ _ _, notFound; api_read_cluster := λ _ _, notFound; api_get_backup := λ _ _, notFound;
  api_read_backup := λ _ _, notFound; api_list_backups := λ _ _, mret []; api_list_restores := λ _, mret l;
  api_create_backup := λ _, mret tt; api_delete_backup := λ _, mret tt; api_update_backup_status := λ _, mret tt;
  api_update_backup := λ _, mret tt; api_patch_finalizers := λ _ _, mret tt; go_now := mret 0%Z; go_stamp := mret "" |}.
Definition sync_run (l : list PerconaServerMongoDBRestore) (cr : ClusterSyncCR)
    : result Result * (list sync_event * unit) :=
  Reconcile (SY := st_client (SY := demo_client cr)) (KB := st_backups (KB := demo_restores l)) "ns" "s" ([], tt).
Definition fresh_sync : ClusterSyncCR := a_sync ClusterSyncModeRunning "" 2.
Definition start_command : list string := ["pcsm"; "start"; "--exclude-namespaces=db.tmp"].

Lemma sync_starts_unblocked_witness :
  let trace := (sync_run [] fresh_sync).2.1 in
  trace = take 6 trace ++ SentPcsm (pcsm_pod "b") start_command (Ok ("idle", "", None)) :: drop 7 trace ∧
  ∃ cr taken, ReadSync cr ∈ take 6 trace ∧ sps_Mode (sy_Spec cr) = ClusterSyncModeRunning ∧
    holds_lease cr taken ∧ taken `sublist_of` take 6 trace.
Proof.
  intros trace.
  assert (trace = take 6 trace ++ SentPcsm (pcsm_pod "b") start_command (Ok ("idle", "", None)) :: drop 7 trace) as Ht
    by (vm_compute; reflexivity).
  split; [exact Ht|].
  destruct (sync_starts_unblocked (SY := demo_client fresh_sync) (KB := demo_restores []) "ns" "s" tt _ _ _ _ _ Ht eq_refl)
    as (cr & args & taken & mid & h & l & refused & E & _ & Hm & Hl & _).
  exists cr, taken. rewrite E. split; [left|]. split; [exact Hm|]. split; [exact Hl|].
  apply sublist_cons, sublist_inserts_r. reflexivity.
Defined.

Lemma command_run_once_witness :
  filter (λ e, is_command e = true) (sync_run [] fresh_sync).2.1 =
    [SentPcsm (pcsm_pod "b") start_command (Ok ("idle", "", None))] ∧
  ∃ args, one_command args (filter (λ e, is_command e = true) (sync_run [] fresh_sync).2.1).
Proof.
  split; [vm_compute; reflexivity|].
  exact (command_run_once (SY := demo_client fresh_sync) (KB := demo_restores []) "ns" "s" tt).
Defined.

(** A restore of the target that nobody has looked at yet holds the start back. *)
Example sync_waits_for_restore :
  existsb is_command (sync_run [{| r_Name := "r"; r_ClusterName := "c"; r_State := RestoreStateNew |}] fresh_sync).2.1 = false.
Proof. vm_compute. reflexivity. Qed.
End demo.
